(* ===== verification/_CoqProject ===== *)
-Q . S2P
Prelude.v
Machine.v
Str.v
Spin.v
Kalloc.v
Flt.v
ProcTable.v
Sched.v
Proc.v
ProcOk.v
ProcSteps.v
Bio.v
Log.v
Vm.v
VmOk.v
VmFree.v
SleepLock.v
Frame.v
Pipe.v
Shm.v
Fs.v
Txn.v
FsOk.v
FsData.v
FsDir.v
FsPath.v
Mkfs.v
MkfsOk.v
File.v
Syscall.v
Rtc.v
Sysproc.v
Sysfile.v
FileOk.v
Exec.v
ExecArgs.v
Trap.v
Asm.v
Text.v
Printf.v
Umalloc.v
Console.v
Kbd.v
Ide.v
Boot.v
Smp.v
SmpOk.v
User.v
Sh.v
