(* ===== verification/Prelude.v ===== *)
(** * A verification development of an xv6-based teaching kernel

    The program is a kernel for x86 multiprocessors in C ([src/]): spin locks,
    a page allocator, processes with a three-queue scheduler, paging, shared
    memory segments, a buffer cache, a write-ahead log, a file system, pipes,
    open files, program loading, traps and system calls, drivers for console,
    keyboard, serial port and disk, the boot loader and the start-up of the
    other processors; the programs that run on it, a shell among them; and the
    host program that builds its file system.  The sources are translated to Rocq functions, and the theorems
    are about those functions.

    ** How code becomes definitions

    A routine is a function of the monad [M S A] of this file: from a state
    [S] to [Ok] with a value and a new state, [Panic] with the message of
    [panic], [Fault] for an access the C language gives no meaning to, or
    [Block] when it cannot go on until another processor or process acts.  A
    component of a larger state is a [lens] ([Spin]).  Integers are [Z] with
    the width of the C type written out ([wrap32], [sint32]; [Machine]),
    memory is a function from addresses to bytes, floats are IEEE binary32
    ([Flt]).  A table entry is its index, a null pointer to one is [None].

    Loops that are not structural have fuel computed from the data, enough for
    every round the loop can make (the number of pages, blocks, bytes or
    directory entries in the range); running out is [Fault "fuel"], and the
    theorems that say a routine returns show that it does not happen.  The
    shell's parser has four levels per character of the line, which
    [Sh.parsecmd_terminates] proves enough.  The
    loops that wait for others ([sleep] in a loop) take a list of what the rest
    of the system does during each wait, and are [Block] when it ends.  A
    context switch is such an argument too ([sched others]).  Interleavings of
    processors and processes are explicit step functions over any schedule
    ([Spin.lock_step], [SleepLock.w_step], [ProcOk.tstep]).  A crash is a prefix
    of the history of block writes.

    A user program is a tree whose nodes are the system calls it makes, each
    with a branch for every answer ([User.prog]); processes run such trees in a
    pool, one call at a time in any order.  Assembly is a list of instructions
    run on registers and memory ([Asm]).

    Code outside the sources and hardware are parameters: the interfaces
    [Services], [SysprocDeps], [SysfileDeps], [FileDeps], [ExecDeps],
    [TrapDeps] name the operations one part calls of another; [Ports],
    [StringPorts] are the port instructions, [Crt], [IdeDisk], [IoApicOk] and [LApicOk]
    the documented behaviour of the screen's cursor register, of the disk
    controller and of the interrupt controllers; [BlockLayer] with
    [LayerOk] is what the file system relies on of cache and log, and [Txn]
    proves it of them.

    ** Files

    - [Prelude]: results, the monad and its laws, notations, list lemmas.
    - [Machine]: words, memory, page macros ([types.h], [mmu.h], [memlayout.h],
      [param.h]).
    - [Str]: [string.c] and the string routines of [ulib.c]; [memmove] on
      overlapping blocks, the word-wise [memset] against the byte-wise one.
    - [Spin]: [spinlock.c]; mutual exclusion under every interleaving of the
      lock accesses, and that these accesses are [acquire] and [release].
    - [Kalloc]: [kalloc.c]; refinement of the free list in memory to a list of
      pages, freeing a range, freeing and allocating.
    - [Flt], [ProcTable], [Sched]: binary32 arithmetic; [struct proc] and the
      table walks of [proc.c]; what the queues choose, that round robin does not
      starve, that best job first can, aging, [find_digital_root].
    - [Proc], [ProcOk], [ProcSteps]: the operations of [proc.c]; the invariant
      of every reachable process table, by induction on the steps; that the
      operations only take such steps, and that [wait] does not miss an [exit].
    - [Bio], [Log]: [bio.c] with [memide.c], and [log.c]; that [bread] gives the
      latest content, that a commit is atomic under a crash at any write, that
      recovery can be restarted, what [log_write] records, and that the
      reservations of [begin_op] can exceed the log.
    - [Vm], [VmOk], [VmFree]: [vm.c]; what mapping, growing, shrinking and
      freeing an address space do to its translations and to the free list.
    - [SleepLock]: [sleeplock.c] and [priority_lock.c]; exclusion and no lost
      wake-up under every interleaving.
    - [Frame]: which observations a routine leaves alone.
    - [Pipe]: [pipe.c]; first in, first out, and the two refinements of the
      sleeping loops to it.
    - [Shm]: shared memory of [vm.c]; the double free of the last close.
    - [Fs], [Txn], [FsOk], [FsData], [FsDir], [FsPath]: [fs.c]; the contract of
      the block layer and its proof for [Bio] and [Log]; block allocation;
      reading and writing files; a linked name is found again; a path is walked
      as the tree on the disk says, leaving references and locks as they were.
    - [Mkfs], [MkfsOk]: [mkfs.c]; the image it builds is a consistent file system
      with the given files, and when its root directory gets a hole.
    - [File], [FileOk]: [file.c] and [pipealloc]; the table of open files stays
      well typed; the pieces of [filewrite] fit their transactions.
    - [Syscall]: arguments of [syscall.c]; the checks in exact arithmetic.
    - [Rtc], [Sysproc], [Sysfile]: the clock of [lapic.c], [sysproc.c],
      [sysfile.c]; that taking the user spin lock ends in a panic.
    - [Exec], [ExecArgs]: [exec.c]; all or nothing, and the frame of [main].
    - [Trap]: [trap.c] and the dispatch of [syscall.c].
    - [Asm]: [swtch.S], [trapasm.S], [vectors.pl], [usys.S]; that a switched-out
      thread is resumed as it was, that a trap returns to the interrupted
      program, that a new process reaches user mode, that a stub returns.
    - [Text]: [grep.c] and [wc.c]; the matcher against the language of a
      pattern, the lines printed, the counts.
    - [Printf]: the two [printint]s and format loops of [printf.c] and
      [console.c]; what the digits denote and that [atoi] reads them back.
    - [Umalloc]: [umalloc.c]; the blocks a program holds stay apart, whatever it
      allocates and frees.
    - [Console], [Kbd]: [console.c], [uart.c], [kbd.c], [kbd.h]; output stays on
      the screen, input refines a line editor, reading hands over its lines,
      keys give their characters.
    - [Ide]: [ide.c]; the queue with its interrupts refines requests served one
      at a time; a failed read passes for a good one.
    - [Boot]: [bootmain.c]; the kernel on the disk is loaded as its headers say.
    - [Smp], [SmpOk]: [mp.c], [ioapic.c], [picirq.c], the interrupt controller of
      [lapic.c] and [startothers] of [main.c]; the processors the firmware's
      table lists, an unknown entry that hangs the boot, the routing of
      interrupts, and that every processor comes up on its own stack.
    - [User]: [printf.c], [gets] and [stat] of [ulib.c], the small programs, and
      the pool of processes that run them.
    - [Sh]: [sh.c]; the parser ends on every line and parses the grammar of the
      shell; every run of a line connects its commands as the line says.

    ** What is not modelled

    The mode switches of the assembly start-up files ([bootasm.S], [entry.S],
    the first half of [entryother.S]) and [initcode.S]; [main], which calls the
    initialisers of the other parts in turn; the test program [usertests.c],
    [shared_test.c], whose processes share memory, and
    [number_of_system_calls.c].
    The cache and inode sleep locks are the pid that holds them, and the spin
    locks that make one table access a critical section are not part of the
    states of [Bio], [Log], [Fs] and [File]: these run one process at a time, as
    their locks make them do, and the locks themselves are verified in [Spin]
    and [SleepLock]. *)

From Stdlib Require Export ZArith Lia.
From stdpp Require Export base numbers list gmap strings.

(** ** Results of kernel code

    A kernel routine either finishes with a value, calls [panic] (the machine
    stops with a message), performs an access the C language gives no meaning
    to (a null or out-of-range access, [Fault]), or cannot go on until another
    processor or process acts ([Block]: it spins or sleeps). *)

Inductive res (A : Type) : Type :=
| Ok (a : A)
| Panic (msg : string)
| Fault (why : string)
| Block.
Arguments Ok {_} _.
Arguments Panic {_} _.
Arguments Fault {_} _.
Arguments Block {_}.

Global Instance res_ret : MRet res := λ A a, Ok a.
Global Instance res_bind : MBind res := λ A B k c,
  match c with
  | Ok a => k a
  | Panic m => Panic m
  | Fault w => Fault w
  | Block => Block
  end.

(** Stateful kernel code: explicit passing of the component's state. *)
Definition M (S A : Type) : Type := S → res (A * S).

Global Instance M_ret S : MRet (M S) := λ A a s, Ok (a, s).
Global Instance M_bind S : MBind (M S) := λ A B k c s,
  match c s with
  | Ok (a, s') => k a s'
  | Panic m => Panic m
  | Fault w => Fault w
  | Block => Block
  end.

Definition panic {S A} (msg : string) : M S A := λ _, Panic msg.
Definition fault {S A} (why : string) : M S A := λ _, Fault why.
Definition block {S A} : M S A := λ _, Block.
Definition get {S} : M S S := λ s, Ok (s, s).
Definition put {S} (s' : S) : M S unit := λ _, Ok (tt, s').
Definition gets {S A} (f : S → A) : M S A := λ s, Ok (f s, s).
Definition modify {S} (f : S → S) : M S unit := λ s, Ok (tt, f s).
Definition lift {S A} (r : res A) : M S A := λ s,
  match r with
  | Ok a => Ok (a, s)
  | Panic m => Panic m
  | Fault w => Fault w
  | Block => Block
  end.
(** [if(b) m;] *)
Definition whenM {S} (b : bool) (m : M S unit) : M S unit := if b then m else mret tt.

Lemma bind_Ok {S A B} (c : M S A) (k : A → M S B) s b s' :
  (c ≫= k) s = Ok (b, s') ↔ ∃ a s1, c s = Ok (a, s1) ∧ k a s1 = Ok (b, s').
Proof.
  unfold mbind, M_bind. split.
  - destruct (c s) as [[a s1]| | |] eqn:E; naive_solver.
  - intros (a & s1 & -> & Hk). done.
Qed.

Lemma bind_assoc {S A B C} (c : M S A) (f : A → M S B) (g : B → M S C) s :
  ((c ≫= f) ≫= g) s = (c ≫= λ a, f a ≫= g) s.
Proof. unfold mbind, M_bind. by destruct (c s) as [[]| | |]. Qed.
Lemma bind_ext {S A B} (c : M S A) (f g : A → M S B) s :
  (∀ a s', f a s' = g a s') → (c ≫= f) s = (c ≫= g) s.
Proof. intros H. unfold mbind, M_bind. destruct (c s) as [[]| | |]; auto. Qed.
Lemma bind_Ok_l {S A B} (c : M S A) (k : A → M S B) s a s1 :
  c s = Ok (a, s1) → (c ≫= k) s = k a s1.
Proof. unfold mbind, M_bind. by intros ->. Qed.

Lemma rbind_Ok {A B} (c : res A) (k : A → res B) b :
  (c ≫= k) = Ok b ↔ ∃ a, c = Ok a ∧ k a = Ok b.
Proof. unfold mbind, res_bind. destruct c; naive_solver. Qed.

Lemma lift_Ok {S A} (r : res A) (s s' : S) a :
  lift r s = Ok (a, s') ↔ r = Ok a ∧ s' = s.
Proof. unfold lift. destruct r; naive_solver. Qed.

(** Loops with a fixed trip count over a list, [for x in l: body]. *)
Fixpoint forM {S A} (l : list A) (body : A → M S unit) : M S unit :=
  match l with
  | [] => mret tt
  | x :: l' => body x ;; forM l' body
  end.

(** Invert a successful monadic run into the runs of its parts. *)
Ltac inv_ok :=
  repeat match goal with
  | H : Ok _ = Ok _ |- _ => injection H as H; subst
  | H : (_, _) = (_, _) |- _ => injection H as H; subst
  | H : Panic _ = Ok _ |- _ => discriminate H
  | H : Fault _ = Ok _ |- _ => discriminate H
  | H : Block = Ok _ |- _ => discriminate H
  | H : (_ ≫= _) _ = Ok (_, _) |- _ =>
      apply bind_Ok in H; destruct H as (? & ? & ? & H)
  | H : (_ ≫= _) = Ok _ |- _ =>
      apply rbind_Ok in H; destruct H as (? & ? & H)
  | H : lift _ _ = Ok (_, _) |- _ => apply lift_Ok in H; destruct H as [? ?]; subst
  | H : mret _ _ = Ok _ |- _ => unfold mret, M_ret in H
  | H : get _ = Ok _ |- _ => unfold get in H
  | H : put _ _ = Ok _ |- _ => unfold put in H
  | H : gets _ _ = Ok _ |- _ => unfold gets in H
  | H : modify _ _ = Ok _ |- _ => unfold modify in H
  | H : panic _ _ = Ok _ |- _ => discriminate H
  | H : fault _ _ = Ok _ |- _ => discriminate H
  | H : block _ = Ok _ |- _ => discriminate H
  end.

(** Unfold the monad on a concrete run. *)
Ltac runM :=
  unfold mbind, M_bind, mret, M_ret, gets, modify, get, put, panic, fault, block, whenM in *;
  cbn beta iota in *.

(** ** Boolean tests of the C conditions, as propositions *)

Ltac bool_to_prop :=
  repeat match goal with
  | H : _ && _ = true |- _ => apply andb_true_iff in H; destruct H
  | H : _ || _ = false |- _ => apply orb_false_iff in H; destruct H
  | H : _ && _ = false |- _ => apply andb_false_iff in H
  | H : _ || _ = true |- _ => apply orb_true_iff in H
  | H : negb _ = true |- _ => apply negb_true_iff in H
  | H : negb _ = false |- _ => apply negb_false_iff in H
  | H : bool_decide _ = true |- _ => apply bool_decide_eq_true in H
  | H : bool_decide _ = false |- _ => apply bool_decide_eq_false in H
  | H : (_ =? _)%Z = true |- _ => apply Z.eqb_eq in H
  | H : (_ =? _)%Z = false |- _ => apply Z.eqb_neq in H
  | H : (_ <? _)%Z = true |- _ => apply Z.ltb_lt in H
  | H : (_ <? _)%Z = false |- _ => apply Z.ltb_ge in H
  | H : (_ <=? _)%Z = true |- _ => apply Z.leb_le in H
  | H : (_ <=? _)%Z = false |- _ => apply Z.leb_gt in H
  | H : (_ =? _)%nat = true |- _ => apply Nat.eqb_eq in H
  | H : (_ =? _)%nat = false |- _ => apply Nat.eqb_neq in H
  end.

(** ** The "running best" loop

    Several loops of the kernel walk a table and remember the best entry seen
    so far:
<<
    best = init; res = 0;
    for(p = tbl; p < &tbl[N]; p++)
      if(cand(p) && better(key(p), best)){ best = key(p); res = p; }
>>
    [scan_best] is that loop; the section proves what it computes when
    [better] is a strict weak order. *)

Section ScanBest.
Context {A K : Type}.
Variable cand : A → bool.
Variable key : A → K.
Variable better : K → K → bool.

Fixpoint scan_best (l : list A) (i : nat) (best : K) (r : option nat) : K * option nat :=
  match l with
  | [] => (best, r)
  | p :: l' =>
      if cand p && better (key p) best
      then scan_best l' (S i) (key p) (Some i)
      else scan_best l' (S i) best r
  end.

Hypothesis better_irrefl : ∀ a, better a a = false.
Hypothesis better_trans : ∀ a b c, better a b = true → better b c = true → better a c = true.
Hypothesis better_negtrans : ∀ a b c, better a c = true → better a b = true ∨ better b c = true.

Lemma better_asym a b : better a b = true → better b a = false.
Proof.
  intros H. destruct (better b a) eqn:E; [|done].
  by rewrite <- (better_irrefl a), (better_trans a b a).
Qed.

Lemma scan_best_spec l i best r best' r' :
  scan_best l i best r = (best', r') →
  (r' = r ∧ best' = best ∧ ∀ j y, l !! j = Some y → cand y = true → better (key y) best = false) ∨
  (∃ j x, r' = Some (i + j)%nat ∧ best' = key x ∧ l !! j = Some x ∧ cand x = true ∧
     better (key x) best = true ∧
     (∀ k y, l !! k = Some y → cand y = true → better (key y) (key x) = false) ∧
     (∀ k y, (k < j)%nat → l !! k = Some y → cand y = true → better (key x) (key y) = true)).
Proof.
  revert i best r. induction l as [|p l IH]; intros i best r; simpl.
  - intros [= <- <-]. left. split_and!; [done..|]. by intros j y Hj; rewrite lookup_nil in Hj.
  - destruct (cand p && better (key p) best) eqn:E; bool_to_prop; intros Hs.
    + destruct (IH _ _ _ Hs) as [(-> & -> & Hno) | (j & x & -> & -> & Hj & Hc & Hb & Hmax & Hfst)].
      * right. exists 0%nat, p. replace (i + 0)%nat with i by lia.
        split_and!; try done; [|intros; lia].
        intros [|k] y Hk Hy; simpl in Hk; [by simplify_eq; apply better_irrefl|eauto].
      * right. exists (S j), x. replace (i + S j)%nat with (S i + j)%nat by lia.
        split_and!; try done; [by eapply better_trans| |].
        { intros [|k] y Hk Hy; simpl in Hk; [|eauto].
          simplify_eq. by apply better_asym. }
        { intros [|k] y Hkj Hk Hy; simpl in Hk; [by simplify_eq|].
          apply (Hfst k y); [lia|done..]. }
    + destruct (IH _ _ _ Hs) as [(-> & -> & Hno) | (j & x & -> & -> & Hj & Hc & Hb & Hmax & Hfst)].
      * left. split_and!; [done..|]. intros [|k] y Hk Hy; simpl in Hk; [|eauto].
        simplify_eq. rewrite Hy in E. by destruct E.
      * right. exists (S j), x. replace (i + S j)%nat with (S i + j)%nat by lia.
        assert (Hp : cand p = true → better (key p) best = false) by (intros Hcp; by destruct E; congruence).
        split_and!; try done.
        { intros [|k] y Hk Hy; simpl in Hk; [|eauto]. simplify_eq.
          destruct (better (key y) (key x)) eqn:Eyx; [|done].
          rewrite (better_trans _ _ _ Eyx Hb) in Hp. naive_solver. }
        { intros [|k] y Hkj Hk Hy; simpl in Hk; [|apply (Hfst k y); [lia|done..]]. simplify_eq.
          destruct (better_negtrans _ (key y) _ Hb) as [?|Hyb]; [done|].
          rewrite (Hp Hy) in Hyb. done. }
Qed.

(** The entry found is a candidate beating the initial value, no candidate
    beats it, and it beats every earlier candidate. *)
Lemma scan_best_Some l best i :
  (scan_best l 0 best None).2 = Some i →
  ∃ x, l !! i = Some x ∧ cand x = true ∧ better (key x) best = true ∧
    (∀ k y, l !! k = Some y → cand y = true → better (key y) (key x) = false) ∧
    (∀ k y, (k < i)%nat → l !! k = Some y → cand y = true → better (key x) (key y) = true).
Proof.
  destruct (scan_best l 0 best None) as [b r] eqn:E; simpl; intros ->.
  apply scan_best_spec in E as [(?&_)|(j & x & [= ->] & _ & ?)]; [done|].
  simpl. naive_solver.
Qed.

Lemma scan_best_None l best :
  (scan_best l 0 best None).2 = None ↔
  ∀ j y, l !! j = Some y → cand y = true → better (key y) best = false.
Proof.
  destruct (scan_best l 0 best None) as [b r] eqn:E; simpl.
  apply scan_best_spec in E as [(-> & _ & Hno)|(j & x & -> & _ & Hj & Hc & Hb & _)]; [done|].
  split; [done|]. intros Hno. rewrite (Hno _ _ Hj Hc) in Hb. done.
Qed.
End ScanBest.

(** The integer instance: a running maximum. *)
Definition zgt (a b : Z) : bool := (b <? a)%Z.
Lemma zgt_irrefl a : zgt a a = false.
Proof. apply Z.ltb_irrefl. Qed.
Lemma zgt_trans a b c : zgt a b = true → zgt b c = true → zgt a c = true.
Proof. unfold zgt. rewrite !Z.ltb_lt. lia. Qed.
Lemma zgt_negtrans a b c : zgt a c = true → zgt a b = true ∨ zgt b c = true.
Proof. unfold zgt. rewrite !Z.ltb_lt. lia. Qed.

(** ** Lists *)

Create Rewrite HintDb len.
Global Hint Rewrite @length_app @length_drop @length_take @length_fmap @length_replicate
  @length_insert @length_alter @length_reverse @length_seq : len.
Ltac len := autorewrite with len in *; simpl in *; lia.

Lemma alter_alter {A} (f g : A → A) i (l : list A) :
  alter g i (alter f i l) = alter (λ x, g (f x)) i l.
Proof. revert i. induction l as [|x l IH]; intros [|i]; simpl; [done..|]. f_equal. apply IH. Qed.
Lemma alter_at {A} (f : A → A) i (x : A) (t : list A) : t !! i = Some x → alter f i t = <[i := f x]> t.
Proof.
  intros Hx. rewrite list_insert_alter. apply list_eq. intros j. destruct (decide (i = j)) as [<-|Hne].
  - rewrite !list_lookup_alter_eq, Hx. done.
  - by rewrite !list_lookup_alter_ne.
Qed.

(** The first index of [l] satisfying [f] (a [for] loop with an early exit). *)
Fixpoint find_index {A} (f : A → bool) (l : list A) : option nat :=
  match l with
  | [] => None
  | x :: l' => if f x then Some 0%nat else S <$> find_index f l'
  end.

Lemma find_index_Some {A} (f : A → bool) l i :
  find_index f l = Some i ↔
  (∃ x, l !! i = Some x ∧ f x = true) ∧ ∀ j y, (j < i)%nat → l !! j = Some y → f y = false.
Proof.
  revert i. induction l as [|x l IH]; intros i; simpl.
  { split; [done|]. intros [(x & Hx & _) _]. by rewrite lookup_nil in Hx. }
  destruct (f x) eqn:E.
  - split.
    + intros [= <-]. split; [by exists x|]. intros; lia.
    + intros [_ Hfst]. destruct i as [|i]; [done|].
      rewrite (Hfst 0%nat x ltac:(lia) eq_refl) in E. done.
  - destruct i as [|i]; simpl.
    + split; [by destruct (find_index f l)|]. intros [(y & [= <-] & Hy) _]. congruence.
    + rewrite fmap_Some. split.
      * intros (k & Hk & [= <-]). apply IH in Hk as [Hx Hfst]. split; [done|].
        intros [|j] y Hj Hy; simpl in Hy; [by simplify_eq|]. apply (Hfst j y); [lia|done].
      * intros [Hx Hfst]. exists i. split; [|done]. apply IH. split; [done|].
        intros j y Hj Hy. apply (Hfst (S j) y); [lia|done].
Qed.

Lemma find_index_None {A} (f : A → bool) l :
  find_index f l = None ↔ ∀ j y, l !! j = Some y → f y = false.
Proof.
  induction l as [|x l IH]; simpl.
  { split; [|done]. intros _ j y Hj. by rewrite lookup_nil in Hj. }
  destruct (f x) eqn:E.
  - split; [done|]. intros H. rewrite (H 0%nat x eq_refl) in E. done.
  - rewrite fmap_None, IH. split.
    + intros H [|j] y Hy; simpl in Hy; [by simplify_eq|eauto].
    + intros H j y Hy. apply (H (S j) y Hy).
Qed.
