(* ===== verification/Machine.v ===== *)
(** * The machine: 32-bit words, byte-addressed memory, the x86 page macros

    [types.h], [mmu.h], [memlayout.h], [param.h]: the constants and macros the
    kernel is written with, on [Z] with the wrap-around of the C type written
    out, and the memory the kernel's pointers point into. *)

From S2P Require Import Prelude.
Local Open Scope Z_scope.

(** ** Words *)

(** [uint]: 32-bit wrap-around. *)
Definition wrap32 (z : Z) : Z := z mod 2^32.
(** [int]: the two's complement reading of the low 32 bits. *)
Definition sint32 (z : Z) : Z :=
  let w := z mod 2^32 in if w <? 2^31 then w else w - 2^32.
Definition is_u32 (z : Z) : Prop := 0 ≤ z < 2^32.
Definition is_i32 (z : Z) : Prop := - 2^31 ≤ z < 2^31.
Definition is_u8 (z : Z) : Prop := 0 ≤ z < 256.

Lemma wrap32_range z : is_u32 (wrap32 z).
Proof. apply Z.mod_pos_bound. lia. Qed.
Lemma wrap32_id z : is_u32 z → wrap32 z = z.
Proof. apply Z.mod_small. Qed.
Lemma wrap32_add_l a b : wrap32 (wrap32 a + b) = wrap32 (a + b).
Proof. apply Zplus_mod_idemp_l. Qed.
Lemma wrap32_add_r a b : wrap32 (a + wrap32 b) = wrap32 (a + b).
Proof. apply Zplus_mod_idemp_r. Qed.
Lemma wrap32_sub_l a b : wrap32 (wrap32 a - b) = wrap32 (a - b).
Proof. apply Zminus_mod_idemp_l. Qed.
Lemma wrap32_sub_r a b : wrap32 (a - wrap32 b) = wrap32 (a - b).
Proof. apply Zminus_mod_idemp_r. Qed.

Lemma sint32_range z : is_i32 (sint32 z).
Proof.
  unfold sint32, is_i32. pose proof (Z.mod_pos_bound z (2^32)).
  destruct (Z.ltb_spec (z mod 2^32) (2^31)); lia.
Qed.
Lemma sint32_id z : is_i32 z → sint32 z = z.
Proof.
  unfold sint32, is_i32. intros Hz.
  destruct (decide (0 ≤ z)).
  - rewrite Z.mod_small by lia. destruct (Z.ltb_spec z (2^31)); lia.
  - replace (z mod 2^32) with (z + 2^32)
      by (rewrite <- (Z.mod_add z 1 (2^32)) by lia; rewrite Z.mod_small; lia).
    destruct (Z.ltb_spec (z + 2^32) (2^31)); lia.
Qed.
Lemma sint32_wrap32 z : sint32 (wrap32 z) = sint32 z.
Proof. unfold sint32, wrap32. by rewrite Z.mod_mod by lia. Qed.
Lemma wrap32_sint32 z : wrap32 (sint32 z) = wrap32 z.
Proof.
  unfold sint32, wrap32. destruct (_ <? _).
  - by rewrite Z.mod_mod by lia.
  - rewrite <- (Z.mod_add _ 1 (2^32)) by lia.
    replace (z mod 2^32 - 2^32 + 1 * 2^32) with (z mod 2^32) by lia.
    by rewrite Z.mod_mod by lia.
Qed.

Create Rewrite HintDb word.
Global Hint Rewrite wrap32_add_l wrap32_add_r wrap32_sub_l wrap32_sub_r sint32_wrap32 wrap32_sint32 : word.

(** ** Memory *)

(** Bytes by address.  Kernel pointers are kernel virtual addresses; physical
    memory is mapped at [KERNBASE], so one address names one byte. *)
Abbreviation mem := (Z → Z).

Definition upd (m : mem) (a v : Z) : mem := λ x, if x =? a then v else m x.

Definition bytes (m : mem) : Prop := ∀ a, is_u8 (m a).

(** A little-endian word. *)
Definition load32 (m : mem) (a : Z) : Z :=
  m a + 2^8 * m (a + 1) + 2^16 * m (a + 2) + 2^24 * m (a + 3).
Definition store32 (m : mem) (a v : Z) : mem := λ x,
  if x =? a then v mod 2^8
  else if x =? a + 1 then (v / 2^8) mod 2^8
  else if x =? a + 2 then (v / 2^16) mod 2^8
  else if x =? a + 3 then (v / 2^24) mod 2^8
  else m x.

Lemma upd_eq m a v : upd m a v a = v.
Proof. unfold upd. by rewrite Z.eqb_refl. Qed.
Lemma upd_ne m a b v : b ≠ a → upd m a v b = m b.
Proof. unfold upd. intros H. by rewrite (proj2 (Z.eqb_neq b a) H). Qed.
Lemma bytes_upd m a v : bytes m → is_u8 v → bytes (upd m a v).
Proof. intros Hm Hv x. unfold upd. destruct (_ =? _); [done|apply Hm]. Qed.

Lemma store32_other m a v x : ¬ (a ≤ x < a + 4) → store32 m a v x = m x.
Proof.
  intros Hx. unfold store32.
  repeat match goal with |- context [?x =? ?y] => destruct (Z.eqb_spec x y); [lia|] end. done.
Qed.
Lemma bytes_store32 m a v : bytes m → bytes (store32 m a v).
Proof.
  intros Hm x. unfold store32.
  repeat match goal with |- context [?x =? ?y] => destruct (Z.eqb_spec x y) end;
    try apply Hm; apply Z.mod_pos_bound; lia.
Qed.
Lemma load32_ext m1 m2 a :
  (∀ x, a ≤ x < a + 4 → m1 x = m2 x) → load32 m1 a = load32 m2 a.
Proof. intros H. unfold load32. rewrite !H by lia. done. Qed.
Lemma load32_store32 m a v : is_u32 v → load32 (store32 m a v) a = v.
Proof.
  intros Hv. unfold load32, store32, is_u32 in *.
  rewrite !Z.eqb_refl.
  repeat match goal with |- context [?x =? ?y] => destruct (Z.eqb_spec x y); [lia|] end.
  Z.div_mod_to_equations. lia.
Qed.
Lemma load32_store32_ne m a b v :
  b + 4 ≤ a ∨ a + 4 ≤ b → load32 (store32 m a v) b = load32 m b.
Proof. intros H. apply load32_ext. intros x Hx. apply store32_other. lia. Qed.
Lemma load32_range m a : bytes m → is_u32 (load32 m a).
Proof.
  intros Hm. unfold load32, is_u32.
  pose proof (Hm a). pose proof (Hm (a+1)). pose proof (Hm (a+2)). pose proof (Hm (a+3)).
  unfold is_u8 in *. lia.
Qed.

(** ** [param.h] *)
Definition NPROC : Z := 64.
Definition KSTACKSIZE : Z := 4096.
Definition NCPU : Z := 8.
Definition NOFILE : Z := 16.
Definition NFILE : Z := 100.
Definition NINODE : Z := 50.
Definition NDEV : Z := 10.
Definition ROOTDEV : Z := 1.
Definition MAXARG : Z := 32.
Definition MAXOPBLOCKS : Z := 10.
Definition LOGSIZE : Z := MAXOPBLOCKS * 3.
Definition NBUF : Z := MAXOPBLOCKS * 3.
Definition FSSIZE : Z := 1000.

(** ** [fcntl.h], [stat.h] and the name length of [fs.h] *)
Definition O_RDONLY : Z := 0x000.
Definition O_WRONLY : Z := 0x001.
Definition O_RDWR : Z := 0x002.
Definition O_CREATE : Z := 0x200.
Definition T_DIR : Z := 1.
Definition T_FILE : Z := 2.
Definition T_DEV : Z := 3.
Definition DIRSIZ : Z := 14.

(** ** [memlayout.h] *)
Definition EXTMEM : Z := 0x100000.
Definition PHYSTOP : Z := 0xE000000.
Definition DEVSPACE : Z := 0xFE000000.
Definition KERNBASE : Z := 0x80000000.
Definition KERNLINK : Z := KERNBASE + EXTMEM.
Definition V2P (a : Z) : Z := wrap32 (a - KERNBASE).
Definition P2V (a : Z) : Z := wrap32 (a + KERNBASE).

(** ** [mmu.h] *)
Definition FL_IF : Z := 0x200.
Definition SEG_KCODE : Z := 1.
Definition SEG_KDATA : Z := 2.
Definition SEG_UCODE : Z := 3.
Definition SEG_UDATA : Z := 4.
Definition SEG_TSS : Z := 5.
Definition DPL_USER : Z := 3.
Definition NPDENTRIES : Z := 1024.
Definition NPTENTRIES : Z := 1024.
Definition PGSIZE : Z := 4096.
Definition PTXSHIFT : Z := 12.
Definition PDXSHIFT : Z := 22.
Definition PDX (va : Z) : Z := Z.land (Z.shiftr va PDXSHIFT) 0x3FF.
Definition PTX (va : Z) : Z := Z.land (Z.shiftr va PTXSHIFT) 0x3FF.
Definition PGADDR (d t o : Z) : Z :=
  wrap32 (Z.lor (Z.lor (Z.shiftl d PDXSHIFT) (Z.shiftl t PTXSHIFT)) o).
Definition PGROUNDUP (sz : Z) : Z := Z.land (wrap32 (sz + PGSIZE - 1)) (wrap32 (Z.lnot (PGSIZE - 1))).
Definition PGROUNDDOWN (a : Z) : Z := Z.land a (wrap32 (Z.lnot (PGSIZE - 1))).
Definition PTE_P : Z := 0x001.
Definition PTE_W : Z := 0x002.
Definition PTE_U : Z := 0x004.
Definition PTE_PS : Z := 0x080.
Definition PTE_ADDR (pte : Z) : Z := Z.land pte (wrap32 (Z.lnot 0xFFF)).
Definition PTE_FLAGS (pte : Z) : Z := Z.land pte 0xFFF.

(** Masking off the low 12 bits of a word is rounding down to a page. *)
Lemma land_pagemask a : is_u32 a → Z.land a (wrap32 (Z.lnot (PGSIZE - 1))) = a - a mod PGSIZE.
Proof.
  intros Ha. change (wrap32 (Z.lnot (PGSIZE - 1))) with (Z.shiftl (Z.ones 20) 12).
  change PGSIZE with (2^12).
  replace (a - a mod 2^12) with (Z.shiftl (Z.shiftr a 12) 12).
  2:{ rewrite Z.shiftl_mul_pow2, Z.shiftr_div_pow2 by lia. rewrite (Z.div_mod a (2^12)) at 2 by lia. lia. }
  apply Z.bits_inj'. intros n Hn.
  rewrite Z.land_spec.
  destruct (decide (n < 12)).
  { rewrite !Z.shiftl_spec_low by lia. apply andb_false_r. }
  rewrite !Z.shiftl_spec, Z.shiftr_spec by lia.
  replace (n - 12 + 12) with n by lia.
  destruct (decide (n - 12 < 20)).
  { rewrite Z.ones_spec_low by lia. apply andb_true_r. }
  rewrite Z.ones_spec_high by lia. rewrite andb_false_r. symmetry.
  rewrite <- (Z.mod_small a (2^32)) by done.
  apply Z.mod_pow2_bits_high. lia.
Qed.

Lemma PGROUNDDOWN_spec a : is_u32 a → PGROUNDDOWN a = a - a mod PGSIZE.
Proof. apply land_pagemask. Qed.

Lemma PGROUNDUP_spec sz :
  0 ≤ sz → sz + PGSIZE - 1 < 2^32 →
  PGROUNDUP sz mod PGSIZE = 0 ∧ sz ≤ PGROUNDUP sz < sz + PGSIZE.
Proof.
  intros H1 H2. unfold PGROUNDUP. rewrite wrap32_id by (unfold is_u32, PGSIZE in *; lia).
  rewrite land_pagemask by (unfold is_u32, PGSIZE in *; lia).
  change PGSIZE with 4096 in *. Z.div_mod_to_equations. lia.
Qed.

(** Above [2^32 - PGSIZE] the rounding wraps to zero. *)
Lemma PGROUNDUP_overflow sz : 2^32 - PGSIZE < sz < 2^32 → PGROUNDUP sz = 0.
Proof.
  intros H. unfold PGROUNDUP. change PGSIZE with 4096 in *.
  replace (wrap32 (sz + 4096 - 1)) with (sz + 4096 - 1 - 2^32).
  2:{ unfold wrap32. rewrite <- (Z.mod_add _ (-1) (2^32)) by lia. rewrite Z.mod_small; lia. }
  change 4096 with PGSIZE. rewrite land_pagemask by (unfold is_u32, PGSIZE; lia).
  unfold PGSIZE. Z.div_mod_to_equations. lia.
Qed.

Lemma PDX_spec va : is_u32 va → PDX va = va / 2^22.
Proof.
  intros Ha. unfold PDX, PDXSHIFT. change 0x3FF with (Z.ones 10).
  rewrite Z.land_ones, Z.shiftr_div_pow2 by lia. apply Z.mod_small.
  unfold is_u32 in *. Z.div_mod_to_equations. lia.
Qed.
Lemma PTX_spec va : PTX va = va / 2^12 mod 2^10.
Proof.
  unfold PTX, PTXSHIFT. change 0x3FF with (Z.ones 10).
  by rewrite Z.land_ones, Z.shiftr_div_pow2 by lia.
Qed.

Lemma lor_add_disjoint a b n : 0 ≤ n → 0 ≤ b < 2^n → Z.lor (a * 2^n) b = a * 2^n + b.
Proof.
  intros Hn Hb. symmetry. rewrite <- Z.shiftl_mul_pow2 by lia.
  rewrite <- Z.lxor_lor; [apply Z.add_nocarry_lxor|]; apply Z.bits_inj'; intros i Hi;
    rewrite Z.land_spec, Z.bits_0;
    (destruct (decide (i < n)); [by rewrite Z.shiftl_spec_low by lia|]);
    rewrite <- (Z.mod_small b (2^n)) by lia; rewrite Z.mod_pow2_bits_high by lia; apply andb_false_r.
Qed.

Lemma PGADDR_spec d t o :
  0 ≤ d < 2^10 → 0 ≤ t < 2^10 → 0 ≤ o < 2^12 → PGADDR d t o = d * 2^22 + t * 2^12 + o.
Proof.
  intros Hd Ht Ho. unfold PGADDR, PDXSHIFT, PTXSHIFT.
  rewrite !Z.shiftl_mul_pow2 by lia.
  rewrite lor_add_disjoint by lia.
  replace (d * 2^22 + t * 2^12) with ((d * 2^10 + t) * 2^12) by lia.
  rewrite lor_add_disjoint by lia. rewrite wrap32_id by (unfold is_u32; lia). lia.
Qed.

Lemma PTE_ADDR_spec pte : is_u32 pte → PTE_ADDR pte = pte - pte mod PGSIZE.
Proof. apply land_pagemask. Qed.
Lemma PTE_FLAGS_spec pte : PTE_FLAGS pte = pte mod PGSIZE.
Proof. unfold PTE_FLAGS. change 0xFFF with (Z.ones 12). by rewrite Z.land_ones by lia. Qed.

Lemma V2P_P2V a : is_u32 a → V2P (P2V a) = a.
Proof.
  intros Ha. unfold V2P, P2V. rewrite wrap32_sub_l.
  replace (a + KERNBASE - KERNBASE) with a by lia. by apply wrap32_id.
Qed.
Lemma P2V_V2P a : is_u32 a → P2V (V2P a) = a.
Proof.
  intros Ha. unfold V2P, P2V. rewrite wrap32_add_l.
  replace (a - KERNBASE + KERNBASE) with a by lia. by apply wrap32_id.
Qed.

(** The page-directory index, page-table index and offset of a virtual
    address determine it: [PGADDR] rebuilds exactly the address that [PDX] and
    [PTX] take apart. *)
Theorem PGADDR_PDX_PTX va (Hva : is_u32 va) : PGADDR (PDX va) (PTX va) (va mod PGSIZE) = va.
Proof.
  rewrite PDX_spec, PTX_spec by done. unfold is_u32 in Hva. change PGSIZE with (2^12).
  rewrite PGADDR_spec; Z.div_mod_to_equations; lia.
Qed.
Lemma PGADDR_PDX_PTX_witness : PGADDR (PDX 0x801ab7c4) (PTX 0x801ab7c4) (0x801ab7c4 mod PGSIZE) = 0x801ab7c4.
Proof. apply (PGADDR_PDX_PTX 0x801ab7c4). split; [lia|reflexivity]. Defined.
