(* ===== verification/Str.v ===== *)
(** * The C string and memory routines

    [string.c] (kernel) and the string part of [ulib.c] (user), as loops over
    the byte memory of [Machine].  Loops bounded by a count recurse on the
    count; loops that run until a NUL take fuel and return [None] without one. *)

From S2P Require Import Prelude Machine.
Local Open Scope Z_scope.

(** ** Definitions *)

(** The characters of a string literal. *)
Definition chars (x : string) : list Z :=
  (λ c, Z.of_N (Ascii.N_of_ascii c)) <$> String.list_ascii_of_string x.

(** The characters before the terminator. *)
Fixpoint until_nul (l : list Z) : list Z :=
  match l with [] => [] | c :: l' => if c =? 0 then [] else c :: until_nul l' end.

(** [stosb]: [cnt] times store the low byte of [data]. *)
Fixpoint stosb (m : mem) (addr data : Z) (cnt : nat) : mem :=
  match cnt with
  | O => m
  | S k => stosb (upd m addr (data mod 256)) (addr + 1) data k
  end.

(** [stosl]: [cnt] times store the word [data]. *)
Fixpoint stosl (m : mem) (addr data : Z) (cnt : nat) : mem :=
  match cnt with
  | O => m
  | S k => stosl (store32 m addr data) (addr + 4) data k
  end.

Definition memset (m : mem) (dst c n : Z) : mem :=
  if (Z.rem (sint32 dst) 4 =? 0) && (n mod 4 =? 0) then
    let c := Z.land c 0xFF in
    stosl m dst
      (wrap32 (Z.lor (Z.lor (Z.lor (Z.shiftl c 24) (Z.shiftl c 16)) (Z.shiftl c 8)) c))
      (Z.to_nat (n / 4))
  else stosb m dst c (Z.to_nat n).

Fixpoint memcmp_loop (m : mem) (s1 s2 : Z) (n : nat) : Z :=
  match n with
  | O => 0
  | S k => if m s1 =? m s2 then memcmp_loop m (s1 + 1) (s2 + 1) k else m s1 - m s2
  end.
Definition memcmp (m : mem) (v1 v2 n : Z) : Z := memcmp_loop m v1 v2 (Z.to_nat n).

(** [while(n-- > 0) *d++ = *s++;] *)
Fixpoint copy_up (m : mem) (d s : Z) (n : nat) : mem :=
  match n with
  | O => m
  | S k => copy_up (upd m d (m s)) (d + 1) (s + 1) k
  end.
(** [while(n-- > 0) *--d = *--s;] *)
Fixpoint copy_down (m : mem) (d s : Z) (n : nat) : mem :=
  match n with
  | O => m
  | S k => copy_down (upd m (d - 1) (m (s - 1))) (d - 1) (s - 1) k
  end.
Definition memmove (m : mem) (dst src n : Z) : mem :=
  if (src <? dst) && (dst <? wrap32 (src + n))
  then copy_down m (dst + n) (src + n) (Z.to_nat n)
  else copy_up m dst src (Z.to_nat n).

Fixpoint strncmp_loop (m : mem) (p q : Z) (n : nat) : Z :=
  match n with
  | O => 0
  | S k =>
      if negb (m p =? 0) && (m p =? m q) then strncmp_loop m (p + 1) (q + 1) k
      else m p - m q
  end.
Definition strncmp (m : mem) (p q n : Z) : Z := strncmp_loop m p q (Z.to_nat n).

(** [while(n-- > 0) *s++ = 0;] *)
Fixpoint zero_fill (m : mem) (s : Z) (n : nat) : mem :=
  match n with
  | O => m
  | S k => zero_fill (upd m s 0) (s + 1) k
  end.
Fixpoint strncpy_loop (m : mem) (s t : Z) (n : nat) : mem :=
  match n with
  | O => m
  | S k =>
      let m' := upd m s (m t) in
      if m t =? 0 then zero_fill m' (s + 1) k else strncpy_loop m' (s + 1) (t + 1) k
  end.
Definition strncpy (m : mem) (s t n : Z) : mem := strncpy_loop m s t (Z.to_nat n).

(** The copy loop of [safestrcpy], entered with [k] the value of [n - 1]. *)
Fixpoint safestrcpy_loop (m : mem) (s t : Z) (k : nat) : mem :=
  match k with
  | O => upd m s 0
  | S k' =>
      let m' := upd m s (m t) in
      if m t =? 0 then upd m' (s + 1) 0 else safestrcpy_loop m' (s + 1) (t + 1) k'
  end.
Definition safestrcpy (m : mem) (s t n : Z) : mem :=
  if n <=? 0 then m else safestrcpy_loop m s t (Z.to_nat (n - 1)).

Fixpoint strlen_loop (fuel : nat) (m : mem) (s n : Z) : option Z :=
  match fuel with
  | O => None
  | S f => if m (s + n) =? 0 then Some n else strlen_loop f m s (n + 1)
  end.
Definition strlen (fuel : nat) (m : mem) (s : Z) : option Z := strlen_loop fuel m s 0.

(** *** [ulib.c] *)

Fixpoint strcpy (fuel : nat) (m : mem) (s t : Z) : option mem :=
  match fuel with
  | O => None
  | S f =>
      let m' := upd m s (m t) in
      if m t =? 0 then Some m' else strcpy f m' (s + 1) (t + 1)
  end.
Fixpoint strcmp (fuel : nat) (m : mem) (p q : Z) : option Z :=
  match fuel with
  | O => None
  | S f =>
      if negb (m p =? 0) && (m p =? m q) then strcmp f m (p + 1) (q + 1)
      else Some (m p - m q)
  end.
(** The address found, or 0. *)
Fixpoint strchr (fuel : nat) (m : mem) (s c : Z) : option Z :=
  match fuel with
  | O => None
  | S f => if m s =? 0 then Some 0 else if m s =? c then Some s else strchr f m (s + 1) c
  end.
Definition umemset (m : mem) (dst c n : Z) : mem := stosb m dst c (Z.to_nat n).
Definition umemmove (m : mem) (vdst vsrc n : Z) : mem := copy_up m vdst vsrc (Z.to_nat n).
Fixpoint atoi_loop (fuel : nat) (m : mem) (s n : Z) : option Z :=
  match fuel with
  | O => None
  | S f =>
      if (48 <=? m s) && (m s <=? 57)
      then atoi_loop f m (s + 1) (sint32 (n * 10 + m s - 48))
      else Some n
  end.
Definition atoi (fuel : nat) (m : mem) (s : Z) : option Z := atoi_loop fuel m s 0.

(** ** Strings in memory *)

(** [l] is the NUL-terminated string at [a]. *)
Fixpoint cstring (m : mem) (a : Z) (l : list Z) : Prop :=
  match l with
  | [] => m a = 0
  | c :: l' => m a = c ∧ c ≠ 0 ∧ cstring m (a + 1) l'
  end.

(** The characters of the at most [n]-byte name field at [a]: up to the first
    NUL or to the end of the field. *)
Fixpoint cname (m : mem) (a : Z) (n : nat) : list Z :=
  match n with
  | O => []
  | S k => if m a =? 0 then [] else m a :: cname m (a + 1) k
  end.

Lemma cstring_ext m m' a l :
  (∀ x, a ≤ x ≤ a + Z.of_nat (length l) → m' x = m x) → cstring m a l → cstring m' a l.
Proof.
  revert a. induction l as [|c l IH]; intros a Hx; simpl in *.
  - intros <-. apply Hx. lia.
  - intros (<- & Hc & Hl). split_and!; [apply Hx; lia|done|].
    apply IH; [|done]. intros x ?. apply Hx. lia.
Qed.

Lemma cname_ext m m' a n :
  (∀ x, a ≤ x < a + Z.of_nat n → m' x = m x) → cname m' a n = cname m a n.
Proof.
  revert a. induction n as [|n IH]; intros a Hx; simpl; [done|].
  rewrite Hx by lia. destruct (_ =? _); [done|]. f_equal. apply IH. intros; apply Hx; lia.
Qed.

Lemma cname_cstring m a l n : cstring m a l → cname m a n = take n l.
Proof.
  revert a n. induction l as [|c l IH]; intros a [|n]; simpl; try done.
  - intros ->. done.
  - intros (<- & Hc & Hl). rewrite (proj2 (Z.eqb_neq _ _) Hc). f_equal. by apply IH.
Qed.

(** ** The block routines *)

Lemma stosb_spec m a v n x :
  stosb m a v n x = if decide (a ≤ x < a + Z.of_nat n) then v mod 256 else m x.
Proof.
  revert m a. induction n as [|n IH]; intros m a; simpl.
  { rewrite decide_False by lia. done. }
  rewrite IH. destruct (decide (x = a)) as [->|Hne].
  - rewrite upd_eq. repeat case_decide; done || lia.
  - rewrite upd_ne by done. repeat case_decide; done || lia.
Qed.

Lemma store32_byte m a c x :
  is_u8 c →
  store32 m a (c * 0x1010101) x = if decide (a ≤ x < a + 4) then c else m x.
Proof.
  intros Hc. unfold is_u8 in Hc. unfold store32.
  repeat match goal with |- context [?x =? ?y] => destruct (Z.eqb_spec x y) end;
    case_decide; try done; try lia; subst; Z.div_mod_to_equations; lia.
Qed.

Lemma stosl_spec m a c n x :
  is_u8 c →
  stosl m a (c * 0x1010101) n x = if decide (a ≤ x < a + 4 * Z.of_nat n) then c else m x.
Proof.
  intros Hc. revert m a. induction n as [|n IH]; intros m a; simpl stosl.
  { rewrite decide_False by lia. done. }
  rewrite IH, store32_byte by done. repeat case_decide; done || lia.
Qed.

Lemma land_255 c : Z.land c 0xFF = c mod 256.
Proof. change 0xFF with (Z.ones 8). by rewrite Z.land_ones by lia. Qed.

Lemma splat_byte c : is_u8 c →
  wrap32 (Z.lor (Z.lor (Z.lor (Z.shiftl c 24) (Z.shiftl c 16)) (Z.shiftl c 8)) c) = c * 0x1010101.
Proof.
  intros Hc. unfold is_u8 in Hc. rewrite !Z.shiftl_mul_pow2 by lia.
  rewrite (lor_add_disjoint c (c * 2^16) 24) by lia.
  replace (c * 2^24 + c * 2^16) with ((c * 2^8 + c) * 2^16) by lia.
  rewrite (lor_add_disjoint _ (c * 2^8) 16) by lia.
  replace ((c * 2^8 + c) * 2^16 + c * 2^8) with ((c * 2^16 + c * 2^8 + c) * 2^8) by lia.
  rewrite (lor_add_disjoint _ c 8) by lia. rewrite wrap32_id by (unfold is_u32; lia). lia.
Qed.

Lemma copy_up_spec m d s n x :
  ¬ (s < d < s + Z.of_nat n) →
  copy_up m d s n x = if decide (d ≤ x < d + Z.of_nat n) then m (s + (x - d)) else m x.
Proof.
  revert m d s. induction n as [|n IH]; intros m d s Hov; simpl.
  { rewrite decide_False by lia. done. }
  rewrite IH by lia. destruct (decide (d ≤ x < d + Z.of_nat (S n))) as [Hx|Hx].
  - destruct (decide (x = d)) as [->|Hne].
    + rewrite decide_False by lia. rewrite upd_eq. f_equal. lia.
    + rewrite decide_True by lia. replace (s + 1 + (x - (d + 1))) with (s + (x - d)) by lia.
      destruct (decide (s = d)) as [->|].
      { replace (d + (x - d)) with x by lia. by apply upd_ne. }
      apply upd_ne. lia.
  - rewrite decide_False by lia. apply upd_ne. lia.
Qed.

Lemma copy_down_spec m d s n x :
  s < d →
  copy_down m d s n x =
    if decide (d - Z.of_nat n ≤ x < d) then m (s + (x - d)) else m x.
Proof.
  revert m d s. induction n as [|n IH]; intros m d s Hsd; simpl.
  { rewrite decide_False by lia. done. }
  rewrite IH by lia. destruct (decide (x = d - 1)) as [->|Hne].
  - rewrite decide_False, decide_True by lia. rewrite upd_eq. f_equal. lia.
  - destruct (decide (d - 1 - Z.of_nat n ≤ x < d - 1)).
    + rewrite decide_True by lia. replace (s - 1 + (x - (d - 1))) with (s + (x - d)) by lia.
      apply upd_ne. lia.
    + rewrite decide_False by lia. apply upd_ne. lia.
Qed.

Lemma memmove_eq m dst src n x : 0 ≤ n → 0 ≤ src → src + n < 2^32 →
  memmove m dst src n x = if decide (dst ≤ x < dst + n) then m (src + (x - dst)) else m x.
Proof.
  intros. unfold memmove. rewrite wrap32_id by (unfold is_u32; lia).
  destruct ((src <? dst) && (dst <? src + n)) eqn:E; bool_to_prop.
  - rewrite copy_down_spec, Z2Nat.id by lia.
    replace (dst + n - n) with dst by lia.
    replace (src + n + (x - (dst + n))) with (src + (x - dst)) by lia. done.
  - rewrite copy_up_spec, Z2Nat.id by (rewrite ?Z2Nat.id by lia; destruct E; bool_to_prop; lia). done.
Qed.

(** The [n] bytes at [a]. *)
Definition read_bytes (m : mem) (a : Z) (n : nat) : list Z :=
  (λ i, m (a + Z.of_nat i)) <$> seq 0 n.

Lemma read_bytes_ext m m' a a' n :
  (∀ i, 0 ≤ i < Z.of_nat n → m' (a' + i) = m (a + i)) → read_bytes m' a' n = read_bytes m a n.
Proof.
  intros H. apply list_fmap_ext. intros i x Hx. apply lookup_seq in Hx as [-> Hi]. apply H. lia.
Qed.
Lemma read_bytes_lookup m a n i : (i < n)%nat → read_bytes m a n !! i = Some (m (a + Z.of_nat i)).
Proof. intros Hi. unfold read_bytes. by rewrite list_lookup_fmap, lookup_seq_lt. Qed.
Lemma length_read_bytes m a n : length (read_bytes m a n) = n.
Proof. unfold read_bytes. by rewrite length_fmap, length_seq. Qed.

(** [memmove] copies [n] bytes also when the two blocks overlap: afterwards
    the destination holds what the source held before, and every byte outside
    the destination is unchanged. *)
Theorem memmove_copies m dst src n (Hn : 0 ≤ n) (Hs : 0 ≤ src) (Hw : src + n < 2^32) :
  read_bytes (memmove m dst src n) dst (Z.to_nat n) = read_bytes m src (Z.to_nat n) ∧
  ∀ x, ¬ (dst ≤ x < dst + n) → memmove m dst src n x = m x.
Proof.
  split.
  - apply read_bytes_ext. intros i Hi. rewrite memmove_eq, decide_True by lia. f_equal. lia.
  - intros x Hx. by rewrite memmove_eq, decide_False.
Qed.
Lemma memmove_copies_witness :
  read_bytes (memmove (λ a, a mod 7) 103 100 8) 103 8 = read_bytes (λ a, a mod 7) 100 8.
Proof. apply (memmove_copies (λ a, a mod 7) 103 100 8); lia. Defined.

(** [memset] on either of its two paths fills the block with the low byte. *)
Lemma memset_eq m dst c n x : 0 ≤ n →
  memset m dst c n x = if decide (dst ≤ x < dst + n) then c mod 256 else m x.
Proof.
  intros Hn. unfold memset. destruct (_ && _) eqn:E; bool_to_prop.
  - assert (Hc : is_u8 (c mod 256)) by (apply Z.mod_pos_bound; lia).
    rewrite land_255, splat_byte, stosl_spec by done.
    rewrite Z2Nat.id by (apply Z.div_pos; lia).
    replace (4 * (n / 4)) with n by (Z.div_mod_to_equations; lia). done.
  - rewrite stosb_spec, Z2Nat.id by lia. done.
Qed.

(** The kernel's [memset], which stores words when address and size are
    aligned, writes exactly what the byte-by-byte [memset] of [ulib.c] writes. *)
Theorem memset_umemset m dst c n x (Hn : 0 ≤ n) : memset m dst c n x = umemset m dst c n x.
Proof. rewrite memset_eq by done. unfold umemset. by rewrite stosb_spec, Z2Nat.id by lia. Qed.
Lemma memset_umemset_witness : memset (λ _, 9) 0x1000 0x1ff 8 0x1003 = umemset (λ _, 9) 0x1000 0x1ff 8 0x1003.
Proof. apply (memset_umemset (λ _, 9) 0x1000 0x1ff 8 0x1003). lia. Defined.

(** ** The string routines *)

Lemma strncmp_loop_zero m p q n :
  bytes m → strncmp_loop m p q n = 0 ↔ cname m p n = cname m q n.
Proof.
  intros Hm. revert p q. induction n as [|n IH]; intros p q; simpl; [done|].
  destruct (Z.eqb_spec (m p) 0) as [Hp|Hp]; simpl.
  - destruct (Z.eqb_spec (m q) 0); split; try done; try lia.
  - destruct (Z.eqb_spec (m p) (m q)) as [He|He].
    + rewrite IH, <- He, (proj2 (Z.eqb_neq _ _) Hp). split; [congruence|by intros [= ->]].
    + destruct (Z.eqb_spec (m q) 0); split; try lia; try done. intros [= ?]. lia.
Qed.

(** [strncmp] returns zero exactly when the two fields hold the same name
    (their bytes agree up to the first NUL or up to [n] bytes). *)
Theorem strncmp_zero_iff m p q n (Hm : bytes m) :
  strncmp m p q n = 0 ↔ cname m p (Z.to_nat n) = cname m q (Z.to_nat n).
Proof. by apply strncmp_loop_zero. Qed.
Lemma strncmp_zero_iff_witness :
  strncmp (λ a, if a =? 13 then 0 else if a =? 23 then 0 else 97) 10 20 14 = 0.
Proof.
  apply (strncmp_zero_iff (λ a, if a =? 13 then 0 else if a =? 23 then 0 else 97) 10 20 14).
  - intros a. unfold is_u8. destruct (a =? 13); [lia|]. destruct (a =? 23); lia.
  - reflexivity.
Defined.

Lemma strncmp_refl m p n : bytes m → strncmp m p p n = 0.
Proof. intros Hm. by apply strncmp_loop_zero. Qed.

Lemma zero_fill_spec m s n x :
  zero_fill m s n x = if decide (s ≤ x < s + Z.of_nat n) then 0 else m x.
Proof.
  revert m s. induction n as [|n IH]; intros m s; simpl.
  { rewrite decide_False by lia. done. }
  rewrite IH. destruct (decide (x = s)) as [->|Hne].
  - rewrite upd_eq. repeat case_decide; done || lia.
  - rewrite upd_ne by done. repeat case_decide; done || lia.
Qed.

Lemma strncpy_loop_frame m s t n x :
  ¬ (s ≤ x < s + Z.of_nat n) → strncpy_loop m s t n x = m x.
Proof.
  revert m s t. induction n as [|n IH]; intros m s t Hx; simpl; [done|].
  destruct (_ =? _).
  - rewrite zero_fill_spec, decide_False by lia. apply upd_ne. lia.
  - rewrite IH by lia. apply upd_ne. lia.
Qed.

(** Source and destination apart: the destination field then holds the name. *)
Lemma strncpy_loop_cname m s t n :
  t + Z.of_nat n ≤ s ∨ s + Z.of_nat n ≤ t → cname (strncpy_loop m s t n) s n = cname m t n.
Proof.
  revert m s t. induction n as [|n IH]; intros m s t Hd; simpl; [done|].
  destruct (Z.eqb_spec (m t) 0) as [Ht|Ht].
  - rewrite zero_fill_spec, decide_False, upd_eq by lia. by rewrite Ht.
  - rewrite strncpy_loop_frame, upd_eq by lia. rewrite (proj2 (Z.eqb_neq _ _) Ht). f_equal.
    rewrite IH by lia. apply cname_ext. intros y Hy. apply upd_ne. lia.
Qed.

Lemma strncpy_cname m s t n : 0 ≤ n → t + n ≤ s ∨ s + n ≤ t →
  cname (strncpy m s t n) s (Z.to_nat n) = cname m t (Z.to_nat n).
Proof. intros. apply strncpy_loop_cname. rewrite Z2Nat.id; lia. Qed.

Lemma strncpy_frame m s t n x : ¬ (s ≤ x < s + n) → strncpy m s t n x = m x.
Proof.
  intros Hx. destruct (decide (0 ≤ n)).
  - apply strncpy_loop_frame. rewrite Z2Nat.id; lia.
  - unfold strncpy. by replace (Z.to_nat n) with 0%nat by lia.
Qed.

Lemma safestrcpy_loop_frame m s t k x :
  ¬ (s ≤ x < s + Z.of_nat (S k)) → safestrcpy_loop m s t k x = m x.
Proof.
  revert m s t. induction k as [|k IH]; intros m s t Hx; cbn [safestrcpy_loop].
  { apply upd_ne. lia. }
  destruct (_ =? _).
  - rewrite upd_ne by lia. apply upd_ne. lia.
  - rewrite IH by lia. apply upd_ne. lia.
Qed.

Lemma safestrcpy_loop_cstring m s t k l :
  cstring m t l → t + Z.of_nat (length l) < s ∨ s + Z.of_nat (S k) ≤ t →
  cstring (safestrcpy_loop m s t k) s (take k l).
Proof.
  revert m s t l. induction k as [|k IH]; intros m s t l Hl Hd; cbn [safestrcpy_loop].
  { rewrite take_0. simpl. apply upd_eq. }
  destruct l as [|c l]; simpl in Hl.
  - rewrite Hl. simpl. rewrite upd_ne by lia. by rewrite upd_eq.
  - destruct Hl as (Hc & Hc0 & Hl). rewrite Hc. rewrite (proj2 (Z.eqb_neq _ _) Hc0). simpl.
    rewrite safestrcpy_loop_frame by lia. rewrite upd_eq. split_and!; [done..|].
    apply IH; [|simpl in *; lia]. eapply cstring_ext; [|done].
    intros x Hx. apply upd_ne. simpl in *. lia.
Qed.

(** [safestrcpy] into an [n]-byte buffer always leaves a NUL-terminated
    string there, the first [n - 1] characters of the source, and touches
    nothing outside the buffer. *)
Theorem safestrcpy_spec m s t n l
    (Hn : 0 < n) (Hl : cstring m t l) (Hd : t + Z.of_nat (length l) < s ∨ s + n ≤ t) :
  cstring (safestrcpy m s t n) s (take (Z.to_nat (n - 1)) l) ∧
  ∀ x, ¬ (s ≤ x < s + n) → safestrcpy m s t n x = m x.
Proof.
  unfold safestrcpy. rewrite (proj2 (Z.leb_gt n 0)) by lia. split.
  - apply safestrcpy_loop_cstring; [done|]. lia.
  - intros x Hx. apply safestrcpy_loop_frame. lia.
Qed.
Lemma safestrcpy_spec_witness :
  cstring (safestrcpy (λ a, if a =? 5 then 0 else 65) 100 0 4) 100 [65; 65; 65].
Proof.
  apply (safestrcpy_spec (λ a, if a =? 5 then 0 else 65) 100 0 4 [65; 65; 65; 65; 65]);
    [lia|cbn; repeat split; discriminate|simpl; lia].
Defined.

Lemma strlen_loop_spec fuel m s n l :
  cstring m (s + n) l → (length l < fuel)%nat →
  strlen_loop fuel m s n = Some (n + Z.of_nat (length l)).
Proof.
  revert n l. induction fuel as [|f IH]; intros n l Hl Hf; [lia|]. simpl.
  destruct l as [|c l]; simpl in *.
  - rewrite Hl. simpl. f_equal. lia.
  - destruct Hl as (-> & Hc & Hl). rewrite (proj2 (Z.eqb_neq _ _) Hc).
    rewrite (IH (n + 1) l); [f_equal; lia| |lia]. by replace (s + (n + 1)) with (s + n + 1) by lia.
Qed.
Lemma strlen_spec fuel m s l :
  cstring m s l → (length l < fuel)%nat → strlen fuel m s = Some (Z.of_nat (length l)).
Proof. intros Hl Hf. apply (strlen_loop_spec fuel m s 0 l); [by rewrite Z.add_0_r|done]. Qed.

Lemma strcmp_spec fuel m p q lp lq :
  bytes m → cstring m p lp → cstring m q lq → (length lp < fuel)%nat →
  ∃ r, strcmp fuel m p q = Some r ∧ (r = 0 ↔ lp = lq).
Proof.
  intros Hm. revert p q lp lq. induction fuel as [|f IH]; intros p q lp lq Hp Hq Hf; [lia|]. simpl.
  destruct lp as [|c lp], lq as [|d lq]; simpl in Hp, Hq.
  - rewrite Hp, Hq. simpl. by exists 0.
  - destruct Hq as (Hq & Hd & _). rewrite Hp. simpl. eexists. split; [done|]. split; [lia|done].
  - destruct Hp as (Hp & Hc & _). rewrite Hp, Hq, (proj2 (Z.eqb_neq _ _) Hc). simpl.
    eexists. split; [done|]. split; [lia|done].
  - destruct Hp as (Hp & Hc & Hlp), Hq as (Hq & Hd & Hlq).
    rewrite Hp, Hq, (proj2 (Z.eqb_neq _ _) Hc). simpl.
    destruct (Z.eqb_spec c d) as [->|Hne].
    + destruct (IH _ _ _ _ Hlp Hlq) as (r & -> & Hr); [simpl in *; lia|].
      exists r. split; [done|]. rewrite Hr. split; [by intros ->|by intros [= ->]].
    + eexists. split; [done|]. split; [lia|]. by intros [= ->].
Qed.

(** The number a list of digit characters denotes. *)
Definition digits_value (n : Z) (ds : list Z) : Z :=
  foldl (λ n c, n * 10 + (c - 48)) n ds.

Lemma digits_value_mono n ds :
  0 ≤ n → Forall (λ c, 48 ≤ c ≤ 57) ds → n ≤ digits_value n ds.
Proof.
  intros Hn Hds. revert n Hn. induction Hds as [|c ds Hc Hds IH]; intros n Hn; simpl; [lia|].
  etrans; [|apply IH; lia]. lia.
Qed.

Lemma atoi_loop_spec fuel m s n ds c :
  0 ≤ n → Forall (λ c, 48 ≤ c ≤ 57) ds →
  (∀ i d, ds !! i = Some d → m (s + Z.of_nat i) = d) →
  m (s + Z.of_nat (length ds)) = c → ¬ (48 ≤ c ≤ 57) →
  digits_value n ds < 2^31 → (length ds < fuel)%nat →
  atoi_loop fuel m s n = Some (digits_value n ds).
Proof.
  intros Hn Hds Hm Hc Hnd Hv Hf. revert s n fuel Hn Hm Hc Hv Hf.
  induction Hds as [|d ds Hd Hds IH]; intros s n [|f] Hn Hm Hc Hv Hf; simpl in *; try lia.
  - rewrite Z.add_0_r in Hc. rewrite Hc.
    destruct (Z.leb_spec 48 c), (Z.leb_spec c 57); done || lia.
  - pose proof (Hm 0%nat d eq_refl) as H0. rewrite Z.add_0_r in H0. rewrite H0.
    rewrite (proj2 (Z.leb_le 48 d)), (proj2 (Z.leb_le d 57)) by lia. simpl.
    pose proof (digits_value_mono (n * 10 + (d - 48)) ds ltac:(lia) Hds).
    rewrite sint32_id by (unfold is_i32; lia).
    replace (n * 10 + d - 48) with (n * 10 + (d - 48)) by lia. apply IH; [lia| | |lia|lia].
    + intros i e Hi. rewrite <- (Hm (S i) e Hi). f_equal. lia.
    + rewrite <- Hc. f_equal. lia.
Qed.

(** [atoi] of a run of decimal digits ended by another character is the
    number they denote, as long as it fits an [int]. *)
Theorem atoi_digits fuel m s ds
    (Hds : Forall (λ c, 48 ≤ c ≤ 57) ds)
    (Hm : ∀ i d, ds !! i = Some d → m (s + Z.of_nat i) = d)
    (Hend : ¬ (48 ≤ m (s + Z.of_nat (length ds)) ≤ 57))
    (Hv : digits_value 0 ds < 2^31) (Hf : (length ds < fuel)%nat) :
  atoi fuel m s = Some (digits_value 0 ds).
Proof. by eapply atoi_loop_spec. Qed.
Lemma atoi_digits_witness :
  atoi 4 (λ a, if a =? 7 then 52 else if a =? 8 then 50 else 0) 7 = Some 42.
Proof.
  apply (atoi_digits 4 (λ a, if a =? 7 then 52 else if a =? 8 then 50 else 0) 7 [52; 50]).
  - repeat constructor; lia.
  - intros [|[|i]] d Hd; simplify_eq/=; reflexivity.
  - vm_compute. intros [H _]. apply H. reflexivity.
  - vm_compute. reflexivity.
  - simpl. lia.
Defined.
