(* ===== verification/Spin.v ===== *)
(** * Spin locks and interrupt nesting

    [spinlock.c] with [mycpu] of [proc.c]: the per-CPU interrupt bookkeeping
    ([pushcli]/[popcli]), the lock operations as the code runs them on one CPU,
    and the interleaving of several CPUs at the granularity of their accesses
    to the lock, on which mutual exclusion is proved.

    [lk->pcs] (the call stack recorded for debugging) is computed by
    [getcallerpcs] below and is not a field of the modelled lock. *)

From S2P Require Import Prelude Machine.
Local Open Scope Z_scope.

(** ** State *)

(** [struct cpu]; the hardware's [eflags & FL_IF] bit of that CPU is kept here
    too.  [intena] holds the truth value of [eflags & FL_IF]. *)
Record cpu := Cpu {
  apicid : Z;
  ncli : Z;
  intena : bool;
  cpu_proc : option nat;
  eflags_if : bool;
}.

(** The CPUs found by [mpinit] and the one that is executing. *)
Record core := Core { cpus : list cpu; me : nat }.

(** [struct spinlock]; [lk_cpu] is the index of the holding CPU. *)
Record spinlock := Spinlock { locked : Z; lk_name : string; lk_cpu : option nat }.

(** A component of a larger state. *)
Record lens (S T : Type) := Lens { view : S → T; upd_lens : T → S → S }.
Arguments Lens {_ _} _ _.
Arguments view {_ _} _ _.
Arguments upd_lens {_ _} _ _ _.

Class LensOk {S T} (l : lens S T) : Prop := {
  view_upd : ∀ t s, view l (upd_lens l t s) = t;
  upd_view : ∀ s, upd_lens l (view l s) s = s;
  upd_upd : ∀ t t' s, upd_lens l t (upd_lens l t' s) = upd_lens l t s;
}.
(** Two components that do not overlap. *)
Class LensDisj {S T U} (l : lens S T) (k : lens S U) : Prop := {
  view_upd_l : ∀ u s, view l (upd_lens k u s) = view l s;
  view_upd_r : ∀ t s, view k (upd_lens l t s) = view k s;
  upd_comm : ∀ t u s, upd_lens l t (upd_lens k u s) = upd_lens k u (upd_lens l t s);
}.

Definition on_lens {S T A} (l : lens S T) (f : M T A) : M S A := λ s,
  match f (view l s) with
  | Ok (a, t) => Ok (a, upd_lens l t s)
  | Panic m => Panic m
  | Fault w => Fault w
  | Block => Block
  end.

(** The two halves of a pair. *)
Definition fst_lens {A B} : lens (A * B) A := Lens fst (λ a s, (a, snd s)).
Definition snd_lens {A B} : lens (A * B) B := Lens snd (λ b s, (fst s, b)).
Global Instance fst_lens_ok {A B} : LensOk (@fst_lens A B).
Proof. constructor; intros; simpl; by destruct s. Qed.
Global Instance snd_lens_ok {A B} : LensOk (@snd_lens A B).
Proof. constructor; intros; simpl; by destruct s. Qed.
Global Instance fst_snd_disj {A B} : LensDisj (@fst_lens A B) (@snd_lens A B).
Proof. by constructor. Qed.

(** ** Operations *)

Definition initlock (name : string) : spinlock :=
  {| locked := 0; lk_name := name; lk_cpu := None |}.

Definition this_cpu : M core cpu := λ s,
  match cpus s !! me s with Some c => Ok (c, s) | None => Fault "cpu" end.
Definition set_cpu (i : nat) (c : cpu) : M core unit :=
  modify (λ s, {| cpus := <[i := c]> (cpus s); me := me s |}).

Definition set_if (b : bool) (c : cpu) : cpu :=
  {| apicid := apicid c; ncli := ncli c; intena := intena c; cpu_proc := cpu_proc c; eflags_if := b |}.
Definition set_ncli (n : Z) (c : cpu) : cpu :=
  {| apicid := apicid c; ncli := n; intena := intena c; cpu_proc := cpu_proc c; eflags_if := eflags_if c |}.
Definition set_intena (b : bool) (c : cpu) : cpu :=
  {| apicid := apicid c; ncli := ncli c; intena := b; cpu_proc := cpu_proc c; eflags_if := eflags_if c |}.
Definition set_cpu_proc (p : option nat) (c : cpu) : cpu :=
  {| apicid := apicid c; ncli := ncli c; intena := intena c; cpu_proc := p; eflags_if := eflags_if c |}.

Definition readeflags : M core bool := c ← this_cpu; mret (eflags_if c).
Definition cli : M core unit := c ← this_cpu; i ← gets me; set_cpu i (set_if false c).
Definition sti : M core unit := c ← this_cpu; i ← gets me; set_cpu i (set_if true c).
(** The local APIC of the executing CPU answers with its own id. *)
Definition lapicid : M core Z := c ← this_cpu; mret (apicid c).

(** The index into [cpus] of the executing CPU. *)
Definition mycpu : M core nat :=
  ef ← readeflags;
  if (ef : bool) then panic "mycpu called with interrupts enabled"
  else
    id ← lapicid;
    cs ← gets cpus;
    match find_index (λ c, apicid c =? id) cs with
    | Some i => mret i
    | None => panic "unknown apicid"
    end.
Definition cpuid : M core nat := mycpu.

Definition cpu_at (i : nat) : M core cpu := λ s,
  match cpus s !! i with Some c => Ok (c, s) | None => Fault "cpu" end.

Definition pushcli : M core unit :=
  eflags ← readeflags;
  cli;;
  i ← mycpu;
  c ← cpu_at i;
  (if ncli c =? 0 then set_cpu i (set_intena eflags c) else mret tt);;
  c ← cpu_at i;
  set_cpu i (set_ncli (ncli c + 1) c).

Definition popcli : M core unit :=
  ef ← readeflags;
  if (ef : bool) then panic "popcli - interruptible" else
  i ← mycpu;
  c ← cpu_at i;
  set_cpu i (set_ncli (ncli c - 1) c);;
  if ncli c - 1 <? 0 then panic "popcli" else
  if (ncli c - 1 =? 0) && intena c then sti else mret tt.

Section Locks.
Context {S : Type} (co : lens S core).

Definition holding (lk : lens S spinlock) : M S bool :=
  on_lens co pushcli;;
  l ← gets (view lk);
  i ← on_lens co mycpu;
  let r := negb (locked l =? 0) && bool_decide (lk_cpu l = Some i) in
  on_lens co popcli;;
  mret r.

(** [Block]: the exchange keeps returning 1 until another CPU releases. *)
Definition acquire (lk : lens S spinlock) : M S unit :=
  on_lens co pushcli;;
  h ← holding lk;
  if (h : bool) then panic "acquire" else
  l ← gets (view lk);
  if negb (locked l =? 0) then block else
  modify (upd_lens lk {| locked := 1; lk_name := lk_name l; lk_cpu := lk_cpu l |});;
  i ← on_lens co mycpu;
  l ← gets (view lk);
  modify (upd_lens lk {| locked := locked l; lk_name := lk_name l; lk_cpu := Some i |}).

Definition release (lk : lens S spinlock) : M S unit :=
  h ← holding lk;
  if negb h then panic "release" else
  l ← gets (view lk);
  modify (upd_lens lk {| locked := locked l; lk_name := lk_name l; lk_cpu := None |});;
  l ← gets (view lk);
  modify (upd_lens lk {| locked := 0; lk_name := lk_name l; lk_cpu := lk_cpu l |});;
  on_lens co popcli.

(** [myproc]: the process running on this CPU. *)
Definition myproc : M S (option nat) :=
  on_lens co pushcli;;
  i ← on_lens co mycpu;
  c ← on_lens co (cpu_at i);
  on_lens co popcli;;
  mret (cpu_proc c).
End Locks.

(** [getcallerpcs]: ten saved return addresses along the frame-pointer chain. *)
Fixpoint getcallerpcs_loop (m : mem) (ebp : Z) (i : nat) : list Z :=
  match i with
  | O => []
  | S k =>
      if (ebp =? 0) || (ebp <? KERNBASE) || (ebp =? 0xffffffff)
      then replicate (S k) 0
      else load32 m (ebp + 4) :: getcallerpcs_loop m (load32 m ebp) k
  end.
Definition getcallerpcs (m : mem) (v : Z) : list Z := getcallerpcs_loop m (wrap32 (v - 8)) 10.

Lemma length_getcallerpcs m v : length (getcallerpcs m v) = 10%nat.
Proof.
  unfold getcallerpcs. generalize (wrap32 (v - 8)) as e. generalize 10%nat as n.
  induction n as [|n IH]; intros e; simpl; [done|].
  destruct (_ || _); simpl; [by rewrite length_replicate|by rewrite IH].
Qed.

(** ** The executing CPU *)

(** The executing CPU exists, is the first with its APIC id, and has its
    interrupts off whenever a [pushcli] is outstanding. *)
Definition core_ok (s : core) (c : cpu) : Prop :=
  cpus s !! me s = Some c ∧
  find_index (λ x, apicid x =? apicid c) (cpus s) = Some (me s) ∧
  0 ≤ ncli c ∧ (0 < ncli c → eflags_if c = false).

Definition with_cpu (c : cpu) (s : core) : core :=
  {| cpus := <[me s := c]> (cpus s); me := me s |}.

Lemma find_index_insert_apicid cs i c c' id :
  cs !! i = Some c → apicid c' = apicid c →
  find_index (λ x, apicid x =? id) (<[i:=c']> cs) = find_index (λ x, apicid x =? id) cs.
Proof.
  revert i. induction cs as [|x cs IH]; intros [|i] Hi Ha; simplify_eq/=; [by rewrite Ha|].
  by rewrite (IH i).
Qed.

Lemma core_ok_with s c c' :
  core_ok s c → apicid c' = apicid c → 0 ≤ ncli c' → (0 < ncli c' → eflags_if c' = false) →
  core_ok (with_cpu c' s) c'.
Proof.
  intros (Hc & Hf & _ & _) Ha H1 H2. unfold core_ok, with_cpu; simpl. split_and!; try done.
  - apply list_lookup_insert_eq. by eapply lookup_lt_Some.
  - rewrite Ha. by rewrite (find_index_insert_apicid _ _ c).
Qed.

Lemma with_cpu_with s c c' : with_cpu c' (with_cpu c s) = with_cpu c' s.
Proof. unfold with_cpu; simpl. by rewrite list_insert_insert_eq. Qed.
Lemma with_cpu_id s c : core_ok s c → with_cpu c s = s.
Proof.
  intros (Hc & _). unfold with_cpu. destruct s as [cs i]; simpl in *. by rewrite list_insert_id.
Qed.

Lemma mycpu_ok s c : core_ok s c → eflags_if c = false → mycpu s = Ok (me s, s).
Proof.
  intros (Hc & Hf & _ & _) He. unfold mycpu, readeflags, lapicid, this_cpu. runM.
  rewrite Hc, He, Hc, Hf. done.
Qed.

(** The CPU inside one more [pushcli]. *)
Definition pushed (c : cpu) : cpu :=
  {| apicid := apicid c; ncli := ncli c + 1;
     intena := if ncli c =? 0 then eflags_if c else intena c;
     cpu_proc := cpu_proc c; eflags_if := false |}.
(** The CPU after the matching [popcli]. *)
Definition popped (c : cpu) : cpu :=
  {| apicid := apicid c; ncli := ncli c - 1; intena := intena c; cpu_proc := cpu_proc c;
     eflags_if := if (ncli c - 1 =? 0) && intena c then true else eflags_if c |}.
(** What a matched pair leaves: only [intena] may differ, to record the
    interrupt flag found at the outermost level. *)
Definition settled (c : cpu) : cpu :=
  if ncli c =? 0 then set_intena (eflags_if c) c else c.

Lemma pushcli_ok s c : core_ok s c → pushcli s = Ok (tt, with_cpu (pushed c) s).
Proof.
  intros Hok. pose proof Hok as (Hc & Hf & Hn & Hi).
  assert (Hlt : (me s < length (cpus s))%nat) by by eapply lookup_lt_Some.
  assert (Hok' : core_ok (with_cpu (set_if false c) s) (set_if false c)) by by apply (core_ok_with s c).
  unfold pushcli, cli, set_cpu, readeflags, this_cpu. runM. rewrite Hc. cbn beta iota. rewrite Hc. cbn beta iota.
  change {| cpus := <[me s:=set_if false c]> (cpus s); me := me s |} with (with_cpu (set_if false c) s).
  rewrite (mycpu_ok _ _ Hok' eq_refl). unfold cpu_at.
  rewrite (proj1 Hok'). simpl.
  destruct (ncli c =? 0) eqn:E; simpl.
  - rewrite list_lookup_insert_eq by (rewrite length_insert; done). unfold with_cpu, pushed; simpl.
    rewrite !list_insert_insert_eq, E. done.
  - rewrite list_lookup_insert_eq by done. unfold with_cpu, pushed; simpl.
    rewrite !list_insert_insert_eq, E. done.
Qed.

Lemma popcli_ok s c :
  core_ok s c → 0 < ncli c → popcli s = Ok (tt, with_cpu (popped c) s).
Proof.
  intros Hok Hpos. pose proof Hok as (Hc & Hf & Hn & Hi).
  assert (Hlt : (me s < length (cpus s))%nat) by by eapply lookup_lt_Some.
  assert (Hie : eflags_if c = false) by auto.
  unfold popcli, readeflags, this_cpu. runM. rewrite Hc, Hie.
  rewrite (mycpu_ok _ _ Hok Hie). unfold cpu_at. rewrite Hc. unfold set_cpu. runM.
  rewrite (proj2 (Z.ltb_ge (ncli c - 1) 0)) by lia.
  destruct ((ncli c - 1 =? 0) && intena c) eqn:E; simpl.
  - unfold sti, this_cpu, set_cpu. runM. simpl. rewrite list_lookup_insert_eq by done. simpl.
    rewrite list_insert_insert_eq. unfold with_cpu, popped. by rewrite E.
  - unfold with_cpu, popped, set_ncli. by rewrite E.
Qed.

Lemma popped_pushed c : 0 ≤ ncli c → (0 < ncli c → eflags_if c = false) → popped (pushed c) = settled c.
Proof.
  intros Hn Hi. unfold popped, pushed, settled, set_intena; simpl.
  replace (ncli c + 1 - 1) with (ncli c) by lia.
  destruct (Z.eqb_spec (ncli c) 0) as [E|E]; simpl.
  - destruct (eflags_if c) eqn:Eq; destruct c; simpl in *; subst; done.
  - specialize (Hi ltac:(lia)). destruct c; simpl in *. by subst.
Qed.

Lemma settled_ncli c : ncli (settled c) = ncli c.
Proof. unfold settled. by destruct (_ =? _). Qed.
Lemma settled_if c : eflags_if (settled c) = eflags_if c.
Proof. unfold settled. by destruct (_ =? _). Qed.
Lemma settled_apicid c : apicid (settled c) = apicid c.
Proof. unfold settled. by destruct (_ =? _). Qed.
Lemma settled_proc c : cpu_proc (settled c) = cpu_proc c.
Proof. unfold settled. by destruct (_ =? _). Qed.
Lemma settled_settled c : settled (settled c) = settled c.
Proof. unfold settled. destruct (ncli c =? 0) eqn:E; simpl; by rewrite E. Qed.
Lemma settled_pos c : 0 < ncli c → settled c = c.
Proof. intros H. unfold settled. by rewrite (proj2 (Z.eqb_neq _ _)) by lia. Qed.
Lemma pushed_settled c : 0 ≤ ncli c → (0 < ncli c → eflags_if c = false) → pushed (settled c) = pushed c.
Proof.
  intros. unfold pushed, settled. by destruct (ncli c =? 0) eqn:E; simpl; rewrite E.
Qed.

Lemma core_ok_pushed s c : core_ok s c → core_ok (with_cpu (pushed c) s) (pushed c).
Proof. intros Hok. pose proof Hok as (_ & _ & Hn & _). apply (core_ok_with s c); simpl; [done..|lia|done]. Qed.
Lemma core_ok_settled s c : core_ok s c → core_ok (with_cpu (settled c) s) (settled c).
Proof.
  intros Hok. pose proof Hok as (_ & _ & Hn & Hi). apply (core_ok_with s c); [done|..].
  - apply settled_apicid.
  - by rewrite settled_ncli.
  - by rewrite settled_ncli, settled_if.
Qed.

(** [pushcli] and [popcli] nest: from any consistent CPU a matched pair
    succeeds and restores the nesting depth and the interrupt flag, in
    particular interrupts that were off stay off. *)
Theorem pushcli_popcli s c (Hok : core_ok s c) :
  ∃ s' c', (pushcli;; popcli) s = Ok (tt, s') ∧ core_ok s' c' ∧
    ncli c' = ncli c ∧ eflags_if c' = eflags_if c ∧ cpu_proc c' = cpu_proc c.
Proof.
  pose proof Hok as (_ & _ & Hn & Hi).
  exists (with_cpu (settled c) s), (settled c). split_and!.
  - rewrite (bind_Ok_l _ _ _ _ _ (pushcli_ok s c Hok)).
    rewrite (popcli_ok _ (pushed c)); [|by apply core_ok_pushed|simpl; lia].
    rewrite with_cpu_with. by rewrite popped_pushed.
  - by apply core_ok_settled.
  - apply settled_ncli.
  - apply settled_if.
  - apply settled_proc.
Qed.
Lemma pushcli_popcli_witness :
  ∃ s' c', (pushcli;; popcli) {| cpus := [Cpu 3 0 false None true]; me := 0 |} = Ok (tt, s') ∧
    core_ok s' c' ∧ ncli c' = 0 ∧ eflags_if c' = true ∧ cpu_proc c' = None.
Proof.
  apply (pushcli_popcli {| cpus := [Cpu 3 0 false None true]; me := 0 |} (Cpu 3 0 false None true)).
  repeat split; simpl; lia || done.
Defined.

(** ** Critical sections on one CPU *)

Section LockLemmas.
Context {S : Type} (co : lens S core) `{!LensOk co}.
Context (lk : lens S spinlock) `{!LensOk lk} `{!LensDisj co lk}.

Lemma co_lk u s : view co (upd_lens lk u s) = view co s.
Proof. apply view_upd_l. Qed.
Lemma lk_co t s : view lk (upd_lens co t s) = view lk s.
Proof. apply view_upd_r. Qed.

Lemma on_lens_Ok {T A} (l : lens S T) (f : M T A) s a t :
  f (view l s) = Ok (a, t) → on_lens l f s = Ok (a, upd_lens l t s).
Proof. unfold on_lens. by intros ->. Qed.

Lemma on_mycpu s c :
  core_ok (view co s) c → eflags_if c = false →
  on_lens co mycpu s = Ok (me (view co s), s).
Proof.
  intros Hok Hi. erewrite on_lens_Ok by by eapply mycpu_ok. by rewrite upd_view.
Qed.

Lemma holding_ok s c :
  core_ok (view co s) c →
  holding co lk s =
    Ok (negb (locked (view lk s) =? 0) && bool_decide (lk_cpu (view lk s) = Some (me (view co s))),
        upd_lens co (with_cpu (settled c) (view co s)) s).
Proof.
  intros Hok. pose proof Hok as (_ & _ & Hn & Hi). unfold holding.
  erewrite bind_Ok_l by (apply on_lens_Ok; by apply pushcli_ok).
  erewrite bind_Ok_l by reflexivity.
  assert (Hok' := core_ok_pushed _ _ Hok).
  erewrite bind_Ok_l by (eapply on_mycpu; rewrite ?view_upd; done).
  erewrite bind_Ok_l.
  2:{ apply on_lens_Ok. rewrite view_upd. apply popcli_ok; [done|simpl; lia]. }
  rewrite view_upd, lk_co, upd_upd, with_cpu_with, popped_pushed by done.
  unfold mret, M_ret; simpl. done.
Qed.

(** Taking a free lock: the lock names this CPU and interrupts are off. *)
Lemma acquire_ok s c :
  core_ok (view co s) c → locked (view lk s) = 0 →
  acquire co lk s =
    Ok (tt, upd_lens lk {| locked := 1; lk_name := lk_name (view lk s); lk_cpu := Some (me (view co s)) |}
             (upd_lens co (with_cpu (pushed c) (view co s)) s)).
Proof.
  intros Hok Hl. pose proof Hok as (_ & _ & Hn & Hi). unfold acquire.
  erewrite bind_Ok_l by (apply on_lens_Ok; by apply pushcli_ok).
  assert (Hok' := core_ok_pushed _ _ Hok).
  erewrite bind_Ok_l by (eapply holding_ok; rewrite view_upd; done).
  rewrite lk_co, Hl. simpl.
  rewrite settled_pos by (simpl; lia). rewrite view_upd, upd_upd, with_cpu_with.
  erewrite bind_Ok_l by reflexivity. rewrite lk_co, Hl. simpl.
  erewrite bind_Ok_l by reflexivity.
  erewrite bind_Ok_l by (eapply on_mycpu; rewrite ?co_lk, ?view_upd; done).
  erewrite bind_Ok_l by reflexivity. unfold modify.
  rewrite co_lk, !view_upd, upd_upd. done.
Qed.

(** A CPU that already holds the lock panics instead of deadlocking. *)
Lemma acquire_held s c :
  core_ok (view co s) c → locked (view lk s) ≠ 0 → lk_cpu (view lk s) = Some (me (view co s)) →
  acquire co lk s = Panic "acquire".
Proof.
  intros Hok Hl Hc. pose proof Hok as (_ & _ & Hn & Hi). unfold acquire.
  erewrite bind_Ok_l by (apply on_lens_Ok; by apply pushcli_ok).
  assert (Hok' := core_ok_pushed _ _ Hok).
  erewrite bind_Ok_l by (eapply holding_ok; rewrite view_upd; done).
  rewrite lk_co, view_upd, Hc. rewrite (proj2 (Z.eqb_neq _ _) Hl). simpl.
  by rewrite bool_decide_true.
Qed.

Lemma release_ok s c :
  core_ok (view co s) c → 0 < ncli c →
  locked (view lk s) ≠ 0 → lk_cpu (view lk s) = Some (me (view co s)) →
  release co lk s =
    Ok (tt, upd_lens lk {| locked := 0; lk_name := lk_name (view lk s); lk_cpu := None |}
             (upd_lens co (with_cpu (popped c) (view co s)) s)).
Proof.
  intros Hok Hn Hl Hc. unfold release.
  erewrite bind_Ok_l by by eapply holding_ok.
  rewrite (proj2 (Z.eqb_neq _ _) Hl), Hc, bool_decide_true by done. simpl.
  rewrite settled_pos, with_cpu_id, upd_view by done.
  erewrite bind_Ok_l by reflexivity. erewrite bind_Ok_l by reflexivity.
  erewrite bind_Ok_l by reflexivity. erewrite bind_Ok_l by reflexivity.
  erewrite on_lens_Ok.
  2:{ rewrite !co_lk. by apply popcli_ok. }
  rewrite view_upd. simpl. rewrite upd_upd, upd_comm. done.
Qed.

Lemma release_not_held s c :
  core_ok (view co s) c → locked (view lk s) = 0 ∨ lk_cpu (view lk s) ≠ Some (me (view co s)) →
  release co lk s = Panic "release".
Proof.
  intros Hok H. unfold release. erewrite bind_Ok_l by by eapply holding_ok.
  destruct H as [-> | H]; simpl; [done|].
  rewrite bool_decide_false by done. by rewrite andb_false_r.
Qed.

Lemma myproc_ok s c :
  core_ok (view co s) c →
  myproc co s = Ok (cpu_proc c, upd_lens co (with_cpu (settled c) (view co s)) s).
Proof.
  intros Hok. pose proof Hok as (Hc & _ & Hn & Hi). unfold myproc.
  erewrite bind_Ok_l by (apply on_lens_Ok; by apply pushcli_ok).
  assert (Hok' := core_ok_pushed _ _ Hok).
  erewrite bind_Ok_l by (eapply on_mycpu; rewrite ?view_upd; done).
  rewrite view_upd.
  erewrite bind_Ok_l.
  2:{ apply on_lens_Ok. unfold cpu_at. rewrite view_upd. by rewrite (proj1 Hok'). }
  rewrite upd_upd.
  erewrite bind_Ok_l.
  2:{ apply on_lens_Ok. rewrite view_upd. apply popcli_ok; [done|simpl; lia]. }
  rewrite upd_upd, with_cpu_with, popped_pushed by done. done.
Qed.
(** A completed [acquire] found the lock free. *)
Lemma acquire_inv s c u s' :
  core_ok (view co s) c → acquire co lk s = Ok (u, s') →
  locked (view lk s) = 0 ∧
  s' = upd_lens lk {| locked := 1; lk_name := lk_name (view lk s); lk_cpu := Some (me (view co s)) |}
         (upd_lens co (with_cpu (pushed c) (view co s)) s).
Proof.
  intros Hok H. destruct (decide (locked (view lk s) = 0)) as [Hl|Hl].
  { rewrite (acquire_ok s c Hok Hl) in H. by simplify_eq. }
  exfalso. unfold acquire in H.
  erewrite bind_Ok_l in H by (apply on_lens_Ok; by apply pushcli_ok).
  assert (Hok' := core_ok_pushed _ _ Hok).
  erewrite bind_Ok_l in H by (eapply holding_ok; rewrite view_upd; done).
  destruct (negb _ && _); [done|].
  erewrite bind_Ok_l in H by reflexivity. rewrite !lk_co in H.
  rewrite (proj2 (Z.eqb_neq _ _) Hl) in H. done.
Qed.
End LockLemmas.

(** ** Interleaving of the CPUs

    Each CPU runs [acquire]; critical section; [release], over and over.  A
    step of a CPU is one access to the lock word or to [lk->cpu]; the steps of
    the CPUs interleave freely. *)

Inductive pc :=
| Out          (** outside *)
| Chk          (** in [holding]: has read [locked != 0], about to read [cpu] *)
| Spin         (** in the [xchg] loop *)
| Got          (** [xchg] returned 0; [lk->cpu] not yet written *)
| Crit         (** critical section *)
| Rel          (** in [release], past its [holding] check *)
| Rel2         (** [lk->cpu] cleared; [locked] not yet *)
| Stuck.       (** panicked in [acquire] or [release] *)

Global Instance pc_eq_dec : EqDecision pc.
Proof. solve_decision. Defined.

Record lstate := LState { lw : Z; lcpu : option nat; pcs : nat → pc }.

Definition goto (i : nat) (p : pc) (s : lstate) : nat → pc :=
  λ j, if decide (j = i) then p else pcs s j.

(** One access by CPU [i]. *)
Definition lock_step (i : nat) (s : lstate) : lstate :=
  match pcs s i with
  | Out =>   (* pushcli; holding: r = lock->locked && ... *)
      LState (lw s) (lcpu s) (goto i (if lw s =? 0 then Spin else Chk) s)
  | Chk =>   (* ... lock->cpu == mycpu() *)
      LState (lw s) (lcpu s) (goto i (if decide (lcpu s = Some i) then Stuck else Spin) s)
  | Spin =>  (* xchg(&lk->locked, 1) *)
      LState 1 (lcpu s) (goto i (if lw s =? 0 then Got else Spin) s)
  | Got =>   (* lk->cpu = mycpu() *)
      LState (lw s) (Some i) (goto i Crit s)
  | Crit =>  (* release: holding(lk) *)
      LState (lw s) (lcpu s)
        (goto i (if negb (lw s =? 0) && bool_decide (lcpu s = Some i) then Rel else Stuck) s)
  | Rel =>   (* lk->cpu = 0 *)
      LState (lw s) None (goto i Rel2 s)
  | Rel2 =>  (* movl $0, lk->locked; popcli *)
      LState 0 (lcpu s) (goto i Out s)
  | Stuck => s
  end.

Definition lock_init : lstate := LState 0 None (λ _, Out).

Inductive lock_reach : lstate → Prop :=
| lr_init : lock_reach lock_init
| lr_step s i : lock_reach s → lock_reach (lock_step i s).

(** Between the successful [xchg] and the store that clears the word. *)
Definition owns (p : pc) : bool :=
  match p with Got | Crit | Rel | Rel2 => true | _ => false end.

(** The owner [o] is the one CPU in that window; [lk->cpu] names it while its
    record is written. *)
Definition lock_inv (s : lstate) (o : option nat) : Prop :=
  match o with
  | None => lw s = 0 ∧ lcpu s = None
  | Some k =>
      lw s = 1 ∧ owns (pcs s k) = true ∧
      lcpu s = match pcs s k with Crit | Rel => Some k | _ => None end
  end ∧ ∀ i, pcs s i ≠ Stuck ∧ (owns (pcs s i) = true → o = Some i).

Lemma lock_inv_local s i p o :
  lock_inv s o → owns (pcs s i) = false → owns p = false → p ≠ Stuck →
  lock_inv (LState (lw s) (lcpu s) (goto i p s)) o.
Proof.
  intros [Ho Hall] Hi Hp Hs. split.
  - destruct o as [k|]; [|done]. destruct Ho as (Hw & Hk & Hc). simpl. unfold goto.
    destruct (decide (k = i)) as [->|]; [congruence|done].
  - intros j. simpl. unfold goto. destruct (decide (j = i)); [|apply Hall]. by rewrite Hp.
Qed.

Lemma lock_inv_owner s i o w c p o' :
  lock_inv s o → (owns (pcs s i) = true ∨ o = None) →
  lock_inv (LState w c (λ j, if decide (j = i) then p else Out)) o' → (o' = Some i ∨ o' = None) →
  lock_inv (LState w c (goto i p s)) o'.
Proof.
  intros [Ho Hall] Hi [Ho' Hall'] Hoi. split.
  - destruct Hoi as [-> | ->]; [|done]. simpl in *. unfold goto.
    by rewrite decide_True in Ho' |- *.
  - intros j. specialize (Hall' j). simpl in *. unfold goto. destruct (decide (j = i)); [done|].
    destruct (Hall j) as [Hj Hoj]. split; [done|]. intros Hown. specialize (Hoj Hown).
    destruct Hi as [Hi|Hi]; [|congruence]. apply Hall in Hi. congruence.
Qed.

Lemma lock_step_inv s i o : lock_inv s o → ∃ o', lock_inv (lock_step i s) o'.
Proof.
  intros Hinv. pose proof Hinv as [Ho Hall]. destruct (Hall i) as [Hs Hown].
  unfold lock_step. destruct (pcs s i) eqn:Ei; simpl in Hown; try done.
  - exists o. apply lock_inv_local; rewrite ?Ei; try done; by destruct (_ =? _).
  - exists o. apply lock_inv_local; rewrite ?Ei; try done; case_decide as Hd; try done;
      exfalso; (destruct o as [k|]; [|destruct Ho; congruence]);
      destruct Ho as (_ & Hk & Hc); rewrite Hc in Hd; destruct (pcs s k) eqn:Ek; congruence.
  - destruct o as [k|].
    + destruct Ho as (Hw & Hk & Hc). exists (Some k). rewrite Hw. simpl. rewrite <- Hw at 1.
      apply lock_inv_local; rewrite ?Ei; done.
    + destruct Ho as (Hw & Hc). exists (Some i). rewrite Hw, Hc. simpl.
      eapply lock_inv_owner; [done|by right| |by left]. split; simpl; [by rewrite decide_True|].
      intros j. case_decide; subst; done.
  - exists (Some i). eapply lock_inv_owner; [done|rewrite Ei; by left| |by left].
    rewrite Hown in Ho by done. destruct Ho as (-> & _ & _).
    split; simpl; [by rewrite decide_True|]. intros j. case_decide; subst; done.
  - exists (Some i). rewrite Hown in Ho by done. destruct Ho as (Hw & _ & Hc). rewrite Ei in Hc.
    rewrite Hw, Hc, bool_decide_true by done. simpl.
    eapply lock_inv_owner; [done|rewrite Ei; by left| |by left].
    split; simpl; [by rewrite decide_True|]. intros j. case_decide; subst; done.
  - exists (Some i). rewrite Hown in Ho by done. destruct Ho as (Hw & _ & Hc). rewrite Hw.
    eapply lock_inv_owner; [done|rewrite Ei; by left| |by left].
    split; simpl; [by rewrite decide_True|]. intros j. case_decide; subst; done.
  - exists None. rewrite Hown in Ho by done. destruct Ho as (Hw & _ & Hc). rewrite Ei in Hc. rewrite Hc.
    eapply lock_inv_owner; [done|rewrite Ei; by left| |by right].
    split; simpl; [done|]. intros j. case_decide; subst; done.
Qed.

Lemma lock_reach_inv s : lock_reach s → ∃ o, lock_inv s o.
Proof.
  induction 1 as [|s i _ [o IH]]; [|by eapply lock_step_inv]. exists None. split; [done|]. by intros i.
Qed.

(** C11: mutual exclusion.  However the CPUs interleave, at most one of them is
    between its successful exchange and its release, the lock word is set while
    one is, and no CPU ever panics in [acquire] or [release]. *)
Theorem spinlock_mutual_exclusion s (Hs : lock_reach s) :
  (∀ i j, owns (pcs s i) = true → owns (pcs s j) = true → i = j) ∧
  (∀ i, owns (pcs s i) = true → lw s = 1) ∧
  (∀ i, pcs s i ≠ Stuck).
Proof.
  apply lock_reach_inv in Hs as [o [Ho Hall]]. split_and!.
  - intros i j Hi Hj. apply Hall in Hi, Hj. congruence.
  - intros i Hi. apply Hall in Hi. subst o. by destruct Ho.
  - intros i. apply Hall.
Qed.
Lemma spinlock_mutual_exclusion_witness :
  pcs (lock_step 1 (lock_step 0 (lock_step 1 (lock_step 0 (lock_step 0 lock_init))))) 1%nat = Spin ∧
  ∀ i, owns (pcs (lock_step 1 (lock_step 0 (lock_step 1 (lock_step 0 (lock_step 0 lock_init))))) i) = true →
    lw (lock_step 1 (lock_step 0 (lock_step 1 (lock_step 0 (lock_step 0 lock_init))))) = 1.
Proof.
  split; [reflexivity|].
  apply (spinlock_mutual_exclusion (lock_step 1 (lock_step 0 (lock_step 1 (lock_step 0 (lock_step 0 lock_init)))))).
  repeat constructor.
Defined.

(** A CPU that runs alone goes through its accesses in the order of
    [acquire]: the lock word and [lk->cpu] it leaves are those of the
    sequential definition. *)
Fixpoint run_cpu (n : nat) (i : nat) (s : lstate) : lstate :=
  match n with O => s | S k => run_cpu k i (lock_step i s) end.

Lemma goto_eq i p s : goto i p s i = p.
Proof. unfold goto. by rewrite decide_True. Qed.

Lemma run_cpu_add a b i s : run_cpu (a + b) i s = run_cpu b i (run_cpu a i s).
Proof. revert s. induction a as [|a IH]; intros s; simpl; [done|apply IH]. Qed.

Lemma lock_step_at i s p : pcs s i = p → lock_step i s =
  match p with
  | Out => LState (lw s) (lcpu s) (goto i (if lw s =? 0 then Spin else Chk) s)
  | Chk => LState (lw s) (lcpu s) (goto i (if decide (lcpu s = Some i) then Stuck else Spin) s)
  | Spin => LState 1 (lcpu s) (goto i (if lw s =? 0 then Got else Spin) s)
  | Got => LState (lw s) (Some i) (goto i Crit s)
  | Crit => LState (lw s) (lcpu s)
      (goto i (if negb (lw s =? 0) && bool_decide (lcpu s = Some i) then Rel else Stuck) s)
  | Rel => LState (lw s) None (goto i Rel2 s)
  | Rel2 => LState 0 (lcpu s) (goto i Out s)
  | Stuck => s
  end.
Proof. by intros <-. Qed.

Lemma run_acquire i s : pcs s i = Out → lw s = 0 →
  lw (run_cpu 3 i s) = 1 ∧ lcpu (run_cpu 3 i s) = Some i ∧ pcs (run_cpu 3 i s) i = Crit.
Proof.
  intros Ho Hw. cbn [run_cpu]. rewrite (lock_step_at i s _ Ho), Hw; simpl.
  rewrite (lock_step_at i (LState _ _ _) Spin) by apply goto_eq; simpl.
  rewrite (lock_step_at i (LState _ _ _) Got) by apply goto_eq; simpl. by rewrite goto_eq.
Qed.
Lemma run_release i s : pcs s i = Crit → lw s = 1 → lcpu s = Some i →
  lw (run_cpu 3 i s) = 0 ∧ lcpu (run_cpu 3 i s) = None ∧ pcs (run_cpu 3 i s) i = Out.
Proof.
  intros Ho Hw Hc. cbn [run_cpu]. rewrite (lock_step_at i s _ Ho), Hw, Hc, bool_decide_true by done; simpl.
  rewrite (lock_step_at i (LState _ _ _) Rel) by apply goto_eq; simpl.
  rewrite (lock_step_at i (LState _ _ _) Rel2) by apply goto_eq; simpl. by rewrite goto_eq.
Qed.

(** The interleaving model refines the sequential code: when the lock is
    free, the three accesses of [acquire] by a CPU that is not interrupted by
    another leave the lock word and owner that [acquire] computes, and the
    three of [release] those that [release] computes. *)
Theorem lock_step_refines_acquire i s l c co'
    (Hout : pcs s i = Out) (Hl : locked l = 0) (Hw : lw s = locked l) (Hcpu : lcpu s = lk_cpu l)
    (Hok : core_ok co' c) (Hme : me co' = i) :
  ∃ st', acquire fst_lens snd_lens (co', l) = Ok (tt, st') ∧
    lw (run_cpu 3 i s) = locked st'.2 ∧ lcpu (run_cpu 3 i s) = lk_cpu st'.2 ∧
    pcs (run_cpu 3 i s) i = Crit ∧
    ∃ st'', release fst_lens snd_lens st' = Ok (tt, st'') ∧
      lw (run_cpu 6 i s) = locked st''.2 ∧ lcpu (run_cpu 6 i s) = lk_cpu st''.2 ∧
      pcs (run_cpu 6 i s) i = Out.
Proof.
  pose proof Hok as (_ & _ & Hn & _).
  eexists. split; [by eapply (acquire_ok fst_lens snd_lens)|].
  set (st' := upd_lens _ _ _).
  pose proof (release_ok fst_lens snd_lens st' (pushed c)
    (core_ok_pushed _ _ Hok) ltac:(simpl; lia) ltac:(done) eq_refl) as Hrel.
  unfold st' in *. clear st'. rewrite Hl in Hw.
  destruct (run_acquire i s Hout Hw) as (Hw1 & Hc1 & Hp1).
  destruct (run_release i _ Hp1 Hw1 Hc1) as (Hw2 & Hc2 & Hp2).
  rewrite <- (run_cpu_add 3 3) in Hw2, Hc2, Hp2.
  split_and!; [done|by rewrite Hc1, <- Hme|done|].
  eexists. split; [exact Hrel|]. done.
Qed.
Lemma lock_step_refines_acquire_witness :
  lw (run_cpu 3 0 lock_init) = 1 ∧
  ∃ st', acquire fst_lens snd_lens
      ({| cpus := [Cpu 0 0 false None true]; me := 0 |}, initlock "l") = Ok (tt, st') ∧
    lw (run_cpu 3 0 lock_init) = locked st'.2.
Proof.
  split; [reflexivity|].
  edestruct (lock_step_refines_acquire 0 lock_init (initlock "l") (Cpu 0 0 false None true)
    {| cpus := [Cpu 0 0 false None true]; me := 0 |}) as (st' & H1 & H2 & _); try reflexivity.
  - repeat split; simpl; lia || done.
  - exists st'. split; [exact H1|exact H2].
Defined.
