(* ===== verification/Kalloc.v ===== *)
(** * The physical page allocator

    [kalloc.c]: a free list of 4096-byte pages threaded through the pages
    themselves ([r->next] is the first word of a free page).  The list in
    memory is related to a list of page addresses, which is the allocator's
    abstract state: [kalloc] pops it and [kfree] pushes on it. *)

From S2P Require Import Prelude Machine Str Spin.
Local Open Scope Z_scope.

(** ** State and operations *)

(** [kmem], with the memory the free list lives in and the CPUs its lock uses. *)
Record kst := Kst {
  k_core : core;
  k_lock : spinlock;
  use_lock : bool;
  freelist : Z;
  k_mem : mem;
}.

Definition kst_core : lens kst core :=
  Lens k_core (λ c s, Kst c (k_lock s) (use_lock s) (freelist s) (k_mem s)).
Definition kst_lock : lens kst spinlock :=
  Lens k_lock (λ l s, Kst (k_core s) l (use_lock s) (freelist s) (k_mem s)).
Global Instance kst_core_ok : LensOk kst_core.
Proof. constructor; intros; by try destruct s. Qed.
Global Instance kst_lock_ok : LensOk kst_lock.
Proof. constructor; intros; by try destruct s. Qed.
Global Instance kst_core_lock : LensDisj kst_core kst_lock.
Proof. by constructor. Qed.

Definition set_freelist (h : Z) (s : kst) : kst :=
  Kst (k_core s) (k_lock s) (use_lock s) h (k_mem s).
Definition set_mem (m : mem) (s : kst) : kst :=
  Kst (k_core s) (k_lock s) (use_lock s) (freelist s) m.
Definition set_use_lock (b : bool) (s : kst) : kst :=
  Kst (k_core s) (k_lock s) b (freelist s) (k_mem s).

Section Kalloc.
(** [extern char end[]]: the first address after the kernel image, placed by
    the linker script. *)
Variable kend : Z.

Definition kfree (v : Z) : M kst unit :=
  if negb (v mod PGSIZE =? 0) || (v <? kend) || (PHYSTOP <=? V2P v)
  then panic "kfree" else
  modify (λ s, set_mem (memset (k_mem s) v 1 PGSIZE) s);;
  s ← get;
  whenM (use_lock s) (acquire kst_core kst_lock);;
  modify (λ s, set_mem (store32 (k_mem s) v (freelist s)) s);;
  modify (set_freelist v);;
  s ← get;
  whenM (use_lock s) (release kst_core kst_lock).

(** Returns the page, or 0. *)
Definition kalloc : M kst Z :=
  s ← get;
  whenM (use_lock s) (acquire kst_core kst_lock);;
  r ← gets freelist;
  whenM (negb (r =? 0)) (modify (λ s, set_freelist (load32 (k_mem s) r) s));;
  s ← get;
  whenM (use_lock s) (release kst_core kst_lock);;
  mret r.

(** [for(; p + PGSIZE <= vend; p += PGSIZE) kfree(p);] with at most [n] pages. *)
Fixpoint freerange_loop (n : nat) (p vend : Z) : M kst unit :=
  if p + PGSIZE <=? vend then
    match n with
    | O => fault "fuel"
    | S k => kfree p;; freerange_loop k (p + PGSIZE) vend
    end
  else mret tt.
Definition freerange (vstart vend : Z) : M kst unit :=
  let p := PGROUNDUP vstart in
  freerange_loop (Z.to_nat ((vend - p) / PGSIZE)) p vend.

Definition kinit1 (vstart vend : Z) : M kst unit :=
  modify (upd_lens kst_lock (initlock "kmem"));;
  modify (set_use_lock false);;
  freerange vstart vend.
Definition kinit2 (vstart vend : Z) : M kst unit :=
  freerange vstart vend;;
  modify (set_use_lock true).

(** ** The free list as a list of pages *)

(** A page [kfree] accepts. *)
Definition valid_page (v : Z) : Prop :=
  v mod PGSIZE = 0 ∧ kend ≤ v < 2^32 ∧ V2P v < PHYSTOP.

(** Following the [next] words from [h] visits exactly the pages [l]. *)
Fixpoint chain (m : mem) (h : Z) (l : list Z) : Prop :=
  match l with
  | [] => h = 0
  | p :: l' => h = p ∧ chain m (load32 m p) l'
  end.

Definition kinv (s : kst) (l : list Z) : Prop :=
  chain (k_mem s) (freelist s) l ∧ NoDup l ∧ Forall valid_page l ∧
  bytes (k_mem s) ∧ locked (k_lock s) = 0 ∧ ∃ c, core_ok (k_core s) c.

Hypothesis kend_pos : 0 < kend.

Lemma valid_page_pos v : valid_page v → 0 < v.
Proof. unfold valid_page. lia. Qed.

(** Two different pages do not overlap. *)
Lemma valid_page_disjoint v w : valid_page v → valid_page w → v ≠ w → v + PGSIZE ≤ w ∨ w + PGSIZE ≤ v.
Proof.
  intros (Hv & _ & _) (Hw & _ & _) Hne. change PGSIZE with 4096 in *. Z.div_mod_to_equations. lia.
Qed.

Lemma chain_frame m m' h l :
  (∀ p, p ∈ l → load32 m' p = load32 m p) → chain m h l → chain m' h l.
Proof.
  revert h. induction l as [|p l IH]; intros h Hf; simpl; [done|].
  intros [-> Hc]. split; [done|]. rewrite Hf by set_solver. apply IH; [|done]. set_solver.
Qed.

(** A write inside a page that is not free leaves the free list alone. *)
Lemma kinv_set_mem s l m v :
  kinv s l → valid_page v → v ∉ l → bytes m →
  (∀ x, ¬ (v ≤ x < v + PGSIZE) → m x = k_mem s x) → kinv (set_mem m s) l.
Proof.
  intros (Hc & Hnd & Hval & Hb & Hlk & Hco) Hv Hni Hbm Hm. split_and!; try done. simpl.
  eapply chain_frame; [|done]. intros p Hp. apply load32_ext. intros x Hx. apply Hm.
  rewrite Forall_forall in Hval. specialize (Hval p Hp).
  destruct (valid_page_disjoint v p) as [?|?]; try done; [set_solver|lia|].
  change PGSIZE with 4096 in *. lia.
Qed.

(** Interrupts are off already. *)
Definition nested (co : core) : Prop := ∃ c, core_ok co c ∧ 0 < ncli c.

(** Taking and dropping the lock around an update that keeps lock and CPUs. *)
Lemma locked_section {A} (s : kst) (body : M kst A) a s1 :
  locked (k_lock s) = 0 → (∃ c, core_ok (k_core s) c) →
  (∀ co lk, body (Kst co lk (use_lock s) (freelist s) (k_mem s)) =
     Ok (a, Kst co lk (use_lock s) (freelist s1) (k_mem s1))) →
  ∃ co lk, (whenM (use_lock s) (acquire kst_core kst_lock);; a ← body;
            s ← get; whenM (use_lock s) (release kst_core kst_lock);; mret a) s =
     Ok (a, Kst co lk (use_lock s) (freelist s1) (k_mem s1)) ∧
    locked lk = 0 ∧ (∃ c, core_ok co c) ∧ (nested (k_core s) → co = k_core s).
Proof.
  intros Hlk (c & Hco) Hb.
  destruct (use_lock s) eqn:Eu.
  - pose proof (acquire_ok kst_core kst_lock s c Hco Hlk) as Hacq. simpl in Hacq.
    pose proof Hco as (_ & _ & Hn & _).
    unfold whenM at 1. rewrite (bind_Ok_l _ _ _ _ _ Hacq).
    rewrite Eu. rewrite (bind_Ok_l _ _ _ _ _ (Hb _ _)).
    erewrite bind_Ok_l by reflexivity. unfold whenM; simpl.
    erewrite bind_Ok_l.
    2:{ apply (release_ok kst_core kst_lock) with (c := pushed c); simpl;
          [by apply core_ok_pushed|lia|done|done]. }
    simpl. do 2 eexists. split; [reflexivity|]. split; [done|]. rewrite with_cpu_with.
    rewrite popped_pushed by (destruct Hco as (?&?&?&?); done). split; [eexists; by apply core_ok_settled|].
    intros (c' & Hc' & Hn'). assert (c' = c) as -> by (destruct Hco as [? _], Hc' as [? _]; congruence).
    rewrite settled_pos by done. by apply with_cpu_id.
  - exists (k_core s), (k_lock s). split; [|eauto]. unfold whenM.
    erewrite bind_Ok_l by reflexivity.
    destruct s as [co lk ul fl me]; simpl in *; subst.
    rewrite (bind_Ok_l _ _ _ _ _ (Hb _ _)). done.
Qed.

Lemma kalloc_spec s l :
  kinv s l →
  ∃ r s', kalloc s = Ok (r, s') ∧ k_mem s' = k_mem s ∧ use_lock s' = use_lock s ∧
    match l with
    | [] => r = 0 ∧ kinv s' []
    | p :: l' => r = p ∧ kinv s' l'
    end.
Proof.
  intros Hinv. pose proof Hinv as (Hc & Hnd & Hval & Hb & Hlk0 & Hco0).
  set (h' := match l with [] => 0 | p :: _ => load32 (k_mem s) p end).
  destruct (locked_section s
    (r ← gets freelist; whenM (negb (r =? 0)) (modify (λ s, set_freelist (load32 (k_mem s) r) s));; mret r)
    (freelist s) (set_freelist h' s) Hlk0 Hco0) as (co & lk & Hrun & Hlk & Hco & _).
  { intros co lk. runM. simpl. destruct l as [|p l']; simpl in Hc.
    - by rewrite Hc.
    - destruct Hc as [-> Hc]. inversion Hval as [|?? Hp _]; subst.
      rewrite (proj2 (Z.eqb_neq p 0)) by (apply valid_page_pos in Hp; lia). done. }
  exists (freelist s), (Kst co lk (use_lock s) h' (k_mem s)). split_and!; try done.
  { unfold kalloc. runM. unfold set_freelist in Hrun. simpl in *.
    revert Hrun. destruct (use_lock s); [destruct (acquire _ _ s) as [[[] s1]| | |]|]; simpl; try done.
    - by destruct (negb _).
    - by destruct (negb _). }
  destruct l as [|p l']; simpl in Hc.
  - split; [done|]. split_and!; simpl; done.
  - destruct Hc as [-> Hc]. split; [done|]. inversion Hval; subst. apply NoDup_cons in Hnd as [_ Hnd].
    split_and!; simpl; done.
Qed.


(** What [kfree] does to memory, whatever the free list looks like. *)
Lemma kfree_run s v :
  negb (v mod PGSIZE =? 0) || (v <? kend) || (PHYSTOP <=? V2P v) = false →
  locked (k_lock s) = 0 → (∃ c, core_ok (k_core s) c) →
  ∃ co lk, kfree v s = Ok (tt, Kst co lk (use_lock s) v (store32 (memset (k_mem s) v 1 PGSIZE) v (freelist s))) ∧
    locked lk = 0 ∧ (∃ c, core_ok co c) ∧ (nested (k_core s) → co = k_core s).
Proof.
  intros Hv Hlk0 Hco0. set (m1 := memset (k_mem s) v 1 PGSIZE).
  destruct (locked_section (set_mem m1 s)
    (modify (λ s, set_mem (store32 (k_mem s) v (freelist s)) s);; modify (set_freelist v))
    tt (set_freelist v (set_mem (store32 m1 v (freelist s)) s)) Hlk0 Hco0) as (co & lk & Hrun & Hlk & Hco).
  { intros co lk. done. }
  exists co, lk. split; [|done].
  unfold kfree. rewrite Hv.
  revert Hrun. runM. fold m1. simpl.
  destruct (use_lock s); [destruct (acquire _ _ _) as [[[] s1]| | |]|]; simpl; try done.
  1: destruct (use_lock s1).
  3: destruct (use_lock s).
  all: try done; by destruct (release kst_core kst_lock _) as [[[] s2]| | |].
Qed.
Lemma valid_page_check v : valid_page v → negb (v mod PGSIZE =? 0) || (v <? kend) || (PHYSTOP <=? V2P v) = false.
Proof.
  intros (Hv1 & Hv2 & Hv3). rewrite Hv1, (proj2 (Z.ltb_ge v kend)), (proj2 (Z.leb_gt PHYSTOP (V2P v))) by lia. done.
Qed.
Lemma freelist_u32 s l : kinv s l → is_u32 (freelist s).
Proof.
  intros (Hc & _ & Hval & _). destruct l as [|p l']; simpl in Hc; [rewrite Hc; unfold is_u32; lia|].
  destruct Hc as [-> _]. inversion Hval as [|?? (_ & Hp & _) _]; subst. unfold is_u32. lia.
Qed.

Lemma kfree_spec s l v :
  kinv s l → valid_page v → v ∉ l →
  ∃ s', kfree v s = Ok (tt, s') ∧ kinv s' (v :: l) ∧ use_lock s' = use_lock s ∧
    (∀ x, ¬ (v ≤ x < v + PGSIZE) → k_mem s' x = k_mem s x) ∧
    (∀ x, v + 4 ≤ x < v + PGSIZE → k_mem s' x = 1).
Proof.
  intros Hinv Hv Hni. pose proof (freelist_u32 s l Hinv) as Hfl.
  destruct (kfree_run s v (valid_page_check v Hv)) as (co & lk & Hrun & Hlk & Hco & _); [apply Hinv..|].
  set (m1 := memset (k_mem s) v 1 PGSIZE) in *.
  assert (Hm1 : ∀ x, m1 x = if decide (v ≤ x < v + PGSIZE) then 1 else k_mem s x).
  { intros x. unfold m1. rewrite memset_eq by (unfold PGSIZE; lia). done. }
  assert (Hb1 : bytes m1).
  { intros x. rewrite Hm1. case_decide; [unfold is_u8; lia|]. destruct Hinv as (_&_&_&Hb&_). apply Hb. }
  assert (Hinv1 : kinv (set_mem m1 s) l).
  { apply (kinv_set_mem s l m1 v); try done. intros x Hx. by rewrite Hm1, decide_False. }
  pose proof Hinv1 as (Hc & Hnd & Hval & Hb & _ & _). simpl in Hc.
  set (m2 := store32 m1 v (freelist s)) in *.
  assert (Hm2 : ∀ x, ¬ (v ≤ x < v + 4) → m2 x = m1 x) by (intros; by apply store32_other).
  exists (Kst co lk (use_lock s) v m2). split_and!; [done| |done|..].
  - split_and!; simpl; try done.
    + split; [done|]. unfold m2. rewrite load32_store32 by done. fold m2.
      eapply chain_frame; [|done]. intros p Hp. apply load32_ext. intros x Hx. apply Hm2.
      rewrite Forall_forall in Hval. specialize (Hval p Hp). assert (p ≠ v) by set_solver.
      destruct (valid_page_disjoint v p) as [?|?]; try done; unfold PGSIZE in *; lia.
    + by apply NoDup_cons.
    + by constructor.
    + by apply bytes_store32.
  - intros x Hx. simpl. rewrite Hm2 by (unfold PGSIZE in *; lia). by rewrite Hm1, decide_False.
  - intros x Hx. simpl. rewrite Hm2 by lia. by rewrite Hm1, decide_True by lia.
Qed.

(** Freeing a page that is already free ties the free list into a loop. *)
Lemma chain_prefix m m' h pre v post : chain m h (pre ++ v :: post) → (∀ p, p ∈ pre → load32 m' p = load32 m p) →
  ∀ l, (∀ p, p ∈ l → p ≠ 0) → (∀ p, p ∈ pre → p ≠ 0) → v ≠ 0 → chain m' h l → ∃ l2, l = pre ++ l2 ∧ chain m' v l2.
Proof.
  revert h. induction pre as [|p pre IH]; intros h Hc Hm l Hl Hp Hv Hl'; simpl in *.
  - destruct Hc as [-> _]. by exists l.
  - destruct Hc as [-> Hc]. destruct l as [|q l]; simpl in Hl'; [by destruct (Hp p); [left|]|]. destruct Hl' as [<- Hl'].
    rewrite (Hm p) in Hl' by left.
    destruct (IH _ Hc) with (l := l) as (l2 & -> & H2); try done; [intros; apply Hm; by right|intros; apply Hl; by right|intros; apply Hp; by right|].
    by exists l2.
Qed.
Lemma kfree_twice s l v : kinv s l → v ∈ l → ∃ s', kfree v s = Ok (tt, s') ∧ freelist s' = v ∧
  load32 (k_mem s') v = freelist s ∧ ∀ l', ¬ kinv s' l'.
Proof.
  intros Hinv Hin. pose proof Hinv as (Hc & Hnd & Hval & Hb & Hlk & Hco). rewrite Forall_forall in Hval.
  pose proof (freelist_u32 s l Hinv) as Hfl.
  destruct (kfree_run s v (valid_page_check v (Hval v Hin)) Hlk Hco) as (co & lk & Hrun & _). eexists. split; [exact Hrun|].
  split; [done|]. split; [simpl; by rewrite load32_store32|].
  intros l' (Hc' & Hnd' & Hval' & _). rewrite Forall_forall in Hval'. simpl in Hc'.
  set (m1 := memset (k_mem s) v 1 PGSIZE) in *. set (m' := store32 m1 v (freelist s)) in *.
  assert (Hpos : ∀ p, p ∈ l → p ≠ 0) by (intros p Hp; pose proof (valid_page_pos p (Hval p Hp)); lia).
  assert (Hpos' : ∀ p, p ∈ l' → p ≠ 0) by (intros p Hp; pose proof (valid_page_pos p (Hval' p Hp)); lia).
  destruct l' as [|q l']; simpl in Hc'; [by destruct (Hpos v Hin)|]. destruct Hc' as [<- Hc'].
  unfold m' in Hc' at 2. rewrite load32_store32 in Hc' by done.
  apply list_elem_of_split in Hin as (pre & post & ->). apply NoDup_app in Hnd as (_ & Hdis & Hnd).
  destruct (chain_prefix (k_mem s) m' (freelist s) pre v post Hc) with (l := l') as (l2 & -> & H2); try done.
  - intros p Hp. assert (p ≠ v) by (intros ->; destruct (Hdis v Hp); left).
    assert (Hvp : valid_page p) by (apply Hval, elem_of_app; by left).
    assert (Hvv : valid_page v) by (apply Hval, elem_of_app; right; left).
    apply load32_ext. intros x Hx. destruct (valid_page_disjoint v p Hvv Hvp) as [?|?]; [done|..]; unfold PGSIZE in *;
      (unfold m'; rewrite store32_other by lia; unfold m1; rewrite memset_eq, decide_False by (unfold PGSIZE; lia); done).
  - intros p Hp. apply Hpos'. by right.
  - intros p Hp. apply Hpos, elem_of_app. by left.
  - apply Hpos, elem_of_app. right; left.
  - apply NoDup_cons in Hnd' as [Hni _]. apply Hni. apply elem_of_app. right.
    destruct l2 as [|q l2]; simpl in H2; [by destruct (Hpos v); [apply elem_of_app; right; left|]|].
    destruct H2 as [<- _]. left.
Qed.

(** Freeing a page that is not already free pushes it on the free list:
    the next [kalloc] returns exactly that page and restores the old list, and
    no byte outside the page changed in between. *)
Theorem kfree_kalloc s l v (Hinv : kinv s l) (Hv : valid_page v) (Hni : v ∉ l) :
  ∃ s', (kfree v;; kalloc) s = Ok (v, s') ∧ kinv s' l ∧
    ∀ x, ¬ (v ≤ x < v + PGSIZE) → k_mem s' x = k_mem s x.
Proof.
  destruct (kfree_spec s l v) as (s1 & H1 & Hinv1 & _ & Hfr & _); try done.
  destruct (kalloc_spec s1 (v :: l) Hinv1) as (r & s2 & H2 & Hm & _ & -> & Hinv2).
  exists s2. split_and!; [|done|].
  - by rewrite (bind_Ok_l _ _ _ _ _ H1).
  - intros x Hx. rewrite Hm. by apply Hfr.
Qed.

(** [kfree] panics on anything that is not a page of the allocator. *)
Lemma kfree_panic s v : is_u32 v → ¬ valid_page v → kfree v s = Panic "kfree".
Proof.
  intros Hu Hv. unfold kfree. destruct (_ || _) eqn:E; [done|].
  bool_to_prop. exfalso. apply Hv. unfold valid_page, is_u32 in *. lia.
Qed.

(** The pages of a range, lowest address first. *)
Definition page_range (p : Z) (n : nat) : list Z := (λ i, p + Z.of_nat i * PGSIZE) <$> seq 0 n.

Lemma page_range_S p n : page_range p (S n) = p :: page_range (p + PGSIZE) n.
Proof.
  unfold page_range. rewrite <- cons_seq, fmap_cons, <- fmap_S_seq, <- list_fmap_compose. f_equal; [lia|].
  apply list_fmap_ext. intros i x Hx. simpl. unfold PGSIZE. lia.
Qed.
Lemma elem_of_page_range p n x :
  x ∈ page_range p n ↔ ∃ i, (i < n)%nat ∧ x = p + Z.of_nat i * PGSIZE.
Proof.
  unfold page_range. rewrite list_elem_of_fmap. split.
  - intros (i & -> & Hi). apply elem_of_seq in Hi. exists i. split; [lia|done].
  - intros (i & Hi & ->). exists i. split; [done|]. apply elem_of_seq. lia.
Qed.

Lemma freerange_loop_spec n p vend s l :
  kinv s l → p + Z.of_nat n * PGSIZE ≤ vend < p + Z.of_nat (S n) * PGSIZE →
  (∀ v, v ∈ page_range p n → valid_page v ∧ v ∉ l) →
  ∃ s', freerange_loop n p vend s = Ok (tt, s') ∧ use_lock s' = use_lock s ∧
    kinv s' (reverse (page_range p n) ++ l).
Proof.
  revert p s l. induction n as [|n IH]; intros p s l Hinv Hend Hpg; cbn [freerange_loop].
  - rewrite (proj2 (Z.leb_gt (p + PGSIZE) vend)) by (unfold PGSIZE in *; lia). by exists s.
  - rewrite (proj2 (Z.leb_le (p + PGSIZE) vend)) by (unfold PGSIZE in *; lia).
    rewrite page_range_S in *.
    destruct (Hpg p) as [Hvp Hnp]; [set_solver|].
    destruct (kfree_spec s l p) as (s1 & H1 & Hinv1 & Hu1 & _); try done.
    destruct (IH (p + PGSIZE) s1 (p :: l)) as (s2 & H2 & Hu2 & Hinv2); [done|unfold PGSIZE in *; lia| |].
    + intros v Hv. destruct (Hpg v) as [? ?]; [set_solver|]. split; [done|].
      apply not_elem_of_cons. split; [|done]. intros ->.
      apply elem_of_page_range in Hv as (i & Hi & He). unfold PGSIZE in He. lia.
    + exists s2. rewrite (bind_Ok_l _ _ _ _ _ H1). split_and!; [done|congruence|].
      by rewrite reverse_cons, <- app_assoc.
Qed.

(** [freerange] terminates without panicking and puts every whole page of
    the range on the free list, each exactly once. *)
Theorem freerange_frees s l vstart vend
    (Hinv : kinv s l) (Hs : kend ≤ vstart) (Hv : vstart + PGSIZE ≤ vend)
    (He : vend ≤ P2V PHYSTOP) (Hb : KERNBASE ≤ vstart)
    (Hfree : ∀ v, vstart ≤ v < vend → v ∉ l) :
  ∃ s' n, freerange vstart vend s = Ok (tt, s') ∧
    kinv s' (reverse (page_range (PGROUNDUP vstart) n) ++ l) ∧
    PGROUNDUP vstart + Z.of_nat n * PGSIZE ≤ vend < PGROUNDUP vstart + Z.of_nat (S n) * PGSIZE.
Proof.
  assert (Hp := PGROUNDUP_spec vstart).
  change (P2V PHYSTOP) with 0x8E000000 in He. change PGSIZE with 4096 in *. change KERNBASE with 0x80000000 in *.
  destruct Hp as [Hal Hr]; [lia..|].
  set (p := PGROUNDUP vstart) in *. set (n := Z.to_nat ((vend - p) / 4096)).
  assert (Hn : p + Z.of_nat n * 4096 ≤ vend < p + Z.of_nat (S n) * 4096).
  { unfold n. rewrite Nat2Z.inj_succ, Z2Nat.id by (apply Z.div_pos; lia). Z.div_mod_to_equations. lia. }
  destruct (freerange_loop_spec n p vend s l) as (s' & Hrun & _ & Hinv'); try done.
  - intros v Hvin. apply elem_of_page_range in Hvin as (i & Hi & ->). change PGSIZE with 4096.
    assert (p + Z.of_nat i * 4096 + 4096 ≤ vend) by lia.
    split; [|apply Hfree; lia]. split_and!; [|lia|lia|].
    + change PGSIZE with 4096. by rewrite Z.mod_add.
    + unfold V2P. change KERNBASE with 0x80000000. rewrite wrap32_id by (unfold is_u32; lia).
      change PHYSTOP with 0xE000000. lia.
  - exists s', n. done.
Qed.
End Kalloc.

(** *** Witnesses, for a kernel that ends at 0x80100000 *)

Definition kst0 : kst :=
  Kst {| cpus := [Cpu 0 0 false None false]; me := 0 |} (initlock "kmem") true 0 (λ _, 0).

Lemma kinv_kst0 : kinv 0x80100000 kst0 [].
Proof.
  split_and!; [done|constructor|constructor| |done|].
  - intros a. unfold is_u8. simpl. lia.
  - exists (Cpu 0 0 false None false). repeat split; simpl; lia || done.
Qed.


Lemma kfree_kalloc_witness :
  ∃ s', (kfree 0x80100000 0x80200000;; kalloc) kst0 = Ok (0x80200000, s').
Proof.
  destruct (kfree_kalloc 0x80100000 ltac:(lia) kst0 [] 0x80200000 kinv_kst0) as (s' & H & _).
  - unfold valid_page; split_and!; [reflexivity|lia|reflexivity|reflexivity].
  - apply not_elem_of_nil.
  - exists s'. exact H.
Defined.

Lemma freerange_frees_witness :
  ∃ s' n, freerange 0x80100000 0x80100001 0x80104000 kst0 = Ok (tt, s') ∧
    kinv 0x80100000 s' (reverse (page_range 0x80101000 n) ++ []).
Proof.
  destruct (freerange_frees 0x80100000 ltac:(lia) kst0 [] 0x80100001 0x80104000 kinv_kst0
    ltac:(lia) ltac:(vm_compute; discriminate) ltac:(vm_compute; discriminate)
    ltac:(vm_compute; discriminate) (λ v _, not_elem_of_nil v)) as (s' & n & H1 & H2 & _).
  exists s', n. split; [exact H1|exact H2].
Defined.
