(* ===== verification/Flt.v ===== *)
(** * Single-precision arithmetic of the best-job-first queue

    The [float] fields of [struct proc] and the operations [proc.c] applies to
    them, as IEEE 754 binary32 (and binary64 for the [double] constant in
    [yield]) on the executable [SpecFloat] of the Standard Library, each
    operation rounded to nearest even in its C type. *)

From Stdlib Require Import Floats.SpecFloat.
From S2P Require Import Prelude Machine.
Local Open Scope Z_scope.

Abbreviation float32 := spec_float.

Definition f_of_int (z : Z) : float32 := binary_normalize 24 128 z 0 false.
Definition fadd : float32 → float32 → float32 := SFadd 24 128.
Definition fmul : float32 → float32 → float32 := SFmul 24 128.
(** [a < b]; false when an operand is a NaN. *)
Definition flt (a b : float32) : bool := SFltb a b.

(** [0.1f] and the [double] constant [0.1]. *)
Definition f0_1 : float32 := S754_finite false 13421773 (-27).
Definition d0_1 : spec_float := S754_finite false 7205759403792794 (-56).
Definition f1_0 : float32 := f_of_int 1.

Definition renormalize (prec emax : Z) (f : spec_float) : spec_float :=
  match f with
  | S754_finite s m e => binary_normalize prec emax (if s then Z.neg m else Z.pos m) e s
  | f => f
  end.
(** [(float)((double)x + d)] *)
Definition fadd_double (x : float32) (d : spec_float) : float32 :=
  renormalize 24 128 (SFadd 53 1024 (renormalize 53 1024 x) d).

(** [(int)f], rounding toward zero. *)
Definition f_to_int (f : float32) : Z :=
  match f with
  | S754_finite s m e =>
      let a := if 0 <=? e then Z.pos m * 2^e else Z.pos m / 2^(-e) in
      sint32 (if s then - a else a)
  | _ => 0
  end.

Definition is_nan (f : float32) : bool := match f with S754_nan => true | _ => false end.

(** ** [flt] orders the numbers *)

(** A key that orders floats lexicographically, NaN last. *)
Definition fkey (f : float32) : Z * Z * Z :=
  match f with
  | S754_nan => (3, 0, 0)
  | S754_infinity true => (-2, 0, 0)
  | S754_infinity false => (2, 0, 0)
  | S754_zero _ => (0, 0, 0)
  | S754_finite true m e => (-1, - e, Z.neg m)
  | S754_finite false m e => (1, e, Z.pos m)
  end.
Definition klt (a b : Z * Z * Z) : Prop :=
  let '(a1, a2, a3) := a in let '(b1, b2, b3) := b in
  a1 < b1 ∨ a1 = b1 ∧ (a2 < b2 ∨ a2 = b2 ∧ a3 < b3).

Lemma flt_klt a b :
  flt a b = true ↔ is_nan a = false ∧ is_nan b = false ∧ klt (fkey a) (fkey b).
Proof.
  unfold flt, SFltb, SFcompare, klt.
  destruct a as [sa|sa| |sa ma ea], b as [sb|sb| |sb mb eb];
    try (destruct sa); try (destruct sb); simpl; split; intros H;
    try done; try (split_and!; try done; lia); try lia.
  all: destruct (Z.compare_spec ea eb) as [?|?|?]; try lia; try done.
  all: subst; change (Pos.compare_cont Eq ma mb) with (Pos.compare ma mb) in *;
    destruct (Pos.compare_spec ma mb) as [?|?|?]; simpl in *; try done;
    try lia; split_and!; try done; lia.
Qed.

Lemma flt_nan_l b : flt S754_nan b = false.
Proof. done. Qed.
Lemma flt_nan_r a : flt a S754_nan = false.
Proof. destruct a; done. Qed.

(** [flt] made total by placing NaN above every number: a strict weak order
    that agrees with [flt] when the right operand is a number. *)
Definition fbefore (a b : float32) : bool := flt a b || (is_nan b && negb (is_nan a)).

Lemma fbefore_klt a b : fbefore a b = true ↔ klt (fkey a) (fkey b).
Proof.
  unfold fbefore. destruct (flt a b) eqn:E; simpl.
  - split; [|done]. intros _. by apply flt_klt in E as (_ & _ & ?).
  - assert (Hn : ¬ (is_nan a = false ∧ is_nan b = false ∧ klt (fkey a) (fkey b))).
    { intros H. apply flt_klt in H. congruence. }
    destruct (is_nan b) eqn:Eb, (is_nan a) eqn:Ea; simpl.
    + destruct a, b; try done. simpl. split; [done|]. lia.
    + split; [|done]. intros _. destruct b; try done. destruct a as [[]|[]| |[] ??]; simpl; try done; lia.
    + split; [done|]. destruct a; try done. destruct b as [[]|[]| |[] ??]; simpl; try done; lia.
    + split; [done|]. intros H. exfalso. by apply Hn.
Qed.

Ltac fbefore_tac :=
  repeat match goal with
  | H : fbefore _ _ = true |- _ => apply fbefore_klt in H
  end.

Lemma fbefore_irrefl a : fbefore a a = false.
Proof.
  destruct (fbefore a a) eqn:E; [|done]. fbefore_tac.
  destruct (fkey a) as [[? ?] ?]. simpl in E. lia.
Qed.
Lemma fbefore_trans a b c : fbefore a b = true → fbefore b c = true → fbefore a c = true.
Proof.
  intros H1 H2. fbefore_tac. apply fbefore_klt.
  destruct (fkey a) as [[? ?] ?], (fkey b) as [[? ?] ?], (fkey c) as [[? ?] ?]. simpl in *. lia.
Qed.
Lemma fbefore_negtrans a b c : fbefore a c = true → fbefore a b = true ∨ fbefore b c = true.
Proof.
  intros H. fbefore_tac. rewrite !fbefore_klt.
  destruct (fkey a) as [[? ?] ?], (fkey b) as [[? ?] ?], (fkey c) as [[? ?] ?]. simpl in *. lia.
Qed.
Lemma fbefore_flt a b : is_nan b = false → fbefore a b = flt a b.
Proof. intros H. unfold fbefore. rewrite H. apply orb_false_r. Qed.
Lemma flt_fbefore a b : flt a b = true → fbefore a b = true.
Proof. unfold fbefore. by intros ->. Qed.

Lemma flt_irrefl a : flt a a = false.
Proof. destruct (flt a a) eqn:E; [|done]. apply flt_fbefore in E. by rewrite fbefore_irrefl in E. Qed.
Lemma flt_numbers a b : flt a b = true → is_nan a = false ∧ is_nan b = false.
Proof. intros H. apply flt_klt in H. naive_solver. Qed.

(** The loop that remembers the least rank computes the same with either
    order, since the remembered value is always a number. *)
Lemma scan_best_flt {A} (cand : A → bool) (key : A → float32) l i best r :
  is_nan best = false →
  scan_best cand key flt l i best r = scan_best cand key fbefore l i best r.
Proof.
  revert i best r. induction l as [|p l IH]; intros i best r Hb; simpl; [done|].
  rewrite fbefore_flt by done. destruct (cand p && flt (key p) best) eqn:E; [|by apply IH].
  apply IH. apply andb_true_iff in E as [_ E]. by apply flt_numbers in E as [? _].
Qed.
