(* ===== verification/ProcTable.v ===== *)
(** * The process table

    [proc.h] and the parts of [proc.c] that only read or write [ptable.proc]:
    the process record, the three queue policies of the scheduler, aging,
    wake-up, kill, the table walks behind the added system calls, and the small
    arithmetic helpers.  The operations that take locks, switch context or call
    other components are in [Proc]; the theorems on the policies in [Sched]. *)

From Stdlib Require Import Floats.SpecFloat.
From S2P Require Import Prelude Machine Str Flt.
Local Open Scope Z_scope.

(** ** Data *)

Definition PRIORITY_MIN : Z := 2.
Definition PRIORITY_DEF : Z := 3.
Definition PRIORITY_MAX : Z := 5.
Definition RR : Z := 1.
Definition LCFS : Z := 2.
Definition BJF : Z := 3.
Definition AGING_THRS : Z := 8000.
(** [defs.h] *)
Definition MIN_INT : Z := -10000.
Definition MAX_INT : Z := 10000.

Inductive procstate := UNUSED | EMBRYO | SLEEPING | RUNNABLE | RUNNING | ZOMBIE.
Global Instance procstate_eq_dec : EqDecision procstate.
Proof. solve_decision. Defined.
Definition is_state (s t : procstate) : bool := bool_decide (s = t).

(** [void *chan]: null, a process (its [struct proc]), or another kernel
    object by its address. *)
Inductive channel := NoChan | ChProc (i : nat) | ChAddr (a : Z).
Global Instance channel_eq_dec : EqDecision channel.
Proof. solve_decision. Defined.
(** A [struct proc *] used as a channel. *)
Definition proc_chan (p : option nat) : channel :=
  match p with Some i => ChProc i | None => NoChan end.

(** [struct trapframe]: the registers saved on entry to the kernel. *)
Record trapframe := Trapframe {
  tf_edi : Z; tf_esi : Z; tf_ebp : Z; tf_oesp : Z; tf_ebx : Z; tf_edx : Z; tf_ecx : Z; eax : Z;
  tf_gs : Z; tf_fs : Z; tf_es : Z; tf_ds : Z; trapno : Z; tf_err : Z; tf_eip : Z; tf_cs : Z;
  tf_eflags : Z; tf_esp : Z; tf_ss : Z;
}.
(** [struct context]: the callee-saved registers of a kernel thread. *)
Record context_t := Context { c_edi : Z; c_esi : Z; c_ebx : Z; c_ebp : Z; c_eip : Z }.

(** [struct proc].  [parent] is an index into the table (null is [None]);
    [tf] and [context] are the frames the pointers point to; [ofile] and [cwd]
    are pointers, 0 when closed. *)
Record proc := Proc {
  sz : Z;
  pgdir : Z;
  kstack : Z;
  state : procstate;
  pid : Z;
  parent : option nat;
  tf : trapframe;
  context : context_t;
  creation_time : Z;
  preemption_time : Z;
  que_id : Z;
  chan : channel;
  killed : Z;
  ofile : list Z;
  cwd : Z;
  name : list Z;
  priority : Z;
  priority_ratio : float32;
  creation_time_ratio : float32;
  executed_cycle : float32;
  executed_cycle_ratio : float32;
  process_size_ratio : float32;
  shm : Z;
}.

Definition set_sz (v : Z) (p : proc) : proc :=
  Proc v (pgdir p) (kstack p) (state p) (pid p) (parent p) (tf p) (context p) (creation_time p) (preemption_time p) (que_id p) (chan p) (killed p) (ofile p) (cwd p) (name p) (priority p) (priority_ratio p) (creation_time_ratio p) (executed_cycle p) (executed_cycle_ratio p) (process_size_ratio p) (shm p).
Definition set_pgdir (v : Z) (p : proc) : proc :=
  Proc (sz p) v (kstack p) (state p) (pid p) (parent p) (tf p) (context p) (creation_time p) (preemption_time p) (que_id p) (chan p) (killed p) (ofile p) (cwd p) (name p) (priority p) (priority_ratio p) (creation_time_ratio p) (executed_cycle p) (executed_cycle_ratio p) (process_size_ratio p) (shm p).
Definition set_kstack (v : Z) (p : proc) : proc :=
  Proc (sz p) (pgdir p) v (state p) (pid p) (parent p) (tf p) (context p) (creation_time p) (preemption_time p) (que_id p) (chan p) (killed p) (ofile p) (cwd p) (name p) (priority p) (priority_ratio p) (creation_time_ratio p) (executed_cycle p) (executed_cycle_ratio p) (process_size_ratio p) (shm p).
Definition set_state (v : procstate) (p : proc) : proc :=
  Proc (sz p) (pgdir p) (kstack p) v (pid p) (parent p) (tf p) (context p) (creation_time p) (preemption_time p) (que_id p) (chan p) (killed p) (ofile p) (cwd p) (name p) (priority p) (priority_ratio p) (creation_time_ratio p) (executed_cycle p) (executed_cycle_ratio p) (process_size_ratio p) (shm p).
Definition set_pid (v : Z) (p : proc) : proc :=
  Proc (sz p) (pgdir p) (kstack p) (state p) v (parent p) (tf p) (context p) (creation_time p) (preemption_time p) (que_id p) (chan p) (killed p) (ofile p) (cwd p) (name p) (priority p) (priority_ratio p) (creation_time_ratio p) (executed_cycle p) (executed_cycle_ratio p) (process_size_ratio p) (shm p).
Definition set_parent (v : option nat) (p : proc) : proc :=
  Proc (sz p) (pgdir p) (kstack p) (state p) (pid p) v (tf p) (context p) (creation_time p) (preemption_time p) (que_id p) (chan p) (killed p) (ofile p) (cwd p) (name p) (priority p) (priority_ratio p) (creation_time_ratio p) (executed_cycle p) (executed_cycle_ratio p) (process_size_ratio p) (shm p).
Definition set_tf (v : trapframe) (p : proc) : proc :=
  Proc (sz p) (pgdir p) (kstack p) (state p) (pid p) (parent p) v (context p) (creation_time p) (preemption_time p) (que_id p) (chan p) (killed p) (ofile p) (cwd p) (name p) (priority p) (priority_ratio p) (creation_time_ratio p) (executed_cycle p) (executed_cycle_ratio p) (process_size_ratio p) (shm p).
Definition set_context (v : context_t) (p : proc) : proc :=
  Proc (sz p) (pgdir p) (kstack p) (state p) (pid p) (parent p) (tf p) v (creation_time p) (preemption_time p) (que_id p) (chan p) (killed p) (ofile p) (cwd p) (name p) (priority p) (priority_ratio p) (creation_time_ratio p) (executed_cycle p) (executed_cycle_ratio p) (process_size_ratio p) (shm p).
Definition set_creation_time (v : Z) (p : proc) : proc :=
  Proc (sz p) (pgdir p) (kstack p) (state p) (pid p) (parent p) (tf p) (context p) v (preemption_time p) (que_id p) (chan p) (killed p) (ofile p) (cwd p) (name p) (priority p) (priority_ratio p) (creation_time_ratio p) (executed_cycle p) (executed_cycle_ratio p) (process_size_ratio p) (shm p).
Definition set_preemption_time (v : Z) (p : proc) : proc :=
  Proc (sz p) (pgdir p) (kstack p) (state p) (pid p) (parent p) (tf p) (context p) (creation_time p) v (que_id p) (chan p) (killed p) (ofile p) (cwd p) (name p) (priority p) (priority_ratio p) (creation_time_ratio p) (executed_cycle p) (executed_cycle_ratio p) (process_size_ratio p) (shm p).
Definition set_que_id (v : Z) (p : proc) : proc :=
  Proc (sz p) (pgdir p) (kstack p) (state p) (pid p) (parent p) (tf p) (context p) (creation_time p) (preemption_time p) v (chan p) (killed p) (ofile p) (cwd p) (name p) (priority p) (priority_ratio p) (creation_time_ratio p) (executed_cycle p) (executed_cycle_ratio p) (process_size_ratio p) (shm p).
Definition set_chan (v : channel) (p : proc) : proc :=
  Proc (sz p) (pgdir p) (kstack p) (state p) (pid p) (parent p) (tf p) (context p) (creation_time p) (preemption_time p) (que_id p) v (killed p) (ofile p) (cwd p) (name p) (priority p) (priority_ratio p) (creation_time_ratio p) (executed_cycle p) (executed_cycle_ratio p) (process_size_ratio p) (shm p).
Definition set_killed (v : Z) (p : proc) : proc :=
  Proc (sz p) (pgdir p) (kstack p) (state p) (pid p) (parent p) (tf p) (context p) (creation_time p) (preemption_time p) (que_id p) (chan p) v (ofile p) (cwd p) (name p) (priority p) (priority_ratio p) (creation_time_ratio p) (executed_cycle p) (executed_cycle_ratio p) (process_size_ratio p) (shm p).
Definition set_ofile (v : list Z) (p : proc) : proc :=
  Proc (sz p) (pgdir p) (kstack p) (state p) (pid p) (parent p) (tf p) (context p) (creation_time p) (preemption_time p) (que_id p) (chan p) (killed p) v (cwd p) (name p) (priority p) (priority_ratio p) (creation_time_ratio p) (executed_cycle p) (executed_cycle_ratio p) (process_size_ratio p) (shm p).
Definition set_cwd (v : Z) (p : proc) : proc :=
  Proc (sz p) (pgdir p) (kstack p) (state p) (pid p) (parent p) (tf p) (context p) (creation_time p) (preemption_time p) (que_id p) (chan p) (killed p) (ofile p) v (name p) (priority p) (priority_ratio p) (creation_time_ratio p) (executed_cycle p) (executed_cycle_ratio p) (process_size_ratio p) (shm p).
Definition set_name (v : list Z) (p : proc) : proc :=
  Proc (sz p) (pgdir p) (kstack p) (state p) (pid p) (parent p) (tf p) (context p) (creation_time p) (preemption_time p) (que_id p) (chan p) (killed p) (ofile p) (cwd p) v (priority p) (priority_ratio p) (creation_time_ratio p) (executed_cycle p) (executed_cycle_ratio p) (process_size_ratio p) (shm p).
Definition set_priority (v : Z) (p : proc) : proc :=
  Proc (sz p) (pgdir p) (kstack p) (state p) (pid p) (parent p) (tf p) (context p) (creation_time p) (preemption_time p) (que_id p) (chan p) (killed p) (ofile p) (cwd p) (name p) v (priority_ratio p) (creation_time_ratio p) (executed_cycle p) (executed_cycle_ratio p) (process_size_ratio p) (shm p).
Definition set_priority_ratio (v : float32) (p : proc) : proc :=
  Proc (sz p) (pgdir p) (kstack p) (state p) (pid p) (parent p) (tf p) (context p) (creation_time p) (preemption_time p) (que_id p) (chan p) (killed p) (ofile p) (cwd p) (name p) (priority p) v (creation_time_ratio p) (executed_cycle p) (executed_cycle_ratio p) (process_size_ratio p) (shm p).
Definition set_creation_time_ratio (v : float32) (p : proc) : proc :=
  Proc (sz p) (pgdir p) (kstack p) (state p) (pid p) (parent p) (tf p) (context p) (creation_time p) (preemption_time p) (que_id p) (chan p) (killed p) (ofile p) (cwd p) (name p) (priority p) (priority_ratio p) v (executed_cycle p) (executed_cycle_ratio p) (process_size_ratio p) (shm p).
Definition set_executed_cycle (v : float32) (p : proc) : proc :=
  Proc (sz p) (pgdir p) (kstack p) (state p) (pid p) (parent p) (tf p) (context p) (creation_time p) (preemption_time p) (que_id p) (chan p) (killed p) (ofile p) (cwd p) (name p) (priority p) (priority_ratio p) (creation_time_ratio p) v (executed_cycle_ratio p) (process_size_ratio p) (shm p).
Definition set_executed_cycle_ratio (v : float32) (p : proc) : proc :=
  Proc (sz p) (pgdir p) (kstack p) (state p) (pid p) (parent p) (tf p) (context p) (creation_time p) (preemption_time p) (que_id p) (chan p) (killed p) (ofile p) (cwd p) (name p) (priority p) (priority_ratio p) (creation_time_ratio p) (executed_cycle p) v (process_size_ratio p) (shm p).
Definition set_process_size_ratio (v : float32) (p : proc) : proc :=
  Proc (sz p) (pgdir p) (kstack p) (state p) (pid p) (parent p) (tf p) (context p) (creation_time p) (preemption_time p) (que_id p) (chan p) (killed p) (ofile p) (cwd p) (name p) (priority p) (priority_ratio p) (creation_time_ratio p) (executed_cycle p) (executed_cycle_ratio p) v (shm p).
Definition set_shm (v : Z) (p : proc) : proc :=
  Proc (sz p) (pgdir p) (kstack p) (state p) (pid p) (parent p) (tf p) (context p) (creation_time p) (preemption_time p) (que_id p) (chan p) (killed p) (ofile p) (cwd p) (name p) (priority p) (priority_ratio p) (creation_time_ratio p) (executed_cycle p) (executed_cycle_ratio p) (process_size_ratio p) v.

Definition set_eax (v : Z) (t : trapframe) : trapframe :=
  Trapframe (tf_edi t) (tf_esi t) (tf_ebp t) (tf_oesp t) (tf_ebx t) (tf_edx t) (tf_ecx t) v
    (tf_gs t) (tf_fs t) (tf_es t) (tf_ds t) (trapno t) (tf_err t) (tf_eip t) (tf_cs t)
    (tf_eflags t) (tf_esp t) (tf_ss t).

(** An entry of the zero-initialised table. *)
Definition trapframe0 : trapframe := Trapframe 0 0 0 0 0 0 0 0 0 0 0 0 0 0 0 0 0 0 0.
Definition context0 : context_t := Context 0 0 0 0 0.
Definition f0 : float32 := S754_zero false.
Definition proc0 : proc :=
  Proc 0 0 0 UNUSED 0 None trapframe0 context0 0 0 0 NoChan 0 (replicate 16 0) 0 (replicate 16 0)
    0 f0 f0 f0 f0 f0 0.

(** ** Ranks and queue policies *)

Definition calculate_rank (p : proc) : float32 :=
  fadd (fadd (fadd (fmul (f_of_int (priority p)) (priority_ratio p))
                   (fmul (f_of_int (creation_time p)) (creation_time_ratio p)))
             (fmul (executed_cycle p) (executed_cycle_ratio p)))
       (fmul (f_of_int (sz p)) (process_size_ratio p)).

(** Ticks process [p] has been waiting at time [now]: [now - p->preemption_time]. *)
Definition waited (now : Z) (p : proc) : Z := sint32 (now - preemption_time p).

Definition in_queue (q : Z) (p : proc) : bool := is_state (state p) RUNNABLE && (que_id p =? q).

(** [ticks] is a [uint]; [int now = ticks]. *)
Definition round_robin (ticks : Z) (tbl : list proc) : option nat :=
  let now := sint32 ticks in
  (scan_best (in_queue RR) (waited now) zgt tbl 0 MIN_INT None).2.
Definition last_come_first_serve (tbl : list proc) : option nat :=
  (scan_best (in_queue LCFS) creation_time zgt tbl 0 MIN_INT None).2.
Definition best_job_first (tbl : list proc) : option nat :=
  (scan_best (in_queue BJF) calculate_rank flt tbl 0 (f_of_int MAX_INT) None).2.

(** The choice in the body of [scheduler]. *)
Definition choose (ticks : Z) (tbl : list proc) : option nat :=
  match round_robin ticks tbl with
  | Some p => Some p
  | None =>
      match last_come_first_serve tbl with
      | Some p => Some p
      | None => best_job_first tbl
      end
  end.

(** What [scheduler] writes into the chosen entry before [swtch]. *)
Definition start_running (ticks : Z) (p : proc) : proc :=
  set_executed_cycle (fadd (executed_cycle p) f0_1)
    (set_preemption_time (sint32 ticks) (set_state RUNNING p)).

(** What [yield] writes into the entry of the running process. *)
Definition yielded (ticks : Z) (p : proc) : proc :=
  set_executed_cycle (fadd_double (executed_cycle p) d0_1)
    (set_preemption_time (sint32 ticks) (set_state RUNNABLE p)).

(** [aging]'s loop body. *)
Definition age (time : Z) (p : proc) : proc :=
  if is_state (state p) RUNNABLE && negb (que_id p =? RR) && (AGING_THRS <? waited time p)
  then set_que_id RR p else p.
Definition aging (ticks : Z) (tbl : list proc) : list proc := age (sint32 ticks) <$> tbl.

(** [reset_bjf_attributes]'s loop. *)
Definition reset_bjf (pr ct ec szr : float32) (p : proc) : proc :=
  if is_state (state p) UNUSED then p
  else set_process_size_ratio szr (set_executed_cycle_ratio ec
         (set_creation_time_ratio ct (set_priority_ratio pr p))).
Definition reset_bjf_attributes (pr ct ec szr : float32) (tbl : list proc) : list proc :=
  reset_bjf pr ct ec szr <$> tbl.

(** ** Wake-up and kill *)

Definition wake (c : channel) (p : proc) : proc :=
  if is_state (state p) SLEEPING && bool_decide (chan p = c) then set_state RUNNABLE p else p.
Definition wakeup1 (c : channel) (tbl : list proc) : list proc := wake c <$> tbl.

(** The sleeper on [c] with the greatest pid. *)
Definition chosen_one (c : channel) (tbl : list proc) : option nat :=
  (scan_best (λ p, bool_decide (chan p = c) && is_state (state p) SLEEPING) pid zgt tbl 0 0 None).2.
Definition wakeup_pl_tbl (c : channel) (tbl : list proc) : list proc :=
  match chosen_one c tbl with
  | Some i => alter (set_state RUNNABLE) i tbl
  | None => tbl
  end.

(** The index the loop of [find_proc] stops at; [NPROC], one past the end of
    the table, when no entry has the pid. *)
Definition find_proc_tbl (p : Z) (tbl : list proc) : nat :=
  match find_index (λ q, pid q =? p) tbl with
  | Some i => i
  | None => length tbl
  end.

Definition kill_proc (p : proc) : proc :=
  let p := set_killed 1 p in
  if is_state (state p) SLEEPING then set_state RUNNABLE p else p.
Definition kill_tbl (pd : Z) (tbl : list proc) : Z * list proc :=
  match find_index (λ q, pid q =? pd) tbl with
  | Some i => (0, alter kill_proc i tbl)
  | None => (-1, tbl)
  end.

(** [p->parent->pid].  A null parent makes the kernel read the word at address
    16 ([offsetof(struct proc, pid)]) of the current user address space, where
    the program's text is mapped; [low] is that word. *)
Definition pid_of (low : Z) (tbl : list proc) (p : option nat) : Z :=
  match p with
  | Some i => match tbl !! i with Some q => pid q | None => low end
  | None => low
  end.
Definition count_child_tbl (low father_pid : Z) (tbl : list proc) : Z :=
  foldl (λ count p, if pid_of low tbl (parent p) =? father_pid then count + 1 else count) 0 tbl.

(** ** Arithmetic helpers *)

(** [while (num != 0) { num /= 10; count++; }]; an [int] has at most ten
    decimal digits, so ten rounds reach 0. *)
Fixpoint digits_loop (fuel : nat) (num count : Z) : option Z :=
  if num =? 0 then Some count
  else match fuel with O => None | S f => digits_loop f (Z.quot num 10) (count + 1) end.
Definition how_many_digit (num : Z) : option Z :=
  if num =? 0 then Some 1 else digits_loop 10 num 0.

(** The inner loop of [find_digital_root]. *)
Fixpoint digit_sum_loop (fuel : nat) (temp r : Z) : option Z :=
  if temp =? 0 then Some r
  else match fuel with
       | O => None
       | S f => digit_sum_loop f (Z.quot temp 10) (sint32 (r + Z.rem temp 10))
       end.
(** The outer loop; the digit sum of an [int] is at most 90, of that 17, of
    that 9, so three rounds suffice. *)
Fixpoint digital_root_loop (fuel : nat) (num : Z) : option Z :=
  if 10 <=? num then
    match fuel with
    | O => None
    | S f => match digit_sum_loop 10 num 0 with
             | Some r => digital_root_loop f r
             | None => None
             end
    end
  else Some num.
Definition find_digital_root (num : Z) : option Z := digital_root_loop 3 num.
