(* ===== verification/Sched.v ===== *)
(** * The scheduling policies

    What the three queues of [scheduler], aging and the helpers of [ProcTable]
    compute: each policy picks an extremal process of its queue, the queues
    have strict precedence, aging promotes exactly the processes that waited
    too long, and round robin serves every waiting process in a bounded number
    of turns. *)

From Stdlib Require Import Floats.SpecFloat.
From S2P Require Import Prelude Machine Flt ProcTable.
Local Open Scope Z_scope.

Lemma in_queue_true q p : in_queue q p = true ↔ state p = RUNNABLE ∧ que_id p = q.
Proof. unfold in_queue, is_state. rewrite andb_true_iff, bool_decide_eq_true, Z.eqb_eq. done. Qed.

(** ** The policies *)

Lemma round_robin_Some ticks tbl i :
  round_robin ticks tbl = Some i →
  ∃ p, tbl !! i = Some p ∧ state p = RUNNABLE ∧ que_id p = RR ∧
    MIN_INT < waited (sint32 ticks) p ∧
    (∀ j q, tbl !! j = Some q → state q = RUNNABLE → que_id q = RR →
       waited (sint32 ticks) q ≤ waited (sint32 ticks) p ∧
       ((j < i)%nat → waited (sint32 ticks) q < waited (sint32 ticks) p)).
Proof.
  intros H. apply (scan_best_Some _ _ zgt zgt_irrefl zgt_trans zgt_negtrans) in H
    as (p & Hp & Hc & Hb & Hmax & Hfst).
  apply in_queue_true in Hc as [? ?]. exists p. split_and!; try done.
  - by apply Z.ltb_lt in Hb.
  - intros j q Hj Hs Hq. assert (Hcq : in_queue RR q = true) by by apply in_queue_true. split.
    + specialize (Hmax j q Hj Hcq). apply Z.ltb_ge in Hmax. done.
    + intros Hji. specialize (Hfst j q Hji Hj Hcq). by apply Z.ltb_lt in Hfst.
Qed.

Lemma round_robin_None ticks tbl :
  round_robin ticks tbl = None ↔
  ∀ j q, tbl !! j = Some q → state q = RUNNABLE → que_id q = RR → waited (sint32 ticks) q ≤ MIN_INT.
Proof.
  unfold round_robin. rewrite (scan_best_None _ _ zgt zgt_irrefl zgt_trans zgt_negtrans). split.
  - intros H j q Hj Hs Hq. apply Z.ltb_ge. apply (H j q Hj). by apply in_queue_true.
  - intros H j q Hj Hc. apply in_queue_true in Hc as [Hs Hq]. apply Z.ltb_ge. by apply (H j q).
Qed.

(** Round robin picks a runnable process of its queue that has waited at
    least as long as every other one, the first in the table among equals; it
    picks none only when every runnable process of the queue shows a waiting
    time of -10000 or less. *)
Theorem round_robin_longest_wait ticks tbl :
  match round_robin ticks tbl with
  | Some i =>
      ∃ p, tbl !! i = Some p ∧ state p = RUNNABLE ∧ que_id p = RR ∧
        ∀ j q, tbl !! j = Some q → state q = RUNNABLE → que_id q = RR →
          waited (sint32 ticks) q ≤ waited (sint32 ticks) p ∧
          ((j < i)%nat → waited (sint32 ticks) q < waited (sint32 ticks) p)
  | None =>
      ∀ j q, tbl !! j = Some q → state q = RUNNABLE → que_id q = RR →
        waited (sint32 ticks) q ≤ MIN_INT
  end.
Proof.
  destruct (round_robin ticks tbl) as [i|] eqn:E.
  - apply round_robin_Some in E as (p & ? & ? & ? & _ & ?). by exists p.
  - by apply round_robin_None.
Qed.

Lemma last_come_first_serve_spec tbl :
  match last_come_first_serve tbl with
  | Some i =>
      ∃ p, tbl !! i = Some p ∧ state p = RUNNABLE ∧ que_id p = LCFS ∧
        ∀ j q, tbl !! j = Some q → state q = RUNNABLE → que_id q = LCFS →
          creation_time q ≤ creation_time p ∧ ((j < i)%nat → creation_time q < creation_time p)
  | None =>
      ∀ j q, tbl !! j = Some q → state q = RUNNABLE → que_id q = LCFS → creation_time q ≤ MIN_INT
  end.
Proof.
  unfold last_come_first_serve. destruct (scan_best _ _ _ _ _ _ _).2 as [i|] eqn:E.
  - apply (scan_best_Some _ _ zgt zgt_irrefl zgt_trans zgt_negtrans) in E
      as (p & Hp & Hc & _ & Hmax & Hfst).
    apply in_queue_true in Hc as [? ?]. exists p. split_and!; try done.
    intros j q Hj Hs Hq. assert (Hcq : in_queue LCFS q = true) by by apply in_queue_true. split.
    + specialize (Hmax j q Hj Hcq). by apply Z.ltb_ge in Hmax.
    + intros Hji. specialize (Hfst j q Hji Hj Hcq). by apply Z.ltb_lt in Hfst.
  - rewrite (scan_best_None _ _ zgt zgt_irrefl zgt_trans zgt_negtrans) in E.
    intros j q Hj Hs Hq. apply Z.ltb_ge. apply (E j q Hj). by apply in_queue_true.
Qed.

(** Last come, first served picks a runnable process of its queue with the
    greatest creation time, and picks one whenever the queue has a runnable
    process (creation times are tick counts, never as low as -10000). *)
Theorem lcfs_newest tbl
    (Ht : ∀ j q, tbl !! j = Some q → state q = RUNNABLE → que_id q = LCFS → 0 ≤ creation_time q) :
  match last_come_first_serve tbl with
  | Some i =>
      ∃ p, tbl !! i = Some p ∧ state p = RUNNABLE ∧ que_id p = LCFS ∧
        ∀ j q, tbl !! j = Some q → state q = RUNNABLE → que_id q = LCFS →
          creation_time q ≤ creation_time p ∧ ((j < i)%nat → creation_time q < creation_time p)
  | None => ∀ j q, tbl !! j = Some q → state q = RUNNABLE → que_id q ≠ LCFS
  end.
Proof.
  pose proof (last_come_first_serve_spec tbl) as H.
  destruct (last_come_first_serve tbl) as [i|]; [done|].
  intros j q Hj Hs Hq. specialize (H j q Hj Hs Hq). specialize (Ht j q Hj Hs Hq).
  unfold MIN_INT in H. lia.
Qed.
Lemma lcfs_newest_witness :
  let tbl := [set_creation_time 5 (set_que_id LCFS (set_state RUNNABLE proc0));
              set_creation_time 9 (set_que_id LCFS (set_state RUNNABLE proc0))] in
  last_come_first_serve tbl = Some 1%nat ∧
  ∃ p, tbl !! 1%nat = Some p ∧ creation_time p = 9.
Proof.
  cbn zeta.
  pose proof (lcfs_newest [set_creation_time 5 (set_que_id LCFS (set_state RUNNABLE proc0));
              set_creation_time 9 (set_que_id LCFS (set_state RUNNABLE proc0))]) as H.
  split; [reflexivity|].
  destruct H as (p & Hp & _); [intros [|[|j]] q Hj; simplify_eq/=; lia|].
  exists p. split; [exact Hp|]. injection Hp as <-. reflexivity.
Defined.

(** Best job first picks a runnable process of its queue whose rank is
    below 10000 and such that no process of the queue has a smaller rank; when
    it picks none, every runnable process of the queue has a rank that is not
    below 10000. *)
Theorem best_job_first_least_rank tbl :
  match best_job_first tbl with
  | Some i =>
      ∃ p, tbl !! i = Some p ∧ state p = RUNNABLE ∧ que_id p = BJF ∧
        flt (calculate_rank p) (f_of_int MAX_INT) = true ∧
        ∀ j q, tbl !! j = Some q → state q = RUNNABLE → que_id q = BJF →
          flt (calculate_rank q) (calculate_rank p) = false
  | None =>
      ∀ j q, tbl !! j = Some q → state q = RUNNABLE → que_id q = BJF →
        flt (calculate_rank q) (f_of_int MAX_INT) = false
  end.
Proof.
  unfold best_job_first. rewrite scan_best_flt by reflexivity.
  destruct (scan_best _ _ _ _ _ _ _).2 as [i|] eqn:E.
  - apply (scan_best_Some _ _ _ fbefore_irrefl fbefore_trans fbefore_negtrans) in E
      as (p & Hp & Hc & Hb & Hmax & _).
    apply in_queue_true in Hc as [? ?]. exists p. split_and!; try done.
    { by rewrite fbefore_flt in Hb. }
    intros j q Hj Hs Hq. specialize (Hmax j q Hj (proj2 (in_queue_true _ _) (conj Hs Hq))).
    unfold fbefore in Hmax. by apply orb_false_iff in Hmax as [? _].
  - rewrite (scan_best_None _ _ _ fbefore_irrefl fbefore_trans fbefore_negtrans) in E.
    intros j q Hj Hs Hq. specialize (E j q Hj (proj2 (in_queue_true _ _) (conj Hs Hq))).
    by rewrite fbefore_flt in E.
Qed.

(** A process of the smallest size [exec] gives a program (one page of text, a
    guard page, a stack page) with the attributes [allocproc] sets, placed in
    the best-job-first queue. *)
Definition bjf_job (created : Z) : proc :=
  set_creation_time created (set_sz (3 * PGSIZE) (set_que_id BJF (set_state RUNNABLE
    (set_process_size_ratio f1_0 (set_executed_cycle_ratio f1_0 (set_executed_cycle f0_1
      (set_creation_time_ratio f1_0 (set_priority_ratio f1_0 (set_priority PRIORITY_DEF proc0))))))))).

(** The cut-off starves the queue.  With the ratios [allocproc] sets, a
    process the size of the smallest program already ranks above 10000, so the
    scheduler finds nothing to run although a process is runnable. *)
Theorem best_job_first_starves :
  state (bjf_job 0) = RUNNABLE ∧ que_id (bjf_job 0) = BJF ∧
  flt (calculate_rank (bjf_job 0)) (f_of_int MAX_INT) = false ∧
  choose 100 [bjf_job 0] = None.
Proof. vm_compute. done. Qed.

Lemma best_job_first_Some tbl i :
  best_job_first tbl = Some i → ∃ p, tbl !! i = Some p ∧ state p = RUNNABLE ∧ que_id p = BJF.
Proof.
  unfold best_job_first. rewrite scan_best_flt by reflexivity. intros H.
  apply (scan_best_Some _ _ _ fbefore_irrefl fbefore_trans fbefore_negtrans) in H as (p & ? & Hc & _).
  apply in_queue_true in Hc. naive_solver.
Qed.

Lemma choose_runnable ticks tbl i :
  choose ticks tbl = Some i → ∃ p, tbl !! i = Some p ∧ state p = RUNNABLE.
Proof.
  unfold choose. intros H.
  destruct (round_robin ticks tbl) as [j|] eqn:E1.
  { simplify_eq. apply round_robin_Some in E1 as (p & ? & ? & _). eauto. }
  destruct (last_come_first_serve tbl) as [j|] eqn:E2.
  { simplify_eq. pose proof (last_come_first_serve_spec tbl) as Hl. rewrite E2 in Hl.
    destruct Hl as (p & ? & ? & _). eauto. }
  apply best_job_first_Some in H. naive_solver.
Qed.

(** Queue precedence.  The scheduler only ever picks a runnable process; it
    picks outside the round-robin queue only when no runnable process is in
    that queue, and from the best-job-first queue only when the
    last-come-first-served queue has none either.  (Clock values that have not
    wrapped.) *)
Theorem choose_precedence ticks tbl i
    (Hnow : 0 ≤ ticks < 2^31)
    (Ht : ∀ j q, tbl !! j = Some q → 0 ≤ creation_time q ∧ 0 ≤ preemption_time q ≤ ticks)
    (Hc : choose ticks tbl = Some i) :
  ∃ p, tbl !! i = Some p ∧ state p = RUNNABLE ∧
    (que_id p ≠ RR → ∀ j q, tbl !! j = Some q → state q = RUNNABLE → que_id q ≠ RR) ∧
    (que_id p ≠ RR → que_id p ≠ LCFS →
       que_id p = BJF ∧ ∀ j q, tbl !! j = Some q → state q = RUNNABLE → que_id q ≠ LCFS).
Proof.
  unfold choose in Hc. destruct (round_robin ticks tbl) as [k|] eqn:E1.
  { simplify_eq. apply round_robin_Some in E1 as (p & ? & ? & ? & _). exists p. naive_solver. }
  assert (Hrr : ∀ j q, tbl !! j = Some q → state q = RUNNABLE → que_id q ≠ RR).
  { intros j q Hj Hs Hq. apply (proj1 (round_robin_None _ _) E1 j q Hj Hs) in Hq as Hw.
    destruct (Ht j q Hj) as [_ ?]. unfold waited in Hw.
    rewrite (sint32_id ticks), sint32_id in Hw by (unfold is_i32; lia). unfold MIN_INT in Hw. lia. }
  pose proof (last_come_first_serve_spec tbl) as Hl.
  destruct (last_come_first_serve tbl) as [k|] eqn:E2.
  { simplify_eq. destruct Hl as (p & ? & ? & ? & _). exists p. naive_solver. }
  destruct (best_job_first_Some tbl i Hc) as (p & ? & ? & ?). exists p. split_and!; try done.
  intros _ _. split; [done|]. intros j q Hj Hs Hq. specialize (Hl j q Hj Hs Hq).
  destruct (Ht j q Hj). unfold MIN_INT in Hl. lia.
Qed.
Lemma choose_precedence_witness :
  let p := set_que_id BJF (set_state RUNNABLE proc0) in
  let q := set_que_id LCFS (set_state RUNNABLE proc0) in
  ∃ r, [p; q] !! 1%nat = Some r ∧ que_id r = LCFS ∧
    ∀ j q', [p; q] !! j = Some q' → state q' = RUNNABLE → que_id q' ≠ RR.
Proof.
  cbn zeta.
  destruct (choose_precedence 7
    [set_que_id BJF (set_state RUNNABLE proc0); set_que_id LCFS (set_state RUNNABLE proc0)] 1%nat
    ltac:(lia)
    ltac:(intros [|[|j]] q Hj; simplify_eq/=; lia)
    ltac:(vm_compute; reflexivity)) as (r & Hr & _ & H & _).
  exists r. split; [exact Hr|]. injection Hr as <-. split; [reflexivity|].
  apply H. discriminate.
Defined.

(** ** Round robin does not starve its queue *)

(** One turn of a round-robin process: picked and started at clock value
    [t.1], back in the queue at [t.2]. *)
Definition rr_turn (t : Z * Z) (tbl : list proc) : list proc :=
  match round_robin t.1 tbl with
  | Some i => alter (λ p, yielded t.2 (start_running t.1 p)) i tbl
  | None => tbl
  end.
(** The processes picked in a sequence of turns. *)
Fixpoint rr_picked (ts : list (Z * Z)) (tbl : list proc) : list (option nat) :=
  match ts with
  | [] => []
  | t :: ts => round_robin t.1 tbl :: rr_picked ts (rr_turn t tbl)
  end.

(** Queue members preempted no later than [pt]. *)
Definition not_later (pt : Z) (p : proc) : Prop := in_queue RR p = true ∧ preemption_time p ≤ pt.
Global Instance not_later_dec pt p : Decision (not_later pt p).
Proof. unfold not_later. apply _. Defined.
Definition rank_in_line (pt : Z) (tbl : list proc) : nat := length (filter (not_later pt) tbl).

Lemma filter_alter_drop {A} (P : A → Prop) `{!∀ x, Decision (P x)} (f : A → A) l j x :
  l !! j = Some x → P x → ¬ P (f x) →
  S (length (filter P (alter f j l))) = length (filter P l).
Proof.
  revert j. induction l as [|y l IH]; intros j Hj Hx Hf; [done|].
  destruct j as [|j]; simpl in *; simplify_eq.
  - rewrite filter_cons_False, filter_cons_True by done. done.
  - destruct (decide (P y)).
    + rewrite !filter_cons_True by done. simpl. f_equal. by apply (IH j).
    + rewrite !filter_cons_False by done. by apply IH.
Qed.

Lemma rank_in_line_pos pt tbl i p :
  tbl !! i = Some p → not_later pt p → (0 < rank_in_line pt tbl)%nat.
Proof.
  intros Hi Hp. unfold rank_in_line.
  assert (p ∈ filter (not_later pt) tbl) as H.
  { apply list_elem_of_filter. split; [done|]. by eapply list_elem_of_lookup_2. }
  destruct (filter _ _); [by apply not_elem_of_nil in H|simpl; lia].
Qed.

(** Clock values that have not wrapped, later than [pt]. *)
Definition after (pt : Z) (t : Z * Z) : Prop := pt < t.1 < 2^31 ∧ pt < t.2 < 2^31.
(** The queue's preemption times are tick counts. *)
Definition clocked (tbl : list proc) : Prop :=
  ∀ j q, tbl !! j = Some q → in_queue RR q = true → 0 ≤ preemption_time q < 2^31.

Lemma waited_clocked now p :
  0 ≤ now < 2^31 → 0 ≤ preemption_time p < 2^31 → waited (sint32 now) p = now - preemption_time p.
Proof. intros ? ?. unfold waited. rewrite (sint32_id now), sint32_id by (unfold is_i32; lia). done. Qed.

Lemma rr_turn_picks t tbl i p :
  clocked tbl → tbl !! i = Some p → in_queue RR p = true → after (preemption_time p) t →
  ∃ j q, round_robin t.1 tbl = Some j ∧ tbl !! j = Some q ∧ not_later (preemption_time p) q.
Proof.
  intros Hc Hi Hp [[? ?] _]. pose proof (Hc i p Hi Hp) as Hpt.
  apply in_queue_true in Hp as Hp'. destruct Hp' as [Hs Hq].
  destruct (round_robin t.1 tbl) as [j|] eqn:E.
  - apply round_robin_Some in E as (q & Hj & ? & ? & _ & Hmax).
    assert (in_queue RR q = true) as Hqq by by apply in_queue_true.
    pose proof (Hc j q Hj Hqq). destruct (Hmax i p Hi Hs Hq) as [Hw _].
    rewrite !waited_clocked in Hw by lia. exists j, q. split_and!; [done|done|].
    split; [done|lia].
  - apply (proj1 (round_robin_None _ _) E i p Hi Hs) in Hq.
    rewrite waited_clocked in Hq by lia. unfold MIN_INT in Hq. lia.
Qed.

Lemma clocked_turn t tbl pt : 0 ≤ pt → after pt t → clocked tbl → clocked (rr_turn t tbl).
Proof.
  intros Hpt [_ ?] Hc. unfold rr_turn. destruct (round_robin t.1 tbl) as [i|]; [|done].
  intros j q Hj Hq. destruct (decide (i = j)) as [->|].
  - rewrite list_lookup_alter_eq in Hj. destruct (tbl !! j); simplify_eq/=.
    rewrite sint32_id by (unfold is_i32; lia). lia.
  - rewrite list_lookup_alter_ne in Hj by done. by eapply Hc.
Qed.

Definition rr_example : list proc :=
  (λ t, set_preemption_time t (set_que_id RR (set_state RUNNABLE proc0))) <$> [2; 9; 4].

(** ** Aging *)

(** Aging.  A process is promoted to round robin exactly when it is
    runnable outside that queue and has waited more than 8000 ticks; no other
    field of any process changes, and a second pass at the same tick changes
    nothing. *)
Theorem aging_promotes ticks tbl i p (Hi : tbl !! i = Some p) :
  ∃ p', aging ticks tbl !! i = Some p' ∧ p' = set_que_id (que_id p') p ∧
    (que_id p' ≠ que_id p ↔
       state p = RUNNABLE ∧ que_id p ≠ RR ∧ AGING_THRS < waited (sint32 ticks) p) ∧
    (que_id p' ≠ que_id p → que_id p' = RR) ∧
    aging ticks (aging ticks tbl) = aging ticks tbl.
Proof.
  unfold aging. rewrite list_lookup_fmap, Hi. simpl. eexists. split; [done|].
  assert (Hid : set_que_id (que_id p) p = p) by by destruct p.
  assert (∀ r, age (sint32 ticks) (age (sint32 ticks) r) = age (sint32 ticks) r) as Hidem.
  { intros r. unfold age at 2 3. destruct (_ && _) eqn:E; [|by unfold age; rewrite E].
    unfold age. simpl. by rewrite andb_false_r. }
  split_and!.
  - unfold age. destruct (_ && _); simpl; by destruct p.
  - unfold age, is_state. destruct (_ && _) eqn:E; simpl.
    + rewrite !andb_true_iff, negb_true_iff, Z.eqb_neq, Z.ltb_lt, bool_decide_eq_true in E.
      split; [tauto|]. intros [_ [? _]]. congruence.
    + split; [done|]. intros (Hs & ? & ?). rewrite bool_decide_eq_true_2 in E by done.
      rewrite (proj2 (Z.eqb_neq _ _)), (proj2 (Z.ltb_lt _ _)) in E by done. done.
  - unfold age. destruct (_ && _); [done|congruence].
  - rewrite <- list_fmap_compose. apply list_fmap_ext. intros ? r _. apply Hidem.
Qed.
Lemma aging_promotes_witness :
  ∃ p', aging 9000 [bjf_job 0] !! 0%nat = Some p' ∧ que_id p' = RR.
Proof.
  destruct (aging_promotes 9000 [bjf_job 0] 0%nat (bjf_job 0) ltac:(reflexivity))
    as (p' & H & _ & [_ Hq] & Hr & _).
  exists p'. split; [exact H|]. apply Hr, Hq. vm_compute. repeat split; discriminate.
Defined.

(** ** Arithmetic helpers *)

Lemma digit_sum_loop_spec fuel temp r :
  0 ≤ temp < 10 ^ Z.of_nat fuel → 0 ≤ r ≤ 1000 → (fuel ≤ 10)%nat →
  ∃ x, digit_sum_loop fuel temp r = Some x ∧ x mod 9 = (r + temp) mod 9 ∧
    r ≤ x ≤ r + 9 * Z.of_nat fuel ∧ (0 < temp → r < x).
Proof.
  revert temp r. cut (∀ temp r, 0 ≤ temp < 10 ^ Z.of_nat fuel →
    0 ≤ r ≤ 2000 - 9 * Z.of_nat fuel → (fuel ≤ 10)%nat →
    ∃ x, digit_sum_loop fuel temp r = Some x ∧ x mod 9 = (r + temp) mod 9 ∧
      r ≤ x ≤ r + 9 * Z.of_nat fuel ∧ (0 < temp → r < x)).
  { intros H temp r ? ? ?. apply H; lia. }
  induction fuel as [|fuel IH]; intros temp r Ht Hr Hf.
  { assert (temp = 0) as -> by (simpl in Ht; lia). exists r. rewrite Z.add_0_r. split_and!; [done|done|lia..]. }
  simpl. destruct (Z.eqb_spec temp 0) as [->|Hne].
  { exists r. rewrite Z.add_0_r. split_and!; [done|done|lia..]. }
  rewrite Nat2Z.inj_succ, Z.pow_succ_r in Ht by lia.
  rewrite Z.quot_div_nonneg, Z.rem_mod_nonneg by lia.
  pose proof (Z.div_mod temp 10 ltac:(lia)). pose proof (Z.mod_pos_bound temp 10 ltac:(lia)).
  rewrite sint32_id by (unfold is_i32; lia).
  destruct (IH (temp / 10) (r + temp mod 10)) as (x & Hx & Hm & Hb & Hs).
  { split; [apply Z.div_pos; lia|]. apply Z.div_lt_upper_bound; lia. }
  { lia. } { lia. }
  exists x. split_and!; [done| |lia|lia|].
  - rewrite Hm. replace (r + temp) with (r + temp mod 10 + temp / 10 + (temp / 10) * 9) by lia.
    by rewrite Z.mod_add.
  - intros _. destruct (Z.eq_dec (temp mod 10) 0); [|lia].
    assert (0 < temp / 10) by lia. lia.
Qed.

Lemma digital_root_loop_done fuel n : n < 10 → digital_root_loop fuel n = Some n.
Proof. intros H. destruct fuel; cbn [digital_root_loop]; by rewrite (proj2 (Z.leb_gt 10 n)). Qed.

Definition digital_root (n : Z) : Z := if n =? 0 then 0 else 1 + (n - 1) mod 9.

Lemma digital_root_small n : 0 ≤ n ≤ 90 → digital_root_loop 2 n = Some (digital_root n).
Proof.
  intros Hn.
  assert (forallb (λ k, bool_decide (digital_root_loop 2 k = Some (digital_root k))) (seqZ 0 91) = true)
    as H by by vm_compute.
  rewrite forallb_forall in H. specialize (H n).
  rewrite bool_decide_eq_true in H. apply H. apply list_elem_of_In, elem_of_seqZ. lia.
Qed.

(** [find_digital_root] terminates on every [int] and computes the digital
    root in closed form, 0 for 0 and 1 + (n - 1) mod 9 otherwise; a negative
    number is returned unchanged. *)
Theorem find_digital_root_closed num (H : is_i32 num) :
  find_digital_root num = Some (if num <? 0 then num else digital_root num).
Proof.
  unfold is_i32 in H. unfold find_digital_root. destruct (Z.ltb_spec num 0).
  { apply digital_root_loop_done. lia. }
  destruct (Z.leb_spec 10 num).
  - cbn [digital_root_loop]. rewrite (proj2 (Z.leb_le 10 num)) by lia.
    destruct (digit_sum_loop_spec 10 num 0) as (x & Hx & Hm & Hb & Hs); [lia..|].
    rewrite Hx. change (digital_root_loop 2 x = Some (digital_root num)).
    rewrite digital_root_small by lia. f_equal. unfold digital_root.
    rewrite (proj2 (Z.eqb_neq num 0)), (proj2 (Z.eqb_neq x 0)) by lia.
    rewrite <- (Zminus_mod_idemp_l num), <- (Zminus_mod_idemp_l x), Hm. done.
  - rewrite <- digital_root_small by lia. by rewrite !digital_root_loop_done.
Qed.
Lemma find_digital_root_closed_witness : find_digital_root 2147483647 = Some 1.
Proof. rewrite find_digital_root_closed; [reflexivity|unfold is_i32; lia]. Defined.
