(* ===== verification/Proc.v ===== *)
(** * Processes

    The operations of [proc.c] on the process table together with the locks
    they take, the CPUs they run on and the components they call.  The other
    components are reached through the interface [Services].

    A call that gives up the CPU ([sched], and [yield], [sleep], [exit], [wait]
    above it) takes as an argument [others], what the rest of the system does
    between the switch away from this process and the switch back; a process
    that is never resumed is [block]. *)

From Stdlib Require Import Floats.SpecFloat.
From S2P Require Import Prelude Machine Str Spin Flt ProcTable.
Local Open Scope Z_scope.

(** ** What other components provide *)

(** An argument of [cprintf]. *)
Inductive parg := AInt (n : Z) | AStr (s : list Z).

Class Services (E : Type) := {
  (** kernel memory *)
  sv_mem : lens E mem;
  (** [kalloc.c] *)
  sv_kalloc : M E Z;
  sv_kfree : Z → M E unit;
  (** [vm.c] *)
  sv_setupkvm : M E Z;
  sv_inituvm : Z → M E unit;
  sv_copyuvm : Z → Z → M E Z;
  sv_freevm : Z → M E unit;
  sv_allocuvm : Z → Z → Z → M E Z;
  sv_deallocuvm : Z → Z → Z → M E Z;
  sv_switchuvm : proc → M E unit;
  sv_switchkvm : M E unit;
  sv_shared_memory_init : M E unit;
  (** [priority_lock.c]: [init_priority(&PL, ...)] *)
  sv_init_priority : M E unit;
  (** [file.c], [fs.c], [log.c] *)
  sv_filedup : Z → M E Z;
  sv_fileclose : Z → M E unit;
  sv_idup : Z → M E Z;
  sv_iput : Z → M E unit;
  sv_namei : string → M E Z;
  sv_begin_op : M E unit;
  sv_end_op : M E unit;
  sv_iinit : M E unit;
  sv_initlog : M E unit;
  (** [console.c] *)
  sv_cprintf : string → list parg → M E unit;
}.

(** ** State *)

(** [ptable], [nextpid], [initproc] and [forkret]'s [first] of [proc.c];
    [ticks] and [tickslock] of [trap.c]; the CPUs; everything else. *)
Record pst (E : Type) := Pst {
  p_core : core;
  ptable_lock : spinlock;
  ptable : list proc;
  nextpid : Z;
  initproc : option nat;
  ticks : Z;
  tickslock : spinlock;
  first : bool;
  penv : E;
}.
Arguments Pst {_} _ _ _ _ _ _ _ _ _.
Arguments p_core {_} _.
Arguments ptable_lock {_} _.
Arguments ptable {_} _.
Arguments nextpid {_} _.
Arguments initproc {_} _.
Arguments ticks {_} _.
Arguments tickslock {_} _.
Arguments first {_} _.
Arguments penv {_} _.

Section State.
Context {E : Type}.
Implicit Types s : pst E.

Definition core_l : lens (pst E) core := Lens p_core (λ x s,
  Pst x (ptable_lock s) (ptable s) (nextpid s) (initproc s) (ticks s) (tickslock s) (first s) (penv s)).
Definition ptlock_l : lens (pst E) spinlock := Lens ptable_lock (λ x s,
  Pst (p_core s) x (ptable s) (nextpid s) (initproc s) (ticks s) (tickslock s) (first s) (penv s)).
Definition tickslock_l : lens (pst E) spinlock := Lens tickslock (λ x s,
  Pst (p_core s) (ptable_lock s) (ptable s) (nextpid s) (initproc s) (ticks s) x (first s) (penv s)).
Definition env_l : lens (pst E) E := Lens penv (λ x s,
  Pst (p_core s) (ptable_lock s) (ptable s) (nextpid s) (initproc s) (ticks s) (tickslock s) (first s) x).

Definition set_ptable (t : list proc) s : pst E :=
  Pst (p_core s) (ptable_lock s) t (nextpid s) (initproc s) (ticks s) (tickslock s) (first s) (penv s).
Definition set_nextpid (n : Z) s : pst E :=
  Pst (p_core s) (ptable_lock s) (ptable s) n (initproc s) (ticks s) (tickslock s) (first s) (penv s).
Definition set_initproc (p : option nat) s : pst E :=
  Pst (p_core s) (ptable_lock s) (ptable s) (nextpid s) p (ticks s) (tickslock s) (first s) (penv s).
Definition set_ticks (n : Z) s : pst E :=
  Pst (p_core s) (ptable_lock s) (ptable s) (nextpid s) (initproc s) n (tickslock s) (first s) (penv s).
Definition set_first (b : bool) s : pst E :=
  Pst (p_core s) (ptable_lock s) (ptable s) (nextpid s) (initproc s) (ticks s) (tickslock s) b (penv s).

(** A component of the environment, seen from the whole state. *)
Definition env_in {T} (l : lens E T) : lens (pst E) T :=
  Lens (λ s, view l (penv s)) (λ x s, upd_lens env_l (upd_lens l x (penv s)) s).

Global Instance core_l_ok : LensOk core_l.
Proof. constructor; intros; by try destruct s. Qed.
Global Instance ptlock_l_ok : LensOk ptlock_l.
Proof. constructor; intros; by try destruct s. Qed.
Global Instance tickslock_l_ok : LensOk tickslock_l.
Proof. constructor; intros; by try destruct s. Qed.
Global Instance env_l_ok : LensOk env_l.
Proof. constructor; intros; by try destruct s. Qed.
Global Instance env_in_ok {T} (l : lens E T) `{!LensOk l} : LensOk (env_in l).
Proof.
  constructor; intros; simpl.
  - apply view_upd.
  - rewrite upd_view. by destruct s.
  - rewrite upd_upd. done.
Qed.
Global Instance core_ptlock : LensDisj core_l ptlock_l.
Proof. by constructor. Qed.
Global Instance core_tickslock : LensDisj core_l tickslock_l.
Proof. by constructor. Qed.
Global Instance core_env {T} (l : lens E T) : LensDisj core_l (env_in l).
Proof. by constructor. Qed.
End State.

(** [struct trapframe] in memory. *)
Definition load16 (m : mem) (a : Z) : Z := m a + 256 * m (a + 1).
Definition read_tf (m : mem) (a : Z) : trapframe :=
  Trapframe (load32 m a) (load32 m (a + 4)) (load32 m (a + 8)) (load32 m (a + 12))
    (load32 m (a + 16)) (load32 m (a + 20)) (load32 m (a + 24)) (load32 m (a + 28))
    (load16 m (a + 32)) (load16 m (a + 36)) (load16 m (a + 40)) (load16 m (a + 44))
    (load32 m (a + 48)) (load32 m (a + 52)) (load32 m (a + 56)) (load16 m (a + 60))
    (load32 m (a + 64)) (load32 m (a + 68)) (load16 m (a + 72)).
Definition sizeof_trapframe : Z := 76.
Definition sizeof_context : Z := 20.

(** [safestrcpy(dst, src, sizeof(dst))] between two [char[16]] fields: the
    routine run on a memory holding [dst] at 0 and [src] at 64. *)
Definition copy_name (dst src : list Z) : list Z :=
  let m a := if 64 <=? a then default 0 (src !! Z.to_nat (a - 64)) else default 0 (dst !! Z.to_nat a) in
  read_bytes (safestrcpy m 0 64 16) 0 16.

(** What [wait]'s scan of the table finds: the first exited child of [c], and
    whether [c] has any child. *)
Fixpoint wait_scan (c : nat) (l : list proc) (i : nat) (havekids : bool) : option nat * bool :=
  match l with
  | [] => (None, havekids)
  | p :: l' =>
      if negb (bool_decide (parent p = Some c)) then wait_scan c l' (S i) havekids
      else if is_state (state p) ZOMBIE then (Some i, true)
      else wait_scan c l' (S i) true
  end.

Section Ops.
Context {E : Type} `{!Services E}.
(** Addresses of the assembly and C entry points a new process starts at. *)
Variables trapret forkret_entry : Z.

Notation acquire := (acquire core_l).
Notation release := (release core_l).
Notation myproc := (myproc core_l).
Notation env := (on_lens env_l).

(** [p->...] for a [struct proc *] *)
Definition deref (p : option nat) : M (pst E) nat :=
  match p with Some i => mret i | None => fault "null proc" end.
Definition the_proc (i : nat) : M (pst E) proc := λ s,
  match ptable s !! i with Some p => Ok (p, s) | None => Fault "proc" end.
Definition upd_proc (i : nat) (f : proc → proc) : M (pst E) unit :=
  the_proc i;; modify (λ s, set_ptable (alter f i (ptable s)) s).
Definition upd_table (f : list proc → list proc) : M (pst E) unit :=
  modify (λ s, set_ptable (f (ptable s)) s).

(** [pinit] *)
Definition pinit : M (pst E) unit := modify (upd_lens ptlock_l (initlock "ptable")).

(** *** Creation *)

(** The scheduling attributes of a new process. *)
Definition alloc_init (i : nat) : M (pst E) unit :=
  upd_proc i (set_que_id LCFS);;
  p ← the_proc i;
  whenM (pid p =? 2) (upd_proc i (set_que_id RR));;
  upd_proc i (set_priority PRIORITY_DEF);;
  upd_proc i (set_priority_ratio f1_0);;
  upd_proc i (set_creation_time_ratio f1_0);;
  upd_proc i (set_executed_cycle f0_1);;
  upd_proc i (set_executed_cycle_ratio f1_0);;
  upd_proc i (set_process_size_ratio f1_0).
(** The layout of a new kernel stack at [k]. *)
Definition alloc_stack (i : nat) (k : Z) : M (pst E) unit :=
  let sp := k + KSTACKSIZE in
  let sp := sp - sizeof_trapframe in
  m ← gets (λ s, view sv_mem (penv s));
  upd_proc i (set_tf (read_tf m sp));;
  let sp := sp - 4 in
  env (modify (λ e, upd_lens sv_mem (store32 (view sv_mem e) sp trapret) e));;
  upd_proc i (set_context context0);;
  upd_proc i (set_context (Context 0 0 0 0 forkret_entry)).

Definition allocproc : M (pst E) (option nat) :=
  acquire ptlock_l;;
  tbl ← gets ptable;
  match find_index (λ p, is_state (state p) UNUSED) tbl with
  | None => release ptlock_l;; mret None
  | Some i =>
      upd_proc i (set_state EMBRYO);;
      n ← gets nextpid;
      modify (set_nextpid (sint32 (n + 1)));;
      upd_proc i (set_pid n);;
      alloc_init i;;
      release ptlock_l;;
      k ← env sv_kalloc;
      upd_proc i (set_kstack k);;
      if k =? 0 then upd_proc i (set_state UNUSED);; mret None
      else alloc_stack i k;; mret (Some i)
  end.

Definition userinit : M (pst E) unit :=
  p ← allocproc;
  modify (set_initproc p);;
  i ← deref p;
  d ← env sv_setupkvm;
  upd_proc i (set_pgdir d);;
  if d =? 0 then panic "userinit: out of memory?" else
  env (sv_inituvm d);;
  upd_proc i (set_sz PGSIZE);;
  let cs := Z.lor (Z.shiftl SEG_UCODE 3) DPL_USER in
  let ds := Z.lor (Z.shiftl SEG_UDATA 3) DPL_USER in
  upd_proc i (set_tf (Trapframe 0 0 0 0 0 0 0 0 0 0 ds ds 0 0 0 cs FL_IF PGSIZE ds));;
  upd_proc i (λ p, set_name (copy_name (name p) (chars "initcode" ++ [0])) p);;
  ip ← env (sv_namei "/");
  upd_proc i (set_cwd ip);;
  acquire ptlock_l;;
  upd_proc i (set_state RUNNABLE);;
  upd_proc i (set_que_id RR);;
  release ptlock_l;;
  env sv_init_priority;;
  env sv_shared_memory_init.

Definition growproc (n : Z) : M (pst E) Z :=
  curproc ← myproc;
  c ← deref curproc;
  p ← the_proc c;
  let sz := sz p in
  let finish sz := (upd_proc c (set_sz sz);; q ← the_proc c; env (sv_switchuvm q);; mret 0) in
  if 0 <? n then
    sz ← env (sv_allocuvm (pgdir p) sz (wrap32 (sz + n)));
    if sz =? 0 then mret (-1) else finish sz
  else if n <? 0 then
    sz ← env (sv_deallocuvm (pgdir p) sz (wrap32 (sz + n)));
    if sz =? 0 then mret (-1) else finish sz
  else finish sz.

(** [for (i = 0; i < NOFILE; i++) if (curproc->ofile[i]) ...] of [fork]. *)
Definition fork_file (c np : nat) (i : nat) : M (pst E) unit :=
  p ← the_proc c;
  let f := nth i (ofile p) 0 in
  whenM (negb (f =? 0))
    (g ← env (sv_filedup f); upd_proc np (λ q, set_ofile (<[i := g]> (ofile q)) q)).

(** The copies [fork] makes once the child has an address space. *)
Definition fork_copy (c np : nat) : M (pst E) unit :=
  p ← the_proc c;
  upd_proc np (set_tf (tf p));;
  upd_proc np (λ q, set_tf (set_eax 0 (tf q)) q);;
  forM (seq 0 (Z.to_nat NOFILE)) (fork_file c np);;
  p ← the_proc c;
  ip ← env (sv_idup (cwd p));
  upd_proc np (set_cwd ip);;
  upd_proc np (λ q, set_name (copy_name (name q) (name p)) q).
(** The end of [fork]: the child becomes runnable, stamped with the time. *)
Definition fork_ready (np : nat) : M (pst E) unit :=
  acquire ptlock_l;;
  upd_proc np (set_state RUNNABLE);;
  acquire tickslock_l;;
  t ← gets ticks;
  upd_proc np (set_creation_time (sint32 t));;
  upd_proc np (set_preemption_time (sint32 t));;
  release tickslock_l;;
  release ptlock_l.

Definition fork : M (pst E) Z :=
  curproc ← myproc;
  np ← allocproc;
  match np with
  | None => mret (-1)
  | Some np =>
      c ← deref curproc;
      p ← the_proc c;
      d ← env (sv_copyuvm (pgdir p) (sz p));
      upd_proc np (set_pgdir d);;
      if d =? 0 then
        q ← the_proc np;
        env (sv_kfree (kstack q));;
        upd_proc np (set_kstack 0);;
        upd_proc np (set_state UNUSED);;
        mret (-1)
      else
      upd_proc np (set_sz (sz p));;
      upd_proc np (set_parent (Some c));;
      fork_copy c np;;
      q ← the_proc np;
      let pid := pid q in
      fork_ready np;;
      mret pid
  end.

(** *** Giving up the CPU *)

(** [sched]'s checks; returns the saved [intena]. *)
Definition sched_checks : M (pst E) bool :=
  p ← myproc;
  h ← holding core_l ptlock_l;
  if negb h then panic "sched ptable.lock" else
  i ← on_lens core_l mycpu;
  c ← on_lens core_l (cpu_at i);
  if negb (ncli c =? 1) then panic "sched locks" else
  k ← deref p;
  q ← the_proc k;
  if is_state (state q) RUNNING then panic "sched running" else
  ef ← on_lens core_l readeflags;
  if (ef : bool) then panic "sched interruptible" else
  i ← on_lens core_l mycpu;
  c ← on_lens core_l (cpu_at i);
  mret (intena c).
(** [mycpu()->intena = intena], back on some CPU. *)
Definition sched_resume (intena : bool) : M (pst E) unit :=
  i ← on_lens core_l mycpu;
  c ← on_lens core_l (cpu_at i);
  on_lens core_l (set_cpu i (set_intena intena c)).
(** [others] stands for the [swtch]. *)
Definition sched (others : M (pst E) unit) : M (pst E) unit :=
  intena ← sched_checks;
  others;;
  sched_resume intena.

(** [myproc()->...] *)
Definition upd_myproc (f : proc → proc) : M (pst E) unit :=
  p ← myproc; i ← deref p; upd_proc i f.

Definition yield (others : M (pst E) unit) : M (pst E) unit :=
  acquire ptlock_l;;
  upd_myproc (set_state RUNNABLE);;
  t ← gets ticks;
  upd_myproc (set_preemption_time (sint32 t));;
  upd_myproc (λ p, set_executed_cycle (fadd_double (executed_cycle p) d0_1) p);;
  sched others;;
  release ptlock_l.

Definition forkret : M (pst E) unit :=
  release ptlock_l;;
  f ← gets first;
  whenM f (modify (set_first false);; env sv_iinit;; env sv_initlog).

(** The lock passed to [sleep]. *)
Inductive sleep_lk := LkNull | LkPtable | LkOther (l : lens (pst E) spinlock).

Definition sleep (others : M (pst E) unit) (chan : channel) (lk : sleep_lk) : M (pst E) unit :=
  p ← myproc;
  match p with
  | None => panic "sleep"
  | Some i =>
      match lk with LkNull => panic "sleep without lk" | _ => mret tt end;;
      match lk with LkOther l => acquire ptlock_l;; release l | _ => mret tt end;;
      upd_proc i (set_chan chan);;
      upd_proc i (set_state SLEEPING);;
      sched others;;
      upd_proc i (set_chan NoChan);;
      match lk with LkOther l => release ptlock_l;; acquire l | _ => mret tt end
  end.

Definition wakeup (c : channel) : M (pst E) unit :=
  acquire ptlock_l;; upd_table (wakeup1 c);; release ptlock_l.
Definition wakeup_pl (c : channel) : M (pst E) unit :=
  acquire ptlock_l;; upd_table (wakeup_pl_tbl c);; release ptlock_l.

(** *** Exit and wait *)

(** [if (curproc->ofile[fd]) { fileclose(...); curproc->ofile[fd] = 0; }] *)
Definition exit_file (c : nat) (fd : nat) : M (pst E) unit :=
  p ← the_proc c;
  let f := nth fd (ofile p) 0 in
  whenM (negb (f =? 0))
    (env (sv_fileclose f);; upd_proc c (λ p, set_ofile (<[fd := 0]> (ofile p)) p)).
(** The body of the loop that hands the children of [c] to init. *)
Definition reparent (c : nat) (j : nat) : M (pst E) unit :=
  p ← the_proc j;
  whenM (bool_decide (parent p = Some c))
    (ip ← gets initproc;
     upd_proc j (set_parent ip);;
     whenM (is_state (state p) ZOMBIE) (upd_table (wakeup1 (proc_chan ip)))).

(** The part of [exit] under [ptable.lock], up to [sched]. *)
Definition exit_locked (c : nat) : M (pst E) unit :=
  p ← the_proc c;
  upd_table (wakeup1 (proc_chan (parent p)));;
  n ← gets (λ s, length (ptable s));
  forM (seq 0 n) (reparent c);;
  upd_proc c (set_state ZOMBIE).

(** [exit] up to the switch; returns the exiting process. *)
Definition exit_begin : M (pst E) nat :=
  curproc ← myproc;
  ip ← gets initproc;
  if bool_decide (curproc = ip) then panic "init exiting" else
  c ← deref curproc;
  forM (seq 0 (Z.to_nat NOFILE)) (exit_file c);;
  env sv_begin_op;;
  p ← the_proc c;
  env (sv_iput (cwd p));;
  env sv_end_op;;
  upd_proc c (set_cwd 0);;
  acquire ptlock_l;;
  exit_locked c;;
  mret c.
Definition exit (others : M (pst E) unit) : M (pst E) unit :=
  exit_begin;;
  sched others;;
  panic "zombie exit".

(** Freeing the entry of an exited child. *)
Definition reap (i : nat) : M (pst E) Z :=
  p ← the_proc i;
  let pid := pid p in
  env (sv_kfree (kstack p));;
  upd_proc i (set_kstack 0);;
  env (sv_freevm (pgdir p));;
  upd_proc i (set_pid 0);;
  upd_proc i (set_parent None);;
  upd_proc i (λ p, set_name (<[0%nat := 0]> (name p)) p);;
  upd_proc i (set_killed 0);;
  upd_proc i (set_state UNUSED);;
  release ptlock_l;;
  mret pid.

(** [wait]'s loop; [others] says what happens during each sleep. *)
Fixpoint wait_loop (c : nat) (others : list (M (pst E) unit)) : M (pst E) Z :=
  tbl ← gets ptable;
  match wait_scan c tbl 0 false with
  | (Some i, _) => reap i
  | (None, havekids) =>
      p ← the_proc c;
      if negb havekids || negb (killed p =? 0) then release ptlock_l;; mret (-1)
      else match others with
           | [] => block
           | o :: others' => sleep o (ChProc c) LkPtable;; wait_loop c others'
           end
  end.
Definition wait (others : list (M (pst E) unit)) : M (pst E) Z :=
  curproc ← myproc;
  acquire ptlock_l;;
  c ← deref curproc;
  wait_loop c others.

(** *** The scheduler *)

Definition scheduler_init : M (pst E) nat :=
  i ← on_lens core_l mycpu;
  c ← on_lens core_l (cpu_at i);
  on_lens core_l (set_cpu i (set_cpu_proc None c));;
  mret i.
(** [c->proc = p] *)
Definition set_running (i : nat) (p : option nat) : M (pst E) unit :=
  c ← on_lens core_l (cpu_at i); on_lens core_l (set_cpu i (set_cpu_proc p c)).
(** One round of the loop on CPU [i]; [run] is the chosen process running until
    it switches back. *)
Definition scheduler_round (i : nat) (run : M (pst E) unit) : M (pst E) unit :=
  on_lens core_l sti;;
  acquire ptlock_l;;
  s ← get;
  match choose (ticks s) (ptable s) with
  | None => release ptlock_l
  | Some p =>
      set_running i (Some p);;
      q ← the_proc p;
      env (sv_switchuvm q);;
      upd_proc p (start_running (ticks s));;
      run;;
      env sv_switchkvm;;
      set_running i None;;
      release ptlock_l
  end.

(** *** Lookups and the added system calls' helpers *)

(** The result may be one past the last entry. *)
Definition find_proc (pd : Z) : M (pst E) nat :=
  acquire ptlock_l;;
  tbl ← gets ptable;
  release ptlock_l;;
  mret (find_proc_tbl pd tbl).

Definition kill (pd : Z) : M (pst E) Z :=
  acquire ptlock_l;;
  tbl ← gets ptable;
  let r := kill_tbl pd tbl in
  upd_table (λ _, r.2);;
  release ptlock_l;;
  mret r.1.

(** The word at user address 16, read when a parent pointer is null; on the
    current address space, so an argument. *)
Definition count_child (low : Z) (father : option nat) : M (pst E) Z :=
  acquire ptlock_l;;
  tbl ← gets ptable;
  release ptlock_l;;
  mret (count_child_tbl low (pid_of low tbl father) tbl).

Definition reset_bjf_attributes_op (pr ct ec szr : float32) : M (pst E) unit :=
  acquire ptlock_l;;
  upd_table (reset_bjf_attributes pr ct ec szr);;
  release ptlock_l.

(** *** Listings *)

Definition cprintf (fmt : string) (args : list parg) : M (pst E) unit := env (sv_cprintf fmt args).


(** [char buf[14]] is filled with twelve blanks and a terminator at 13; [junk]
    is the uninitialised byte at 12.  A name of 14 characters overwrites the
    terminator, a longer one is written past the buffer. *)
Definition print_name (junk : Z) (nm : list Z) : M (pst E) unit :=
  let n := until_nul nm in
  if (14 <=? length n)%nat then fault "print_name: buf" else
  let buf := replicate 12 32 ++ [junk; 0] in
  cprintf "%s" [AStr (until_nul (n ++ drop (length n) buf))].

Definition print_state (st : procstate) : M (pst E) unit :=
  match st with
  | UNUSED => cprintf "UNUSED    " []
  | EMBRYO => cprintf "EMBRYO    " []
  | SLEEPING => cprintf "SLEEPING  " []
  | RUNNABLE => cprintf "RUNNABLE  " []
  | RUNNING => cprintf "RUNNING   " []
  | ZOMBIE => cprintf "ZOMBIE    " []
  end.
Definition print_space (num : Z) : M (pst E) unit :=
  forM (seq 0 (Z.to_nat num)) (λ _, cprintf " " []).
Definition digits_of (num : Z) : M (pst E) Z :=
  match how_many_digit num with Some d => mret d | None => fault "fuel" end.

(** One line of [print_bitches]. *)
Definition print_row (junk : Z) (p : proc) : M (pst E) unit :=
  if is_state (state p) UNUSED then mret tt else
  print_name junk (name p);;
  cprintf "%d" [AInt (pid p)];;
  d ← digits_of (pid p); print_space (4 - d);;
  print_state (state p);;
  cprintf "%d     " [AInt (que_id p)];;
  cprintf "%d" [AInt (f_to_int (executed_cycle p))];;
  d ← digits_of (f_to_int (executed_cycle p)); print_space (5 - d);;
  cprintf "%d" [AInt (creation_time p)];;
  d ← digits_of (creation_time p); print_space (10 - d);;
  cprintf "%d       " [AInt (priority p)];;
  cprintf "%d     " [AInt (f_to_int (priority_ratio p))];;
  cprintf "%d      " [AInt (f_to_int (creation_time_ratio p))];;
  cprintf "%d   " [AInt (f_to_int (executed_cycle_ratio p))];;
  cprintf "%d" [AInt (f_to_int (calculate_rank p))];;
  cprintf "\n" [].
Definition print_bitches (junk : Z) : M (pst E) unit :=
  acquire ptlock_l;;
  cprintf "process_name PID State   Queue Cycle Arrival Priority R_prty R_Arvl R_exec Rank\n" [];;
  forM (seq 0 80) (λ _, cprintf "-" []);;
  cprintf "\n" [];;
  tbl ← gets ptable;
  forM tbl (print_row junk);;
  release ptlock_l.

(** [ptable.lock] is taken and not given back. *)
Definition print_lock_que (a : channel) : M (pst E) unit :=
  acquire ptlock_l;;
  tbl ← gets ptable;
  forM tbl (λ p,
    whenM (bool_decide (chan p = a))
      (cprintf "%d\t" [AInt (pid p)];; cprintf "%s\t" [AStr (until_nul (name p))])).

Definition state_name (st : procstate) : string :=
  match st with
  | UNUSED => "unused" | EMBRYO => "embryo" | SLEEPING => "sleep "
  | RUNNABLE => "runble" | RUNNING => "run   " | ZOMBIE => "zombie"
  end.
(** The return addresses up to the first null one. *)
Definition procdump_row (p : proc) : M (pst E) unit :=
  if is_state (state p) UNUSED then mret tt else
  cprintf "%d %s %s" [AInt (pid p); AStr (chars (state_name (state p))); AStr (until_nul (name p))];;
  whenM (is_state (state p) SLEEPING)
    (m ← gets (λ s, view sv_mem (penv s));
     forM (until_nul (getcallerpcs m (c_ebp (context p) + 8))) (λ pc, cprintf " %p" [AInt pc]));;
  cprintf "\n" [].
Definition procdump : M (pst E) unit :=
  tbl ← gets ptable;
  forM tbl procdump_row.
End Ops.
