(* ===== verification/ProcOk.v ===== *)
(** * The life cycle of processes

    The changes of the process table as a step relation at the granularity of
    the code's critical sections, its invariant (distinct live pids, every live
    process has a live parent, init is never a zombie), and the proof that
    [fork], [exit], [wait], [kill] and the rest of [Proc] only ever take the
    table along these steps, whatever the other components do. *)

From S2P Require Import Prelude Machine Str Spin Flt ProcTable Proc.
Local Open Scope Z_scope.

(** ** The table as a transition system *)

(** The part of the state the steps change: the entries, [nextpid], [initproc]. *)
Record tstate := TState { t_tbl : list proc; t_next : Z; t_init : option nat }.
Definition tview {E} (s : pst E) : tstate := TState (ptable s) (nextpid s) (initproc s).

(** A live entry: a process that has been set up and not exited. *)
Definition live (p : proc) : Prop := state p ≠ UNUSED ∧ state p ≠ EMBRYO ∧ state p ≠ ZOMBIE.

(** Two entries, two tables, that agree on state, pid and parent. *)
Definition kin_proc (p q : proc) : Prop := state q = state p ∧ pid q = pid p ∧ parent q = parent p.
Definition kin_tbl : list proc → list proc → Prop := Forall2 kin_proc.

(** What [exit] does to the table: wake the parent, hand the children to init,
    become a zombie. *)
Definition reparent_tbl (c : nat) (ip : option nat) (tbl : list proc) (j : nat) : list proc :=
  match tbl !! j with
  | Some p =>
      if bool_decide (parent p = Some c) then
        let tbl := alter (set_parent ip) j tbl in
        if is_state (state p) ZOMBIE then wakeup1 (proc_chan ip) tbl else tbl
      else tbl
  | None => tbl
  end.
Definition exit_tbl (c : nat) (par ip : option nat) (tbl : list proc) : list proc :=
  alter (set_state ZOMBIE) c
    (foldl (reparent_tbl c ip) (wakeup1 (proc_chan par) tbl) (seq 0 (length tbl))).
(** What [wait] leaves of a reaped entry. *)
Definition reaped (p : proc) : proc :=
  set_state UNUSED (set_killed 0 (set_name (<[0%nat := 0]> (name p)) (set_parent None
    (set_pid 0 (set_kstack 0 p))))).

Inductive tstep : tstate → tstate → Prop :=
| t_local tbl tbl' n ip : kin_tbl tbl tbl' → tstep (TState tbl n ip) (TState tbl' n ip)
(** [allocproc] claims an entry and a pid. *)
| t_alloc tbl n ip i p : tbl !! i = Some p → state p = UNUSED → 0 < n < 2^31 - 1 →
    tstep (TState tbl n ip)
      (TState (alter (λ p, set_pid n (set_state EMBRYO p)) i tbl) (sint32 (n + 1)) ip)
(** [allocproc] or [fork] runs out of memory. *)
| t_abort tbl n ip i p : tbl !! i = Some p → state p = EMBRYO → parent p = None → ip ≠ Some i →
    tstep (TState tbl n ip) (TState (alter (set_state UNUSED) i tbl) n ip)
| t_adopt tbl n ip i p c q : tbl !! i = Some p → state p = EMBRYO → parent p = None →
    ip ≠ Some i → tbl !! c = Some q → live q →
    tstep (TState tbl n ip) (TState (alter (set_parent (Some c)) i tbl) n ip)
| t_set_init tbl n i p : tbl !! i = Some p → state p = EMBRYO → parent p = None →
    tstep (TState tbl n None) (TState tbl n (Some i))
| t_ready tbl n ip i p : tbl !! i = Some p → state p = EMBRYO → (parent p ≠ None ∨ ip = Some i) →
    tstep (TState tbl n ip) (TState (alter (set_state RUNNABLE) i tbl) n ip)
(** [sleep], [yield] and the scheduler. *)
| t_state tbl n ip i p st : tbl !! i = Some p → live p →
    st ≠ UNUSED → st ≠ EMBRYO → st ≠ ZOMBIE →
    tstep (TState tbl n ip) (TState (alter (set_state st) i tbl) n ip)
| t_wakeup tbl n ip c : tstep (TState tbl n ip) (TState (wakeup1 c tbl) n ip)
| t_wakeup_pl tbl n ip c : tstep (TState tbl n ip) (TState (wakeup_pl_tbl c tbl) n ip)
| t_kill tbl n ip pd : tstep (TState tbl n ip) (TState (kill_tbl pd tbl).2 n ip)
| t_aging tbl n ip t : tstep (TState tbl n ip) (TState (aging t tbl) n ip)
| t_exit tbl n ip c p : tbl !! c = Some p → live p → is_Some ip → ip ≠ Some c →
    tstep (TState tbl n ip) (TState (exit_tbl c (parent p) ip tbl) n ip)
| t_reap tbl n ip i p : tbl !! i = Some p → state p = ZOMBIE →
    tstep (TState tbl n ip) (TState (alter reaped i tbl) n ip).

Definition treach (s : tstate) : Prop := rtc tstep (TState (replicate 64 proc0) 1 None) s.

(** ** The invariant *)

Record table_inv (s : tstate) : Prop := {
  inv_pid : ∀ i p, t_tbl s !! i = Some p → state p ≠ UNUSED → 0 < pid p < t_next s;
  inv_distinct : ∀ i j p q, t_tbl s !! i = Some p → t_tbl s !! j = Some q →
    state p ≠ UNUSED → state q ≠ UNUSED → pid p = pid q → i = j;
  inv_parent : ∀ i p c, t_tbl s !! i = Some p → parent p = Some c →
    state p ≠ UNUSED ∧ ∃ q, t_tbl s !! c = Some q ∧ (live q ∨ state q = EMBRYO ∧ t_init s = Some c);
  inv_orphan : ∀ i p, t_tbl s !! i = Some p → parent p = None →
    state p = UNUSED ∨ state p = EMBRYO ∨ t_init s = Some i;
  inv_init : ∀ i, t_init s = Some i →
    ∃ p, t_tbl s !! i = Some p ∧ parent p = None ∧ (live p ∨ state p = EMBRYO);
  inv_next : 0 < t_next s < 2^31;
}.

(** An update of entries that keeps pid and parent and moves states only
    within the live ones. *)
Definition same_kind (p q : proc) : Prop :=
  pid q = pid p ∧ parent q = parent p ∧
  (state q = state p ∨ live p ∧ live q).

Lemma same_kind_refl p : same_kind p p.
Proof. by repeat split; auto. Qed.
Lemma same_kind_live p q : same_kind p q → live p → live q.
Proof. intros (_ & _ & [He|[_ ?]]) Hl; [|done]. unfold live in *. by rewrite He. Qed.
Lemma same_kind_state p q st :
  same_kind p q → st = UNUSED ∨ st = EMBRYO ∨ st = ZOMBIE → state p = st ↔ state q = st.
Proof. intros (_ & _ & [->|[[? [? ?]] [? [? ?]]]]); naive_solver. Qed.

Lemma inv_same_kind tbl tbl' n ip :
  (∀ i q, tbl' !! i = Some q → ∃ p, tbl !! i = Some p ∧ same_kind p q) →
  (∀ i p, tbl !! i = Some p → ∃ q, tbl' !! i = Some q ∧ same_kind p q) →
  table_inv (TState tbl n ip) → table_inv (TState tbl' n ip).
Proof.
  intros Hb Hf [Hpid Hd Hpar Ho Hi Hn]; simpl in *. constructor; simpl; [..|done].
  - intros i q Hq Hs. destruct (Hb i q Hq) as (p & Hp & Hk). pose proof Hk as (-> & _).
    apply (Hpid i p Hp). intros Hu. apply Hs. by apply (same_kind_state p q UNUSED); auto.
  - intros i j q q' Hq Hq' Hs Hs' He. destruct (Hb i q Hq) as (p & Hp & Hk), (Hb j q' Hq') as (p' & Hp' & Hk').
    apply (Hd i j p p' Hp Hp').
    + intros Hu. apply Hs. by apply (same_kind_state p q UNUSED); auto.
    + intros Hu. apply Hs'. by apply (same_kind_state p' q' UNUSED); auto.
    + destruct Hk as (<- & _), Hk' as (<- & _). done.
  - intros i q c Hq Hc. destruct (Hb i q Hq) as (p & Hp & Hk). pose proof Hk as (_ & Hpq & _).
    destruct (Hpar i p c Hp) as (Hs & r & Hr & Hl); [congruence|]. split.
    + intros Hu. apply Hs. by apply (same_kind_state p q UNUSED); auto.
    + destruct (Hf c r Hr) as (r' & Hr' & Hk'). exists r'. split; [done|]. destruct Hl as [Hl|[Hl ?]].
      * left. by apply (same_kind_live r r').
      * right. split; [|done]. by apply (same_kind_state r r' EMBRYO); auto.
  - intros i q Hq Hn'. destruct (Hb i q Hq) as (p & Hp & Hk). pose proof Hk as (_ & Hpq & _).
    destruct (Ho i p Hp) as [Hs|[Hs|?]]; [congruence|..]; [left|right; left|auto];
      by apply (same_kind_state p q); auto.
  - intros i Hi'. destruct (Hi i Hi') as (p & Hp & Hpn & Hl). destruct (Hf i p Hp) as (q & Hq & Hk).
    pose proof Hk as (_ & Hpq & _). exists q. split_and!; [done|congruence|].
    destruct Hl; [left; by apply (same_kind_live p q)|right; by apply (same_kind_state p q EMBRYO); auto].
Qed.

Lemma inv_alter f i tbl n ip :
  (∀ p, tbl !! i = Some p → same_kind p (f p)) →
  table_inv (TState tbl n ip) → table_inv (TState (alter f i tbl) n ip).
Proof.
  intros Hf. apply inv_same_kind.
  - intros j q Hq. destruct (decide (i = j)) as [->|Hne].
    + rewrite list_lookup_alter_eq in Hq. destruct (tbl !! j) as [p|] eqn:E; simplify_eq/=. eauto.
    + rewrite list_lookup_alter_ne in Hq by done. eauto using same_kind_refl.
  - intros j p Hp. destruct (decide (i = j)) as [->|Hne].
    + rewrite list_lookup_alter_eq, Hp. simpl. eauto.
    + rewrite list_lookup_alter_ne by done. eauto using same_kind_refl.
Qed.

Lemma inv_fmap (g : proc → proc) tbl n ip :
  (∀ p, same_kind p (g p)) → table_inv (TState tbl n ip) → table_inv (TState (g <$> tbl) n ip).
Proof.
  intros Hg. apply inv_same_kind.
  - intros j q Hq. rewrite list_lookup_fmap in Hq. destruct (tbl !! j) as [p|] eqn:E; simplify_eq/=. eauto.
  - intros j p Hp. rewrite list_lookup_fmap, Hp. simpl. eauto.
Qed.

Lemma is_state_true s t : is_state s t = true ↔ s = t.
Proof. unfold is_state. apply bool_decide_eq_true. Qed.
Lemma sleeping_live p : state p = SLEEPING → live p.
Proof. unfold live. intros ->. done. Qed.
Lemma runnable_live p : live (set_state RUNNABLE p).
Proof. unfold live; simpl. done. Qed.
Lemma same_kind_wake p : state p = SLEEPING → same_kind p (set_state RUNNABLE p).
Proof. intros H. repeat split; try done. right. auto using sleeping_live, runnable_live. Qed.

Lemma wake_same_kind c p : same_kind p (wake c p).
Proof.
  unfold wake. destruct (_ && _) eqn:E; [|apply same_kind_refl].
  bool_to_prop. apply same_kind_wake. by apply is_state_true.
Qed.
Lemma age_same_kind t p : same_kind p (age t p).
Proof. unfold age. destruct (_ && _); [|apply same_kind_refl]. repeat split; auto. Qed.
Lemma kill_same_kind p : same_kind p (kill_proc p).
Proof.
  unfold kill_proc. destruct (is_state _ _) eqn:E; [|repeat split; auto].
  apply is_state_true in E. repeat split; try done. right. split; [by apply sleeping_live|done].
Qed.
Lemma chosen_one_sleeping c tbl i :
  chosen_one c tbl = Some i → ∃ p, tbl !! i = Some p ∧ state p = SLEEPING ∧ chan p = c ∧ 0 < pid p ∧
    ∀ j q, tbl !! j = Some q → state q = SLEEPING → chan q = c → pid q ≤ pid p.
Proof.
  intros H. apply (scan_best_Some _ _ zgt zgt_irrefl zgt_trans zgt_negtrans) in H
    as (p & Hp & Hc & Hb & Hmax & _).
  bool_to_prop. exists p. apply is_state_true in H0. apply Z.ltb_lt in Hb. split_and!; try done.
  intros j q Hj Hs Hq. specialize (Hmax j q Hj). apply Z.ltb_ge, Hmax.
  rewrite bool_decide_eq_true_2 by done. by apply is_state_true.
Qed.

Lemma inv_wakeup_pl c tbl n ip :
  table_inv (TState tbl n ip) → table_inv (TState (wakeup_pl_tbl c tbl) n ip).
Proof.
  unfold wakeup_pl_tbl. destruct (chosen_one c tbl) as [i|] eqn:E; [|done].
  apply chosen_one_sleeping in E as (p & Hp & Hs & _). apply inv_alter.
  intros p' Hp'. simplify_eq. by apply same_kind_wake.
Qed.
Lemma inv_kill pd tbl n ip :
  table_inv (TState tbl n ip) → table_inv (TState (kill_tbl pd tbl).2 n ip).
Proof.
  unfold kill_tbl. destruct (find_index _ _); [|done]. apply inv_alter. intros; apply kill_same_kind.
Qed.

(** *** [exit] *)

Lemma wakeup1_lookup c tbl k r :
  tbl !! k = Some r → ∃ q, wakeup1 c tbl !! k = Some q ∧ same_kind r q.
Proof. intros H. unfold wakeup1. rewrite list_lookup_fmap, H. simpl. eauto using wake_same_kind. Qed.

Lemma reparent_lookup c ip tbl j k p :
  tbl !! k = Some p →
  ∃ q, reparent_tbl c ip tbl j !! k = Some q ∧ pid q = pid p ∧
    (state q = state p ∨ live p ∧ live q) ∧
    parent q = (if decide (k = j) then (if bool_decide (parent p = Some c) then ip else parent p)
                else parent p).
Proof.
  intros Hp. unfold reparent_tbl. destruct (decide (k = j)) as [->|Hne].
  - rewrite Hp. case_bool_decide; [|by eauto 10].
    assert (Hk : alter (set_parent ip) j tbl !! j = Some (set_parent ip p))
      by by rewrite list_lookup_alter_eq, Hp.
    destruct (is_state _ _); [|by eauto 10].
    destruct (wakeup1_lookup (proc_chan ip) _ _ _ Hk) as (q & ? & ? & ? & Hs). by eauto 10.
  - destruct (tbl !! j) as [r|]; [|by eauto 10]. case_bool_decide; [|by eauto 10].
    assert (Hk : alter (set_parent ip) j tbl !! k = Some p) by by rewrite list_lookup_alter_ne.
    destruct (is_state _ _); [|by eauto 10].
    destruct (wakeup1_lookup (proc_chan ip) _ _ _ Hk) as (q & ? & ? & ? & Hs). by eauto 10.
Qed.

Lemma length_reparent c ip tbl j : length (reparent_tbl c ip tbl j) = length tbl.
Proof.
  unfold reparent_tbl, wakeup1. destruct (tbl !! j); [|done]. case_bool_decide; [|done].
  destruct (is_state _ _); by autorewrite with len.
Qed.

Lemma reparent_all c ip l tbl k p :
  NoDup l → tbl !! k = Some p →
  ∃ q, foldl (reparent_tbl c ip) tbl l !! k = Some q ∧ pid q = pid p ∧
    (state q = state p ∨ live p ∧ live q) ∧
    parent q = (if decide (k ∈ l) then (if bool_decide (parent p = Some c) then ip else parent p)
                else parent p).
Proof.
  revert tbl p. induction l as [|j l IH]; intros tbl p Hnd Hp.
  { exists p. rewrite decide_False by apply not_elem_of_nil. auto. }
  apply NoDup_cons in Hnd as [Hj Hnd]. simpl.
  destruct (reparent_lookup c ip tbl j k p Hp) as (q & Hq & Hpid & Hst & Hpar).
  destruct (IH _ _ Hnd Hq) as (r & Hr & Hpid' & Hst' & Hpar'). exists r. split_and!; [done|congruence|..].
  - destruct Hst as [He|[Hl ?]], Hst' as [He'|[Hl' ?]]; [left; congruence|right..].
    + split; [|done]. unfold live in *. by rewrite <- He.
    + split; [done|]. unfold live in *. by rewrite He'.
    + done.
  - rewrite Hpar'. destruct (decide (k ∈ l)) as [Hk|Hk].
    + rewrite decide_True by set_solver. rewrite decide_False in Hpar by set_solver. by rewrite Hpar.
    + rewrite Hpar. destruct (decide (k = j)) as [->|Hne].
      * by rewrite decide_True by set_solver.
      * by rewrite decide_False by set_solver.
Qed.

Lemma length_reparent_all c ip l tbl : length (foldl (reparent_tbl c ip) tbl l) = length tbl.
Proof. revert tbl. induction l as [|j l IH]; intros tbl; simpl; [done|]. by rewrite IH, length_reparent. Qed.

Lemma exit_tbl_lookup c par ip tbl k p :
  tbl !! k = Some p →
  ∃ q, exit_tbl c par ip tbl !! k = Some q ∧ pid q = pid p ∧
    parent q = (if bool_decide (parent p = Some c) then ip else parent p) ∧
    (if decide (k = c) then state q = ZOMBIE else state q = state p ∨ live p ∧ live q).
Proof.
  intros Hp. unfold exit_tbl.
  destruct (wakeup1_lookup (proc_chan par) tbl k p Hp) as (p1 & Hp1 & Hpid1 & Hpar1 & Hst1).
  destruct (reparent_all c ip (seq 0 (length tbl)) _ k p1 (NoDup_seq _ _) Hp1) as (q & Hq & Hpid & Hst & Hpar).
  rewrite decide_True in Hpar.
  2:{ apply elem_of_seq. apply lookup_lt_Some in Hp. lia. }
  rewrite Hpar1 in Hpar. destruct (decide (k = c)) as [->|Hne].
  - rewrite list_lookup_alter_eq, Hq. simpl. eexists. split; [done|]. simpl. split_and!; congruence.
  - rewrite list_lookup_alter_ne, Hq by done. eexists. split; [done|]. split_and!; [congruence|done|].
    destruct Hst1 as [He|[Hl ?]], Hst as [He'|[Hl' ?]]; [left; congruence|right..].
    + split; [|done]. unfold live in *. by rewrite <- He.
    + split; [done|]. unfold live in *. by rewrite He'.
    + done.
Qed.
Lemma length_exit_tbl c par ip tbl : length (exit_tbl c par ip tbl) = length tbl.
Proof. unfold exit_tbl, wakeup1. rewrite length_alter, length_reparent_all. by autorewrite with len. Qed.

Lemma exit_tbl_lookup_inv c par ip tbl k q :
  exit_tbl c par ip tbl !! k = Some q →
  ∃ p, tbl !! k = Some p ∧ pid q = pid p ∧
    parent q = (if bool_decide (parent p = Some c) then ip else parent p) ∧
    (if decide (k = c) then state q = ZOMBIE else state q = state p ∨ live p ∧ live q).
Proof.
  intros Hq. destruct (lookup_lt_is_Some_2 tbl k) as [p Hp].
  { apply lookup_lt_Some in Hq. by rewrite length_exit_tbl in Hq. }
  destruct (exit_tbl_lookup c par ip tbl k p Hp) as (q' & Hq' & H). simplify_eq. eauto.
Qed.

Lemma inv_exit tbl n ip c p :
  tbl !! c = Some p → live p → is_Some ip → ip ≠ Some c →
  table_inv (TState tbl n ip) → table_inv (TState (exit_tbl c (parent p) ip tbl) n ip).
Proof.
  intros Hc Hl [i0 ->] Hne [Hpid Hd Hpar Ho Hi Hn]; simpl in *.
  assert (Hused : ∀ k q r, (if decide (k = c) then state q = ZOMBIE else state q = state r ∨ live r ∧ live q) →
    tbl !! k = Some r → state q ≠ UNUSED → state r ≠ UNUSED).
  { intros k q r Hs Hr Hu. destruct (decide (k = c)) as [->|]; [simplify_eq; apply Hl|].
    destruct Hs as [<-|[[? _] _]]; done. }
  constructor; simpl; [..|done].
  - intros k q Hq Hs. apply exit_tbl_lookup_inv in Hq as (r & Hr & -> & _ & Hst). eauto.
  - intros k k' q q' Hq Hq' Hs Hs' He.
    apply exit_tbl_lookup_inv in Hq as (r & Hr & Hpq & _ & Hst), Hq' as (r' & Hr' & Hpq' & _ & Hst').
    eapply (Hd k k' r r'); eauto. congruence.
  - intros k q d Hq Hd'. apply exit_tbl_lookup_inv in Hq as (r & Hr & _ & Hpq & Hst). split.
    + case_bool_decide as Hb.
      * destruct (Hpar k r c Hr Hb) as [Hu _]. destruct (decide (k = c)); [congruence|].
        destruct Hst as [->|[_ [? _]]]; done.
      * destruct (Hpar k r d Hr ltac:(congruence)) as [Hu _]. destruct (decide (k = c)); [congruence|].
        destruct Hst as [->|[_ [? _]]]; done.
    + assert (Hdc : d ≠ c) by (case_bool_decide; congruence).
      assert (∃ r', tbl !! d = Some r' ∧ (live r' ∨ state r' = EMBRYO ∧ Some i0 = Some d)) as (r' & Hr' & Hlr).
      { case_bool_decide as Hb; [|apply (Hpar k r d Hr); congruence].
        assert (d = i0) as -> by congruence. destruct (Hi i0 eq_refl) as (r' & Hr' & _ & [?|?]); eauto. }
      destruct (exit_tbl_lookup c (parent p) (Some i0) tbl d r' Hr') as (q' & Hq' & _ & _ & Hs').
      rewrite decide_False in Hs' by done. exists q'. split; [done|].
      destruct Hlr as [Hlr|[Hlr ?]], Hs' as [He|[Hl1 Hl2]]; auto.
      * left. unfold live in *. by rewrite He.
      * right. split; [congruence|done].
  - intros k q Hq Hn'. apply exit_tbl_lookup_inv in Hq as (r & Hr & _ & Hpq & Hst).
    case_bool_decide; [congruence|]. destruct (Ho k r Hr ltac:(congruence)) as [Hs|[Hs|Hs]]; [..|by auto].
    + destruct (decide (k = c)) as [->|]; [simplify_eq; by destruct Hl|]. destruct Hst as [->|[[? _] _]]; auto; done.
    + destruct (decide (k = c)) as [->|]; [simplify_eq; by destruct Hl as (?&?&?)|].
      destruct Hst as [->|[[? [? _]] _]]; auto; done.
  - intros i [= <-]. destruct (Hi i0 eq_refl) as (r & Hr & Hrn & Hlr).
    destruct (exit_tbl_lookup c (parent p) (Some i0) tbl i0 r Hr) as (q & Hq & _ & Hpq & Hs).
    rewrite decide_False in Hs by congruence. exists q. split_and!; [done| |].
    + rewrite Hpq, Hrn. by rewrite bool_decide_eq_false_2.
    + destruct Hlr as [Hlr|Hlr], Hs as [He|[? ?]]; auto; [left|right; congruence].
      unfold live in *. by rewrite He.
Qed.

(** *** The steps that change what an entry is *)

Lemma lookup_alter_cases {A} (f : A → A) i j (l : list A) y :
  alter f i l !! j = Some y ↔
  (i = j ∧ ∃ x, l !! j = Some x ∧ y = f x) ∨ (i ≠ j ∧ l !! j = Some y).
Proof.
  destruct (decide (i = j)) as [->|Hne].
  - rewrite list_lookup_alter_eq. destruct (l !! j); naive_solver.
  - rewrite list_lookup_alter_ne by done. naive_solver.
Qed.
Ltac same_lookup := repeat match goal with
  | H1 : ?l !! ?i = Some ?x, H2 : ?l !! ?i = Some ?y |- _ =>
      assert (x = y) by congruence; subst x; clear H2
  end.
Ltac alter_cases :=
  repeat match goal with
  | H : alter _ _ _ !! _ = Some _ |- _ =>
      apply lookup_alter_cases in H; destruct H as [(? & ? & ? & ->)|[? ?]]
  end; subst; same_lookup; simpl in *.

(** An entry that is not live is nobody's parent, init's apart. *)
Lemma parent_of_live tbl n ip i j p q :
  table_inv (TState tbl n ip) → tbl !! i = Some p → ¬ live p → ip ≠ Some i →
  tbl !! j = Some q → parent q ≠ Some i.
Proof.
  intros Hinv Hi Hl Hip Hj Hp. destruct (inv_parent _ Hinv j q i Hj Hp) as (_ & r & Hr & Hlr).
  simplify_eq/=. naive_solver.
Qed.

Lemma inv_alloc tbl n ip i p :
  tbl !! i = Some p → state p = UNUSED → 0 < n < 2^31 - 1 → table_inv (TState tbl n ip) →
  table_inv (TState (alter (λ p, set_pid n (set_state EMBRYO p)) i tbl) (sint32 (n + 1)) ip).
Proof.
  intros Hi Hs Hn Hinv. rewrite sint32_id by (unfold is_i32; lia).
  pose proof Hinv as [Hpid Hd Hpar Ho Hip Hnx]; simpl in *.
  assert (Hpn : parent p = None).
  { destruct (parent p) as [c|] eqn:E; [|done]. by destruct (Hpar i p c Hi E). }
  assert (Hii : ip ≠ Some i).
  { intros ->. destruct (Hip i eq_refl) as (q & Hq & _ & [[? _]|?]); simplify_eq; congruence. }
  constructor; simpl.
  - intros j q Hj Hu. alter_cases; [lia|]. specialize (Hpid j q ltac:(done) Hu). lia.
  - intros j k q r Hj Hk Hq Hr He. alter_cases; [done|..].
    + specialize (Hpid j q ltac:(done) Hq). lia.
    + specialize (Hpid k r ltac:(done) Hr). lia.
    + by eapply Hd.
  - intros j q c Hj Hc. alter_cases; [congruence|].
    destruct (Hpar j q c ltac:(done) Hc) as (Hu & r & Hr & Hl). split; [done|].
    exists r. rewrite list_lookup_alter_ne; [done|]. intros <-. simplify_eq.
    destruct Hl as [[? _]|[? _]]; congruence.
  - intros j q Hj Hq. alter_cases; [auto|]. by eapply Ho.
  - intros j ->. destruct (Hip j eq_refl) as (q & Hq & ?). exists q.
    rewrite list_lookup_alter_ne by congruence. done.
  - lia.
Qed.

Lemma inv_abort tbl n ip i p :
  tbl !! i = Some p → state p = EMBRYO → parent p = None → ip ≠ Some i →
  table_inv (TState tbl n ip) → table_inv (TState (alter (set_state UNUSED) i tbl) n ip).
Proof.
  intros Hi Hs Hpn Hii Hinv. pose proof Hinv as [Hpid Hd Hpar Ho Hip Hnx]; simpl in *.
  assert (Hno : ∀ j q, tbl !! j = Some q → parent q ≠ Some i).
  { intros j q. apply (parent_of_live tbl n ip i j p); try done. unfold live. naive_solver. }
  constructor; simpl; [..|done].
  - intros j q Hj Hu. alter_cases; [done|eauto].
  - intros j k q r Hj Hk Hq Hr He. alter_cases; try done. by eapply Hd.
  - intros j q c Hj Hc. alter_cases; [congruence|].
    destruct (Hpar j q c ltac:(done) Hc) as (Hu & r & Hr & Hl). split; [done|]. exists r.
    rewrite list_lookup_alter_ne; [done|]. intros <-. by apply (Hno j q).
  - intros j q Hj Hq. alter_cases; [auto|]. by eapply Ho.
  - intros j ->. destruct (Hip j eq_refl) as (q & Hq & ?). exists q.
    rewrite list_lookup_alter_ne by congruence. done.
Qed.

Lemma inv_adopt tbl n ip i p c q :
  tbl !! i = Some p → state p = EMBRYO → parent p = None → ip ≠ Some i →
  tbl !! c = Some q → live q →
  table_inv (TState tbl n ip) → table_inv (TState (alter (set_parent (Some c)) i tbl) n ip).
Proof.
  intros Hi Hs Hpn Hii Hc Hl Hinv. pose proof Hinv as [Hpid Hd Hpar Ho Hip Hnx]; simpl in *.
  assert (Hic : i ≠ c) by (intros ->; simplify_eq; by destruct Hl as (_ & ? & _)).
  assert (Hkeep : ∀ d r, tbl !! d = Some r → (live r ∨ state r = EMBRYO ∧ ip = Some d) →
    ∃ r', alter (set_parent (Some c)) i tbl !! d = Some r' ∧ (live r' ∨ state r' = EMBRYO ∧ ip = Some d)).
  { intros d r Hr Hlr. exists r. rewrite list_lookup_alter_ne; [done|]. intros <-. simplify_eq.
    destruct Hlr as [(_ & ? & _)|[_ ?]]; congruence. }
  constructor; simpl; [..|done].
  - intros j r Hj Hu. alter_cases; eauto.
  - intros j k r r' Hj Hk Hr Hr' He. alter_cases; eauto.
  - intros j r d Hj Hd'. alter_cases; [split; [congruence|injection Hd' as <-; eauto]|].
    destruct (Hpar j r d ltac:(done) Hd') as (Hu & r' & Hr' & Hlr). split; [done|]. by eapply Hkeep.
  - intros j r Hj Hr. alter_cases; eauto.
  - intros j ->. destruct (Hip j eq_refl) as (r & Hr & ?). exists r.
    rewrite list_lookup_alter_ne by congruence. done.
Qed.

Lemma inv_ready tbl n ip i p :
  tbl !! i = Some p → state p = EMBRYO → (parent p ≠ None ∨ ip = Some i) →
  table_inv (TState tbl n ip) → table_inv (TState (alter (set_state RUNNABLE) i tbl) n ip).
Proof.
  intros Hi Hs Hpn Hinv. pose proof Hinv as [Hpid Hd Hpar Ho Hip Hnx]; simpl in *.
  constructor; simpl; [..|done].
  - intros j r Hj Hu. alter_cases; [|eauto]. eapply Hpid; [done|congruence].
  - intros j k r r' Hj Hk Hr Hr' He. alter_cases; eauto using eq_sym.
    + eapply Hd; eauto. congruence.
    + eapply Hd; eauto. congruence.
  - intros j r d Hj Hd'.
    assert (∃ r0, tbl !! j = Some r0 ∧ parent r0 = Some d ∧ (state r0 ≠ UNUSED → state r ≠ UNUSED)) as (r0 & Hr0 & Hp0 & Hu0)
      by (alter_cases; eauto).
    destruct (Hpar j r0 d Hr0 Hp0) as (Hu & r' & Hr' & Hlr). split; [auto|].
    destruct (decide (i = d)) as [->|Hne].
    + exists (set_state RUNNABLE r'). rewrite list_lookup_alter_eq, Hr'. split; [done|].
      left. apply runnable_live.
    + exists r'. by rewrite list_lookup_alter_ne by done.
  - intros j r Hj Hr. alter_cases; [|eauto]. destruct Hpn; [congruence|auto].
  - intros j ->. destruct (Hip j eq_refl) as (r & Hr & ? & ?). destruct (decide (i = j)) as [->|Hne].
    + exists (set_state RUNNABLE r). rewrite list_lookup_alter_eq, Hr. split_and!; try done.
      left. apply runnable_live.
    + exists r. by rewrite list_lookup_alter_ne by done.
Qed.

Lemma inv_reap tbl n ip i p :
  tbl !! i = Some p → state p = ZOMBIE →
  table_inv (TState tbl n ip) → table_inv (TState (alter reaped i tbl) n ip).
Proof.
  intros Hi Hs Hinv. pose proof Hinv as [Hpid Hd Hpar Ho Hip Hnx]; simpl in *.
  assert (Hii : ip ≠ Some i).
  { intros ->. destruct (Hip i eq_refl) as (q & Hq & _ & [(_&_&?)|?]); simplify_eq; congruence. }
  assert (Hno : ∀ j q, tbl !! j = Some q → parent q ≠ Some i).
  { intros j q. apply (parent_of_live tbl n ip i j p); try done. unfold live. naive_solver. }
  constructor; simpl; [..|done].
  - intros j q Hj Hu. alter_cases; [done|eauto].
  - intros j k q r Hj Hk Hq Hr He. alter_cases; try done. by eapply Hd.
  - intros j q c Hj Hc. alter_cases; [done|].
    destruct (Hpar j q c ltac:(done) Hc) as (Hu & r & Hr & Hl). split; [done|]. exists r.
    rewrite list_lookup_alter_ne; [done|]. intros <-. by apply (Hno j q).
  - intros j q Hj Hq. alter_cases; [auto|]. by eapply Ho.
  - intros j ->. destruct (Hip j eq_refl) as (q & Hq & ?). exists q.
    rewrite list_lookup_alter_ne by congruence. done.
Qed.

Lemma inv_set_init tbl n i p :
  tbl !! i = Some p → state p = EMBRYO → parent p = None →
  table_inv (TState tbl n None) → table_inv (TState tbl n (Some i)).
Proof.
  intros Hi Hs Hp [Hpid Hd Hpar Ho Hip Hnx]; simpl in *. constructor; simpl; [done|done|..|done].
  - intros j q c Hj Hc. destruct (Hpar j q c Hj Hc) as (? & r & ? & [?|[_ ?]]); [eauto|done].
  - intros j q Hj Hq. destruct (Ho j q Hj Hq) as [?|[?|?]]; auto. done.
  - intros j [= <-]. eauto.
Qed.

Lemma inv_local tbl tbl' n ip :
  kin_tbl tbl tbl' → table_inv (TState tbl n ip) → table_inv (TState tbl' n ip).
Proof.
  intros Hk. apply inv_same_kind.
  - intros i q Hq. destruct (Forall2_lookup_r _ _ _ _ _ Hk Hq) as (p & Hp & ? & ? & ?).
    exists p. split; [done|]. repeat split; auto.
  - intros i p Hp. destruct (Forall2_lookup_l _ _ _ _ _ Hk Hp) as (q & Hq & ? & ? & ?).
    exists q. split; [done|]. repeat split; auto.
Qed.

Lemma tstep_inv s s' : tstep s s' → table_inv s → table_inv s'.
Proof.
  intros [] Hinv.
  - by eapply inv_local.
  - by eapply inv_alloc.
  - by eapply inv_abort.
  - by eapply inv_adopt.
  - by eapply inv_set_init.
  - by eapply inv_ready.
  - eapply inv_alter; [|done]. intros p' Hp'. simplify_eq. repeat split; try done. right. by split.
  - apply inv_fmap; [|done]. apply wake_same_kind.
  - by apply inv_wakeup_pl.
  - by apply inv_kill.
  - apply inv_fmap; [|done]. apply age_same_kind.
  - by apply inv_exit.
  - by eapply inv_reap.
Qed.

Lemma steps_inv s s' : rtc tstep s s' → table_inv s → table_inv s'.
Proof.
  intros H Hinv. eapply (rtc_ind_r table_inv); [exact Hinv| |exact H]. intros; by eapply tstep_inv.
Qed.

Lemma table_inv_init : table_inv (TState (replicate 64 proc0) 1 None).
Proof.
  constructor; cbn [t_tbl t_next t_init]; [..|lia];
    [intros i p Hp|intros i j p q Hp _|intros i p c Hp|intros i p Hp|done];
    apply lookup_replicate_1 in Hp as [-> _]; naive_solver.
Qed.

Lemma treach_inv s : treach s → table_inv s.
Proof.
  intros H. by eapply steps_inv, table_inv_init.
Qed.

(** C13: in every reachable process table, entries in use have distinct pids
    (below [nextpid], so no pid is handed out twice), the parent of every
    process is alive, every process other than init has a parent, and init has
    not exited. *)
Theorem process_table_invariant s (Hs : treach s) :
  (∀ i j p q, t_tbl s !! i = Some p → t_tbl s !! j = Some q →
     state p ≠ UNUSED → state q ≠ UNUSED → pid p = pid q → i = j) ∧
  (∀ i p, t_tbl s !! i = Some p → state p ≠ UNUSED → 0 < pid p < t_next s) ∧
  (∀ i p c, t_tbl s !! i = Some p → parent p = Some c →
     ∃ q, t_tbl s !! c = Some q ∧ state q ≠ UNUSED ∧ state q ≠ ZOMBIE) ∧
  (∀ i p, t_tbl s !! i = Some p → live p ∨ state p = ZOMBIE → parent p = None → t_init s = Some i) ∧
  (∀ i, t_init s = Some i → ∃ p, t_tbl s !! i = Some p ∧ state p ≠ UNUSED ∧ state p ≠ ZOMBIE).
Proof.
  apply treach_inv in Hs as [Hpid Hd Hpar Ho Hip Hnx]. split_and!; [done|done|..].
  - intros i p c Hi Hc. destruct (Hpar i p c Hi Hc) as (_ & q & Hq & [(?&?&?)|[He _]]); exists q;
      split_and!; try done; congruence.
  - intros i p Hi Hl Hn. destruct (Ho i p Hi Hn) as [?|[?|?]]; [..|done]; destruct Hl as [(?&?&?)|?]; congruence.
  - intros i Hi. destruct (Hip i Hi) as (q & Hq & _ & [(?&?&?)|He]); exists q; split_and!; try done; congruence.
Qed.
Lemma process_table_invariant_witness :
  let s := TState (alter (λ p, set_pid 1 (set_state EMBRYO p)) 0%nat (replicate 64 proc0)) 2 None in
  treach s ∧ ∀ i p, t_tbl s !! i = Some p → state p ≠ UNUSED → 0 < pid p < 2.
Proof.
  cbn zeta.
  assert (H : treach (TState (alter (λ p, set_pid 1 (set_state EMBRYO p)) 0%nat (replicate 64 proc0)) 2 None)).
  { apply rtc_once. change 2 with (sint32 (1 + 1)). by apply (t_alloc _ _ _ _ proc0). }
  split; [exact H|]. exact (proj1 (proj2 (process_table_invariant _ H))).
Defined.
