(* ===== verification/ProcSteps.v ===== *)
(** * The operations follow the life cycle

    Each operation of [Proc] takes the process table along the steps of
    [ProcOk], so the invariant there holds of the running system. *)

From S2P Require Import Prelude Machine Str Spin Flt ProcTable Proc ProcOk.
Local Open Scope Z_scope.

(** Same entries up to the fields outside state, pid and parent. *)
Definition kin (s s' : tstate) : Prop :=
  kin_tbl (t_tbl s) (t_tbl s') ∧ t_next s' = t_next s ∧ t_init s' = t_init s.

Global Instance kin_proc_equiv : Equivalence kin_proc.
Proof.
  split; unfold kin_proc.
  - by intros p.
  - by intros p q (-> & -> & ->).
  - intros p q r (H1 & H2 & H3) (-> & -> & ->). by rewrite H1, H2, H3.
Qed.
Global Instance kin_pre : PreOrder kin.
Proof.
  split.
  - intros s. by split_and!.
  - intros s1 s2 s3 (H12 & Hn & Hi) (H23 & Hn' & Hi'). split_and!; [|congruence..].
    unfold kin_tbl in *. by etrans.
Qed.

Lemma kin_lookup s s' i p :
  kin s s' → t_tbl s !! i = Some p → ∃ q, t_tbl s' !! i = Some q ∧ kin_proc p q.
Proof. intros [H _] Hp. destruct (Forall2_lookup_l _ _ _ _ _ H Hp) as (q & ? & ?). eauto. Qed.
Lemma kin_steps s s' : kin s s' → rtc tstep s s'.
Proof.
  destruct s as [tbl n ip], s' as [tbl' n' ip']. intros (H & Hn & Hi); simpl in *; subst.
  apply rtc_once. by constructor.
Qed.
Lemma kin_live p q : kin_proc p q → live p → live q.
Proof. unfold kin_proc, live. intros (-> & _). done. Qed.
Lemma kin_alter (f : proc → proc) i tbl n ip :
  (∀ p, kin_proc p (f p)) → kin (TState tbl n ip) (TState (alter f i tbl) n ip).
Proof.
  intros Hf. split_and!; [|done..]. simpl. apply Forall2_same_length_lookup_2; [by autorewrite with len|].
  intros j x y Hx Hy. apply lookup_alter_cases in Hy as [(<- & z & Hz & ->)|[_ Hy]]; simplify_eq; done.
Qed.

Section Steps.
Context {E : Type} `{!Services E}.
Variables trapret forkret_entry : Z.
Implicit Types s : pst E.

(** A lock outside the table. *)
Class QuietLens {T} (l : lens (pst E) T) : Prop := {
  tview_upd : ∀ x s, tview (upd_lens l x s) = tview s }.
Global Instance core_quiet : QuietLens core_l.
Proof. done. Qed.
Global Instance ptlock_quiet : QuietLens ptlock_l.
Proof. done. Qed.
Global Instance tickslock_quiet : QuietLens tickslock_l.
Proof. done. Qed.
Global Instance env_quiet : QuietLens env_l.
Proof. done. Qed.
Global Instance env_in_quiet {T} (l : lens E T) : QuietLens (env_in l).
Proof. done. Qed.

Definition quiet {A} (c : M (pst E) A) : Prop :=
  ∀ s a s', c s = Ok (a, s') → kin (tview s) (tview s').

Lemma quiet_ret {A} (a : A) : quiet (mret a).
Proof. intros s a' s' [= <- <-]. done. Qed.
Lemma quiet_bind {A B} (c : M (pst E) A) (k : A → M (pst E) B) :
  quiet c → (∀ a, quiet (k a)) → quiet (c ≫= k).
Proof. intros Hc Hk s b s' H. inv_ok. etrans; [by eapply Hc|by eapply Hk]. Qed.
Lemma quiet_gets {A} (f : pst E → A) : quiet (gets f).
Proof. intros s a s' [= <- <-]. done. Qed.
Lemma quiet_get : quiet get.
Proof. intros s a s' [= <- <-]. done. Qed.
Lemma quiet_panic {A} m : quiet (panic m : M (pst E) A).
Proof. by intros s a s'. Qed.
Lemma quiet_fault {A} m : quiet (fault m : M (pst E) A).
Proof. by intros s a s'. Qed.
Lemma quiet_block {A} : quiet (block : M (pst E) A).
Proof. by intros s a s'. Qed.
Lemma quiet_modify f : (∀ s, tview (f s) = tview s) → quiet (modify f).
Proof. intros Hf s a s' [= <- <-]. by rewrite Hf. Qed.
Lemma quiet_on_lens {T A} (l : lens (pst E) T) `{!QuietLens l} (f : M T A) : quiet (on_lens l f).
Proof.
  intros s a s'. unfold on_lens. destruct (f (view l s)) as [[b t]| | |]; try done.
  intros [= <- <-]. by rewrite tview_upd.
Qed.
Lemma quiet_when b c : quiet c → quiet (whenM b c).
Proof. intros H. destruct b; [done|apply quiet_ret]. Qed.
Lemma quiet_forM {A} (l : list A) body : (∀ x, quiet (body x)) → quiet (forM l body).
Proof.
  intros H. induction l as [|x l IH]; simpl; [apply quiet_ret|]. by apply quiet_bind; [|intros _].
Qed.
Lemma quiet_if {A} (b : bool) (c d : M (pst E) A) : quiet c → quiet d → quiet (if b then c else d).
Proof. by destruct b. Qed.
Lemma quiet_deref p : quiet (deref p).
Proof. destruct p; [apply quiet_ret|apply quiet_fault]. Qed.
Lemma quiet_the_proc i : quiet (the_proc i).
Proof. intros s a s'. unfold the_proc. destruct (_ !! _); [|done]. by intros [= <- <-]. Qed.
Lemma quiet_upd_proc i f : (∀ p, kin_proc p (f p)) → quiet (upd_proc i f).
Proof.
  intros Hf. apply quiet_bind; [apply quiet_the_proc|]. intros _ s a s' [= <- <-]. by apply kin_alter.
Qed.
End Steps.

(** Walk through a routine that leaves state, pid and parent alone. *)
Create HintDb quiet.
Global Hint Resolve quiet_ret quiet_gets quiet_get quiet_panic quiet_fault quiet_block
  quiet_deref quiet_the_proc quiet_on_lens : quiet.
Ltac quiet_step := first
  [ solve [eauto with quiet typeclass_instances]
  | apply quiet_upd_proc; intros ?; by repeat split
  | match goal with |- quiet (_ ≫= _) => apply quiet_bind; [|intros ?] end
  | apply quiet_when | apply quiet_if
  | apply quiet_forM; intros ? | apply quiet_modify; intros ?; by rewrite ?tview_upd
  | match goal with |- quiet (match ?x with _ => _ end) => destruct x end ].
Ltac quiet := intros; repeat quiet_step.

Section Operations.
Context {E : Type} `{!Services E}.
Variables trapret forkret_entry : Z.
Implicit Types s : pst E.

Lemma quiet_holding (lk : lens (pst E) spinlock) : quiet (holding core_l lk).
Proof. unfold holding. quiet. Qed.
Hint Resolve quiet_holding : quiet.
Lemma quiet_acquire (lk : lens (pst E) spinlock) `{!QuietLens lk} : quiet (acquire core_l lk).
Proof. unfold acquire. quiet. Qed.
Lemma quiet_release (lk : lens (pst E) spinlock) `{!QuietLens lk} : quiet (release core_l lk).
Proof. unfold release. quiet. Qed.
Lemma quiet_myproc : quiet (myproc (S := pst E) core_l).
Proof. unfold myproc. quiet. Qed.
Hint Resolve quiet_acquire quiet_release quiet_myproc : quiet.
Lemma quiet_exit_file c fd : quiet (exit_file (E := E) c fd).
Proof. unfold exit_file. quiet. Qed.
Lemma quiet_fork_file c np i : quiet (fork_file (E := E) c np i).
Proof. unfold fork_file. quiet. Qed.
Lemma quiet_growproc n : quiet (growproc (E := E) n).
Proof. unfold growproc. quiet. Qed.
Hint Resolve quiet_exit_file quiet_fork_file : quiet.

(** Run a quiet prefix or suffix of an operation. *)
Lemma quiet_run {A} (c : M (pst E) A) s a s' : c s = Ok (a, s') → quiet c → kin (tview s) (tview s').
Proof. intros H Hq. by eapply Hq. Qed.
Lemma upd_proc_Ok i f s a s' :
  upd_proc i f s = Ok (a, s') → ∃ p, ptable s !! i = Some p ∧ s' = set_ptable (alter f i (ptable s)) s.
Proof.
  unfold upd_proc, the_proc. intros H. inv_ok. destruct (ptable s !! i) eqn:Hp; simplify_eq. eauto.
Qed.

(** *** [allocproc] *)

(** The table after claiming entry [i]. *)
Definition claimed (i : nat) (t : tstate) : tstate :=
  TState (alter (λ p, set_pid (t_next t) (set_state EMBRYO p)) i (t_tbl t))
    (sint32 (t_next t + 1)) (t_init t).
Definition unclaimed (i : nat) (t : tstate) : tstate :=
  TState (alter (set_state UNUSED) i (t_tbl t)) (t_next t) (t_init t).

Lemma allocproc_cases s r s' :
  allocproc trapret forkret_entry s = Ok (r, s') →
  ∃ s1, kin (tview s) (tview s1) ∧
    (r = None ∧ kin (tview s1) (tview s') ∨
     ∃ i p, ptable s1 !! i = Some p ∧ state p = UNUSED ∧
       (r = Some i ∧ kin (claimed i (tview s1)) (tview s') ∨
        r = None ∧ ∃ s2, kin (claimed i (tview s1)) (tview s2) ∧ tview s' = unclaimed i (tview s2))).
Proof.
  unfold allocproc. intros H. apply bind_Ok in H as ([] & s1 & Ha & H).
  exists s1. split; [by eapply quiet_run; [done|quiet]|].
  apply bind_Ok in H as (tbl & s1' & Ht & H). injection Ht as <- <-.
  destruct (find_index _ _) as [i|] eqn:Hi.
  2:{ left. apply bind_Ok in H as ([] & s2 & Hr & H). inv_ok.
      split; [done|]. by eapply quiet_run; [done|quiet]. }
  right. apply find_index_Some in Hi as [(p & Hp & Hu) _]. apply is_state_true in Hu.
  exists i, p. split_and!; [done..|].
  apply bind_Ok in H as ([] & s2 & H2 & H). apply upd_proc_Ok in H2 as (_ & _ & ->).
  apply bind_Ok in H as (n & s2 & H2 & H). injection H2 as <- <-.
  apply bind_Ok in H as ([] & s2 & H2 & H). injection H2 as <-.
  apply bind_Ok in H as ([] & s2 & H2 & H). apply upd_proc_Ok in H2 as (_ & _ & ->).
  simpl in H. rewrite alter_alter in H.
  match type of H with _ ?s3 = _ => assert (Hcl : tview s3 = claimed i (tview s1)) by done; set (s3' := s3) in * end.
  rewrite <- Hcl. clearbody s3'. clear Hcl.
  apply bind_Ok in H as ([] & s2 & H2 & H). apply (quiet_run (alloc_init i)) in H2; [|unfold alloc_init; quiet].
  apply bind_Ok in H as ([] & s4 & H4 & H). apply quiet_run in H4; [|quiet].
  apply bind_Ok in H as (k & s5 & H5 & H). apply quiet_run in H5; [|quiet].
  apply bind_Ok in H as ([] & s6 & H6 & H). apply quiet_run in H6; [|quiet].
  assert (Hk : kin (tview s3') (tview s6)) by (do 3 (etrans; [done|]); done).
  destruct (k =? 0).
  - right. apply bind_Ok in H as ([] & s7 & H7 & H). inv_ok. split; [done|].
    apply upd_proc_Ok in H7 as (_ & _ & ->). by exists s6.
  - left. apply bind_Ok in H as ([] & s7 & H7 & H). inv_ok. split; [done|].
    etrans; [done|]. eapply quiet_run; [done|]. unfold alloc_stack. quiet.
Qed.

(** What a newly allocated entry looks like, and that the live ones are kept. *)
Definition fresh_entry (s s' : pst E) (i : nat) : Prop :=
  (∃ p, ptable s' !! i = Some p ∧ state p = EMBRYO ∧ parent p = None ∧ pid p = nextpid s) ∧
  initproc s' ≠ Some i ∧
  ∀ c q, ptable s !! c = Some q → live q → c ≠ i ∧ ∃ q', ptable s' !! c = Some q' ∧ live q'.

Lemma unused_no_parent t i p :
  table_inv t → t_tbl t !! i = Some p → state p = UNUSED → parent p = None ∧ t_init t ≠ Some i.
Proof.
  intros Hinv Hi Hu. split.
  - destruct (parent p) as [c|] eqn:Hc; [|done]. by destruct (inv_parent _ Hinv i p c Hi Hc).
  - intros Hip. destruct (inv_init _ Hinv i Hip) as (q & Hq & _ & [[? _]|?]); simplify_eq; congruence.
Qed.

Lemma allocproc_steps s r s' :
  allocproc trapret forkret_entry s = Ok (r, s') → table_inv (tview s) → nextpid s < 2^31 - 1 →
  rtc tstep (tview s) (tview s') ∧ ∀ i, r = Some i → fresh_entry s s' i.
Proof.
  intros H Hinv Hn. apply allocproc_cases in H as (s1 & Hk1 & H).
  assert (Hinv1 : table_inv (tview s1)) by (eapply steps_inv; [by apply kin_steps|done]).
  destruct H as [[-> Hk]|(i & p & Hp & Hu & H)].
  { split; [|done]. etrans; by apply kin_steps. }
  destruct (unused_no_parent _ i p Hinv1 Hp Hu) as [Hpn Hii]. simpl in Hii.
  assert (Hn1 : nextpid s1 = nextpid s) by apply Hk1.
  assert (Hstep : rtc tstep (tview s) (claimed i (tview s1))).
  { etrans; [by apply kin_steps|]. apply rtc_once. apply (t_alloc _ _ _ _ p); [done|done|].
    pose proof (inv_next _ Hinv1) as Hnx. simpl in Hnx. lia. }
  assert (Hcl : t_tbl (claimed i (tview s1)) !! i = Some (set_pid (nextpid s1) (set_state EMBRYO p))).
  { simpl. by rewrite list_lookup_alter_eq, Hp. }
  destruct H as [[-> Hk]|[-> (s2 & Hk & Ht)]].
  - split; [etrans; [done|by apply kin_steps]|]. intros ? [= <-].
    destruct (kin_lookup _ _ _ _ Hk Hcl) as (q & Hq & Hs & Hpid & Hpar). simpl in *.
    split_and!; [exists q; split_and!; congruence|destruct Hk as (_ & _ & Hi); simpl in Hi; congruence|].
    intros c r Hc Hl. destruct (kin_lookup _ _ _ _ Hk1 Hc) as (r1 & Hr1 & Hkr). simpl in Hr1.
    assert (c ≠ i).
    { intros ->. assert (r1 = p) as -> by congruence. by destruct (kin_live r p Hkr Hl). }
    split; [done|]. destruct (kin_lookup _ _ c r1 Hk) as (r2 & Hr2 & Hkr2).
    { simpl. by rewrite list_lookup_alter_ne. }
    exists r2. split; [done|]. by eapply kin_live, kin_live.
  - split; [|done]. etrans; [exact Hstep|]. etrans; [by apply kin_steps|]. rewrite Ht.
    destruct (kin_lookup _ _ _ _ Hk Hcl) as (q & Hq & Hs & Hpid & Hpar). simpl in *.
    apply rtc_once. apply (t_abort _ _ _ _ q); simpl; try congruence.
    destruct Hk as (_ & _ & Hi). simpl in Hi. congruence.
Qed.

(** *** [fork] *)

(** The process that runs on this CPU. *)
Definition current (s : pst E) (c : nat) : Prop :=
  (∃ cp, core_ok (p_core s) cp ∧ cpu_proc cp = Some c) ∧
  ∃ p, ptable s !! c = Some p ∧ live p.

Lemma myproc_current s c r s' :
  current s c → myproc core_l s = Ok (r, s') → r = Some c ∧ tview s' = tview s.
Proof.
  intros [(cp & Hok & Hcp) _] H. rewrite (myproc_ok core_l s cp Hok) in H. simplify_eq. done.
Qed.

Lemma kin_set s s1 i f : kin (tview s) (tview s1) → (∀ p, kin_proc p (f p)) →
  kin (tview s) (tview (set_ptable (alter f i (ptable s1)) s1)).
Proof. intros Hk Hf. etrans; [done|]. by apply kin_alter. Qed.

(** From the point where the child has its parent. *)
Lemma fork_end_steps c np (s s' : pst E) r p :
  (fork_copy c np;; q ← the_proc np; fork_ready np;; mret (pid q)) s = Ok (r, s') →
  ptable s !! np = Some p → state p = EMBRYO ∧ parent p ≠ None →
  rtc tstep (tview s) (tview s').
Proof.
  intros H Hp [Hs Hpar].
  apply bind_Ok in H as ([] & s1 & H1 & H). apply quiet_run in H1; [|unfold fork_copy; quiet].
  apply bind_Ok in H as (q & s2 & H2 & H). apply quiet_run in H2; [|quiet].
  apply bind_Ok in H as ([] & s3 & H3 & H). inv_ok. unfold fork_ready in H3.
  apply bind_Ok in H3 as ([] & s4 & H4 & H3). apply quiet_run in H4; [|quiet].
  apply bind_Ok in H3 as ([] & s5 & H5 & H3). apply upd_proc_Ok in H5 as (_ & _ & ->).
  assert (Hk : kin (tview s) (tview s4)) by (do 2 (etrans; [done|]); done).
  etrans; [by apply kin_steps|].
  destruct (kin_lookup _ _ _ _ Hk Hp) as (q' & Hq' & ? & ? & ?).
  eapply rtc_l. { apply (t_ready _ _ _ np q'); simpl in *; [done|congruence|left; congruence]. }
  apply kin_steps. eapply quiet_run in H3; [exact H3|quiet].
Qed.

Lemma fork_steps s r s' c :
  fork trapret forkret_entry s = Ok (r, s') → table_inv (tview s) → nextpid s < 2^31 - 1 →
  current s c → rtc tstep (tview s) (tview s').
Proof.
  unfold fork. intros H Hinv Hn Hcur.
  apply bind_Ok in H as (r0 & s1 & H1 & H). apply (myproc_current _ c) in H1 as [-> Hv]; [|done].
  assert (Hn1 : nextpid s1 = nextpid s) by (by injection Hv).
  apply bind_Ok in H as (np & s2 & H2 & H).
  apply allocproc_steps in H2 as [Hst Hfresh]; [|by rewrite Hv|by rewrite Hn1].
  rewrite Hv in Hst. etrans; [exact Hst|]. clear Hst.
  destruct np as [np|]; [|inv_ok; done].
  destruct (Hfresh np eq_refl) as ((p & Hp & Hs & Hpn & _) & Hii & Hlive). clear Hfresh.
  destruct Hcur as [_ (pc & Hpc & Hlc)].
  destruct (Hlive c pc) as [Hne (pc2 & Hpc2 & Hlc2)]; [by injection Hv as ->|done|].
  apply bind_Ok in H as (c' & s3 & H3 & H). injection H3 as <- <-.
  apply bind_Ok in H as (pc' & s3 & H3 & H). unfold the_proc in H3. rewrite Hpc2 in H3. injection H3 as <- <-.
  apply bind_Ok in H as (d & s3 & H3 & H). apply quiet_run in H3; [|quiet].
  apply bind_Ok in H as ([] & s4 & H4 & H). apply quiet_run in H4; [|quiet].
  assert (Hk4 : kin (tview s2) (tview s4)) by (etrans; [exact H3|exact H4]). clear s3 H3 H4.
  destruct (d =? 0).
  - apply bind_Ok in H as (q & s5 & H5 & H). apply quiet_run in H5; [|quiet].
    apply bind_Ok in H as ([] & s6 & H6 & H). apply quiet_run in H6; [|quiet].
    apply bind_Ok in H as ([] & s7 & H7 & H). apply quiet_run in H7; [|quiet].
    apply bind_Ok in H as ([] & s8 & H8 & H). apply upd_proc_Ok in H8 as (_ & _ & ->). inv_ok.
    assert (Hk : kin (tview s2) (tview s7)) by (do 3 (etrans; [done|]); done).
    etrans; [by apply kin_steps|]. apply rtc_once.
    destruct (kin_lookup _ _ _ _ Hk Hp) as (q' & Hq' & ? & ? & ?).
    destruct Hk as (_ & _ & Hi). simpl in *. apply (t_abort _ _ _ _ q'); congruence.
  - apply bind_Ok in H as ([] & s5 & H5 & H). apply quiet_run in H5; [|quiet].
    assert (Hk : kin (tview s2) (tview s5)) by (etrans; done).
    apply bind_Ok in H as ([] & s6 & H6 & H). apply upd_proc_Ok in H6 as (_ & _ & ->).
    etrans; [by apply kin_steps|].
    destruct (kin_lookup _ _ _ _ Hk Hp) as (q' & Hq' & ? & ? & ?), (kin_lookup _ _ _ _ Hk Hpc2) as (c' & Hc' & Hkc).
    eapply rtc_l.
    { destruct Hk as (_ & _ & Hi). simpl in *.
      apply (t_adopt _ _ _ np q' c c'); try congruence. by eapply kin_live. }
    eapply (fork_end_steps c np _ _ _ (set_parent (Some c) q')) in H; [exact H| |simpl; split; [|done]].
    + simpl in *. by rewrite list_lookup_alter_eq, Hq'.
    + simpl. congruence.
Qed.

(** *** [exit], [wait], [sleep], [yield], [kill] *)

Lemma reparent_run c s j :
  (j < length (ptable s))%nat →
  reparent c j s = Ok (tt, set_ptable (reparent_tbl c (initproc s) (ptable s) j) s).
Proof.
  intros Hj. destruct (lookup_lt_is_Some_2 _ _ Hj) as [p Hp].
  unfold reparent, upd_proc, upd_table, reparent_tbl, the_proc. runM. rewrite !Hp.
  case_bool_decide; simpl; [|by destruct s].
  rewrite Hp. destruct (is_state _ _); by destruct s.
Qed.
Lemma reparent_loop c l s :
  Forall (λ j, j < length (ptable s))%nat l →
  forM l (reparent c) s = Ok (tt, set_ptable (foldl (reparent_tbl c (initproc s)) (ptable s) l) s).
Proof.
  intros Hl. revert s Hl. induction l as [|j l IH]; intros s Hl; simpl; [by destruct s|].
  apply Forall_cons in Hl as [Hj Hl]. erewrite bind_Ok_l by by apply reparent_run.
  rewrite IH; [done|]. simpl. by rewrite length_reparent.
Qed.

Lemma exit_locked_run s c p :
  ptable s !! c = Some p →
  exit_locked c s = Ok (tt, set_ptable (exit_tbl c (parent p) (initproc s) (ptable s)) s).
Proof.
  intros Hp. unfold exit_locked, the_proc. erewrite bind_Ok_l by by rewrite Hp.
  erewrite bind_Ok_l by reflexivity. erewrite bind_Ok_l by reflexivity. simpl.
  erewrite bind_Ok_l.
  2:{ apply reparent_loop. simpl. apply Forall_forall. intros j Hj%elem_of_seq. lia. }
  simpl. unfold upd_proc, the_proc, exit_tbl. runM. simpl.
  destruct (lookup_lt_is_Some_2
    (foldl (reparent_tbl c (initproc s)) (wakeup1 (proc_chan (parent p)) (ptable s))
      (seq 0 (length (wakeup1 (proc_chan (parent p)) (ptable s))))) c) as [q Hq].
  { rewrite length_reparent_all. unfold wakeup1. rewrite length_fmap. by eapply lookup_lt_Some. }
  rewrite Hq. unfold wakeup1. by rewrite length_fmap.
Qed.
Lemma exit_locked_tbl s c p a s' :
  exit_locked c s = Ok (a, s') → ptable s !! c = Some p →
  tview s' = TState (exit_tbl c (parent p) (initproc s) (ptable s)) (nextpid s) (initproc s).
Proof. intros H Hp. rewrite (exit_locked_run s c p Hp) in H. by simplify_eq. Qed.

Lemma exit_begin_steps s c c' s' :
  exit_begin s = Ok (c', s') → table_inv (tview s) → current s c → is_Some (initproc s) →
  c' = c ∧ rtc tstep (tview s) (tview s') ∧ ∃ p, ptable s' !! c = Some p ∧ state p = ZOMBIE.
Proof.
  unfold exit_begin. intros H Hinv Hcur Hip.
  apply bind_Ok in H as (r0 & s1 & H1 & H). apply (myproc_current _ c) in H1 as [-> Hv]; [|done].
  apply bind_Ok in H as (ip & s2 & H2 & H). injection H2 as <- <-.
  case_bool_decide as Hci; [done|].
  apply bind_Ok in H as (c0 & s2 & H2 & H). injection H2 as <- <-.
  apply bind_Ok in H as ([] & s2 & H2 & H). apply quiet_run in H2; [|quiet].
  apply bind_Ok in H as ([] & s3 & H3 & H). apply quiet_run in H3; [|quiet].
  apply bind_Ok in H as (p & s4 & H4 & H). apply quiet_run in H4; [|quiet].
  apply bind_Ok in H as ([] & s5 & H5 & H). apply quiet_run in H5; [|quiet].
  apply bind_Ok in H as ([] & s6 & H6 & H). apply quiet_run in H6; [|quiet].
  apply bind_Ok in H as ([] & s7 & H7 & H). apply quiet_run in H7; [|quiet].
  apply bind_Ok in H as ([] & s8 & H8 & H). apply quiet_run in H8; [|quiet].
  apply bind_Ok in H as ([] & s9 & H9 & H). injection H as Hcc Hss. subst c' s'.
  assert (Hk : kin (tview s) (tview s8)) by (rewrite <- Hv; do 6 (etrans; [done|]); done).
  split; [done|]. destruct Hcur as [_ (pc & Hpc & Hl)].
  destruct (kin_lookup _ _ _ _ Hk Hpc) as (q & Hq & Hkq).
  pose proof (exit_locked_tbl s8 c q () s9 H9 Hq) as Ht.
  assert (Hi8 : initproc s8 = initproc s1) by (injection Hv as _ _ ->; apply Hk).
  split.
  - etrans; [by apply kin_steps|]. apply rtc_once. rewrite Ht. apply t_exit; [done|by eapply kin_live|..].
    + rewrite Hi8. by injection Hv as _ _ ->.
    + congruence.
  - destruct (exit_tbl_lookup c (parent q) (initproc s8) (ptable s8) c q Hq) as (r & Hr & _ & _ & Hz).
    rewrite decide_True in Hz by done. exists r. split; [|done]. by injection Ht as -> _ _.
Qed.

Lemma wait_scan_Some c l i hk j k :
  wait_scan c l i hk = (Some j, k) →
  ∃ p, l !! (j - i)%nat = Some p ∧ (i ≤ j)%nat ∧ parent p = Some c ∧ state p = ZOMBIE.
Proof.
  revert i hk. induction l as [|p l IH]; intros i hk H; simpl in H; [done|].
  case_bool_decide as Hp; simpl in H.
  - destruct (is_state _ _) eqn:Hz.
    + simplify_eq. apply is_state_true in Hz. exists p. rewrite Nat.sub_diag. auto.
    + apply IH in H as (q & Hq & ? & ?). exists q. replace (j - i)%nat with (S (j - S i)) by lia. auto with lia.
  - apply IH in H as (q & Hq & ? & ?). exists q. replace (j - i)%nat with (S (j - S i)) by lia. auto with lia.
Qed.

Lemma wait_scan_None c l i hk k :
  wait_scan c l i hk = (None, k) → ∀ j p, l !! j = Some p → parent p = Some c → state p ≠ ZOMBIE.
Proof.
  revert i hk. induction l as [|p l IH]; intros i hk H j q Hj Hq; simpl in H; [done|].
  destruct j as [|j]; simplify_eq/=.
  - rewrite bool_decide_eq_true_2 in H by done. simpl in H. destruct (is_state _ _) eqn:Hz; [done|].
    intros Hz'. by rewrite Hz' in Hz.
  - case_bool_decide; simpl in H; [|by eapply IH]. destruct (is_state _ _); [done|]. by eapply IH.
Qed.

Lemma kin_alter2 (f g : proc → proc) i tbl n ip :
  (∀ p, kin_proc (f p) (g p)) → kin (TState (alter f i tbl) n ip) (TState (alter g i tbl) n ip).
Proof.
  intros Hf. split_and!; [|done..]. simpl. apply Forall2_same_length_lookup_2; [by autorewrite with len|].
  intros j x y Hx Hy. apply lookup_alter_cases in Hx as [(<- & u & Hu & ->)|[Hne Hx]],
    Hy as [(? & v & Hv & ->)|[? Hy]]; simplify_eq; done.
Qed.

Lemma reap_steps s i p r s' :
  reap i s = Ok (r, s') → ptable s !! i = Some p → state p = ZOMBIE →
  r = pid p ∧ rtc tstep (tview s) (tview s').
Proof.
  unfold reap. intros H Hp Hz.
  apply bind_Ok in H as (p' & s1 & H1 & H). unfold the_proc in H1. rewrite Hp in H1. injection H1 as <- <-.
  apply bind_Ok in H as ([] & s1 & H1 & H). apply quiet_run in H1; [|quiet].
  apply bind_Ok in H as ([] & s2 & H2 & H). apply quiet_run in H2; [|quiet].
  apply bind_Ok in H as ([] & s3 & H3 & H). apply quiet_run in H3; [|quiet].
  do 5 (apply bind_Ok in H as ([] & ? & Hu & H); apply upd_proc_Ok in Hu as (_ & _ & ->)).
  apply bind_Ok in H as ([] & s4 & H4 & H). inv_ok. apply quiet_run in H4; [|quiet].
  assert (Hk : kin (tview s) (tview s3)) by (do 2 (etrans; [done|]); done).
  destruct (kin_lookup _ _ _ _ Hk Hp) as (q & Hq & Hs & _). split; [done|].
  etrans; [by apply kin_steps|]. eapply rtc_l; [apply (t_reap _ _ _ i q); [done|congruence]|].
  apply kin_steps. etrans; [|exact H4]. unfold tview; simpl. rewrite !alter_alter. apply kin_alter2.
  by intros.
Qed.

(** What the rest of the system may do while process [c] is switched out: its
    own steps, and to resume [c] on a CPU. *)
Definition resumes (c : nat) (others : M (pst E) unit) : Prop :=
  ∀ s s', table_inv (tview s) → others s = Ok (tt, s') →
    rtc tstep (tview s) (tview s') ∧ current s' c.

Lemma current_kin s s' c :
  current s c → kin (tview s) (tview s') → p_core s' = p_core s → current s' c.
Proof.
  intros [Hc (p & Hp & Hl)] Hk Hco. split; [by rewrite Hco|].
  destruct (kin_lookup _ _ _ _ Hk Hp) as (q & Hq & Hkq). exists q. split; [done|]. by eapply kin_live.
Qed.

Lemma sched_resume_current b s u s' c :
  sched_resume b s = Ok (u, s') → current s c → tview s' = tview s ∧ current s' c.
Proof.
  intros H [(cp & Hok & Hcp) Hp]. pose proof Hok as (Hme & _ & Hn & Hi).
  unfold sched_resume, on_lens in H. apply bind_Ok in H as (i & s1 & H1 & H). simpl in H1.
  destruct (eflags_if cp) eqn:He.
  { unfold mycpu, readeflags, this_cpu in H1. runM. rewrite Hme, He in H1. done. }
  rewrite (mycpu_ok _ _ Hok He) in H1. simplify_eq/=.
  apply bind_Ok in H as (c1 & s1 & H1 & H). unfold cpu_at in H1; simpl in H1. rewrite Hme in H1. simplify_eq/=.
  split; [done|]. split; [|done]. exists (set_intena b c1). split; [|done]. by apply (core_ok_with _ c1).
Qed.

Lemma sched_steps c s others u s' :
  resumes c others → table_inv (tview s) → sched others s = Ok (u, s') →
  rtc tstep (tview s) (tview s') ∧ current s' c.
Proof.
  unfold sched. intros Hres Hinv H.
  apply bind_Ok in H as (b & s1 & H1 & H). apply (quiet_run sched_checks) in H1; [|unfold sched_checks; quiet].
  apply bind_Ok in H as ([] & s2 & H2 & H). apply kin_steps in H1.
  destruct (Hres s1 s2) as [Hst Hcur]; [by eapply steps_inv|done|].
  apply (sched_resume_current _ _ _ _ c) in H as [Hv ?]; [|done]. split; [|done]. rewrite Hv. by etrans.
Qed.

Lemma state_step s c (p : proc) st :
  ptable s !! c = Some p → live p → st ≠ UNUSED → st ≠ EMBRYO → st ≠ ZOMBIE →
  tstep (tview s) (tview (set_ptable (alter (set_state st) c (ptable s)) s)).
Proof. intros. by apply (t_state _ _ _ c p). Qed.

Lemma acquire_current (lk : lens (pst E) spinlock) `{!LensOk lk, !LensDisj core_l lk, !QuietLens lk} s u s' c :
  acquire core_l lk s = Ok (u, s') → current s c → current s' c.
Proof.
  intros H [(cp & Hok & Hcp) (p & Hp & Hl)].
  destruct (acquire_inv core_l lk s cp u s' Hok H) as [_ ->]. split.
  - exists (pushed cp). split; [|done].
    change (p_core ?s) with (view core_l s). rewrite view_upd_l. simpl. by apply core_ok_pushed.
  - exists p. split; [|done].
    match goal with |- ptable ?s' !! _ = _ => change (t_tbl (tview s') !! c = Some p) end.
    by rewrite tview_upd.
Qed.

Lemma sleep_steps c s others ch lk u s' :
  match lk with LkOther l => QuietLens l | _ => True end →
  resumes c others → table_inv (tview s) → current s c → sleep others ch lk s = Ok (u, s') →
  rtc tstep (tview s) (tview s') ∧ (lk = LkPtable → current s' c).
Proof.
  unfold sleep. intros Hlk Hres Hinv Hcur H.
  apply bind_Ok in H as (r0 & s1 & H1 & H). apply (myproc_current _ c) in H1 as [-> Hv]; [|done].
  apply bind_Ok in H as ([] & s2 & H2 & H). apply quiet_run in H2; [|destruct lk; quiet].
  apply bind_Ok in H as ([] & s3 & H3 & H). apply quiet_run in H3; [|destruct lk; quiet].
  apply bind_Ok in H as ([] & s4 & H4 & H). apply quiet_run in H4; [|quiet].
  apply bind_Ok in H as ([] & s5 & H5 & H). apply upd_proc_Ok in H5 as (_ & _ & ->).
  assert (Hk : kin (tview s) (tview s4)) by (rewrite <- Hv; do 2 (etrans; [done|]); done).
  destruct Hcur as [_ (p & Hp & Hl)]. destruct (kin_lookup _ _ _ _ Hk Hp) as (q & Hq & Hkq).
  assert (Hst : rtc tstep (tview s) (tview (set_ptable (alter (set_state SLEEPING) c (ptable s4)) s4))).
  { etrans; [by apply kin_steps|]. apply rtc_once. by apply (state_step _ _ q); [|eapply kin_live|..]. }
  apply bind_Ok in H as ([] & s6 & H6 & H).
  apply (sched_steps c) in H6 as [Hst6 Hcur6]; [|done|by eapply steps_inv].
  apply bind_Ok in H as ([] & s7 & H7 & H). apply upd_proc_Ok in H7 as (_ & _ & ->).
  assert (Hk7 : kin (tview s6) (tview (set_ptable (alter (set_chan NoChan) c (ptable s6)) s6)))
    by (by apply kin_alter).
  split.
  - etrans; [exact Hst|]. etrans; [exact Hst6|]. etrans; [apply kin_steps; exact Hk7|].
    apply kin_steps. eapply quiet_run; [exact H|]. destruct lk; quiet.
  - intros ->. injection H as _ <-. by apply (current_kin s6).
Qed.

Lemma wait_steps c s others r s' :
  Forall (resumes c) others → table_inv (tview s) → current s c → wait others s = Ok (r, s') →
  rtc tstep (tview s) (tview s').
Proof.
  unfold wait. intros Hres Hinv Hcur H.
  apply bind_Ok in H as (r0 & s1 & H1 & H).
  assert (Hcur1 : current s1 c).
  { pose proof (quiet_run _ _ _ _ H1 quiet_myproc). destruct Hcur as [(cp & Hok & Hcp) Hp].
    rewrite (myproc_ok core_l s cp Hok) in H1. simplify_eq. split; [|done].
    exists (settled cp). split; [by apply core_ok_settled|]. by rewrite settled_proc. }
  apply (myproc_current _ c) in H1 as [-> Hv]; [|done]. rewrite <- Hv in *.
  apply bind_Ok in H as ([] & s2 & H2 & H).
  apply (acquire_current _ _ _ _ c) in H2 as Hcur2; [|done]. apply quiet_run in H2; [|quiet].
  apply bind_Ok in H as (c' & s3 & H3 & H). injection H3 as <- <-.
  apply kin_steps in H2. etrans; [exact H2|]. apply (steps_inv _ _ H2) in Hinv. clear -Hres Hinv Hcur2 H.
  revert s2 Hinv Hcur2 H. induction Hres as [|o os Ho Hos IH]; intros s Hinv Hcur H;
    cbn [wait_loop] in H; apply bind_Ok in H as (tbl & s1 & H1 & H); injection H1 as <- <-;
    destruct (wait_scan c (ptable s) 0 false) as [[i|] hk] eqn:Hw.
  1,3: apply wait_scan_Some in Hw as (p & Hp & _ & _ & Hz); rewrite Nat.sub_0_r in Hp;
       by eapply reap_steps.
  all: apply bind_Ok in H as (p & s1 & H1 & H); unfold the_proc in H1;
       destruct (ptable s !! c) as [p'|]; [|done]; injection H1 as <- <-;
       destruct (negb hk || _); [apply kin_steps; eapply quiet_run; [exact H|quiet]|].
  - done.
  - apply bind_Ok in H as ([] & s1 & H1 & H).
    apply (sleep_steps c) in H1 as [Hst Hcur1]; [|done..]. etrans; [exact Hst|].
    apply IH; [by eapply steps_inv|auto|done].
Qed.

Lemma yield_steps c s others u s' :
  resumes c others → table_inv (tview s) → current s c → yield others s = Ok (u, s') →
  rtc tstep (tview s) (tview s').
Proof.
  unfold yield. intros Hres Hinv Hcur H.
  apply bind_Ok in H as ([] & s1 & H1 & H).
  apply (acquire_current _ _ _ _ c) in H1 as Hcur1; [|done]. apply quiet_run in H1; [|quiet].
  apply bind_Ok in H as ([] & s2 & H2 & H). unfold upd_myproc in H2.
  apply bind_Ok in H2 as (r & s3 & H3 & H2). apply (myproc_current _ c) in H3 as [-> Hv]; [|done].
  apply bind_Ok in H2 as (c' & s4 & H4 & H2). injection H4 as <- <-.
  apply upd_proc_Ok in H2 as (p & Hp & ->).
  assert (Hl : live p) by (destruct Hcur1 as [_ (q & Hq & ?)]; injection Hv as Ht _ _; congruence).
  assert (Hst : rtc tstep (tview s) (tview (set_ptable (alter (set_state RUNNABLE) c (ptable s3)) s3))).
  { etrans; [by apply kin_steps|]. rewrite <- Hv. apply rtc_once. by apply (state_step _ _ p). }
  apply bind_Ok in H as (t & s5 & H5 & H). apply quiet_run in H5; [|quiet].
  apply bind_Ok in H as ([] & s6 & H6 & H). apply quiet_run in H6; [|unfold upd_myproc; quiet].
  apply bind_Ok in H as ([] & s7 & H7 & H). apply quiet_run in H7; [|unfold upd_myproc; quiet].
  apply bind_Ok in H as ([] & s8 & H8 & H).
  assert (Hst7 : rtc tstep (tview s) (tview s7)).
  { etrans; [exact Hst|]. apply kin_steps. etrans; [exact H5|]. etrans; [exact H6|exact H7]. }
  apply (sched_steps c) in H8 as [Hst8 _]; [|done|by eapply steps_inv].
  etrans; [exact Hst7|]. etrans; [exact Hst8|]. apply kin_steps. eapply quiet_run; [exact H|quiet].
Qed.

(** One table update between [acquire] and [release]. *)
Lemma locked_update_steps (f : list proc → list proc) s u s' :
  (∀ tbl n ip, tstep (TState tbl n ip) (TState (f tbl) n ip)) →
  (acquire core_l ptlock_l;; upd_table f;; release core_l ptlock_l) s = Ok (u, s') →
  rtc tstep (tview s) (tview s').
Proof.
  intros Hf H.
  apply bind_Ok in H as ([] & s1 & H1 & H). apply quiet_run in H1; [|quiet].
  apply bind_Ok in H as ([] & s2 & H2 & H). injection H2 as <-. apply quiet_run in H; [|quiet].
  etrans; [by apply kin_steps|]. eapply rtc_l; [apply Hf|]. by apply kin_steps in H.
Qed.

Lemma kill_steps s pd r s' : kill pd s = Ok (r, s') → rtc tstep (tview s) (tview s').
Proof.
  unfold kill. intros H.
  apply bind_Ok in H as ([] & s1 & H1 & H). apply quiet_run in H1; [|quiet].
  apply bind_Ok in H as (tbl & s2 & H2 & H). injection H2 as <- <-.
  apply bind_Ok in H as ([] & s2 & H2 & H). injection H2 as <-. apply quiet_run in H; [|quiet].
  etrans; [by apply kin_steps|]. eapply rtc_l; [apply (t_kill _ _ _ pd)|]. by apply kin_steps in H.
Qed.

(** *** No exit is missed *)

Definition asleep (ch : channel) (p : proc) : Prop := state p = SLEEPING ∧ chan p = ch.
Definition none_asleep (ch : channel) (tbl : list proc) : Prop :=
  ∀ j q, tbl !! j = Some q → ¬ asleep ch q.

Lemma wakeup1_none c tbl : none_asleep c (wakeup1 c tbl).
Proof.
  intros j q Hq [Hs Hc]. unfold wakeup1 in Hq. rewrite list_lookup_fmap in Hq.
  destruct (tbl !! j) as [p|]; [|done]. injection Hq as <-. unfold wake in *.
  destruct (is_state (state p) SLEEPING) eqn:Hp; cbn [andb] in *; [|by apply is_state_true in Hs; congruence].
  case_bool_decide; done.
Qed.
Lemma wakeup1_keeps c c' tbl : none_asleep c tbl → none_asleep c (wakeup1 c' tbl).
Proof.
  intros H j q Hq Ha. unfold wakeup1 in Hq. rewrite list_lookup_fmap in Hq.
  destruct (tbl !! j) as [p|] eqn:Hp; [|done]. injection Hq as <-. apply (H j p Hp).
  destruct Ha as [Hs Hc]. unfold wake in *. by destruct (_ && _).
Qed.
Lemma alter_keeps c f i tbl :
  (∀ p, asleep c (f p) → asleep c p) → none_asleep c tbl → none_asleep c (alter f i tbl).
Proof.
  intros Hf H j q Hq Ha. apply lookup_alter_cases in Hq as [(<- & p & Hp & ->)|[_ Hq]]; [|by apply (H j q)].
  apply (H i p Hp). by apply Hf.
Qed.
Lemma exit_none_asleep c par ip tbl : none_asleep (proc_chan par) (exit_tbl c par ip tbl).
Proof.
  unfold exit_tbl. apply alter_keeps; [by intros p [? _]|].
  generalize (wakeup1_none (proc_chan par) tbl). generalize (wakeup1 (proc_chan par) tbl) as t.
  generalize (seq 0 (length tbl)) as l. induction l as [|j l IH]; intros t Ht; simpl; [done|].
  apply IH. unfold reparent_tbl. destruct (t !! j); [|done]. case_bool_decide; [|done].
  assert (none_asleep (proc_chan par) (alter (set_parent ip) j t)) by (by apply alter_keeps).
  destruct (is_state _ _); [by apply wakeup1_keeps|done].
Qed.

(** C15: an exit is never missed.  The locked part of [exit] always completes;
    after it the process is a zombie that still carries its pid and its parent,
    nobody is left asleep waiting for that parent's children, the parent's next
    scan in [wait] finds a zombie, and no process still has the exiting one as
    its parent. *)
Theorem exit_not_missed s c p par
    (Hp : ptable s !! c = Some p) (Hpar : parent p = Some par) (Hne : par ≠ c)
    (Hip : initproc s ≠ Some c) :
  ∃ s', exit_locked c s = Ok (tt, s') ∧
    (∃ q, ptable s' !! c = Some q ∧ state q = ZOMBIE ∧ pid q = pid p ∧ parent q = Some par) ∧
    (∀ j q, ptable s' !! j = Some q → ¬ (state q = SLEEPING ∧ chan q = ChProc par)) ∧
    (∃ i k, wait_scan par (ptable s') 0 false = (Some i, k)) ∧
    (∀ j q, ptable s' !! j = Some q → parent q ≠ Some c).
Proof.
  eexists. split; [by apply exit_locked_run|]. rewrite Hpar.
  destruct (exit_tbl_lookup c (Some par) (initproc s) (ptable s) c p Hp) as (q & Hq & Hpid & Hqp & Hz).
  rewrite decide_True in Hz by done.
  rewrite Hpar, bool_decide_eq_false_2 in Hqp by congruence. split_and!.
  - by exists q.
  - apply (exit_none_asleep c (Some par)).
  - simpl. destruct (wait_scan par _ 0 false) as [[i|] k] eqn:Hw; [by eauto|].
    by destruct (wait_scan_None _ _ _ _ _ Hw c q Hq Hqp).
  - intros j r Hr. simpl in Hr. apply exit_tbl_lookup_inv in Hr as (r0 & _ & _ & -> & _).
    case_bool_decide; congruence.
Qed.

(** C14: the operations of the kernel follow the life cycle.  From a reachable
    table, with process [c] running on this CPU, every completed [fork],
    [exit] (up to the final switch), [wait], [yield], [sleep], [kill], [wakeup]
    and [wakeup_pl] leaves a reachable table, hence one with the invariant,
    whatever the memory, file and console services do and whatever other
    processes do while [c] is switched out. *)
Theorem operations_follow_life_cycle s c
    (Hs : treach (tview s)) (Hn : nextpid s < 2^31 - 1) (Hcur : current s c)
    (Hip : is_Some (initproc s)) :
  (∀ r s', fork trapret forkret_entry s = Ok (r, s') → treach (tview s')) ∧
  (∀ c' s', exit_begin s = Ok (c', s') → treach (tview s')) ∧
  (∀ others r s', Forall (resumes c) others → wait others s = Ok (r, s') → treach (tview s')) ∧
  (∀ others u s', resumes c others → yield others s = Ok (u, s') → treach (tview s')) ∧
  (∀ others ch lk u s', match lk with LkOther l => QuietLens l | _ => True end →
     resumes c others → sleep others ch lk s = Ok (u, s') → treach (tview s')) ∧
  (∀ pd r s', kill pd s = Ok (r, s') → treach (tview s')) ∧
  (∀ ch u s', wakeup ch s = Ok (u, s') → treach (tview s')) ∧
  (∀ ch u s', wakeup_pl ch s = Ok (u, s') → treach (tview s')).
Proof.
  pose proof (treach_inv _ Hs) as Hinv. unfold treach in *. split_and!.
  - intros r s' H. etrans; [exact Hs|by eapply fork_steps].
  - intros c' s' H. etrans; [exact Hs|]. by destruct (exit_begin_steps s c c' s' H) as (_ & ? & _).
  - intros others r s' ? H. etrans; [exact Hs|by eapply wait_steps].
  - intros others u s' ? H. etrans; [exact Hs|by eapply yield_steps].
  - intros others ch lk u s' ? ? H. etrans; [exact Hs|]. by apply (sleep_steps c) in H as [? _].
  - intros pd r s' H. etrans; [exact Hs|by eapply kill_steps].
  - intros ch u s' H. etrans; [exact Hs|]. eapply locked_update_steps; [|exact H]. intros; apply t_wakeup.
  - intros ch u s' H. etrans; [exact Hs|]. eapply locked_update_steps; [|exact H]. intros; apply t_wakeup_pl.
Qed.
End Operations.

(** ** A concrete system

    One CPU running init, process 0; kernel memory as the only environment,
    pages handed out at a fixed address. *)
Definition plain_services_on {E} (l : lens E mem) : Services E := {|
  sv_mem := l;
  sv_kalloc := mret 0x80400000;
  sv_kfree _ := mret tt;
  sv_setupkvm := mret 0x80401000;
  sv_inituvm _ := mret tt;
  sv_copyuvm _ _ := mret 0x80402000;
  sv_freevm _ := mret tt;
  sv_allocuvm _ _ n := mret n;
  sv_deallocuvm _ _ n := mret n;
  sv_switchuvm _ := mret tt;
  sv_switchkvm := mret tt;
  sv_shared_memory_init := mret tt;
  sv_init_priority := mret tt;
  sv_filedup f := mret f;
  sv_fileclose _ := mret tt;
  sv_idup i := mret i;
  sv_iput _ := mret tt;
  sv_namei _ := mret 0x80110000;
  sv_begin_op := mret tt;
  sv_end_op := mret tt;
  sv_iinit := mret tt;
  sv_initlog := mret tt;
  sv_cprintf _ _ := mret tt;
|}.
Definition plain_services : Services mem := plain_services_on (Lens id (λ m _, m)).
Definition init_entry : proc :=
  set_sz 4096 (set_pid 1 (set_state RUNNABLE (set_que_id RR proc0))).
Definition init_running : pst mem :=
  Pst {| cpus := [Cpu 0 0 false (Some 0%nat) true]; me := 0 |} (initlock "ptable")
    (init_entry :: replicate 63 proc0) 2 (Some 0%nat) 100 (initlock "time") true (λ _, 1).

Lemma init_running_reach : treach (tview init_running).
Proof.
  unfold treach.
  eapply rtc_l; [apply (t_alloc _ _ _ 0%nat proc0); [done|done|lia]|].
  eapply rtc_l; [by eapply (t_set_init _ _ 0%nat)|].
  eapply rtc_l; [eapply (t_ready _ _ _ 0%nat); [done|done|by right]|].
  apply rtc_once. apply t_local. repeat (constructor; [by repeat split|]). constructor.
Qed.

Lemma operations_follow_life_cycle_witness :
  ∃ s', fork (Services0 := plain_services) 0x80100000 0x80100100 init_running = Ok (2, s') ∧ treach (tview s').
Proof.
  destruct (fork (Services0 := plain_services) 0x80100000 0x80100100 init_running) as [[r s']| | |] eqn:Hf.
  2-4: exfalso; vm_compute in Hf; discriminate Hf.
  exists s'. split; [f_equal; f_equal; vm_compute in Hf; injection Hf as Hf _; symmetry; exact Hf|].
  refine (proj1 (operations_follow_life_cycle (Services0 := plain_services) 0x80100000 0x80100100
    init_running 0%nat init_running_reach _ _ _) r s' Hf).
  - reflexivity.
  - split.
    + exists (Cpu 0 0 false (Some 0%nat) true). repeat split; discriminate.
    + exists init_entry. repeat split; discriminate.
  - exists 0%nat. reflexivity.
Defined.

Lemma exit_not_missed_witness :
  let child := set_parent (Some 0%nat) (set_pid 2 (set_state RUNNING proc0)) in
  let s := set_ptable (init_entry :: child :: replicate 62 proc0) init_running in
  ∃ s', exit_locked 1%nat s = Ok (tt, s') ∧ ∃ i k, wait_scan 0 (ptable s') 0 false = (Some i, k).
Proof.
  cbn zeta.
  destruct (exit_not_missed (set_ptable (init_entry ::
    set_parent (Some 0%nat) (set_pid 2 (set_state RUNNING proc0)) :: replicate 62 proc0) init_running)
    1%nat (set_parent (Some 0%nat) (set_pid 2 (set_state RUNNING proc0))) 0%nat
    ltac:(reflexivity) ltac:(reflexivity) ltac:(discriminate) ltac:(discriminate)) as (s' & H & _ & _ & Hw & _).
  exists s'. split; [exact H|exact Hw].
Defined.
