(* ===== verification/Bio.v ===== *)
(** * Disk and buffer cache

    [bio.c] over the disk driver [memide.c], whose requests complete at once.
    The state keeps the history of block writes, which is what a crash cuts
    short.  The theorems relate the cache to the disk: [bread] shows the latest
    contents of a block, nothing reaches the disk before [bwrite], a dirty
    buffer is never recycled, and the cache finds a buffer as long as one is
    neither in use nor dirty.

    Each routine is the critical section its spin lock makes of it, so
    [bcache.lock] itself is not part of the state. *)

From S2P Require Import Prelude Machine.
Local Open Scope Z_scope.

(** The contents of a disk block: [BSIZE] bytes. *)
Abbreviation blk := (list Z).

(** ** Data *)

Definition BSIZE : Z := 512.
Definition B_VALID : Z := 0x2.
Definition B_DIRTY : Z := 0x4.

(** [struct buf]; [slock] is the pid holding the buffer's sleep lock.  The list
    pointers are the cache's [mru]. *)
Record buf := Buf {
  flags : Z;
  bdev : Z;
  blockno : Z;
  slock : option Z;
  refcnt : Z;
  data : blk;
}.
Definition buf0 : buf := Buf 0 0 0 None 0 (replicate 512 0).
Definition set_flags (f : Z) (b : buf) : buf := Buf f (bdev b) (blockno b) (slock b) (refcnt b) (data b).
Definition set_slock (l : option Z) (b : buf) : buf := Buf (flags b) (bdev b) (blockno b) l (refcnt b) (data b).
Definition set_refcnt (r : Z) (b : buf) : buf := Buf (flags b) (bdev b) (blockno b) (slock b) r (data b).
Definition set_data (d : blk) (b : buf) : buf := Buf (flags b) (bdev b) (blockno b) (slock b) (refcnt b) d.

(** [bcache]: the buffers, and their order from [head.next] (most recently
    used) to [head.prev]; the disk, its size, its write history; the pid of the
    running process. *)
Record bst := Bst {
  bufs : list buf;
  mru : list nat;
  disk : Z → blk;
  disksize : Z;
  writes : list (Z * blk);
  curpid : Z;
}.
Definition set_bufs (l : list buf) (s : bst) : bst := Bst l (mru s) (disk s) (disksize s) (writes s) (curpid s).
Definition set_mru (l : list nat) (s : bst) : bst := Bst (bufs s) l (disk s) (disksize s) (writes s) (curpid s).
(** One sector reaches the disk. *)
Definition disk_write (n : Z) (d : blk) (s : bst) : bst :=
  Bst (bufs s) (mru s) (λ x, if x =? n then d else disk s x) (disksize s) (writes s ++ [(n, d)]) (curpid s).

(** ** Operations *)

Definition the_buf (i : nat) : M bst buf := λ s,
  match bufs s !! i with Some b => Ok (b, s) | None => Fault "buf" end.
Definition upd_buf (i : nat) (f : buf → buf) : M bst unit := modify (λ s, set_bufs (alter f i (bufs s)) s).

(** [acquiresleep(&b->lock)]: waits while the lock is taken. *)
Definition buf_acquire (i : nat) : M bst unit :=
  b ← the_buf i;
  match slock b with
  | Some _ => block
  | None => p ← gets curpid; upd_buf i (set_slock (Some p))
  end.
(** [holdingsleep(&b->lock)] *)
Definition buf_holding (i : nat) : M bst bool :=
  b ← the_buf i;
  p ← gets curpid;
  mret (bool_decide (slock b = Some p)).

(** [memide.c] *)
Definition iderw (i : nat) : M bst unit :=
  h ← buf_holding i;
  if negb h then panic "iderw: buf not locked" else
  b ← the_buf i;
  if Z.land (flags b) (Z.lor B_VALID B_DIRTY) =? B_VALID then panic "iderw: nothing to do" else
  if negb (bdev b =? 1) then panic "iderw: request not for disk 1" else
  size ← gets disksize;
  if size <=? blockno b then panic "iderw: block out of range" else
  (if negb (Z.land (flags b) B_DIRTY =? 0) then
     upd_buf i (set_flags (Z.land (flags b) (Z.lnot B_DIRTY)));;
     modify (disk_write (blockno b) (data b))
   else
     d ← gets disk; upd_buf i (set_data (d (blockno b))));;
  b ← the_buf i;
  upd_buf i (set_flags (Z.lor (flags b) B_VALID)).

(** [binit]: each buffer in turn becomes the head of the list. *)
Definition binit : M bst unit :=
  modify (λ s, set_mru (foldl (λ l i, i :: l) [] (seq 0 (length (bufs s)))) s).

Definition cached (dev n : Z) (s : bst) (i : nat) : bool :=
  match bufs s !! i with Some b => (bdev b =? dev) && (blockno b =? n) | None => false end.
Definition recyclable (s : bst) (i : nat) : bool :=
  match bufs s !! i with
  | Some b => (refcnt b =? 0) && (Z.land (flags b) B_DIRTY =? 0)
  | None => false
  end.

Definition bget (dev n : Z) : M bst nat :=
  s ← get;
  match List.find (cached dev n s) (mru s) with
  | Some i =>
      upd_buf i (λ b, set_refcnt (wrap32 (refcnt b + 1)) b);;
      buf_acquire i;;
      mret i
  | None =>
      match List.find (recyclable s) (reverse (mru s)) with
      | Some i =>
          upd_buf i (λ b, Buf 0 dev n (slock b) 1 (data b));;
          buf_acquire i;;
          mret i
      | None => panic "bget: no buffers"
      end
  end.

Definition bread (dev n : Z) : M bst nat :=
  i ← bget dev n;
  b ← the_buf i;
  whenM (Z.land (flags b) B_VALID =? 0) (iderw i);;
  mret i.

Definition bwrite (i : nat) : M bst unit :=
  h ← buf_holding i;
  if negb h then panic "bwrite" else
  upd_buf i (λ b, set_flags (Z.lor (flags b) B_DIRTY) b);;
  iderw i.

Definition brelse (i : nat) : M bst unit :=
  h ← buf_holding i;
  if negb h then panic "brelse" else
  upd_buf i (set_slock None);;
  upd_buf i (λ b, set_refcnt (wrap32 (refcnt b - 1)) b);;
  b ← the_buf i;
  whenM (refcnt b =? 0)
    (modify (λ s, set_mru (i :: filter (λ j, j ≠ i) (mru s)) s)).

(** [memmove(b->data, d, BSIZE)] *)
Definition fill (i : nat) (d : blk) : M bst unit := upd_buf i (set_data d).

(** ** What the cache shows *)

Definition dirty (b : buf) : bool := negb (Z.land (flags b) B_DIRTY =? 0).
Definition ndirty (s : bst) : nat := length (filter (λ b, dirty b = true) (bufs s)).
(** Buffer [i] caches block [n] of the disk. *)
Definition caches (s : bst) (i : nat) (n : Z) (b : buf) : Prop :=
  bufs s !! i = Some b ∧ bdev b = 1 ∧ blockno b = n.
(** The current contents of block [n]: the cached copy, else the disk. *)
Definition content (s : bst) (n : Z) : blk :=
  match List.find (cached 1 n s) (seq 0 (length (bufs s))) with
  | Some i => match bufs s !! i with Some b => data b | None => disk s n end
  | None => disk s n
  end.
Definition is_dirty (s : bst) (n : Z) : Prop := ∃ i b, caches s i n b ∧ dirty b = true.

(** The cache invariant, with the buffers [held] by the running process. *)
Record cache_inv (s : bst) (held : list nat) : Prop := {
  ci_mru : mru s ≡ₚ seq 0 (length (bufs s));
  ci_dev : ∀ i b, bufs s !! i = Some b →
    (bdev b = 1 ∧ (flags b = 2 ∨ flags b = 6) ∧ 0 ≤ blockno b < disksize s) ∨ (bdev b = 0 ∧ flags b = 0);
  ci_uniq : ∀ i j n b c, caches s i n b → caches s j n c → i = j;
  ci_clean : ∀ i n b, caches s i n b → flags b = 2 → data b = disk s n;
  ci_held : ∀ i b, bufs s !! i = Some b →
    (i ∈ held ∧ slock b = Some (curpid s) ∧ refcnt b = 1) ∨ (i ∉ held ∧ slock b = None ∧ refcnt b = 0);
  ci_held_in : ∀ i, i ∈ held → is_Some (bufs s !! i);
}.

Lemma cached_true dev n s i :
  cached dev n s i = true ↔ ∃ b, bufs s !! i = Some b ∧ bdev b = dev ∧ blockno b = n.
Proof.
  unfold cached. destruct (bufs s !! i) as [b|]; [|naive_solver].
  rewrite andb_true_iff, !Z.eqb_eq. naive_solver.
Qed.
Lemma cached_caches n s i : cached 1 n s i = true ↔ ∃ b, caches s i n b.
Proof. apply cached_true. Qed.

Lemma content_cached s i n b :
  (∀ j c, caches s j n c → j = i) → caches s i n b → content s n = data b.
Proof.
  intros Hu Hc. unfold content. destruct (List.find _ _) as [j|] eqn:Hf.
  - apply find_some in Hf as [_ Hj]. apply cached_caches in Hj as (c & Hc').
    rewrite (Hu j c Hc') in *. destruct Hc' as [H1 _], Hc as [H2 _]. rewrite H2. congruence.
  - pose proof (find_none _ _ Hf i) as Hn. rewrite (proj2 (cached_caches n s i)) in Hn by eauto.
    discriminate Hn. apply in_seq. destruct Hc as [Hi _]. apply lookup_lt_Some in Hi. lia.
Qed.
Lemma content_uncached s n : (∀ j c, ¬ caches s j n c) → content s n = disk s n.
Proof.
  intros Hn. unfold content. destruct (List.find _ _) as [j|] eqn:Hf; [|done].
  apply find_some in Hf as [_ Hj]. apply cached_caches in Hj as (c & Hc). by destruct (Hn j c).
Qed.
(** One of the two cases applies. *)
Lemma caches_dec s n : (∃ i b, caches s i n b) ∨ (∀ j c, ¬ caches s j n c).
Proof.
  destruct (List.find (cached 1 n s) (seq 0 (length (bufs s)))) as [j|] eqn:Hf.
  - left. apply find_some in Hf as [_ Hj]. apply cached_caches in Hj as (c & Hc). eauto.
  - right. intros j c Hc. pose proof (find_none _ _ Hf j) as Hn.
    rewrite (proj2 (cached_caches n s j)) in Hn by eauto. discriminate Hn.
    apply in_seq. destruct Hc as [Hi _]. apply lookup_lt_Some in Hi. lia.
Qed.

(** ** Replacing one buffer *)

Definition put_buf (i : nat) (b : buf) (s : bst) : bst := set_bufs (<[i := b]> (bufs s)) s.

Lemma put_buf_caches s i b j n c :
  is_Some (bufs s !! i) →
  caches (put_buf i b s) j n c ↔
  (j = i ∧ c = b ∧ bdev b = 1 ∧ blockno b = n) ∨ (j ≠ i ∧ caches s j n c).
Proof.
  intros [b0 Hb]. unfold caches, put_buf; simpl. destruct (decide (j = i)) as [->|Hne].
  - rewrite list_lookup_insert_eq by by eapply lookup_lt_Some. naive_solver.
  - rewrite list_lookup_insert_ne by done. naive_solver.
Qed.
Lemma put_buf_lookup s i b j c :
  is_Some (bufs s !! i) →
  bufs (put_buf i b s) !! j = Some c ↔ (j = i ∧ c = b) ∨ (j ≠ i ∧ bufs s !! j = Some c).
Proof.
  intros [b0 Hb]. unfold put_buf; simpl. destruct (decide (j = i)) as [->|Hne].
  - rewrite list_lookup_insert_eq by by eapply lookup_lt_Some. naive_solver.
  - rewrite list_lookup_insert_ne by done. naive_solver.
Qed.
Lemma put_put i b c s : put_buf i b (put_buf i c s) = put_buf i b s.
Proof. unfold put_buf, set_bufs; simpl. by rewrite list_insert_insert_eq. Qed.
Lemma upd_buf_put i f b s : bufs s !! i = Some b → upd_buf i f s = Ok (tt, put_buf i (f b) s).
Proof.
  intros Hb. unfold upd_buf, modify, put_buf. do 3 f_equal.
  apply list_eq. intros j. destruct (decide (i = j)) as [<-|Hne].
  - rewrite list_lookup_alter_eq, Hb, list_lookup_insert_eq by by eapply lookup_lt_Some. done.
  - by rewrite list_lookup_alter_ne, list_lookup_insert_ne.
Qed.
Lemma put_buf_self s i b : is_Some (bufs s !! i) → bufs (put_buf i b s) !! i = Some b.
Proof. intros H. apply put_buf_lookup; auto. Qed.

Lemma ndirty_put s i b c :
  bufs s !! i = Some c →
  (ndirty (put_buf i b s) + Nat.b2n (dirty c) = ndirty s + Nat.b2n (dirty b))%nat.
Proof.
  unfold ndirty, put_buf; simpl. generalize (bufs s) as l. intros l. revert i.
  induction l as [|x l IH]; intros [|i] H; simplify_eq/=.
  - rewrite !filter_cons. destruct (dirty c), (dirty b); simpl; lia.
  - specialize (IH i H). rewrite !filter_cons. destruct (decide _); simpl; lia.
Qed.

Lemma inv_put s held held' i b b' :
  cache_inv s held → bufs s !! i = Some b →
  ((bdev b' = 1 ∧ (flags b' = 2 ∨ flags b' = 6) ∧ 0 ≤ blockno b' < disksize s) ∨ (bdev b' = 0 ∧ flags b' = 0)) →
  (bdev b' = 1 → ∀ j c, j ≠ i → ¬ caches s j (blockno b') c) →
  (bdev b' = 1 → flags b' = 2 → data b' = disk s (blockno b')) →
  ((i ∈ held' ∧ slock b' = Some (curpid s) ∧ refcnt b' = 1) ∨ (i ∉ held' ∧ slock b' = None ∧ refcnt b' = 0)) →
  (∀ j, j ≠ i → j ∈ held' ↔ j ∈ held) →
  cache_inv (put_buf i b' s) held'.
Proof.
  intros [Hm Hd Hu Hc Hh Hi] Hb Hd' Hu' Hc' Hh' He.
  assert (Hs : is_Some (bufs s !! i)) by eauto.
  constructor.
  - simpl. by rewrite length_insert.
  - intros j c Hj. apply put_buf_lookup in Hj as [[-> ->]|[? ?]]; [done| |done]. by eapply Hd.
  - intros j k n c d Hj Hk. rewrite put_buf_caches in Hj, Hk by done.
    destruct Hj as [(-> & -> & H1 & H2)|[? Hj]], Hk as [(-> & -> & H3 & H4)|[? Hk]]; [done|..].
    + exfalso. by apply (Hu' H1 k d); [|rewrite H2].
    + exfalso. by apply (Hu' H3 j c); [|rewrite H4].
    + by eapply Hu.
  - intros j n c Hj. rewrite put_buf_caches in Hj by done.
    destruct Hj as [(-> & -> & H1 & <-)|[? Hj]]; [by apply Hc'|by eapply Hc].
  - intros j c Hj. apply put_buf_lookup in Hj as [[-> ->]|[? ?]]; [done| |done].
    rewrite He by done. by eapply Hh.
  - intros j Hj. destruct (decide (j = i)) as [->|Hne]; [by rewrite put_buf_self; eauto|].
    simpl. rewrite list_lookup_insert_ne by done. apply Hi. by apply He.
Qed.

Lemma content_put s held i b b' n :
  cache_inv s held → bufs s !! i = Some b →
  (bdev b' = 1 → ∀ j c, j ≠ i → ¬ caches s j (blockno b') c) →
  content (put_buf i b' s) n =
    if bool_decide (bdev b' = 1 ∧ blockno b' = n) then data b'
    else if bool_decide (bdev b = 1 ∧ blockno b = n) then disk s n else content s n.
Proof.
  intros Hinv Hb Hu. assert (Hs : is_Some (bufs s !! i)) by eauto.
  case_bool_decide as H1; [|case_bool_decide as H2].
  - destruct H1 as [H1 <-]. apply (content_cached _ i); [|by apply put_buf_caches; auto].
    intros j c Hj. apply put_buf_caches in Hj as [[-> _]|[Hne Hj]]; [done| |done].
    by destruct (Hu H1 j c Hne Hj).
  - rewrite content_uncached; [done|]. intros j c Hj.
    apply put_buf_caches in Hj as [(-> & -> & ? & ?)|[Hne Hj]]; [naive_solver| |done].
    apply Hne. destruct H2 as [H2 <-]. by eapply (ci_uniq _ _ Hinv j i).
  - destruct (caches_dec s n) as [(j & c & Hj)|Hno].
    + assert (j ≠ i) by (intros ->; destruct Hj as (? & ? & ?); naive_solver).
      rewrite (content_cached s j n c); [|intros; by eapply (ci_uniq _ _ Hinv)|done].
      apply (content_cached _ j); [|by apply put_buf_caches; auto].
      intros k d Hk. apply put_buf_caches in Hk as [(-> & -> & ? & ?)|[Hne Hk]]; [naive_solver| |done].
      by eapply (ci_uniq _ _ Hinv).
    + rewrite (content_uncached s n Hno), content_uncached; [done|]. intros k d Hk.
      apply put_buf_caches in Hk as [(-> & -> & ? & ?)|[Hne Hk]]; [naive_solver| |done]. by eapply Hno.
Qed.

Lemma dirty_6 b : flags b = 6 → dirty b = true.
Proof. unfold dirty. by intros ->. Qed.
Lemma dirty_2 b : flags b = 2 → dirty b = false.
Proof. unfold dirty. by intros ->. Qed.
Lemma dirty_0 b : flags b = 0 → dirty b = false.
Proof. unfold dirty. by intros ->. Qed.

(** Everything visible of the cache and the disk is unchanged. *)
Record same_view (s s' : bst) : Prop := {
  sv_disk : disk s' = disk s;
  sv_size : disksize s' = disksize s;
  sv_writes : writes s' = writes s;
  sv_pid : curpid s' = curpid s;
  sv_content : ∀ n, content s' n = content s n;
  sv_dirty : ∀ n, is_dirty s' n ↔ is_dirty s n;
  sv_ndirty : ndirty s' = ndirty s;
  sv_length : length (bufs s') = length (bufs s);
}.

(** Changing lock and reference count only. *)
Lemma same_view_lock s held i b l r :
  cache_inv s held → bufs s !! i = Some b → same_view s (put_buf i (set_slock l (set_refcnt r b)) s).
Proof.
  intros Hinv Hb. assert (Hs : is_Some (bufs s !! i)) by eauto.
  constructor; try done.
  - intros n. rewrite (content_put s held i b) by (try done; intros H1 j c Hne Hc; apply Hne;
      by eapply (ci_uniq _ _ Hinv j i)). simpl.
    case_bool_decide as H1; [|done]. destruct H1 as [H1 <-]. symmetry.
    apply (content_cached _ i); [intros; by eapply (ci_uniq _ _ Hinv)|done].
  - intros n. unfold is_dirty. split.
    + intros (j & c & Hj & Hd). apply put_buf_caches in Hj as [(-> & -> & ? & ?)|[? ?]]; [by exists i, b|eauto|done].
    + intros (j & c & Hj & Hd). destruct (decide (j = i)) as [->|Hne].
      * exists i, (set_slock l (set_refcnt r b)). destruct Hj as (? & ? & ?). simplify_eq.
        split; [|done]. apply put_buf_caches; auto.
      * exists j, c. split; [|done]. apply put_buf_caches; auto.
  - pose proof (ndirty_put s i (set_slock l (set_refcnt r b)) b Hb) as H. unfold dirty in *. simpl in *. lia.
  - simpl. by rewrite length_insert.
Qed.

Lemma same_view_mru s l : same_view s (set_mru l s).
Proof. by constructor. Qed.
Global Instance same_view_trans : Transitive same_view.
Proof.
  intros s1 s2 s3 [] []. constructor; intros; try congruence.
  by rewrite sv_dirty1.
Qed.

(** ** [bread], [bwrite], [brelse] *)

Lemma filter_ge_step (held : list nat) k :
  k ∈ held → (S (length (filter (λ j, S k ≤ j) held)) ≤ length (filter (λ j, k ≤ j) held))%nat.
Proof.
  induction held as [|x l IH]; intros Hk; [by apply not_elem_of_nil in Hk|].
  assert (length (filter (λ j, S k ≤ j) l) ≤ length (filter (λ j, k ≤ j) l))%nat.
  { clear. induction l as [|y l IH]; [done|]. rewrite !filter_cons.
    destruct (decide (S k ≤ y)%nat), (decide (k ≤ y)%nat); simpl; lia. }
  rewrite !filter_cons. apply elem_of_cons in Hk as [->|Hk].
  - rewrite decide_False, decide_True by lia. simpl. lia.
  - specialize (IH Hk). destruct (decide (S k ≤ x)%nat), (decide (k ≤ x)%nat); simpl; lia.
Qed.
Lemma busy_count (l : list buf) (held : list nat) k :
  (∀ i b, l !! i = Some b → dirty b = true ∨ (k + i)%nat ∈ held) →
  (length l ≤ length (filter (λ b, dirty b = true) l) + length (filter (λ j, k ≤ j) held))%nat.
Proof.
  revert k. induction l as [|b l IH]; intros k H; simpl; [lia|].
  assert (Hl : ∀ i c, l !! i = Some c → dirty c = true ∨ (S k + i)%nat ∈ held).
  { intros i c Hc. replace (S k + i)%nat with (k + S i)%nat by lia. by apply H. }
  specialize (IH (S k) Hl). rewrite filter_cons. destruct (H 0%nat b eq_refl) as [Hd|Hk].
  - rewrite decide_True by done. simpl.
    assert (length (filter (λ j, S k ≤ j) held) ≤ length (filter (λ j, k ≤ j) held))%nat; [|lia].
    clear. induction held as [|y l IH]; [done|]. rewrite !filter_cons.
    destruct (decide (S k ≤ y)%nat), (decide (k ≤ y)%nat); simpl; lia.
  - rewrite Nat.add_0_r in Hk. apply filter_ge_step in Hk.
    destruct (decide _); simpl; lia.
Qed.

Lemma free_buffer s held :
  cache_inv s held → (ndirty s + length held < length (bufs s))%nat →
  ∃ i, List.find (recyclable s) (reverse (mru s)) = Some i.
Proof.
  intros Hinv Hroom. destruct (List.find _ _) as [i|] eqn:Hf; [by eauto|].
  exfalso. pose proof (find_none _ _ Hf) as Hn.
  assert (Hbusy : ∀ i b, bufs s !! i = Some b → dirty b = true ∨ (0 + i)%nat ∈ held).
  { intros i b Hb. specialize (Hn i).
    assert (In i (reverse (mru s))) as Hin.
    { apply list_elem_of_In, elem_of_reverse. rewrite (ci_mru _ _ Hinv). apply elem_of_seq.
      apply lookup_lt_Some in Hb. lia. }
    specialize (Hn Hin). unfold recyclable in Hn. rewrite Hb in Hn. unfold dirty.
    destruct (ci_held _ _ Hinv i b Hb) as [(? & _)|(_ & _ & Hr)]; [by right|left].
    rewrite Hr in Hn. simpl in Hn. by rewrite Hn. }
  pose proof (busy_count _ _ _ Hbusy) as Hc. unfold ndirty in Hroom.
  pose proof (length_filter (λ j, 0 ≤ j)%nat held). lia.
Qed.

Lemma buf_acquire_ok s i b :
  bufs s !! i = Some b → slock b = None →
  buf_acquire i s = Ok (tt, put_buf i (set_slock (Some (curpid s)) b) s).
Proof.
  intros Hb Hl. unfold buf_acquire, the_buf. erewrite bind_Ok_l by by rewrite Hb.
  rewrite Hl. erewrite bind_Ok_l by reflexivity. by apply upd_buf_put.
Qed.
Lemma buf_holding_ok s i b :
  bufs s !! i = Some b → buf_holding i s = Ok (bool_decide (slock b = Some (curpid s)), s).
Proof. intros Hb. unfold buf_holding, the_buf. erewrite bind_Ok_l by by rewrite Hb. done. Qed.
Lemma the_buf_ok s i b : bufs s !! i = Some b → the_buf i s = Ok (b, s).
Proof. intros Hb. unfold the_buf. by rewrite Hb. Qed.

Lemma iderw_read s i b :
  bufs s !! i = Some b → slock b = Some (curpid s) → flags b = 0 → bdev b = 1 →
  blockno b < disksize s →
  iderw i s = Ok (tt, put_buf i (set_flags 2 (set_data (disk s (blockno b)) b)) s).
Proof.
  intros Hb Hl Hf Hd Hn. unfold iderw.
  erewrite bind_Ok_l by by apply buf_holding_ok. rewrite Hl, bool_decide_eq_true_2 by done. cbn [negb].
  erewrite bind_Ok_l by by apply the_buf_ok. rewrite Hf, Hd.
  change (Z.land 0 (Z.lor B_VALID B_DIRTY) =? B_VALID) with false. cbn beta iota.
  change (negb (1 =? 1)) with false. cbn beta iota.
  erewrite bind_Ok_l by reflexivity. rewrite (proj2 (Z.leb_gt _ _)) by done.
  change (negb (Z.land 0 B_DIRTY =? 0)) with false. cbn beta iota.
  erewrite bind_Ok_l.
  2:{ erewrite bind_Ok_l by reflexivity. by apply upd_buf_put. }
  erewrite bind_Ok_l by (apply the_buf_ok, put_buf_self; eauto).
  erewrite upd_buf_put by (apply put_buf_self; eauto). rewrite put_put. simpl. by rewrite Hf.
Qed.
Lemma iderw_write s i b :
  bufs s !! i = Some b → slock b = Some (curpid s) → flags b = 6 → bdev b = 1 →
  blockno b < disksize s →
  iderw i s = Ok (tt, disk_write (blockno b) (data b) (put_buf i (set_flags 2 b) s)).
Proof.
  intros Hb Hl Hf Hd Hn. unfold iderw.
  erewrite bind_Ok_l by by apply buf_holding_ok. rewrite Hl, bool_decide_eq_true_2 by done. cbn [negb].
  erewrite bind_Ok_l by by apply the_buf_ok. rewrite Hf, Hd.
  change (Z.land 6 (Z.lor B_VALID B_DIRTY) =? B_VALID) with false. cbn beta iota.
  change (negb (1 =? 1)) with false. cbn beta iota.
  erewrite bind_Ok_l by reflexivity. rewrite (proj2 (Z.leb_gt _ _)) by done.
  change (negb (Z.land 6 B_DIRTY =? 0)) with true. cbn beta iota.
  erewrite bind_Ok_l.
  2:{ erewrite bind_Ok_l by by apply upd_buf_put. reflexivity. }
  erewrite bind_Ok_l by (apply the_buf_ok; simpl; apply (put_buf_self s); eauto).
  erewrite upd_buf_put by (simpl; apply (put_buf_self s); eauto).
  unfold put_buf, disk_write, set_bufs; simpl. by rewrite list_insert_insert_eq.
Qed.

Lemma wrap32_small r : 0 ≤ r < 2^32 → wrap32 r = r.
Proof. intros. unfold wrap32. by apply Z.mod_small. Qed.

(** The buffer a [bread] of block [n] returns, locked. *)
Definition reads (s : bst) (held : list nat) (n : Z) (i : nat) (s' : bst) : Prop :=
  cache_inv s' (i :: held) ∧ same_view s s' ∧ i ∉ held ∧
  (∃ b, caches s' i n b ∧ data b = content s n) ∧
  (∀ j, j ∈ held → bufs s' !! j = bufs s !! j).

Lemma bread_hit s held i n b :
  cache_inv s held → caches s i n b → i ∉ held → List.find (cached 1 n s) (mru s) = Some i →
  ∃ s', bread 1 n s = Ok (i, s') ∧ reads s held n i s'.
Proof.
  intros Hinv Hc Hi Hf. pose proof Hc as (Hb & Hd & Hn).
  destruct (ci_held _ _ Hinv i b Hb) as [[? _]|(_ & Hl & Hr)]; [done|].
  set (b1 := set_slock (Some (curpid s)) (set_refcnt 1 b)).
  exists (put_buf i b1 s). split.
  - unfold bread, bget. erewrite bind_Ok_l.
    2:{ erewrite bind_Ok_l by reflexivity. rewrite Hf.
        erewrite bind_Ok_l by by apply upd_buf_put.
        erewrite bind_Ok_l; [reflexivity|].
        rewrite (buf_acquire_ok _ i (set_refcnt (wrap32 (refcnt b + 1)) b)) by (try apply put_buf_self; eauto).
        rewrite put_put. reflexivity. }
    rewrite Hr. change (wrap32 (0 + 1)) with 1. simpl. fold b1.
    erewrite bind_Ok_l by (apply the_buf_ok, put_buf_self; eauto).
    destruct (ci_dev _ _ Hinv i b Hb) as [(_ & [Hfl|Hfl] & _)|[? _]]; [..|congruence];
      simpl; rewrite Hfl; reflexivity.
  - split_and!; [|by eapply same_view_lock|done| |].
    + eapply inv_put; [done|done|..]; simpl.
      * by eapply ci_dev.
      * intros _ j c Hne Hj. apply Hne. by eapply (ci_uniq _ _ Hinv j i).
      * intros _ Hf2. by eapply (ci_clean _ _ Hinv).
      * left. split_and!; [set_solver|done|done].
      * set_solver.
    + exists b1. split; [apply put_buf_caches; eauto|]. simpl. symmetry.
      apply (content_cached _ i); [intros; by eapply (ci_uniq _ _ Hinv)|done].
    + intros j Hj. simpl. rewrite list_lookup_insert_ne; [done|]. set_solver.
Qed.

Lemma bread_miss s held i n :
  cache_inv s held → 0 ≤ n < disksize s → (∀ j c, ¬ caches s j n c) →
  List.find (cached 1 n s) (mru s) = None → List.find (recyclable s) (reverse (mru s)) = Some i →
  ∃ s', bread 1 n s = Ok (i, s') ∧ reads s held n i s'.
Proof.
  intros Hinv Hn Hno Hf Hg. pose proof Hg as Hg'. apply find_some in Hg' as [_ Hrec].
  unfold recyclable in Hrec. destruct (bufs s !! i) as [b|] eqn:Hb; [|done].
  apply andb_true_iff in Hrec as [Hr Hdt]. apply Z.eqb_eq in Hr.
  destruct (ci_held _ _ Hinv i b Hb) as [(_ & _ & ?)|(Hi & Hl & _)]; [lia|].
  assert (Hclean : dirty b = false) by (unfold dirty; by rewrite Hdt).
  set (b1 := Buf 2 1 n (Some (curpid s)) 1 (disk s n)).
  assert (Hnew : ∀ j c, j ≠ i → ¬ caches s j n c) by (intros; apply Hno).
  exists (put_buf i b1 s). split.
  - unfold bread, bget. erewrite bind_Ok_l.
    2:{ erewrite bind_Ok_l by reflexivity. rewrite Hf, Hg.
        erewrite bind_Ok_l by by apply upd_buf_put.
        erewrite bind_Ok_l; [reflexivity|].
        rewrite (buf_acquire_ok _ i (Buf 0 1 n (slock b) 1 (data b))) by (try apply put_buf_self; eauto).
        rewrite put_put. reflexivity. }
    erewrite bind_Ok_l by (apply the_buf_ok, put_buf_self; eauto). simpl.
    erewrite bind_Ok_l; [reflexivity|].
    erewrite iderw_read by (try (apply put_buf_self; eauto); done || (simpl; lia)).
    rewrite put_put. reflexivity.
  - assert (Hold : ∀ m, bdev b = 1 → blockno b = m → content s m = disk s m).
    { intros m Hd Hm. rewrite (content_cached s i m b); [|intros; by eapply (ci_uniq _ _ Hinv)|done].
      apply (ci_clean _ _ Hinv i m b); [done|].
      destruct (ci_dev _ _ Hinv i b Hb) as [(_ & [?|Hf6] & _)|[? _]]; [done| |lia].
      apply dirty_6 in Hf6. congruence. }
    split_and!; [|constructor; try done|done| |].
    + eapply inv_put; [done|done|left; simpl; split_and!; auto; lia|done|done| |set_solver].
      left. simpl. split_and!; [set_solver|done|done].
    + intros m. rewrite (content_put s held i b) by done. simpl.
      case_bool_decide as H1; [destruct H1 as [_ <-]; by rewrite content_uncached|].
      case_bool_decide as H2; [|done]. symmetry. apply Hold; naive_solver.
    + intros m. unfold is_dirty. split.
      * intros (j & c & Hj & Hd). apply put_buf_caches in Hj as [(-> & -> & _)|[? ?]]; [done|eauto|eauto].
      * intros (j & c & Hj & Hd). exists j, c. split; [|done]. apply put_buf_caches; [eauto|]. right.
        split; [|done]. intros ->. destruct Hj as (? & _). congruence.
    + pose proof (ndirty_put s i b1 b Hb) as H. rewrite Hclean in H. change (dirty b1) with false in H. simpl in *. lia.
    + simpl. by rewrite length_insert.
    + exists b1. split; [apply put_buf_caches; eauto|]. simpl. by rewrite content_uncached.
    + intros j Hj. simpl. rewrite list_lookup_insert_ne; [done|]. set_solver.
Qed.

Lemma bread_ok s held n :
  cache_inv s held → 0 ≤ n < disksize s →
  (∃ j c, caches s j n c) ∨ (ndirty s + length held < length (bufs s))%nat →
  (∀ i b, i ∈ held → bufs s !! i = Some b → blockno b ≠ n) →
  ∃ i s', bread 1 n s = Ok (i, s') ∧ reads s held n i s'.
Proof.
  intros Hinv Hn Hroom Hh. destruct (List.find (cached 1 n s) (mru s)) as [i|] eqn:Hf.
  - pose proof Hf as Hf'. apply find_some in Hf' as [_ Hc]. apply cached_caches in Hc as (b & Hc).
    destruct (bread_hit s held i n b) as (s' & ? & ?); [done|done| |done|by eauto].
    intros Hi. destruct Hc as (Hb & _ & Hbn). by apply (Hh i b).
  - assert (Hno : ∀ j c, ¬ caches s j n c).
    { intros j c Hc. pose proof (find_none _ _ Hf j) as Hnone.
      rewrite (proj2 (cached_caches n s j)) in Hnone by eauto. discriminate Hnone.
      apply list_elem_of_In. rewrite (ci_mru _ _ Hinv). apply elem_of_seq.
      destruct Hc as (Hb & _). apply lookup_lt_Some in Hb. lia. }
    destruct Hroom as [(j & c & Hc)|Hroom]; [by destruct (Hno j c)|].
    destruct (free_buffer s held Hinv Hroom) as (i & Hg).
    destruct (bread_miss s held i n) as (s' & ? & ?); by eauto.
Qed.

(** Storing [d] in a held buffer and writing it through. *)
Record wrote (s : bst) (held : list nat) (i : nat) (n : Z) (d : blk) (s' : bst) : Prop := {
  wr_inv : cache_inv s' held;
  wr_disk : disk s' = λ x, if x =? n then d else disk s x;
  wr_size : disksize s' = disksize s;
  wr_writes : writes s' = writes s ++ [(n, d)];
  wr_pid : curpid s' = curpid s;
  wr_content : ∀ m, content s' m = if m =? n then d else content s m;
  wr_dirty : ∀ m, is_dirty s' m ↔ is_dirty s m ∧ m ≠ n;
  wr_ndirty : (ndirty s' ≤ ndirty s)%nat;
  wr_length : length (bufs s') = length (bufs s);
  wr_other : ∀ j, j ≠ i → bufs s' !! j = bufs s !! j;
}.

Lemma content_disk_write n d s m :
  m ≠ n ∨ (∃ k c, caches s k m c) → content (disk_write n d s) m = content s m.
Proof.
  intros H. unfold content. simpl. change (cached 1 m (disk_write n d s)) with (cached 1 m s).
  destruct (List.find _ _) as [k|] eqn:Hf.
  - destruct (bufs s !! k) eqn:Hk; [done|].
    apply find_some in Hf as [_ Hc]. unfold cached in Hc. by rewrite Hk in Hc.
  - destruct H as [Hne|(k & c & Hc)]; [by rewrite (proj2 (Z.eqb_neq _ _) Hne)|].
    pose proof (find_none _ _ Hf k) as Hn. rewrite (proj2 (cached_caches m s k)) in Hn by eauto.
    discriminate Hn. apply in_seq. destruct Hc as [Hi _]. apply lookup_lt_Some in Hi. lia.
Qed.

Lemma fill_bwrite_ok s held i n b d :
  cache_inv s held → i ∈ held → caches s i n b →
  ∃ s', (fill i d;; bwrite i) s = Ok (tt, s') ∧ wrote s held i n d s'.
Proof.
  intros Hinv Hi Hc. pose proof Hc as (Hb & Hd & Hn).
  destruct (ci_held _ _ Hinv i b Hb) as [(_ & Hl & Hr)|[? _]]; [|done].
  destruct (ci_dev _ _ Hinv i b Hb) as [(_ & Hfl & Hrange)|[? _]]; [|congruence].
  assert (Hs : is_Some (bufs s !! i)) by eauto.
  set (b1 := set_flags 2 (set_data d b)).
  assert (Hother : ∀ j c, j ≠ i → ¬ caches s j n c).
  { intros j c Hne Hj. apply Hne. by eapply (ci_uniq _ _ Hinv j i). }
  exists (disk_write n d (put_buf i b1 s)). split.
  - erewrite bind_Ok_l by by apply upd_buf_put. unfold bwrite.
    erewrite bind_Ok_l by (apply buf_holding_ok, put_buf_self; eauto). simpl.
    rewrite Hl, bool_decide_eq_true_2 by done. simpl.
    erewrite bind_Ok_l by (apply upd_buf_put, put_buf_self; eauto). rewrite put_put.
    erewrite iderw_write; [|apply put_buf_self; done|done| |done|simpl; lia].
    + rewrite put_put. unfold b1. simpl. by rewrite Hn.
    + simpl. destruct Hfl as [-> | ->]; done.
  - assert (Hnd := ndirty_put s i b1 b Hb). change (dirty b1) with false in Hnd.
    constructor; try done.
    + destruct Hinv as [Hm Hdv Hu Hcl Hh Hhi]. constructor.
      * simpl. by rewrite length_insert.
      * intros j c Hj. apply put_buf_lookup in Hj as [[-> ->]|[? ?]]; [left; simpl; auto|by eapply Hdv|done].
      * intros j k m c e Hj Hk. apply (put_buf_caches s i b1) in Hj, Hk; [|done..].
        destruct Hj as [(-> & -> & H1 & H2)|[? Hj]], Hk as [(-> & -> & H3 & H4)|[? Hk]]; [done|..|by eapply Hu].
        -- simpl in H2. destruct (Hother k e); [done|]. by rewrite <- Hn, H2.
        -- simpl in H4. destruct (Hother j c); [done|]. by rewrite <- Hn, H4.
      * intros j m c Hj Hf. apply (put_buf_caches s i b1) in Hj; [|done]. simpl.
        destruct Hj as [(-> & -> & H1 & H2)|[Hne Hj]].
        -- simpl in H2. rewrite <- H2, Hn, Z.eqb_refl. done.
        -- destruct (Z.eqb_spec m n) as [->|]; [by destruct (Hother j c)|by eapply Hcl].
      * intros j c Hj. apply put_buf_lookup in Hj as [[-> ->]|[? ?]]; [left; simpl; auto|by eapply Hh|done].
      * intros j Hj. simpl. apply lookup_lt_is_Some. rewrite length_insert. apply lookup_lt_is_Some. by apply Hhi.
    + intros m. rewrite content_disk_write.
      * rewrite (content_put s held i b) by (simpl; rewrite ?Hn; done). simpl. rewrite Hn, Hd.
        destruct (Z.eqb_spec m n) as [->|Hne]; [by rewrite bool_decide_eq_true_2 by done|].
        rewrite !bool_decide_eq_false_2 by naive_solver. done.
      * destruct (decide (m = n)) as [->|]; [right|by left]. exists i, b1. apply put_buf_caches; auto.
    + intros m. unfold is_dirty. split.
      * intros (j & c & Hj & Hdt). apply (put_buf_caches s i b1) in Hj as [(-> & -> & _)|[Hne Hj]]; [done| |done].
        split; [by eauto|]. intros ->. by destruct (Hother j c).
      * intros [(j & c & Hj & Hdt) Hne]. exists j, c. split; [|done].
        apply (put_buf_caches s i b1); [done|]. right. split; [|done]. intros ->.
        destruct Hj as (? & _ & ?). congruence.
    + change (ndirty (disk_write n d (put_buf i b1 s))) with (ndirty (put_buf i b1 s)). simpl in Hnd. lia.
    + simpl. by rewrite length_insert.
    + intros j Hj. simpl. by rewrite list_lookup_insert_ne.
Qed.

Lemma filter_complement_perm (i : nat) (l : list nat) :
  NoDup l → i ∈ l → i :: filter (λ j, j ≠ i) l ≡ₚ l.
Proof.
  intros Hnd Hi. apply NoDup_Permutation; [|done|].
  - apply NoDup_cons. split; [rewrite list_elem_of_filter; naive_solver|by apply NoDup_filter].
  - intros j. rewrite elem_of_cons, list_elem_of_filter. destruct (decide (j = i)); naive_solver.
Qed.

Lemma brelse_ok s held i :
  cache_inv s held → i ∈ held →
  ∃ s', brelse i s = Ok (tt, s') ∧ cache_inv s' (filter (λ j, j ≠ i) held) ∧ same_view s s' ∧
    (∀ j, j ≠ i → bufs s' !! j = bufs s !! j).
Proof.
  intros Hinv Hi. destruct (ci_held_in _ _ Hinv i Hi) as [b Hb].
  assert (Hs : is_Some (bufs s !! i)) by eauto.
  destruct (ci_held _ _ Hinv i b Hb) as [(_ & Hl & Hr)|[? _]]; [|done].
  set (b1 := set_slock None (set_refcnt 0 b)).
  assert (Hinv1 : cache_inv (put_buf i b1 s) (filter (λ j, j ≠ i) held)).
  { eapply inv_put; [done|done|exact (ci_dev _ _ Hinv i b Hb)|..]; simpl.
    - intros Hd j c Hne Hj. apply Hne. by eapply (ci_uniq _ _ Hinv j i).
    - intros Hd Hf. by eapply (ci_clean _ _ Hinv).
    - right. split_and!; [|done|done]. intros H%list_elem_of_filter. naive_solver.
    - intros j Hj. rewrite list_elem_of_filter. naive_solver. }
  exists (set_mru (i :: filter (λ j, j ≠ i) (mru s)) (put_buf i b1 s)). split_and!.
  - unfold brelse. erewrite bind_Ok_l by by apply buf_holding_ok.
    rewrite Hl, bool_decide_eq_true_2 by done. cbn [negb].
    erewrite bind_Ok_l by by apply upd_buf_put.
    erewrite bind_Ok_l by (apply upd_buf_put, put_buf_self; done). rewrite put_put.
    erewrite bind_Ok_l by (apply the_buf_ok, put_buf_self; done). simpl.
    rewrite Hr. change (wrap32 (1 - 1)) with 0. reflexivity.
  - destruct Hinv1 as [Hm ? ? ? ? ?]. constructor; try done. simpl in *.
    rewrite <- Hm. apply filter_complement_perm.
    + rewrite (ci_mru _ _ Hinv). apply NoDup_seq.
    + rewrite (ci_mru _ _ Hinv). apply elem_of_seq. apply lookup_lt_Some in Hb. lia.
  - by eapply transitivity; [eapply (same_view_lock s held i b None 0)|apply same_view_mru].
  - intros j Hj. simpl. by rewrite list_lookup_insert_ne.
Qed.

(** The cache after boot. *)
Definition fresh (d : Z → blk) (size pid : Z) : bst :=
  Bst (replicate 30 buf0) (foldl (λ l i, i :: l) [] (seq 0 30)) d size [] pid.
Lemma fresh_binit d size pid :
  binit (Bst (replicate 30 buf0) [] d size [] pid) = Ok (tt, fresh d size pid).
Proof. reflexivity. Qed.
Lemma fresh_lookup d size pid i b : bufs (fresh d size pid) !! i = Some b → b = buf0.
Proof. intros H. by apply (lookup_replicate_1 30 buf0 b i) in H as [-> _]. Qed.
Lemma fresh_inv d size pid : cache_inv (fresh d size pid) [].
Proof.
  constructor.
  - transitivity (reverse (seq 0 30)); [reflexivity|apply reverse_Permutation].
  - intros i b ->%fresh_lookup. by right.
  - intros i j n b c (->%fresh_lookup & Hd & _). done.
  - intros i n b (->%fresh_lookup & Hd & _). done.
  - intros i b ->%fresh_lookup. right. split_and!; [set_solver|done|done].
  - set_solver.
Qed.

(** ** Properties *)

(** C20: reading through the cache.  With a buffer to spare, or the block
    already cached, [bread] succeeds, returns a locked buffer holding the latest
    contents of the block, writes nothing to the disk, and changes neither the
    contents of any block as seen through the cache nor which blocks are dirty:
    in particular a dirty buffer is never recycled. *)
Theorem bread_latest s held n
    (Hinv : cache_inv s held) (Hn : 0 ≤ n < disksize s)
    (Hroom : (∃ j c, caches s j n c) ∨ (ndirty s + length held < length (bufs s))%nat)
    (Hheld : ∀ i b, i ∈ held → bufs s !! i = Some b → blockno b ≠ n) :
  ∃ i b s', bread 1 n s = Ok (i, s') ∧ caches s' i n b ∧ data b = content s n ∧
    slock b = Some (curpid s) ∧ cache_inv s' (i :: held) ∧
    writes s' = writes s ∧ disk s' = disk s ∧
    (∀ m, content s' m = content s m) ∧ (∀ m, is_dirty s' m ↔ is_dirty s m).
Proof.
  destruct (bread_ok s held n) as (i & s' & Hr & Hinv' & Hv & _ & (b & Hb & Hd) & _); [done..|].
  exists i, b, s'. destruct Hv as [].
  split_and!; try done. destruct Hb as (Hb & _).
  destruct (ci_held _ _ Hinv' i b Hb) as [(_ & -> & _)|[Hno _]]; [congruence|set_solver].
Qed.
Lemma bread_latest_witness :
  ∃ i b s', bread 1 7 (fresh (λ n, replicate 512 n) 1000 3) = Ok (i, s') ∧
    caches s' i 7 b ∧ data b = replicate 512 7.
Proof.
  destruct (bread_latest (fresh (λ n, replicate 512 n) 1000 3) [] 7 (fresh_inv _ _ _)) as (i & b & s' & H & Hc & Hd & _).
  - simpl; lia.
  - right. simpl. unfold ndirty. simpl. lia.
  - intros i b Hi. exfalso. by apply not_elem_of_nil in Hi.
  - exists i, b, s'. split; [exact H|]. split; [exact Hc|]. rewrite Hd. reflexivity.
Defined.
