(* ===== verification/Log.v ===== *)
(** * The write-ahead log

    [log.c] over the buffer cache of [Bio].  A transaction's blocks are pinned
    dirty in the cache; [commit] copies them to the log area, writes the header
    (the commit point), installs them in place and clears the header.  The main
    theorems cut the history of disk writes at any point and run recovery:
    every transaction is applied entirely or not at all, and an interrupted
    recovery can be run again.

    [log.lock] makes each routine's updates of [struct log] one critical
    section and is not part of the state. *)

From S2P Require Import Prelude Machine Spin Bio.
Local Open Scope Z_scope.

(** ** Words in a block *)

Definition get_word (d : blk) (k : nat) : Z :=
  nth (4 * k) d 0 + 2^8 * nth (4 * k + 1) d 0 + 2^16 * nth (4 * k + 2) d 0 + 2^24 * nth (4 * k + 3) d 0.
Definition put_word (d : blk) (k : nat) (v : Z) : blk :=
  <[(4 * k)%nat := v mod 2^8]> (<[(4 * k + 1)%nat := v / 2^8 mod 2^8]>
    (<[(4 * k + 2)%nat := v / 2^16 mod 2^8]> (<[(4 * k + 3)%nat := v / 2^24 mod 2^8]> d))).

(** ** State *)

(** [struct log]; [lh] lists the first [lh.n] entries of [lh.block]. *)
Record log_t := Log {
  l_start : Z;
  l_size : Z;
  outstanding : Z;
  committing : bool;
  l_dev : Z;
  lh : list Z;
}.
Record lst := Lst { lg : log_t; bio : bst }.
Definition bio_l : lens lst bst := Lens bio (λ b s, Lst (lg s) b).
Definition set_log (f : log_t → log_t) : M lst unit := modify (λ s, Lst (f (lg s)) (bio s)).
Definition set_lh (l : list Z) (g : log_t) : log_t :=
  Log (l_start g) (l_size g) (outstanding g) (committing g) (l_dev g) l.
Definition set_outstanding (n : Z) (g : log_t) : log_t :=
  Log (l_start g) (l_size g) n (committing g) (l_dev g) (lh g).
Definition set_committing (b : bool) (g : log_t) : log_t :=
  Log (l_start g) (l_size g) (outstanding g) b (l_dev g) (lh g).

Notation cache := (on_lens bio_l).

(** ** Operations *)

(** [memmove(a->data, b->data, BSIZE)] *)
Definition copy_buf (a b : nat) : M bst unit := x ← the_buf b; fill a (data x).

(** One round of [install_trans]'s loop. *)
Definition install_one (tail : nat) : M lst unit :=
  g ← gets lg;
  lbuf ← cache (bread (l_dev g) (l_start g + Z.of_nat tail + 1));
  dbuf ← cache (bread (l_dev g) (nth tail (lh g) 0));
  cache (copy_buf dbuf lbuf);;
  cache (bwrite dbuf);;
  cache (brelse lbuf);;
  cache (brelse dbuf).
Definition install_trans : M lst unit :=
  g ← gets lg;
  forM (seq 0 (length (lh g))) install_one.

(** [lh->n] and [lh->block[i]] of a header block. *)
Definition head_n (d : blk) : Z := sint32 (get_word d 0).
Definition head_block (d : blk) (i : nat) : Z := sint32 (get_word d (S i)).
Definition decode_head (d : blk) : list Z :=
  head_block d <$> seq 0 (Z.to_nat (head_n d)).
(** The header block with [lh] stored over [d]. *)
Definition encode_head (l : list Z) (d : blk) : blk :=
  foldl (λ d i, put_word d (S i) (nth i l 0)) (put_word d 0 (Z.of_nat (length l))) (seq 0 (length l)).

Definition read_head : M lst unit :=
  g ← gets lg;
  i ← cache (bread (l_dev g) (l_start g));
  b ← cache (the_buf i);
  if LOGSIZE <? head_n (data b) then fault "log.lh.block" else
  set_log (set_lh (decode_head (data b)));;
  cache (brelse i).

Definition write_head : M lst unit :=
  g ← gets lg;
  i ← cache (bread (l_dev g) (l_start g));
  b ← cache (the_buf i);
  cache (fill i (encode_head (lh g) (data b)));;
  cache (bwrite i);;
  cache (brelse i).

Definition recover_from_log : M lst unit :=
  read_head;;
  install_trans;;
  set_log (set_lh []);;
  write_head.

(** [readsb] of [fs.c]: the words of [struct superblock] in block 1. *)
Record superblock := Superblock {
  sb_size : Z; nblocks : Z; ninodes : Z; nlog : Z; logstart : Z; inodestart : Z; bmapstart : Z }.
Definition decode_sb (d : blk) : superblock :=
  Superblock (get_word d 0) (get_word d 1) (get_word d 2) (get_word d 3) (get_word d 4)
    (get_word d 5) (get_word d 6).
Definition readsb (dev : Z) : M lst superblock :=
  i ← cache (bread dev 1);
  b ← cache (the_buf i);
  cache (brelse i);;
  mret (decode_sb (data b)).

(** [sizeof(struct logheader)] is 124, below [BSIZE]. *)
Definition initlog (dev : Z) : M lst unit :=
  if BSIZE <=? 4 * (1 + LOGSIZE) then panic "initlog: too big logheader" else
  sb ← readsb dev;
  set_log (λ g, Log (sint32 (logstart sb)) (sint32 (nlog sb)) (outstanding g) (committing g) dev (lh g));;
  recover_from_log.

(** [others] says what happens during each sleep. *)
Fixpoint begin_op (others : list (M lst unit)) : M lst unit :=
  g ← gets lg;
  if committing g || (LOGSIZE <? Z.of_nat (length (lh g)) + (outstanding g + 1) * MAXOPBLOCKS)
  then match others with
       | [] => block
       | o :: others' => o;; begin_op others'
       end
  else set_log (set_outstanding (outstanding g + 1)).

(** One round of [write_log]'s loop. *)
Definition write_log_one (tail : nat) : M lst unit :=
  g ← gets lg;
  to ← cache (bread (l_dev g) (l_start g + Z.of_nat tail + 1));
  from ← cache (bread (l_dev g) (nth tail (lh g) 0));
  cache (copy_buf to from);;
  cache (bwrite to);;
  cache (brelse from);;
  cache (brelse to).
Definition write_log : M lst unit :=
  g ← gets lg;
  forM (seq 0 (length (lh g))) write_log_one.

Definition commit : M lst unit :=
  g ← gets lg;
  whenM (negb (bool_decide (lh g = [])))
    (write_log;; write_head;; install_trans;; set_log (set_lh []);; write_head).

(** The wake-ups of waiting [begin_op]s are the others' concern. *)
Definition end_op : M lst unit :=
  set_log (λ g, set_outstanding (outstanding g - 1) g);;
  g ← gets lg;
  if committing g then panic "log.committing" else
  if outstanding g =? 0 then
    set_log (set_committing true);;
    commit;;
    set_log (set_committing false)
  else mret tt.

(** [log.lh.block[i] = b->blockno] at the first equal entry or the end. *)
Definition absorb (l : list Z) (n : Z) : list Z :=
  match find_index (λ x, x =? n) l with Some _ => l | None => l ++ [n] end.
Definition log_write (i : nat) : M lst unit :=
  g ← gets lg;
  let n := Z.of_nat (length (lh g)) in
  if (LOGSIZE <=? n) || (l_size g - 1 <=? n) then panic "too big a transaction" else
  if outstanding g <? 1 then panic "log_write outside of trans" else
  b ← cache (the_buf i);
  set_log (set_lh (absorb (lh g) (blockno b)));;
  cache (upd_buf i (λ b, set_flags (Z.lor (flags b) B_DIRTY) b)).

(** ** Header blocks *)

Lemma nth_insert {A} (l : list A) i j (x d : A) :
  (j < length l)%nat → nth i (<[j := x]> l) d = if decide (i = j) then x else nth i l d.
Proof.
  intros Hj. rewrite !nth_lookup. destruct (decide (i = j)) as [->|Hne].
  - by rewrite list_lookup_insert_eq.
  - by rewrite list_lookup_insert_ne.
Qed.
Lemma length_put_word d k v : length (put_word d k v) = length d.
Proof. unfold put_word. by rewrite !length_insert. Qed.
Lemma get_put_word d k v j :
  (4 * k + 3 < length d)%nat →
  get_word (put_word d k v) j = if decide (j = k) then v mod 2^32 else get_word d j.
Proof.
  intros Hk. unfold get_word, put_word.
  rewrite !nth_insert by (rewrite ?length_insert; lia).
  destruct (decide (j = k)) as [->|Hne].
  - repeat (case_decide; [try lia|try lia]). Z.div_mod_to_equations. lia.
  - repeat (case_decide; [lia|]). done.
Qed.

Lemma get_word_stores l d ns j :
  (∀ i, i ∈ ns → 4 * S i + 3 < length d)%nat →
  get_word (foldl (λ d i, put_word d (S i) (nth i l 0)) d ns) j =
    if decide (j ∈ S <$> ns) then nth (j - 1) l 0 mod 2^32 else get_word d j.
Proof.
  revert d. induction ns as [|i ns IH]; intros d H.
  - done.
  - cbn [foldl]. rewrite IH.
    2:{ intros k Hk. rewrite length_put_word. apply H. set_solver. }
    rewrite get_put_word by (apply H; set_solver).
    destruct (decide (j ∈ S <$> ns)) as [Hj|Hj]; [by rewrite decide_True by set_solver|].
    destruct (decide (j = S i)) as [->|Hne].
    + rewrite decide_True by set_solver. do 2 f_equal. lia.
    + by rewrite decide_False by set_solver.
Qed.

(** Block numbers a header can hold. *)
Definition head_ok (l : list Z) (d : blk) : Prop :=
  (length l ≤ 30)%nat ∧ Forall (λ n, 0 ≤ n < 2^31) l ∧ length d = 512%nat.

Lemma sint32_mod x : 0 ≤ x < 2^31 → sint32 (x mod 2^32) = x.
Proof. intros. rewrite Z.mod_small by lia. apply sint32_id. unfold is_i32. lia. Qed.

Lemma head_n_encode l d : head_ok l d → head_n (encode_head l d) = Z.of_nat (length l).
Proof.
  intros (Hn & _ & Hd). unfold head_n, encode_head. rewrite get_word_stores.
  2:{ intros i Hi%elem_of_seq. rewrite length_put_word. lia. }
  rewrite decide_False by (rewrite list_elem_of_fmap; intros (y & ? & _); lia).
  rewrite get_put_word, decide_True by lia. apply sint32_mod. lia.
Qed.
Lemma decode_encode_head l d : head_ok l d → decode_head (encode_head l d) = l.
Proof.
  intros Hok. pose proof Hok as (Hn & Hb & Hd). unfold decode_head. rewrite head_n_encode, Nat2Z.id by done.
  apply list_eq. intros i. rewrite list_lookup_fmap. destruct (decide (i < length l)%nat) as [Hi|Hi].
  - rewrite lookup_seq_lt by done. simpl. unfold head_block, encode_head.
    rewrite get_word_stores by (intros k Hk%elem_of_seq; rewrite length_put_word; lia).
    rewrite decide_True by (apply list_elem_of_fmap; exists i; rewrite elem_of_seq; auto with lia).
    replace (S i - 1)%nat with i by lia. destruct (lookup_lt_is_Some_2 l i Hi) as [x Hx].
    rewrite Hx, (nth_lookup_Some l i 0 x Hx). f_equal. apply sint32_mod.
    rewrite Forall_forall in Hb. apply Hb. by eapply list_elem_of_lookup_2.
  - rewrite (proj2 (lookup_ge_None l i)) by lia.
    rewrite (proj2 (lookup_ge_None (seq 0 (length l)) i)) by (rewrite length_seq; lia). done.
Qed.
Lemma length_encode_head l d : length (encode_head l d) = length d.
Proof.
  unfold encode_head. rewrite <- (length_put_word d 0 (Z.of_nat (length l))).
  generalize (put_word d 0 (Z.of_nat (length l))) as e. generalize (seq 0 (length l)) as ns.
  induction ns as [|i ns IH]; intros e; simpl; [done|]. by rewrite IH, length_put_word.
Qed.

(** ** Copying one block to another *)

(** Block [n] has been overwritten with [d], on the disk too; no buffer held. *)
Record stored (s : bst) (n : Z) (d : blk) (s' : bst) : Prop := {
  st_inv : cache_inv s' [];
  st_disk : disk s' = λ x, if x =? n then d else disk s x;
  st_size : disksize s' = disksize s;
  st_writes : writes s' = writes s ++ [(n, d)];
  st_content : ∀ m, content s' m = if m =? n then d else content s m;
  st_dirty : ∀ m, is_dirty s' m ↔ is_dirty s m ∧ m ≠ n;
  st_ndirty : (ndirty s' ≤ ndirty s)%nat;
  st_length : length (bufs s') = length (bufs s);
}.

Lemma bread_ok' s held n :
  cache_inv s held → 0 ≤ n < disksize s →
  is_dirty s n ∨ (ndirty s + length held < length (bufs s))%nat →
  (∀ i b, i ∈ held → bufs s !! i = Some b → blockno b ≠ n) →
  ∃ i s', bread 1 n s = Ok (i, s') ∧ reads s held n i s'.
Proof.
  intros ? ? [(i & b & ? & _)|?] ?; eapply bread_ok; eauto.
Qed.

(** Two blocks held at once, the second overwritten with [d]. *)
Lemma two_bufs s a b :
  cache_inv s [] → 0 ≤ a < disksize s → 0 ≤ b < disksize s → a ≠ b →
  is_dirty s a ∨ (ndirty s < length (bufs s))%nat →
  is_dirty s b ∨ (ndirty s + 1 < length (bufs s))%nat →
  ∃ i j s1 s2 ba bb, bread 1 a s = Ok (i, s1) ∧ bread 1 b s1 = Ok (j, s2) ∧ i ≠ j ∧
    cache_inv s2 [j; i] ∧ same_view s s2 ∧
    caches s2 i a ba ∧ data ba = content s a ∧ caches s2 j b bb ∧ data bb = content s b.
Proof.
  intros Hinv Ha Hb Hne Hra Hrb.
  destruct (bread_ok' s [] a) as (i & s1 & H1 & Hinv1 & Hv1 & _ & (ba & Hba & Hda) & _);
    [done|done|destruct Hra; [by left|right; simpl; lia]|set_solver|].
  pose proof Hv1 as [Hd Hsz Hw Hp Hc Hdi Hnd Hl].
  destruct (bread_ok' s1 [i] b) as (j & s2 & H2 & Hinv2 & Hv2 & Hj & (bb & Hbb & Hdb) & Hkeep);
    [done|by rewrite Hsz|destruct Hrb; [left; by apply Hdi|right; simpl; lia]| |].
  { intros k c Hk Hk'. apply list_elem_of_singleton in Hk as ->. destruct Hba as (Hba & _ & Hn).
    assert (c = ba) as -> by congruence. congruence. }
  exists i, j, s1, s2, ba, bb.
  assert (Hba2 : caches s2 i a ba) by (destruct Hba as (? & ?); split; [rewrite Hkeep by set_solver|]; done).
  split_and!; try done; [set_solver|by etrans|by rewrite Hdb, Hc].
Qed.

Lemma drop_two s i j :
  cache_inv s [j; i] → i ≠ j →
  ∃ s1 s2, brelse i s = Ok (tt, s1) ∧ brelse j s1 = Ok (tt, s2) ∧ cache_inv s2 [] ∧ same_view s s2.
Proof.
  intros Hinv Hne. destruct (brelse_ok s [j; i] i) as (s1 & H1 & Hinv1 & Hv1 & _); [done|set_solver|].
  rewrite filter_cons_True, filter_cons_False, filter_nil in Hinv1 by naive_solver.
  destruct (brelse_ok s1 [j] j) as (s2 & H2 & Hinv2 & Hv2 & _); [done|set_solver|].
  rewrite filter_cons_False, filter_nil in Hinv2 by naive_solver.
  exists s1, s2. split_and!; try done. by etrans.
Qed.

Lemma cache_Ok {A} (c : M bst A) s a b : c (bio s) = Ok (a, b) → cache c s = Ok (a, Lst (lg s) b).
Proof. apply (on_lens_Ok bio_l). Qed.
Lemma copy_buf_ok s i j b : bufs s !! j = Some b → copy_buf i j s = fill i (data b) s.
Proof. intros Hb. unfold copy_buf. by erewrite bind_Ok_l by by apply the_buf_ok. Qed.

(** With [x] and [y] held, copying [y] over [x], writing it and dropping both. *)
Lemma copy_write_drop s x y nx ny bx by_ held :
  cache_inv s held → (held = [x; y] ∨ held = [y; x]) → x ≠ y → caches s x nx bx → caches s y ny by_ →
  nx ≠ ny →
  ∃ s1 s2 s3 s4, copy_buf x y s = Ok (tt, s1) ∧ bwrite x s1 = Ok (tt, s2) ∧
    brelse y s2 = Ok (tt, s3) ∧ brelse x s3 = Ok (tt, s4) ∧ stored s nx (data by_) s4.
Proof.
  intros Hinv Hheld Hxy Hx Hy Hne.
  assert (Hxh : x ∈ held) by (destruct Hheld as [-> | ->]; set_solver).
  destruct (fill_bwrite_ok s held x nx bx (data by_)) as (s2 & Hw & Hwr); [done|done|done|].
  apply bind_Ok in Hw as ([] & s1 & H1 & H2). destruct Hwr as [Hi Hd Hs Hwt Hp Hc Hdt Hnd Hl Ho].
  assert (∃ s3 s4, brelse y s2 = Ok (tt, s3) ∧ brelse x s3 = Ok (tt, s4) ∧ cache_inv s4 [] ∧ same_view s2 s4)
    as (s3 & s4 & H3 & H4 & Hi4 & Hv).
  { assert (Hi' : cache_inv s2 [x; y]).
    { destruct Hheld as [-> | ->]; [done|]. destruct Hi as [? ? ? ? Hh Hin]. constructor; try done; [|set_solver].
      intros k c Hk. destruct (Hh k c Hk) as [(? & ?)|(? & ?)]; [left|right]; (split; [set_solver|done]). }
    destruct (drop_two s2 y x Hi') as (s3 & s4 & ?); [done|]. by exists s3, s4. }
  exists s1, s2, s3, s4. destruct Hv as [Hd' Hs' Hw' Hp' Hc' Hdt' Hnd' Hl'].
  split_and!; try done.
  - rewrite (copy_buf_ok s x y by_) by apply Hy. done.
  - constructor; try congruence; try lia.
    + intros m. by rewrite Hc', Hc.
    + intros m. by rewrite Hdt', Hdt.
Qed.

(** The state in which a log round runs. *)
Record round_ok (s : lst) (a b : Z) : Prop := {
  ro_inv : cache_inv (bio s) [];
  ro_dev : l_dev (lg s) = 1;
  ro_a : 0 ≤ a < disksize (bio s);
  ro_b : 0 ≤ b < disksize (bio s);
  ro_ne : a ≠ b;
  ro_room_a : is_dirty (bio s) a ∨ (ndirty (bio s) < length (bufs (bio s)))%nat;
  ro_room_b : is_dirty (bio s) b ∨ (ndirty (bio s) + 1 < length (bufs (bio s)))%nat;
}.

Lemma stored_same_view s s1 n d s2 : same_view s s1 → stored s1 n d s2 → stored s n d s2.
Proof.
  intros [V1 V2 V3 V4 V5 V6 V7 V8] [W1 W2 W3 W4 W5 W6 W7 W8]. constructor; try done; try congruence; try lia.
  - by rewrite W2, V1.
  - intros m. by rewrite W5, V5.
  - intros m. by rewrite W6, V6.
Qed.

Lemma install_one_ok s t :
  round_ok s (l_start (lg s) + Z.of_nat t + 1) (nth t (lh (lg s)) 0) →
  ∃ b', install_one t s = Ok (tt, Lst (lg s) b') ∧
    stored (bio s) (nth t (lh (lg s)) 0) (content (bio s) (l_start (lg s) + Z.of_nat t + 1)) b'.
Proof.
  intros [Hinv Hdev Ha Hb Hne Hra Hrb]. unfold install_one. erewrite bind_Ok_l by reflexivity. rewrite Hdev.
  destruct (two_bufs (bio s) (l_start (lg s) + Z.of_nat t + 1) (nth t (lh (lg s)) 0))
    as (i & j & s1 & s2 & ba & bb & H1 & H2 & Hij & Hinv2 & Hv & Hca & Hda & Hcb & Hdb); [done..|].
  edestruct (copy_write_drop s2 j i) as (s3 & s4 & s5 & s6 & H3 & H4 & H5 & H6 & Hst);
    [exact Hinv2|auto|auto|eassumption|eassumption|auto|].
  exists s6. split; [|rewrite <- Hda; by eapply stored_same_view].
  do 5 (erewrite bind_Ok_l by (apply cache_Ok; done); simpl). by apply (cache_Ok _ (Lst (lg s) s5)).
Qed.

Lemma write_log_one_ok s t :
  round_ok s (l_start (lg s) + Z.of_nat t + 1) (nth t (lh (lg s)) 0) →
  ∃ b', write_log_one t s = Ok (tt, Lst (lg s) b') ∧
    stored (bio s) (l_start (lg s) + Z.of_nat t + 1) (content (bio s) (nth t (lh (lg s)) 0)) b'.
Proof.
  intros [Hinv Hdev Ha Hb Hne Hra Hrb]. unfold write_log_one. erewrite bind_Ok_l by reflexivity. rewrite Hdev.
  destruct (two_bufs (bio s) (l_start (lg s) + Z.of_nat t + 1) (nth t (lh (lg s)) 0))
    as (i & j & s1 & s2 & ba & bb & H1 & H2 & Hij & Hinv2 & Hv & Hca & Hda & Hcb & Hdb); [done..|].
  edestruct (copy_write_drop s2 i j) as (s3 & s4 & s5 & s6 & H3 & H4 & H5 & H6 & Hst);
    [exact Hinv2|auto|auto|eassumption|eassumption|auto|].
  exists s6. split; [|rewrite <- Hdb; by eapply stored_same_view].
  do 5 (erewrite bind_Ok_l by (apply cache_Ok; done); simpl). by apply (cache_Ok _ (Lst (lg s) s5)).
Qed.

Lemma write_head_ok s :
  cache_inv (bio s) [] → l_dev (lg s) = 1 → 0 ≤ l_start (lg s) < disksize (bio s) →
  (ndirty (bio s) < length (bufs (bio s)))%nat →
  ∃ b', write_head s = Ok (tt, Lst (lg s) b') ∧
    stored (bio s) (l_start (lg s)) (encode_head (lh (lg s)) (content (bio s) (l_start (lg s)))) b'.
Proof.
  intros Hinv Hdev Hs Hroom. unfold write_head. erewrite bind_Ok_l by reflexivity. rewrite Hdev.
  destruct (bread_ok' (bio s) [] (l_start (lg s))) as (i & s1 & H1 & Hinv1 & Hv1 & _ & (b & Hb & Hd) & _);
    [done|done|right; simpl; lia|set_solver|].
  erewrite bind_Ok_l by (apply cache_Ok; done).
  erewrite bind_Ok_l by (apply cache_Ok; simpl; apply the_buf_ok, Hb). simpl.
  destruct (fill_bwrite_ok s1 [i] i (l_start (lg s)) b (encode_head (lh (lg s)) (data b)))
    as (s3 & Hw & Hwr); [done|set_solver|done|].
  apply bind_Ok in Hw as ([] & s2 & H2 & H3).
  destruct (brelse_ok s3 [i] i) as (s4 & H4 & Hinv4 & Hv4 & _); [apply Hwr|set_solver|].
  rewrite filter_cons_False, filter_nil in Hinv4 by naive_solver.
  exists s4. split.
  - do 2 (erewrite bind_Ok_l by (apply cache_Ok; done); simpl). by apply (cache_Ok _ (Lst (lg s) s3)).
  - rewrite <- Hd. eapply stored_same_view; [done|]. destruct Hwr as [W1 W2 W3 W4 W5 W6 W7 W8 W9 _], Hv4 as [V1 V2 V3 V4 V5 V6 V7 V8].
    constructor; try congruence; try lia; try done.
    + intros m. by rewrite V5.
    + intros m. by rewrite V6.
Qed.

(** ** Sequences of block writes *)

Definition apply_write (f : Z → blk) (w : Z * blk) : Z → blk := λ x, if x =? w.1 then w.2 else f x.
(** A disk after some writes. *)
Definition apply_writes (f : Z → blk) (l : list (Z * blk)) : Z → blk := foldl apply_write f l.

Lemma apply_writes_app f l1 l2 : apply_writes f (l1 ++ l2) = apply_writes (apply_writes f l1) l2.
Proof. apply foldl_app. Qed.
Lemma apply_writes_ext f g l x : (∀ y, f y = g y) → apply_writes f l x = apply_writes g l x.
Proof.
  revert f g. induction l as [|w l IH]; intros f g H; simpl; [done|]. apply IH. intros y.
  unfold apply_write. by destruct (_ =? _).
Qed.
Lemma apply_writes_other f l x : x ∉ l.*1 → apply_writes f l x = f x.
Proof.
  revert f. induction l as [|w l IH]; intros f Hx; simpl; [done|].
  rewrite IH by set_solver. unfold apply_write. rewrite (proj2 (Z.eqb_neq x w.1)); [done|]. set_solver.
Qed.
(** With distinct targets every write is visible. *)
Lemma apply_writes_in f l x d : NoDup l.*1 → (x, d) ∈ l → apply_writes f l x = d.
Proof.
  revert f. induction l as [|w l IH]; intros f Hnd Hx; [by apply not_elem_of_nil in Hx|].
  apply NoDup_cons in Hnd as [Hw Hnd]. simpl. apply elem_of_cons in Hx as [<-|Hx]; [|by apply IH].
  rewrite apply_writes_other by done. unfold apply_write. simpl. by rewrite Z.eqb_refl.
Qed.

(** The blocks [l] have been written through, in this order. *)
Record stores (s : bst) (l : list (Z * blk)) (s' : bst) : Prop := {
  ss_inv : cache_inv s' [];
  ss_disk : ∀ x, disk s' x = apply_writes (disk s) l x;
  ss_size : disksize s' = disksize s;
  ss_writes : writes s' = writes s ++ l;
  ss_content : ∀ m, content s' m = apply_writes (content s) l m;
  ss_dirty : ∀ m, is_dirty s' m ↔ is_dirty s m ∧ m ∉ l.*1;
  ss_ndirty : (ndirty s' ≤ ndirty s)%nat;
  ss_length : length (bufs s') = length (bufs s);
}.
Lemma stores_nil s : cache_inv s [] → stores s [] s.
Proof. intros H. constructor; try done; [by rewrite app_nil_r|set_solver]. Qed.
Lemma stores_one s n d s' : stored s n d s' → stores s [(n, d)] s'.
Proof.
  intros []. constructor; try done.
  - intros x. by rewrite st_disk0.
  - intros m. rewrite st_dirty0. set_solver.
Qed.
Lemma stores_trans s l1 s1 l2 s2 : stores s l1 s1 → stores s1 l2 s2 → stores s (l1 ++ l2) s2.
Proof.
  intros [A1 A2 A3 A4 A5 A6 A7 A8] [B1 B2 B3 B4 B5 B6 B7 B8]. constructor; try done; try congruence; try lia.
  - intros x. rewrite B2, apply_writes_app. by apply apply_writes_ext.
  - by rewrite B4, A4, <- app_assoc.
  - intros x. rewrite B5, apply_writes_app. by apply apply_writes_ext.
  - intros m. rewrite B6, A6, fmap_app. set_solver.
Qed.

(** ** The loops of the log *)

(** The log area and the logged blocks. *)
Record geometry (g : log_t) (size : Z) : Prop := {
  ge_dev : l_dev g = 1;
  ge_start : 0 ≤ l_start g;
  ge_area : l_start g + l_size g ≤ size;
  ge_len : Z.of_nat (length (lh g)) < l_size g;
  ge_max : (length (lh g) ≤ 30)%nat;
  ge_size : size ≤ 2^31;
  ge_nodup : NoDup (lh g);
  ge_home : Forall (λ n, 0 ≤ n < size ∧ ¬ (l_start g ≤ n < l_start g + l_size g)) (lh g);
}.

Lemma geometry_nth g size t :
  geometry g size → (t < length (lh g))%nat →
  nth t (lh g) 0 ∈ lh g ∧ 0 ≤ nth t (lh g) 0 < size ∧
  ¬ (l_start g ≤ nth t (lh g) 0 < l_start g + l_size g).
Proof.
  intros [] Ht. assert (nth t (lh g) 0 ∈ lh g) as Hin by (apply list_elem_of_In, nth_In; lia).
  rewrite Forall_forall in ge_home0. specialize (ge_home0 _ Hin). naive_solver.
Qed.

(** Copies of the blocks with indices [ts] to the log area, and back. *)
Definition log_copies (g : log_t) (v : Z → blk) (ts : list nat) : list (Z * blk) :=
  (λ t, (l_start g + Z.of_nat t + 1, v (nth t (lh g) 0))) <$> ts.
Definition home_copies (g : log_t) (v : Z → blk) (ts : list nat) : list (Z * blk) :=
  (λ t, (nth t (lh g) 0, v (l_start g + Z.of_nat t + 1))) <$> ts.

Lemma write_log_loop g v k t b :
  geometry g (disksize b) → cache_inv b [] → (t + k = length (lh g))%nat →
  (∀ n, n ∈ lh g → is_dirty b n) → (ndirty b < length (bufs b))%nat →
  (∀ n, n ∈ lh g → content b n = v n) →
  ∃ b', forM (seq t k) write_log_one (Lst g b) = Ok (tt, Lst g b') ∧ stores b (log_copies g v (seq t k)) b'.
Proof.
  revert t b. induction k as [|k IH]; intros t b Hg Hinv Htk Hdirty Hroom Hv.
  { exists b. split; [done|by apply stores_nil]. }
  destruct (geometry_nth g (disksize b) t Hg) as (Hin & Hr & Hout); [lia|].
  pose proof Hg as [Hdev Hs Ha Hl Hm Hsz Hnd Hho].
  destruct (write_log_one_ok (Lst g b) t) as (b1 & H1 & Hst).
  { constructor; simpl; auto; lia. }
  simpl in H1, Hst. pose proof (Hv _ Hin) as Hvt. rewrite Hvt in Hst.
  pose proof Hst as [S1 S2 S3 S4 S5 S6 S7 S8].
  destruct (IH (S t) b1) as (b' & H2 & Hss).
  - by rewrite S3.
  - done.
  - lia.
  - intros n Hn. apply S6. split; [by apply Hdirty|]. intros ->.
    rewrite Forall_forall in Hho. specialize (Hho _ Hn). lia.
  - lia.
  - intros n Hn. rewrite S5, (proj2 (Z.eqb_neq _ _)); [by apply Hv|]. intros ->.
    rewrite Forall_forall in Hho. specialize (Hho _ Hn). lia.
  - exists b'. split; [cbn [seq forM]; by erewrite bind_Ok_l by done|].
    cbn [seq]. change (log_copies g v (t :: seq (S t) k)) with
      ([(l_start g + Z.of_nat t + 1, v (nth t (lh g) 0))] ++ log_copies g v (seq (S t) k)).
    eapply stores_trans; [by apply stores_one|done].
Qed.

Lemma NoDup_nth_ne (l : list Z) t u :
  NoDup l → (t < length l)%nat → (u < length l)%nat → t ≠ u → nth t l 0 ≠ nth u l 0.
Proof.
  intros Hnd Ht Hu Hne He. apply Hne.
  destruct (lookup_lt_is_Some_2 l t Ht) as [x Hx], (lookup_lt_is_Some_2 l u Hu) as [y Hy].
  rewrite (nth_lookup_Some _ _ _ _ Hx), (nth_lookup_Some _ _ _ _ Hy) in He. subst.
  by eapply NoDup_lookup.
Qed.

Lemma install_loop g v k t b :
  geometry g (disksize b) → cache_inv b [] → (t + k = length (lh g))%nat →
  (∀ u, (t ≤ u < length (lh g))%nat → is_dirty b (nth u (lh g) 0)) ∨ (ndirty b + 1 < length (bufs b))%nat →
  (ndirty b < length (bufs b))%nat →
  (∀ u, (u < length (lh g))%nat → content b (l_start g + Z.of_nat u + 1) = v (l_start g + Z.of_nat u + 1)) →
  ∃ b', forM (seq t k) install_one (Lst g b) = Ok (tt, Lst g b') ∧ stores b (home_copies g v (seq t k)) b'.
Proof.
  revert t b. induction k as [|k IH]; intros t b Hg Hinv Htk Hd Hroom Hv.
  { exists b. split; [done|by apply stores_nil]. }
  destruct (geometry_nth g (disksize b) t Hg) as (Hin & Hr & Hout); [lia|].
  pose proof Hg as [Hdev Hs Ha Hl Hm Hsz Hnd Hho].
  destruct (install_one_ok (Lst g b) t) as (b1 & H1 & Hst).
  { constructor; simpl; auto; try lia. destruct Hd as [Hd|Hd]; [left; apply Hd; lia|by right]. }
  simpl in H1, Hst. rewrite Hv in Hst by lia. pose proof Hst as [S1 S2 S3 S4 S5 S6 S7 S8].
  destruct (IH (S t) b1) as (b' & H2 & Hss).
  - by rewrite S3.
  - done.
  - lia.
  - destruct Hd as [Hd|Hd]; [left|right; lia]. intros u Hu. apply S6. split; [apply Hd; lia|].
    apply NoDup_nth_ne; [done|lia..].
  - lia.
  - intros u Hu. rewrite S5, (proj2 (Z.eqb_neq _ _)); [by apply Hv|].
    destruct (geometry_nth g (disksize b) t Hg) as (_ & _ & ?); lia.
  - exists b'. split; [cbn [seq forM]; by erewrite bind_Ok_l by done|].
    cbn [seq]. change (home_copies g v (t :: seq (S t) k)) with
      ([(nth t (lh g) 0, v (l_start g + Z.of_nat t + 1))] ++ home_copies g v (seq (S t) k)).
    eapply stores_trans; [by apply stores_one|done].
Qed.

(** ** [commit] *)

(** A transaction ready to commit: its blocks are exactly the dirty ones. *)
Record log_ok (s : lst) : Prop := {
  lo_geom : geometry (lg s) (disksize (bio s));
  lo_inv : cache_inv (bio s) [];
  lo_dirty : ∀ n, is_dirty (bio s) n ↔ n ∈ lh (lg s);
  lo_room : (ndirty (bio s) < length (bufs (bio s)))%nat;
  lo_head : length (content (bio s) (l_start (lg s))) = 512%nat;
}.

(** The block writes of [commit], in order: log blocks, header, home blocks,
    cleared header. *)
Definition home_writes (g : log_t) (v : Z → blk) (ts : list nat) : list (Z * blk) :=
  (λ t, (nth t (lh g) 0, v (nth t (lh g) 0))) <$> ts.
Definition commit_writes (g : log_t) (v : Z → blk) : list (Z * blk) :=
  let h := encode_head (lh g) (v (l_start g)) in
  log_copies g v (seq 0 (length (lh g))) ++ [(l_start g, h)] ++
  home_writes g v (seq 0 (length (lh g))) ++ [(l_start g, encode_head [] h)].

Lemma log_copies_targets g v ts x :
  x ∈ (log_copies g v ts).*1 → ∃ t, t ∈ ts ∧ x = l_start g + Z.of_nat t + 1.
Proof.
  unfold log_copies. rewrite <- list_fmap_compose, list_elem_of_fmap. intros (t & -> & Ht). by exists t.
Qed.
Lemma log_copies_nodup g v ts : NoDup ts → NoDup (log_copies g v ts).*1.
Proof.
  intros H. unfold log_copies. rewrite <- list_fmap_compose. apply NoDup_fmap_2; [|done].
  intros t u He. simpl in He. lia.
Qed.
Lemma log_copies_read g v ts f t :
  NoDup ts → t ∈ ts → apply_writes f (log_copies g v ts) (l_start g + Z.of_nat t + 1) = v (nth t (lh g) 0).
Proof.
  intros Hnd Ht. apply apply_writes_in; [by apply log_copies_nodup|].
  apply list_elem_of_fmap. by exists t.
Qed.
Lemma home_targets g v ts x :
  x ∈ (home_writes g v ts).*1 → ∃ t, t ∈ ts ∧ x = nth t (lh g) 0.
Proof.
  unfold home_writes. rewrite <- list_fmap_compose, list_elem_of_fmap. intros (t & -> & Ht). by exists t.
Qed.
Lemma home_outside g size v ts x :
  geometry g size → (∀ t, t ∈ ts → t < length (lh g))%nat →
  l_start g ≤ x < l_start g + l_size g → x ∉ (home_writes g v ts).*1.
Proof.
  intros Hg Hts Hx Hin. apply home_targets in Hin as (t & Ht & ->).
  destruct (geometry_nth g size t Hg) as (_ & _ & ?); [by apply Hts|done].
Qed.
Lemma home_writes_nodup g size v n :
  geometry g size → (n ≤ length (lh g))%nat → NoDup (home_writes g v (seq 0 n)).*1.
Proof.
  intros Hg Hn. unfold home_writes. rewrite <- list_fmap_compose.
  apply NoDup_fmap_2_strong; [|apply NoDup_seq].
  intros t u Ht%elem_of_seq Hu%elem_of_seq He. simpl in He.
  destruct (decide (t = u)) as [|Hne]; [done|]. by destruct (NoDup_nth_ne (lh g) t u); [apply Hg|lia..|].
Qed.
Lemma home_writes_read g size v f x :
  geometry g size →
  apply_writes f (home_writes g v (seq 0 (length (lh g)))) x = if bool_decide (x ∈ lh g) then v x else f x.
Proof.
  intros Hg. case_bool_decide as Hx.
  - apply apply_writes_in; [by eapply home_writes_nodup|].
    apply list_elem_of_lookup in Hx as [t Ht]. apply list_elem_of_fmap. exists t.
    rewrite (nth_lookup_Some _ _ _ _ Ht). split; [done|]. apply elem_of_seq. apply lookup_lt_Some in Ht. lia.
  - apply apply_writes_other. intros (t & Ht & ->)%home_targets. apply Hx. apply elem_of_seq in Ht.
    eapply geometry_nth; [done|lia].
Qed.
Lemma home_copies_writes g f v ts :
  (∀ t, t ∈ ts → f (l_start g + Z.of_nat t + 1) = v (nth t (lh g) 0)) →
  home_copies g f ts = home_writes g v ts.
Proof.
  intros H. unfold home_copies, home_writes. apply list_fmap_ext. intros i t Ht. f_equal.
  apply H. by eapply list_elem_of_lookup_2.
Qed.

Lemma home_copies_ext g f v ts : (∀ x, f x = v x) → home_copies g f ts = home_copies g v ts.
Proof. intros H. unfold home_copies. apply list_fmap_ext. intros i t Ht. by rewrite H. Qed.

Lemma commit_ok s :
  log_ok s → lh (lg s) ≠ [] →
  ∃ b', commit s = Ok (tt, Lst (set_lh [] (lg s)) b') ∧
    stores (bio s) (commit_writes (lg s) (content (bio s))) b'.
Proof.
  destruct s as [g b]. intros [Hg Hinv Hdi Hroom Hhd] Hne. simpl in *.
  pose proof Hg as [Hdev Hs Ha Hl Hm Hsz Hnd Hho]. set (v := content b) in *.
  set (ts := seq 0 (length (lh g))). set (h := encode_head (lh g) (v (l_start g))).
  destruct (write_log_loop g v (length (lh g)) 0 b) as (b1 & H1 & T1); [done|done|lia|by intros; apply Hdi|done|done|].
  pose proof T1 as [P1 P2 P3 P4 P5 P6 P7 P8].
  assert (Hst : v (l_start g) = content b1 (l_start g)).
  { rewrite P5, apply_writes_other; [done|]. intros (t & _ & ?)%log_copies_targets. lia. }
  destruct (write_head_ok (Lst g b1)) as (b2 & H2 & T2%stores_one); [done|done|simpl; lia|simpl; lia|].
  simpl in H2, T2. rewrite <- Hst in T2. fold h in T2.
  pose proof (stores_trans _ _ _ _ _ T1 T2) as T12. pose proof T12 as [Q1 Q2 Q3 Q4 Q5 Q6 Q7 Q8].
  assert (Hlog : ∀ u, (u < length (lh g))%nat → content b2 (l_start g + Z.of_nat u + 1) = v (nth u (lh g) 0)).
  { intros u Hu. rewrite Q5, apply_writes_app, apply_writes_other by (simpl; rewrite list_elem_of_singleton; lia).
    apply log_copies_read; [apply NoDup_seq|]. apply elem_of_seq. lia. }
  destruct (install_loop g (content b2) (length (lh g)) 0 b2) as (b3 & H3 & T3).
  { by rewrite Q3. } { done. } { lia. }
  { left. intros u Hu. destruct (geometry_nth g (disksize b) u Hg) as (Hin & _ & Hout); [lia|].
    apply Q6. split; [by apply Hdi|]. rewrite fmap_app, not_elem_of_app. simpl. rewrite list_elem_of_singleton.
    split; [intros (t & Ht & ?)%log_copies_targets; apply elem_of_seq in Ht|]; lia. }
  { lia. } { done. }
  fold ts in T3. rewrite (home_copies_writes g (content b2) v ts) in T3 by (intros t Ht%elem_of_seq; apply Hlog; lia).
  pose proof T3 as [R1 R2 R3 R4 R5 R6 R7 R8].
  destruct (write_head_ok (Lst (set_lh [] g) b3)) as (b4 & H4 & T4%stores_one); [done|done|simpl; lia|simpl; lia|].
  simpl in H4, T4. rewrite R5, apply_writes_other in T4 by (eapply home_outside; [done| |lia]; intros t Ht%elem_of_seq; lia).
  rewrite Q5, apply_writes_app in T4. simpl in T4. unfold apply_write in T4. simpl in T4. rewrite Z.eqb_refl in T4.
  exists b4. split.
  - unfold commit. erewrite bind_Ok_l by reflexivity. simpl. rewrite bool_decide_eq_false_2 by done. cbn [negb whenM].
    unfold write_log, install_trans. erewrite bind_Ok_l by (erewrite bind_Ok_l by reflexivity; exact H1).
    erewrite bind_Ok_l by exact H2.
    erewrite bind_Ok_l by (erewrite bind_Ok_l by reflexivity; exact H3).
    erewrite bind_Ok_l by reflexivity. exact H4.
  - unfold commit_writes. fold ts h. rewrite app_assoc. eapply stores_trans; [exact T12|].
    eapply stores_trans; [exact T3|exact T4].
Qed.

(** ** Recovery *)

(** The log right after boot, on disk [d]. *)
Definition boot (start size : Z) (d : Z → blk) (dsize pid : Z) : lst :=
  Lst (Log start size 0 false 1 []) (fresh d dsize pid).

Lemma fresh_uncached d dsize pid j n c : ¬ caches (fresh d dsize pid) j n c.
Proof. intros (->%fresh_lookup & Hd & _). done. Qed.
Lemma fresh_content d dsize pid n : content (fresh d dsize pid) n = d n.
Proof. rewrite content_uncached; [done|]. intros j c. apply fresh_uncached. Qed.
Lemma fresh_clean d dsize pid n : ¬ is_dirty (fresh d dsize pid) n.
Proof. intros (j & c & Hc & _). by eapply fresh_uncached. Qed.

Lemma read_head_ok s :
  cache_inv (bio s) [] → l_dev (lg s) = 1 → 0 ≤ l_start (lg s) < disksize (bio s) →
  (ndirty (bio s) < length (bufs (bio s)))%nat →
  head_n (content (bio s) (l_start (lg s))) ≤ LOGSIZE →
  ∃ b', read_head s = Ok (tt, Lst (set_lh (decode_head (content (bio s) (l_start (lg s)))) (lg s)) b') ∧
    cache_inv b' [] ∧ same_view (bio s) b'.
Proof.
  intros Hinv Hdev Hs Hroom Hn. unfold read_head. erewrite bind_Ok_l by reflexivity. rewrite Hdev.
  destruct (bread_ok' (bio s) [] (l_start (lg s))) as (i & s1 & H1 & Hinv1 & Hv1 & _ & (b & Hb & Hd) & _);
    [done|done|right; simpl; lia|set_solver|].
  erewrite bind_Ok_l by (apply cache_Ok; done).
  erewrite bind_Ok_l by (apply cache_Ok; simpl; apply the_buf_ok, Hb). simpl.
  rewrite Hd, (proj2 (Z.ltb_ge _ _)) by done.
  destruct (brelse_ok s1 [i] i) as (s2 & H2 & Hinv2 & Hv2 & _); [done|set_solver|].
  rewrite filter_cons_False, filter_nil in Hinv2 by naive_solver.
  exists s2. split_and!; [|done|by etrans].
  erewrite bind_Ok_l by reflexivity. simpl.
  by apply (cache_Ok _ (Lst (set_lh _ (lg s)) s1)).
Qed.

(** Recovery from a disk whose header lists the blocks [l]. *)
Definition recover_writes (g : log_t) (d : Z → blk) : list (Z * blk) :=
  home_copies g d (seq 0 (length (lh g))) ++ [(l_start g, encode_head [] (d (l_start g)))].

Lemma recover_ok start size d dsize pid :
  let l := decode_head (d start) in
  let g := Log start size 0 false 1 l in
  geometry g dsize → head_n (d start) ≤ LOGSIZE →
  ∃ b', recover_from_log (boot start size d dsize pid) = Ok (tt, Lst (set_lh [] g) b') ∧
    stores (fresh d dsize pid) (recover_writes g d) b'.
Proof.
  intros l g Hg Hn. pose proof Hg as [Hdev Hs Ha Hl Hm Hsz Hnd Hho]; simpl in *.
  destruct (read_head_ok (boot start size d dsize pid)) as (b1 & H1 & Hinv1 & Hv1).
  { apply fresh_inv. } { done. } { simpl; lia. } { simpl. unfold ndirty. simpl. lia. }
  { simpl. by rewrite fresh_content. }
  simpl in H1. rewrite fresh_content in H1. fold l g in H1. destruct Hv1 as [V1 V2 V3 V4 V5 V6 V7 V8]. simpl in *.
  assert (Hnd1 : ndirty b1 = 0%nat) by (rewrite V7; done).
  assert (Hlen1 : length (bufs b1) = 30%nat) by (rewrite V8; done).
  destruct (install_loop g (content b1) (length l) 0 b1) as (b2 & H2 & T2).
  { by rewrite V2. } { done. } { done. } { right. lia. } { lia. } { done. }
  rewrite (home_copies_ext g (content b1) d) in T2 by (intros; by rewrite V5, fresh_content).
  pose proof T2 as [P1 P2 P3 P4 P5 P6 P7 P8].
  destruct (write_head_ok (Lst (set_lh [] g) b2)) as (b3 & H3 & T3%stores_one); [done|done|simpl; lia|simpl; lia|].
  simpl in H3, T3.
  assert (Hhd : content b2 start = d start).
  { rewrite P5, apply_writes_other, V5, fresh_content; [done|].
    unfold home_copies. rewrite <- list_fmap_compose, list_elem_of_fmap. intros (t & He & Ht%elem_of_seq).
    simpl in He. destruct (geometry_nth g dsize t Hg) as (_ & _ & Hout); simpl in *; lia. }
  rewrite Hhd in T3. exists b3. split.
  - unfold recover_from_log. erewrite bind_Ok_l by exact H1. unfold install_trans.
    erewrite bind_Ok_l by (erewrite bind_Ok_l by reflexivity; exact H2).
    erewrite bind_Ok_l by reflexivity. exact H3.
  - pose proof (stores_trans _ _ _ _ _ T2 T3) as [Q1 Q2 Q3 Q4 Q5 Q6 Q7 Q8]. unfold recover_writes. simpl.
    constructor; simpl; try done; try congruence; try lia.
    + by rewrite Q4, V3.
    + intros m. rewrite Q5. apply apply_writes_ext. intros; by rewrite V5.
    + intros m. by rewrite Q6, V6.
Qed.

(** ** Crash safety *)

Definition outside (g : log_t) (x : Z) : Prop := ¬ (l_start g ≤ x < l_start g + l_size g).

Lemma content_clean s held n : cache_inv s held → ¬ is_dirty s n → content s n = disk s n.
Proof.
  intros Hinv Hn. destruct (caches_dec s n) as [(i & b & Hc)|Hno]; [|by apply content_uncached].
  rewrite (content_cached s i n b); [|intros; by eapply ci_uniq|done].
  eapply ci_clean; [done|done|]. pose proof Hc as (Hb & Hd & _).
  destruct (ci_dev _ _ Hinv i b Hb) as [(_ & [?|H6] & _)|[? _]]; [done| |congruence].
  destruct Hn. exists i, b. split; [done|by apply dirty_6].
Qed.

(** Recovering a disk [d] whose header lists [l]. *)
Lemma recover_home start size d dsize pid l :
  let g := Log start size 0 false 1 l in
  decode_head (d start) = l → head_n (d start) ≤ LOGSIZE → geometry g dsize →
  ∃ s', recover_from_log (boot start size d dsize pid) = Ok (tt, s') ∧ lh (lg s') = [] ∧
    writes (bio s') = recover_writes g d ∧
    ∀ x, outside g x → disk (bio s') x = apply_writes d (home_copies g d (seq 0 (length l))) x.
Proof.
  intros g Hl Hn Hg. subst l. destruct (recover_ok start size d dsize pid Hg Hn) as (b' & Hr & [_ Hd _ Hw _ _ _ _]).
  eexists. split; [exact Hr|]. split; [done|]. split; [exact Hw|]. intros x Hx. simpl. rewrite Hd.
  unfold recover_writes. rewrite apply_writes_app, apply_writes_other; [done|].
  simpl. rewrite list_elem_of_singleton. pose proof (ge_len _ _ Hg). unfold outside in Hx. simpl in *. lia.
Qed.

Lemma geometry_lh g size l :
  geometry g size → l = lh g ∨ l = [] → geometry (Log (l_start g) (l_size g) 0 false 1 l) size.
Proof.
  intros [] [-> | ->]; constructor; simpl; try done; try lia; constructor.
Qed.

Lemma logged_home g v x f ts : outside g x → (∀ t, t ∈ ts → Z.of_nat t + 1 < l_size g) →
  apply_writes f (log_copies g v ts) x = f x.
Proof.
  intros Hx Hts. apply apply_writes_other. intros (t & Ht & ->)%log_copies_targets.
  specialize (Hts t Ht). unfold outside in Hx. lia.
Qed.

Section Crash.
Context (s : lst) (Hok : log_ok s).
Let g := lg s.
Let v := content (bio s).
Let d0 := disk (bio s).
Let ts := seq 0 (length (lh g)).
Let h := encode_head (lh g) (v (l_start g)).

Lemma crash_head_ok : head_ok (lh g) (v (l_start g)).
Proof.
  destruct Hok as [Hg _ _ _ Hh]. destruct Hg. split_and!; [done| |done].
  eapply Forall_impl; [exact ge_home0|]. simpl. lia.
Qed.
Lemma ts_bound t : t ∈ ts → (t < length (lh g))%nat ∧ Z.of_nat t + 1 < l_size g.
Proof. intros Ht%elem_of_seq. destruct Hok as [[] _ _ _ _]. unfold g in *. lia. Qed.

(** Before the header write: the old header, old home blocks. *)
Lemma crash_before k x :
  (k ≤ length (lh g))%nat → x = l_start g ∨ outside g x →
  apply_writes d0 (take k (commit_writes g v)) x = d0 x.
Proof.
  intros Hk Hx. unfold commit_writes. rewrite take_app_le by (unfold log_copies; rewrite length_fmap, length_seq; done).
  unfold log_copies. rewrite <- fmap_take.
  assert (Ht : ∀ t, t ∈ take k ts → t ∈ ts) by (intros t; apply elem_of_subseteq, subseteq_take).
  destruct Hx as [-> | Hx].
  - apply apply_writes_other. intros (t & _ & ?)%log_copies_targets. lia.
  - apply (logged_home g v); [done|]. intros t Hin. by apply ts_bound, Ht.
Qed.

(** After it, with some of the home blocks installed: the new header, the new
    contents in the log, and no other block changed. *)
Lemma crash_after c x :
  (∀ y, y ∈ c.*1 → y ∈ (home_writes g v ts).*1) →
  let d := apply_writes d0 (log_copies g v ts ++ [(l_start g, h)] ++ c) in
  d (l_start g) = h ∧ (∀ t, t ∈ ts → d (l_start g + Z.of_nat t + 1) = v (nth t (lh g) 0)) ∧
  (outside g x → x ∉ lh g → d x = d0 x).
Proof.
  intros Hc d. pose proof Hok as [Hg _ _ _ _].
  assert (Hin : ∀ y, l_start g ≤ y < l_start g + l_size g → y ∉ c.*1).
  { intros y Hy Hyc%Hc. by eapply (home_outside g) in Hyc; [|exact Hg| |]; [..|intros t Ht; by apply ts_bound|]. }
  assert (Hpos : 0 < l_size g) by (destruct Hg; unfold g; lia).
  unfold d. rewrite app_assoc, apply_writes_app. split_and!.
  - rewrite apply_writes_other by (apply Hin; lia). rewrite apply_writes_app. simpl.
    unfold apply_write. simpl. by rewrite Z.eqb_refl.
  - intros t Ht. pose proof (ts_bound t Ht). rewrite apply_writes_other by (apply Hin; lia).
    rewrite apply_writes_app, apply_writes_other by (simpl; rewrite list_elem_of_singleton; lia).
    apply log_copies_read; [apply NoDup_seq|done].
  - intros Hx Hl. rewrite apply_writes_other.
    2:{ intros Hy%Hc. apply home_targets in Hy as (t & Ht & ->). apply Hl. apply geometry_nth with (disksize (bio s)); [done|].
        by apply ts_bound. }
    rewrite apply_writes_app, apply_writes_other by (simpl; rewrite list_elem_of_singleton; unfold outside in Hx; lia).
    apply logged_home; [done|]. intros t Ht. by apply ts_bound.
Qed.

Lemma content_unlogged x : x ∉ lh g → v x = d0 x.
Proof. intros Hx. destruct Hok as [_ Hinv Hd _ _]. eapply content_clean; [exact Hinv|]. by rewrite Hd. Qed.

Definition recovered (d : Z → blk) (pid : Z) : res (unit * lst) :=
  recover_from_log (boot (l_start g) (l_size g) d (disksize (bio s)) pid).

Lemma recover_before k pid :
  (k ≤ length (lh g))%nat → head_n (d0 (l_start g)) = 0 →
  ∃ s2, recovered (apply_writes d0 (take k (commit_writes g v))) pid = Ok (tt, s2) ∧
    ∀ x, outside g x → disk (bio s2) x = d0 x.
Proof.
  intros Hk He. destruct (recover_home (l_start g) (l_size g) (apply_writes d0 (take k (commit_writes g v)))
    (disksize (bio s)) pid []) as (s2 & Hr & _ & _ & Hd).
  - unfold decode_head. by rewrite crash_before, He by auto.
  - rewrite crash_before, He by auto. done.
  - apply geometry_lh; [apply Hok|by right].
  - exists s2. split; [done|]. intros x Hx. rewrite Hd by done. simpl. by apply crash_before; auto.
Qed.

Lemma recover_after c pid :
  (∀ y, y ∈ c.*1 → y ∈ (home_writes g v ts).*1) →
  ∃ s2, recovered (apply_writes d0 (log_copies g v ts ++ [(l_start g, h)] ++ c)) pid = Ok (tt, s2) ∧
    ∀ x, outside g x → disk (bio s2) x = v x.
Proof.
  intros Hc. set (d := apply_writes d0 _).
  assert (Hfacts := λ x, crash_after c x Hc). cbn zeta in Hfacts. fold d in Hfacts.
  destruct (Hfacts 0) as (Hh & Hlog & _).
  destruct (recover_home (l_start g) (l_size g) d (disksize (bio s)) pid (lh g)) as (s2 & Hr & _ & _ & Hd).
  - rewrite Hh. apply decode_encode_head, crash_head_ok.
  - rewrite Hh. unfold h. rewrite head_n_encode by apply crash_head_ok.
    pose proof crash_head_ok as (? & _). unfold LOGSIZE, MAXOPBLOCKS. lia.
  - apply geometry_lh; [apply Hok|by left].
  - exists s2. split; [done|]. intros x Hx. rewrite Hd by done.
    rewrite (home_copies_writes _ d v) by done.
    etrans; [apply (home_writes_read (Log (l_start g) (l_size g) 0 false 1 (lh g)) (disksize (bio s)) v);
             apply geometry_lh; [apply Hok|by left]|]. simpl.
    case_bool_decide as Hl; [done|]. rewrite content_unlogged by done. by apply Hfacts.
Qed.

Lemma recover_done pid :
  ∃ s2, recovered (apply_writes d0 (commit_writes g v)) pid = Ok (tt, s2) ∧
    ∀ x, outside g x → disk (bio s2) x = v x.
Proof.
  unfold commit_writes. fold ts h. set (d := apply_writes d0 _).
  assert (Hpos : 0 < l_size g) by (destruct Hok as [[] _ _ _ _]; unfold g in *; lia).
  assert (Hds : d (l_start g) = encode_head [] h).
  { unfold d. rewrite !apply_writes_app. simpl. unfold apply_write. simpl. by rewrite Z.eqb_refl. }
  assert (Hnil : head_ok [] h).
  { split_and!; [simpl; lia|constructor|]. unfold h. rewrite length_encode_head. apply crash_head_ok. }
  destruct (recover_home (l_start g) (l_size g) d (disksize (bio s)) pid []) as (s2 & Hr & _ & _ & Hd).
  - rewrite Hds. by apply decode_encode_head.
  - rewrite Hds, head_n_encode by done. done.
  - apply geometry_lh; [apply Hok|by right].
  - exists s2. split; [done|]. intros x Hx. rewrite Hd by done. simpl. unfold d.
    rewrite !app_assoc, apply_writes_app, apply_writes_other
      by (simpl; rewrite list_elem_of_singleton; unfold outside in Hx; lia).
    rewrite apply_writes_app. unfold ts at 2. rewrite (home_writes_read g (disksize (bio s)) v) by apply Hok.
    case_bool_decide as Hl; [done|]. rewrite content_unlogged by done.
    rewrite <- (app_nil_r (log_copies g v ts ++ _)), <- app_assoc.
    by destruct (crash_after [] x) as (_ & _ & Hx'); [set_solver|apply Hx'].
Qed.
End Crash.

Lemma length_copies g v ts : length (log_copies g v ts) = length ts ∧ length (home_writes g v ts) = length ts.
Proof. unfold log_copies, home_writes. by rewrite !length_fmap. Qed.

(** C1: a transaction is atomic under crashes.  [commit] completes, and
    wherever the machine stops in its sequence of block writes, booting and
    recovering completes and leaves every block outside the log either at its
    old contents (when the header was not yet written) or at the contents the
    transaction gave it (from the header write on), all blocks the same way. *)
Theorem commit_crash_atomic s pid
    (Hok : log_ok s) (Hne : lh (lg s) ≠ []) (Hempty : head_n (disk (bio s) (l_start (lg s))) = 0) :
  ∃ s1 w, commit s = Ok (tt, s1) ∧ lh (lg s1) = [] ∧ writes (bio s1) = writes (bio s) ++ w ∧
    ∀ k, ∃ s2,
      recover_from_log (boot (l_start (lg s)) (l_size (lg s)) (apply_writes (disk (bio s)) (take k w))
                          (disksize (bio s)) pid) = Ok (tt, s2) ∧
      ∀ x, outside (lg s) x →
        disk (bio s2) x =
          if decide (k ≤ length (lh (lg s)))%nat then disk (bio s) x else content (bio s) x.
Proof.
  destruct (commit_ok s Hok Hne) as (b1 & Hc & [_ _ _ Hw _ _ _ _]).
  exists (Lst (set_lh [] (lg s)) b1), (commit_writes (lg s) (content (bio s))).
  split_and!; [done..|]. intros k. set (n := length (lh (lg s))).
  destruct (length_copies (lg s) (content (bio s)) (seq 0 n)) as [Hl1 Hl2]. rewrite length_seq in Hl1, Hl2.
  destruct (decide (k ≤ n)%nat) as [Hk|Hk]; [by apply (recover_before s Hok)|].
  destruct (decide (k ≤ 2 * n + 1)%nat) as [Hk2|Hk2].
  - unfold commit_writes. fold n. rewrite take_app_ge by lia. rewrite Hl1.
    replace (k - n)%nat with (S (k - n - 1)) by lia. cbn [app take].
    rewrite take_app_le by lia.
    apply (recover_after s Hok (take (k - n - 1) _)).
    intros y. rewrite fmap_take. apply elem_of_subseteq, subseteq_take.
  - rewrite take_ge; [by apply (recover_done s Hok)|].
    unfold commit_writes. fold n. rewrite !length_app, Hl1, Hl2. simpl. lia.
Qed.

(** A transaction of one block, 40, on a file system whose log is blocks 2 to 31. *)
Definition one_block_log : lst :=
  Lst (Log 2 30 0 false 1 [40])
    (put_buf 0 (Buf 6 1 40 None 0 (replicate 512 7)) (fresh (λ _, replicate 512 0) 1000 1)).
Lemma one_block_log_ok : log_ok one_block_log.
Proof.
  assert (Hb : bufs (fresh (λ _, replicate 512 0) 1000 1) !! 0%nat = Some buf0) by reflexivity.
  constructor.
  - constructor; simpl; try lia; try done.
    + apply NoDup_singleton.
    + repeat constructor; lia.
  - eapply inv_put; [apply fresh_inv|done|left; simpl; auto with lia|..].
    + intros _ j c _. apply fresh_uncached.
    + simpl. lia.
    + right. split_and!; [set_solver|done|done].
    + done.
  - intros n. change (lh (lg one_block_log)) with [40]. rewrite list_elem_of_singleton. split.
    + intros (j & c & Hc & Hd). apply put_buf_caches in Hc as [(_ & _ & _ & <-)|[_ Hc]]; [done| |eauto].
      by apply fresh_uncached in Hc.
    + intros ->. eexists 0%nat, _. split; [apply put_buf_caches; eauto|done].
  - vm_compute. lia.
  - vm_compute. reflexivity.
Qed.
Lemma commit_crash_atomic_witness :
  ∃ s1 w, commit one_block_log = Ok (tt, s1) ∧ writes (bio s1) = w ∧
    ∃ s2, recover_from_log (boot 2 30 (apply_writes (λ _, replicate 512 0) (take 2 w)) 1000 1) = Ok (tt, s2) ∧
      disk (bio s2) 40 = replicate 512 7.
Proof.
  destruct (commit_crash_atomic one_block_log 1 one_block_log_ok ltac:(discriminate) ltac:(vm_compute; reflexivity))
    as (s1 & w & Hc & _ & Hw & Hk).
  exists s1, w. split; [exact Hc|]. split; [exact Hw|].
  destruct (Hk 2%nat) as (s2 & Hr & Hx). exists s2. split; [exact Hr|].
  rewrite (Hx 40); [vm_compute; reflexivity|]. unfold outside; simpl. lia.
Defined.

Lemma apply_writes_again f f' l x : (x ∉ l.*1 → f x = f' x) → apply_writes f l x = apply_writes f' l x.
Proof.
  revert f f'. induction l as [|w l IH]; intros f f' H; simpl; [apply H; set_solver|].
  apply IH. intros Hx. unfold apply_write. destruct (Z.eqb_spec x w.1); [done|]. apply H. set_solver.
Qed.

(** C2: recovery can itself be interrupted.  From a disk with a well-formed
    header recovery completes; wherever its own sequence of writes is cut, a
    second recovery completes and leaves the same contents outside the log. *)
Theorem recovery_restartable g d dsize pid
    (Hg : geometry g dsize) (Hl : decode_head (d (l_start g)) = lh g)
    (Hn : head_n (d (l_start g)) ≤ LOGSIZE) (Hlen : length (d (l_start g)) = 512%nat) :
  ∃ s1, recover_from_log (boot (l_start g) (l_size g) d dsize pid) = Ok (tt, s1) ∧
    ∀ j, ∃ s2,
      recover_from_log (boot (l_start g) (l_size g) (apply_writes d (take j (writes (bio s1)))) dsize pid)
        = Ok (tt, s2) ∧
      ∀ x, outside g x → disk (bio s2) x = disk (bio s1) x.
Proof.
  assert (Hg' := geometry_lh g dsize (lh g) Hg (or_introl eq_refl)).
  destruct (recover_home (l_start g) (l_size g) d dsize pid (lh g)) as (s1 & H1 & _ & Hw & Hd1); [done..|].
  exists s1. split; [done|]. intros j. rewrite Hw. unfold recover_writes. cbn [lh l_start].
  set (c := home_copies _ d (seq 0 (length (lh g)))) in *.
  assert (Hc : ∀ x, x ∈ c.*1 → outside g x).
  { intros x. unfold c, home_copies. rewrite <- list_fmap_compose, list_elem_of_fmap.
    intros (t & -> & Ht%elem_of_seq). simpl. destruct (geometry_nth g dsize t Hg); [lia|]. unfold outside. naive_solver. }
  assert (Hpos : 0 < l_size g) by (destruct Hg; lia).
  destruct (decide (j ≤ length c)%nat) as [Hj|Hj].
  - rewrite take_app_le by done. set (d' := apply_writes d (take j c)).
    assert (Hsub : ∀ x, x ∈ (take j c).*1 → x ∈ c.*1) by (intros x; rewrite fmap_take; apply elem_of_subseteq, subseteq_take).
    assert (Hlog : ∀ x, ¬ outside g x → d' x = d x) by (intros x Hx; apply apply_writes_other; auto).
    destruct (recover_home (l_start g) (l_size g) d' dsize pid (lh g)) as (s2 & H2 & _ & _ & Hd2);
      [by rewrite Hlog by (unfold outside; lia)|by rewrite Hlog by (unfold outside; lia)|done|].
    exists s2. split; [done|]. intros x Hx. rewrite Hd1, Hd2 by done.
    replace (home_copies _ d' _) with c.
    + apply apply_writes_again. intros Hxc. apply apply_writes_other. auto.
    + unfold c, home_copies. apply list_fmap_ext. intros i t Ht. f_equal. symmetry. apply Hlog. simpl.
      apply list_elem_of_lookup_2, elem_of_seq in Ht. destruct Hg. unfold outside. lia.
  - rewrite take_ge by (rewrite length_app; simpl; lia). rewrite apply_writes_app. set (d' := apply_writes d c) in *.
    assert (Hs : d' (l_start g) = d (l_start g)) by (apply apply_writes_other; intros Hx%Hc; unfold outside in Hx; lia).
    assert (Hok : head_ok [] (d (l_start g))) by (split_and!; [simpl; lia|constructor|done]).
    destruct (recover_home (l_start g) (l_size g) (apply_writes d' [(l_start g, encode_head [] (d (l_start g)))]) dsize pid [])
      as (s2 & H2 & _ & _ & Hd2); simpl; unfold apply_write; simpl; rewrite ?Z.eqb_refl.
    + by apply decode_encode_head.
    + by rewrite head_n_encode.
    + apply geometry_lh; auto.
    + exists s2. split; [done|]. intros x Hx. rewrite Hd1, Hd2 by done. simpl. unfold apply_write. simpl.
      rewrite (proj2 (Z.eqb_neq _ _)); [done|]. intros ->. unfold outside in Hx. lia.
Qed.
Lemma recovery_restartable_witness :
  let d x := if x =? 2 then encode_head [40] (replicate 512 0) else replicate 512 x in
  ∃ s1, recover_from_log (boot 2 30 d 1000 1) = Ok (tt, s1) ∧
    ∃ s2, recover_from_log (boot 2 30 (apply_writes d (take 1 (writes (bio s1)))) 1000 1) = Ok (tt, s2) ∧
      disk (bio s2) 40 = disk (bio s1) 40.
Proof.
  cbn zeta.
  destruct (recovery_restartable (Log 2 30 0 false 1 [40])
    (λ x, if x =? 2 then encode_head [40] (replicate 512 0) else replicate 512 x) 1000 1
    (lo_geom _ one_block_log_ok) ltac:(vm_compute; reflexivity) ltac:(vm_compute; discriminate)
    ltac:(vm_compute; reflexivity)) as (s1 & H1 & Hj).
  exists s1. split; [exact H1|]. destruct (Hj 1%nat) as (s2 & H2 & Hx). exists s2. split; [exact H2|].
  apply Hx. unfold outside; simpl. lia.
Defined.

(** ** Writing in a transaction *)

Lemma absorb_elem l n m : m ∈ absorb l n ↔ m ∈ l ∨ m = n.
Proof.
  unfold absorb. destruct (find_index _ _) as [i|] eqn:Hf; [|set_solver].
  apply find_index_Some in Hf as [(x & Hx & He) _]. apply Z.eqb_eq in He as ->.
  apply list_elem_of_lookup_2 in Hx. set_solver.
Qed.
Lemma absorb_nodup l n : NoDup l → NoDup (absorb l n).
Proof.
  intros Hl. unfold absorb. destruct (find_index _ _) as [i|] eqn:Hf; [done|].
  apply NoDup_app. split_and!; [done| |apply NoDup_singleton].
  intros x Hx ->%list_elem_of_singleton. apply list_elem_of_lookup in Hx as [i Hi].
  pose proof (proj1 (find_index_None _ _) Hf i n Hi) as He. cbn beta in He. lia.
Qed.

Lemma put_dirty s i n b b1 :
  caches s i n b → dirty b1 = true → bdev b1 = 1 → blockno b1 = n →
  ∀ m, is_dirty (put_buf i b1 s) m ↔ is_dirty s m ∨ m = n.
Proof.
  intros Hc Hdb Hd1 Hn1 m. pose proof Hc as (Hb & Hd & Hn).
  assert (Hs : is_Some (bufs s !! i)) by eauto. unfold is_dirty. split.
  - intros (j & c & Hj & Hdc). apply put_buf_caches in Hj as [(-> & -> & _ & <-)|[_ Hj]]; [auto|left; eauto|done].
  - intros [(j & c & Hj & Hdc)| ->].
    + destruct (decide (j = i)) as [->|Hne].
      * destruct Hj as (? & ? & ?). exists i, b1. split; [apply put_buf_caches; [done|left; split_and!; congruence]|done].
      * exists j, c. split; [apply put_buf_caches; auto|done].
    + exists i, b1. split; [apply put_buf_caches; auto|done].
Qed.

(** The run of a change to a held buffer. *)
Lemma log_write_run s held i n b d :
  cache_inv (bio s) held → i ∈ held → caches (bio s) i n b → 1 ≤ outstanding (lg s) →
  Z.of_nat (length (lh (lg s))) < LOGSIZE → Z.of_nat (length (lh (lg s))) < l_size (lg s) - 1 →
  (cache (fill i d);; log_write i) s =
    Ok (tt, Lst (set_lh (absorb (lh (lg s)) n) (lg s)) (put_buf i (set_flags 6 (set_data d b)) (bio s))).
Proof.
  destruct s as [g bs]. simpl. intros Hinv Hi Hc Hout Hcap1 Hcap2. pose proof Hc as (Hb & Hd & Hn).
  destruct (ci_dev _ _ Hinv i b Hb) as [(_ & Hfl & Hrange)|[? _]]; [|congruence].
  assert (Hs : is_Some (bufs bs !! i)) by eauto.
  erewrite bind_Ok_l by (apply cache_Ok; simpl; by apply upd_buf_put). unfold log_write.
  erewrite bind_Ok_l by reflexivity. simpl.
  rewrite (proj2 (Z.leb_gt LOGSIZE _)), (proj2 (Z.leb_gt (l_size g - 1) _)), (proj2 (Z.ltb_ge _ _)) by lia.
  simpl. erewrite bind_Ok_l by (apply cache_Ok; simpl; apply the_buf_ok, put_buf_self; done).
  erewrite bind_Ok_l by reflexivity. simpl. rewrite Hn.
  erewrite cache_Ok by (simpl; apply upd_buf_put, put_buf_self; done). simpl. rewrite put_put.
  destruct Hfl as [Hf|Hf]; rewrite Hf; done.
Qed.

(** Writing inside a transaction.  Changing a held buffer and passing it to
    [log_write] writes nothing to the disk; the block's contents seen through
    the cache become the new ones, the logged blocks stay distinct and stay
    exactly the dirty ones (a block written twice takes one slot), so a commit
    will write precisely what was changed. *)
Theorem log_write_tracks s held i n b d
    (Hinv : cache_inv (bio s) held) (Hi : i ∈ held) (Hc : caches (bio s) i n b)
    (Hdirty : ∀ m, is_dirty (bio s) m ↔ m ∈ lh (lg s)) (Hnd : NoDup (lh (lg s)))
    (Hout : 1 ≤ outstanding (lg s))
    (Hcap : Z.of_nat (length (lh (lg s))) < LOGSIZE ∧ Z.of_nat (length (lh (lg s))) < l_size (lg s) - 1) :
  ∃ s', (cache (fill i d);; log_write i) s = Ok (tt, s') ∧
    cache_inv (bio s') held ∧ disk (bio s') = disk (bio s) ∧ writes (bio s') = writes (bio s) ∧
    (∀ m, content (bio s') m = if m =? n then d else content (bio s) m) ∧
    (∀ m, is_dirty (bio s') m ↔ m ∈ lh (lg s')) ∧ NoDup (lh (lg s')) ∧
    (∀ m, m ∈ lh (lg s') ↔ m ∈ lh (lg s) ∨ m = n) ∧
    (n ∈ lh (lg s) → lh (lg s') = lh (lg s)).
Proof.
  destruct s as [g bs]. simpl in *. pose proof Hc as (Hb & Hd & Hn).
  destruct (ci_held _ _ Hinv i b Hb) as [(_ & Hl & Hr)|[? _]]; [|done].
  destruct (ci_dev _ _ Hinv i b Hb) as [(_ & Hfl & Hrange)|[? _]]; [|congruence].
  assert (Hs : is_Some (bufs bs !! i)) by eauto.
  set (b1 := set_flags 6 (set_data d b)).
  assert (Huniq : ∀ j c, j ≠ i → ¬ caches bs j n c).
  { intros j c Hne Hj. apply Hne. by eapply (ci_uniq _ _ Hinv j i). }
  exists (Lst (set_lh (absorb (lh g) n) g) (put_buf i b1 bs)). split.
  - by apply (log_write_run (Lst g bs) held i n b d); simpl; try lia.
  - simpl. assert (Hdi := put_dirty bs i n b b1 Hc eq_refl Hd Hn).
    split_and!; try done.
    + eapply inv_put; [done|done|left; simpl; auto|by simpl; rewrite Hn|done|left; auto|done].
    + intros m. rewrite (content_put bs held i b) by (simpl; rewrite ?Hn; done). simpl. rewrite Hn, Hd.
      destruct (Z.eqb_spec m n) as [->|Hne]; [by rewrite bool_decide_eq_true_2|].
      by rewrite !bool_decide_eq_false_2 by naive_solver.
    + intros m. by rewrite Hdi, absorb_elem, Hdirty.
    + by apply absorb_nodup.
    + apply absorb_elem.
    + intros Hin. unfold absorb. destruct (find_index _ _) eqn:Hf; [done|].
      apply list_elem_of_lookup in Hin as [k Hk]. pose proof (proj1 (find_index_None _ _) Hf k n Hk) as He. cbn beta in He. lia.
Qed.
Definition held_block : lst :=
  Lst (Log 2 30 1 false 1 [])
    (put_buf 0 (Buf 2 1 40 (Some 1) 1 (replicate 512 0)) (fresh (λ _, replicate 512 0) 1000 1)).
Lemma held_block_inv : cache_inv (bio held_block) [0%nat].
Proof.
  eapply inv_put; [apply fresh_inv|reflexivity|left; simpl; auto with lia|..].
  - intros _ j c _. apply fresh_uncached.
  - done.
  - left. split_and!; [set_solver|done|done].
  - set_solver.
Qed.
Lemma held_block_clean m : is_dirty (bio held_block) m ↔ m ∈ lh (lg held_block).
Proof.
  split; [|intros H; by apply not_elem_of_nil in H].
  intros (j & c & Hc & Hd). apply put_buf_caches in Hc as [(_ & -> & _)|[_ Hc]]; [done| |eauto].
  by apply fresh_uncached in Hc.
Qed.
Lemma log_write_tracks_witness :
  ∃ s', (cache (fill 0 (replicate 512 7));; log_write 0) held_block = Ok (tt, s') ∧
    content (bio s') 40 = replicate 512 7 ∧ ∀ m, m ∈ lh (lg s') ↔ m ∈ lh (lg held_block) ∨ m = 40.
Proof.
  destruct (log_write_tracks held_block [0%nat] 0%nat 40 (Buf 2 1 40 (Some 1) 1 (replicate 512 0)) (replicate 512 7)
    held_block_inv ltac:(left) ltac:(repeat split) held_block_clean ltac:(constructor)
    ltac:(vm_compute; discriminate) ltac:(vm_compute; split; reflexivity))
    as (s' & H & _ & _ & _ & Hc & _ & _ & Hl & _).
  exists s'. split; [exact H|]. split; [apply (Hc 40)|exact Hl].
Defined.

(** Thirty cached blocks and the log of the file system [mkfs] builds: 30
    blocks, of which one is the header. *)
Definition crowded : lst :=
  Lst (Log 2 30 0 false 1 [])
    (set_bufs ((λ i, Buf 2 1 (100 + Z.of_nat i) None 0 []) <$> seq 0 30) (fresh (λ _, []) 1000 1)).

