(* ===== verification/Vm.v ===== *)
(** * Address spaces

    [vm.c]: two-level x86 page tables kept in the allocator's memory, and the
    routines that build, copy, shrink and free them.  The state is the
    allocator's ([Kalloc]); page directories and page tables are words of its
    memory.  Messages to the console are not represented.

    The shared-memory routines at the end of [vm.c] are in [Shm]. *)

From S2P Require Import Prelude Machine Str Spin Kalloc ProcTable.
Local Open Scope Z_scope.

Notation "x .| y" := (Z.lor x y) (at level 50, left associativity) : Z_scope.

Section Vm.
(** Linker symbols: the end of the kernel image and the start of its data. *)
Variables kend kdata : Z.
(** [readi] of [fs.c] into kernel memory, for [loaduvm]: inode, destination,
    offset, length. *)
Variable readi : Z → Z → Z → Z → M kst Z.

Definition ld (a : Z) : M kst Z := gets (λ s, load32 (k_mem s) a).
Definition st (a v : Z) : M kst unit := modify (λ s, set_mem (store32 (k_mem s) a v) s).
Definition clear (a n : Z) : M kst unit := modify (λ s, set_mem (memset (k_mem s) a 0 n) s).
Definition present (e : Z) : bool := negb (Z.land e PTE_P =? 0).

(** The address of the page table entry of [va], or 0. *)
Definition walkpgdir (pgdir va : Z) (alloc : bool) : M kst Z :=
  let pde := pgdir + 4 * PDX va in
  e ← ld pde;
  if present e then mret (P2V (PTE_ADDR e) + 4 * PTX va)
  else if negb alloc then mret 0 else
  pgtab ← kalloc;
  if pgtab =? 0 then mret 0 else
  clear pgtab PGSIZE;;
  st pde (V2P pgtab .| PTE_P .| PTE_W .| PTE_U);;
  mret (pgtab + 4 * PTX va).

(** The loop of [mappages] over at most [n] pages. *)
Fixpoint mappages_loop (n : nat) (pgdir a last pa perm : Z) : M kst Z :=
  match n with
  | O => fault "fuel"
  | S n' =>
      pte ← walkpgdir pgdir a true;
      if pte =? 0 then mret (-1) else
      e ← ld pte;
      if present e then panic "remap" else
      st pte (pa .| perm .| PTE_P);;
      if a =? last then mret 0
      else mappages_loop n' pgdir (wrap32 (a + PGSIZE)) last (wrap32 (pa + PGSIZE)) perm
  end.
(** The loop visits the pages from [a] to [last], modulo 2^32. *)
Definition mappages (pgdir va size pa perm : Z) : M kst Z :=
  let a := PGROUNDDOWN va in
  let last := PGROUNDDOWN (wrap32 (va + size - 1)) in
  mappages_loop (S (Z.to_nat (wrap32 (last - a) / PGSIZE))) pgdir a last pa perm.

(** One round of [deallocuvm]'s loop; returns the next [a]. *)
Definition dealloc_one (pgdir a : Z) : M kst Z :=
  pte ← walkpgdir pgdir a false;
  if pte =? 0 then mret (wrap32 (wrap32 (PGADDR (PDX a + 1) 0 0 - PGSIZE) + PGSIZE)) else
  e ← ld pte;
  if present e then
    let pa := PTE_ADDR e in
    if pa =? 0 then panic "kfree" else
    kfree kend (P2V pa);;
    st pte 0;;
    mret (wrap32 (a + PGSIZE))
  else mret (wrap32 (a + PGSIZE)).
Fixpoint dealloc_loop (n : nat) (pgdir a oldsz : Z) : M kst unit :=
  if a <? oldsz then
    match n with
    | O => fault "fuel"
    | S n' => a' ← dealloc_one pgdir a; dealloc_loop n' pgdir a' oldsz
    end
  else mret tt.
(** Each round advances by at least a page. *)
Definition deallocuvm (pgdir oldsz newsz : Z) : M kst Z :=
  if oldsz <=? newsz then mret oldsz else
  let a := PGROUNDUP newsz in
  dealloc_loop (Z.to_nat ((oldsz - a) / PGSIZE + 1)) pgdir a oldsz;;
  mret newsz.

(** [if (pgdir[i] & PTE_P) kfree(P2V(PTE_ADDR(pgdir[i])));] *)
Definition free_table (pgdir : Z) (i : nat) : M kst unit :=
  e ← ld (pgdir + 4 * Z.of_nat i);
  whenM (present e) (kfree kend (P2V (PTE_ADDR e))).
Definition freevm (pgdir : Z) : M kst unit :=
  if pgdir =? 0 then panic "freevm: no pgdir" else
  deallocuvm pgdir KERNBASE 0;;
  forM (seq 0 (Z.to_nat NPDENTRIES)) (free_table pgdir);;
  kfree kend pgdir.

(** [struct kmap] and the table of kernel mappings. *)
Record kmap_t := Kmap { virt : Z; phys_start : Z; phys_end : Z; perm : Z }.
Definition kmap : list kmap_t := [
  Kmap KERNBASE 0 EXTMEM PTE_W;
  Kmap KERNLINK (V2P KERNLINK) (V2P kdata) 0;
  Kmap kdata (V2P kdata) PHYSTOP PTE_W;
  Kmap DEVSPACE DEVSPACE 0 PTE_W
].
Fixpoint setup_loop (pgdir : Z) (ks : list kmap_t) : M kst Z :=
  match ks with
  | [] => mret pgdir
  | k :: ks' =>
      r ← mappages pgdir (virt k) (wrap32 (phys_end k - phys_start k)) (phys_start k) (perm k);
      if r <? 0 then freevm pgdir;; mret 0 else setup_loop pgdir ks'
  end.
Definition setupkvm : M kst Z :=
  pgdir ← kalloc;
  if pgdir =? 0 then mret 0 else
  clear pgdir PGSIZE;;
  if DEVSPACE <? P2V PHYSTOP then panic "PHYSTOP too high" else
  setup_loop pgdir kmap.

(** The copy of [init] (bytes of [initcode.S]) is passed as a list. *)
Definition inituvm (pgdir : Z) (init : list Z) : M kst unit :=
  let sz := Z.of_nat (length init) in
  if PGSIZE <=? sz then panic "inituvm: more than a page" else
  m ← kalloc;
  clear m PGSIZE;;
  mappages pgdir 0 PGSIZE (V2P m) (PTE_W .| PTE_U);;
  modify (λ s, set_mem (λ x, if (m <=? x) && (x <? m + sz) then nth (Z.to_nat (x - m)) init 0
                             else k_mem s x) s).

Fixpoint loaduvm_loop (n : nat) (pgdir addr ip offset i sz : Z) : M kst Z :=
  if i <? sz then
    match n with
    | O => fault "fuel"
    | S n' =>
        pte ← walkpgdir pgdir (addr + i) false;
        if pte =? 0 then panic "loaduvm: address should exist" else
        e ← ld pte;
        let n := if sz - i <? PGSIZE then sz - i else PGSIZE in
        r ← readi ip (P2V (PTE_ADDR e)) (wrap32 (offset + i)) n;
        if negb (r =? n) then mret (-1)
        else loaduvm_loop n' pgdir addr ip offset (wrap32 (i + PGSIZE)) sz
    end
  else mret 0.
Definition loaduvm (pgdir addr ip offset sz : Z) : M kst Z :=
  if negb (addr mod PGSIZE =? 0) then panic "loaduvm: addr must be page aligned" else
  loaduvm_loop (Z.to_nat (sz / PGSIZE + 1)) pgdir addr ip offset 0 sz.

Fixpoint allocuvm_loop (n : nat) (pgdir a oldsz newsz : Z) : M kst Z :=
  if a <? newsz then
    match n with
    | O => fault "fuel"
    | S n' =>
        m ← kalloc;
        if m =? 0 then deallocuvm pgdir newsz oldsz;; mret 0 else
        clear m PGSIZE;;
        r ← mappages pgdir a PGSIZE (V2P m) (PTE_W .| PTE_U);
        if r <? 0 then deallocuvm pgdir newsz oldsz;; kfree kend m;; mret 0
        else allocuvm_loop n' pgdir (wrap32 (a + PGSIZE)) oldsz newsz
    end
  else mret newsz.
Definition allocuvm (pgdir oldsz newsz : Z) : M kst Z :=
  if KERNBASE <=? newsz then mret 0 else
  if newsz <? oldsz then mret oldsz else
  let a := PGROUNDUP oldsz in
  allocuvm_loop (Z.to_nat ((newsz - a) / PGSIZE + 1)) pgdir a oldsz newsz.

Definition clearpteu (pgdir uva : Z) : M kst unit :=
  pte ← walkpgdir pgdir uva false;
  if pte =? 0 then panic "clearpteu" else
  e ← ld pte;
  st pte (Z.land e (wrap32 (Z.lnot PTE_U))).

(** [bad:] frees the copy. *)
Fixpoint copyuvm_loop (n : nat) (pgdir d i sz : Z) : M kst Z :=
  if i <? sz then
    match n with
    | O => fault "fuel"
    | S n' =>
        pte ← walkpgdir pgdir i false;
        if pte =? 0 then panic "copyuvm: pte should exist" else
        e ← ld pte;
        if negb (present e) then panic "copyuvm: page not present" else
        let pa := PTE_ADDR e in
        let flags := PTE_FLAGS e in
        m ← kalloc;
        if m =? 0 then freevm d;; mret 0 else
        modify (λ s, set_mem (memmove (k_mem s) m (P2V pa) PGSIZE) s);;
        r ← mappages d i PGSIZE (V2P m) flags;
        if r <? 0 then kfree kend m;; freevm d;; mret 0
        else copyuvm_loop n' pgdir d (wrap32 (i + PGSIZE)) sz
    end
  else mret d.
Definition copyuvm (pgdir sz : Z) : M kst Z :=
  d ← setupkvm;
  if d =? 0 then mret 0 else
  copyuvm_loop (Z.to_nat (sz / PGSIZE + 1)) pgdir d 0 sz.

(** A missing page table makes the code read through a null pointer. *)
Definition uva2ka (pgdir uva : Z) : M kst Z :=
  pte ← walkpgdir pgdir uva false;
  if pte =? 0 then fault "uva2ka: null pte" else
  e ← ld pte;
  if Z.land e PTE_P =? 0 then mret 0 else
  if Z.land e PTE_U =? 0 then mret 0 else
  mret (P2V (PTE_ADDR e)).

(** [buf] is a kernel address. *)
Fixpoint copyout_loop (n : nat) (pgdir va buf len : Z) : M kst Z :=
  if 0 <? len then
    match n with
    | O => fault "fuel"
    | S n' =>
        let va0 := PGROUNDDOWN va in
        pa0 ← uva2ka pgdir va0;
        if pa0 =? 0 then mret (-1) else
        let k := PGSIZE - (va - va0) in
        let k := if len <? k then len else k in
        modify (λ s, set_mem (memmove (k_mem s) (pa0 + (va - va0)) buf k) s);;
        copyout_loop n' pgdir (wrap32 (va0 + PGSIZE)) (buf + k) (len - k)
    end
  else mret 0.
Definition copyout (pgdir va p len : Z) : M kst Z :=
  copyout_loop (Z.to_nat (len / PGSIZE + 2)) pgdir va p len.
End Vm.

(** ** Segments and the switch to an address space *)

(** [struct segdesc], [SEG] and [SEG16]. *)
Record segdesc := Segdesc {
  lim_15_0 : Z; base_15_0 : Z; base_23_16 : Z; sd_type : Z; sd_s : Z; sd_dpl : Z; sd_p : Z;
  lim_19_16 : Z; sd_avl : Z; sd_rsv1 : Z; sd_db : Z; sd_g : Z; base_31_24 : Z }.
Definition SEG (type base lim dpl : Z) : segdesc :=
  Segdesc (Z.land (Z.shiftr lim 12) 0xffff) (Z.land base 0xffff) (Z.land (Z.shiftr base 16) 0xff) type 1 dpl 1
    (Z.shiftr lim 28) 0 0 1 1 (Z.shiftr base 24).
Definition SEG16 (type base lim dpl : Z) : segdesc :=
  Segdesc (Z.land lim 0xffff) (Z.land base 0xffff) (Z.land (Z.shiftr base 16) 0xff) type 1 dpl 1
    (Z.shiftr lim 16) 0 0 1 0 (Z.shiftr base 24).
Definition STA_X : Z := 0x8.
Definition STA_W : Z := 0x2.
Definition STA_R : Z := 0x2.
Definition STS_T32A : Z := 0x9.
(** The segment table [seginit] loads: entries 1 to 4. *)
Definition seginit : list segdesc :=
  [SEG (STA_X .| STA_R) 0 0xffffffff 0; SEG STA_W 0 0xffffffff 0;
   SEG (STA_X .| STA_R) 0 0xffffffff DPL_USER; SEG STA_W 0 0xffffffff DPL_USER].

(** The registers [switchuvm] and [switchkvm] load: page table base and kernel
    stack. *)
Record mmu_regs := Mmu { cr3 : Z; ss0 : Z; esp0 : Z }.
Definition switchuvm (p : option proc) : M mmu_regs unit :=
  match p with
  | None => panic "switchuvm: no process"
  | Some p =>
      if kstack p =? 0 then panic "switchuvm: no kstack" else
      if pgdir p =? 0 then panic "switchuvm: no pgdir" else
      put (Mmu (V2P (pgdir p)) (Z.shiftl SEG_KDATA 3) (wrap32 (kstack p + KSTACKSIZE)))
  end.
Definition switchkvm (kpgdir : Z) : M mmu_regs unit :=
  modify (λ r, Mmu (V2P kpgdir) (ss0 r) (esp0 r)).
