(* ===== verification/VmOk.v ===== *)
(** * Page tables translate as intended

    The two-level tables that [Vm] keeps in memory, as a map from virtual pages
    to page table entries.  [walkpgdir] and [mappages] extend this map exactly
    at the pages asked for, taking table pages from the free list and touching
    no other memory. *)

From S2P Require Import Prelude Machine Str Spin Kalloc Vm.
Local Open Scope Z_scope.

Section Spaces.
Variable kend : Z.
Hypothesis kend_pos : 0 < kend.
Notation valid_page := (valid_page kend).
Notation kinv := (kinv kend).

Definition in_page (p x : Z) : Prop := p ≤ x < p + PGSIZE.

(** An address space: page directory [pgdir], with [tabs i] the page table
    (its kernel address) of directory entry [i]. *)
Record space (m : mem) (pgdir : Z) (tabs : Z → option Z) : Prop := {
  sp_dir : valid_page pgdir;
  sp_tab : ∀ i t, tabs i = Some t → 0 ≤ i < 1024 ∧ valid_page t ∧ t ≠ pgdir;
  sp_inj : ∀ i j t, tabs i = Some t → tabs j = Some t → i = j;
  sp_pde : ∀ i, 0 ≤ i < 1024 →
    match tabs i with
    | Some t => load32 m (pgdir + 4 * i) = V2P t .| PTE_P .| PTE_W .| PTE_U
    | None => present (load32 m (pgdir + 4 * i)) = false
    end;
}.
(** Its pages are not free. *)
Definition apart (l : list Z) (pgdir : Z) (tabs : Z → option Z) : Prop :=
  pgdir ∉ l ∧ ∀ i t, tabs i = Some t → t ∉ l.

(** The page table entry of [va]; 0 where there is no table. *)
Definition pte_at (m : mem) (tabs : Z → option Z) (va : Z) : Z :=
  match tabs (PDX va) with Some t => load32 m (t + 4 * PTX va) | None => 0 end.
(** Two addresses in the same page. *)
Definition same_page (a b : Z) : Prop := a / PGSIZE = b / PGSIZE.

Lemma valid_page_range v : valid_page v → KERNBASE ≤ v < KERNBASE + PHYSTOP ∧ V2P v = v - KERNBASE.
Proof.
  intros (Hm & Hr & Hp). unfold V2P, wrap32 in *.
  change KERNBASE with 2147483648 in *. change PHYSTOP with 234881024 in *.
  Z.div_mod_to_equations. lia.
Qed.

Lemma flags7 x : x .| PTE_P .| PTE_W .| PTE_U = Z.lor x 7.
Proof. by rewrite <- !Z.lor_assoc. Qed.
Lemma aligned_lor x f : x mod PGSIZE = 0 → 0 ≤ f < PGSIZE → Z.lor x f = x + f.
Proof.
  intros Hx Hf. change PGSIZE with (2^12) in *.
  replace x with ((x / 2^12) * 2^12) by (Z.div_mod_to_equations; lia).
  apply lor_add_disjoint; lia.
Qed.
Lemma PTE_ADDR_add x f : is_u32 (x + f) → x mod PGSIZE = 0 → 0 ≤ f < PGSIZE → PTE_ADDR (x + f) = x.
Proof.
  intros Hu Hx Hf. rewrite PTE_ADDR_spec by done. change PGSIZE with 4096 in *. Z.div_mod_to_equations. lia.
Qed.
Lemma present_add x f : x mod PGSIZE = 0 → present (x + f) = Z.odd f.
Proof.
  intros Hx. unfold present, PTE_P. change 1 with (Z.ones 1) at 1. rewrite Z.land_ones by lia.
  change PGSIZE with 4096 in *.
  replace ((x + f) mod 2^1) with (f mod 2) by (change (2^1) with 2; Z.div_mod_to_equations; lia).
  rewrite Zmod_odd. by destruct (Z.odd f).
Qed.

Lemma V2P_aligned t : valid_page t → V2P t mod PGSIZE = 0 ∧ 0 ≤ V2P t ∧ V2P t + PGSIZE ≤ 2^31.
Proof.
  intros Ht. pose proof Ht as (Hm & _). apply valid_page_range in Ht as [Hr ->].
  change PGSIZE with 4096 in *. change KERNBASE with 2147483648 in *. change PHYSTOP with 234881024 in *.
  split; [|lia]. Z.div_mod_to_equations. lia.
Qed.
Lemma pde_points t : valid_page t →
  let e := V2P t .| PTE_P .| PTE_W .| PTE_U in present e = true ∧ P2V (PTE_ADDR e) = t ∧ is_u32 e.
Proof.
  intros Ht. cbn zeta. destruct (V2P_aligned t Ht) as (Ha & Hz & Hb). change PGSIZE with 4096 in *.
  rewrite flags7, aligned_lor by (change PGSIZE with 4096; lia).
  split_and!.
  - by rewrite present_add.
  - rewrite PTE_ADDR_add by (unfold is_u32; change PGSIZE with 4096; lia). apply P2V_V2P.
    unfold is_u32. destruct Ht as (_ & ? & _). lia.
  - unfold is_u32. lia.
Qed.

Lemma PDX_range va : is_u32 va → 0 ≤ PDX va < 1024.
Proof. intros H. rewrite PDX_spec by done. unfold is_u32 in H. Z.div_mod_to_equations. lia. Qed.
Lemma PTX_range va : 0 ≤ PTX va < 1024.
Proof. rewrite PTX_spec. apply Z.mod_pos_bound. lia. Qed.
Lemma same_page_indices a b : is_u32 a → is_u32 b → PDX a = PDX b → PTX a = PTX b → same_page a b.
Proof.
  intros Ha Hb. rewrite !PDX_spec, !PTX_spec by done. unfold same_page.
  change PGSIZE with (2^12). intros H1 H2.
  assert (∀ x, x / 2^12 = x / 2^22 * 2^10 + x / 2^12 mod 2^10) as Hx.
  { intros x. Z.div_mod_to_equations. lia. }
  rewrite (Hx a), (Hx b). congruence.
Qed.
Lemma same_page_PDX a b : is_u32 a → is_u32 b → same_page a b → PDX a = PDX b ∧ PTX a = PTX b.
Proof.
  intros Ha Hb. unfold same_page. change PGSIZE with (2^12). intros H. rewrite !PDX_spec, !PTX_spec, H by done.
  split; [|done]. change (2^22) with (2^12 * 2^10). rewrite <- !Z.div_div by lia. by rewrite H.
Qed.

Lemma pages_apart p q x : valid_page p → valid_page q → p ≠ q → in_page p x → ¬ in_page q x.
Proof. intros Hp Hq Hne Hx Hy. unfold in_page in *. destruct (valid_page_disjoint kend p q Hp Hq Hne); lia. Qed.
Lemma slot_in_page p i : 0 ≤ i < 1024 → in_page p (p + 4 * i) ∧ p ≤ p + 4 * i ∧ p + 4 * i + 4 ≤ p + PGSIZE.
Proof. unfold in_page. change PGSIZE with 4096. lia. Qed.
Lemma load32_frame m m' p i :
  (∀ x, in_page p x → m' x = m x) → 0 ≤ i < 1024 → load32 m' (p + 4 * i) = load32 m (p + 4 * i).
Proof.
  intros Hf Hi. apply load32_ext. intros x Hx. apply Hf. unfold in_page. change PGSIZE with 4096. lia.
Qed.

(** ** Walking *)

Lemma walk_hit s pgdir tabs va al t :
  space (k_mem s) pgdir tabs → is_u32 va → tabs (PDX va) = Some t →
  walkpgdir pgdir va al s = Ok (t + 4 * PTX va, s).
Proof.
  intros Hsp Hva Ht. pose proof (sp_pde _ _ _ Hsp (PDX va) (PDX_range va Hva)) as He. rewrite Ht in He.
  destruct (sp_tab _ _ _ Hsp _ _ Ht) as (_ & Hv & _). destruct (pde_points t Hv) as (Hp & Ha & _).
  unfold walkpgdir, ld. erewrite bind_Ok_l by reflexivity. rewrite He, Hp, Ha. done.
Qed.
Lemma walk_miss s pgdir tabs va :
  space (k_mem s) pgdir tabs → is_u32 va → tabs (PDX va) = None → walkpgdir pgdir va false s = Ok (0, s).
Proof.
  intros Hsp Hva Ht. pose proof (sp_pde _ _ _ Hsp (PDX va) (PDX_range va Hva)) as He. rewrite Ht in He.
  unfold walkpgdir, ld. erewrite bind_Ok_l by reflexivity. rewrite He. done.
Qed.

(** The space in which table [t] has been added for directory entry [i]. *)
Definition add_tab (tabs : Z → option Z) (i t : Z) : Z → option Z :=
  λ j, if j =? i then Some t else tabs j.

Lemma load32_zero m p i : 0 ≤ i < 1024 → (∀ x, in_page p x → m x = 0) → load32 m (p + 4 * i) = 0.
Proof.
  intros Hi Hz. unfold load32. rewrite !Hz by (unfold in_page; change PGSIZE with 4096; lia). done.
Qed.

(** Memory after [walkpgdir] has installed the fresh table [t]. *)
Lemma new_table_space m pgdir tabs va t m' :
  space m pgdir tabs → is_u32 va → tabs (PDX va) = None → valid_page t → t ≠ pgdir →
  (∀ i u, tabs i = Some u → u ≠ t) →
  m' = store32 (memset m t 0 PGSIZE) (pgdir + 4 * PDX va) (V2P t .| PTE_P .| PTE_W .| PTE_U) →
  space m' pgdir (add_tab tabs (PDX va) t) ∧
  (∀ va', is_u32 va' → pte_at m' (add_tab tabs (PDX va) t) va' = pte_at m tabs va') ∧
  (∀ x, ¬ in_page t x → ¬ in_page pgdir x → m' x = m x).
Proof.
  intros Hsp Hva Hno Ht Htp Hfresh ->. pose proof Hsp as [Hd Htab Hinj Hpde].
  pose proof (PDX_range va Hva) as Hi. destruct (slot_in_page pgdir (PDX va) Hi) as (_ & Hs1 & Hs2).
  destruct (pde_points t Ht) as (_ & _ & Hu).
  set (e := V2P t .| PTE_P .| PTE_W .| PTE_U) in *.
  assert (Hms : ∀ x, memset m t 0 PGSIZE x = if decide (in_page t x) then 0 else m x).
  { intros x. rewrite memset_eq by (change PGSIZE with 4096; lia). unfold in_page. by repeat case_decide. }
  assert (Hout : ∀ x, ¬ in_page pgdir x → store32 (memset m t 0 PGSIZE) (pgdir + 4 * PDX va) e x = memset m t 0 PGSIZE x).
  { intros x Hx. apply store32_other. unfold in_page in Hx. lia. }
  split_and!.
  - constructor; [done|..].
    + intros i u. unfold add_tab. destruct (Z.eqb_spec i (PDX va)) as [->|]; [|apply Htab]. by intros [= <-].
    + intros i j u. unfold add_tab. destruct (Z.eqb_spec i (PDX va)), (Z.eqb_spec j (PDX va)); intros; simplify_eq.
      * congruence.
      * by destruct (Hfresh j u).
      * by destruct (Hfresh i u).
      * by eapply Hinj.
    + intros i Hi'. unfold add_tab. destruct (Z.eqb_spec i (PDX va)) as [->|Hne].
      * by apply load32_store32.
      * rewrite load32_store32_ne by lia. rewrite (load32_frame m); [by apply Hpde| |done].
        intros x Hx. rewrite Hms. rewrite decide_False; [done|]. by apply (pages_apart pgdir).
  - intros va' Hva'. unfold pte_at, add_tab. destruct (Z.eqb_spec (PDX va') (PDX va)) as [He|Hne].
    + rewrite He, Hno. apply load32_zero; [apply PTX_range|]. intros x Hx.
      rewrite Hout by by apply (pages_apart t). rewrite Hms. by rewrite decide_True.
    + destruct (tabs (PDX va')) as [u|] eqn:Hu'; [|done]. destruct (Htab _ _ Hu') as (_ & Huv & Hup).
      apply load32_frame; [|apply PTX_range]. intros x Hx. rewrite Hout by by apply (pages_apart u).
      rewrite Hms, decide_False; [done|]. eapply pages_apart; [exact Huv|done| |done]. by eapply Hfresh.
  - intros x Hx Hx'. rewrite Hout, Hms by done. by rewrite decide_False.
Qed.

(** What an operation on the space [pgdir] may do besides changing entries: take
    table pages from the front of the free list. *)
Record grown (pgdir : Z) (s : kst) (l : list Z) (tabs : Z → option Z)
    (s' : kst) (l' : list Z) (tabs' : Z → option Z) : Prop := {
  gr_kinv : kinv s' l';
  gr_space : space (k_mem s') pgdir tabs';
  gr_apart : apart l' pgdir tabs';
  gr_taken : ∃ k, l = k ++ l';
  gr_mono : ∀ i t, tabs i = Some t → tabs' i = Some t;
  gr_new : ∀ i t, tabs' i = Some t → tabs i = Some t ∨ t ∈ l ∧ t ∉ l';
  gr_frame : ∀ x, ¬ in_page pgdir x → (∀ i t, tabs i = Some t → ¬ in_page t x) →
    (∀ p, p ∈ l → ¬ in_page p x) → k_mem s' x = k_mem s x;
}.

Lemma grown_refl pgdir s l tabs :
  kinv s l → space (k_mem s) pgdir tabs → apart l pgdir tabs → grown pgdir s l tabs s l tabs.
Proof. intros. constructor; auto. by exists []. Qed.
Lemma grown_trans pgdir s l tabs s1 l1 tabs1 s2 l2 tabs2 :
  grown pgdir s l tabs s1 l1 tabs1 → grown pgdir s1 l1 tabs1 s2 l2 tabs2 → grown pgdir s l tabs s2 l2 tabs2.
Proof.
  intros [A1 A2 A3 [k1 A4] A5 A6 A7] [B1 B2 B3 [k2 B4] B5 B6 B7]. constructor; auto.
  - exists (k1 ++ k2). by rewrite A4, B4, app_assoc.
  - intros i t Ht. destruct (B6 i t Ht) as [H1|[H1 H2]].
    + destruct (A6 i t H1) as [?|[? Hn]]; [by left|right]. split; [done|]. intros H2. apply Hn. rewrite B4. set_solver.
    + right. split; [|done]. rewrite A4. set_solver.
  - intros x Hd Ht Hl. rewrite B7; [by apply A7|done| |].
    + intros i t Hi. destruct (A6 i t Hi) as [?|[? _]]; [by eapply Ht|by apply Hl].
    + intros p Hp. apply Hl. rewrite A4. set_solver.
Qed.

(** Writing one page of the space. *)
Lemma kinv_store s l p i v :
  kinv s l → valid_page p → p ∉ l → 0 ≤ i < 1024 → kinv (set_mem (store32 (k_mem s) (p + 4 * i) v) s) l.
Proof.
  intros Hk Hp Hn Hi. pose proof Hk as (_ & _ & _ & Hb & _). destruct (slot_in_page p i Hi) as (_ & H1 & H2).
  apply (kinv_set_mem kend kend_pos s l _ p); try done; [by apply bytes_store32|].
  intros x Hx. apply store32_other. lia.
Qed.
Lemma bytes_memset0 m p : bytes m → bytes (memset m p 0 PGSIZE).
Proof.
  intros Hb x. rewrite memset_eq by (change PGSIZE with 4096; lia). case_decide; [|apply Hb].
  unfold is_u8. done.
Qed.

Lemma walk_alloc s l pgdir tabs va :
  kinv s l → space (k_mem s) pgdir tabs → apart l pgdir tabs → is_u32 va →
  ∃ r s' l' tabs', walkpgdir pgdir va true s = Ok (r, s') ∧ grown pgdir s l tabs s' l' tabs' ∧
    (∀ va', is_u32 va' → pte_at (k_mem s') tabs' va' = pte_at (k_mem s) tabs va') ∧
    (r = 0 ∧ l = [] ∨
     ∃ t, tabs' (PDX va) = Some t ∧ r = t + 4 * PTX va ∧ r ≠ 0 ∧ (length l ≤ S (length l'))%nat).
Proof.
  intros Hk Hsp [Hdl Htl] Hva. destruct (tabs (PDX va)) as [t|] eqn:Ht.
  { exists (t + 4 * PTX va), s, l, tabs. split_and!; [by apply (walk_hit s pgdir tabs)|by apply grown_refl|done|].
    right. exists t. split_and!; [done|done| |lia]. destruct (sp_tab _ _ _ Hsp _ _ Ht) as (_ & Hv & _).
    pose proof (valid_page_pos kend kend_pos t Hv). pose proof (PTX_range va). lia. }
  pose proof (sp_pde _ _ _ Hsp (PDX va) (PDX_range va Hva)) as He. rewrite Ht in He.
  destruct (kalloc_spec kend kend_pos s l Hk) as (r & s1 & Hr & Hm & _ & Hl).
  unfold walkpgdir, ld. erewrite bind_Ok_l by reflexivity. rewrite He. cbn [negb]. erewrite bind_Ok_l by exact Hr.
  destruct l as [|p l'].
  { destruct Hl as [-> Hk1]. exists 0, s1, [], tabs. split_and!; [done| |by rewrite Hm|by left].
    constructor; rewrite ?Hm; auto; [by split|by exists []]. }
  destruct Hl as [-> Hk1].
  assert (Hp : valid_page p) by (destruct Hk as (_ & _ & Hv & _); by inversion Hv).
  assert (Hpl : p ∉ l') by (destruct Hk as (_ & Hnd & _); by apply NoDup_cons in Hnd as [? _]).
  rewrite (proj2 (Z.eqb_neq p 0)) by (pose proof (valid_page_pos kend kend_pos p Hp); lia).
  set (m1 := memset (k_mem s) p 0 PGSIZE).
  set (m2 := store32 m1 (pgdir + 4 * PDX va) (V2P p .| PTE_P .| PTE_W .| PTE_U)).
  destruct (new_table_space (k_mem s) pgdir tabs va p m2) as (Hsp2 & Hpte & Hfr); try done.
  { intros ->. apply Hdl. left. } { intros i u Hu ->. eapply Htl; [exact Hu|left]. }
  exists (p + 4 * PTX va), (set_mem m2 (set_mem m1 s1)), l', (add_tab tabs (PDX va) p). split_and!.
  - unfold clear, st. do 2 (erewrite bind_Ok_l by reflexivity; simpl). unfold m2, m1. by rewrite Hm.
  - assert (Hk2 : kinv (set_mem m1 s1) l').
    { apply (kinv_set_mem kend kend_pos s1 l' m1 p); try done.
      - apply bytes_memset0. rewrite <- Hm. by destruct Hk1 as (_ & _ & _ & ? & _).
      - intros x Hx. unfold m1. rewrite memset_eq, decide_False, Hm by (change PGSIZE with 4096 in *; lia). done. }
    constructor; try done.
    + apply kinv_store; [done|apply Hsp|set_solver|by apply PDX_range].
    + split; [set_solver|]. intros i t. unfold add_tab. destruct (_ =? _); [by intros [= <-]|].
      intros Hi Hin. eapply Htl; [exact Hi|by right].
    + by exists [p].
    + intros i t Hi. unfold add_tab. destruct (Z.eqb_spec i (PDX va)); congruence.
    + intros i t. unfold add_tab. destruct (_ =? _); [|by left]. intros [= <-]. right. split; [left|done].
    + intros x Hx _ Hxl. simpl. apply Hfr; [apply Hxl; left|done].
  - done.
  - right. exists p. unfold add_tab. rewrite Z.eqb_refl. split_and!; [done|done| |simpl; lia].
    pose proof (valid_page_pos kend kend_pos p Hp). pose proof (PTX_range va). lia.
Qed.

Lemma set_pte s l pgdir tabs va t v :
  kinv s l → space (k_mem s) pgdir tabs → apart l pgdir tabs → is_u32 va → tabs (PDX va) = Some t → is_u32 v →
  let s' := set_mem (store32 (k_mem s) (t + 4 * PTX va) v) s in
  grown pgdir s l tabs s' l tabs ∧ pte_at (k_mem s') tabs va = v ∧
  (∀ va', is_u32 va' → ¬ same_page va va' → pte_at (k_mem s') tabs va' = pte_at (k_mem s) tabs va').
Proof.
  intros Hk Hsp Hap Hva Ht Hv s'. pose proof Hsp as [Hd Htab Hinj Hpde].
  destruct (Htab _ _ Ht) as (Hi & Htv & Htp). pose proof (PTX_range va) as Hj.
  destruct (slot_in_page t (PTX va) Hj) as (_ & H1 & H2).
  assert (Hout : ∀ x, ¬ in_page t x → k_mem s' x = k_mem s x).
  { intros x Hx. apply store32_other. unfold in_page in Hx. lia. }
  split_and!.
  - constructor; auto.
    + apply kinv_store; [done|done|by eapply (proj2 Hap)|done].
    + constructor; auto. intros i Hi'. rewrite (load32_frame (k_mem s)); [by apply Hpde| |done].
      intros x Hx. apply Hout. by apply (pages_apart pgdir).
    + by exists [].
    + intros x _ Hx _. apply Hout. by eapply Hx.
  - unfold pte_at. rewrite Ht. by apply load32_store32.
  - intros va' Hva' Hne. unfold pte_at. destruct (tabs (PDX va')) as [u|] eqn:Hu; [|done].
    destruct (decide (u = t)) as [->|Hut].
    + apply load32_store32_ne. assert (PTX va' ≠ PTX va); [|lia]. intros He. apply Hne.
      apply same_page_indices; try done. by eapply Hinj.
    + apply load32_frame; [|apply PTX_range]. intros x Hx. apply Hout. destruct (Htab _ _ Hu) as (_ & ? & _).
      by apply (pages_apart u).
Qed.

Lemma lor_bound x y n : 0 ≤ n → 0 ≤ x < 2^n → 0 ≤ y < 2^n → 0 ≤ Z.lor x y < 2^n.
Proof.
  intros Hn Hx Hy. replace (Z.lor x y) with (Z.lor x y mod 2^n); [apply Z.mod_pos_bound; lia|].
  apply Z.bits_inj'. intros i Hi. destruct (decide (i < n)).
  - by rewrite Z.mod_pow2_bits_low.
  - rewrite Z.mod_pow2_bits_high, Z.lor_spec by lia.
    rewrite <- (Z.mod_small x (2^n)), <- (Z.mod_small y (2^n)) by lia.
    by rewrite !Z.mod_pow2_bits_high by lia.
Qed.
(** The entry [mappages] writes. *)
Lemma mapped_entry pa perm :
  pa mod PGSIZE = 0 → 0 ≤ pa < 2^32 → 0 ≤ perm < PGSIZE → is_u32 (pa .| perm .| PTE_P).
Proof.
  intros Ha Hb Hp. rewrite <- Z.lor_assoc. change PGSIZE with (2^12) in *.
  assert (0 ≤ Z.lor perm PTE_P < 2^12) as Hf by (apply lor_bound; unfold PTE_P; lia).
  rewrite aligned_lor by done. unfold is_u32. Z.div_mod_to_equations. lia.
Qed.

(** ** [mappages] *)

Lemma mappages_loop_S n pgdir a last pa perm :
  mappages_loop (S n) pgdir a last pa perm =
    (pte ← walkpgdir pgdir a true;
     if pte =? 0 then mret (-1) else
     e ← ld pte;
     if present e then panic "remap" else
     st pte (pa .| perm .| PTE_P);;
     if a =? last then mret 0
     else mappages_loop n pgdir (wrap32 (a + PGSIZE)) last (wrap32 (pa + PGSIZE)) perm).
Proof. done. Qed.

Lemma mappages_loop_ok n : ∀ s l pgdir tabs a pa perm,
  kinv s l → space (k_mem s) pgdir tabs → apart l pgdir tabs →
  a mod PGSIZE = 0 → 0 ≤ a → a + Z.of_nat n * PGSIZE < 2^32 →
  pa mod PGSIZE = 0 → 0 ≤ pa → pa + Z.of_nat n * PGSIZE < 2^32 → 0 ≤ perm < PGSIZE →
  (∀ i, 0 ≤ i ≤ Z.of_nat n → present (pte_at (k_mem s) tabs (a + i * PGSIZE)) = false) →
  ∃ r s' l' tabs', mappages_loop (S n) pgdir a (a + Z.of_nat n * PGSIZE) pa perm s = Ok (r, s') ∧
    grown pgdir s l tabs s' l' tabs' ∧
    (∀ va, is_u32 va → ¬ (a ≤ va < a + (Z.of_nat n + 1) * PGSIZE) →
       pte_at (k_mem s') tabs' va = pte_at (k_mem s) tabs va) ∧
    (r = 0 ∧ (∀ i, 0 ≤ i ≤ Z.of_nat n →
        pte_at (k_mem s') tabs' (a + i * PGSIZE) = (pa + i * PGSIZE) .| perm .| PTE_P) ∧
        (length l ≤ S n + length l')%nat ∨
     r = -1 ∧ l' = [] ∧ (length l ≤ n)%nat).
Proof.
  change PGSIZE with 4096 in *.
  induction n as [|n IH]; intros s l pgdir tabs a pa perm Hk Hsp Hap Ha Ha0 Hlast Hpa Hpa0 Hplast Hperm Hfree.
  all: assert (Hau : is_u32 a) by (unfold is_u32; lia).
  all: destruct (walk_alloc s l pgdir tabs a Hk Hsp Hap Hau) as (r & s1 & l1 & tabs1 & Hw & Hg & Hpte & Hr).
  all: rewrite mappages_loop_S; erewrite bind_Ok_l by exact Hw; destruct Hr as [[-> ->]|(t & Ht & Hrt & Hr0 & Hlen)];
    [exists (-1), s1, l1, tabs1; split_and!; auto; right; split_and!; [done| |simpl; lia];
     destruct (gr_taken _ _ _ _ _ _ _ Hg) as [k Hk']; by destruct k, l1|].
  all: rewrite (proj2 (Z.eqb_neq r 0) Hr0); unfold ld, st; erewrite bind_Ok_l by reflexivity;
    assert (He : load32 (k_mem s1) r = pte_at (k_mem s) tabs a)
      by (rewrite <- Hpte by done; unfold pte_at; by rewrite Ht, Hrt);
    rewrite He; pose proof (Hfree 0 ltac:(lia)) as Hf0; rewrite Z.mul_0_l, Z.add_0_r in Hf0; rewrite Hf0;
    erewrite bind_Ok_l by reflexivity;
    destruct (set_pte s1 l1 pgdir tabs1 a t (pa .| perm .| PTE_P)) as (Hg2 & Hv & Hoth);
      [apply Hg|apply Hg|apply Hg|done|done|by apply mapped_entry; try done; lia|];
    rewrite <- Hrt in Hg2, Hv, Hoth; pose proof (grown_trans _ _ _ _ _ _ _ _ _ _ Hg Hg2) as Hg3.
  - change (Z.of_nat 0) with 0. rewrite Z.mul_0_l, Z.add_0_r, Z.eqb_refl.
    exists 0, (set_mem (store32 (k_mem s1) r (pa .| perm .| PTE_P)) s1), l1, tabs1. split_and!; try done.
    + intros va Hva Hne. rewrite Hoth, Hpte by (try done; unfold same_page; change PGSIZE with 4096;
        Z.div_mod_to_equations; lia). done.
    + left. split_and!; [done| |lia]. intros i Hi. replace i with 0 by lia. by rewrite !Z.mul_0_l, !Z.add_0_r.
  - rewrite (proj2 (Z.eqb_neq _ _)) by lia.
    rewrite !wrap32_id by (unfold is_u32; change PGSIZE with 4096; lia).
    replace (a + Z.of_nat (S n) * 4096) with (a + 4096 + Z.of_nat n * 4096) by lia.
    destruct (IH (set_mem (store32 (k_mem s1) r (pa .| perm .| PTE_P)) s1) l1 pgdir tabs1 (a + 4096) (pa + 4096) perm)
      as (r2 & s2 & l2 & tabs2 & H2 & Hg4 & Hout & Hres); try apply Hg3; try lia.
    + Z.div_mod_to_equations. lia.
    + Z.div_mod_to_equations. lia.
    + intros i Hi. rewrite Hoth, Hpte by (unfold is_u32, same_page; change PGSIZE with 4096; Z.div_mod_to_equations; lia).
      replace (a + 4096 + i * 4096) with (a + (i + 1) * 4096) by lia. apply Hfree. lia.
    + exists r2, s2, l2, tabs2. split_and!; [exact H2|by eapply grown_trans| |].
      * intros va Hva Hne. rewrite Hout, Hoth, Hpte by (try done; try lia; unfold same_page; change PGSIZE with 4096;
          Z.div_mod_to_equations; lia). done.
      * destruct Hres as [(-> & Hm & Hl2)|(-> & -> & Hl2)]; [left|right; split_and!; [done|done|lia]].
        split_and!; [done| |lia]. intros i Hi. destruct (decide (i = 0)) as [->|Hi0].
        -- rewrite !Z.mul_0_l, !Z.add_0_r, Hout by (unfold is_u32; lia). done.
        -- specialize (Hm (i - 1) ltac:(lia)).
           replace (a + 4096 + (i - 1) * 4096) with (a + i * 4096) in Hm by lia.
           by replace (pa + 4096 + (i - 1) * 4096) with (pa + i * 4096) in Hm by lia.
Qed.

Lemma pte_at_page m tabs x y : is_u32 x → is_u32 y → same_page x y → pte_at m tabs x = pte_at m tabs y.
Proof.
  intros Hx Hy Hp. unfold pte_at. destruct (same_page_PDX x y Hx Hy Hp) as [-> ->]. done.
Qed.

(** C25: [mappages] maps exactly the pages asked for.  On a range with no page
    present it returns; either every page of the range then has the entry of
    the corresponding physical page with the given permissions, or the free
    list ran out and -1 is returned.  No other entry changes, new page tables
    come from the free list, and memory outside the tables and free pages is
    untouched. *)
Theorem mappages_maps s l pgdir tabs va size pa perm
    (Hk : kinv s l) (Hsp : space (k_mem s) pgdir tabs) (Hap : apart l pgdir tabs)
    (Hva : 0 ≤ va) (Hsize : 0 < size) (Hend : va + size ≤ 2^32)
    (Hpa : pa mod PGSIZE = 0) (Hpa0 : 0 ≤ pa) (Hpaend : pa + size + PGSIZE ≤ 2^32)
    (Hperm : 0 ≤ perm < PGSIZE)
    (Hfree : ∀ x, va ≤ x < va + size → present (pte_at (k_mem s) tabs x) = false) :
  ∃ r s' l' tabs', mappages pgdir va size pa perm s = Ok (r, s') ∧
    grown pgdir s l tabs s' l' tabs' ∧
    (∀ x, is_u32 x → (∀ y, va ≤ y < va + size → ¬ same_page x y) →
       pte_at (k_mem s') tabs' x = pte_at (k_mem s) tabs x) ∧
    (r = 0 ∧ (∀ x, va ≤ x < va + size →
        pte_at (k_mem s') tabs' x = (pa + (x / PGSIZE - va / PGSIZE) * PGSIZE) .| perm .| PTE_P) ∨
     r = -1 ∧ l' = []).
Proof.
  set (n := Z.to_nat ((va + size - 1) / PGSIZE - va / PGSIZE)). set (a := va - va mod PGSIZE).
  assert (Hu : is_u32 va ∧ is_u32 (va + size - 1)) by (unfold is_u32; lia).
  assert (Hn : Z.of_nat n = (va + size - 1) / PGSIZE - va / PGSIZE).
  { unfold n. rewrite Z2Nat.id; [done|]. change PGSIZE with 4096. Z.div_mod_to_equations. lia. }
  assert (Ha : a = va / PGSIZE * PGSIZE) by (unfold a; change PGSIZE with 4096; Z.div_mod_to_equations; lia).
  assert (Hlast : PGROUNDDOWN (wrap32 (va + size - 1)) = a + Z.of_nat n * PGSIZE).
  { rewrite wrap32_id, PGROUNDDOWN_spec by tauto. rewrite Hn, Ha. change PGSIZE with 4096.
    Z.div_mod_to_equations. lia. }
  destruct (mappages_loop_ok n s l pgdir tabs a pa perm) as (r & s' & l' & tabs' & Hrun & Hg & Hout & Hres); try done.
  1-4: rewrite ?Hn, ?Ha; change PGSIZE with 4096 in *; Z.div_mod_to_equations; lia.
  { intros i Hi. rewrite (pte_at_page _ _ _ (Z.max va (a + i * PGSIZE))).
    - apply Hfree. rewrite Hn in Hi. rewrite Ha. change PGSIZE with 4096 in *. Z.div_mod_to_equations. lia.
    - unfold is_u32. rewrite Hn in Hi. rewrite Ha. change PGSIZE with 4096 in *. Z.div_mod_to_equations. lia.
    - unfold is_u32. rewrite Hn in Hi. rewrite Ha. change PGSIZE with 4096 in *. Z.div_mod_to_equations. lia.
    - unfold same_page. rewrite Ha. change PGSIZE with 4096 in *. Z.div_mod_to_equations. lia. }
  exists r, s', l', tabs'. split_and!; [|done|..].
  - unfold mappages. rewrite Hlast, PGROUNDDOWN_spec by tauto. fold a.
    replace (a + Z.of_nat n * PGSIZE - a) with (Z.of_nat n * PGSIZE) by lia.
    rewrite wrap32_id by (unfold is_u32; rewrite Hn; change PGSIZE with 4096 in *; Z.div_mod_to_equations; lia).
    rewrite Z.div_mul, Nat2Z.id by (change PGSIZE with 4096; lia). done.
  - intros x Hx Hne. apply Hout; [done|]. intros Hin.
    apply (Hne (Z.max va (Z.min x (va + size - 1)))); [lia|].
    unfold same_page. rewrite Hn, Ha in Hin. change PGSIZE with 4096 in *. Z.div_mod_to_equations. lia.
  - destruct Hres as [(-> & Hm & _)|(-> & -> & _)]; [left|by right]. split; [done|]. intros x Hx.
    specialize (Hm (x / PGSIZE - va / PGSIZE)).
    assert (va / PGSIZE ≤ x / PGSIZE ≤ (va + size - 1) / PGSIZE)
      by (split; apply Z.div_le_mono; change PGSIZE with 4096; lia).
    rewrite <- Hm by lia. clear Hm.
    apply pte_at_page; [unfold is_u32; lia| |].
    + unfold is_u32. rewrite Ha. change PGSIZE with 4096 in *. Z.div_mod_to_equations. lia.
    + unfold same_page. rewrite Ha. change PGSIZE with 4096 in *. Z.div_mod_to_equations. lia.
Qed.

(** ** [allocuvm] *)

(** A page taken from the free list and filled with zeros. *)
Lemma fresh_frame s f l0 pgdir tabs :
  kinv s (f :: l0) → space (k_mem s) pgdir tabs → apart (f :: l0) pgdir tabs →
  ∃ s1, kalloc s = Ok (f, s1) ∧ f ≠ 0 ∧
    let s2 := set_mem (memset (k_mem s1) f 0 PGSIZE) s1 in
    clear f PGSIZE s1 = Ok (tt, s2) ∧ grown pgdir s (f :: l0) tabs s2 l0 tabs ∧
    (∀ x, in_page f x → k_mem s2 x = 0) ∧
    (∀ va, is_u32 va → pte_at (k_mem s2) tabs va = pte_at (k_mem s) tabs va).
Proof.
  intros Hk Hsp [Hd Ht]. pose proof Hk as (_ & Hnd & Hval & _).
  apply NoDup_cons in Hnd as [Hfl Hnd]. apply Forall_cons in Hval as [Hf Hval].
  destruct (kalloc_spec kend kend_pos s (f :: l0) Hk) as (r & s1 & Hr & Hm & _ & -> & Hk1).
  exists s1. split; [done|]. split; [pose proof (valid_page_pos kend kend_pos f Hf); lia|]. intros s2.
  assert (Hms : ∀ x, k_mem s2 x = if decide (in_page f x) then 0 else k_mem s x).
  { intros x. unfold s2. simpl. rewrite memset_eq, Hm by (change PGSIZE with 4096; lia). done. }
  assert (Hout : ∀ p, valid_page p → p ≠ f → ∀ x, in_page p x → k_mem s2 x = k_mem s x).
  { intros p Hp Hne x Hx. rewrite Hms, decide_False; [done|]. by apply (pages_apart p). }
  assert (Hpt : ∀ i t, tabs i = Some t → valid_page t ∧ t ≠ f).
  { intros i t Hi. destruct (sp_tab _ _ _ Hsp _ _ Hi) as (_ & ? & _). split; [done|]. intros ->.
    eapply Ht; [exact Hi|left]. }
  split_and!; [done| | |].
  - constructor; try done.
    + apply (kinv_set_mem kend kend_pos s1 l0 _ f); try done.
      * apply bytes_memset0. by destruct Hk1 as (_ & _ & _ & ? & _).
      * intros x Hx. rewrite memset_eq, decide_False by (change PGSIZE with 4096 in *; lia). done.
    + destruct Hsp as [A B C D]. constructor; auto. intros i Hi.
      rewrite (load32_frame (k_mem s)); [by apply D| |done]. apply Hout; [done|]. intros ->. apply Hd. left.
    + split; [set_solver|]. intros i t Hi Hin. eapply Ht; [exact Hi|by right].
    + by exists [f].
    + by left.
    + intros x _ _ Hx. rewrite Hms, decide_False; [done|]. apply Hx. left.
  - intros x Hx. by rewrite Hms, decide_True.
  - intros va Hva. unfold pte_at. destruct (tabs (PDX va)) as [t|] eqn:E; [|done].
    apply load32_frame; [|apply PTX_range]. by apply Hout; apply (Hpt _ _ E).
Qed.

(** Mapping one page. *)
Lemma mappages_one s l pgdir tabs a pa perm :
  kinv s l → space (k_mem s) pgdir tabs → apart l pgdir tabs → l ≠ [] →
  a mod PGSIZE = 0 → 0 ≤ a < KERNBASE → pa mod PGSIZE = 0 → 0 ≤ pa < 2^32 → 0 ≤ perm < PGSIZE →
  present (pte_at (k_mem s) tabs a) = false →
  ∃ s' l' tabs', mappages pgdir a PGSIZE pa perm s = Ok (0, s') ∧ grown pgdir s l tabs s' l' tabs' ∧
    (∀ va, is_u32 va → ¬ (a ≤ va < a + PGSIZE) → pte_at (k_mem s') tabs' va = pte_at (k_mem s) tabs va) ∧
    pte_at (k_mem s') tabs' a = pa .| perm .| PTE_P ∧ (length l ≤ S (length l'))%nat.
Proof.
  change PGSIZE with 4096. change KERNBASE with 2147483648.
  intros Hk Hsp Hap Hl Ha Hr Hpa Hpr Hperm Hfree.
  assert (Hau : is_u32 a) by (unfold is_u32; lia).
  assert (Hlast : PGROUNDDOWN (wrap32 (a + 4096 - 1)) = a).
  { rewrite wrap32_id, PGROUNDDOWN_spec by (unfold is_u32; Z.div_mod_to_equations; lia).
    change PGSIZE with 4096. Z.div_mod_to_equations. lia. }
  destruct (mappages_loop_ok 0 s l pgdir tabs a pa perm) as (r & s' & l' & tabs' & Hrun & Hg & Hout & Hres);
    try done; try lia.
  { intros i Hi. replace i with 0 by lia. by rewrite Z.mul_0_l, Z.add_0_r. }
  change (Z.of_nat 0) with 0 in *. rewrite Z.mul_0_l, Z.add_0_r in Hrun. change PGSIZE with 4096 in *.
  destruct Hres as [(-> & Hm & Hlen)|(_ & _ & Hlen)]; [|destruct l; [done|simpl in Hlen; lia]].
  specialize (Hm 0 ltac:(lia)). rewrite !Z.mul_0_l, !Z.add_0_r in Hm.
  exists s', l', tabs'. split_and!; try done.
  unfold mappages. rewrite Hlast, PGROUNDDOWN_spec by done. change PGSIZE with 4096. rewrite Ha, Z.sub_0_r, Z.sub_diag.
  exact Hrun.
Qed.

(** A page that is neither free nor part of the space stays so, unchanged. *)
Lemma grown_keeps pgdir s l tabs s' l' tabs' f :
  grown pgdir s l tabs s' l' tabs' → kinv s l → space (k_mem s) pgdir tabs →
  valid_page f → f ≠ pgdir → f ∉ l → (∀ i, tabs i ≠ Some f) →
  f ∉ l' ∧ (∀ i, tabs' i ≠ Some f) ∧ ∀ x, in_page f x → k_mem s' x = k_mem s x.
Proof.
  intros Hg (_ & _ & Hval & _) Hsp Hf Hd Hl Ht. rewrite Forall_forall in Hval. split_and!.
  - destruct (gr_taken _ _ _ _ _ _ _ Hg) as [k ->]. set_solver.
  - intros i Hi. destruct (gr_new _ _ _ _ _ _ _ Hg i f Hi) as [?|[? _]]; [by eapply Ht|done].
  - intros x Hx. apply (gr_frame _ _ _ _ _ _ _ Hg).
    + apply (pages_apart f); auto. apply Hsp.
    + intros i t Hi. destruct (sp_tab _ _ _ Hsp _ _ Hi) as (_ & ? & _). apply (pages_apart f); try done.
      intros ->. by eapply Ht.
    + intros p Hp. apply (pages_apart f); auto. by intros ->.
Qed.

(** One round of the loop: [f] backs the page at [a]. *)
Lemma alloc_one s f l0 pgdir tabs a :
  kinv s (f :: l0) → space (k_mem s) pgdir tabs → apart (f :: l0) pgdir tabs → l0 ≠ [] →
  a mod PGSIZE = 0 → 0 ≤ a < KERNBASE → present (pte_at (k_mem s) tabs a) = false →
  ∃ s1 s2 s' l' tabs', kalloc s = Ok (f, s1) ∧ f ≠ 0 ∧ clear f PGSIZE s1 = Ok (tt, s2) ∧
    mappages pgdir a PGSIZE (V2P f) (PTE_W .| PTE_U) s2 = Ok (0, s') ∧
    grown pgdir s (f :: l0) tabs s' l' tabs' ∧ (length l0 ≤ S (length l'))%nat ∧
    (valid_page f ∧ f ≠ pgdir ∧ f ∉ l' ∧ (∀ i, tabs' i ≠ Some f) ∧ ∀ x, in_page f x → k_mem s' x = 0) ∧
    pte_at (k_mem s') tabs' a = V2P f .| (PTE_W .| PTE_U) .| PTE_P ∧
    (∀ va, is_u32 va → ¬ (a ≤ va < a + PGSIZE) → pte_at (k_mem s') tabs' va = pte_at (k_mem s) tabs va).
Proof.
  intros Hk Hsp Hap Hl0 Ha Har Hfree. pose proof Hk as (_ & Hnd & Hval & _).
  apply NoDup_cons in Hnd as [Hfl _]. apply Forall_cons in Hval as [Hf _].
  destruct (fresh_frame s f l0 pgdir tabs Hk Hsp Hap) as (s1 & H1 & Hf0 & Hcl & Hg1 & Hz & Hp1).
  set (s2 := set_mem (memset (k_mem s1) f 0 PGSIZE) s1) in *.
  destruct (V2P_aligned f Hf) as (Hfa & Hfp & Hfb).
  assert (Hau : is_u32 a) by (unfold is_u32; change KERNBASE with 2147483648 in Har; lia).
  destruct (mappages_one s2 l0 pgdir tabs a (V2P f) (PTE_W .| PTE_U)) as (s3 & l3 & tabs3 & H3 & Hg3 & Ho3 & He3 & Hl3).
  1-3: apply Hg1. all: try done. { change PGSIZE with 4096 in *. lia. } { by rewrite Hp1. }
  destruct (grown_keeps _ _ _ _ _ _ _ f Hg3) as (Hn & Ht & Hfr); try done; try apply Hg1.
  { intros ->. apply (proj1 Hap). left. } { intros i Hi. eapply (proj2 Hap); [exact Hi|left]. }
  exists s1, s2, s3, l3, tabs3. split_and!; try done.
  - by eapply grown_trans.
  - intros ->. apply (proj1 Hap). left.
  - intros x Hx. rewrite Hfr by done. by apply Hz.
  - intros va Hva Hne. by rewrite Ho3, Hp1.
Qed.

(** The pages [fs] back the addresses from [a] on, with user permissions. *)
Definition backed (m : mem) (tabs : Z → option Z) (a : Z) (fs : list Z) : Prop :=
  ∀ i f, fs !! i = Some f → pte_at m tabs (a + Z.of_nat i * PGSIZE) = V2P f .| (PTE_W .| PTE_U) .| PTE_P.

Lemma allocuvm_loop_S n pgdir a oldsz newsz :
  a < newsz → allocuvm_loop kend (S n) pgdir a oldsz newsz =
    (m ← kalloc;
     if m =? 0 then deallocuvm kend pgdir newsz oldsz;; mret 0 else
     clear m PGSIZE;;
     r ← mappages pgdir a PGSIZE (V2P m) (PTE_W .| PTE_U);
     if r <? 0 then deallocuvm kend pgdir newsz oldsz;; kfree kend m;; mret 0
     else allocuvm_loop kend n pgdir (wrap32 (a + PGSIZE)) oldsz newsz).
Proof. intros H. apply Z.ltb_lt in H. simpl. by rewrite H. Qed.

(** The bound on the rounds does not matter once it covers the range. *)
Lemma allocuvm_loop_fuel k n : ∀ pgdir a oldsz newsz s,
  newsz ≤ a + Z.of_nat n * PGSIZE → newsz ≤ a + Z.of_nat k * PGSIZE → 0 ≤ a → newsz < KERNBASE →
  allocuvm_loop kend k pgdir a oldsz newsz s = allocuvm_loop kend n pgdir a oldsz newsz s.
Proof.
  change PGSIZE with 4096. change KERNBASE with 2147483648. revert n.
  induction k as [|k IH]; intros n pgdir a oldsz newsz s Hn Hk Ha Hnew.
  { destruct n; [done|]. simpl. by rewrite (proj2 (Z.ltb_ge a newsz)) by lia. }
  destruct (decide (a < newsz)) as [Hlt|Hge].
  - destruct n as [|n]; [lia|]. rewrite !allocuvm_loop_S by done. unfold mbind, M_bind.
    destruct (kalloc s) as [[m s1]| | |]; try done. destruct (m =? 0); [done|].
    destruct (clear m PGSIZE s1) as [[? s2]| | |]; try done.
    destruct (mappages _ _ _ _ _ s2) as [[r s3]| | |]; try done. destruct (r <? 0); [done|].
    rewrite wrap32_id by (unfold is_u32; change PGSIZE with 4096; lia). apply IH; change PGSIZE with 4096; lia.
  - destruct n; simpl; by rewrite (proj2 (Z.ltb_ge a newsz)) by lia.
Qed.

Lemma allocuvm_loop_ok n : ∀ s l pgdir tabs a oldsz newsz,
  kinv s l → space (k_mem s) pgdir tabs → apart l pgdir tabs →
  a mod PGSIZE = 0 → 0 ≤ a → newsz < KERNBASE →
  a + Z.of_nat n * PGSIZE - PGSIZE < newsz ≤ a + Z.of_nat n * PGSIZE → (2 * n ≤ length l)%nat →
  (∀ x, a ≤ x < a + Z.of_nat n * PGSIZE → present (pte_at (k_mem s) tabs x) = false) →
  ∃ s' l' tabs' fs, allocuvm_loop kend n pgdir a oldsz newsz s = Ok (newsz, s') ∧
    grown pgdir s l tabs s' l' tabs' ∧ length fs = n ∧ NoDup fs ∧
    (∀ f, f ∈ fs → f ∈ l ∧ f ∉ l' ∧ (∀ i, tabs' i ≠ Some f) ∧ ∀ x, in_page f x → k_mem s' x = 0) ∧
    backed (k_mem s') tabs' a fs ∧
    (∀ va, is_u32 va → ¬ (a ≤ va < a + Z.of_nat n * PGSIZE) → pte_at (k_mem s') tabs' va = pte_at (k_mem s) tabs va).
Proof.
  change PGSIZE with 4096. change KERNBASE with 2147483648.
  induction n as [|n IH]; intros s l pgdir tabs a oldsz newsz Hk Hsp Hap Ha Ha0 Hnew Hn Hlen Hfree.
  { exists s, l, tabs, []. split_and!; try done.
    - simpl. by rewrite (proj2 (Z.ltb_ge a newsz)) by lia.
    - by apply grown_refl.
    - constructor.
    - intros f Hf. by apply elem_of_nil in Hf. }
  destruct l as [|f l0]; [simpl in Hlen; lia|].
  destruct (alloc_one s f l0 pgdir tabs a) as (s1 & s2 & s3 & l3 & tabs3 & H1 & Hf0 & H2 & H3 & Hg3 & Hl3 &
    (Hf & Hfd & Hfl & Hft & Hfz) & He3 & Ho3); try done; change PGSIZE with 4096 in *; change KERNBASE with 2147483648; try lia.
  { intros ->. simpl in Hlen. lia. } { apply Hfree. lia. }
  destruct (IH s3 l3 pgdir tabs3 (a + 4096) oldsz newsz) as (s4 & l4 & tabs4 & fs & H4 & Hg4 & Hlf & Hnd & Hfs & Hb & Ho4);
    try apply Hg3; try lia.
  { Z.div_mod_to_equations. lia. } { simpl in Hlen. lia. }
  { intros x Hx. rewrite Ho3 by (unfold is_u32; lia). apply Hfree. lia. }
  assert (Hsub : ∀ p, p ∈ l3 → p ∈ f :: l0) by (destruct (gr_taken _ _ _ _ _ _ _ Hg3) as [k ->]; set_solver).
  exists s4, l4, tabs4, (f :: fs). split_and!.
  - rewrite allocuvm_loop_S by lia. erewrite bind_Ok_l by exact H1. rewrite (proj2 (Z.eqb_neq f 0) Hf0).
    erewrite bind_Ok_l by exact H2. erewrite bind_Ok_l by exact H3. cbn [Z.ltb Z.compare].
    by rewrite wrap32_id by (unfold is_u32; change PGSIZE with 4096; lia).
  - by eapply grown_trans.
  - simpl. by rewrite Hlf.
  - apply NoDup_cons. split; [|done]. intros Hin. by destruct (Hfs f Hin) as (? & _).
  - intros g Hg. apply elem_of_cons in Hg as [->|Hg].
    + destruct (grown_keeps _ _ _ _ _ _ _ f Hg4) as (? & ? & Hfr); try done; try apply Hg3.
      split_and!; [left|done..|]. intros x Hx. rewrite Hfr by done. by apply Hfz.
    + destruct (Hfs g Hg) as (? & ? & ? & ?). split_and!; auto.
  - intros [|i] g Hi; simpl in Hi.
    + injection Hi as <-. change (Z.of_nat 0) with 0. rewrite Z.mul_0_l, Z.add_0_r, Ho4 by (unfold is_u32; lia). done.
    + rewrite <- (Hb i g Hi). f_equal. change PGSIZE with 4096. lia.
  - intros va Hva Hne. rewrite Ho4, Ho3 by (try done; lia). done.
Qed.

(** Growing an address space.  With two free pages per new page (one for
    the page, one for a page table) [allocuvm] returns the new size; every page
    between the sizes is then backed by its own zero-filled frame with user
    permissions, taken from the free list and used for nothing else, and all
    other translations are as before. *)
Theorem allocuvm_grows s l pgdir tabs oldsz newsz n
    (Hk : kinv s l) (Hsp : space (k_mem s) pgdir tabs) (Hap : apart l pgdir tabs)
    (Hold : 0 ≤ oldsz ≤ newsz) (Hnew : newsz < KERNBASE)
    (Hn : n = Z.to_nat ((PGROUNDUP newsz - PGROUNDUP oldsz) / PGSIZE)) (Hlen : (2 * n ≤ length l)%nat)
    (Hfree : ∀ x, PGROUNDUP oldsz ≤ x < PGROUNDUP newsz → present (pte_at (k_mem s) tabs x) = false) :
  ∃ s' l' tabs' fs, allocuvm kend pgdir oldsz newsz s = Ok (newsz, s') ∧
    grown pgdir s l tabs s' l' tabs' ∧ length fs = n ∧ NoDup fs ∧
    (∀ f, f ∈ fs → f ∈ l ∧ f ∉ l' ∧ (∀ i, tabs' i ≠ Some f) ∧ ∀ x, in_page f x → k_mem s' x = 0) ∧
    backed (k_mem s') tabs' (PGROUNDUP oldsz) fs ∧
    (∀ va, is_u32 va → ¬ (PGROUNDUP oldsz ≤ va < PGROUNDUP newsz) →
       pte_at (k_mem s') tabs' va = pte_at (k_mem s) tabs va).
Proof.
  change KERNBASE with 2147483648 in Hnew.
  destruct (PGROUNDUP_spec oldsz) as [Ho1 Ho2]; [change PGSIZE with 4096; lia..|].
  destruct (PGROUNDUP_spec newsz) as [Hn1 Hn2]; [change PGSIZE with 4096; lia..|].
  change PGSIZE with 4096 in *. set (a := PGROUNDUP oldsz) in *. set (b := PGROUNDUP newsz) in *.
  assert (Hb : b = a + Z.of_nat n * 4096) by (rewrite Hn; Z.div_mod_to_equations; lia).
  unfold allocuvm. rewrite (proj2 (Z.leb_gt KERNBASE newsz)) by (change KERNBASE with 2147483648; lia).
  rewrite (proj2 (Z.ltb_ge newsz oldsz)) by lia. fold a. change PGSIZE with 4096.
  rewrite (allocuvm_loop_fuel _ n) by (change PGSIZE with 4096; change KERNBASE with 2147483648; Z.div_mod_to_equations; lia).
  rewrite Hb in *. apply allocuvm_loop_ok; try done; change PGSIZE with 4096; lia.
Qed.

(** ** [deallocuvm] *)

(** A page in use by the space as a frame. *)
Definition frame_ok (l : list Z) (pgdir : Z) (tabs : Z → option Z) (f : Z) : Prop :=
  valid_page f ∧ f ∉ l ∧ f ≠ pgdir ∧ ∀ i, tabs i ≠ Some f.

Lemma user_entry f : KERNBASE < kend → valid_page f →
  let e := V2P f .| (PTE_W .| PTE_U) .| PTE_P in
  present e = true ∧ PTE_ADDR e = V2P f ∧ V2P f ≠ 0 ∧ P2V (V2P f) = f.
Proof.
  intros Hke Hf e. destruct (V2P_aligned f Hf) as (Ha & Hz & Hb).
  assert (He : e = V2P f + 7).
  { unfold e. rewrite <- Z.lor_assoc. change (PTE_W .| PTE_U .| PTE_P) with 7. by apply aligned_lor. }
  rewrite He. pose proof Hf as (_ & Hr & _). split_and!.
  - by rewrite present_add.
  - apply PTE_ADDR_add; [unfold is_u32; change PGSIZE with 4096 in *; lia|done|done].
  - destruct (valid_page_range f Hf) as [_ ->]. lia.
  - apply P2V_V2P. unfold is_u32. lia.
Qed.

(** Freeing a frame leaves the space as it is. *)
Lemma kfree_space s l pgdir tabs f :
  kinv s l → space (k_mem s) pgdir tabs → apart l pgdir tabs → frame_ok l pgdir tabs f →
  ∃ s', kfree kend f s = Ok (tt, s') ∧ kinv s' (f :: l) ∧ space (k_mem s') pgdir tabs ∧
    apart (f :: l) pgdir tabs ∧ (∀ va, is_u32 va → pte_at (k_mem s') tabs va = pte_at (k_mem s) tabs va).
Proof.
  intros Hk Hsp [Hd Ht] (Hf & Hfl & Hfd & Hft).
  destruct (kfree_spec kend kend_pos s l f Hk Hf Hfl) as (s' & H1 & Hk' & _ & Hfr & _).
  assert (Hout : ∀ p, valid_page p → p ≠ f → ∀ x, in_page p x → k_mem s' x = k_mem s x).
  { intros p Hp Hne x Hx. apply Hfr. by apply (pages_apart p). }
  exists s'. split_and!; try done.
  - destruct Hsp as [A B C D]. constructor; auto. intros i Hi.
    rewrite (load32_frame (k_mem s)); [by apply D| |done]. by apply Hout.
  - split; [by apply not_elem_of_cons|]. intros i t Hi. apply not_elem_of_cons. split; [|by eapply Ht].
    intros ->. by eapply Hft.
  - intros va Hva. unfold pte_at. destruct (tabs (PDX va)) as [t|] eqn:E; [|done].
    apply load32_frame; [|apply PTX_range]. apply Hout; [by apply (sp_tab _ _ _ Hsp _ _ E)|].
    intros ->. by eapply Hft.
Qed.

Lemma dealloc_one_ok s l pgdir tabs a f :
  KERNBASE < kend → kinv s l → space (k_mem s) pgdir tabs → apart l pgdir tabs → frame_ok l pgdir tabs f →
  0 ≤ a < KERNBASE → present (pte_at (k_mem s) tabs a) = true → PTE_ADDR (pte_at (k_mem s) tabs a) = V2P f →
  ∃ s', dealloc_one kend pgdir a s = Ok (a + PGSIZE, s') ∧ kinv s' (f :: l) ∧ space (k_mem s') pgdir tabs ∧
    apart (f :: l) pgdir tabs ∧ pte_at (k_mem s') tabs a = 0 ∧
    (∀ va, is_u32 va → ¬ same_page a va → pte_at (k_mem s') tabs va = pte_at (k_mem s) tabs va).
Proof.
  intros Hke Hk Hsp Hap Hf Har Hp Ha. change KERNBASE with 2147483648 in Har.
  assert (Hau : is_u32 a) by (unfold is_u32; lia).
  destruct (user_entry f Hke (proj1 Hf)) as (_ & _ & H0 & Hv).
  unfold pte_at in Hp, Ha. destruct (tabs (PDX a)) as [t|] eqn:E; [|done].
  destruct (kfree_space s l pgdir tabs f Hk Hsp Hap Hf) as (s1 & H1 & Hk1 & Hsp1 & Hap1 & Hp1).
  destruct (set_pte s1 (f :: l) pgdir tabs a t 0 Hk1 Hsp1 Hap1 Hau E) as (Hg & Hz & Ho); [by unfold is_u32|].
  exists (set_mem (store32 (k_mem s1) (t + 4 * PTX a) 0) s1). split_and!; try apply Hg; [|done|].
  - unfold dealloc_one. erewrite bind_Ok_l by (by apply (walk_hit s pgdir tabs)).
    destruct (sp_tab _ _ _ Hsp _ _ E) as (_ & Htv & _).
    rewrite (proj2 (Z.eqb_neq _ 0)) by (pose proof (valid_page_pos kend kend_pos t Htv); pose proof (PTX_range a); lia).
    unfold ld. erewrite bind_Ok_l by reflexivity. rewrite Hp, Ha, (proj2 (Z.eqb_neq _ 0) H0), Hv.
    erewrite bind_Ok_l by exact H1. unfold st. erewrite bind_Ok_l by reflexivity.
    by rewrite wrap32_id by (unfold is_u32; change PGSIZE with 4096; lia).
  - intros va Hva Hne. by rewrite Ho, Hp1.
Qed.

Lemma dealloc_loop_S n pgdir a oldsz : a < oldsz →
  dealloc_loop kend (S n) pgdir a oldsz = (a' ← dealloc_one kend pgdir a; dealloc_loop kend n pgdir a' oldsz).
Proof. intros H. apply Z.ltb_lt in H. simpl. by rewrite H. Qed.

Lemma dealloc_loop_ok fs : ∀ n s l pgdir tabs a oldsz,
  KERNBASE < kend → kinv s l → space (k_mem s) pgdir tabs → apart l pgdir tabs →
  NoDup fs → (∀ f, f ∈ fs → frame_ok l pgdir tabs f) → backed (k_mem s) tabs a fs →
  a mod PGSIZE = 0 → 0 ≤ a → a + Z.of_nat (length fs) * PGSIZE ≤ KERNBASE → (length fs ≤ n)%nat →
  a + Z.of_nat (length fs) * PGSIZE - PGSIZE < oldsz ≤ a + Z.of_nat (length fs) * PGSIZE →
  ∃ s', dealloc_loop kend n pgdir a oldsz s = Ok (tt, s') ∧ kinv s' (reverse fs ++ l) ∧
    space (k_mem s') pgdir tabs ∧ apart (reverse fs ++ l) pgdir tabs ∧
    (∀ va, a ≤ va < a + Z.of_nat (length fs) * PGSIZE → pte_at (k_mem s') tabs va = 0) ∧
    (∀ va, is_u32 va → ¬ (a ≤ va < a + Z.of_nat (length fs) * PGSIZE) →
      pte_at (k_mem s') tabs va = pte_at (k_mem s) tabs va).
Proof.
  change PGSIZE with 4096. change KERNBASE with 2147483648.
  induction fs as [|f fs IH]; intros n s l pgdir tabs a oldsz Hke Hk Hsp Hap Hnd Hfs Hb Ha Ha0 Hend Hn Hsz;
    cbn [length] in *.
  { exists s. split_and!; try done; [|lia]. destruct n; simpl; by rewrite (proj2 (Z.ltb_ge a oldsz)) by lia. }
  destruct n as [|n]; [lia|]. apply NoDup_cons in Hnd as [Hff Hnd].
  pose proof (Hb 0%nat f eq_refl) as He. change (Z.of_nat 0) with 0 in He. rewrite Z.mul_0_l, Z.add_0_r in He.
  destruct (user_entry f Hke (proj1 (Hfs f ltac:(left)))) as (Hp & Hpa & _). rewrite <- He in Hp, Hpa.
  destruct (dealloc_one_ok s l pgdir tabs a f) as (s1 & H1 & Hk1 & Hsp1 & Hap1 & Hz & Ho);
    try done; [apply Hfs; left|change KERNBASE with 2147483648; lia|].
  destruct (IH n s1 (f :: l) pgdir tabs (a + 4096) oldsz) as (s2 & H2 & Hk2 & Hsp2 & Hap2 & Hz2 & Ho2); try done; try lia.
  { intros g Hg. destruct (Hfs g) as (? & ? & ? & ?); [by right|]. split_and!; try done. apply not_elem_of_cons.
    split; [|done]. by intros ->. }
  { intros i g Hi. rewrite Ho.
    - rewrite <- (Hb (S i) g Hi). f_equal. change PGSIZE with 4096. lia.
    - apply lookup_lt_Some in Hi. unfold is_u32. change PGSIZE with 4096. lia.
    - unfold same_page. change PGSIZE with 4096. Z.div_mod_to_equations. lia. }
  { Z.div_mod_to_equations. lia. }
  rewrite reverse_cons, <- app_assoc. exists s2. split_and!; try done.
  - rewrite dealloc_loop_S by lia. erewrite bind_Ok_l by exact H1. done.
  - intros va Hva. destruct (decide (a + 4096 ≤ va)); [apply Hz2; lia|]. rewrite Ho2 by (unfold is_u32; lia).
    rewrite <- Hz. apply pte_at_page; [unfold is_u32; lia..|]. unfold same_page. change PGSIZE with 4096.
    Z.div_mod_to_equations. lia.
  - intros va Hva Hne. rewrite Ho2, Ho; try done; [|lia]. unfold same_page. change PGSIZE with 4096.
    Z.div_mod_to_equations. lia.
Qed.

(** Shrinking an address space gives every frame back.  When the pages
    between the sizes are backed by the frames [fs], [deallocuvm] returns the
    new size, pushes exactly [fs] on the free list, clears exactly their
    entries, and keeps the page tables and all other translations. *)
Theorem deallocuvm_frees s l pgdir tabs oldsz newsz fs
    (Hke : KERNBASE < kend) (Hk : kinv s l) (Hsp : space (k_mem s) pgdir tabs) (Hap : apart l pgdir tabs)
    (Hnd : NoDup fs) (Hfs : ∀ f, f ∈ fs → frame_ok l pgdir tabs f)
    (Hb : backed (k_mem s) tabs (PGROUNDUP newsz) fs)
    (Hsz : 0 ≤ newsz < oldsz) (Hold : oldsz ≤ KERNBASE)
    (Hn : length fs = Z.to_nat ((PGROUNDUP oldsz - PGROUNDUP newsz) / PGSIZE)) :
  ∃ s', deallocuvm kend pgdir oldsz newsz s = Ok (newsz, s') ∧ kinv s' (reverse fs ++ l) ∧
    space (k_mem s') pgdir tabs ∧ apart (reverse fs ++ l) pgdir tabs ∧
    (∀ va, PGROUNDUP newsz ≤ va < PGROUNDUP oldsz → pte_at (k_mem s') tabs va = 0) ∧
    (∀ va, is_u32 va → ¬ (PGROUNDUP newsz ≤ va < PGROUNDUP oldsz) →
      pte_at (k_mem s') tabs va = pte_at (k_mem s) tabs va).
Proof.
  change KERNBASE with 2147483648 in Hold, Hke.
  destruct (PGROUNDUP_spec newsz) as [Hn1 Hn2]; [change PGSIZE with 4096; lia..|].
  destruct (PGROUNDUP_spec oldsz) as [Ho1 Ho2]; [change PGSIZE with 4096; lia..|].
  change PGSIZE with 4096 in *. set (a := PGROUNDUP newsz) in *. set (b := PGROUNDUP oldsz) in *.
  assert (Hb' : b = a + Z.of_nat (length fs) * 4096) by (rewrite Hn; Z.div_mod_to_equations; lia).
  assert (Hb2 : b ≤ 2147483648) by (Z.div_mod_to_equations; lia).
  destruct (dealloc_loop_ok fs (Z.to_nat ((oldsz - a) / 4096 + 1)) s l pgdir tabs a oldsz) as (s' & H1 & H2);
    try done; change PGSIZE with 4096; change KERNBASE with 2147483648; try lia.
  { Z.div_mod_to_equations. lia. }
  exists s'. split; [|by rewrite Hb'].
  unfold deallocuvm. rewrite (proj2 (Z.leb_gt oldsz newsz)) by lia. fold a. change PGSIZE with 4096.
  erewrite bind_Ok_l by exact H1. done.
Qed.
End Spaces.

(** *** Witnesses *)

(** Two free pages, and an empty page directory. *)
Definition kst2 : kst :=
  Kst (k_core kst0) (initlock "kmem") true 0x80401000 (store32 (λ _, 0) 0x80401000 0x80402000).
Lemma kinv_kst2 : kinv 0x80100000 kst2 [0x80401000; 0x80402000].
Proof.
  split_and!; [done| | | |done|].
  - refine (bool_decide_unpack _ _). by vm_compute.
  - repeat constructor; by vm_compute.
  - apply bytes_store32. by intros a.
  - exists (Cpu 0 0 false None false). repeat split; simpl; lia || done.
Qed.
Definition no_tabs : Z → option Z := λ _, None.
Lemma space_kst2 : space 0x80100000 (k_mem kst2) 0x80400000 no_tabs.
Proof.
  constructor; try done. intros i Hi. cbn [no_tabs].
  replace (load32 (k_mem kst2) (0x80400000 + 4 * i)) with 0; [done|].
  unfold kst2. cbn [k_mem]. rewrite load32_store32_ne by lia. done.
Qed.
Lemma apart_kst2 : apart [0x80401000; 0x80402000] 0x80400000 no_tabs.
Proof. split; [|done]. refine (bool_decide_unpack _ _). by vm_compute. Qed.

Lemma mappages_maps_witness :
  ∃ r s', mappages 0x80400000 0x1000 0x2000 0x400000 6 kst2 = Ok (r, s') ∧
    (r = 0 ∨ r = -1).
Proof.
  destruct (mappages_maps 0x80100000 ltac:(lia) kst2 [0x80401000; 0x80402000] 0x80400000 no_tabs 0x1000 0x2000 0x400000 6
    kinv_kst2 space_kst2 apart_kst2 ltac:(lia) ltac:(lia) ltac:(lia) eq_refl ltac:(lia) ltac:(by vm_compute)
    ltac:(by vm_compute) ltac:(by intros)) as (r & s' & l' & tabs' & H & _ & _ & Hr).
  exists r, s'. split; [exact H|]. destruct Hr as [[? _]|[? _]]; [left|right]; assumption.
Defined.

Lemma allocuvm_grows_witness :
  ∃ s' f, allocuvm 0x80100000 0x80400000 0 100 kst2 = Ok (100, s') ∧ f ∈ [0x80401000; 0x80402000] ∧
    ∀ x, in_page f x → k_mem s' x = 0.
Proof.
  destruct (allocuvm_grows 0x80100000 ltac:(lia) kst2 [0x80401000; 0x80402000] 0x80400000 no_tabs 0 100 1
    kinv_kst2 space_kst2 apart_kst2 ltac:(lia) ltac:(by vm_compute) eq_refl ltac:(simpl; lia) ltac:(by intros))
    as (s' & l' & tabs' & fs & H & _ & Hl & _ & Hf & _).
  destruct fs as [|f fs]; [discriminate|]. exists s', f. split; [exact H|].
  destruct (Hf f (list_elem_of_here f fs)) as (? & _ & _ & ?). split; assumption.
Defined.

(** One page, mapped at address 0 through one page table. *)
Definition kst3 : kst :=
  Kst (k_core kst0) (initlock "kmem") true 0
    (store32 (store32 (λ _, 0) 0x80400000 0x402007) 0x80402000 0x401007).
Definition one_tab : Z → option Z := add_tab no_tabs 0 0x80402000.
Lemma kinv_kst3 : kinv 0x80100000 kst3 [].
Proof.
  split_and!; [done|constructor|constructor| |done|].
  - do 2 apply bytes_store32. by intros a.
  - exists (Cpu 0 0 false None false). repeat split; simpl; lia || done.
Qed.
Lemma space_kst3 : space 0x80100000 (k_mem kst3) 0x80400000 one_tab.
Proof.
  constructor; [by vm_compute| | |]; unfold one_tab, add_tab, no_tabs.
  - intros i t. destruct (Z.eqb_spec i 0); [|done]. intros [= <-]. subst. by vm_compute.
  - intros i j t. destruct (Z.eqb_spec i 0), (Z.eqb_spec j 0); congruence.
  - intros i Hi. unfold kst3. cbn [k_mem]. rewrite load32_store32_ne by lia.
    destruct (Z.eqb_spec i 0) as [->|]; [by vm_compute|]. rewrite load32_store32_ne by lia. done.
Qed.

Lemma deallocuvm_frees_witness :
  ∃ s', deallocuvm 0x80100000 0x80400000 100 0 kst3 = Ok (0, s') ∧ kinv 0x80100000 s' [0x80401000].
Proof.
  destruct (deallocuvm_frees 0x80100000 ltac:(lia) kst3 [] 0x80400000 one_tab 100 0 [0x80401000]) as (s' & H & H2 & _).
  - reflexivity.
  - exact kinv_kst3.
  - exact space_kst3.
  - split; [apply not_elem_of_nil|]. intros; apply not_elem_of_nil.
  - apply NoDup_singleton.
  - intros f Hf. apply list_elem_of_singleton in Hf as ->. split_and!; [by vm_compute|apply not_elem_of_nil|lia|].
    intros i. unfold one_tab, add_tab, no_tabs. destruct (i =? 0); discriminate.
  - intros [|i] f Hi; [|discriminate]. injection Hi as <-. by vm_compute.
  - lia.
  - by vm_compute.
  - reflexivity.
  - exists s'. split; [exact H|exact H2].
Defined.
