(* ===== verification/VmFree.v ===== *)
(** * Tearing down an address space

    [freevm] gives back every page of an address space exactly once: the frames
    of the user part, the page tables and the page directory. *)

From S2P Require Import Prelude Machine Str Spin Kalloc Vm VmOk.
Local Open Scope Z_scope.

Section Free.
Variable kend : Z.
Hypothesis kend_pos : 0 < kend.
Hypothesis kend_high : KERNBASE < kend.
Notation valid_page := (valid_page kend).
Notation kinv := (kinv kend).
Notation space := (space kend).
Notation frame_ok := (frame_ok kend).

(** The pages of the user part. *)
Definition NPAGES : Z := 524288.
(** [fr k] is the frame mapped at page [k] of the user part, from page [k0] on. *)
Record umap (m : mem) (l : list Z) (pgdir : Z) (tabs : Z → option Z) (fr : Z → option Z) (k0 : Z) : Prop := {
  um_entry : ∀ k, k0 ≤ k < NPAGES →
    match fr k with
    | Some f => present (pte_at m tabs (k * PGSIZE)) = true ∧ PTE_ADDR (pte_at m tabs (k * PGSIZE)) = V2P f ∧
        frame_ok l pgdir tabs f
    | None => present (pte_at m tabs (k * PGSIZE)) = false
    end;
  um_inj : ∀ i j f, k0 ≤ i < NPAGES → k0 ≤ j < NPAGES → fr i = Some f → fr j = Some f → i = j;
}.
Definition frames (fr : Z → option Z) (k : Z) : list Z := omap fr (seqZ k (NPAGES - k)).

Lemma frames_S fr k : k < NPAGES → frames fr k = (match fr k with Some f => [f] | None => [] end) ++ frames fr (k + 1).
Proof.
  intros Hk. unfold frames. rewrite (seqZ_cons k) by lia. simpl.
  replace (Z.succ k) with (k + 1) by lia. replace (Z.pred (NPAGES - k)) with (NPAGES - (k + 1)) by lia.
  by destruct (fr k).
Qed.
Lemma frames_skip fr k n : k + Z.of_nat n ≤ NPAGES → (∀ i, k ≤ i < k + Z.of_nat n → fr i = None) →
  frames fr k = frames fr (k + Z.of_nat n).
Proof.
  revert k. induction n as [|n IH]; intros k Hk Hn.
  - by rewrite Z.add_0_r.
  - rewrite frames_S by lia. rewrite (Hn k) by lia. simpl. rewrite IH; [f_equal; lia|lia|]. intros i Hi. apply Hn. lia.
Qed.

Lemma umap_tail m l pgdir tabs fr k k' : k ≤ k' → umap m l pgdir tabs fr k → umap m l pgdir tabs fr k'.
Proof. intros Hk [A B]. constructor; intros; [apply A; lia|eapply B; [| |done|done]; lia]. Qed.
(** Freeing the frame of page [k] keeps the rest. *)
Lemma umap_next m m' l pgdir tabs fr k f : fr k = Some f → 0 ≤ k < NPAGES →
  (∀ va, is_u32 va → ¬ same_page (k * PGSIZE) va → pte_at m' tabs va = pte_at m tabs va) →
  umap m l pgdir tabs fr k → umap m' (f :: l) pgdir tabs fr (k + 1).
Proof.
  unfold NPAGES. intros Hf Hk0 Hp [A B]. constructor; [|intros; eapply B; [| |done|done]; lia]. intros i Hi. unfold NPAGES in *.
  rewrite Hp.
  2:{ unfold is_u32. change PGSIZE with 4096. lia. }
  2:{ unfold same_page. change PGSIZE with 4096. rewrite !Z.div_mul by lia. lia. }
  specialize (A i ltac:(lia)). destruct (fr i) as [g|] eqn:E; [|done]. destruct A as (A1 & A2 & A3 & A4 & A5 & A6).
  split; [done|]. split; [done|]. split; [done|]. split; [|done]. apply not_elem_of_cons. split; [|done]. intros ->.
  assert (k = i); [|lia]. by apply (B k i f); try lia.
Qed.

Lemma user_addr k : 0 ≤ k < NPAGES → 0 ≤ k * PGSIZE < KERNBASE ∧ is_u32 (k * PGSIZE).
Proof. unfold NPAGES, is_u32. change KERNBASE with 2147483648. change PGSIZE with 4096. lia. Qed.
Lemma PDX_page k : 0 ≤ k < NPAGES → PDX (k * PGSIZE) = k / 1024.
Proof.
  intros Hk. rewrite PDX_spec by by apply user_addr. change PGSIZE with (2^12). change (2^22) with (2^12 * 2^10).
  rewrite <- Z.div_div, Z.div_mul by lia. done.
Qed.

(** One round: skip a missing table, skip an absent page, or free a frame. *)
Lemma dealloc_round s l pgdir tabs fr k :
  kinv s l → space (k_mem s) pgdir tabs → apart l pgdir tabs → 0 ≤ k < NPAGES → umap (k_mem s) l pgdir tabs fr k →
  ∃ k' s' fs, dealloc_one kend pgdir (k * PGSIZE) s = Ok (k' * PGSIZE, s') ∧ k < k' ≤ NPAGES ∧
    kinv s' (fs ++ l) ∧ space (k_mem s') pgdir tabs ∧ apart (fs ++ l) pgdir tabs ∧
    umap (k_mem s') (fs ++ l) pgdir tabs fr k' ∧
    frames fr k = reverse fs ++ frames fr k'.
Proof.
  intros Hk Hsp Hap Hr Hu. destruct (user_addr k Hr) as (Ha & Hau). pose proof (um_entry _ _ _ _ _ _ Hu k) as He.
  destruct (tabs (PDX (k * PGSIZE))) as [t|] eqn:Et.
  - destruct (fr k) as [f|] eqn:Ef.
    + destruct He as (Hp & Hpa & Hf); [lia|].
      destruct (dealloc_one_ok kend kend_pos s l pgdir tabs (k * PGSIZE) f) as (s' & H1 & Hk1 & Hsp1 & Hap1 & _ & Ho); try done.
      exists (k + 1), s', [f]. split_and!; try done; try lia.
      * rewrite H1. do 2 f_equal. lia.
      * by eapply umap_next.
      * rewrite frames_S by lia. by rewrite Ef.
    + specialize (He ltac:(lia)). exists (k + 1), s, []. split_and!; try done; try lia.
      * unfold dealloc_one. erewrite bind_Ok_l by (by apply (walk_hit kend kend_pos s pgdir tabs)).
        destruct (sp_tab _ _ _ _ Hsp _ _ Et) as (_ & Htv & _).
        rewrite (proj2 (Z.eqb_neq _ 0)) by (pose proof (valid_page_pos kend kend_pos t Htv); pose proof (PTX_range (k * PGSIZE)); lia).
        unfold ld. erewrite bind_Ok_l by reflexivity. unfold pte_at in He. rewrite Et in He. rewrite He.
        rewrite wrap32_id; [unfold mret, M_ret; do 2 f_equal; lia|]. unfold is_u32 in *. unfold NPAGES in Hr. change PGSIZE with 4096 in *. lia.
      * by eapply umap_tail; [|done]; lia.
      * rewrite frames_S by lia. by rewrite Ef.
  - unfold NPAGES in Hr. set (k' := (k / 1024 + 1) * 1024).
    assert (Hk' : k < k' ≤ NPAGES) by (unfold k', NPAGES; Z.div_mod_to_equations; lia).
    exists k', s, []. split_and!; try done; try lia.
    + unfold dealloc_one. erewrite bind_Ok_l by (by apply (walk_miss kend s pgdir tabs)). simpl.
      rewrite PDX_page, PGADDR_spec by (unfold NPAGES; Z.div_mod_to_equations; lia). autorewrite with word.
      unfold mret, M_ret. do 2 f_equal. rewrite wrap32_id; unfold k', is_u32, NPAGES in *; change PGSIZE with 4096; lia.
    + by eapply umap_tail; [|done]; lia.
    + simpl. replace k' with (k + Z.of_nat (Z.to_nat (k' - k))) by lia. apply frames_skip; [lia|].
      intros i Hi. pose proof (um_entry _ _ _ _ _ _ Hu i ltac:(lia)) as Hi'. destruct (fr i); [|done]. exfalso.
      destruct Hi' as (Hp & _). unfold pte_at in Hp. rewrite PDX_page in Hp by (unfold NPAGES in *; lia).
      rewrite PDX_page in Et by done. replace (i / 1024) with (k / 1024) in Hp by (unfold k' in *; Z.div_mod_to_equations; lia).
      by rewrite Et in Hp.
Qed.

Lemma dealloc_loop_sparse n : ∀ s l pgdir tabs fr k,
  kinv s l → space (k_mem s) pgdir tabs → apart l pgdir tabs → 0 ≤ k ≤ NPAGES → umap (k_mem s) l pgdir tabs fr k →
  NPAGES - k ≤ Z.of_nat n →
  ∃ s', dealloc_loop kend n pgdir (k * PGSIZE) KERNBASE s = Ok (tt, s') ∧ kinv s' (reverse (frames fr k) ++ l) ∧
    space (k_mem s') pgdir tabs ∧ apart (reverse (frames fr k) ++ l) pgdir tabs.
Proof.
  assert (Hkb : NPAGES * PGSIZE = KERNBASE) by done.
  induction n as [|n IH]; intros s l pgdir tabs fr k Hk Hsp Hap Hr Hu Hn;
    (destruct (decide (k = NPAGES)) as [->|Hne]; [exists s; unfold frames; rewrite Z.sub_diag; simpl; split_and!; try done;
      by rewrite Hkb, Z.ltb_irrefl|]); [lia|].
  destruct (dealloc_round s l pgdir tabs fr k) as (k' & s1 & fs & H1 & Hk' & Hk1 & Hsp1 & Hap1 & Hu1 & Hf); try done; [lia|].
  destruct (IH s1 (fs ++ l) pgdir tabs fr k') as (s2 & H2 & Hk2 & Hsp2 & Hap2); try done; [lia|lia|].
  exists s2. rewrite Hf, reverse_app, reverse_involutive, <- app_assoc. split_and!; try done.
  rewrite dealloc_loop_S by (rewrite <- Hkb; change PGSIZE with 4096; lia). erewrite bind_Ok_l by exact H1. done.
Qed.

(** The page tables, and the loop that frees them. *)
Definition tables (tabs : Z → option Z) (i n : nat) : list Z := omap (λ j, tabs (Z.of_nat j)) (seq i n).
Lemma free_tables_ok pgdir tabs n : ∀ i s l,
  kinv s l → space (k_mem s) pgdir tabs → pgdir ∉ l →
  (∀ j t, Z.of_nat i ≤ j → tabs j = Some t → t ∉ l) → (i + n ≤ 1024)%nat →
  ∃ s', forM (seq i n) (free_table kend pgdir) s = Ok (tt, s') ∧ kinv s' (reverse (tables tabs i n) ++ l) ∧
    pgdir ∉ reverse (tables tabs i n) ++ l.
Proof.
  induction n as [|n IH]; intros i s l Hk Hsp Hd Ht Hn; cbn [seq forM].
  { by exists s. }
  pose proof (sp_pde _ _ _ _ Hsp (Z.of_nat i) ltac:(lia)) as Hpde. unfold tables. cbn [seq omap list_omap].
  assert (Hrun : free_table kend pgdir i s = (let e := load32 (k_mem s) (pgdir + 4 * Z.of_nat i) in
    whenM (present e) (kfree kend (P2V (PTE_ADDR e)))) s) by done. cbn zeta in Hrun.
  destruct (tabs (Z.of_nat i)) as [t|] eqn:E.
  - destruct (sp_tab _ _ _ _ Hsp _ _ E) as (_ & Htv & Htd). destruct (pde_points kend kend_pos t Htv) as (Hp & Ha & _).
    rewrite Hpde, Hp, Ha in Hrun. cbn [whenM] in Hrun.
    destruct (kfree_spec kend kend_pos s l t Hk Htv) as (s1 & H1 & Hk1 & _ & Hfr & _); [by eapply Ht; [|done]; lia|].
    rewrite H1 in Hrun. erewrite bind_Ok_l by exact Hrun.
    destruct (IH (S i) s1 (t :: l)) as (s2 & H2 & Hk2 & Hd2); try done; try lia.
    + destruct Hsp as [A B C D]. constructor; auto. intros j Hj.
      rewrite (load32_frame (k_mem s)); [by apply D| |done]. intros x Hx. apply Hfr. by apply (pages_apart kend pgdir).
    + by apply not_elem_of_cons.
    + intros j u Hj Hu. apply not_elem_of_cons. split; [|by eapply Ht; [|done]; lia]. intros ->.
      pose proof (sp_inj _ _ _ _ Hsp _ _ _ E Hu). lia.
    + exists s2. rewrite reverse_cons, <- app_assoc. done.
  - rewrite Hpde in Hrun. cbn [whenM] in Hrun. erewrite bind_Ok_l by exact Hrun.
    destruct (IH (S i) s l) as (s2 & H2 & Hk2 & Hd2); try done; try lia.
    + intros j u Hj Hu. by eapply Ht; [|done]; lia.
    + by exists s2.
Qed.

Lemma freevm_ok s l pgdir tabs fr :
  kinv s l → space (k_mem s) pgdir tabs → apart l pgdir tabs → umap (k_mem s) l pgdir tabs fr 0 →
  ∃ s', freevm kend pgdir s = Ok (tt, s') ∧
    kinv s' (pgdir :: reverse (tables tabs 0 1024) ++ reverse (frames fr 0) ++ l).
Proof.
  intros Hk Hsp Hap Hu. pose proof (valid_page_pos kend kend_pos pgdir (sp_dir _ _ _ _ Hsp)).
  unfold freevm. rewrite (proj2 (Z.eqb_neq pgdir 0)) by lia.
  destruct (dealloc_loop_sparse (Z.to_nat ((KERNBASE - 0 * PGSIZE) / PGSIZE + 1)) s l pgdir tabs fr 0 Hk Hsp Hap)
    as (s1 & H1 & Hk1 & Hsp1 & Hap1); [unfold NPAGES; lia|exact Hu| |].
  { change ((KERNBASE - 0 * PGSIZE) / PGSIZE) with 524288. unfold NPAGES. lia. }
  destruct (free_tables_ok pgdir tabs 1024 0 s1 (reverse (frames fr 0) ++ l)) as (s2 & H2 & Hk2 & Hd2);
    [exact Hk1|exact Hsp1|apply Hap1|intros j t _; apply Hap1|lia|].
  destruct (kfree_spec kend kend_pos s2 _ pgdir Hk2 (sp_dir _ _ _ _ Hsp) Hd2) as (s3 & H3 & Hk3 & _).
  exists s3. split; [|done]. unfold deallocuvm. change (KERNBASE <=? 0) with false. change (PGROUNDUP 0) with (0 * PGSIZE).
  cbn beta iota zeta. rewrite bind_assoc.
  rewrite (bind_Ok_l _ _ _ _ _ H1). rewrite (bind_Ok_l (mret 0) _ s1 0 s1 eq_refl). rewrite (bind_Ok_l _ _ _ _ _ H2). exact H3.
Qed.

Lemma frames_elem fr k f : 0 ≤ k < NPAGES → fr k = Some f → f ∈ frames fr 0.
Proof. intros Hk Hf. unfold frames. apply list_elem_of_omap. exists k. split; [apply elem_of_seqZ; lia|done]. Qed.
Lemma kinv_head s p l : kinv s (p :: l) → freelist s = p.
Proof. by intros ([H _] & _). Qed.

(** C26: Tearing down an address space.  [freevm] puts on the free list every
    frame of the user part, every page table and the page directory, each
    exactly once (the list has no duplicates) and nothing else. *)
Theorem freevm_frees s l pgdir tabs fr
    (Hk : kinv s l) (Hsp : space (k_mem s) pgdir tabs) (Hap : apart l pgdir tabs) (Hu : umap (k_mem s) l pgdir tabs fr 0) :
  ∃ s' l', freevm kend pgdir s = Ok (tt, s') ∧ kinv s' l' ∧ NoDup l' ∧
    ∀ p, p ∈ l' ↔ p ∈ l ∨ p = pgdir ∨ (∃ i, 0 ≤ i < 1024 ∧ tabs i = Some p) ∨ (∃ k, 0 ≤ k < NPAGES ∧ fr k = Some p).
Proof.
  destruct (freevm_ok s l pgdir tabs fr Hk Hsp Hap Hu) as (s' & H1 & H2). eexists s', _. split; [exact H1|].
  split; [exact H2|]. split; [apply H2|]. intros p. rewrite elem_of_cons, !elem_of_app, !elem_of_reverse.
  unfold tables, frames. rewrite !list_elem_of_omap. split.
  - intros [->|[(j & Hj & Hp)|[(k & Hk' & Hp)|?]]]; auto.
    + right; right; left. exists (Z.of_nat j). apply elem_of_seq in Hj. split; [lia|done].
    + right; right; right. exists k. apply elem_of_seqZ in Hk'. split; [lia|done].
  - intros [?|[->|[(i & Hi & Hp)|(k & Hk' & Hp)]]]; auto.
    + right; left. exists (Z.to_nat i). rewrite elem_of_seq, Z2Nat.id by lia. split; [lia|done].
    + right; right; left. exists k. rewrite elem_of_seqZ. split; [lia|done].
Qed.
End Free.

(** *** Witness *)

(** The space [kst3] of [VmOk]: one frame, at page 0. *)
Definition fr3 (k : Z) : option Z := if k =? 0 then Some 0x80401000 else None.
Lemma umap_kst3 : umap 0x80100000 (k_mem kst3) [] 0x80400000 one_tab fr3 0.
Proof.
  constructor.
  - intros k Hk. unfold fr3. destruct (Z.eqb_spec k 0) as [->|Hne].
    + split; [by vm_compute|]. split; [by vm_compute|]. split; [by vm_compute|]. split; [apply not_elem_of_nil|].
      split; [lia|]. intros i. unfold one_tab, add_tab, no_tabs. by destruct (i =? 0).
    + unfold pte_at, one_tab, add_tab, no_tabs. destruct (Z.eqb_spec (PDX (k * PGSIZE)) 0) as [Hp|]; [|done].
      assert (Hx : PTX (k * PGSIZE) = k).
      { rewrite PDX_page in Hp by done. rewrite PTX_spec. change PGSIZE with (2^12). rewrite Z.div_mul by lia.
        apply Z.mod_small. Z.div_mod_to_equations; lia. }
      unfold kst3. cbn [k_mem]. rewrite Hx, !load32_store32_ne by lia. done.
  - intros i j f _ _. unfold fr3. destruct (Z.eqb_spec i 0), (Z.eqb_spec j 0); congruence.
Qed.
Lemma apart_kst3 : apart [] 0x80400000 one_tab.
Proof. split; [apply not_elem_of_nil|]. intros; apply not_elem_of_nil. Qed.
Lemma freevm_frees_witness :
  ∃ s' l', freevm 0x80100000 0x80400000 kst3 = Ok (tt, s') ∧ kinv 0x80100000 s' l' ∧ 0x80402000 ∈ l'.
Proof.
  destruct (freevm_frees 0x80100000 ltac:(lia) ltac:(by vm_compute) kst3 [] 0x80400000 one_tab fr3 kinv_kst3 space_kst3
    apart_kst3 umap_kst3) as (s' & l' & H & Hk & _ & Hp).
  exists s', l'. split; [exact H|]. split; [exact Hk|]. apply Hp. right; right; left. exists 0. split; [lia|reflexivity].
Defined.
