(* ===== verification/SleepLock.v ===== *)
(** * Sleep locks and the priority lock

    [sleeplock.c], [priority_lock.c] and the counter [siktir] of [proc.c] keeps
    under the priority lock: first the routines as the code runs them, then the
    interleaving of any number of processes over one lock, on which mutual
    exclusion and the absence of lost wake-ups are proved for both ways of
    waking up ([wakeup] for sleep locks, [wakeup_pl] for the priority lock). *)

From S2P Require Import Prelude Machine Str Spin Flt ProcTable Proc ProcOk ProcSteps.
Local Open Scope Z_scope.

(** ** The routines *)

(** [struct sleeplock] *)
Record sleeplock := Sleeplock { sl_locked : Z; sl_lk : spinlock; sl_name : string; sl_pid : Z }.
(** [struct priority_lock] has the same fields. *)
Definition priority_lock : Type := sleeplock.

Definition set_sl_lk (k : spinlock) (l : sleeplock) : sleeplock :=
  Sleeplock (sl_locked l) k (sl_name l) (sl_pid l).
(** [lk->locked = v; lk->pid = p] *)
Definition set_owner (v p : Z) (l : sleeplock) : sleeplock := Sleeplock v (sl_lk l) (sl_name l) p.

Definition initsleeplock (name : string) : sleeplock := Sleeplock 0 (initlock "sleep lock") name 0.
Definition init_priority (name : string) : priority_lock := Sleeplock 0 (initlock "priority lock") name 0.

(** [&lk->lk] *)
Definition inner {S} (l : lens S sleeplock) : lens S spinlock :=
  Lens (λ s, sl_lk (view l s)) (λ k s, upd_lens l (set_sl_lk k (view l s)) s).
Global Instance inner_ok {S} (l : lens S sleeplock) `{!LensOk l} : LensOk (inner l).
Proof.
  constructor; intros; simpl.
  - by rewrite view_upd.
  - replace (set_sl_lk _ _) with (view l s) by (by destruct (view l s)). apply upd_view.
  - by rewrite view_upd, upd_upd.
Qed.
Global Instance inner_disj {S T} (k : lens S T) (l : lens S sleeplock) `{!LensDisj k l} : LensDisj k (inner l).
Proof.
  constructor; intros; simpl; rewrite ?view_upd_l, ?view_upd_r; try done.
  apply upd_comm.
Qed.

Section Ops.
Context {E : Type} `{!Services E}.
(** The lock, and its address: the channel its waiters sleep on. *)
Variable l : lens (pst E) sleeplock.
Variable addr : Z.
Notation upd f := (modify (λ s, upd_lens l (f (view l s)) s)).

(** [while (lk->locked) sleep(lk, &lk->lk);] *)
Fixpoint acquiresleep_loop (others : list (M (pst E) unit)) : M (pst E) unit :=
  k ← gets (view l);
  if sl_locked k =? 0 then mret tt else
  match others with
  | [] => block
  | o :: others' => sleep o (ChAddr addr) (LkOther (inner l));; acquiresleep_loop others'
  end.
Definition acquiresleep (others : list (M (pst E) unit)) : M (pst E) unit :=
  acquire core_l (inner l);;
  acquiresleep_loop others;;
  upd (λ k, Sleeplock 1 (sl_lk k) (sl_name k) (sl_pid k));;
  p ← myproc core_l;
  i ← deref p;
  q ← the_proc i;
  upd (λ k, Sleeplock (sl_locked k) (sl_lk k) (sl_name k) (pid q));;
  release core_l (inner l).
Definition releasesleep : M (pst E) unit :=
  acquire core_l (inner l);;
  upd (set_owner 0 0);;
  wakeup (ChAddr addr);;
  release core_l (inner l).
(** [lk->pid] is compared only when the lock is held. *)
Definition holdingsleep : M (pst E) bool :=
  acquire core_l (inner l);;
  k ← gets (view l);
  r ← (if sl_locked k =? 0 then mret false else
       p ← myproc core_l; i ← deref p; q ← the_proc i; mret (sl_pid k =? pid q));
  release core_l (inner l);;
  mret r.

(** [priority_lock.c]: [acquir_priority] and [holding_priority] have the same
    bodies; [release_priority] wakes one process only. *)
Definition acquir_priority : list (M (pst E) unit) → M (pst E) unit := acquiresleep.
Definition holding_priority : M (pst E) bool := holdingsleep.
Definition release_priority : M (pst E) unit :=
  acquire core_l (inner l);;
  upd (set_owner 0 0);;
  wakeup_pl (ChAddr addr);;
  release core_l (inner l).
Definition print_que : M (pst E) unit := print_lock_que (ChAddr addr).

(** [siktir]: the delay loop has no effect; [abbas] is the counter. *)
Definition siktir (abbas : lens (pst E) Z) (others : list (M (pst E) unit)) : M (pst E) unit :=
  acquir_priority others;;
  modify (λ s, upd_lens abbas (sint32 (view abbas s + 1)) s);;
  n ← gets (view abbas);
  cprintf "%d\n" [AInt n];;
  release_priority.
End Ops.

Lemma chosen_one_None c tbl : chosen_one c tbl = None →
  ∀ j q, tbl !! j = Some q → state q = SLEEPING → chan q = c → pid q ≤ 0.
Proof.
  intros Hn j q Hj Hs Hc. apply (scan_best_None _ _ zgt zgt_irrefl zgt_trans zgt_negtrans) with (j := j) (y := q) in Hn;
    [by apply Z.ltb_ge in Hn|done|].
  rewrite bool_decide_eq_true_2 by done. by apply is_state_true.
Qed.

(** ** One process alone *)

(** A spin lock nobody holds. *)
Definition free_lock (k : spinlock) : Prop := locked k = 0 ∧ lk_cpu k = None.
Lemma free_lock_eq k : free_lock k → {| locked := 0; lk_name := lk_name k; lk_cpu := None |} = k.
Proof. destruct k. intros [H1 H2]. simpl in *. by subst. Qed.

Section Alone.
Context {E : Type} `{!Services E}.
Variable k : lens E sleeplock.
Context `{!LensOk k}.
Variable addr : Z.
Notation l := (env_in k).

(** The state in which the executing CPU is [c] and the sleep lock is [v]. *)
Definition with_lock (c : cpu) (v : sleeplock) (s : pst E) : pst E :=
  upd_lens l v (upd_lens core_l (with_cpu c (p_core s)) s).
Lemma with_lock_twice c v c' v' s : with_lock c v (with_lock c' v' s) = with_lock c v s.
Proof. unfold with_lock. destruct s; simpl. by rewrite with_cpu_with, upd_upd. Qed.
Lemma view_with_lock c v s : view l (with_lock c v s) = v.
Proof. apply view_upd. Qed.
Lemma core_with_lock c v s : p_core (with_lock c v s) = with_cpu c (p_core s).
Proof. done. Qed.

Definition held_by (n : nat) (v : sleeplock) : sleeplock :=
  set_sl_lk {| locked := 1; lk_name := lk_name (sl_lk v); lk_cpu := Some n |} v.

Lemma enter_run s c :
  core_ok (p_core s) c → locked (sl_lk (view l s)) = 0 →
  acquire core_l (inner l) s = Ok (tt, with_lock (pushed c) (held_by (me (p_core s)) (view l s)) s).
Proof. intros Hok Hl. by rewrite (acquire_ok core_l (inner l) s c Hok Hl). Qed.
Lemma leave_run s c v :
  core_ok (p_core s) c →
  release core_l (inner l) (with_lock (pushed c) (held_by (me (p_core s)) v) s) =
    Ok (tt, with_lock (settled c) (set_sl_lk {| locked := 0; lk_name := lk_name (sl_lk v); lk_cpu := None |} v) s).
Proof.
  intros Hok. pose proof Hok as (_ & _ & Hn & Hi). set (s1 := with_lock _ _ s).
  assert (Hv : sl_lk (view l s1) = sl_lk (held_by (me (p_core s)) v)) by (unfold s1; by rewrite view_with_lock).
  rewrite (release_ok core_l (inner l) s1 (pushed c)).
  - f_equal. f_equal. unfold s1, with_lock. destruct s as [co ? ? ? ? ? ? ? e]; simpl.
    by rewrite !view_upd, upd_upd, with_cpu_with, popped_pushed.
  - by apply core_ok_pushed.
  - simpl. lia.
  - cbn [inner view]. by rewrite Hv.
  - cbn [inner view]. by rewrite Hv.
Qed.

Lemma wake_run (f : list proc → list proc) (s : pst E) c :
  core_ok (p_core s) c → free_lock (ptable_lock s) →
  (acquire core_l ptlock_l;; upd_table f;; release core_l ptlock_l) s =
    Ok (tt, set_ptable (f (ptable s)) (upd_lens core_l (with_cpu (settled c) (p_core s)) s)).
Proof.
  intros Hok Hf. pose proof Hok as (_ & _ & Hn & Hi). pose proof Hf as [Hl _].
  erewrite bind_Ok_l by by apply (acquire_ok core_l ptlock_l s c). unfold upd_table.
  erewrite bind_Ok_l by reflexivity.
  rewrite (release_ok core_l ptlock_l _ (pushed c)); [|by apply core_ok_pushed|simpl; lia|done|done].
  f_equal. f_equal. destruct s as [co lk tbl np ip t tl fi e]; simpl in *.
  rewrite with_cpu_with, popped_pushed by done. by rewrite free_lock_eq.
Qed.

Lemma myproc_in s c i w : core_ok (p_core s) c → cpu_proc c = Some i →
  myproc core_l (with_lock (pushed c) w s) = Ok (Some i, with_lock (pushed c) w s).
Proof.
  intros Hok Hc. pose proof Hok as (_ & _ & Hn & _).
  rewrite (myproc_ok core_l _ (pushed c)) by exact (core_ok_pushed _ _ Hok).
  rewrite settled_pos by (simpl; lia). simpl. rewrite Hc. f_equal. f_equal.
  unfold with_lock. destruct s; simpl. by rewrite with_cpu_with.
Qed.

(** A process on the executing CPU, with the lock free. *)
Record ready (s : pst E) (c : cpu) (i : nat) (p : proc) : Prop := {
  rd_core : core_ok (p_core s) c;
  rd_cur : cpu_proc c = Some i;
  rd_proc : ptable s !! i = Some p;
  rd_pt : free_lock (ptable_lock s);
  rd_lk : free_lock (sl_lk (view l s));
}.

Lemma set_lk_free v : free_lock (sl_lk v) →
  set_sl_lk {| locked := 0; lk_name := lk_name (sl_lk v); lk_cpu := None |} v = v.
Proof. intros H. rewrite free_lock_eq by done. by destruct v. Qed.

Lemma acquiresleep_run s c i p others :
  ready s c i p → sl_locked (view l s) = 0 →
  acquiresleep l addr others s = Ok (tt, with_lock (settled c) (set_owner 1 (pid p) (view l s)) s).
Proof.
  intros [Hok Hc Hp Hpt Hlk] H0. pose proof Hok as (_ & _ & Hn & _). pose proof Hlk as [Hl _]. unfold acquiresleep.
  erewrite bind_Ok_l by by apply enter_run. set (v := view l s) in *.
  erewrite bind_Ok_l.
  2:{ destruct others; cbn [acquiresleep_loop]; erewrite bind_Ok_l by reflexivity;
      rewrite view_with_lock; unfold held_by, set_sl_lk; simpl; rewrite H0; reflexivity. }
  erewrite bind_Ok_l by reflexivity. rewrite view_with_lock.
  assert (Hup : ∀ w x y, upd_lens l w (with_lock x y s) = with_lock x w s).
  { intros. unfold with_lock. by rewrite upd_upd. }
  rewrite Hup.
  erewrite bind_Ok_l by by apply (myproc_in s c i).
  erewrite bind_Ok_l by reflexivity.
  erewrite bind_Ok_l by (unfold the_proc; simpl; rewrite Hp; reflexivity).
  erewrite bind_Ok_l by reflexivity. rewrite view_with_lock, Hup.
  pose proof (leave_run s c (set_owner 1 (pid p) v) Hok) as Hrel. 
  rewrite (set_lk_free (set_owner 1 (pid p) v) Hlk) in Hrel. exact Hrel.
Qed.

Lemma release_run (f : list proc → list proc) s c i p :
  ready s c i p →
  (acquire core_l (inner l);; modify (λ s, upd_lens l (set_owner 0 0 (view l s)) s);;
   (acquire core_l ptlock_l;; upd_table f;; release core_l ptlock_l);; release core_l (inner l)) s =
    Ok (tt, set_ptable (f (ptable s)) (with_lock (settled c) (set_owner 0 0 (view l s)) s)).
Proof.
  intros [Hok Hc Hp Hpt Hlk]. pose proof Hok as (_ & _ & Hn & _). pose proof Hlk as [Hl _].
  erewrite bind_Ok_l by by apply enter_run. set (v := view l s) in *.
  erewrite bind_Ok_l by reflexivity. rewrite view_with_lock.
  assert (Hup : ∀ w x y, upd_lens l w (with_lock x y s) = with_lock x w s).
  { intros. unfold with_lock. by rewrite upd_upd. }
  rewrite Hup.
  erewrite bind_Ok_l.
  2:{ apply (wake_run f _ (pushed c)); [exact (core_ok_pushed _ _ Hok)|done]. }
  rewrite settled_pos by (simpl; lia).
  pose proof (leave_run (set_ptable (f (ptable s)) s) c (set_owner 0 0 v) Hok) as Hrel.
  rewrite (set_lk_free (set_owner 0 0 v) Hlk) in Hrel.
  refine (eq_trans _ Hrel). f_equal. unfold with_lock. destruct s; simpl. by rewrite with_cpu_with.
Qed.

Lemma holdingsleep_run s c i p :
  ready s c i p →
  holdingsleep l s = Ok (negb (sl_locked (view l s) =? 0) && (sl_pid (view l s) =? pid p),
                         with_lock (settled c) (view l s) s).
Proof.
  intros [Hok Hc Hp Hpt Hlk]. pose proof Hlk as [Hl _]. unfold holdingsleep.
  erewrite bind_Ok_l by by apply enter_run. set (v := view l s) in *.
  erewrite bind_Ok_l by reflexivity. rewrite view_with_lock.
  pose proof (leave_run s c v Hok) as Hrel. rewrite set_lk_free in Hrel by done.
  cbn [held_by set_sl_lk sl_locked sl_pid] in *.
  destruct (sl_locked v =? 0); cbn [negb andb].
  - erewrite bind_Ok_l by reflexivity. erewrite bind_Ok_l by exact Hrel. done.
  - erewrite bind_Ok_l; [erewrite bind_Ok_l by exact Hrel; reflexivity|].
    erewrite bind_Ok_l by by apply (myproc_in s c i). erewrite bind_Ok_l by reflexivity.
    erewrite bind_Ok_l by (unfold the_proc; simpl; rewrite Hp; reflexivity). done.
Qed.

(** A process that finds the sleep lock free gets it without waiting;
    [holdingsleep] then answers yes to it; [releasesleep] frees the lock again
    and makes runnable exactly the processes asleep on it.  Interrupt nesting,
    the spin locks and the rest of the state are as before. *)
Theorem sleeplock_roundtrip s c i p others (Hr : ready s c i p) (H0 : sl_locked (view l s) = 0) :
  ∃ s1 s2 s3, acquiresleep l addr others s = Ok (tt, s1) ∧
    view l s1 = set_owner 1 (pid p) (view l s) ∧ ptable s1 = ptable s ∧
    holdingsleep l s1 = Ok (true, s2) ∧ releasesleep l addr s2 = Ok (tt, s3) ∧
    s3 = set_ptable (wakeup1 (ChAddr addr) (ptable s)) (with_lock (settled c) (set_owner 0 0 (view l s)) s).
Proof.
  pose proof Hr as [Hok Hc Hp Hpt Hlk].
  set (s1 := with_lock (settled c) (set_owner 1 (pid p) (view l s)) s).
  assert (Hr1 : ready s1 (settled c) i p).
  { constructor; try done; [exact (core_ok_settled _ _ Hok)|by rewrite settled_proc|].
    unfold s1. by rewrite view_with_lock. }
  exists s1, s1. eexists. split_and!.
  - by apply (acquiresleep_run s c i).
  - apply view_with_lock.
  - done.
  - rewrite (holdingsleep_run s1 _ i p Hr1). unfold s1. rewrite settled_settled, with_lock_twice, view_with_lock.
    simpl. by rewrite Z.eqb_refl.
  - exact (release_run _ s1 _ i p Hr1).
  - unfold s1. rewrite settled_settled, with_lock_twice, view_with_lock. done.
Qed.

(** Releasing the priority lock wakes exactly one process: of those asleep
    on it, the one with the greatest pid; when none is asleep the table is as
    before. *)
Theorem release_priority_wakes_greatest s c i p (Hr : ready s c i p) :
  ∃ s', release_priority l addr s = Ok (tt, s') ∧ sl_locked (view l s') = 0 ∧
    ((∃ j q, ptable s !! j = Some q ∧ chan q = ChAddr addr ∧ state q = SLEEPING ∧
        ptable s' = <[j := set_state RUNNABLE q]> (ptable s) ∧
        ∀ j' q', ptable s !! j' = Some q' → chan q' = ChAddr addr → state q' = SLEEPING → pid q' ≤ pid q) ∨
     ptable s' = ptable s ∧
       ∀ j' q', ptable s !! j' = Some q' → chan q' = ChAddr addr → state q' = SLEEPING → pid q' ≤ 0).
Proof.
  pose proof (release_run (wakeup_pl_tbl (ChAddr addr)) s c i p Hr) as Hrun.
  eexists. split; [exact Hrun|]. split; [exact (f_equal sl_locked (view_with_lock _ _ s))|].
  simpl. unfold wakeup_pl_tbl. destruct (chosen_one (ChAddr addr) (ptable s)) as [j|] eqn:Es.
  - left. apply chosen_one_sleeping in Es as (q & Hq & Hs & Hc & _ & Hmax). exists j, q. split_and!; try done.
    + by apply alter_at.
    + naive_solver.
  - right. split; [done|]. intros j' q' Hj Hc Hs. by apply (chosen_one_None _ _ Es j').
Qed.
End Alone.

(** ** Many processes

    Any number of processes take and release one lock, over and over.  A step
    of a process is the code between two points where another process can
    interfere: taking or dropping [lk->lk] or [ptable.lock], and the switch
    away inside [sleep].  Both spin locks exclude each other's holders
    ([Spin]); between the steps of a process any other process may run. *)

Inductive wpc :=
| WOut    (** not using the lock *)
| WChk    (** holds [lk->lk], about to test [lk->locked] *)
| WPt     (** found it locked: in [sleep], about to take [ptable.lock] *)
| WDrop   (** holds both, about to release [lk->lk] *)
| WMark   (** holds [ptable.lock], about to go to sleep and switch away *)
| WSleep  (** switched away *)
| WBack   (** running again, about to take [lk->lk] *)
| WHold   (** owns the lock *)
| WRel    (** releasing: holds [lk->lk], about to clear [lk->locked] *)
| WWake   (** cleared, about to take [ptable.lock] to wake waiters *)
| WWake2  (** holds both, about to wake *)
| WUnl.   (** woken, about to release [lk->lk] *)
Global Instance wpc_eq_dec : EqDecision wpc.
Proof. solve_decision. Defined.

(** [w_owner]: who set [lk->locked]; [w_lk], [w_pt]: holders of the two spin locks. *)
Record wstate := WState {
  w_tbl : list proc; w_owner : option nat; w_lk : option nat; w_pt : option nat; w_pc : nat → wpc }.

Section Waiting.
(** The lock's address, and whether it is a priority lock. *)
Variable addr : Z.
Variable pl : bool.
Notation ch := (ChAddr addr).
Definition wake_waiters (t : list proc) : list proc := if pl then wakeup_pl_tbl ch t else wakeup1 ch t.

Definition wgoto (i : nat) (p : wpc) (f : nat → wpc) : nat → wpc := λ j, if decide (j = i) then p else f j.
Definition runnable (i : nat) (t : list proc) : bool :=
  match t !! i with Some p => is_state (state p) RUNNABLE | None => false end.
Definition mark_asleep (p : proc) : proc := set_state SLEEPING (set_chan ch p).
Definition mark_awake (p : proc) : proc := set_chan NoChan (set_state RUNNING p).

(** One step of process [i]; a process that cannot take a lock stays put. *)
Definition w_step (i : nat) (s : wstate) : wstate :=
  let '(WState t o k q f) := s in
  match f i with
  | WOut => if k is None then WState t o (Some i) q (wgoto i WChk f) else s
  | WChk => if o is None then WState t (Some i) None q (wgoto i WHold f) else WState t o k q (wgoto i WPt f)
  | WPt => if q is None then WState t o k (Some i) (wgoto i WDrop f) else s
  | WDrop => WState t o None q (wgoto i WMark f)
  | WMark => WState (alter mark_asleep i t) o k None (wgoto i WSleep f)
  | WSleep => if runnable i t then if q is None then WState (alter mark_awake i t) o k q (wgoto i WBack f) else s else s
  | WBack => if k is None then WState t o (Some i) q (wgoto i WChk f) else s
  | WHold => if k is None then WState t o (Some i) q (wgoto i WRel f) else s
  | WRel => WState t None k q (wgoto i WWake f)
  | WWake => if q is None then WState t o k (Some i) (wgoto i WWake2 f) else s
  | WWake2 => WState (wake_waiters t) o k None (wgoto i WUnl f)
  | WUnl => WState t o None q (wgoto i WOut f)
  end.

(** What the rest of the kernel may do meanwhile under [ptable.lock]: kill a
    process, or wake the sleepers of any channel. *)
Inductive wstep : wstate → wstate → Prop :=
| ws_run i s : (i < length (w_tbl s))%nat → wstep s (w_step i s)
| ws_kill pd s : w_pt s = None →
    wstep s (WState (kill_tbl pd (w_tbl s)).2 (w_owner s) (w_lk s) (w_pt s) (w_pc s))
| ws_wakeup c s : w_pt s = None →
    wstep s (WState (wakeup1 c (w_tbl s)) (w_owner s) (w_lk s) (w_pt s) (w_pc s)).

(** At the start nobody uses the lock. *)
Record winit (s : wstate) : Prop := {
  wi_asleep : none_asleep ch (w_tbl s);
  wi_pid : Forall (λ p, 0 < pid p) (w_tbl s);
  wi_owner : w_owner s = None;
  wi_lk : w_lk s = None;
  wi_pt : w_pt s = None;
  wi_pc : ∀ i, w_pc s i = WOut;
}.
Definition wreach (s : wstate) : Prop := ∃ s0, winit s0 ∧ rtc wstep s0 s.

Definition has_lk (p : wpc) : bool :=
  match p with WChk | WPt | WDrop | WRel | WWake | WWake2 | WUnl => true | _ => false end.
Definition has_pt (p : wpc) : bool := match p with WDrop | WMark | WWake2 => true | _ => false end.
Definition is_owner (p : wpc) : bool := match p with WHold | WRel => true | _ => false end.
(** Awake, and going to look at the lock again. *)
Definition will_check (t : list proc) (i : nat) (p : wpc) : bool :=
  match p with WBack | WChk => true | WSleep => runnable i t | _ => false end.
Definition will_wake (p : wpc) : bool := match p with WWake | WWake2 => true | _ => false end.

Record winv (s : wstate) : Prop := {
  wv_lk : ∀ i, has_lk (w_pc s i) = true ↔ w_lk s = Some i;
  wv_pt : ∀ i, has_pt (w_pc s i) = true ↔ w_pt s = Some i;
  wv_own : ∀ i, is_owner (w_pc s i) = true ↔ w_owner s = Some i;
  wv_seen : ∀ i, w_pc s i = WPt ∨ w_pc s i = WDrop → w_owner s ≠ None;
  wv_mark : ∀ i, w_pc s i = WMark → w_owner s ≠ None ∨ ∃ j, w_pc s j = WWake;
  wv_asleep : ∀ i p, w_tbl s !! i = Some p → asleep ch p → w_pc s i = WSleep;
  wv_sleep : ∀ i, w_pc s i = WSleep → ∃ p, w_tbl s !! i = Some p ∧ (asleep ch p ∨ state p = RUNNABLE);
  wv_pid : Forall (λ p, 0 < pid p) (w_tbl s);
  wv_wake : ∀ i p, w_tbl s !! i = Some p → asleep ch p →
    w_owner s ≠ None ∨ (∃ j, will_wake (w_pc s j) = true) ∨ (∃ j, will_check (w_tbl s) j (w_pc s j) = true);
}.

(** Entries that are the same up to being woken. *)
Definition woke (p q : proc) : Prop :=
  pid q = pid p ∧ chan q = chan p ∧ (state q = state p ∨ state p = SLEEPING ∧ state q = RUNNABLE).
Lemma woke_refl p : woke p p.
Proof. repeat split. by left. Qed.
Lemma woke_asleep p q : woke p q → asleep ch q → asleep ch p.
Proof. intros (_ & Hc & Hs) [H1 H2]. split; [|congruence]. destruct Hs as [?|[? ?]]; congruence. Qed.
Lemma woke_alter f i t : (∀ p, t !! i = Some p → woke p (f p)) → Forall2 woke t (alter f i t).
Proof.
  intros H. apply Forall2_same_length_lookup. split; [by rewrite length_alter|]. intros j x y Hx Hy.
  apply lookup_alter_cases in Hy as [(<- & p & Hp & ->)|[_ Hy]].
  - rewrite Hx in Hp. injection Hp as <-. by apply H.
  - rewrite Hx in Hy. injection Hy as <-. apply woke_refl.
Qed.
Lemma woke_wake c p : woke p (wake c p).
Proof.
  unfold wake. destruct (is_state (state p) SLEEPING) eqn:E; cbn [andb]; [|apply woke_refl].
  apply is_state_true in E. case_bool_decide; [|apply woke_refl]. repeat split. by right.
Qed.
Lemma woke_wakeup1 c t : Forall2 woke t (wakeup1 c t).
Proof. apply Forall2_fmap_r, Forall_Forall2_diag, Forall_true. intros p. apply woke_wake. Qed.
Lemma woke_wakeup_pl c t : Forall2 woke t (wakeup_pl_tbl c t).
Proof.
  unfold wakeup_pl_tbl. destruct (chosen_one c t) as [i|] eqn:E.
  - apply chosen_one_sleeping in E as (p & Hp & Hs & _). apply woke_alter. intros p' Hp'.
    rewrite Hp in Hp'. injection Hp' as <-. repeat split. by right.
  - apply Forall_Forall2_diag, Forall_true, woke_refl.
Qed.
Lemma woke_kill pd t : Forall2 woke t (kill_tbl pd t).2.
Proof.
  unfold kill_tbl. destruct (find_index _ _) as [i|]; simpl.
  - apply woke_alter. intros p _. unfold kill_proc. destruct (is_state _ _) eqn:E.
    + apply is_state_true in E. repeat split. by right.
    + repeat split. by left.
  - apply Forall_Forall2_diag, Forall_true, woke_refl.
Qed.

Lemma woke_runnable t t' i : Forall2 woke t t' → runnable i t = true → runnable i t' = true.
Proof.
  unfold runnable. intros H Hr. destruct (t !! i) as [p|] eqn:Hp; [|done]. apply is_state_true in Hr.
  destruct (Forall2_lookup_l _ _ _ _ _ H Hp) as (q & Hq & _ & _ & Hs). rewrite Hq. apply is_state_true.
  destruct Hs as [?|[? ?]]; congruence.
Qed.
Lemma woke_check t t' i p : Forall2 woke t t' → will_check t i p = true → will_check t' i p = true.
Proof. intros H. destruct p; try done. by apply woke_runnable. Qed.

Lemma winv_woke t o k q f t' :
  winv (WState t o k q f) → Forall2 woke t t' → winv (WState t' o k q f).
Proof.
  intros [A B C D1 D2 D3 D4 D5 D6] H. simpl in *. constructor; simpl; try done.
  - intros i p Hi Ha. destruct (Forall2_lookup_r _ _ _ _ _ H Hi) as (x & Hx & Hw). eapply D3; [done|].
    by eapply woke_asleep.
  - intros i Hi. destruct (D4 i Hi) as (x & Hx & Ha).
    destruct (Forall2_lookup_l _ _ _ _ _ H Hx) as (y & Hy & _ & Hc & Hs). exists y. split; [done|].
    unfold asleep in *. rewrite Hc. destruct Hs as [->|[_ ?]]; [done|by right].
  - rewrite Forall_lookup in *. intros i y Hy. destruct (Forall2_lookup_r _ _ _ _ _ H Hy) as (x & Hx & -> & _).
    by eapply D5.
  - intros i p Hi Ha. destruct (Forall2_lookup_r _ _ _ _ _ H Hi) as (x & Hx & Hw).
    destruct (D6 i x Hx) as [?|[?|[j Hj]]]; [by eapply woke_asleep|tauto|tauto|]. right. right. exists j.
    by eapply woke_check.
Qed.

(** Steps that leave the table alone. *)
Lemma winv_goto t o k q f o' k' q' i p' :
  winv (WState t o k q f) →
  (∀ j, j ≠ i → k = Some j ↔ k' = Some j) → (has_lk p' = true ↔ k' = Some i) →
  (∀ j, j ≠ i → q = Some j ↔ q' = Some j) → (has_pt p' = true ↔ q' = Some i) →
  (∀ j, j ≠ i → o = Some j ↔ o' = Some j) → (is_owner p' = true ↔ o' = Some i) →
  (p' = WPt ∨ p' = WDrop ∨ o' = None → o ≠ None ∧ (o' ≠ None ∨ has_lk (f i) = true ∧ p' ≠ WPt ∧ p' ≠ WDrop) ∨
     o' = o ∧ p' ≠ WPt ∧ p' ≠ WDrop) →
  (p' = WMark → o' ≠ None) → f i ≠ WSleep → f i ≠ WMark → p' ≠ WSleep →
  (f i = WWake → q = None) → (o ≠ None → o' = None → p' = WWake) →
  (will_wake (f i) = true →
     will_wake p' = true ∨ none_asleep ch t ∨ ∃ j, j ≠ i ∧ will_check t j (f j) = true) →
  (will_check t i (f i) = true → will_check t i p' = true ∨ o' ≠ None) →
  winv (WState t o' k' q' (wgoto i p' f)).
Proof.
  intros [A B C D1 D2 D3 D4 D5 D6] Hk Hki Hq Hqi Ho Hoi Hseen Hmark Hns Hnm Hns' Hwq How Hww Hwc. simpl in *.
  assert (Hex : ∀ (P : nat → wpc → Prop), (∃ j, P j (f j)) → (P i (f i) → P i p') → ∃ j, P j (wgoto i p' f j)).
  { intros P [j Hj] Hi. exists j. unfold wgoto. case_decide; [|done]. subst. auto. }
  constructor; simpl.
  - intros j. unfold wgoto. case_decide as E; [subst; done|]. rewrite A. auto.
  - intros j. unfold wgoto. case_decide as E; [subst; done|]. rewrite B. auto.
  - intros j. unfold wgoto. case_decide as E; [subst; done|]. rewrite C. auto.
  - intros j. unfold wgoto. case_decide as E.
    + subst. intros H. destruct Hseen as [[? [?|(_ & ? & ?)]]|(? & ? & ?)]; tauto.
    + intros H. pose proof (D1 j H) as Hn. destruct o' as [?|]; [done|]. intros _.
      destruct Hseen as [[_ [?|(Hl & _)]]|(? & _)]; [tauto|done| |congruence].
      apply A in Hl. assert (has_lk (f j) = true) as Hl' by (destruct H as [-> | ->]; done).
      apply A in Hl'. congruence.
  - intros j. unfold wgoto at 1. case_decide as E; [subst; intros; left; auto|].
    intros H. destruct (D2 j H) as [Hn|Hw].
    + destruct o' as [?|]; [by left|]. right. exists i. unfold wgoto. rewrite decide_True by done. by apply How.
    + right. apply (Hex (λ _ p, p = WWake) Hw). intros Hi. exfalso.
      assert (has_pt (f j) = true) as Hp by (by rewrite H). apply B in Hp. rewrite Hwq in Hp by done. done.
  - intros j p Hj Ha. unfold wgoto. case_decide; [|by eapply D3]. subst. by rewrite (D3 i p Hj Ha) in Hns.
  - intros j. unfold wgoto. case_decide; [by subst|]. apply D4.
  - done.
  - intros j p Hj Ha. destruct (D6 j p Hj Ha) as [Hn|[[x Hx]|[x Hx]]].
    + destruct o' as [?|]; [by left|]. right. left. exists i. unfold wgoto. rewrite decide_True by done.
      by rewrite How.
    + destruct (decide (x = i)) as [->|Hne].
      * destruct (Hww Hx) as [?|[Hno|(y & Hy & Hc)]].
        -- right. left. exists i. unfold wgoto. by rewrite decide_True.
        -- by destruct (Hno j p Hj).
        -- right. right. exists y. unfold wgoto. by rewrite decide_False.
      * right. left. exists x. unfold wgoto. by rewrite decide_False.
    + destruct (decide (x = i)) as [->|Hne].
      * destruct (Hwc Hx) as [?|?]; [|by left]. right. right. exists i. unfold wgoto. by rewrite decide_True.
      * right. right. exists x. unfold wgoto. by rewrite decide_False.
Qed.

Lemma winv_mark t o k q f i :
  winv (WState t o k q f) → (i < length t)%nat → f i = WMark →
  winv (WState (alter (mark_asleep) i t) o k None (wgoto i WSleep f)).
Proof.
  intros [A B C D1 D2 D3 D4 D5 D6] Hlt Hf. simpl in *.
  assert (q = Some i) as -> by (apply B; by rewrite Hf).
  assert (Hnl : k ≠ Some i) by (intros Hk; apply A in Hk; by rewrite Hf in Hk).
  assert (Hno : o ≠ Some i) by (intros Hk; apply C in Hk; by rewrite Hf in Hk).
  assert (Hpt : ∀ j, j ≠ i → has_pt (f j) ≠ true) by (intros j Hj Hp; apply B in Hp; congruence).
  assert (Hnd : ∀ j, f j = WDrop → False) by (intros j Hj; destruct (decide (j = i)); [congruence|]; by eapply Hpt, (f_equal has_pt Hj)).
  constructor; simpl.
  - intros j. unfold wgoto. case_decide; [subst; simpl; naive_solver|apply A].
  - intros j. unfold wgoto. case_decide; [subst; simpl; naive_solver|]. split; [|done]. intros. by destruct (Hpt j).
  - intros j. unfold wgoto. case_decide; [subst; simpl; naive_solver|apply C].
  - intros j. unfold wgoto. case_decide; [naive_solver|apply D1].
  - intros j. unfold wgoto. case_decide; [done|]. intros Hj. by destruct (Hpt j); [|rewrite Hj].
  - intros j p Hj Ha. unfold wgoto. case_decide; [done|]. rewrite list_lookup_alter_ne in Hj by done. by eapply D3.
  - intros j. unfold wgoto. case_decide; [subst|rewrite list_lookup_alter_ne by done; apply D4].
    intros _. apply lookup_lt_is_Some in Hlt as [p Hp]. rewrite list_lookup_alter_eq, Hp. simpl.
    eexists. split; [done|]. by left.
  - apply Forall_alter; [done|]. intros x Hx _. rewrite Forall_lookup in D5. simpl. by eapply D5.
  - intros _ _ _ _. destruct (D2 i Hf) as [?|[j Hj]]; [by left|]. right. left. exists j. unfold wgoto.
    rewrite decide_False by congruence. by rewrite Hj.
Qed.

Lemma winv_resume t o k q f i :
  winv (WState t o k q f) → f i = WSleep → runnable i t = true →
  winv (WState (alter mark_awake i t) o k q (wgoto i WBack f)).
Proof.
  intros [A B C D1 D2 D3 D4 D5 D6] Hf Hr. simpl in *.
  constructor; simpl.
  - intros j. unfold wgoto. case_decide; [subst; rewrite <- A, Hf; done|apply A].
  - intros j. unfold wgoto. case_decide; [subst; rewrite <- B, Hf; done|apply B].
  - intros j. unfold wgoto. case_decide; [subst; rewrite <- C, Hf; done|apply C].
  - intros j. unfold wgoto. case_decide; [naive_solver|apply D1].
  - intros j. unfold wgoto at 1. case_decide; [done|]. intros Hj. destruct (D2 j Hj) as [?|[x Hx]]; [by left|].
    right. exists x. unfold wgoto. rewrite decide_False; [done|]. congruence.
  - intros j p Hj Ha. unfold wgoto. case_decide as E.
    + subst. rewrite list_lookup_alter_eq in Hj. destruct (t !! i); [|done]. injection Hj as <-. by destruct Ha.
    + rewrite list_lookup_alter_ne in Hj by done. by eapply D3.
  - intros j. unfold wgoto. case_decide; [done|]. rewrite list_lookup_alter_ne by done. apply D4.
  - apply Forall_alter; [done|]. intros x Hx _. rewrite Forall_lookup in D5. simpl. by eapply D5.
  - intros _ _ _ _. right. right. exists i. unfold wgoto. by rewrite decide_True.
Qed.

(** After the wake-up nobody is asleep, or a woken process will look again. *)
Lemma wake_waiters_progress t o k q f i :
  winv (WState t o k q f) → f i = WWake2 →
  none_asleep ch (wake_waiters t) ∨ ∃ j, j ≠ i ∧ will_check (wake_waiters t) j (f j) = true.
Proof.
  intros [A B C D1 D2 D3 D4 D5 D6] Hf. simpl in *. unfold wake_waiters. destruct pl.
  - unfold wakeup_pl_tbl. destruct (chosen_one ch t) as [j|] eqn:E.
    + apply chosen_one_sleeping in E as (p & Hp & Hs & Hc & _). right. exists j.
      pose proof (D3 j p Hp (conj Hs Hc)) as Hj. split; [congruence|]. rewrite Hj. simpl. unfold runnable.
      by rewrite list_lookup_alter_eq, Hp.
    + left. intros j p Hj [Hs Hc]. pose proof (chosen_one_None _ _ E j p Hj Hs Hc).
      rewrite Forall_lookup in D5. specialize (D5 j p Hj). simpl in D5. lia.
  - left. apply wakeup1_none.
Qed.

Lemma winv_step i s : (i < length (w_tbl s))%nat → winv s → winv (w_step i s).
Proof.
  destruct s as [t o k q f]. simpl. intros Hlt Hinv. pose proof Hinv as [A B C D1 D2 D3 D4 D5 D6]. simpl in *.
  pose proof (A i) as Ai. pose proof (B i) as Bi. pose proof (C i) as Ci.
  destruct (f i) eqn:Ef; simpl in Ai, Bi, Ci.
  5: exact (winv_mark t o k q f i Hinv Hlt Ef).
  5: { destruct (runnable i t) eqn:Er; [|done]. destruct q; [done|]. by apply winv_resume. }
  9: { assert (Forall2 woke t (wake_waiters t)) as Hw.
       { unfold wake_waiters. destruct pl; [apply woke_wakeup_pl|apply woke_wakeup1]. }
       pose proof (wake_waiters_progress t o k q f i Hinv Ef) as Hp.
       apply (winv_woke _ _ _ _ _ _ Hinv) in Hw.
       eapply winv_goto; [exact Hw|..]; clear Hinv Hw A B C D3 D5 D6; rewrite ?Ef; simpl; try done; clear Ef; naive_solver. }
  all: try (destruct k; [done|]). all: try (destruct q; [done|]). all: try destruct o.
  all: (eapply winv_goto; [exact Hinv|..]); clear Hinv A B C D3 D5 D6; rewrite ?Ef; simpl; try done;
    try solve [intuition congruence]; naive_solver.
Qed.

Lemma wreach_inv s : wreach s → winv s.
Proof.
  intros (s0 & [H1 H2 H3 H4 H5 H6] & Hr).
  assert (H0 : winv s0).
  { constructor; rewrite ?H3, ?H4, ?H5; try done.
    1-3: intros i; rewrite H6; done.
    1-2: intros i; rewrite H6; intros; naive_solver.
    + intros i p Hi Ha. by destruct (H1 i p Hi).
    + intros i. by rewrite H6.
    + intros i p Hi Ha. by destruct (H1 i p Hi). }
  clear H1 H2 H3 H4 H5 H6. induction Hr as [|x y z Hxy _ IH]; [done|]. apply IH.
  destruct Hxy as [i x Hi|pd x Hq|c x Hq].
  - by apply winv_step.
  - destruct x. eapply winv_woke; [done|apply woke_kill].
  - destruct x. eapply winv_woke; [done|apply woke_wakeup1].
Qed.

(** C12: waiting for a lock, in every interleaving of any number of processes
    with kills and unrelated wake-ups, for the sleep lock (all waiters woken)
    and the priority lock (one waiter woken).  At most one process owns the
    lock.  No wake-up is lost: while a process is asleep on the lock, the lock
    is owned, or its release is about to wake waiters, or a process that is
    awake is about to try again; so the waiters are never left asleep over a
    free lock. *)
Theorem no_lost_wakeup s (Hs : wreach s) :
  (∀ i j, is_owner (w_pc s i) = true → is_owner (w_pc s j) = true → i = j) ∧
  ∀ i p, w_tbl s !! i = Some p → state p = SLEEPING → chan p = ch →
    (∃ j, is_owner (w_pc s j) = true) ∨ (∃ j, will_wake (w_pc s j) = true) ∨
    (∃ j, will_check (w_tbl s) j (w_pc s j) = true).
Proof.
  apply wreach_inv in Hs as [A B C D1 D2 D3 D4 D5 D6]. split.
  - intros i j Hi Hj. apply C in Hi, Hj. congruence.
  - intros i p Hi Hst Hc. destruct (D6 i p Hi (conj Hst Hc)) as [Ho|?]; [|tauto].
    left. destruct (w_owner s) as [j|] eqn:E; [|done]. exists j. by apply C.
Qed.
End Waiting.

(** *** Witnesses *)

(** Two processes; the second has gone to sleep on the lock of the first. *)
Definition two_procs : wstate := WState [set_pid 1 proc0; set_pid 2 proc0] None None None (λ _, WOut).
Definition one_asleep : wstate :=
  foldl (λ s i, w_step 64 true i s) two_procs [0%nat; 0%nat; 1%nat; 1%nat; 1%nat; 1%nat; 1%nat].
Lemma one_asleep_reach : wreach 64 true one_asleep.
Proof.
  exists two_procs. split.
  - constructor; try done; [|repeat constructor; simpl; lia].
    intros j q Hj [Hs _]. destruct j as [|[|j]]; simplify_eq/=.
  - unfold one_asleep. cbn [foldl]. do 7 (eapply rtc_r; [|apply ws_run; vm_compute; lia]). apply rtc_refl.
Qed.
Lemma no_lost_wakeup_witness :
  (∃ p, w_tbl one_asleep !! 1%nat = Some p ∧ state p = SLEEPING ∧ chan p = ChAddr 64) ∧
  ∀ i j, is_owner (w_pc one_asleep i) = true → is_owner (w_pc one_asleep j) = true → i = j.
Proof.
  split; [eexists; split; [reflexivity|split; reflexivity]|].
  exact (proj1 (no_lost_wakeup 64 true one_asleep one_asleep_reach)).
Defined.

(** [init] on CPU 0 with a sleep lock as the only other state. *)
Definition lock_running : pst sleeplock :=
  Pst {| cpus := [Cpu 0 0 false (Some 0%nat) true]; me := 0 |} (initlock "ptable")
    [set_pid 1 (set_state RUNNING proc0); set_chan (ChAddr 64) (set_state SLEEPING (set_pid 2 proc0));
     set_chan (ChAddr 64) (set_state SLEEPING (set_pid 3 proc0))] 4 (Some 0%nat) 0 (initlock "time") false
    (initsleeplock "buffer").
Definition whole {T} : lens T T := Lens id (λ x _, x).
Global Instance whole_ok {T} : LensOk (@whole T).
Proof. by constructor. Qed.
Lemma lock_running_ready :
  ready whole lock_running (Cpu 0 0 false (Some 0%nat) true) 0 (set_pid 1 (set_state RUNNING proc0)).
Proof. constructor; try done. Qed.

Lemma sleeplock_roundtrip_witness :
  ∃ s1, acquiresleep (env_in whole) 64 [] lock_running = Ok (tt, s1) ∧ sl_pid (penv s1) = 1.
Proof.
  destruct (sleeplock_roundtrip whole 64 lock_running (Cpu 0 0 false (Some 0%nat) true) 0
    (set_pid 1 (set_state RUNNING proc0)) [] lock_running_ready eq_refl) as (s1 & s2 & s3 & H1 & H2 & _).
  exists s1. split; [exact H1|]. exact (f_equal sl_pid H2).
Defined.
Lemma release_priority_wakes_greatest_witness :
  ∃ s', release_priority (env_in whole) 64 lock_running = Ok (tt, s') ∧ sl_locked (penv s') = 0.
Proof.
  destruct (release_priority_wakes_greatest whole 64 lock_running (Cpu 0 0 false (Some 0%nat) true) 0
    (set_pid 1 (set_state RUNNING proc0)) lock_running_ready) as (s' & H1 & H2 & _).
  exists s'. split; [exact H1|exact H2].
Defined.
