(* ===== verification/Frame.v ===== *)
(** * What a routine leaves alone

    A routine keeps an observation [f] of the state when every completed run
    leaves it unchanged.  The lemmas walk through the routines of [Spin] and
    [Proc]; the tactic [keeps] applies them. *)

From S2P Require Import Prelude Machine Spin ProcTable Proc.
Local Open Scope Z_scope.

Lemma ret_Ok {S A} (a b : A) (s s' : S) : (mret a : M S A) s = Ok (b, s') → b = a ∧ s' = s.
Proof. by intros [= <- <-]. Qed.
Lemma gets_Ok {S A} (g : S → A) b (s s' : S) : gets g s = Ok (b, s') → b = g s ∧ s' = s.
Proof. by intros [= <- <-]. Qed.

Lemma on_lens_inv {S T A} (l : lens S T) (c : M T A) s a s' :
  on_lens l c s = Ok (a, s') → ∃ t, c (view l s) = Ok (a, t) ∧ s' = upd_lens l t s.
Proof.
  unfold on_lens. destruct (c (view l s)) as [[b t]| | |]; try done. intros [= <- <-]. by exists t.
Qed.

Definition keeps {S T A} (f : S → T) (c : M S A) : Prop := ∀ s a s', c s = Ok (a, s') → f s' = f s.
Class KeepsLens {S T U} (f : S → T) (l : lens S U) : Prop := { keeps_upd : ∀ x s, f (upd_lens l x s) = f s }.

Section Keeps.
Context {S T : Type} (f : S → T).

Lemma keeps_ret {A} (a : A) : keeps f (mret a : M S A).
Proof. by intros s a' s' [= <- <-]. Qed.
Lemma keeps_bind {A B} (c : M S A) (k : A → M S B) : keeps f c → (∀ a, keeps f (k a)) → keeps f (c ≫= k).
Proof. intros Hc Hk s b s' H. apply bind_Ok in H as (a & s1 & H1 & H). rewrite (Hk a _ _ _ H). by eapply Hc. Qed.
Lemma keeps_gets {A} (g : S → A) : keeps f (gets g).
Proof. by intros s a s' [= <- <-]. Qed.
Lemma keeps_get : keeps f get.
Proof. by intros s a s' [= <- <-]. Qed.
Lemma keeps_panic {A} m : keeps f (panic m : M S A).
Proof. by intros s a s'. Qed.
Lemma keeps_fault {A} m : keeps f (fault m : M S A).
Proof. by intros s a s'. Qed.
Lemma keeps_block {A} : keeps f (block : M S A).
Proof. by intros s a s'. Qed.
Lemma keeps_modify g : (∀ s, f (g s) = f s) → keeps f (modify g).
Proof. intros Hg s a s' [= <- <-]. by rewrite Hg. Qed.
Lemma keeps_on_lens {U A} (l : lens S U) `{!KeepsLens f l} (g : M U A) : keeps f (on_lens l g).
Proof.
  intros s a s'. unfold on_lens. destruct (g (view l s)) as [[b t]| | |]; try done.
  intros [= <- <-]. by rewrite keeps_upd.
Qed.
Lemma keeps_when b c : keeps f c → keeps f (whenM b c).
Proof. intros H. destruct b; [done|apply keeps_ret]. Qed.
Lemma keeps_forM {A} (l : list A) body : (∀ x, keeps f (body x)) → keeps f (forM l body).
Proof.
  intros H. induction l as [|x l IH]; simpl; [apply keeps_ret|]. by apply keeps_bind; [|intros _].
Qed.
Lemma keeps_if {A} (b : bool) (c d : M S A) : keeps f c → keeps f d → keeps f (if b then c else d).
Proof. by destruct b. Qed.
End Keeps.

Create HintDb keeps.
Global Hint Resolve keeps_ret keeps_gets keeps_get keeps_panic keeps_fault keeps_block keeps_on_lens : keeps.
Ltac keeps_step := first
  [ solve [eauto with keeps typeclass_instances]
  | match goal with |- keeps _ (_ ≫= _) => apply keeps_bind; [|intros ?] end
  | apply keeps_when | apply keeps_if
  | apply keeps_forM; intros ? | apply keeps_modify; intros ?; by rewrite ?keeps_upd
  | match goal with |- keeps _ (match ?x with _ => _ end) => destruct x end ].
Ltac keeps := intros; repeat keeps_step.

Section Locks.
Context {S T : Type} (f : S → T) (co : lens S core) `{!KeepsLens f co}.
Lemma keeps_holding (lk : lens S spinlock) : keeps f (holding co lk).
Proof. unfold holding. keeps. Qed.
Hint Resolve keeps_holding : keeps.
Lemma keeps_acquire (lk : lens S spinlock) `{!KeepsLens f lk} : keeps f (acquire co lk).
Proof. unfold acquire. keeps. Qed.
Lemma keeps_release (lk : lens S spinlock) `{!KeepsLens f lk} : keeps f (release co lk).
Proof. unfold release. keeps. Qed.
Lemma keeps_myproc : keeps f (myproc co).
Proof. unfold myproc. keeps. Qed.
End Locks.
Global Hint Resolve keeps_holding keeps_acquire keeps_release keeps_myproc : keeps.

(** Routines of [Proc], for observations outside the process table. *)
Section Procs.
Context {E T : Type} (f : pst E → T).
Class KeepsTable : Prop := { keeps_table : ∀ t s, f (set_ptable t s) = f s }.
Context {Hco : KeepsLens f core_l} {Hpt : KeepsLens f ptlock_l} {Htb : KeepsTable}.

Lemma keeps_deref p : keeps f (deref (E := E) p).
Proof. unfold deref. keeps. Qed.
Lemma keeps_the_proc i : keeps f (the_proc (E := E) i).
Proof. intros s a s'. unfold the_proc. destruct (_ !! _); [|done]. by intros [= <- <-]. Qed.
Hint Resolve keeps_deref keeps_the_proc : keeps.
Lemma keeps_upd_table g : keeps f (upd_table (E := E) g).
Proof. unfold upd_table. apply keeps_modify. intros s. apply keeps_table. Qed.
Lemma keeps_upd_proc i g : keeps f (upd_proc (E := E) i g).
Proof. unfold upd_proc. apply keeps_bind; [keeps|]. intros _. apply keeps_modify. intros s. apply keeps_table. Qed.
Hint Resolve keeps_upd_table keeps_upd_proc : keeps.
Lemma keeps_wakeup c : keeps f (wakeup (E := E) c).
Proof. unfold wakeup. keeps. Qed.
Lemma keeps_wakeup_pl c : keeps f (wakeup_pl (E := E) c).
Proof. unfold wakeup_pl. keeps. Qed.
Lemma keeps_sched_checks : keeps f (sched_checks (E := E)).
Proof. unfold sched_checks. keeps. Qed.
Lemma keeps_sched_resume b : keeps f (sched_resume (E := E) b).
Proof. unfold sched_resume. keeps. Qed.
Hint Resolve keeps_sched_checks keeps_sched_resume : keeps.

(** A sleep changes [f] only by what the others do meanwhile. *)
Lemma sleep_others others ch (lk : lens (pst E) spinlock) `{!KeepsLens f lk} s u s' :
  sleep others ch (LkOther lk) s = Ok (u, s') →
  ∃ s1 s2, others s1 = Ok (tt, s2) ∧ f s1 = f s ∧ f s' = f s2.
Proof.
  unfold sleep, sched. intros H.
  apply bind_Ok in H as (p & s1 & H1 & H). apply (keeps_myproc f core_l) in H1. destruct p as [i|]; [|done].
  apply bind_Ok in H as (? & s2 & H2 & H). injection H2 as _ ->.
  apply bind_Ok in H as (? & s3 & H3 & H). 
  assert (K3 : keeps f (acquire core_l ptlock_l;; release core_l lk)) by keeps. apply K3 in H3.
  apply bind_Ok in H as (? & s4 & H4 & H). apply keeps_upd_proc in H4.
  apply bind_Ok in H as (? & s5 & H5 & H). apply keeps_upd_proc in H5.
  apply bind_Ok in H as (? & s6 & H6 & H).
  apply bind_Ok in H6 as (b & s7 & H7 & H6). apply keeps_sched_checks in H7.
  apply bind_Ok in H6 as ([] & s8 & H8 & H6). apply keeps_sched_resume in H6.
  apply bind_Ok in H as (? & s9 & H9 & H). apply keeps_upd_proc in H9.
  assert (K : keeps f (release core_l ptlock_l;; acquire core_l lk)) by keeps. apply K in H.
  exists s7, s8. split; [done|]. split; congruence.
Qed.
End Procs.
Global Hint Resolve keeps_deref keeps_the_proc keeps_upd_table keeps_upd_proc keeps_wakeup keeps_wakeup_pl
  keeps_sched_checks keeps_sched_resume : keeps.
