(* ===== verification/Pipe.v ===== *)
(** * Pipes

    [pipe.c]: a ring of 512 bytes with free-running 32-bit counters.  The
    theorems show that it is a bounded queue whatever readers and writers do
    concurrently: bytes come out in the order they went in, none lost, none
    duplicated, at most 512 in between, also when the counters wrap around.

    [pipealloc], which also allocates the two open files, is in [File]. *)

From S2P Require Import Prelude Machine Str Spin Flt ProcTable Proc ProcOk ProcSteps SleepLock Frame.
Local Open Scope Z_scope.

(** ** Data *)

Definition PIPESIZE : Z := 512.

(** The fields of [struct pipe] besides its lock. *)
Record ring := Ring { pdata : list Z; nread : Z; nwrite : Z; readopen : Z; writeopen : Z }.
Record pipe := Pipe { p_lock : spinlock; p_ring : ring }.

(** [p->data[p->nwrite++ % PIPESIZE] = b] *)
Definition put_byte (b : Z) (r : ring) : ring :=
  Ring (<[Z.to_nat (nwrite r mod PIPESIZE) := b]> (pdata r)) (nread r) (wrap32 (nwrite r + 1))
    (readopen r) (writeopen r).
(** [p->data[p->nread % PIPESIZE]] and [p->nread++] *)
Definition front_byte (r : ring) : Z := nth (Z.to_nat (nread r mod PIPESIZE)) (pdata r) 0.
Definition take_byte (r : ring) : ring :=
  Ring (pdata r) (wrap32 (nread r + 1)) (nwrite r) (readopen r) (writeopen r).
Definition close_end (writable : bool) (r : ring) : ring :=
  if writable then Ring (pdata r) (nread r) (nwrite r) (readopen r) 0
  else Ring (pdata r) (nread r) (nwrite r) 0 (writeopen r).
(** [p->nwrite == p->nread + PIPESIZE], [p->nread == p->nwrite] *)
Definition full (r : ring) : bool := nwrite r =? wrap32 (nread r + PIPESIZE).
Definition empty (r : ring) : bool := nread r =? nwrite r.

(** ** Operations *)

Section Ops.
Context {E : Type} `{!Services E}.
(** The pipe, its page, and the channels [&p->nread] and [&p->nwrite]. *)
Variable l : lens (pst E) pipe.
Variables page ch_read ch_write : Z.

Definition pipe_lock_l : lens (pst E) spinlock :=
  Lens (λ s, p_lock (view l s)) (λ k s, upd_lens l (Pipe k (p_ring (view l s))) s).
Definition the_ring : M (pst E) ring := gets (λ s, p_ring (view l s)).
Definition upd_ring (f : ring → ring) : M (pst E) unit :=
  modify (λ s, upd_lens l (Pipe (p_lock (view l s)) (f (p_ring (view l s)))) s).
Notation acquire := (acquire core_l pipe_lock_l).
Notation release := (release core_l pipe_lock_l).

Definition pipeclose (writable : bool) : M (pst E) unit :=
  acquire;;
  upd_ring (close_end writable);;
  wakeup (ChAddr (if writable then ch_read else ch_write));;
  r ← the_ring;
  if (readopen r =? 0) && (writeopen r =? 0) then release;; on_lens env_l (sv_kfree page)
  else release.

(** [myproc()->killed] *)
Definition me_killed : M (pst E) bool :=
  p ← myproc core_l; i ← deref p; q ← the_proc i; mret (negb (killed q =? 0)).

(** [while(p->nwrite == p->nread + PIPESIZE) ...]: whether there is room, and
    the switches left. *)
Fixpoint wait_room (others : list (M (pst E) unit)) : M (pst E) (bool * list (M (pst E) unit)) :=
  r ← the_ring;
  if negb (full r) then mret (true, others) else
  k ← (if readopen r =? 0 then mret true else me_killed);
  if (k : bool) then release;; mret (false, others) else
  wakeup (ChAddr ch_read);;
  match others with
  | [] => block
  | o :: others' => sleep o (ChAddr ch_write) (LkOther pipe_lock_l);; wait_room others'
  end.
Fixpoint write_loop (bytes : list Z) (others : list (M (pst E) unit)) : M (pst E) bool :=
  match bytes with
  | [] => mret true
  | b :: bytes' =>
      x ← wait_room others;
      if negb x.1 then mret false else
      upd_ring (put_byte b);;
      write_loop bytes' x.2
  end.
(** [bytes] is what [addr[0..n-1]] holds. *)
Definition pipewrite (others : list (M (pst E) unit)) (bytes : list Z) : M (pst E) Z :=
  acquire;;
  ok ← write_loop bytes others;
  if negb ok then mret (-1) else
  wakeup (ChAddr ch_read);;
  release;;
  mret (Z.of_nat (length bytes)).

(** [while(p->nread == p->nwrite && p->writeopen) ...] *)
Fixpoint wait_data (others : list (M (pst E) unit)) : M (pst E) bool :=
  r ← the_ring;
  if negb (empty r && negb (writeopen r =? 0)) then mret true else
  k ← me_killed;
  if (k : bool) then release;; mret false else
  match others with
  | [] => block
  | o :: others' => sleep o (ChAddr ch_read) (LkOther pipe_lock_l);; wait_data others'
  end.
(** Copies at most [n] bytes. *)
Fixpoint read_loop (n : nat) : M (pst E) (list Z) :=
  match n with
  | O => mret []
  | S n' =>
      r ← the_ring;
      if empty r then mret [] else
      upd_ring take_byte;;
      rest ← read_loop n';
      mret (front_byte r :: rest)
  end.
(** The result and the bytes written to [addr]. *)
Definition piperead (others : list (M (pst E) unit)) (n : Z) : M (pst E) (Z * list Z) :=
  acquire;;
  ok ← wait_data others;
  if negb ok then mret (-1, []) else
  bytes ← read_loop (Z.to_nat n);
  wakeup (ChAddr ch_write);;
  release;;
  mret (Z.of_nat (length bytes), bytes).
End Ops.

(** ** The ring as a queue *)

Definition count (r : ring) : Z := wrap32 (nwrite r - nread r).
Definition at_ring (r : ring) (k : nat) : Z := nth (Z.to_nat (wrap32 (nread r + Z.of_nat k) mod PIPESIZE)) (pdata r) 0.
(** The bytes waiting, oldest first. *)
Definition contents (r : ring) : list Z := at_ring r <$> seq 0 (Z.to_nat (count r)).

Record ring_ok (r : ring) : Prop := {
  ro_len : length (pdata r) = 512%nat;
  ro_nread : is_u32 (nread r);
  ro_nwrite : is_u32 (nwrite r);
  ro_count : count r ≤ PIPESIZE;
}.

Lemma wrap32_mod512 x : wrap32 x mod 512 = x mod 512.
Proof. unfold wrap32. Z.div_mod_to_equations. lia. Qed.
Lemma at_ring_eq r k : at_ring r k = nth (Z.to_nat ((nread r + Z.of_nat k) mod 512)) (pdata r) 0.
Proof. unfold at_ring. change PIPESIZE with 512. by rewrite wrap32_mod512. Qed.
Lemma count_pos r : 0 ≤ count r.
Proof. unfold count, wrap32. apply Z.mod_pos_bound. lia. Qed.
Lemma full_count r : ring_ok r → full r = (count r =? 512).
Proof.
  intros [_ Hr Hw _]. apply Bool.eq_iff_eq_true. unfold full, count. rewrite !Z.eqb_eq.
  unfold wrap32, is_u32, PIPESIZE in *. Z.div_mod_to_equations. lia.
Qed.
Lemma empty_count r : ring_ok r → empty r = (count r =? 0).
Proof.
  intros [_ Hr Hw _]. apply Bool.eq_iff_eq_true. unfold empty, count. rewrite !Z.eqb_eq.
  unfold wrap32, is_u32 in *. Z.div_mod_to_equations. lia.
Qed.
Lemma nwrite_count r : ring_ok r → nwrite r mod 512 = (nread r + count r) mod 512.
Proof.
  intros [_ Hr Hw _]. unfold count, wrap32, is_u32 in *.
  assert ((nwrite r - nread r) mod 2^32 = nwrite r - nread r ∨ (nwrite r - nread r) mod 2^32 = nwrite r - nread r + 2^32)
    as [-> | ->] by (Z.div_mod_to_equations; lia).
  - f_equal. lia.
  - replace (nread r + (nwrite r - nread r + 2^32)) with (nwrite r + 8388608 * 512) by lia. by rewrite Z_mod_plus_full.
Qed.
Lemma length_contents r : length (contents r) = Z.to_nat (count r).
Proof. unfold contents. by autorewrite with len. Qed.

Lemma put_count r b : ring_ok r → full r = false → count (put_byte b r) = count r + 1.
Proof.
  intros Hok Hf. rewrite full_count in Hf by done. apply Z.eqb_neq in Hf.
  destruct Hok as [_ Hr Hw Hc]. unfold count, put_byte, PIPESIZE in *. simpl. unfold wrap32, is_u32 in *.
  Z.div_mod_to_equations. lia.
Qed.
Lemma take_count r : ring_ok r → empty r = false → count (take_byte r) = count r - 1.
Proof.
  intros Hok Hf. rewrite empty_count in Hf by done. apply Z.eqb_neq in Hf.
  destruct Hok as [_ Hr Hw Hc]. unfold count, take_byte in *. simpl. unfold wrap32, is_u32 in *.
  Z.div_mod_to_equations. lia.
Qed.

Lemma put_byte_ok r b : ring_ok r → full r = false →
  ring_ok (put_byte b r) ∧ contents (put_byte b r) = contents r ++ [b].
Proof.
  intros Hok Hf. pose proof (put_count r b Hok Hf) as Hc. pose proof (count_pos r) as H0.
  pose proof (nwrite_count r Hok) as Hw.
  rewrite full_count in Hf by done. apply Z.eqb_neq in Hf. pose proof Hok as [Hlen Hr Hwr Hcnt].
  change PIPESIZE with 512 in *. split.
  { constructor; simpl; [by rewrite length_insert|done| |rewrite Hc; change PIPESIZE with 512; lia].
    unfold wrap32, is_u32. apply Z.mod_pos_bound. lia. }
  unfold contents. rewrite Hc. replace (Z.to_nat (count r + 1)) with (Z.to_nat (count r) + 1)%nat by lia.
  rewrite seq_app, fmap_app. f_equal.
  - apply list_fmap_ext. intros i k Hk. apply lookup_seq in Hk as [-> Hk]. simpl.
    rewrite !at_ring_eq. simpl. rewrite !nth_lookup.
    rewrite list_lookup_insert_ne; [done|]. change PIPESIZE with 512. rewrite Hw.
    intros He. apply Z2Nat.inj in He; try (apply Z.mod_pos_bound; lia). Z.div_mod_to_equations. lia.
  - simpl. rewrite at_ring_eq. simpl. change PIPESIZE with 512. rewrite Hw.
    rewrite Z2Nat.id by lia. rewrite nth_lookup, list_lookup_insert_eq; [done|].
    rewrite Hlen. pose proof (Z.mod_pos_bound (nread r + count r) 512). lia.
Qed.

Lemma take_byte_ok r : ring_ok r → empty r = false →
  ring_ok (take_byte r) ∧ contents r = front_byte r :: contents (take_byte r).
Proof.
  intros Hok Hf. pose proof (take_count r Hok Hf) as Hc. pose proof (count_pos r) as H0.
  rewrite empty_count in Hf by done. apply Z.eqb_neq in Hf. pose proof Hok as [Hlen Hr Hwr Hcnt]. split.
  { constructor; simpl; [done| |done|lia]. unfold wrap32, is_u32. apply Z.mod_pos_bound. lia. }
  unfold contents. rewrite Hc. replace (Z.to_nat (count r)) with (S (Z.to_nat (count r - 1))) by lia.
  cbn [seq]. rewrite fmap_cons. f_equal.
  - rewrite at_ring_eq. change (Z.of_nat 0) with 0. by rewrite Z.add_0_r.
  - rewrite <- fmap_S_seq, <- list_fmap_compose. apply list_fmap_ext. intros i k _. simpl.
    rewrite !at_ring_eq. simpl. f_equal. f_equal. unfold wrap32. Z.div_mod_to_equations. lia.
Qed.
Lemma close_end_ok w r : ring_ok r → ring_ok (close_end w r) ∧ contents (close_end w r) = contents r.
Proof. intros [? ? ? ?]. destruct w; split; try done; by constructor. Qed.

(** ** Histories *)

(** What happens to the ring, in order; the flag marks the events of the
    operation under consideration. *)
Inductive pevent := EPut (b : Z) | EGet (b : Z) | EClose (writable : bool).
Notation trace := (list (bool * pevent)).

Definition event_step (e : pevent) (r : ring) : option ring :=
  match e with
  | EPut b => if full r then None else Some (put_byte b r)
  | EGet b => if empty r then None else if front_byte r =? b then Some (take_byte r) else None
  | EClose w => Some (close_end w r)
  end.
Fixpoint prun (tr : trace) (r : ring) : option ring :=
  match tr with [] => Some r | e :: tr' => event_step e.2 r ≫= prun tr' end.

Definition puts_of (e : bool * pevent) : list Z := match e.2 with EPut b => [b] | _ => [] end.
Definition gets_of (e : bool * pevent) : list Z := match e.2 with EGet b => [b] | _ => [] end.
Definition puts (tr : trace) : list Z := tr ≫= puts_of.
Definition got (tr : trace) : list Z := tr ≫= gets_of.
Definition mine (tr : trace) : trace := filter (λ e, e.1 = true) tr.
Definition foreign (tr : trace) : Prop := mine tr = [].

Lemma prun_app tr1 tr2 r : prun (tr1 ++ tr2) r = prun tr1 r ≫= prun tr2.
Proof.
  revert r. induction tr1 as [|e tr1 IH]; intros r; simpl; [done|].
  destruct (event_step e.2 r); simpl; [apply IH|done].
Qed.
Lemma prun_trans tr1 tr2 r r1 r2 : prun tr1 r = Some r1 → prun tr2 r1 = Some r2 → prun (tr1 ++ tr2) r = Some r2.
Proof. intros H1 H2. by rewrite prun_app, H1. Qed.
Lemma mine_app tr1 tr2 : mine (tr1 ++ tr2) = mine tr1 ++ mine tr2.
Proof. apply filter_app. Qed.

Lemma mine_true e tr : mine ((true, e) :: tr) = (true, e) :: mine tr.
Proof. unfold mine. by rewrite filter_cons_True. Qed.

(** C21: a pipe is a bounded queue.  Along any history of puts, takes and
    closes, by any number of readers and writers, the bytes that were waiting
    followed by those written are the bytes read followed by those still
    waiting, and never more than 512 wait. *)
Theorem pipe_fifo tr r r' (Hok : ring_ok r) (Hrun : prun tr r = Some r') :
  contents r ++ puts tr = got tr ++ contents r' ∧ ring_ok r' ∧ (length (contents r') ≤ 512)%nat.
Proof.
  revert r Hok Hrun. induction tr as [|[m e] tr IH]; intros r Hok Hrun; simpl in Hrun.
  { injection Hrun as <-. rewrite app_nil_r. split_and!; try done. rewrite length_contents.
    destruct Hok as [_ _ _ Hc]. change PIPESIZE with 512 in Hc. lia. }
  destruct e as [b|b|w]; simpl in Hrun.
  - destruct (full r) eqn:Ef; [done|]. destruct (put_byte_ok r b Hok Ef) as [Hok' Hc].
    destruct (IH _ Hok' Hrun) as (He & ? & ?). split_and!; try done.
    rewrite Hc, <- app_assoc in He. exact He.
  - destruct (empty r) eqn:Ef; [done|]. destruct (Z.eqb_spec (front_byte r) b) as [Hb|]; [|done].
    destruct (take_byte_ok r Hok Ef) as [Hok' Hc]. destruct (IH _ Hok' Hrun) as (He & ? & ?). split_and!; try done.
    rewrite Hc, Hb. exact (f_equal (cons b) He).
  - destruct (close_end_ok w r Hok) as [Hok' Hc]. destruct (IH _ Hok' Hrun) as (He & ? & ?). split_and!; try done.
    by rewrite Hc in He.
Qed.

Section Refine.
Context {E : Type} `{!Services E}.
Variable k : lens E pipe.
Context `{!LensOk k}.
Variables page ch_read ch_write : Z.
Notation l := (env_in k).
Definition ring_of (s : pst E) : ring := p_ring (view l s).
Notation rn := ring_of.

Global Instance ring_core : KeepsLens rn core_l.
Proof. done. Qed.
Global Instance ring_pt : KeepsLens rn ptlock_l.
Proof. done. Qed.
Global Instance ring_table : KeepsTable rn.
Proof. done. Qed.
Global Instance ring_lock : KeepsLens rn (pipe_lock_l l).
Proof. constructor. intros x s. unfold ring_of. cbn [pipe_lock_l upd_lens]. by rewrite view_upd. Qed.
Lemma ring_upd f s u s' : upd_ring l f s = Ok (u, s') → rn s' = f (rn s).
Proof. unfold upd_ring, modify. intros H. injection H as _ <-. unfold ring_of. simpl. by rewrite view_upd. Qed.

(** What others do while this process sleeps is some history of the ring. *)
Definition fair (o : M (pst E) unit) : Prop :=
  ∀ s s', o s = Ok (tt, s') → ∃ tr, foreign tr ∧ prun tr (rn s) = Some (rn s').

Lemma keeps_killed : keeps rn me_killed.
Proof. unfold me_killed. keeps. Qed.
Lemma sleep_trace o ch s u s' :
  fair o → sleep o ch (LkOther (pipe_lock_l l)) s = Ok (u, s') → ∃ tr, foreign tr ∧ prun tr (rn s) = Some (rn s').
Proof.
  intros Hf H. apply (sleep_others rn) in H as (s1 & s2 & Ho & H1 & H2); [|apply _].
  destruct (Hf _ _ Ho) as (tr & Hm & Hr). exists tr. split; [done|]. congruence.
Qed.

Lemma wait_room_trace others : Forall fair others → ∀ s b rest s',
  wait_room l ch_read ch_write others s = Ok ((b, rest), s') →
  Forall fair rest ∧ (b = true → full (rn s') = false) ∧ ∃ tr, foreign tr ∧ prun tr (rn s) = Some (rn s').
Proof.
  induction others as [|o others IH]; intros Hf s b rest s' H.
  all: apply bind_Ok in H as (r & s1 & H1 & H); apply gets_Ok in H1 as [-> ->]; fold (rn s) in H.
  all: destruct (full (rn s)) eqn:Ef; cbn [negb] in H;
    [|apply ret_Ok in H as [[= -> ->] ->]; split_and!; try done; by exists []].
  all: apply bind_Ok in H as (kl & s2 & H2 & H).
  all: assert (K2 : rn s2 = rn s)
    by (destruct (readopen _ =? 0); [by apply ret_Ok in H2 as [_ ->]|by apply keeps_killed in H2]).
  all: destruct kl; [apply bind_Ok in H as (u & s3 & H3 & H); apply ret_Ok in H as [[= -> ->] ->];
    apply (keeps_release rn core_l (pipe_lock_l l)) in H3; split_and!; try done; exists []; by rewrite H3, K2|].
  all: apply bind_Ok in H as (u & s3 & H3 & H); apply (keeps_wakeup rn) in H3; [|apply _..].
  - done.
  - apply Forall_cons in Hf as [Ho Hf]. apply bind_Ok in H as (u' & s4 & H4 & H).
    apply (sleep_trace o _ _ _ _ Ho) in H4 as (tr1 & Hm1 & Hr1).
    destruct (IH Hf _ _ _ _ H) as (Hrest & Hb & tr2 & Hm2 & Hr2). split_and!; try done.
    exists (tr1 ++ tr2). split; [unfold foreign; by rewrite mine_app, Hm1, Hm2|].
    eapply prun_trans; [|done]. congruence.
Qed.

Lemma write_loop_trace bytes : ∀ others s b s', Forall fair others →
  write_loop l ch_read ch_write bytes others s = Ok (b, s') →
  ∃ tr, prun tr (rn s) = Some (rn s') ∧ puts (mine tr) `prefix_of` bytes ∧ got (mine tr) = [] ∧
    (b = true → puts (mine tr) = bytes).
Proof.
  induction bytes as [|c bytes IH]; intros others s b s' Hf H.
  { apply ret_Ok in H as [-> ->]. exists []. done. }
  apply bind_Ok in H as ([ok rest] & s1 & H1 & H).
  apply wait_room_trace in H1 as (Hrest & Hok & tr1 & Hm1 & Hr1); [|done]. cbn [fst snd] in H.
  destruct ok; cbn [negb] in H.
  2:{ apply ret_Ok in H as [-> ->]. exists tr1. rewrite Hm1. split_and!; try done. apply prefix_nil. }
  apply bind_Ok in H as (u & s2 & H2 & H). apply ring_upd in H2.
  destruct (IH _ _ _ _ Hrest H) as (tr2 & Hr2 & Hp & Hg & Hb).
  exists (tr1 ++ (true, EPut c) :: tr2). rewrite mine_app, Hm1, mine_true. cbn. split_and!.
  - eapply prun_trans; [done|]. simpl. rewrite Hok by done. simpl. by rewrite <- H2.
  - by apply prefix_cons.
  - done.
  - intros ->. f_equal. by apply Hb.
Qed.

(** [pipewrite] puts its bytes into the queue in order, with other
    operations interleaved while it sleeps; it returns their number when all
    were put, and -1 otherwise. *)
Theorem pipewrite_refines others bytes s n s' (Hf : Forall fair others)
    (Hrun : pipewrite l ch_read ch_write others bytes s = Ok (n, s')) :
  ∃ tr, prun tr (rn s) = Some (rn s') ∧ got (mine tr) = [] ∧
    (n = Z.of_nat (length bytes) ∧ puts (mine tr) = bytes ∨ n = -1 ∧ puts (mine tr) `prefix_of` bytes).
Proof.
  apply bind_Ok in Hrun as (u & s1 & H1 & H). apply (keeps_acquire rn core_l (pipe_lock_l l)) in H1.
  apply bind_Ok in H as (ok & s2 & H2 & H).
  apply write_loop_trace in H2 as (tr & Hr & Hp & Hg & Hb); [|done]. rewrite H1 in Hr. exists tr.
  destruct ok; cbn [negb] in H.
  - apply bind_Ok in H as (u3 & s3 & H3 & H). apply (keeps_wakeup rn) in H3; [|apply _..].
    apply bind_Ok in H as (u4 & s4 & H4 & H). apply (keeps_release rn core_l (pipe_lock_l l)) in H4.
    apply ret_Ok in H as [-> ->]. split_and!; [congruence|done|]. left. auto.
  - apply ret_Ok in H as [-> ->]. split_and!; try done. by right.
Qed.

Lemma wait_data_trace others : Forall fair others → ∀ s b s',
  wait_data l ch_read others s = Ok (b, s') →
  (b = true → empty (rn s') = true → writeopen (rn s') = 0) ∧ ∃ tr, foreign tr ∧ prun tr (rn s) = Some (rn s').
Proof.
  induction others as [|o others IH]; intros Hf s b s' H.
  all: apply bind_Ok in H as (r & s1 & H1 & H); apply gets_Ok in H1 as [-> ->]; fold (rn s) in H.
  all: destruct (empty (rn s) && negb (writeopen (rn s) =? 0)) eqn:Ee; cbn [negb] in H;
    [|apply ret_Ok in H as [-> ->]; split; [|by exists []]; intros _ He; rewrite He in Ee; cbn [andb] in Ee; bool_to_prop; done].
  all: apply bind_Ok in H as (kl & s2 & H2 & H); apply keeps_killed in H2.
  all: destruct kl; [apply bind_Ok in H as (u & s3 & H3 & H); apply ret_Ok in H as [-> ->];
    apply (keeps_release rn core_l (pipe_lock_l l)) in H3; split; [done|]; exists []; by rewrite H3, H2|].
  - done.
  - apply Forall_cons in Hf as [Ho Hf]. apply bind_Ok in H as (u' & s4 & H4 & H).
    apply (sleep_trace o _ _ _ _ Ho) in H4 as (tr1 & Hm1 & Hr1).
    destruct (IH Hf _ _ _ H) as (Hb & tr2 & Hm2 & Hr2). split; [done|].
    exists (tr1 ++ tr2). split; [unfold foreign; by rewrite mine_app, Hm1, Hm2|].
    eapply prun_trans; [|done]. congruence.
Qed.

Lemma read_loop_trace n : ∀ s bytes s', read_loop l n s = Ok (bytes, s') →
  ∃ tr, prun tr (rn s) = Some (rn s') ∧ got (mine tr) = bytes ∧ puts (mine tr) = [] ∧ (length bytes ≤ n)%nat ∧
    ((length bytes < n)%nat → empty (rn s') = true).
Proof.
  induction n as [|n IH]; intros s bytes s' H.
  { apply ret_Ok in H as [-> ->]. exists []. split_and!; try done. simpl. lia. }
  apply bind_Ok in H as (r & s1 & H1 & H). apply gets_Ok in H1 as [-> ->]. fold (rn s) in H.
  destruct (empty (rn s)) eqn:Ee.
  { apply ret_Ok in H as [-> ->]. exists []. split_and!; try done. simpl. lia. }
  apply bind_Ok in H as (u & s2 & H2 & H). apply ring_upd in H2.
  apply bind_Ok in H as (rest & s3 & H3 & H). apply ret_Ok in H as [-> ->].
  destruct (IH _ _ _ H3) as (tr & Hr & Hg & Hp & Hl & He). exists ((true, EGet (front_byte (rn s))) :: tr).
  rewrite mine_true. split_and!.
  - simpl. rewrite Ee, Z.eqb_refl. simpl. by rewrite <- H2.
  - cbn. f_equal. exact Hg.
  - exact Hp.
  - simpl. lia.
  - simpl. intros. apply He. lia.
Qed.

End Refine.

(** *** Witnesses *)

(** The counters are about to wrap around. *)
Definition ring0 : ring := Ring (replicate 512 0) 0xfffffffe 0xfffffffe 1 1.
Lemma ring0_ok : ring_ok ring0.
Proof. by constructor. Qed.
Lemma pipe_fifo_witness :
  contents ring0 ++ puts [(true, EPut 65); (false, EPut 66); (true, EGet 65); (true, EPut 67)] =
  [65] ++ [66; 67].
Proof.
  destruct (prun [(true, EPut 65); (false, EPut 66); (true, EGet 65); (true, EPut 67)] ring0) as [r|] eqn:E;
    [|discriminate].
  destruct (pipe_fifo _ ring0 r ring0_ok E) as (H & _). rewrite H.
  vm_compute in E. injection E as <-. reflexivity.
Defined.

(** A process on CPU 0 with a pipe as the only other state. *)
Definition pipe_running : pst pipe :=
  Pst {| cpus := [Cpu 0 0 false (Some 0%nat) true]; me := 0 |} (initlock "ptable")
    [set_pid 1 (set_state RUNNING proc0)] 2 (Some 0%nat) 0 (initlock "time") false (Pipe (initlock "pipe") ring0).
Definition after {A S} (c : M S A) (s : S) : S := match c s with Ok (_, s') => s' | _ => s end.
Definition pipe_written : pst pipe := after (pipewrite (env_in whole) 0 4 [] [65; 66]) pipe_running.

Lemma pipewrite_refines_witness :
  ∃ tr, prun tr (ring_of whole pipe_running) = Some (ring_of whole pipe_written) ∧ puts (mine tr) = [65; 66].
Proof.
  destruct (pipewrite_refines whole 0 4 [] [65; 66] pipe_running 2 pipe_written
    ltac:(constructor) ltac:(vm_compute; reflexivity)) as (tr & H1 & _ & [[_ H2]|[H2 _]]).
  - exists tr. split; [exact H1|exact H2].
  - discriminate.
Defined.
