(* ===== verification/Shm.v ===== *)
(** * Shared memory

    The shared-memory routines at the end of [vm.c] and their table.  The state
    is the allocator's memory with the page tables, the table of segments with
    its locks, and the current process.  Message output is not represented. *)

From S2P Require Import Prelude Machine Str Spin Kalloc ProcTable Vm VmOk VmFree.
Local Open Scope Z_scope.

Definition MAX_ATTACHED_PROCS : Z := 23.
Definition SHARED_MEMORY_COUNT : Z := 8.
(** [struct shmid_ds] *)
Record shmid_ds := Shmid {
  ref_count : Z;
  attached_processes : list Z;
  frame : Z;
  marked : Z;
  shm_lock : spinlock;
}.
Definition set_ref (n : Z) (x : shmid_ds) : shmid_ds := Shmid n (attached_processes x) (frame x) (marked x) (shm_lock x).
Definition set_attached (l : list Z) (x : shmid_ds) : shmid_ds := Shmid (ref_count x) l (frame x) (marked x) (shm_lock x).
Definition set_frame (f : Z) (x : shmid_ds) : shmid_ds := Shmid (ref_count x) (attached_processes x) f (marked x) (shm_lock x).
Definition set_marked (n : Z) (x : shmid_ds) : shmid_ds := Shmid (ref_count x) (attached_processes x) (frame x) n (shm_lock x).
Definition set_shm_lock (k : spinlock) (x : shmid_ds) : shmid_ds :=
  Shmid (ref_count x) (attached_processes x) (frame x) (marked x) k.
(** The locks are never initialised; static storage is zero. *)
Definition lock0 : spinlock := initlock "".
Definition shmid0 : shmid_ds := Shmid 0 (replicate 23 0) 0 0 lock0.

Record shmst := Shmst {
  sh_k : kst;
  shmlock : spinlock;
  shm_table : list shmid_ds;
  sh_proc : proc;
}.
Definition sh_k_l : lens shmst kst := Lens sh_k (λ x s, Shmst x (shmlock s) (shm_table s) (sh_proc s)).
Definition shmlock_l : lens shmst spinlock := Lens shmlock (λ x s, Shmst (sh_k s) x (shm_table s) (sh_proc s)).
Definition sh_core : lens shmst core :=
  Lens (λ s, k_core (sh_k s)) (λ c s, upd_lens sh_k_l (upd_lens kst_core c (sh_k s)) s).
Definition set_table (t : list shmid_ds) (s : shmst) : shmst := Shmst (sh_k s) (shmlock s) t (sh_proc s).
Definition set_sh_proc (p : proc) (s : shmst) : shmst := Shmst (sh_k s) (shmlock s) (shm_table s) p.
Global Instance sh_core_ok : LensOk sh_core.
Proof. constructor; intros; by try destruct s as [[]]. Qed.
Global Instance shmlock_l_ok : LensOk shmlock_l.
Proof. constructor; intros; by try destruct s. Qed.
Global Instance sh_core_shmlock : LensDisj sh_core shmlock_l.
Proof. by constructor. Qed.
(** [&shm_table[i].lock] *)
Definition slot_lock (i : nat) : lens shmst spinlock :=
  Lens (λ s, shm_lock (nth i (shm_table s) shmid0)) (λ k s, set_table (alter (set_shm_lock k) i (shm_table s)) s).

Section Shm.
Variable kend : Z.
Notation acquire := (acquire sh_core).
Notation release := (release sh_core).
Notation mm := (on_lens sh_k_l).

(** [shm_table[id]]; an index outside the table is undefined. *)
Definition the_shm (id : Z) : M shmst (nat * shmid_ds) := λ s,
  if id <? 0 then Fault "shm_table" else
  match shm_table s !! Z.to_nat id with Some x => Ok ((Z.to_nat id, x), s) | None => Fault "shm_table" end.
Definition upd_shm (i : nat) (f : shmid_ds → shmid_ds) : M shmst unit :=
  modify (λ s, set_table (alter f i (shm_table s)) s).

Definition shared_memory_init : M shmst unit :=
  acquire shmlock_l;;
  forM (seq 0 (Z.to_nat SHARED_MEMORY_COUNT)) (λ i,
    acquire (slot_lock i);;
    upd_shm i (set_ref 0);;
    upd_shm i (set_marked 0);;
    upd_shm i (set_attached (replicate (Z.to_nat MAX_ATTACHED_PROCS) (-1)));;
    release (slot_lock i));;
  release shmlock_l.

(** The result of [mappages] is ignored by the code; a failed [kalloc] makes
    it write through a null pointer. *)
Definition open_shared_memory (id : Z) : M shmst Z :=
  p ← gets sh_proc;
  if negb (shm p =? 0) then mret 0 else
  ix ← the_shm id;
  let i := ix.1 in
  acquire (slot_lock i);;
  ix ← the_shm id;
  whenM (ref_count ix.2 =? 0)
    (m ← mm kalloc;
     (if m =? 0 then fault "null frame" else mm (clear m 16));;
     upd_shm i (set_frame m));;
  let start_addr := PGROUNDUP (sz p) in
  ix ← the_shm id;
  mm (mappages (pgdir p) start_addr 16 (V2P (frame ix.2)) (PTE_W .| PTE_U));;
  upd_shm i (λ x, set_ref (sint32 (ref_count x + 1)) x);;
  modify (λ s, set_sh_proc (set_shm start_addr (sh_proc s)) s);;
  release (slot_lock i);;
  mret start_addr.

(** The loop of [close_shm] over [attached_processes]. *)
Definition detach (pd : Z) (l : list Z) : list Z := (λ q, if q =? pd then -1 else q) <$> l.
Definition close_shm (id : Z) : M shmst unit :=
  modify (λ s, set_sh_proc (set_shm 0 (sh_proc s)) s);;
  p ← gets sh_proc;
  acquire shmlock_l;;
  ix ← the_shm id;
  let i := ix.1 in
  whenM (negb (ref_count ix.2 =? 0))
    (upd_shm i (λ x, set_ref (sint32 (ref_count x - 1)) x);;
     upd_shm i (λ x, set_attached (detach (pid p) (attached_processes x)) x);;
     ix ← the_shm id;
     whenM (ref_count ix.2 =? 0)
       (mm (freevm kend (pgdir p));;
        ix ← the_shm id;
        mm (kfree kend (frame ix.2));;
        upd_shm i (set_frame 0)));;
  release shmlock_l.
End Shm.

(** ** Routines that run with interrupts off keep the CPU as it is *)

Definition calm (s : kst) : Prop := locked (k_lock s) = 0 ∧ nested (k_core s).
Definition still {A} (c : M kst A) : Prop := ∀ s a s', calm s → c s = Ok (a, s') → calm s' ∧ k_core s' = k_core s.

Section Still.
Variable kend : Z.
Lemma still_ret {A} (a : A) : still (mret a).
Proof. by intros s b s' Hs [= <- <-]. Qed.
Lemma still_bind {A B} (c : M kst A) (k : A → M kst B) : still c → (∀ a, still (k a)) → still (c ≫= k).
Proof.
  intros Hc Hk s b s' Hs H. apply bind_Ok in H as (a & s1 & H1 & H). destruct (Hc _ _ _ Hs H1) as [Hs1 He].
  destruct (Hk a _ _ _ Hs1 H) as [Hs2 He2]. split; [done|congruence].
Qed.
Lemma still_gets {A} (f : kst → A) : still (gets f).
Proof. by intros s b s' Hs [= <- <-]. Qed.
Lemma still_mem f : still (modify (λ s, set_mem (f s) s)).
Proof. by intros s b s' Hs [= <- <-]. Qed.
Lemma still_panic {A} m : still (panic m : M kst A).
Proof. by intros s b s'. Qed.
Lemma still_fault {A} m : still (fault m : M kst A).
Proof. by intros s b s'. Qed.
Lemma still_kfree v : still (kfree kend v).
Proof.
  intros s a s' [Hl Hn] H. destruct (negb (v mod PGSIZE =? 0) || (v <? kend) || (PHYSTOP <=? V2P v)) eqn:E.
  { unfold kfree in H. by rewrite E in H. }
  destruct (kfree_run kend s v E Hl) as (co & lk & Hrun & Hlk & _ & Hco); [destruct Hn as (c & ? & _); eauto|].
  rewrite H in Hrun. injection Hrun as -> ->. by rewrite (Hco Hn).
Qed.
Lemma still_walk pgdir va : still (walkpgdir pgdir va false).
Proof.
  unfold walkpgdir, ld. apply still_bind; [apply still_gets|]. intros e. destruct (present e); apply still_ret.
Qed.
Lemma still_dealloc_one pgdir a : still (dealloc_one kend pgdir a).
Proof.
  unfold dealloc_one, ld, st. apply still_bind; [apply still_walk|]. intros p. destruct (p =? 0); [apply still_ret|].
  apply still_bind; [apply still_gets|]. intros e. destruct (present e); [|apply still_ret].
  destruct (PTE_ADDR e =? 0); [apply still_panic|]. apply still_bind; [apply still_kfree|]. intros _.
  apply still_bind; [apply still_mem|]. intros _. apply still_ret.
Qed.
Lemma still_dealloc_loop pgdir b n : ∀ a, still (dealloc_loop kend n pgdir a b).
Proof.
  induction n as [|n IH]; intros a; simpl; destruct (a <? b); try apply still_ret; [apply still_fault|].
  apply still_bind; [apply still_dealloc_one|done].
Qed.
Lemma still_forM {A} (l : list A) f : (∀ x, still (f x)) → still (forM l f).
Proof. intros H. induction l as [|x l IH]; simpl; [apply still_ret|]. by apply still_bind; [|intros _]. Qed.
Lemma still_freevm pgdir : still (freevm kend pgdir).
Proof.
  unfold freevm, deallocuvm, free_table, ld. destruct (pgdir =? 0); [apply still_panic|]. apply still_bind; [|intros _; apply still_bind; [|intros _]].
  - destruct (KERNBASE <=? 0); [apply still_ret|]. apply still_bind; [apply still_dealloc_loop|intros _; apply still_ret].
  - apply still_forM. intros i. apply still_bind; [apply still_gets|]. intros e. unfold whenM.
    destruct (present e); [apply still_kfree|apply still_ret].
  - apply still_kfree.
Qed.
End Still.

(** ** Closing the last attachment *)

Section Close.
Variable kend : Z.
Hypothesis kend_pos : 0 < kend.
Hypothesis kend_high : KERNBASE < kend.

(** What the last [close_shm] does between taking and dropping its lock. *)
Lemma close_last_ok s l tabs fr f k :
  kinv kend (sh_k s) l → nested (k_core (sh_k s)) →
  space kend (k_mem (sh_k s)) (pgdir (sh_proc s)) tabs → apart l (pgdir (sh_proc s)) tabs →
  umap kend (k_mem (sh_k s)) l (pgdir (sh_proc s)) tabs fr 0 → 0 ≤ k < NPAGES → fr k = Some f →
  ∃ k1 k2, freevm kend (pgdir (sh_proc s)) (sh_k s) = Ok (tt, k1) ∧ kfree kend f k1 = Ok (tt, k2) ∧
    k_core k2 = k_core (sh_k s) ∧ freelist k2 = f ∧
    load32 (k_mem k2) f = pgdir (sh_proc s) ∧ ∀ l', ¬ kinv kend k2 l'.
Proof.
  intros Hk Hn Hsp Hap Hu Hkr Hf.
  destruct (freevm_ok kend kend_pos kend_high (sh_k s) l (pgdir (sh_proc s)) tabs fr Hk Hsp Hap Hu) as (k1 & H1 & Hk1).
  assert (Hc : calm (sh_k s)) by (split; [apply Hk|done]). destruct (still_freevm kend _ _ _ _ Hc H1) as [Hc1 He1].
  destruct (kfree_twice kend kend_pos k1 _ f Hk1) as (k2 & H2 & Hfl & Hnx & Hno).
  { right. apply elem_of_app; right. apply elem_of_app; left. apply elem_of_reverse. by apply (frames_elem fr k). }
  destruct (still_kfree kend _ _ _ _ Hc1 H2) as [_ He2]. pose proof (kinv_head kend _ _ _ Hk1) as Hhd.
  exists k1, k2. split_and!; [done|done|congruence|done|congruence|done].
Qed.

Lemma the_shm_ok s i x : shm_table s !! i = Some x → the_shm (Z.of_nat i) s = Ok ((i, x), s).
Proof.
  intros Hx. unfold the_shm. rewrite (proj2 (Z.ltb_ge _ 0)) by lia. rewrite Nat2Z.id, Hx. done.
Qed.
Lemma kinv_core k co l : kinv kend k l → (∃ c, core_ok co c) → kinv kend (upd_lens kst_core co k) l.
Proof. intros (A1 & A2 & A3 & A4 & A5 & _) Hc. split_and!; done. Qed.

(** C37: Closing the last attachment of a segment that is mapped in the closing
    process ([fr k] is its frame).  [close_shm] returns normally, but it has
    freed the address space the process is running on, and freed the shared
    page a second time: the free list starts with that page, followed by the
    live page directory, and runs in a circle, so that it is not the list of
    any set of free pages. *)
Theorem close_shm_double_free s l tabs fr i x k
    (Hx : shm_table s !! i = Some x) (Href : ref_count x = 1) (Hlk : locked (shmlock s) = 0)
    (Hk : kinv kend (sh_k s) l) (Hsp : space kend (k_mem (sh_k s)) (pgdir (sh_proc s)) tabs)
    (Hap : apart l (pgdir (sh_proc s)) tabs)
    (Hu : umap kend (k_mem (sh_k s)) l (pgdir (sh_proc s)) tabs fr 0) (Hkr : 0 ≤ k < NPAGES) (Hf : fr k = Some (frame x)) :
  ∃ s', close_shm kend (Z.of_nat i) s = Ok (tt, s') ∧ pgdir (sh_proc s') = pgdir (sh_proc s) ∧
    freelist (sh_k s') = frame x ∧ load32 (k_mem (sh_k s')) (frame x) = pgdir (sh_proc s) ∧
    ∀ l', ¬ kinv kend (sh_k s') l'.
Proof.
  pose proof Hk as (_ & _ & _ & _ & Hkl & c & Hco). pose proof Hco as (_ & _ & Hn0 & _).
  set (s0 := set_sh_proc (set_shm 0 (sh_proc s)) s).
  pose proof (acquire_ok sh_core shmlock_l s0 c Hco Hlk) as Hacq. set (s1 := upd_lens shmlock_l _ _) in Hacq.
  assert (Hco1 : core_ok (k_core (sh_k s1)) (pushed c)) by by apply core_ok_pushed.
  set (x2 := set_attached (detach (pid (sh_proc s)) (attached_processes x)) (set_ref (sint32 (ref_count x - 1)) x)).
  set (s2 := set_table (alter (λ x, set_attached (detach (pid (sh_proc s0)) (attached_processes x)) x) i
    (alter (λ x, set_ref (sint32 (ref_count x - 1)) x) i (shm_table s1))) s1).
  assert (Hx2 : shm_table s2 !! i = Some x2) by (simpl; by rewrite !list_lookup_alter_eq, Hx).
  destruct (close_last_ok s2 l tabs fr (frame x) k) as (k1 & k2 & H1 & H2 & Hc2 & Hfl & Hnx & Hno); try done.
  { apply (kinv_core (sh_k s) _ l Hk). eauto. }
  { exists (pushed c). split; [done|]. simpl. lia. }
  set (s3 := set_table (alter (set_frame 0) i (shm_table s2)) (upd_lens sh_k_l k2 s2)).
  assert (Hco3 : core_ok (view sh_core s3) (pushed c)) by (simpl; by rewrite Hc2).
  pose proof (release_ok sh_core shmlock_l s3 (pushed c) Hco3) as Hrel. eexists. split.
  - unfold close_shm. erewrite bind_Ok_l by reflexivity. fold s0. erewrite bind_Ok_l by reflexivity.
    erewrite bind_Ok_l by exact Hacq. erewrite bind_Ok_l by (by apply the_shm_ok).
    cbn [fst snd]. rewrite Href. change (negb (1 =? 0)) with true. cbn [whenM].
    erewrite bind_Ok_l.
    2:{ erewrite bind_Ok_l by reflexivity. erewrite bind_Ok_l by reflexivity.
        erewrite bind_Ok_l by (apply (the_shm_ok s2 i x2); exact Hx2).
        assert (He : ref_count x2 =? 0 = true) by (simpl; by rewrite Href). cbn [fst snd]. rewrite He. cbn [whenM].
        erewrite bind_Ok_l by (apply (on_lens_Ok sh_k_l); exact H1).
        erewrite bind_Ok_l by (apply (the_shm_ok _ i x2); exact Hx2).
        erewrite bind_Ok_l by (apply (on_lens_Ok sh_k_l); exact H2). reflexivity. }
    apply Hrel; simpl; try done; [lia|]. by rewrite Hc2.
  - split_and!; try done. intros l' Hl'. apply (Hno l'). destruct Hl' as (A1 & A2 & A3 & A4 & A5 & _). split_and!; try done.
    exists (pushed c). simpl in Hco3. done.
Qed.
End Close.

(** *** Witness *)

Definition shm_demo : shmst :=
  Shmst kst3 lock0 [Shmid 1 (replicate 23 (-1)) 0x80401000 0 lock0] (set_shm 0 (set_sz 0 (set_pgdir 0x80400000 proc0))).
Lemma close_shm_double_free_witness :
  ∃ s', close_shm 0x80100000 0 shm_demo = Ok (tt, s') ∧ ∀ l', ¬ kinv 0x80100000 (sh_k s') l'.
Proof.
  destruct (close_shm_double_free 0x80100000 ltac:(lia) ltac:(by vm_compute) shm_demo [] one_tab fr3 0
    (Shmid 1 (replicate 23 (-1)) 0x80401000 0 lock0) 0 eq_refl eq_refl eq_refl kinv_kst3 space_kst3 apart_kst3 umap_kst3
    ltac:(unfold NPAGES; lia) eq_refl) as (s' & H & _ & _ & _ & Hn).
  exists s'. split; [exact H|exact Hn].
Defined.
