(* ===== verification/Fs.v ===== *)
(** * The file system

    [fs.c]: block and inode allocation, the in-memory inode table, file
    contents, directories and path names.  The code reaches the disk through
    the five operations of [BlockLayer], which the buffer cache and the log
    provide ([Txn] gives the laws the theorems rely on and proves them for
    [Bio] and [Log]).

    The definitions are the routines as one process runs them.  An inode's
    sleep lock is the pid that holds it, and waiting for another holder is
    [Block]; [icache.lock] makes each table access one critical section and is
    not part of the state.  A buffer [char *] is the list of its bytes. *)

From S2P Require Import Prelude Machine Str Spin Bio Log.
Local Open Scope Z_scope.

(** ** What the block layer provides *)

Class BlockLayer (B : Type) := {
  bl_bread : Z → Z → M B nat;
  (** [bp->data], and stores into it *)
  bl_data : nat → M B blk;
  bl_store : nat → blk → M B unit;
  bl_log_write : nat → M B unit;
  bl_brelse : nat → M B unit;
}.
Global Instance log_layer : BlockLayer lst := {|
  bl_bread dev n := on_lens bio_l (bread dev n);
  bl_data i := b ← on_lens bio_l (the_buf i); mret (data b);
  bl_store i d := on_lens bio_l (fill i d);
  bl_log_write := log_write;
  bl_brelse i := on_lens bio_l (brelse i);
|}.

(** ** Data *)

Definition ROOTINO : Z := 1.
Definition NDIRECT : Z := 12.
Definition NINDIRECT : Z := BSIZE / 4.
Definition MAXFILE : Z := NDIRECT + NINDIRECT.
Definition IPB : Z := BSIZE / 64.
Definition BPB : Z := BSIZE * 8.
Definition IBLOCK (i : Z) (sb : superblock) : Z := wrap32 (i / IPB + inodestart sb).
Definition BBLOCK (b : Z) (sb : superblock) : Z := wrap32 (b / BPB + bmapstart sb).

(** A [short]. *)
Definition sint16 (z : Z) : Z := let w := z mod 2^16 in if w <? 2^15 then w else w - 2^16.

(** [struct dinode], and its place among the eight of a block. *)
Record dinode := Dinode { d_type : Z; d_major : Z; d_minor : Z; d_nlink : Z; d_size : Z; d_addrs : list Z }.
Definition get_half (d : blk) (k : nat) : Z := nth (2 * k) d 0 + 2^8 * nth (2 * k + 1) d 0.
Definition put_half (d : blk) (k : nat) (v : Z) : blk :=
  <[(2 * k)%nat := v mod 2^8]> (<[(2 * k + 1)%nat := v / 2^8 mod 2^8]> d).
Definition get_dinode (d : blk) (k : nat) : dinode :=
  Dinode (sint16 (get_half d (32 * k))) (sint16 (get_half d (32 * k + 1)))
    (sint16 (get_half d (32 * k + 2))) (sint16 (get_half d (32 * k + 3)))
    (get_word d (16 * k + 2)) ((λ i, get_word d (16 * k + 3 + i)) <$> seq 0 13).
Definition put_dinode (d : blk) (k : nat) (x : dinode) : blk :=
  let d := put_half d (32 * k) (d_type x) in
  let d := put_half d (32 * k + 1) (d_major x) in
  let d := put_half d (32 * k + 2) (d_minor x) in
  let d := put_half d (32 * k + 3) (d_nlink x) in
  let d := put_word d (16 * k + 2) (d_size x) in
  foldl (λ d i, put_word d (16 * k + 3 + i) (nth i (d_addrs x) 0)) d (seq 0 13).

(** [struct inode]; [i_lock] is the pid holding its sleep lock. *)
Record inode := Inode {
  i_dev : Z; i_inum : Z; i_ref : Z; i_lock : option Z; i_valid : Z;
  i_type : Z; i_major : Z; i_minor : Z; i_nlink : Z; i_size : Z; i_addrs : list Z;
}.
Definition inode0 : inode := Inode 0 0 0 None 0 0 0 0 0 0 (replicate 13 0).
Definition set_iref (r : Z) (x : inode) : inode :=
  Inode (i_dev x) (i_inum x) r (i_lock x) (i_valid x) (i_type x) (i_major x) (i_minor x) (i_nlink x) (i_size x) (i_addrs x).
Definition set_ilock (l : option Z) (x : inode) : inode :=
  Inode (i_dev x) (i_inum x) (i_ref x) l (i_valid x) (i_type x) (i_major x) (i_minor x) (i_nlink x) (i_size x) (i_addrs x).
Definition set_ivalid (v : Z) (x : inode) : inode :=
  Inode (i_dev x) (i_inum x) (i_ref x) (i_lock x) v (i_type x) (i_major x) (i_minor x) (i_nlink x) (i_size x) (i_addrs x).
Definition set_itype (t : Z) (x : inode) : inode :=
  Inode (i_dev x) (i_inum x) (i_ref x) (i_lock x) (i_valid x) t (i_major x) (i_minor x) (i_nlink x) (i_size x) (i_addrs x).
Definition set_idevno (ma mi : Z) (x : inode) : inode :=
  Inode (i_dev x) (i_inum x) (i_ref x) (i_lock x) (i_valid x) (i_type x) ma mi (i_nlink x) (i_size x) (i_addrs x).
Definition set_inlink (n : Z) (x : inode) : inode :=
  Inode (i_dev x) (i_inum x) (i_ref x) (i_lock x) (i_valid x) (i_type x) (i_major x) (i_minor x) n (i_size x) (i_addrs x).
Definition set_isize (n : Z) (x : inode) : inode :=
  Inode (i_dev x) (i_inum x) (i_ref x) (i_lock x) (i_valid x) (i_type x) (i_major x) (i_minor x) (i_nlink x) n (i_addrs x).
Definition set_iaddr (k : nat) (a : Z) (x : inode) : inode :=
  Inode (i_dev x) (i_inum x) (i_ref x) (i_lock x) (i_valid x) (i_type x) (i_major x) (i_minor x) (i_nlink x) (i_size x)
    (<[k := a]> (i_addrs x)).

(** [struct dirent] *)
Record dirent := Dirent { de_inum : Z; de_name : list Z }.
Definition sizeof_dirent : Z := 16.
Definition get_dirent (d : list Z) : dirent := Dirent (nth 0 d 0 + 2^8 * nth 1 d 0) (take 14 (drop 2 d)).
Definition put_dirent (e : dirent) : list Z := [de_inum e mod 2^8; de_inum e / 2^8 mod 2^8] ++ de_name e.

(** [struct stat] *)
Record stat_t := Stat { st_type : Z; st_dev : Z; st_ino : Z; st_nlink : Z; st_size : Z }.

(** The state: the block layer, [sb], [icache], and of the running process its
    pid and current directory. *)
Record fsys (B : Type) := Fsys {
  blocks : B;
  fsb : superblock;
  icache : list inode;
  fpid : Z;
  fcwd : nat;
}.
Arguments Fsys {_} _ _ _ _ _.
Arguments blocks {_} _.
Arguments fsb {_} _.
Arguments icache {_} _.
Arguments fpid {_} _.
Arguments fcwd {_} _.

(** Two buffers in memory, at 0 and at 64. *)
Definition mem2 (a b : list Z) : mem := λ x,
  if 64 <=? x then default 0 (b !! Z.to_nat (x - 64)) else default 0 (a !! Z.to_nat x).
Definition namecmp (s t : list Z) : Z := strncmp (mem2 s t) 0 64 DIRSIZ.

(** The first loop of [skipelem]: leading slashes are dropped.  Strings are
    lists without their terminator. *)
Fixpoint skip_slashes (path : list Z) : list Z :=
  match path with c :: path' => if c =? 47 then skip_slashes path' else path | [] => [] end.
(** The second loop: the characters before the next slash or the end. *)
Fixpoint element (path : list Z) : list Z :=
  match path with c :: path' => if c =? 47 then [] else c :: element path' | [] => [] end.
(** The rest of the path and the new contents of [name]. *)
Definition skipelem (path name : list Z) : option (list Z * list Z) :=
  match skip_slashes path with
  | [] => None
  | path =>
      let s := element path in
      let len := length s in
      let name := if (14 <=? len)%nat then take 14 s ++ drop 14 name else s ++ [0] ++ drop (S len) name in
      Some (skip_slashes (drop len path), name)
  end.

Section Ops.
Context {B : Type} `{!BlockLayer B}.
Notation fs := (fsys B).

Definition blocks_l : lens fs B := Lens blocks (λ b s, Fsys b (fsb s) (icache s) (fpid s) (fcwd s)).
Notation bl := (on_lens blocks_l).
Definition set_icache (l : list inode) (s : fs) : fs := Fsys (blocks s) (fsb s) l (fpid s) (fcwd s).
Definition set_fsb (b : superblock) (s : fs) : fs := Fsys (blocks s) b (icache s) (fpid s) (fcwd s).

Definition the_inode (i : nat) : M fs inode := λ s,
  match icache s !! i with Some x => Ok (x, s) | None => Fault "inode" end.
Definition upd_inode (i : nat) (f : inode → inode) : M fs unit :=
  modify (λ s, set_icache (alter f i (icache s)) s).

(** The change [f] of [bp->data], and [log_write(bp)]. *)
Definition log_change (bp : nat) (f : blk → blk) : M fs unit :=
  d ← bl (bl_data bp); bl (bl_store bp (f d));; bl (bl_log_write bp).

(** *** Blocks *)

Definition fs_readsb (dev : Z) : M fs superblock :=
  bp ← bl (bl_bread dev 1);
  d ← bl (bl_data bp);
  bl (bl_brelse bp);;
  mret (decode_sb d).

Definition bzero (dev bno : Z) : M fs unit :=
  bp ← bl (bl_bread dev bno);
  log_change bp (λ _, replicate 512 0);;
  bl (bl_brelse bp).

(** The bit of block [bi] in a bitmap block; [m] is its mask. *)
Definition bit_set (d : blk) (bi : nat) : bool := negb (Z.land (nth (bi / 8) d 0) (2 ^ Z.of_nat (bi mod 8)) =? 0).
Definition set_bit (bi : nat) (d : blk) : blk :=
  <[(bi / 8)%nat := Z.lor (nth (bi / 8) d 0) (2 ^ Z.of_nat (bi mod 8))]> d.
Definition clear_bit (bi : nat) (d : blk) : blk :=
  <[(bi / 8)%nat := Z.land (nth (bi / 8) d 0) (Z.lnot (2 ^ Z.of_nat (bi mod 8)))]> d.

(** The inner loop of [balloc]: the first clear bit among the first [n]. *)
Definition first_clear (d : blk) (n : nat) : option nat := List.find (λ bi, negb (bit_set d bi)) (seq 0 n).
(** The outer loop over at most [n] bitmap blocks; [size] is [sb.size]. *)
Fixpoint balloc_loop (n : nat) (dev b : Z) : M fs Z :=
  sb ← gets fsb;
  if b <? sb_size sb then
    match n with
    | O => fault "fuel"
    | S n' =>
        bp ← bl (bl_bread dev (BBLOCK b sb));
        d ← bl (bl_data bp);
        match first_clear d (Z.to_nat (Z.min BPB (sb_size sb - b))) with
        | Some bi =>
            log_change bp (set_bit bi);;
            bl (bl_brelse bp);;
            bzero dev (b + Z.of_nat bi);;
            mret (b + Z.of_nat bi)
        | None => bl (bl_brelse bp);; balloc_loop n' dev (b + BPB)
        end
    end
  else panic "balloc: out of blocks".
Definition balloc (dev : Z) : M fs Z :=
  sb ← gets fsb;
  balloc_loop (Z.to_nat (sb_size sb / BPB + 1)) dev 0.

Definition bfree (dev b : Z) : M fs unit :=
  sb ← gets fsb;
  bp ← bl (bl_bread dev (BBLOCK b sb));
  let bi := Z.to_nat (b mod BPB) in
  d ← bl (bl_data bp);
  if negb (bit_set d bi) then panic "freeing free block" else
  log_change bp (clear_bit bi);;
  bl (bl_brelse bp).

(** *** Inodes *)

Definition iget (dev inum : Z) : M fs nat :=
  l ← gets icache;
  match find_index (λ x, (0 <? i_ref x) && (i_dev x =? dev) && (i_inum x =? inum)) l with
  | Some i => upd_inode i (λ x, set_iref (sint32 (i_ref x + 1)) x);; mret i
  | None =>
      match find_index (λ x, i_ref x =? 0) l with
      | None => panic "iget: no inodes"
      | Some i =>
          upd_inode i (λ x, Inode dev inum 1 (i_lock x) 0 (i_type x) (i_major x) (i_minor x) (i_nlink x)
                                  (i_size x) (i_addrs x));;
          mret i
      end
  end.

Fixpoint ialloc_loop (n : nat) (dev type inum : Z) : M fs nat :=
  sb ← gets fsb;
  if inum <? ninodes sb then
    match n with
    | O => fault "fuel"
    | S n' =>
        bp ← bl (bl_bread dev (IBLOCK inum sb));
        let k := Z.to_nat (inum mod IPB) in
        d ← bl (bl_data bp);
        if d_type (get_dinode d k) =? 0 then
          log_change bp (λ d, put_dinode d k (Dinode type 0 0 0 0 (replicate 13 0)));;
          bl (bl_brelse bp);;
          iget dev inum
        else bl (bl_brelse bp);; ialloc_loop n' dev type (inum + 1)
    end
  else panic "ialloc: no inodes".
Definition ialloc (dev type : Z) : M fs nat :=
  sb ← gets fsb;
  ialloc_loop (Z.to_nat (ninodes sb)) dev type 1.

Definition iupdate (ip : nat) : M fs unit :=
  x ← the_inode ip;
  sb ← gets fsb;
  bp ← bl (bl_bread (i_dev x) (IBLOCK (i_inum x) sb));
  let k := Z.to_nat (i_inum x mod IPB) in
  log_change bp (λ d, put_dinode d k
    (Dinode (i_type x) (i_major x) (i_minor x) (i_nlink x) (i_size x) (i_addrs x)));;
  bl (bl_brelse bp).

Definition idup (ip : nat) : M fs nat :=
  the_inode ip;; upd_inode ip (λ x, set_iref (sint32 (i_ref x + 1)) x);; mret ip.

(** [acquiresleep], [releasesleep] and [holdingsleep] on [ip->lock]. *)
Definition i_acquire (ip : nat) : M fs unit :=
  x ← the_inode ip;
  p ← gets fpid;
  match i_lock x with Some _ => block | None => upd_inode ip (set_ilock (Some p)) end.
Definition i_release (ip : nat) : M fs unit := upd_inode ip (set_ilock None).
Definition i_holding (ip : nat) : M fs bool :=
  x ← the_inode ip; p ← gets fpid; mret (bool_decide (i_lock x = Some p)).

Definition ilock (ip : nat) : M fs unit :=
  x ← the_inode ip;
  if i_ref x <? 1 then panic "ilock" else
  i_acquire ip;;
  x ← the_inode ip;
  if i_valid x =? 0 then
    sb ← gets fsb;
    bp ← bl (bl_bread (i_dev x) (IBLOCK (i_inum x) sb));
    d ← bl (bl_data bp);
    let dip := get_dinode d (Z.to_nat (i_inum x mod IPB)) in
    upd_inode ip (λ x, Inode (i_dev x) (i_inum x) (i_ref x) (i_lock x) (i_valid x)
      (d_type dip) (d_major dip) (d_minor dip) (d_nlink dip) (d_size dip) (d_addrs dip));;
    bl (bl_brelse bp);;
    upd_inode ip (set_ivalid 1);;
    if d_type dip =? 0 then panic "ilock: no type" else mret tt
  else mret tt.
Definition iunlock (ip : nat) : M fs unit :=
  h ← i_holding ip;
  x ← the_inode ip;
  if negb h || (i_ref x <? 1) then panic "iunlock" else i_release ip.

(** *** Contents *)

(** [if((addr = ip->addrs[k]) == 0) ip->addrs[k] = addr = balloc(ip->dev);] *)
Definition get_addr (ip : nat) (k : nat) : M fs Z :=
  x ← the_inode ip;
  let a := nth k (i_addrs x) 0 in
  if a =? 0 then b ← balloc (i_dev x); upd_inode ip (set_iaddr k b);; mret b else mret a.
(** The disk block of block [bn] of the file, allocated if there is none. *)
Definition bmap (ip : nat) (bn : Z) : M fs Z :=
  if bn <? NDIRECT then get_addr ip (Z.to_nat bn) else
  let bn := bn - NDIRECT in
  if bn <? NINDIRECT then
    addr ← get_addr ip (Z.to_nat NDIRECT);
    x ← the_inode ip;
    bp ← bl (bl_bread (i_dev x) addr);
    d ← bl (bl_data bp);
    let a := get_word d (Z.to_nat bn) in
    addr ← (if a =? 0 then
              b ← balloc (i_dev x);
              log_change bp (λ d, put_word d (Z.to_nat bn) b);;
              mret b
            else mret a);
    bl (bl_brelse bp);;
    mret addr
  else panic "bmap: out of range".

Definition itrunc_direct (ip : nat) (i : nat) : M fs unit :=
  x ← the_inode ip;
  let a := nth i (i_addrs x) 0 in
  whenM (negb (a =? 0)) (bfree (i_dev x) a;; upd_inode ip (set_iaddr i 0)).
Definition itrunc (ip : nat) : M fs unit :=
  forM (seq 0 (Z.to_nat NDIRECT)) (itrunc_direct ip);;
  x ← the_inode ip;
  let ind := nth (Z.to_nat NDIRECT) (i_addrs x) 0 in
  whenM (negb (ind =? 0))
    (bp ← bl (bl_bread (i_dev x) ind);
     d ← bl (bl_data bp);
     forM (seq 0 (Z.to_nat NINDIRECT)) (λ j,
       whenM (negb (get_word d j =? 0)) (bfree (i_dev x) (get_word d j)));;
     bl (bl_brelse bp);;
     bfree (i_dev x) ind;;
     upd_inode ip (set_iaddr (Z.to_nat NDIRECT) 0));;
  upd_inode ip (set_isize 0);;
  iupdate ip.

Definition iput (ip : nat) : M fs unit :=
  i_acquire ip;;
  x ← the_inode ip;
  whenM (negb (i_valid x =? 0) && (i_nlink x =? 0) && (i_ref x =? 1))
    (itrunc ip;; upd_inode ip (set_itype 0);; iupdate ip;; upd_inode ip (set_ivalid 0));;
  i_release ip;;
  upd_inode ip (λ x, set_iref (sint32 (i_ref x - 1)) x).
Definition iunlockput (ip : nat) : M fs unit := iunlock ip;; iput ip.

Definition stati (ip : nat) : M fs stat_t :=
  x ← the_inode ip;
  mret (Stat (i_type x) (sint32 (i_dev x)) (i_inum x) (i_nlink x) (i_size x)).

(** [devsw]: the device's routine by major number. *)
Variable devsw_read : Z → option (nat → Z → M fs (Z * list Z)).
Variable devsw_write : Z → option (nat → list Z → M fs Z).

(** The loop of [readi], for at most [n] blocks; the bytes read. *)
Fixpoint readi_loop (k : nat) (ip : nat) (tot n off : Z) : M fs (list Z) :=
  if tot <? n then
    match k with
    | O => fault "fuel"
    | S k' =>
        x ← the_inode ip;
        b ← bmap ip (off / BSIZE);
        bp ← bl (bl_bread (i_dev x) b);
        let m := Z.min (n - tot) (BSIZE - off mod BSIZE) in
        d ← bl (bl_data bp);
        bl (bl_brelse bp);;
        rest ← readi_loop k' ip (tot + m) n (off + m);
        mret (take (Z.to_nat m) (drop (Z.to_nat (off mod BSIZE)) d) ++ rest)
    end
  else mret [].
(** The result, as an [int], and the bytes stored at [dst]. *)
Definition readi (ip : nat) (off n : Z) : M fs (Z * list Z) :=
  x ← the_inode ip;
  if i_type x =? T_DEV then
    if (i_major x <? 0) || (NDEV <=? i_major x) then mret (-1, []) else
    match devsw_read (i_major x) with None => mret (-1, []) | Some f => f ip n end
  else
  if (i_size x <? off) || (wrap32 (off + n) <? off) then mret (-1, []) else
  let n := if i_size x <? wrap32 (off + n) then i_size x - off else n in
  bytes ← readi_loop (Z.to_nat (n / BSIZE + 2)) ip 0 n off;
  mret (sint32 n, bytes).

(** The loop of [writei]: returns the final [off]. *)
Fixpoint writei_loop (k : nat) (ip : nat) (src : list Z) (off : Z) : M fs Z :=
  match src with
  | [] => mret off
  | _ =>
      match k with
      | O => fault "fuel"
      | S k' =>
          x ← the_inode ip;
          b ← bmap ip (off / BSIZE);
          bp ← bl (bl_bread (i_dev x) b);
          let o := Z.to_nat (off mod BSIZE) in
          let m := Nat.min (length src) (512 - o) in
          log_change bp (λ d, take o d ++ take m src ++ drop (o + m) d);;
          bl (bl_brelse bp);;
          writei_loop k' ip (drop m src) (off + Z.of_nat m)
      end
  end.
(** [src] holds the [n] bytes to write. *)
Definition writei (ip : nat) (src : list Z) (off : Z) : M fs Z :=
  let n := Z.of_nat (length src) in
  x ← the_inode ip;
  if i_type x =? T_DEV then
    if (i_major x <? 0) || (NDEV <=? i_major x) then mret (-1) else
    match devsw_write (i_major x) with None => mret (-1) | Some f => f ip src end
  else
  if (i_size x <? off) || (wrap32 (off + n) <? off) then mret (-1) else
  if MAXFILE * BSIZE <? wrap32 (off + n) then mret (-1) else
  off' ← writei_loop (Z.to_nat (n / BSIZE + 2)) ip src off;
  x ← the_inode ip;
  whenM ((0 <? n) && (i_size x <? off')) (upd_inode ip (set_isize off');; iupdate ip);;
  mret (sint32 n).

(** *** Directories *)

(** The loop of [dirlookup] from entry [off]: the inode number and offset. *)
Fixpoint dirlookup_loop (k : nat) (dp : nat) (name : list Z) (off : Z) : M fs (option (Z * Z)) :=
  x ← the_inode dp;
  if off <? i_size x then
    match k with
    | O => fault "fuel"
    | S k' =>
        r ← readi dp off sizeof_dirent;
        if negb (r.1 =? sizeof_dirent) then panic "dirlookup read" else
        let de := get_dirent r.2 in
        if negb (de_inum de =? 0) && (namecmp name (de_name de) =? 0) then mret (Some (de_inum de, off))
        else dirlookup_loop k' dp name (off + sizeof_dirent)
    end
  else mret None.
(** The inode found and the offset of its entry. *)
Definition dirlookup (dp : nat) (name : list Z) : M fs (option (nat * Z)) :=
  x ← the_inode dp;
  if negb (i_type x =? T_DIR) then panic "dirlookup not DIR" else
  r ← dirlookup_loop (Z.to_nat (i_size x / sizeof_dirent + 1)) dp name 0;
  match r with
  | None => mret None
  | Some (inum, off) => ip ← iget (i_dev x) inum; mret (Some (ip, off))
  end.

(** The loop of [dirlink]: the offset of the first free entry or the end. *)
Fixpoint free_entry (k : nat) (dp : nat) (off : Z) : M fs Z :=
  x ← the_inode dp;
  if off <? i_size x then
    match k with
    | O => fault "fuel"
    | S k' =>
        r ← readi dp off sizeof_dirent;
        if negb (r.1 =? sizeof_dirent) then panic "dirlink read" else
        if de_inum (get_dirent r.2) =? 0 then mret off
        else free_entry k' dp (off + sizeof_dirent)
    end
  else mret off.
(** [strncpy] overwrites all of [de.name]. *)
Definition dirlink (dp : nat) (name : list Z) (inum : Z) : M fs Z :=
  r ← dirlookup dp name;
  match r with
  | Some (ip, _) => iput ip;; mret (-1)
  | None =>
      x ← the_inode dp;
      off ← free_entry (Z.to_nat (i_size x / sizeof_dirent + 1)) dp 0;
      let de := Dirent (inum mod 2^16) (read_bytes (strncpy (mem2 (replicate 14 0) name) 0 64 DIRSIZ) 0 14) in
      r ← writei dp (put_dirent de) off;
      if negb (r =? sizeof_dirent) then panic "dirlink" else mret 0
  end.

(** *** Paths *)

(** The loop of [namex]; every round consumes an element of [path].  [None] is
    the null pointer; the last component is left in [name]. *)
Fixpoint namex_loop (k : nat) (ip : nat) (nameiparent : bool) (path name : list Z) : M fs (option nat * list Z) :=
  match skipelem path name with
  | None => if nameiparent then iput ip;; mret (None, name) else mret (Some ip, name)
  | Some (path', name') =>
      match k with
      | O => fault "fuel"
      | S k' =>
          ilock ip;;
          x ← the_inode ip;
          if negb (i_type x =? T_DIR) then iunlockput ip;; mret (None, name') else
          if nameiparent && bool_decide (path' = []) then iunlock ip;; mret (Some ip, name') else
          next ← dirlookup ip name';
          match next with
          | None => iunlockput ip;; mret (None, name')
          | Some (nx, _) => iunlockput ip;; namex_loop k' nx nameiparent path' name'
          end
      end
  end.
(** [name] is the caller's buffer. *)
Definition namex (path : list Z) (nameiparent : bool) (name : list Z) : M fs (option nat * list Z) :=
  ip ← (if bool_decide (head path = Some 47) then iget ROOTDEV ROOTINO
        else c ← gets fcwd; idup c);
  namex_loop (length path) ip nameiparent path name.
Definition namei (path : list Z) : M fs (option nat) :=
  r ← namex path false (replicate 14 0); mret r.1.
Definition nameiparent (path : list Z) (name : list Z) : M fs (option nat * list Z) := namex path true name.

(** [iinit]: the locks start free; the message is not represented. *)
Definition iinit (dev : Z) : M fs unit :=
  modify (λ s, set_icache (set_ilock None <$> icache s) s);;
  sb ← fs_readsb dev;
  modify (set_fsb sb).
End Ops.
