(* ===== verification/Txn.v ===== *)
(** * The contract between the file system and the layers below

    Inside a transaction the file system sees a disk of blocks: [bread] pins
    the current contents of a block, a store followed by [log_write] changes
    them, [brelse] unpins.  [LayerOk] states this contract on an abstract
    transaction state; the instance [log_layer_ok] proves it for the buffer
    cache and the log.  The theorems on [fs.c] use only the contract. *)

From S2P Require Import Prelude Machine Spin Bio Log Fs.
Local Open Scope Z_scope.

(** A transaction: the disk as the file system sees it, the pinned buffers with
    their block numbers, the blocks changed so far, and the limits. *)
Record txn := Txn {
  tx_view : Z → blk;
  tx_held : list (nat * Z);
  tx_log : list Z;
  tx_size : Z;
  tx_cap : nat;
}.
Definition tx_hold (h : nat) (n : Z) (t : txn) : txn :=
  Txn (tx_view t) ((h, n) :: tx_held t) (tx_log t) (tx_size t) (tx_cap t).
Definition tx_drop (h : nat) (t : txn) : txn :=
  Txn (tx_view t) (filter (λ p, p.1 ≠ h) (tx_held t)) (tx_log t) (tx_size t) (tx_cap t).
Definition put_view (n : Z) (d : blk) (v : Z → blk) : Z → blk := λ m, if m =? n then d else v m.
Definition tx_write (n : Z) (d : blk) (t : txn) : txn :=
  Txn (put_view n d (tx_view t)) (tx_held t) (absorb (tx_log t) n) (tx_size t) (tx_cap t).

Class LayerOk (B : Type) `{!BlockLayer B} := {
  lay : B → txn → Prop;
  lay_len : ∀ b t n, lay b t → 0 ≤ n < tx_size t → length (tx_view t n) = 512%nat;
  lay_nodup : ∀ b t, lay b t → NoDup (tx_held t).*1;
  lay_logdup : ∀ b t, lay b t → NoDup (tx_log t);
  lay_bread : ∀ b t n, lay b t → 0 ≤ n < tx_size t → n ∉ (tx_held t).*2 →
    (length (tx_log t) + length (tx_held t) < 30)%nat →
    ∃ h b', bl_bread 1 n b = Ok (h, b') ∧ h ∉ (tx_held t).*1 ∧ lay b' (tx_hold h n t);
  lay_data : ∀ b t h n, lay b t → (h, n) ∈ tx_held t → bl_data h b = Ok (tx_view t n, b);
  lay_write : ∀ b t h n d, lay b t → (h, n) ∈ tx_held t → (length (tx_log t) < tx_cap t)%nat → length d = 512%nat →
    ∃ b', (bl_store h d;; bl_log_write h) b = Ok (tt, b') ∧ lay b' (tx_write n d t);
  lay_brelse : ∀ b t h n, lay b t → (h, n) ∈ tx_held t →
    ∃ b', bl_brelse h b = Ok (tt, b') ∧ lay b' (tx_drop h t);
}.

(** ** The log keeps the contract *)

(** The state of cache and log during the transaction [t]. *)
Record log_lay (s : lst) (t : txn) : Prop := {
  ll_inv : cache_inv (bio s) (tx_held t).*1;
  ll_nodup : NoDup (tx_held t).*1;
  ll_held : ∀ h n, (h, n) ∈ tx_held t → ∃ b, caches (bio s) h n b;
  ll_view : ∀ n, 0 ≤ n < tx_size t → content (bio s) n = tx_view t n;
  ll_log : lh (lg s) = tx_log t;
  ll_logdup : NoDup (tx_log t);
  ll_dirty : ∀ n, is_dirty (bio s) n ↔ n ∈ tx_log t;
  ll_ndirty : ndirty (bio s) = length (tx_log t);
  ll_size : disksize (bio s) = tx_size t;
  ll_len : ∀ n, 0 ≤ n < tx_size t → length (tx_view t n) = 512%nat;
  ll_out : 1 ≤ outstanding (lg s);
  ll_cap : Z.of_nat (tx_cap t) ≤ LOGSIZE ∧ Z.of_nat (tx_cap t) ≤ l_size (lg s) - 1;
  ll_bufs : length (bufs (bio s)) = 30%nat;
}.

Lemma held_blockno s t i b :
  log_lay s t → i ∈ (tx_held t).*1 → bufs (bio s) !! i = Some b → ∃ n, (i, n) ∈ tx_held t ∧ blockno b = n.
Proof.
  intros Hl Hi Hb. apply list_elem_of_fmap in Hi as ([h n] & -> & Hin).
  destruct (ll_held _ _ Hl h n Hin) as (c & Hc & _ & Hn). exists n. split; [done|]. simpl in *. congruence.
Qed.

Lemma log_bread s t n : log_lay s t → 0 ≤ n < tx_size t → n ∉ (tx_held t).*2 →
  (length (tx_log t) + length (tx_held t) < 30)%nat →
  ∃ h s', on_lens bio_l (bread 1 n) s = Ok (h, s') ∧ h ∉ (tx_held t).*1 ∧ log_lay s' (tx_hold h n t).
Proof.
  intros Hl Hn Hnh Hroom. pose proof Hl as [A1 A2 A3 A4 A5 A6 A7 A8 A9 A10 A11 A12 A13].
  destruct (bread_ok (bio s) (tx_held t).*1 n) as (h & b & Hr & Hinv & Hv & Hh & (c & Hc & Hd) & Hsame).
  - done.
  - by rewrite A9.
  - right. rewrite A8, A13. by autorewrite with len.
  - intros i b Hi Hb Hbn. destruct (held_blockno s t i b Hl Hi Hb) as (m & Hm & He). apply Hnh.
    rewrite <- Hbn, He. by apply (list_elem_of_fmap_2 snd _ (i, m)).
  - exists h, (Lst (lg s) b). split_and!; [by apply cache_Ok|done|]. destruct Hv as [V1 V2 V3 V4 V5 V6 V7 V8].
    constructor; simpl; try done; try congruence.
    + by apply NoDup_cons.
    + intros h' n' Hin. apply elem_of_cons in Hin as [[= -> ->]|Hin]; [eauto|].
      destruct (A3 h' n' Hin) as (e & He & ?). exists e. split; [|done].
      rewrite Hsame; [done|]. by apply (list_elem_of_fmap_2 fst _ (h', n')).
    + intros m Hm. rewrite V5. by apply A4.
    + intros m. rewrite V6. apply A7.
Qed.
Lemma log_data s t h n : log_lay s t → (h, n) ∈ tx_held t →
  (b ← on_lens bio_l (the_buf h); mret (data b)) s = Ok (tx_view t n, s).
Proof.
  intros Hl Hin. pose proof Hl as [A1 A2 A3 A4 A5 A6 A7 A8 A9 A10 A11 A12 A13].
  destruct (A3 h n Hin) as (b & Hc). pose proof Hc as (Hb & Hd & Hn).
  erewrite bind_Ok_l by (apply cache_Ok; by apply the_buf_ok). unfold mret, M_ret. f_equal. f_equal.
  - destruct (ci_dev _ _ A1 h b Hb) as [(_ & _ & Hr)|[? _]]; [|congruence].
    rewrite <- (A4 n) by (rewrite <- Hn, <- A9; done). symmetry.
    apply (content_cached _ h); [|done]. intros; by eapply (ci_uniq _ _ A1).
  - by destruct s.
Qed.

Lemma absorb_length l n : (length l ≤ length (absorb l n) ≤ S (length l))%nat.
Proof. unfold absorb. destruct (find_index _ _); rewrite ?length_app; simpl; lia. Qed.
Lemma absorb_in l n : n ∈ l → absorb l n = l.
Proof.
  intros Hin. unfold absorb. destruct (find_index _ _) eqn:Hf; [done|].
  apply list_elem_of_lookup in Hin as [k Hk]. pose proof (proj1 (find_index_None _ _) Hf k n Hk) as He. cbn beta in He. lia.
Qed.
Lemma absorb_notin l n : n ∉ l → absorb l n = l ++ [n].
Proof.
  intros Hin. unfold absorb. destruct (find_index _ _) as [i|] eqn:Hf; [|done].
  apply find_index_Some in Hf as [(x & Hx & Heq%Z.eqb_eq) _]. subst. destruct Hin. by eapply list_elem_of_lookup_2.
Qed.

Lemma log_write_lay s t h n d : log_lay s t → (h, n) ∈ tx_held t → (length (tx_log t) < tx_cap t)%nat →
  length d = 512%nat → ∃ s', (on_lens bio_l (fill h d);; log_write h) s = Ok (tt, s') ∧ log_lay s' (tx_write n d t).
Proof.
  intros Hl Hin Hcap Hlen. pose proof Hl as [A1 A2 A3 A4 A5 A6 A7 A8 A9 A10 A11 A12 A13].
  destruct (A3 h n Hin) as (b & Hc). pose proof Hc as (Hb & Hd & Hn).
  assert (Hh : h ∈ (tx_held t).*1) by by apply (list_elem_of_fmap_2 fst _ (h, n)).
  destruct (ci_held _ _ A1 h b Hb) as [(_ & Hlk & Hr)|[? _]]; [|done].
  destruct (ci_dev _ _ A1 h b Hb) as [(_ & Hfl & Hrange)|[? _]]; [|congruence].
  assert (Hs : is_Some (bufs (bio s) !! h)) by eauto.
  set (b1 := set_flags 6 (set_data d b)).
  assert (Huniq : ∀ j c, j ≠ h → ¬ caches (bio s) j n c).
  { intros j c Hne Hj. apply Hne. by eapply (ci_uniq _ _ A1 j h). }
  eexists. split; [eapply log_write_run; try done; rewrite ?A5; lia|]. fold b1.
  assert (Hdi := put_dirty (bio s) h n b b1 Hc eq_refl Hd Hn).
  constructor; simpl; rewrite ?A5; try done.
  - eapply inv_put; [done|done|left; simpl; auto|by simpl; rewrite Hn|done|left; auto|done].
  - intros h' n' Hin'. destruct (decide (h' = h)) as [->|Hne].
    + destruct (A3 h n' Hin') as (b' & Hb' & Hd' & Hn'). exists b1. apply put_buf_caches; [done|].
      left. split_and!; try done. simpl. rewrite Hn. rewrite Hb in Hb'. injection Hb' as <-. congruence.
    + destruct (A3 h' n' Hin') as (b' & Hc'). exists b'. apply put_buf_caches; auto.
  - intros m Hm. rewrite (content_put (bio s) (tx_held t).*1 h b) by (simpl; rewrite ?Hn; done). simpl. unfold put_view.
    rewrite Hn, Hd. destruct (Z.eqb_spec m n) as [->|Hne]; [by rewrite bool_decide_eq_true_2|].
    rewrite !bool_decide_eq_false_2 by naive_solver. by apply A4.
  - by apply absorb_nodup.
  - intros m. rewrite Hdi, absorb_elem, A7. done.
  - pose proof (ndirty_put (bio s) h b1 b Hb) as Hnd. change (dirty b1) with true in Hnd. simpl in Hnd.
    destruct (decide (n ∈ tx_log t)) as [Hi|Hi].
    + rewrite absorb_in by done. assert (dirty b = true) as Hdb.
      { apply A7 in Hi as (j & c & Hj & Hdc). assert (j = h) as -> by (by eapply (ci_uniq _ _ A1)).
        destruct Hj as (Hj & _). congruence. }
      rewrite Hdb in Hnd. simpl in Hnd. lia.
    + rewrite absorb_notin, length_app by done. assert (dirty b = false) as Hdb.
      { destruct (dirty b) eqn:E; [|done]. destruct Hi. apply A7. exists h, b. done. }
      rewrite Hdb in Hnd. simpl in *. lia.
  - intros m Hm. unfold put_view. destruct (m =? n); [done|]. by apply A10.
  - by rewrite length_insert.
Qed.

Lemma log_brelse s t h n : log_lay s t → (h, n) ∈ tx_held t →
  ∃ s', on_lens bio_l (brelse h) s = Ok (tt, s') ∧ log_lay s' (tx_drop h t).
Proof.
  intros Hl Hin. pose proof Hl as [A1 A2 A3 A4 A5 A6 A7 A8 A9 A10 A11 A12 A13].
  assert (Hh : h ∈ (tx_held t).*1) by by apply (list_elem_of_fmap_2 fst _ (h, n)).
  destruct (brelse_ok (bio s) (tx_held t).*1 h A1 Hh) as (b & Hr & Hinv & Hv & Hsame).
  exists (Lst (lg s) b). split; [by apply cache_Ok|]. destruct Hv as [V1 V2 V3 V4 V5 V6 V7 V8].
  assert (Hf : ∀ l : list (nat * Z), filter (λ j, j ≠ h) l.*1 = (filter (λ p : nat * Z, p.1 ≠ h) l).*1).
  { induction l as [|[x y] l IH]; [done|]. rewrite fmap_cons, !filter_cons. simpl.
    destruct (decide (x ≠ h)) as [?|?]; simpl; by rewrite IH. }
  constructor; simpl; try done; try congruence.
  - rewrite <- Hf. by apply NoDup_filter.
  - intros h' n' Hin'. apply list_elem_of_filter in Hin' as [Hne Hin']. simpl in Hne.
    destruct (A3 h' n' Hin') as (e & He & ?). exists e. split; [|done]. by rewrite Hsame.
  - intros m Hm. rewrite V5. by apply A4.
  - intros m. rewrite V6. apply A7.
Qed.

Global Instance log_layer_ok : LayerOk lst := {|
  lay := log_lay;
  lay_len b t n H := ll_len b t H n;
  lay_nodup b t H := ll_nodup b t H;
  lay_logdup b t H := ll_logdup b t H;
  lay_bread := log_bread;
  lay_data := log_data;
  lay_write := log_write_lay;
  lay_brelse := log_brelse;
|}.
