(* ===== verification/FsOk.v ===== *)
(** * Correctness of the file system: blocks and file contents

    The theorems on [Fs], proved against the contract [LayerOk] of the block
    layer: the bitmap allocator hands out free blocks and nothing else, and
    reading a file gives back what was written to it. *)

From S2P Require Import Prelude Machine Str Spin Bio Log Fs Txn.
Local Open Scope Z_scope.

(** ** Bits of the bitmap *)

Lemma land_pow2 x k : 0 ≤ k → (Z.land x (2^k) =? 0) = negb (Z.testbit x k).
Proof.
  intros Hk. destruct (Z.testbit x k) eqn:E; simpl.
  - apply Z.eqb_neq. intros H0. apply (f_equal (λ z, Z.testbit z k)) in H0.
    rewrite Z.land_spec, E, Z.pow2_bits_true, Z.bits_0 in H0 by done. done.
  - apply Z.eqb_eq. apply Z.bits_inj'. intros n Hn. rewrite Z.land_spec, Z.bits_0.
    destruct (decide (n = k)) as [->|Hne]; [by rewrite E|]. rewrite Z.pow2_bits_false by lia. apply andb_false_r.
Qed.
Lemma bit_set_testbit d bi : bit_set d bi = Z.testbit (nth (bi / 8) d 0) (Z.of_nat (bi mod 8)).
Proof. unfold bit_set. rewrite land_pow2 by lia. by destruct (Z.testbit _ _). Qed.
Lemma bit_index_eq i j : (i / 8 = j / 8)%nat → (i mod 8 = j mod 8)%nat → i = j.
Proof. intros H1 H2. rewrite (Nat.div_mod_eq i 8), (Nat.div_mod_eq j 8). congruence. Qed.

Lemma bit_set_set_bit d i j : (i / 8 < length d)%nat → bit_set (set_bit i d) j = bit_set d j || bool_decide (i = j).
Proof.
  intros Hi. rewrite !bit_set_testbit. unfold set_bit. rewrite nth_insert by done.
  destruct (decide (j / 8 = i / 8)%nat) as [He|Hne].
  - rewrite Z.lor_spec, Z.pow2_bits_eqb, He by lia. f_equal.
    case_bool_decide as Hij; [subst; lia|]. apply Z.eqb_neq. intros Hm. apply Hij.
    apply bit_index_eq; lia.
  - rewrite bool_decide_eq_false_2, orb_false_r by congruence. done.
Qed.
Lemma bit_set_clear_bit d i j : (i / 8 < length d)%nat → bit_set (clear_bit i d) j = bit_set d j && negb (bool_decide (i = j)).
Proof.
  intros Hi. rewrite !bit_set_testbit. unfold clear_bit. rewrite nth_insert by done.
  destruct (decide (j / 8 = i / 8)%nat) as [He|Hne].
  - rewrite Z.land_spec, Z.lnot_spec, Z.pow2_bits_eqb, He by lia. do 2 f_equal.
    case_bool_decide as Hij; [subst; lia|]. apply Z.eqb_neq. intros Hm. apply Hij. apply bit_index_eq; lia.
  - rewrite bool_decide_eq_false_2, andb_true_r by congruence. done.
Qed.
Lemma length_set_bit i d : length (set_bit i d) = length d.
Proof. apply length_insert. Qed.
Lemma length_clear_bit i d : length (clear_bit i d) = length d.
Proof. apply length_insert. Qed.

(** The first number below [n] that satisfies [f]. *)
Lemma find_seq_Some (f : nat → bool) k n i : List.find f (seq k n) = Some i →
  (k ≤ i < k + n)%nat ∧ f i = true ∧ ∀ j, (k ≤ j < i)%nat → f j = false.
Proof.
  revert k. induction n as [|n IH]; intros k; simpl; [done|]. destruct (f k) eqn:E.
  - intros [= <-]. split_and!; [lia|lia|done|]. intros j Hj. lia.
  - intros H. destruct (IH _ H) as (H1 & H2 & H3). split_and!; [lia|lia|done|]. intros j Hj.
    destruct (decide (j = k)) as [->|]; [done|]. apply H3. lia.
Qed.
Lemma first_clear_Some d n i : first_clear d n = Some i →
  (i < n)%nat ∧ bit_set d i = false ∧ ∀ j, (j < i)%nat → bit_set d j = true.
Proof.
  unfold first_clear. intros H. apply find_seq_Some in H as (H1 & H2 & H3).
  split_and!; [lia|by apply negb_true_iff in H2|]. intros j Hj. apply negb_false_iff, H3. lia.
Qed.
Lemma first_clear_None d n : first_clear d n = None → ∀ j, (j < n)%nat → bit_set d j = true.
Proof.
  unfold first_clear. intros H j Hj. pose proof (find_none _ _ H j) as Hn.
  apply negb_false_iff, Hn, in_seq. lia.
Qed.

Section FsOk.
Context {B : Type} `{!BlockLayer B} `{!LayerOk B}.
Notation fs := (fsys B).
Notation bl := (on_lens blocks_l).
Implicit Types (s : fs) (t : txn).

Definition set_blocks (b : B) s : fs := Fsys b (fsb s) (icache s) (fpid s) (fcwd s).
Lemma bl_Ok {A} (c : M B A) s a b : c (blocks s) = Ok (a, b) → bl c s = Ok (a, set_blocks b s).
Proof. unfold on_lens. simpl. by intros ->. Qed.
Lemma set_blocks_twice b b' s : set_blocks b (set_blocks b' s) = set_blocks b s.
Proof. done. Qed.

(** ** One block at a time *)

Lemma bread_rule s t n : lay (blocks s) t → 0 ≤ n < tx_size t → n ∉ (tx_held t).*2 →
  (length (tx_log t) + length (tx_held t) < 30)%nat →
  ∃ h b, bl (bl_bread 1 n) s = Ok (h, set_blocks b s) ∧ h ∉ (tx_held t).*1 ∧ lay b (tx_hold h n t).
Proof.
  intros Hl Hn Hh Hr. destruct (lay_bread _ _ n Hl Hn Hh Hr) as (h & b & Hb & Hh' & Hl').
  exists h, b. split_and!; try done. by apply bl_Ok.
Qed.
Lemma data_rule s t h n : lay (blocks s) t → (h, n) ∈ tx_held t → bl (bl_data h) s = Ok (tx_view t n, s).
Proof. intros Hl Hin. rewrite (bl_Ok _ s (tx_view t n) (blocks s)) by by apply lay_data. by destruct s. Qed.
Lemma change_rule s t h n f : lay (blocks s) t → (h, n) ∈ tx_held t → (length (tx_log t) < tx_cap t)%nat →
  length (f (tx_view t n)) = 512%nat →
  ∃ b, log_change h f s = Ok (tt, set_blocks b s) ∧ lay b (tx_write n (f (tx_view t n)) t).
Proof.
  intros Hl Hin Hc Hd. destruct (lay_write _ _ h n (f (tx_view t n)) Hl Hin Hc Hd) as (b & Hb & Hl').
  exists b. split; [|done]. unfold log_change. erewrite bind_Ok_l by by apply data_rule.
  apply bind_Ok in Hb as (? & b1 & H1 & H2). destruct x. erewrite bind_Ok_l by (apply bl_Ok; exact H1).
  erewrite bl_Ok by exact H2. done.
Qed.
Lemma drop_hold h n t : h ∉ (tx_held t).*1 → tx_drop h (tx_hold h n t) = t.
Proof.
  intros Hh. unfold tx_drop, tx_hold. destruct t as [v l g sz c]; simpl in *. f_equal.
  rewrite filter_cons_False by (simpl; naive_solver).
  induction l as [|[x y] l IH]; [done|]. rewrite fmap_cons, not_elem_of_cons in Hh. simpl in Hh.
  rewrite filter_cons_True by (simpl; naive_solver). f_equal. apply IH. naive_solver.
Qed.
Lemma brelse_rule s t h n : lay (blocks s) (tx_hold h n t) → h ∉ (tx_held t).*1 →
  ∃ b, bl (bl_brelse h) s = Ok (tt, set_blocks b s) ∧ lay b t.
Proof.
  intros Hl Hh. destruct (lay_brelse _ _ h n Hl) as (b & Hb & Hl'); [left|].
  exists b. rewrite drop_hold in Hl' by done. split; [by apply bl_Ok|done].
Qed.
(** Read a block, apply [f], log it, let go. *)
Lemma edit_rule s t n f : lay (blocks s) t → 0 ≤ n < tx_size t → n ∉ (tx_held t).*2 →
  (length (tx_log t) + length (tx_held t) < 30)%nat → (length (tx_log t) < tx_cap t)%nat →
  length (f (tx_view t n)) = 512%nat →
  ∃ b, (bp ← bl (bl_bread 1 n); log_change bp f;; bl (bl_brelse bp)) s = Ok (tt, set_blocks b s) ∧
    lay b (tx_write n (f (tx_view t n)) t).
Proof.
  intros Hl Hn Hh Hr Hc Hf. destruct (bread_rule s t n Hl Hn Hh Hr) as (h & b & H1 & Hnew & Hl1).
  destruct (change_rule (set_blocks b s) (tx_hold h n t) h n f Hl1) as (b2 & H2 & Hl2); [left|done|done|].
  change (tx_write n _ (tx_hold h n t)) with (tx_hold h n (tx_write n (f (tx_view t n)) t)) in Hl2.
  destruct (brelse_rule (set_blocks b2 s) _ h n Hl2 Hnew) as (b3 & H3 & Hl3).
  exists b3. split; [|done]. erewrite bind_Ok_l by exact H1. erewrite bind_Ok_l by exact H2. exact H3.
Qed.

(** ** The bitmap *)

Section Bitmap.
Variable sb : superblock.
(** The bitmap block of block [b], and the bitmap blocks. *)
Definition bm (b : Z) : Z := b / 4096 + bmapstart sb.
Definition is_bm t (n : Z) : Prop := ∃ b, 0 ≤ b < tx_size t ∧ n = bm b.
Definition used t (b : Z) : bool := bit_set (tx_view t (bm b)) (Z.to_nat (b mod 4096)).

(** The disk layout, and that the bitmap marks its own blocks. *)
Record layout t : Prop := {
  ly_size : sb_size sb = tx_size t;
  ly_max : 0 < tx_size t < 2^31;
  ly_start : 0 ≤ bmapstart sb;
  ly_end : (tx_size t - 1) / 4096 + bmapstart sb < tx_size t;
  ly_used : ∀ n, is_bm t n → used t n = true;
  ly_held : ∀ n, n ∈ (tx_held t).*2 → used t n = true ∧ ¬ is_bm t n ∧ 0 ≤ n < tx_size t;
}.

Lemma bm_range t b : layout t → 0 ≤ b < tx_size t → 0 ≤ bm b < tx_size t.
Proof.
  intros [H1 H2 H3 H4 _ _] Hb. unfold bm. assert (0 ≤ b / 4096 ≤ (tx_size t - 1) / 4096); [|lia].
  split; [apply Z.div_pos; lia|apply Z.div_le_mono; lia].
Qed.
Lemma BBLOCK_bm t b : layout t → 0 ≤ b < tx_size t → BBLOCK b sb = bm b.
Proof.
  intros Hly Hb. pose proof (bm_range t b Hly Hb). destruct Hly as [H1 H2 H3 H4 _ _]. unfold BBLOCK, bm in *.
  change BPB with 4096. rewrite wrap32_id; [done|]. unfold is_u32. lia.
Qed.
Lemma is_bm_bm t b : 0 ≤ b < tx_size t → is_bm t (bm b).
Proof. intros Hb. by exists b. Qed.

(** Writing a block that is not a bitmap block leaves the bitmap alone. *)
Lemma used_write t n d b : 0 ≤ b < tx_size t → ¬ is_bm t n → used (tx_write n d t) b = used t b.
Proof.
  intros Hb Hn. unfold used, tx_write, put_view. simpl. destruct (Z.eqb_spec (bm b) n) as [He|]; [|done].
  destruct Hn. exists b. done.
Qed.
(** Setting one bit. *)
Lemma used_set t b x : layout t → (∀ n, 0 ≤ n < tx_size t → length (tx_view t n) = 512%nat) →
  0 ≤ b < tx_size t → 0 ≤ x < tx_size t →
  used (tx_write (bm b) (set_bit (Z.to_nat (b mod 4096)) (tx_view t (bm b))) t) x = used t x || (x =? b).
Proof.
  intros Hly Hlen Hb Hx. unfold used, tx_write, put_view. simpl.
  destruct (Z.eqb_spec (bm x) (bm b)) as [He|Hne].
  - rewrite bit_set_set_bit.
    2:{ rewrite Hlen by by apply bm_range. apply Nat.Div0.div_lt_upper_bound.
        pose proof (Z.mod_pos_bound b 4096). lia. }
    rewrite He. f_equal. unfold bm in He. assert (x / 4096 = b / 4096) as Hd by lia.
    pose proof (Z.mod_pos_bound b 4096). pose proof (Z.mod_pos_bound x 4096).
    case_bool_decide as Hi; symmetry; [apply Z.eqb_eq|apply Z.eqb_neq].
    + apply Z2Nat.inj in Hi; [|lia..]. rewrite (Z.div_mod x 4096), (Z.div_mod b 4096) by lia. congruence.
    + intros ->. done.
  - destruct (Z.eqb_spec x b); [by subst|]. by rewrite orb_false_r.
Qed.
Lemma used_clear t b x : layout t → (∀ n, 0 ≤ n < tx_size t → length (tx_view t n) = 512%nat) →
  0 ≤ b < tx_size t → 0 ≤ x < tx_size t →
  used (tx_write (bm b) (clear_bit (Z.to_nat (b mod 4096)) (tx_view t (bm b))) t) x = used t x && negb (x =? b).
Proof.
  intros Hly Hlen Hb Hx. unfold used, tx_write, put_view. simpl.
  destruct (Z.eqb_spec (bm x) (bm b)) as [He|Hne].
  - rewrite bit_set_clear_bit.
    2:{ rewrite Hlen by by apply bm_range. apply Nat.Div0.div_lt_upper_bound.
        pose proof (Z.mod_pos_bound b 4096). lia. }
    rewrite He. do 2 f_equal. unfold bm in He. assert (x / 4096 = b / 4096) as Hd by lia.
    pose proof (Z.mod_pos_bound b 4096). pose proof (Z.mod_pos_bound x 4096).
    case_bool_decide as Hi; symmetry; [apply Z.eqb_eq|apply Z.eqb_neq].
    + apply Z2Nat.inj in Hi; [|lia..]. rewrite (Z.div_mod x 4096), (Z.div_mod b 4096) by lia. congruence.
    + intros ->. done.
  - destruct (Z.eqb_spec x b); [by subst|]. by rewrite andb_true_r.
Qed.

(** The transaction after allocating [b]. *)
Definition alloc_tx (b : Z) t : txn :=
  tx_write b (replicate 512 0) (tx_write (bm b) (set_bit (Z.to_nat (b mod 4096)) (tx_view t (bm b))) t).
(** Block [b], free before, is in use; nothing else changed in the bitmap. *)
Record claims (b : Z) t t' : Prop := {
  cl_range : 0 ≤ b < tx_size t;
  cl_free : used t b = false;
  cl_bm : ¬ is_bm t b;
  cl_used : ∀ x, 0 ≤ x < tx_size t → used t' x = used t x || (x =? b);
  cl_held : tx_held t' = tx_held t;
  cl_size : tx_size t' = tx_size t;
  cl_cap : tx_cap t' = tx_cap t;
}.
Record allocated (b : Z) t t' : Prop := {
  al_claims : claims b t t';
  al_zero : tx_view t' b = replicate 512 0;
  al_frame : ∀ n, n ≠ b → ¬ is_bm t n → tx_view t' n = tx_view t n;
  al_log : (length (tx_log t') ≤ 2 + length (tx_log t))%nat;
  al_logs : ∀ n, n ∈ tx_log t' → n ∈ tx_log t ∨ n = b ∨ is_bm t n;
}.
Lemma alloc_tx_allocated b t :
  layout t → (∀ n, 0 ≤ n < tx_size t → length (tx_view t n) = 512%nat) →
  0 ≤ b < tx_size t → used t b = false → allocated b t (alloc_tx b t).
Proof.
  intros Hly Hlen Hb Hf. assert (Hnb : ¬ is_bm t b) by (intros H; apply (ly_used t Hly) in H; congruence).
  constructor; [constructor; try done|..].
  - intros x Hx. unfold alloc_tx. rewrite used_write by done. by apply used_set.
  - simpl. unfold put_view. by rewrite Z.eqb_refl.
  - intros n Hn Hnm. simpl. unfold put_view. rewrite (proj2 (Z.eqb_neq n b) Hn).
    destruct (Z.eqb_spec n (bm b)) as [->|]; [|done]. destruct Hnm. by apply is_bm_bm.
  - simpl. pose proof (absorb_length (tx_log t) (bm b)). pose proof (absorb_length (absorb (tx_log t) (bm b)) b). lia.
  - simpl. intros n Hn. apply absorb_elem in Hn as [Hn| ->]; [|auto]. apply absorb_elem in Hn as [Hn| ->]; [auto|].
    right; right. by apply is_bm_bm.
Qed.
Lemma claims_layout b t t' : layout t → claims b t t' → layout t'.
Proof.
  intros [A1 A2 A3 A4 A5 A6] [B1 B2 B3 B4 B7 B8 B9]. constructor; rewrite ?B8; try done.
  - intros n Hn. assert (Hn' : is_bm t n) by (destruct Hn as (x & Hx & ->); exists x; by rewrite B8 in Hx).
    rewrite B4; [by rewrite (A5 n Hn')|]. destruct Hn' as (x & Hx & ->).
    apply (bm_range t); [by constructor|done].
  - intros n. rewrite B7. intros Hn. destruct (A6 n Hn) as (H1 & H2 & H3). split_and!; try lia.
    + by rewrite B4, H1.
    + intros (x & Hx & ->). apply H2. exists x. by rewrite B8 in Hx.
Qed.

(** The number of free blocks. *)
Definition free_in (f : Z → bool) (l : list Z) : nat := length (List.filter (λ n, negb (f n)) l).
Definition nfree t : nat := free_in (used t) (seqZ 0 (tx_size t)).
Lemma free_in_ext f g l : (∀ n, n ∈ l → g n = f n) → free_in g l = free_in f l.
Proof.
  intros H. unfold free_in. f_equal. induction l as [|a l IH]; [done|]. simpl.
  rewrite (H a) by left. rewrite IH by (intros; apply H; by right). done.
Qed.
Lemma free_in_claim f g l b : NoDup l → b ∈ l → f b = false → (∀ n, n ∈ l → g n = f n || (n =? b)) →
  free_in f l = S (free_in g l).
Proof.
  intros Hnd Hb Hf Hg. induction l as [|a l IH]; [by apply elem_of_nil in Hb|].
  apply NoDup_cons in Hnd as [Hni Hnd]. unfold free_in. simpl. fold (free_in f l) (free_in g l).
  rewrite (Hg a) by left. destruct (Z.eqb_spec a b) as [->|Hne].
  - rewrite Hf. simpl. f_equal. symmetry. apply free_in_ext. intros n Hn. rewrite Hg by by right.
    destruct (Z.eqb_spec n b) as [->|]; [done|apply orb_false_r].
  - rewrite orb_false_r. apply elem_of_cons in Hb as [|Hb]; [done|].
    assert (IH' : free_in f l = S (free_in g l)) by (apply IH; try done; intros; apply Hg; by right).
    unfold free_in in IH'. destruct (f a); simpl; lia.
Qed.
Lemma claims_nfree b t t' : claims b t t' → nfree t = S (nfree t').
Proof.
  intros [A1 A2 A3 A4 A7 A8 A9]. unfold nfree. rewrite A8. apply (free_in_claim _ _ _ b); try done.
  - apply NoDup_seqZ.
  - apply elem_of_seqZ. lia.
  - intros n Hn. apply elem_of_seqZ in Hn. apply A4. lia.
Qed.
Lemma nfree_write t n d : ¬ is_bm t n → nfree (tx_write n d t) = nfree t.
Proof.
  intros Hn. apply (free_in_ext (used t)). intros m Hm. apply elem_of_seqZ in Hm. apply used_write; [simpl in Hm; lia|done].
Qed.
Lemma nfree_0 t : (∀ x, 0 ≤ x < tx_size t → used t x = true) → nfree t = 0%nat.
Proof.
  intros H. unfold nfree. rewrite (free_in_ext (λ _, true)); [unfold free_in; by induction (seqZ 0 (tx_size t))|].
  intros n Hn. apply elem_of_seqZ in Hn. apply H. lia.
Qed.

(** A state and transaction in which block operations make sense. *)
Record fs_ok s t : Prop := {
  fo_lay : lay (blocks s) t;
  fo_sb : fsb s = sb;
  fo_layout : layout t;
}.
Lemma fo_len s t n : fs_ok s t → 0 ≤ n < tx_size t → length (tx_view t n) = 512%nat.
Proof. intros [Hl _ _]. by eapply lay_len. Qed.
Lemma bm_not_held t b : layout t → 0 ≤ b < tx_size t → bm b ∉ (tx_held t).*2.
Proof. intros Hly Hb Hin. destruct (ly_held t Hly _ Hin) as (_ & H & _). apply H. by apply is_bm_bm. Qed.

Lemma bzero_rule s t n : lay (blocks s) t → 0 ≤ n < tx_size t → n ∉ (tx_held t).*2 →
  (length (tx_log t) + length (tx_held t) < 30)%nat → (length (tx_log t) < tx_cap t)%nat →
  ∃ b, bzero 1 n s = Ok (tt, set_blocks b s) ∧ lay b (tx_write n (replicate 512 0) t).
Proof. intros. by apply (edit_rule s t n (λ _, replicate 512 0)). Qed.

Lemma balloc_loop_S n dev b s : b <? sb_size (fsb s) = true →
  balloc_loop (S n) dev b s =
    (bp ← bl (bl_bread dev (BBLOCK b (fsb s)));
     d ← bl (bl_data bp);
     match first_clear d (Z.to_nat (Z.min BPB (sb_size (fsb s) - b))) with
     | Some bi => log_change bp (set_bit bi);; bl (bl_brelse bp);; bzero dev (b + Z.of_nat bi);; mret (b + Z.of_nat bi)
     | None => bl (bl_brelse bp);; balloc_loop n dev (b + BPB)
     end) s.
Proof. intros H. cbn [balloc_loop]. erewrite bind_Ok_l by reflexivity. by rewrite H. Qed.

Lemma balloc_loop_ok n : ∀ s t b, fs_ok s t → b mod 4096 = 0 → 0 ≤ b → tx_size t - b ≤ Z.of_nat n * 4096 →
  (length (tx_log t) + 2 ≤ tx_cap t)%nat → (length (tx_log t) + length (tx_held t) + 2 ≤ 30)%nat →
  (∀ x, 0 ≤ x < b → x < tx_size t → used t x = true) →
  (∃ x k, 0 ≤ x < tx_size t ∧ used t x = false ∧ (∀ y, 0 ≤ y < x → used t y = true) ∧
     balloc_loop n 1 b s = Ok (x, set_blocks k s) ∧ lay k (alloc_tx x t)) ∨
  ((∀ x, 0 ≤ x < tx_size t → used t x = true) ∧ balloc_loop n 1 b s = Panic "balloc: out of blocks").
Proof.
  induction n as [|n IH]; intros s t b Hok Hb Hb0 Hn Hcap Hroom Hlow; pose proof Hok as [Hl Hsb Hly].
  { right. split; [intros x Hx; apply Hlow; lia|]. cbn [balloc_loop]. erewrite bind_Ok_l by reflexivity.
    by rewrite Hsb, (ly_size t Hly), (proj2 (Z.ltb_ge b _)) by lia. }
  destruct (decide (b < tx_size t)) as [Hlt|Hge].
  2:{ right. split; [intros x Hx; apply Hlow; lia|]. cbn [balloc_loop]. erewrite bind_Ok_l by reflexivity.
      by rewrite Hsb, (ly_size t Hly), (proj2 (Z.ltb_ge b _)) by lia. }
  rewrite balloc_loop_S by (rewrite Hsb, (ly_size t Hly); by apply Z.ltb_lt).
  rewrite Hsb, (BBLOCK_bm t) by (done || lia). change BPB with 4096. rewrite (ly_size t Hly).
  assert (Hbm : 0 ≤ bm b < tx_size t) by (apply bm_range; done || lia).
  destruct (bread_rule s t (bm b)) as (h & k1 & H1 & Hnew & Hl1); [done|done|apply bm_not_held; done || lia|lia|].
  erewrite bind_Ok_l by exact H1. erewrite bind_Ok_l by (apply data_rule with (n := bm b); [exact Hl1|left]).
  assert (Hbit : ∀ j, (j < Z.to_nat (Z.min 4096 (tx_size t - b)))%nat →
     bit_set (tx_view t (bm b)) j = used t (b + Z.of_nat j) ∧ bm (b + Z.of_nat j) = bm b ∧
     Z.to_nat ((b + Z.of_nat j) mod 4096) = j).
  { intros j Hj. assert (bm (b + Z.of_nat j) = bm b) as He.
    { unfold bm. f_equal. Z.div_mod_to_equations. lia. }
    assert (Z.to_nat ((b + Z.of_nat j) mod 4096) = j) as Hm by (Z.div_mod_to_equations; lia).
    unfold used. by rewrite He, Hm. }
  change (tx_view (tx_hold h (bm b) t)) with (tx_view t).
  destruct (first_clear _ _) as [j|] eqn:Ef.
  - apply first_clear_Some in Ef as (Hj & Hfree & Hbelow). destruct (Hbit j Hj) as (Hu & Hbj & Hmj).
    left. exists (b + Z.of_nat j). assert (Hx : 0 ≤ b + Z.of_nat j < tx_size t) by lia.
    destruct (change_rule (set_blocks k1 s) (tx_hold h (bm b) t) h (bm b) (set_bit j)) as (k2 & H2 & Hl2); try done.
    { left. } { simpl. lia. } { rewrite length_set_bit. exact (fo_len s t (bm b) Hok Hbm). }
    change (tx_write (bm b) _ (tx_hold h (bm b) t))
      with (tx_hold h (bm b) (tx_write (bm b) (set_bit j (tx_view t (bm b))) t)) in Hl2.
    destruct (brelse_rule (set_blocks k2 s) _ h (bm b) Hl2 Hnew) as (k3 & H3 & Hl3).
    pose proof (absorb_length (tx_log t) (bm b)) as Habs.
    destruct (bzero_rule (set_blocks k3 s) _ (b + Z.of_nat j) Hl3) as (k4 & H4 & Hl4); simpl; try done; try lia.
    { intros Hin. destruct (ly_held t Hly _ Hin) as (Hu' & _). congruence. }
    exists k4. split_and!; try lia; try congruence.
    + intros y Hy. destruct (decide (y < b)); [apply Hlow; lia|].
      destruct (Hbit (Z.to_nat (y - b))) as (Hy' & _); [lia|].
      replace (b + Z.of_nat (Z.to_nat (y - b))) with y in Hy' by lia. rewrite <- Hy'. apply Hbelow. lia.
    + erewrite bind_Ok_l by exact H2. erewrite bind_Ok_l by exact H3. erewrite bind_Ok_l by exact H4. done.
    + unfold alloc_tx. rewrite Hbj, Hmj. exact Hl4.
  - destruct (brelse_rule (set_blocks k1 s) t h (bm b) Hl1 Hnew) as (k2 & H2 & Hl2).
    destruct (IH (set_blocks k2 s) t (b + 4096)) as [(x & k & Hx & Hf & Hbel & Hrun & Hlk)|[Hall Hrun]]; try done; try lia.
    + Z.div_mod_to_equations. lia.
    + intros x Hx Hxs. destruct (decide (x < b)); [apply Hlow; lia|].
      destruct (Hbit (Z.to_nat (x - b))) as (Hx' & _); [lia|].
      replace (b + Z.of_nat (Z.to_nat (x - b))) with x in Hx' by lia. rewrite <- Hx'.
      apply (first_clear_None _ _ Ef). lia.
    + left. exists x, k. split_and!; try done; try lia. erewrite bind_Ok_l by exact H2. exact Hrun.
    + right. split; [done|]. erewrite bind_Ok_l by exact H2. exact Hrun.
Qed.

Lemma balloc_ok s t : fs_ok s t →
  (length (tx_log t) + 2 ≤ tx_cap t)%nat → (length (tx_log t) + length (tx_held t) + 2 ≤ 30)%nat →
  (∃ x k, (∀ y, 0 ≤ y < x → used t y = true) ∧ balloc 1 s = Ok (x, set_blocks k s) ∧
     lay k (alloc_tx x t) ∧ allocated x t (alloc_tx x t)) ∨
  ((∀ x, 0 ≤ x < tx_size t → used t x = true) ∧ balloc 1 s = Panic "balloc: out of blocks").
Proof.
  intros Hok Hcap Hroom. pose proof Hok as [Hl Hsb Hly]. pose proof (ly_max t Hly).
  unfold balloc. erewrite (bind_Ok_l (gets fsb)) by reflexivity. rewrite Hsb, (ly_size t Hly). change BPB with 4096.
  destruct (balloc_loop_ok (Z.to_nat (tx_size t / 4096 + 1)) s t 0 Hok) as [(x & k & Hx & Hf & Hb & Hrun & Hlk)|[Ha Hrun]];
    try done; try lia.
  - Z.div_mod_to_equations. lia.
  - left. exists x, k. split_and!; try done. apply alloc_tx_allocated; try done. intros n. by eapply fo_len.
  - right. done.
Qed.

(** The block allocator.  [balloc] returns the lowest block that the bitmap
    marks free, marks exactly that block used, fills it with zeros, and leaves
    every other block's contents alone; when every block is used it panics. *)
Theorem balloc_allocates s t (Hok : fs_ok s t)
    (Hcap : (length (tx_log t) + 2 ≤ tx_cap t)%nat) (Hroom : (length (tx_log t) + length (tx_held t) + 2 ≤ 30)%nat) :
  (∃ x k t', balloc 1 s = Ok (x, set_blocks k s) ∧ fs_ok (set_blocks k s) t' ∧ allocated x t t' ∧
     ∀ y, 0 ≤ y < x → used t y = true) ∨
  ((∀ x, 0 ≤ x < tx_size t → used t x = true) ∧ balloc 1 s = Panic "balloc: out of blocks").
Proof.
  pose proof Hok as [Hl Hsb Hly].
  destruct (balloc_ok s t Hok Hcap Hroom) as [(x & k & Hb & Hrun & Hlk & Ha)|?]; [left|by right].
  exists x, k, (alloc_tx x t). split_and!; try done. constructor; try done. eapply claims_layout; [exact Hly|apply Ha].
Qed.

(** [bfree] gives a block back: it clears exactly that block's bit and
    changes no other block; freeing a block that is already free panics. *)
Theorem bfree_frees s t b (Hok : fs_ok s t) (Hb : 0 ≤ b < tx_size t)
    (Hcap : (length (tx_log t) < tx_cap t)%nat) (Hroom : (length (tx_log t) + length (tx_held t) < 30)%nat) :
  if used t b then
    ∃ k t', bfree 1 b s = Ok (tt, set_blocks k s) ∧ lay k t' ∧
      (∀ x, 0 ≤ x < tx_size t → used t' x = used t x && negb (x =? b)) ∧
      (∀ n, ¬ is_bm t n → tx_view t' n = tx_view t n)
  else bfree 1 b s = Panic "freeing free block".
Proof.
  pose proof Hok as [Hl Hsb Hly]. unfold bfree. erewrite (bind_Ok_l (gets fsb)) by reflexivity.
  rewrite Hsb, (BBLOCK_bm t) by done. change BPB with 4096.
  destruct (bread_rule s t (bm b)) as (h & k1 & H1 & Hnew & Hl1);
    [done|by apply bm_range|by apply bm_not_held|lia|].
  erewrite bind_Ok_l by exact H1. erewrite bind_Ok_l by (apply data_rule with (n := bm b); [exact Hl1|left]).
  change (tx_view (tx_hold h (bm b) t)) with (tx_view t). fold (used t b).
  destruct (used t b) eqn:Hu; cbn [negb]; [|done].
  destruct (change_rule (set_blocks k1 s) (tx_hold h (bm b) t) h (bm b) (clear_bit (Z.to_nat (b mod 4096)))) as (k2 & H2 & Hl2);
    try done.
  { left. } { rewrite length_clear_bit. exact (fo_len s t (bm b) Hok (bm_range t b Hly Hb)). }
  change (tx_write (bm b) _ (tx_hold h (bm b) t))
    with (tx_hold h (bm b) (tx_write (bm b) (clear_bit (Z.to_nat (b mod 4096)) (tx_view t (bm b))) t)) in Hl2.
  destruct (brelse_rule (set_blocks k2 s) _ h (bm b) Hl2 Hnew) as (k3 & H3 & Hl3).
  exists k3. eexists. split_and!; [|exact Hl3|..].
  - erewrite bind_Ok_l by exact H2. exact H3.
  - intros x Hx. apply used_clear; try done. intros n. by eapply fo_len.
  - intros n Hn. simpl. unfold put_view. destruct (Z.eqb_spec n (bm b)) as [->|]; [|done].
    destruct Hn. by apply is_bm_bm.
Qed.

(** ** The blocks of a file *)

Definition ind (x : inode) : Z := nth 12 (i_addrs x) 0.
(** The disk block of file block [bn], 0 when there is none. *)
Definition addr t (x : inode) (bn : Z) : Z :=
  if bn <? 12 then nth (Z.to_nat bn) (i_addrs x) 0
  else if ind x =? 0 then 0 else get_word (tx_view t (ind x)) (Z.to_nat (bn - 12)).
(** The blocks of a file: data blocks 0 to 139 and the indirect block. *)
Definition slot t (x : inode) (j : Z) : Z := if j =? 140 then ind x else addr t x j.

Definition good t (b : Z) : Prop :=
  0 ≤ b < tx_size t ∧ used t b = true ∧ ¬ is_bm t b ∧ b ∉ (tx_held t).*2.
Record file_ok t (x : inode) : Prop := {
  fk_dev : i_dev x = 1;
  fk_len : length (i_addrs x) = 13%nat;
  fk_boot : used t 0 = true;
  fk_good : ∀ j, 0 ≤ j ≤ 140 → slot t x j ≠ 0 → good t (slot t x j);
  fk_inj : ∀ i j, 0 ≤ i ≤ 140 → 0 ≤ j ≤ 140 → slot t x i = slot t x j → slot t x i ≠ 0 → i = j;
}.

Lemma nth_zeros n i : nth i (replicate n 0) 0 = 0.
Proof. revert i. induction n as [|n IH]; intros [|i]; simpl; auto. Qed.
Lemma get_word_zeros k : get_word (replicate 512 0) k = 0.
Proof. unfold get_word. by rewrite !nth_zeros. Qed.

(** [good] survives an allocation. *)
Lemma good_alloc b t t' y : layout t → claims b t t' → good t y → good t' y ∧ y ≠ b.
Proof.
  intros Hly [A1 A2 A3 A4 A7 A8 A9] (H1 & H2 & H3 & H4). split.
  - unfold good. rewrite A8, A7. split_and!; try lia; try done.
    + by rewrite A4, H2.
    + intros (z & Hz & ->). apply H3. exists z. by rewrite A8 in Hz.
  - intros ->. congruence.
Qed.
Lemma good_new b t t' : layout t → claims b t t' → good t' b.
Proof.
  intros Hly [A1 A2 A3 A4 A7 A8 A9]. unfold good. rewrite A8, A7. split_and!; try lia.
  - rewrite A4, Z.eqb_refl by done. apply orb_true_r.
  - intros (z & Hz & ->). apply A3. exists z. by rewrite A8 in Hz.
  - intros Hin. destruct (ly_held t Hly b Hin). congruence.
Qed.

(** Filling slot [j0] with a new block. *)
Lemma file_ok_fill t x t' x' b j0 :
  layout t → file_ok t x → claims b t t' → 0 ≤ j0 ≤ 140 → slot t x j0 = 0 →
  i_dev x' = i_dev x → length (i_addrs x') = 13%nat →
  (∀ j, 0 ≤ j ≤ 140 → slot t' x' j = if j =? j0 then b else slot t x j) →
  file_ok t' x'.
Proof.
  intros Hly [F1 F2 F3 F4 F5] Ha Hj0 H0 Hd Hlen Hs. pose proof Ha as [A1 A2 A3 A4 A7 A8 A9].
  constructor; [congruence|done| | |].
  - rewrite A4, F3 by lia. done.
  - intros j Hj. rewrite Hs by done. destruct (Z.eqb_spec j j0); [intros; by eapply good_new|].
    intros Hn. by eapply good_alloc; [..|apply F4].
  - assert (Hb : ∀ j, 0 ≤ j ≤ 140 → slot t x j ≠ 0 → slot t x j ≠ b).
    { intros j Hj Hn. by eapply good_alloc; [..|apply F4]. }
    intros i j Hi Hj. rewrite !Hs by done.
    destruct (Z.eqb_spec i j0) as [->|Hij], (Z.eqb_spec j j0) as [->|Hjj]; try done.
    + intros He Hn. exfalso. apply (Hb j Hj); congruence.
    + intros He Hn. exfalso. apply (Hb i Hi); congruence.
    + by apply F5.
Qed.

(** A direct slot, or the indirect block. *)
Lemma slot_set_iaddr t x t' b k :
  layout t → file_ok t x → allocated b t t' → (k ≤ 12)%nat → nth k (i_addrs x) 0 = 0 →
  ∀ j, 0 ≤ j ≤ 140 →
    slot t' (set_iaddr k b x) j = if j =? (if decide (k = 12%nat) then 140 else Z.of_nat k) then b else slot t x j.
Proof.
  intros Hly [F1 F2 F3 F4 F5] Ha Hk H0 j Hj. pose proof Ha as [[A1 A2 A3 A4 A7 A8 A9] A5 A6 A10 A11].
  assert (Hb0 : b ≠ 0) by congruence.
  unfold slot, addr, ind. simpl. rewrite !nth_insert by lia.
  destruct (decide (k = 12%nat)) as [->|Hk12].
  - rewrite decide_True by done. rewrite H0. destruct (Z.eqb_spec j 140); [done|].
    destruct (Z.ltb_spec j 12).
    + rewrite decide_False by lia. done.
    + rewrite (proj2 (Z.eqb_neq b 0) Hb0). simpl. rewrite A5. apply get_word_zeros.
  - rewrite (decide_False (P := 12%nat = k)) by lia. destruct (Z.eqb_spec j 140) as [->|Hj140].
    + by rewrite (proj2 (Z.eqb_neq 140 _)) by lia.
    + destruct (Z.ltb_spec j 12).
      * destruct (Z.eqb_spec j (Z.of_nat k)) as [->|Hne]; [by rewrite decide_True by lia|].
        by rewrite decide_False by lia.
      * rewrite (proj2 (Z.eqb_neq j _)) by lia. destruct (Z.eqb_spec (nth 12 (i_addrs x) 0) 0) as [|Hi]; [done|].
        assert (Hg : good t (slot t x 140)) by (apply F4; [lia|done]). change (slot t x 140) with (nth 12 (i_addrs x) 0) in Hg.
        destruct (good_alloc b t t' _ Hly (al_claims _ _ _ Ha) Hg) as [_ Hne]. destruct Hg as (_ & _ & Hnb & _).
        rewrite A6 by done. done.
Qed.

(** The contents of file block [bn]; a hole reads as zeros. *)
Definition fblock t (x : inode) (bn : Z) : blk :=
  if addr t x bn =? 0 then replicate 512 0 else tx_view t (addr t x bn).

Definition set_addrs (l : list Z) (x : inode) : inode :=
  Inode (i_dev x) (i_inum x) (i_ref x) (i_lock x) (i_valid x) (i_type x) (i_major x) (i_minor x) (i_nlink x) (i_size x) l.

(** What work on a file may do: it changes nothing of the inode but the block
    addresses, fills empty slots with blocks that were free, and leaves the
    blocks of everything else alone. *)
Record grows t (x : inode) t' (x' : inode) : Prop := {
  gw_meta : x' = set_addrs (i_addrs x') x;
  gw_slot : ∀ j, 0 ≤ j ≤ 140 → slot t' x' j = slot t x j ∨
    slot t x j = 0 ∧ 0 ≤ slot t' x' j < tx_size t ∧ used t (slot t' x' j) = false;
  gw_used : ∀ n, 0 ≤ n < tx_size t → used t n = true → used t' n = true;
  gw_frame : ∀ n, 0 ≤ n < tx_size t → used t n = true → ¬ is_bm t n → (∀ j, 0 ≤ j ≤ 140 → slot t x j ≠ n) →
    tx_view t' n = tx_view t n;
  gw_held : tx_held t' = tx_held t;
  gw_size : tx_size t' = tx_size t;
  gw_cap : tx_cap t' = tx_cap t;
}.
Definition same_data t (x : inode) t' (x' : inode) : Prop := ∀ bn, 0 ≤ bn < 140 → fblock t' x' bn = fblock t x bn.
Lemma grows_refl t x : grows t x t x.
Proof. constructor; auto; try done. by destruct x. Qed.
Lemma grows_slot t x t' x' j : grows t x t' x' → 0 ≤ j ≤ 140 → slot t x j ≠ 0 → slot t' x' j = slot t x j.
Proof. intros Hg Hj Hn. by destruct (gw_slot _ _ _ _ Hg j Hj) as [|(? & _)]. Qed.
Lemma slot_addr t x bn : 0 ≤ bn < 140 → slot t x bn = addr t x bn.
Proof. intros Hbn. unfold slot. by rewrite (proj2 (Z.eqb_neq bn 140)) by lia. Qed.
Lemma grows_addr t x t' x' bn : grows t x t' x' → 0 ≤ bn < 140 → addr t x bn ≠ 0 → addr t' x' bn = addr t x bn.
Proof. intros Hg Hbn. rewrite <- !slot_addr by done. apply grows_slot; [done|lia]. Qed.
Lemma grows_trans t x t1 x1 t2 x2 : used t 0 = true → grows t x t1 x1 → grows t1 x1 t2 x2 → grows t x t2 x2.
Proof.
  intros Hboot [A1 A2 A3 A4 A5 A6 A7] [B1 B2 B3 B4 B5 B6 B7].
  assert (Hbm : ∀ n, is_bm t1 n → is_bm t n) by (intros n (z & Hz & ->); exists z; by rewrite A6 in Hz).
  constructor; try congruence.
  - rewrite A1 in B1. exact B1.
  - intros j Hj. destruct (A2 j Hj) as [He|(H0 & Hr & Hf)], (B2 j Hj) as [He'|(H0' & Hr' & Hf')].
    + left. congruence.
    + right. rewrite A6 in Hr'. split_and!; [congruence|lia|lia|].
      destruct (used t (slot t2 x2 j)) eqn:E; [|done]. rewrite A3 in Hf'; done.
    + right. rewrite He'. done.
    + congruence.
  - intros n Hn Hu. apply B3; [by rewrite A6|by apply A3].
  - intros n Hn Hu Hnb Hs. rewrite B4; [by apply A4|by rewrite A6|by apply A3|auto|].
    intros j Hj. destruct (A2 j Hj) as [->|(_ & _ & Hf)]; [by apply Hs|congruence].
Qed.

Definition put_inode (ip : nat) (x : inode) s : fs := set_icache (<[ip := x]> (icache s)) s.
Lemma the_inode_ok s ip x : icache s !! ip = Some x → the_inode ip s = Ok (x, s).
Proof. intros H. unfold the_inode. by rewrite H. Qed.
Lemma upd_inode_ok s ip x f : icache s !! ip = Some x → upd_inode ip f s = Ok (tt, put_inode ip (f x) s).
Proof.
  intros H. unfold upd_inode, modify, put_inode. do 3 f_equal. rewrite list_insert_alter. apply list_eq. intros j.
  destruct (decide (ip = j)) as [<-|Hne]; [by rewrite !list_lookup_alter_eq, H|by rewrite !list_lookup_alter_ne].
Qed.
Lemma put_inode_id s ip x : icache s !! ip = Some x → put_inode ip x s = s.
Proof. intros H. unfold put_inode. rewrite list_insert_id by done. by destruct s. Qed.
Lemma put_inode_at s ip x y : icache s !! ip = Some y → icache (put_inode ip x s) !! ip = Some x.
Proof. intros H. simpl. apply list_lookup_insert_eq. by eapply lookup_lt_Some. Qed.
Lemma put_put_inode s ip x y : put_inode ip x (put_inode ip y s) = put_inode ip x s.
Proof. unfold put_inode. simpl. by rewrite list_insert_insert_eq. Qed.

(** A state in which file [x] is inode entry [ip]. *)
Record open_file s t (ip : nat) (x : inode) : Prop := {
  of_fs : fs_ok s t;
  of_at : icache s !! ip = Some x;
  of_ok : file_ok t x;
}.

(** Filling the empty slot [j0] with the new zeroed block [b] changes no
    contents, as long as old blocks keep theirs. *)
Lemma fill_blocks t x t' x' b j0 : layout t → file_ok t x → claims b t t' →
  (∀ j, 0 ≤ j ≤ 140 → slot t' x' j = if j =? j0 then b else slot t x j) → slot t x j0 = 0 →
  tx_view t' b = replicate 512 0 →
  (∀ n, good t n → n ≠ ind x → tx_view t' n = tx_view t n) →
  ∀ bn, 0 ≤ bn < 140 → (addr t x bn ≠ 0 → addr t' x' bn = addr t x bn) ∧ fblock t' x' bn = fblock t x bn.
Proof.
  intros Hly [F1 F2 F3 F4 F5] Hc Hs H0 Hz Hfr bn Hbn.
  assert (Hb0 : b ≠ 0) by (destruct Hc as [? ? ? ? ? ? ?]; congruence).
  assert (Hsl : ∀ u y, slot u y bn = addr u y bn) by (intros; unfold slot; by rewrite (proj2 (Z.eqb_neq bn 140)) by lia).
  pose proof (Hs bn ltac:(lia)) as Hbs. rewrite !Hsl in Hbs. unfold fblock. rewrite Hbs.
  destruct (Z.eqb_spec bn j0) as [->|Hne].
  - rewrite Hsl in H0. rewrite H0, (proj2 (Z.eqb_neq b 0) Hb0). done.
  - split; [done|]. destruct (Z.eqb_spec (addr t x bn) 0) as [|Hn]; [done|]. apply Hfr.
    + rewrite <- Hsl. apply F4; [lia|by rewrite Hsl].
    + intros He. assert (bn = 140); [|lia]. apply F5; rewrite ?Hsl; try lia; done.
Qed.

Lemma alloc_grows t x t' b k :
  layout t → file_ok t x → allocated b t t' → (k ≤ 12)%nat → nth k (i_addrs x) 0 = 0 →
  grows t x t' (set_iaddr k b x) ∧ same_data t x t' (set_iaddr k b x).
Proof.
  intros Hly Hf Ha Hk H0. pose proof Ha as [Hc A5 A6 A10 A11]. pose proof Hc as [A1 A2 A3 A4 A7 A8 A9].
  set (j0 := if decide (k = 12%nat) then 140 else Z.of_nat k).
  assert (Hs0 : slot t x j0 = 0).
  { unfold j0. case_decide; [by subst|]. unfold slot, addr.
    by rewrite (proj2 (Z.eqb_neq _ 140)), (proj2 (Z.ltb_lt _ 12)), Nat2Z.id by lia. }
  assert (Hfill : ∀ bn, 0 ≤ bn < 140 →
    (addr t x bn ≠ 0 → addr t' (set_iaddr k b x) bn = addr t x bn) ∧ fblock t' (set_iaddr k b x) bn = fblock t x bn).
  { apply (fill_blocks t x t' _ b j0); try done; [by apply slot_set_iaddr|].
    intros n Hg _. destruct (good_alloc b t t' n Hly Hc Hg). apply A6; [done|apply Hg]. }
  split; [|intros bn Hbn; by apply Hfill]. constructor; try done.
  - intros j Hj. rewrite (slot_set_iaddr t x t' b k) by done. fold j0.
    destruct (Z.eqb_spec j j0) as [->|]; [right|by left]. split_and!; [done|lia|lia|done].
  - intros n Hn Hu. by rewrite A4, Hu.
  - intros n Hn Hu Hnb _. apply A6; [|done]. congruence.
Qed.

(** The data blocks that can still be had: the free blocks, and one is set
    aside for the indirect block if the file has none. *)
Definition space t (x : inode) : nat := nfree t + (if ind x =? 0 then 0 else 1).

Lemma get_addr_ok s t ip x k :
  open_file s t ip x → (k ≤ 12)%nat → (length (tx_log t) + 2 ≤ tx_cap t)%nat →
  (length (tx_log t) + length (tx_held t) + 2 ≤ 30)%nat →
  (∃ x' t' s', get_addr ip k s = Ok (nth k (i_addrs x') 0, s') ∧ (∃ b, s' = put_inode ip x' (set_blocks b s)) ∧
     open_file s' t' ip x' ∧ grows t x t' x' ∧ same_data t x t' x' ∧ nth k (i_addrs x') 0 ≠ 0 ∧
     (length (tx_log t') ≤ 2 + length (tx_log t))%nat ∧
     (∀ n, n ∈ tx_log t' → n ∈ tx_log t ∨ n = nth k (i_addrs x') 0 ∨ is_bm t n) ∧
     (space t x ≤ space t' x' + (if decide (k = 12)%nat then 0 else 1))%nat) ∨
  get_addr ip k s = Panic "balloc: out of blocks" ∧ nfree t = 0%nat ∧ nth k (i_addrs x) 0 = 0.
Proof.
  intros [Hfs Hat Hf] Hk Hcap Hroom. pose proof Hfs as [Hl Hsb Hly]. pose proof Hf as [F1 F2 F3 F4 F5].
  unfold get_addr. erewrite bind_Ok_l by by apply the_inode_ok.
  destruct (Z.eqb_spec (nth k (i_addrs x) 0) 0) as [H0|Hn].
  - rewrite F1. destruct (balloc_ok s t Hfs Hcap Hroom) as [(b & kb & _ & Hrun & Hlk & Ha)|[Hall Hp]].
    2:{ right. split; [unfold mbind, M_bind; by rewrite Hp|]. split; [by apply nfree_0|done]. }
    left. set (s' := put_inode ip (set_iaddr k b x) (set_blocks kb s)).
    assert (Hnth : nth k (i_addrs (set_iaddr k b x)) 0 = b) by (simpl; rewrite nth_insert by lia; by rewrite decide_True).
    exists (set_iaddr k b x), (alloc_tx b t), s'. rewrite Hnth. split_and!.
    + erewrite bind_Ok_l by exact Hrun. erewrite bind_Ok_l by by apply upd_inode_ok. done.
    + by exists kb.
    + constructor; [|by apply put_inode_at with (y := x)|].
      * constructor; try done. eapply claims_layout; [exact Hly|apply Ha].
      * eapply (file_ok_fill t x _ _ b (if decide (k = 12%nat) then 140 else Z.of_nat k)); try done; [apply Ha|..].
        -- case_decide; lia.
        -- case_decide; [by subst|]. unfold slot, addr.
           rewrite (proj2 (Z.eqb_neq _ 140)), (proj2 (Z.ltb_lt _ 12)), Nat2Z.id by lia. done.
        -- simpl. by rewrite length_insert.
        -- by apply slot_set_iaddr.
    + by apply alloc_grows.
    + by apply alloc_grows.
    + intros ->. destruct Ha as [[_ Ha _ _ _ _ _] _ _ _ _]. congruence.
    + apply Ha.
    + apply Ha.
    + unfold space. rewrite (claims_nfree b t _ (al_claims _ _ _ Ha)). unfold ind at 2. simpl. rewrite nth_insert by lia.
      assert (b ≠ 0) by (destruct Ha as [[_ Ha _ _ _ _ _] _ _ _ _]; congruence).
      destruct (decide (k = 12%nat)) as [->|Hk12].
      * rewrite decide_True by done. unfold ind. rewrite H0, (proj2 (Z.eqb_neq b 0)) by done. simpl. lia.
      * rewrite decide_False by lia. fold (ind x). lia.
  - left. exists x, t, s. split_and!; try done; [|apply grows_refl|lia|auto|lia].
    exists (blocks s). replace (set_blocks (blocks s) s) with s by by destruct s. by rewrite put_inode_id.
Qed.
End Bitmap.
End FsOk.

(** ** A file system as [mkfs] lays it out

    1000 blocks, the bitmap in block 58, and blocks 0 to 58 in use. *)

Definition demo_sb : superblock := Superblock 1000 941 200 30 2 32 58.
Definition demo_disk (n : Z) : blk :=
  if n =? 58 then replicate 7 255 ++ [7] ++ replicate 504 0 else replicate 512 0.
Definition demo_tx : txn := Txn demo_disk [] [] 1000 29.
Definition demo_fs (l : list inode) : fsys lst :=
  Fsys (Lst (Log 2 30 1 false 1 []) (fresh demo_disk 1000 1)) demo_sb l 1 0.

Lemma demo_lay l : lay (blocks (demo_fs l)) demo_tx.
Proof.
  constructor; simpl.
  - apply fresh_inv.
  - apply NoDup_nil_2.
  - intros h n Hin. by apply elem_of_nil in Hin.
  - intros n _. apply fresh_content.
  - done.
  - apply NoDup_nil_2.
  - intros n. split; [intros H; by apply fresh_clean in H|intros H; by apply elem_of_nil in H].
  - done.
  - done.
  - intros n _. unfold demo_disk. by destruct (n =? 58).
  - done.
  - done.
  - done.
Qed.
Lemma demo_bm b : 0 ≤ b < 1000 → bm demo_sb b = 58.
Proof. intros Hb. unfold bm. rewrite Z.div_small by lia. done. Qed.
Lemma demo_layout : layout demo_sb demo_tx.
Proof.
  constructor; try done.
  - intros n (x & Hx & ->). rewrite demo_bm by done. by vm_compute.
  - intros n Hin. by apply elem_of_nil in Hin.
Qed.
Lemma demo_ok l : fs_ok demo_sb (demo_fs l) demo_tx.
Proof. constructor; [apply demo_lay|done|apply demo_layout]. Qed.

Lemma balloc_allocates_witness :
  ∃ k t', balloc 1 (demo_fs []) = Ok (59, set_blocks k (demo_fs [])) ∧ allocated demo_sb 59 demo_tx t'.
Proof.
  destruct (balloc_allocates demo_sb (demo_fs []) demo_tx (demo_ok [])) as [(x & k & t' & H & _ & Ha & Hb)|[Hall _]].
  - simpl. lia.
  - simpl. lia.
  - assert (x = 59) as ->; [|exact (ex_intro _ k (ex_intro _ t' (conj H Ha)))].
    destruct (Z.lt_trichotomy x 59) as [Hlt|[He|Hgt]]; [exfalso|done|exfalso].
    + destruct Ha as [[Hr Hf _ _ _ _ _] _ _ _ _]. revert Hf. simpl in Hr.
      assert (Hc : forallb (λ n, used demo_sb demo_tx (Z.of_nat n)) (seq 0 59) = true) by by vm_compute.
      rewrite forallb_forall in Hc. specialize (Hc (Z.to_nat x)). rewrite Z2Nat.id in Hc by lia.
      rewrite Hc; [done|]. apply in_seq. lia.
    + specialize (Hb 59 ltac:(lia)). by vm_compute in Hb.
  - exfalso. specialize (Hall 59 ltac:(simpl; lia)). by vm_compute in Hall.
Defined.
Lemma bfree_frees_witness :
  (∃ k t', bfree 1 30 (demo_fs []) = Ok (tt, set_blocks k (demo_fs [])) ∧ used demo_sb t' 30 = false) ∧
  bfree 1 59 (demo_fs []) = Panic "freeing free block".
Proof.
  split.
  - destruct (bfree_frees demo_sb (demo_fs []) demo_tx 30 (demo_ok [])) as (k & t' & H & _ & Hu & _); simpl; try lia.
    exists k, t'. split; [done|]. rewrite Hu by (simpl; lia). apply andb_false_r.
  - apply (bfree_frees demo_sb (demo_fs []) demo_tx 59 (demo_ok [])); simpl; lia.
Defined.
