(* ===== verification/FsData.v ===== *)
(** * Correctness of the file system: file contents

    [bmap], [readi] and [writei] against the abstract contents of a file, with
    the block layer as in [FsOk]. *)

From S2P Require Import Prelude Machine Str Spin Bio Log Fs Txn FsOk.
Local Open Scope Z_scope.

Section FsData.
Context {B : Type} `{!BlockLayer B} `{!LayerOk B}.
Variable sb : superblock.
Notation fs := (fsys B).
Notation bl := (on_lens blocks_l).
Notation used := (used sb).
Notation is_bm := (is_bm sb).
Notation layout := (layout sb).
Notation claims := (claims sb).
Notation allocated := (allocated sb).
Notation alloc_tx := (alloc_tx sb).
Notation fs_ok := (fs_ok sb).
Notation good := (good sb).
Notation file_ok := (file_ok sb).
Notation grows := (grows sb).
Notation open_file := (open_file sb).
Notation space := (space sb).
Notation nfree := (nfree sb).
Implicit Types (s : fs) (t : txn).

(** ** [bmap] *)

(** Entering a new block into the indirect block. *)
Lemma word_claims t x b d :
  layout t → file_ok t x → ind x ≠ 0 → allocated b t (alloc_tx b t) →
  claims b t (tx_write (ind x) d (alloc_tx b t)).
Proof.
  intros Hly [F1 F2 F3 F4 F5] Hi [[A1 A2 A3 A4 A7 A8 A9] _ _ _ _].
  assert (Hg : good t (ind x)) by (apply (F4 140); [lia|done]). destruct Hg as (_ & _ & Hnb & _).
  constructor; try done. intros y Hy. rewrite <- A4 by done. by apply used_write.
Qed.
Lemma slot_word t x b bn :
  layout t → file_ok t x → ind x ≠ 0 → allocated b t (alloc_tx b t) → 12 ≤ bn < 140 →
  length (tx_view t (ind x)) = 512%nat →
  ∀ j, 0 ≤ j ≤ 140 →
    slot (tx_write (ind x) (put_word (tx_view t (ind x)) (Z.to_nat (bn - 12)) b) (alloc_tx b t)) x j =
    if j =? bn then b else slot t x j.
Proof.
  intros Hly Hf Hi Ha Hbn Hlen j Hj. unfold slot, addr. pose proof (ly_max sb t Hly).
  destruct (Z.eqb_spec j 140) as [->|]; [by rewrite (proj2 (Z.eqb_neq 140 bn)) by lia|].
  destruct (Z.ltb_spec j 12); [by rewrite (proj2 (Z.eqb_neq j bn)) by lia|].
  rewrite (proj2 (Z.eqb_neq (ind x) 0) Hi). simpl. unfold put_view at 1. rewrite Z.eqb_refl.
  rewrite get_put_word by lia. destruct Ha as [[A1 _ _ _ _ _ _] _ _ _ _]. destruct (Z.eqb_spec j bn) as [->|].
  - rewrite decide_True by done. apply Z.mod_small. lia.
  - by rewrite decide_False by lia.
Qed.
Lemma word_grows t x b bn :
  let t' := tx_write (ind x) (put_word (tx_view t (ind x)) (Z.to_nat (bn - 12)) b) (alloc_tx b t) in
  layout t → file_ok t x → ind x ≠ 0 → allocated b t (alloc_tx b t) → 12 ≤ bn < 140 → addr t x bn = 0 →
  length (tx_view t (ind x)) = 512%nat →
  file_ok t' x ∧ grows t x t' x ∧ same_data t x t' x ∧ addr t' x bn = b.
Proof.
  intros t' Hly Hf Hi Ha Hbn H0 Hlen. pose proof (word_claims t x b (put_word (tx_view t (ind x)) (Z.to_nat (bn - 12)) b) Hly Hf Hi Ha) as Hc.
  pose proof (slot_word t x b bn Hly Hf Hi Ha Hbn Hlen) as Hs. fold t' in Hc, Hs.
  pose proof Ha as [_ A5 A6 _ _]. pose proof Hc as [A1 A2 A3 A4 A7 A8 A9].
  assert (Hsl : ∀ u, slot u x bn = addr u x bn) by (intros; unfold slot; by rewrite (proj2 (Z.eqb_neq bn 140)) by lia).
  assert (Hg : good t (ind x)) by (apply (fk_good sb t x Hf 140); [lia|done]).
  assert (Hbi : b ≠ ind x) by (intros ->; destruct Hg as (_ & Hu & _); congruence).
  assert (Hfill : ∀ bn, 0 ≤ bn < 140 →
    (addr t x bn ≠ 0 → addr t' x bn = addr t x bn) ∧ fblock t' x bn = fblock t x bn).
  { apply (fill_blocks sb t x t' x b bn); try done; [by rewrite Hsl| |].
    - simpl. unfold put_view at 1. rewrite (proj2 (Z.eqb_neq b (ind x)) Hbi). done.
    - intros n Hn Hni. simpl. unfold put_view at 1. rewrite (proj2 (Z.eqb_neq n (ind x)) Hni).
      destruct (good_alloc sb b t _ n Hly Hc Hn). apply A6; [done|apply Hn]. }
  split_and!.
  - eapply (file_ok_fill sb t x t' x b bn); try done; [lia|by rewrite Hsl|apply Hf].
  - constructor; try done; [by destruct x|..].
    + intros j Hj. rewrite Hs by done. destruct (Z.eqb_spec j bn) as [->|]; [right|by left].
      split_and!; [by rewrite Hsl|lia|lia|done].
    + intros n Hn Hu. by rewrite A4, Hu.
    + intros n Hn Hu Hnb Hni. simpl. unfold put_view at 1.
      rewrite (proj2 (Z.eqb_neq n (ind x))) by (specialize (Hni 140 ltac:(lia)); intros ->; done).
      apply A6; [congruence|done].
  - intros n Hn. by apply Hfill.
  - rewrite <- Hsl, Hs, Z.eqb_refl by lia. done.
Qed.

(** The rest of [bmap] once the indirect block is there. *)
Definition bmap_indirect (ip : nat) (a bn : Z) : M fs Z :=
  x ← the_inode ip;
  bp ← bl (bl_bread (i_dev x) a);
  d ← bl (bl_data bp);
  let a := get_word d (Z.to_nat (bn - 12)) in
  a ← (if a =? 0 then
         b ← balloc (i_dev x);
         log_change bp (λ d, put_word d (Z.to_nat (bn - 12)) b);;
         mret b
       else mret a);
  bl (bl_brelse bp);;
  mret a.
Lemma bmap_eq ip bn s : 0 ≤ bn < 140 →
  bmap ip bn s = if bn <? 12 then get_addr ip (Z.to_nat bn) s
                 else (a ← get_addr ip 12; bmap_indirect ip a bn) s.
Proof.
  intros Hbn. unfold bmap. change NDIRECT with 12. change NINDIRECT with 128.
  destruct (Z.ltb_spec bn 12); [done|]. by rewrite (proj2 (Z.ltb_lt (bn - 12) 128)) by lia.
Qed.

(** The outcome of [bmap]: the block's address, or a full disk. *)
Definition bmap_result t s ip x bn (k : nat) (r : res (Z * fs)) : Prop :=
  (∃ x' t' b, r = Ok (addr t' x' bn, put_inode ip x' (set_blocks b s)) ∧
     open_file (put_inode ip x' (set_blocks b s)) t' ip x' ∧ grows t x t' x' ∧ same_data t x t' x' ∧ addr t' x' bn ≠ 0 ∧
     (length (tx_log t') ≤ k + length (tx_log t))%nat ∧
     (∀ n, n ∈ tx_log t' → n ∈ tx_log t ∨ is_bm t n ∨ n = addr t' x' bn ∨ n = ind x' ∧ ind x' ≠ 0) ∧
     (space t x ≤ space t' x' + 1)%nat) ∨
  r = Panic "balloc: out of blocks" ∧ (space t x ≤ 1)%nat.

Lemma hold_fs_ok s t b h n : fs_ok s t → good t n → lay b (tx_hold h n t) → fs_ok (set_blocks b s) (tx_hold h n t).
Proof.
  intros [Hl Hsb [L1 L2 L3 L4 L5 L6]] (G1 & G2 & G3 & G4) Hh. constructor; try done. constructor; try done.
  intros m Hm. apply elem_of_cons in Hm as [->|Hm]; [done|by apply L6].
Qed.

Lemma bmap_indirect_ok s t ip x bn : open_file s t ip x → ind x ≠ 0 → 12 ≤ bn < 140 →
  (length (tx_log t) + 3 ≤ tx_cap t)%nat → (length (tx_log t) + length (tx_held t) + 4 ≤ 30)%nat →
  bmap_result t s ip x bn 3 (bmap_indirect ip (ind x) bn s).
Proof.
  intros [Hfs Hat Hf] Hi Hbn Hcap Hroom. pose proof Hfs as [Hl Hsb Hly]. pose proof Hf as [F1 F2 F3 F4 F5].
  assert (Hg : good t (ind x)) by (apply (F4 140); [lia|done]). pose proof Hg as (G1 & G2 & G3 & G4).
  assert (Hlen : length (tx_view t (ind x)) = 512%nat) by by eapply fo_len.
  assert (Haddr : addr t x bn = get_word (tx_view t (ind x)) (Z.to_nat (bn - 12))).
  { unfold addr. by rewrite (proj2 (Z.ltb_ge bn 12)), (proj2 (Z.eqb_neq _ 0) Hi) by lia. }
  unfold bmap_indirect. erewrite bind_Ok_l by by apply the_inode_ok. rewrite F1.
  destruct (bread_rule s t (ind x) Hl G1 G4 ltac:(lia)) as (h & b1 & H1 & Hnew & Hl1).
  erewrite bind_Ok_l by exact H1. erewrite bind_Ok_l by (apply data_rule with (n := ind x); [exact Hl1|left]).
  change (tx_view (tx_hold h (ind x) t)) with (tx_view t). rewrite <- Haddr.
  destruct (Z.eqb_spec (addr t x bn) 0) as [H0|Hn].
  - destruct (balloc_ok sb (set_blocks b1 s) (tx_hold h (ind x) t)) as [(b & k2 & _ & Hrun & Hlk & Ha)|[Hall Hp]];
      [by apply hold_fs_ok|simpl; lia..| |].
    2:{ right. split; [unfold mbind, M_bind; by rewrite Hp|]. unfold FsOk.space. rewrite (nfree_0 sb t Hall). case_match; lia. }
    assert (Hfree : 0 ≤ b < tx_size t ∧ used t b = false) by (destruct Ha as [[A1 A2 _ _ _ _ _] _ _ _ _]; done).
    assert (Ha' : allocated b t (alloc_tx b t)).
    { apply alloc_tx_allocated; try apply Hfree; [done|]. intros n. by eapply fo_len. }
    pose proof (al_log _ _ _ _ Ha') as Hlg.
    assert (Hv : tx_view (alloc_tx b t) (ind x) = tx_view t (ind x)).
    { apply (al_frame _ _ _ _ Ha'); [|done]. destruct Hfree. congruence. }
    destruct (change_rule (set_blocks k2 s) (tx_hold h (ind x) (alloc_tx b t)) h (ind x)
                (λ d, put_word d (Z.to_nat (bn - 12)) b)) as (k3 & H3 & Hl3); [done|left|simpl in *; lia| |].
    { change (tx_view (tx_hold h (ind x) (alloc_tx b t))) with (tx_view (alloc_tx b t)).
      by rewrite length_put_word, Hv. }
    change (tx_view (tx_hold h (ind x) (alloc_tx b t))) with (tx_view (alloc_tx b t)) in Hl3. rewrite Hv in Hl3.
    set (t' := tx_write (ind x) (put_word (tx_view t (ind x)) (Z.to_nat (bn - 12)) b) (alloc_tx b t)) in *.
    change (tx_write (ind x) _ (tx_hold h (ind x) (alloc_tx b t))) with (tx_hold h (ind x) t') in Hl3.
    destruct (brelse_rule (set_blocks k3 s) t' h (ind x) Hl3 Hnew) as (k4 & H4 & Hl4).
    destruct (word_grows t x b bn Hly Hf Hi Ha' Hbn H0 Hlen) as (Hf' & Hgr & Hsd & Had). fold t' in Hf', Hgr, Hsd, Had.
    left. exists x, t', k4. rewrite put_inode_id by done. split_and!; try done.
    + rewrite Had. erewrite bind_Ok_l; [erewrite bind_Ok_l by exact H4; done|].
      erewrite bind_Ok_l by exact Hrun. by erewrite bind_Ok_l by exact H3.
    + constructor; [|done|done]. constructor; try done.
      eapply claims_layout; [exact Hly|by apply word_claims].
    + rewrite Had. destruct Hfree. congruence.
    + simpl in *. pose proof (absorb_length (absorb (absorb (tx_log t) (bm sb b)) b) (ind x)). lia.
    + rewrite Had. intros n Hn. apply absorb_elem in Hn as [Hn| ->]; [|auto].
      destruct (al_logs _ _ _ _ Ha' n Hn) as [?|[?|?]]; auto.
    + pose proof (claims_nfree sb b t t' (word_claims t x b _ Hly Hf Hi Ha')). unfold FsOk.space. lia.
  - destruct (brelse_rule (set_blocks b1 s) t h (ind x) Hl1 Hnew) as (k2 & H2 & Hl2).
    left. exists x, t, k2. rewrite put_inode_id by done. split_and!; try done; try (unfold FsOk.space; lia); [|apply grows_refl|auto].
    erewrite bind_Ok_l by reflexivity. by erewrite bind_Ok_l by exact H2.
Qed.

Lemma bmap_ok s t ip x bn : open_file s t ip x → 0 ≤ bn < 140 →
  (length (tx_log t) + 5 ≤ tx_cap t)%nat → (length (tx_log t) + length (tx_held t) + 6 ≤ 30)%nat →
  bmap_result t s ip x bn 5 (bmap ip bn s).
Proof.
  intros Hof Hbn Hcap Hroom. rewrite bmap_eq by done. destruct (Z.ltb_spec bn 12).
  - destruct (get_addr_ok sb s t ip x (Z.to_nat bn) Hof) as [(x' & t' & s' & H1 & (b & ->) & Hof' & Hg & Hsd & Hn & Hlog & Hlogs & Hsp)|(Hp & H0 & _)];
      try lia; [left|right; split; [done|]; unfold FsOk.space; rewrite H0; case_match; lia].
    exists x', t', b. assert (Ha : addr t' x' bn = nth (Z.to_nat bn) (i_addrs x') 0).
    { unfold addr. by rewrite (proj2 (Z.ltb_lt bn 12)). }
    rewrite decide_False in Hsp by lia. rewrite Ha. split_and!; try done; [lia|]. intros n Hn'. destruct (Hlogs n Hn') as [?|[?|?]]; auto.
  - destruct (get_addr_ok sb s t ip x 12 Hof) as [(x1 & t1 & s1 & H1 & (b & ->) & Hof1 & Hg & Hsd & Hn & Hlog & Hlogs & Hsp)|(Hp & H0 & Hi0)]; try lia.
    2:{ right. split; [unfold mbind, M_bind; by rewrite Hp|]. unfold FsOk.space, ind. rewrite H0, Hi0. simpl. lia. }
    erewrite bind_Ok_l by exact H1. rewrite decide_True in Hsp by done. pose proof Hg as [_ _ _ _ Hh _ Hc].
    destruct (bmap_indirect_ok _ t1 ip x1 bn Hof1) as [(x2 & t2 & b2 & H2 & Hof2 & Hg2 & Hsd2 & Hn2 & Hlog2 & Hlogs2 & Hsp2)|[Hp Hsp2]]; try done; try lia.
    { rewrite Hh. lia. }
    + left. exists x2, t2, b2. destruct Hof as [[_ _ Hly] Hat Hf].
      rewrite <- (put_put_inode (set_blocks b2 s) ip x2 x1). split_and!; try done; [|by intros z Hz'; rewrite Hsd2, Hsd|lia| |lia].
      { eapply grows_trans; [apply Hf|done|done]. }
      intros n Hin. destruct (Hlogs2 n Hin) as [Hin1|[(z & Hz & ->)|[?|?]]]; auto.
      * destruct (Hlogs n Hin1) as [?|[->|?]]; auto. right; right; right.
        assert (He : ind x2 = ind x1) by (apply (grows_slot sb t1 x1 t2 x2 140 Hg2); [lia|done]). by rewrite He.
      * right; left. exists z. split; [|done]. by rewrite (gw_size _ _ _ _ _ Hg) in Hz.
    + right. split; [done|]. lia.
Qed.

(** ** The contents of a file *)

Definition fbyte t (x : inode) (o : Z) : Z := nth (Z.to_nat (o mod 512)) (fblock t x (o / 512)) 0.
Definition fbytes t (x : inode) (off n : Z) : list Z := fbyte t x <$> seqZ off n.
(** Every block below the size is there. *)
Definition no_holes t (x : inode) : Prop := ∀ bn, 0 ≤ bn → bn * 512 < i_size x → addr t x bn ≠ 0.

Lemma fbytes_app t x off n m : 0 ≤ n → 0 ≤ m → fbytes t x off (n + m) = fbytes t x off n ++ fbytes t x (off + n) m.
Proof. intros Hn Hm. unfold fbytes. by rewrite seqZ_app, fmap_app. Qed.
(** A piece within one block. *)
Lemma fbytes_block t x off m : 0 ≤ off → 0 ≤ m ≤ 512 - off mod 512 → length (fblock t x (off / 512)) = 512%nat →
  fbytes t x off m = take (Z.to_nat m) (drop (Z.to_nat (off mod 512)) (fblock t x (off / 512))).
Proof.
  intros Hoff Hm Hlen. apply list_eq. intros i. unfold fbytes. rewrite list_lookup_fmap, lookup_take.
  pose proof (Z.mod_pos_bound off 512). case_decide as Hi.
  - rewrite lookup_seqZ_lt, lookup_drop by lia. simpl. unfold fbyte.
    assert (He : (off + Z.of_nat i) / 512 = off / 512) by (Z.div_mod_to_equations; lia).
    assert (Hr : Z.to_nat ((off + Z.of_nat i) mod 512) = (Z.to_nat (off mod 512) + i)%nat) by (Z.div_mod_to_equations; lia).
    rewrite He, Hr. rewrite nth_lookup. destruct (lookup_lt_is_Some_2 (fblock t x (off / 512)) (Z.to_nat (off mod 512) + i)%nat) as [z Hz]; [lia|].
    by rewrite Hz.
  - by rewrite lookup_seqZ_ge by lia.
Qed.

(** A block that is there: [bmap] changes nothing. *)
Lemma bmap_hit s t ip x bn : open_file s t ip x → 0 ≤ bn < 140 → addr t x bn ≠ 0 →
  (length (tx_log t) + length (tx_held t) < 30)%nat →
  ∃ b, bmap ip bn s = Ok (addr t x bn, set_blocks b s) ∧ lay b t.
Proof.
  intros [Hfs Hat Hf] Hbn Hn Hroom. rewrite bmap_eq by done. pose proof Hfs as [Hl Hsb Hly]. pose proof Hf as [F1 F2 F3 F4 F5].
  unfold addr in *. destruct (Z.ltb_spec bn 12).
  - exists (blocks s). split; [|done]. unfold get_addr. erewrite bind_Ok_l by by apply the_inode_ok.
    rewrite (proj2 (Z.eqb_neq _ 0) Hn). by destruct s.
  - destruct (Z.eqb_spec (ind x) 0) as [|Hi]; [done|].
    assert (Hg : good t (ind x)) by (apply (F4 140); [lia|done]). destruct Hg as (G1 & _ & _ & G4).
    erewrite bind_Ok_l.
    2:{ unfold get_addr. erewrite bind_Ok_l by by apply the_inode_ok. by rewrite (proj2 (Z.eqb_neq (nth 12 (i_addrs x) 0) 0) Hi). }
    unfold bmap_indirect. erewrite bind_Ok_l by by apply the_inode_ok. rewrite F1.
    destruct (bread_rule s t (ind x) Hl G1 G4 Hroom) as (h & b1 & H1 & Hnew & Hl1).
    change (nth 12 (i_addrs x) 0) with (ind x).
    erewrite bind_Ok_l by exact H1. erewrite bind_Ok_l by (apply data_rule with (n := ind x); [exact Hl1|left]).
    change (tx_view (tx_hold h (ind x) t)) with (tx_view t). rewrite (proj2 (Z.eqb_neq _ 0) Hn).
    destruct (brelse_rule (set_blocks b1 s) t h (ind x) Hl1 Hnew) as (k2 & H2 & Hl2).
    exists k2. split; [|done]. erewrite bind_Ok_l by reflexivity. by erewrite bind_Ok_l by exact H2.
Qed.
Lemma open_blocks s t ip x b : open_file s t ip x → lay b t → open_file (set_blocks b s) t ip x.
Proof. intros [[Hl Hsb Hly] Hat Hf] Hb. constructor; [by constructor|done|done]. Qed.
Lemma addr_good t x bn : file_ok t x → 0 ≤ bn < 140 → addr t x bn ≠ 0 → good t (addr t x bn).
Proof.
  intros Hf Hbn Hn. assert (He : slot t x bn = addr t x bn) by (unfold slot; by rewrite (proj2 (Z.eqb_neq bn 140)) by lia).
  rewrite <- He. apply (fk_good sb t x Hf); [lia|by rewrite He].
Qed.
Lemma length_fblock s t ip x bn : open_file s t ip x → 0 ≤ bn < 140 → length (fblock t x bn) = 512%nat.
Proof.
  intros [Hfs Hat Hf] Hbn. unfold fblock. destruct (Z.eqb_spec (addr t x bn) 0); [done|].
  eapply fo_len; [done|]. by apply addr_good.
Qed.

(** ** [readi] *)

Lemma readi_loop_S k ip tot n off s : tot < n →
  readi_loop (S k) ip tot n off s =
    (x ← the_inode ip;
     b ← bmap ip (off / 512);
     bp ← bl (bl_bread (i_dev x) b);
     d ← bl (bl_data bp);
     bl (bl_brelse bp);;
     rest ← readi_loop k ip (tot + Z.min (n - tot) (512 - off mod 512)) n (off + Z.min (n - tot) (512 - off mod 512));
     mret (take (Z.to_nat (Z.min (n - tot) (512 - off mod 512))) (drop (Z.to_nat (off mod 512)) d) ++ rest)) s.
Proof. intros Hlt. cbn [readi_loop]. by rewrite (proj2 (Z.ltb_lt tot n) Hlt). Qed.

Lemma readi_loop_ok t ip x n k : ∀ s tot off, open_file s t ip x → 0 ≤ off → 0 ≤ tot ≤ n →
  off + (n - tot) ≤ 140 * 512 → (∀ bn, off / 512 ≤ bn → bn * 512 < off + (n - tot) → addr t x bn ≠ 0) →
  (length (tx_log t) + length (tx_held t) < 30)%nat → (tot < n → off mod 512 + (n - tot) ≤ 512 * Z.of_nat k) →
  ∃ b, readi_loop k ip tot n off s = Ok (fbytes t x off (n - tot), set_blocks b s) ∧ lay b t.
Proof.
  induction k as [|k IH]; intros s tot off Hof Hoff Htot Hmax Hhole Hroom Hfuel;
    pose proof (Z.mod_pos_bound off 512 ltac:(lia)) as Hmod.
  - assert (tot = n) as -> by lia. exists (blocks s). split; [|apply Hof]. cbn [readi_loop].
    rewrite (proj2 (Z.ltb_ge n n)), Z.sub_diag by lia. by destruct s.
  - destruct (decide (tot < n)) as [Hlt|Hge].
    2:{ assert (tot = n) as -> by lia. exists (blocks s). split; [|apply Hof]. cbn [readi_loop].
        rewrite (proj2 (Z.ltb_ge n n)), Z.sub_diag by lia. by destruct s. }
    rewrite readi_loop_S by done. set (m := Z.min (n - tot) (512 - off mod 512)).
    assert (Hm : 0 < m ≤ n - tot ∧ m ≤ 512 - off mod 512) by lia.
    assert (Hbn : 0 ≤ off / 512 < 140) by (Z.div_mod_to_equations; lia).
    assert (Hn : addr t x (off / 512) ≠ 0) by (apply Hhole; Z.div_mod_to_equations; lia).
    erewrite bind_Ok_l by (apply the_inode_ok, Hof).
    destruct (bmap_hit s t ip x (off / 512) Hof Hbn Hn Hroom) as (b1 & H1 & Hl1). erewrite bind_Ok_l by exact H1.
    pose proof (open_blocks _ _ _ _ _ Hof Hl1) as Hof1. rewrite (fk_dev sb t x (of_ok _ _ _ _ _ Hof)).
    destruct (addr_good t x _ (of_ok _ _ _ _ _ Hof) Hbn Hn) as (G1 & _ & _ & G4).
    destruct (bread_rule (set_blocks b1 s) t _ Hl1 G1 G4 Hroom) as (h & b2 & H2 & Hnew & Hl2).
    erewrite bind_Ok_l by exact H2. erewrite bind_Ok_l by (eapply data_rule; [exact Hl2|left]).
    destruct (brelse_rule (set_blocks b2 s) t h _ Hl2 Hnew) as (b3 & H3 & Hl3). erewrite bind_Ok_l by exact H3.
    destruct (IH (set_blocks b3 s) (tot + m) (off + m)) as (b4 & H4 & Hl4); try lia; try done.
    { by eapply open_blocks. }
    { intros bn Hb1 Hb2. apply Hhole; [|lia]. assert (off / 512 ≤ (off + m) / 512) by (apply Z.div_le_mono; lia). lia. }
    { intros Hlt'. assert (Hm' : m = 512 - off mod 512) by lia. specialize (Hfuel Hlt).
      assert (Hz : (off + m) mod 512 = 0) by (rewrite Hm'; clear; Z.div_mod_to_equations; lia). lia. }
    exists b4. split; [|done]. erewrite bind_Ok_l by exact H4. unfold mret, M_ret. f_equal. f_equal.
    replace (n - tot) with (m + (n - (tot + m))) by lia. rewrite fbytes_app by lia. f_equal.
    rewrite fbytes_block; [|lia|lia|by eapply length_fblock]. do 2 f_equal.
    unfold fblock. by rewrite (proj2 (Z.eqb_neq _ 0) Hn).
Qed.

Lemma wrap_sum_lt off n : 0 ≤ off < 2^32 → 0 ≤ n < 2^32 → (wrap32 (off + n) <? off) = (2^32 <=? off + n).
Proof.
  intros Ho Hn. unfold wrap32. destruct (Z.leb_spec (2^32) (off + n)) as [H|H].
  - apply Z.ltb_lt. rewrite <- (Z.mod_add _ (-1)), Z.mod_small by lia. lia.
  - apply Z.ltb_ge. rewrite Z.mod_small by lia. lia.
Qed.
Lemma readi_ok devsw_read s t ip x off n :
  open_file s t ip x → i_type x ≠ T_DEV → 0 ≤ i_size x ≤ 140 * 512 → no_holes t x →
  0 ≤ off < 2^32 → 0 ≤ n < 2^32 → (length (tx_log t) + length (tx_held t) < 30)%nat →
  if (i_size x <? off) || (2^32 <=? off + n) then readi devsw_read ip off n s = Ok ((-1, []), s)
  else let m := Z.min n (i_size x - off) in
    ∃ b, readi devsw_read ip off n s = Ok ((m, fbytes t x off m), set_blocks b s) ∧ lay b t.
Proof.
  intros Hof Hty Hsz Hh Ho Hn Hroom. unfold readi. erewrite !bind_Ok_l by (apply the_inode_ok, Hof).
  rewrite (proj2 (Z.eqb_neq _ _) Hty), wrap_sum_lt by done.
  destruct (Z.ltb_spec (i_size x) off) as [|Hle]; [done|]. destruct (Z.leb_spec (2^32) (off + n)) as [|Hw]; [done|].
  simpl. unfold wrap32. rewrite Z.mod_small by lia.
  set (m := Z.min n (i_size x - off)).
  assert (Hm : (if i_size x <? off + n then i_size x - off else n) = m) by (destruct (Z.ltb_spec (i_size x) (off + n)); lia).
  rewrite Hm. change BSIZE with 512. pose proof (Z.mod_pos_bound off 512).
  destruct (readi_loop_ok t ip x m (Z.to_nat (m / 512 + 2)) s 0 off Hof) as (b & Hb & Hl); try done; try lia.
  - intros bn H1 H2. apply Hh; [|lia]. pose proof (Z.div_pos off 512). lia.
  - intros _. Z.div_mod_to_equations. lia.
  - exists b. rewrite Z.sub_0_r in Hb. split; [|done]. erewrite bind_Ok_l by exact Hb. unfold mret, M_ret.
    by rewrite sint32_id by (unfold is_i32; lia).
Qed.

(** ** [writei] *)

Lemma layout_write t n d : layout t → ¬ is_bm t n → layout (tx_write n d t).
Proof.
  intros [L1 L2 L3 L4 L5 L6] Hn. constructor; try done.
  - intros m (z & Hz & ->). rewrite used_write; [|apply (bm_range sb t); [by constructor|done]|done].
    apply L5. by exists z.
  - intros m Hm. destruct (L6 m Hm) as (H1 & H2 & H3). split; [by rewrite used_write|done].
Qed.
Lemma slot_write t x n d j : n ≠ ind x → slot (tx_write n d t) x j = slot t x j.
Proof.
  intros Hn. unfold slot, addr. simpl. unfold put_view. by rewrite (proj2 (Z.eqb_neq (ind x) n)) by congruence.
Qed.
Lemma good_write t n d m : ¬ is_bm t n → good t m → good (tx_write n d t) m.
Proof. intros Hn (H1 & H2 & H3 & H4). split; [done|]. split; [by rewrite used_write|done]. Qed.
Lemma file_ok_write t x n d : layout t → file_ok t x → ¬ is_bm t n → n ≠ ind x → file_ok (tx_write n d t) x.
Proof.
  intros Hly [F1 F2 F3 F4 F5] Hn Hi. constructor; try done.
  - rewrite used_write; [done| |done]. pose proof (ly_max sb t Hly). lia.
  - intros j Hj. rewrite slot_write by done. intros Hs. apply good_write; auto.
  - intros i j Hi' Hj. rewrite !slot_write by done. by apply F5.
Qed.

(** Writing one data block of the file. *)
Lemma addr_ne_ind t x bn : file_ok t x → 0 ≤ bn < 140 → addr t x bn ≠ 0 → addr t x bn ≠ ind x.
Proof.
  intros Hf Hbn Hn He. assert (bn = 140); [|lia].
  apply (fk_inj sb t x Hf); [lia|lia| |]; rewrite slot_addr by done; done.
Qed.
Lemma write_block t x bn d : layout t → file_ok t x → 0 ≤ bn < 140 → addr t x bn ≠ 0 →
  grows t x (tx_write (addr t x bn) d t) x ∧
  ∀ b, 0 ≤ b < 140 → fblock (tx_write (addr t x bn) d t) x b = if b =? bn then d else fblock t x b.
Proof.
  intros Hly Hf Hbn Hn. destruct (addr_good t x bn Hf Hbn Hn) as (G1 & G2 & G3 & G4).
  pose proof (addr_ne_ind t x bn Hf Hbn Hn) as Hi. split.
  - constructor; try done; [by destruct x|..].
    + intros j Hj. left. by rewrite slot_write.
    + intros n Hr Hu. by rewrite used_write.
    + intros n Hr Hu Hnb Hs. simpl. unfold put_view. rewrite (proj2 (Z.eqb_neq n _)); [done|].
      specialize (Hs bn ltac:(lia)). rewrite slot_addr in Hs by done. congruence.
  - intros b Hb. unfold fblock. rewrite <- !(slot_addr _ _ b), slot_write, !slot_addr by done. simpl. unfold put_view.
    destruct (Z.eqb_spec b bn) as [->|Hne].
    + by rewrite (proj2 (Z.eqb_neq _ 0) Hn), Z.eqb_refl.
    + destruct (Z.eqb_spec (addr t x b) 0); [done|]. rewrite (proj2 (Z.eqb_neq _ _)); [done|].
      intros He. apply Hne. apply (fk_inj sb t x Hf); [lia|lia|..]; rewrite !slot_addr by done; done.
Qed.

(** The contents after [src] was written at [off]. *)
Definition spliced t x (off : Z) (src : list Z) t' x' : Prop := ∀ o, 0 ≤ o < 140 * 512 →
  fbyte t' x' o = if (off <=? o) && (o <? off + Z.of_nat (length src)) then nth (Z.to_nat (o - off)) src 0
                  else fbyte t x o.
Lemma spliced_trans t x off src m t1 x1 t2 x2 : (m ≤ length src)%nat →
  spliced t x off (take m src) t1 x1 → spliced t1 x1 (off + Z.of_nat m) (drop m src) t2 x2 →
  spliced t x off src t2 x2.
Proof.
  intros Hm H1 H2 o Ho. rewrite H2, H1 by done. rewrite length_take, length_drop, Nat.min_l by done.
  rewrite !nth_lookup, lookup_drop, lookup_take.
  destruct (Z.leb_spec off o), (Z.ltb_spec o (off + Z.of_nat m)), (Z.leb_spec (off + Z.of_nat m) o),
    (Z.ltb_spec o (off + Z.of_nat m + Z.of_nat (length src - m))), (Z.ltb_spec o (off + Z.of_nat (length src)));
    simpl; try lia; try done.
  - rewrite decide_True by lia. done.
  - replace (m + Z.to_nat (o - (off + Z.of_nat m)))%nat with (Z.to_nat (o - off)) by lia. done.
Qed.
Lemma spliced_same t x t1 x1 off src t2 x2 :
  same_data t x t1 x1 → spliced t1 x1 off src t2 x2 → spliced t x off src t2 x2.
Proof.
  intros Hs H o Ho. rewrite H by done. case_match; [done|]. unfold fbyte. rewrite Hs; [done|].
  Z.div_mod_to_equations. lia.
Qed.
Lemma nth_splice (d src : list Z) (o p : nat) : (o + length src ≤ length d)%nat → (p < length d)%nat →
  nth p (take o d ++ src ++ drop (o + length src) d) 0 =
  if decide (o ≤ p < o + length src)%nat then nth (p - o) src 0 else nth p d 0.
Proof.
  intros Ho Hp. rewrite !nth_lookup. destruct (decide (p < o)%nat) as [H|H].
  - rewrite decide_False by lia. rewrite lookup_app_l by (rewrite length_take; lia). rewrite lookup_take. by rewrite decide_True.
  - rewrite lookup_app_r by (rewrite length_take; lia). rewrite length_take, Nat.min_l by lia.
    destruct (decide (p < o + length src)%nat) as [H'|H'].
    + rewrite decide_True by lia. by rewrite lookup_app_l by lia.
    + rewrite decide_False by lia. rewrite lookup_app_r by lia. rewrite lookup_drop. do 2 f_equal. lia.
Qed.
Lemma write_spliced t x bn d off src : 0 ≤ off → bn = off / 512 → bn < 140 → length d = 512%nat → fblock t x bn = d →
  off mod 512 + Z.of_nat (length src) ≤ 512 →
  ∀ t', (∀ b, 0 ≤ b < 140 → fblock t' x b = if b =? bn
     then take (Z.to_nat (off mod 512)) d ++ src ++ drop (Z.to_nat (off mod 512) + length src) d else fblock t x b) →
  spliced t x off src t' x.
Proof.
  intros Hoff -> Hbn Hlen Hd Hfit t' Hf o Ho. unfold fbyte. rewrite Hf by (Z.div_mod_to_equations; lia).
  pose proof (Z.mod_pos_bound off 512). pose proof (Z.mod_pos_bound o 512).
  destruct (Z.eqb_spec (o / 512) (off / 512)) as [He|Hne].
  - rewrite nth_splice by lia. rewrite He, Hd.
    assert (Hd1 : o - off = o mod 512 - off mod 512) by (Z.div_mod_to_equations; lia).
    destruct (decide _) as [Hin|Hout].
    + rewrite (proj2 (Z.leb_le off o)), (proj2 (Z.ltb_lt o _)) by lia. simpl. f_equal. lia.
    + destruct (Z.leb_spec off o), (Z.ltb_spec o (off + Z.of_nat (length src))); simpl; try done. lia.
  - destruct (Z.leb_spec off o), (Z.ltb_spec o (off + Z.of_nat (length src))); simpl; try done.
    exfalso. apply Hne. Z.div_mod_to_equations. lia.
Qed.

(** The blocks in the log: those of [L], the bitmap block and the indirect
    block.  The disk has at most 4096 blocks, so there is one bitmap block. *)
Definition logged_in t x (L : list Z) : Prop := ∀ n, n ∈ tx_log t → n ∈ L ∨ is_bm t n ∨ n = ind x ∧ ind x ≠ 0.
Lemma one_bitmap t n : tx_size t ≤ 4096 → is_bm t n → n = bmapstart sb.
Proof. intros Hsz (z & Hz & ->). unfold bm. rewrite Z.div_small by lia. done. Qed.
Lemma log_bound b t x L : lay b t → tx_size t ≤ 4096 → logged_in t x L → (length (tx_log t) ≤ length L + 2)%nat.
Proof.
  intros Hl Hsz HL. assert (Hs : tx_log t ⊆+ bmapstart sb :: ind x :: L).
  { apply NoDup_submseteq; [by eapply lay_logdup|]. intros n Hn. destruct (HL n Hn) as [?|[Hb|[-> _]]].
    - by do 2 right. - rewrite (one_bitmap t n Hsz Hb). left. - right; left. }
  apply submseteq_length in Hs. simpl in Hs. lia.
Qed.

(** The number of blocks that [n] bytes at [off] touch. *)
Definition nblk (off n : Z) : Z := if n =? 0 then 0 else (off mod 512 + n + 511) / 512.

(** One round of [writei]. *)
Definition write_piece (ip : nat) (src : list Z) (off : Z) : M fs unit :=
  x ← the_inode ip;
  b ← bmap ip (off / 512);
  bp ← bl (bl_bread (i_dev x) b);
  log_change bp (λ d, take (Z.to_nat (off mod 512)) d ++ src ++ drop (Z.to_nat (off mod 512) + length src) d);;
  bl (bl_brelse bp).
Lemma write_piece_ok s t ip x src off L : open_file s t ip x → tx_size t ≤ 4096 → logged_in t x L →
  0 ≤ off < 140 * 512 → off mod 512 + Z.of_nat (length src) ≤ 512 →
  (length L + 7 ≤ tx_cap t)%nat → (length L + length (tx_held t) + 8 ≤ 30)%nat →
  (∃ x' t' b, write_piece ip src off s = Ok (tt, put_inode ip x' (set_blocks b s)) ∧
     open_file (put_inode ip x' (set_blocks b s)) t' ip x' ∧ grows t x t' x' ∧ spliced t x off src t' x' ∧
     addr t' x' (off / 512) ≠ 0 ∧ logged_in t' x' (addr t' x' (off / 512) :: L) ∧ (space t x ≤ space t' x' + 1)%nat) ∨
  write_piece ip src off s = Panic "balloc: out of blocks" ∧ (space t x ≤ 1)%nat.
Proof.
  intros Hof Hsz HL Hoff Hfit Hcap Hroom. unfold write_piece.
  pose proof (log_bound _ t x L (fo_lay _ _ _ (of_fs _ _ _ _ _ Hof)) Hsz HL) as Hlog.
  assert (Hbn : 0 ≤ off / 512 < 140) by (Z.div_mod_to_equations; lia).
  erewrite bind_Ok_l by (apply the_inode_ok, Hof). rewrite (fk_dev sb t x (of_ok _ _ _ _ _ Hof)).
  destruct (bmap_ok s t ip x (off / 512) Hof Hbn) as [(x1 & t1 & b1 & H1 & Hof1 & Hg1 & Hsd & Hn & _ & Hlogs & Hsp)|[Hp Hsp]]; [lia|lia| |].
  2:{ right. split; [unfold mbind, M_bind; by rewrite Hp|done]. }
  left. erewrite bind_Ok_l by exact H1. set (a := addr t1 x1 (off / 512)) in *.
  pose proof Hof1 as [Hfs1 Hat1 Hf1]. pose proof Hfs1 as [Hl1 Hsb1 Hly1].
  destruct (addr_good t1 x1 _ Hf1 Hbn Hn) as (G1 & G2 & G3 & G4). fold a in G1, G2, G3, G4.
  assert (HL1 : logged_in t1 x1 (a :: L)).
  { intros n Hin. destruct (Hlogs n Hin) as [Hin0|[(z & Hz & ->)|[->|?]]]; [| |left; left|auto].
    - destruct (HL n Hin0) as [?|[(z & Hz & ->)|[-> H0]]]; [left; by right|..].
      + right; left. exists z. by rewrite (gw_size _ _ _ _ _ Hg1).
      + right; right. assert (He : ind x1 = ind x) by (apply (grows_slot sb t x t1 x1 140 Hg1); [lia|done]). by rewrite He.
    - right; left. exists z. by rewrite (gw_size _ _ _ _ _ Hg1). }
  pose proof (log_bound _ t1 x1 _ Hl1 ltac:(by rewrite (gw_size _ _ _ _ _ Hg1)) HL1) as Hlog1. simpl in Hlog1.
  pose proof (gw_held _ _ _ _ _ Hg1) as Hh. pose proof (gw_cap _ _ _ _ _ Hg1) as Hc.
  assert (Hlen : length (fblock t1 x1 (off / 512)) = 512%nat) by by eapply length_fblock.
  assert (Hfb : fblock t1 x1 (off / 512) = tx_view t1 a) by (unfold fblock; fold a; by rewrite (proj2 (Z.eqb_neq _ 0) Hn)).
  destruct (edit_rule (put_inode ip x1 (set_blocks b1 s)) t1 a
    (λ d, take (Z.to_nat (off mod 512)) d ++ src ++ drop (Z.to_nat (off mod 512) + length src) d)) as (b2 & H2 & Hl2);
    try done; try (rewrite ?Hh, ?Hc; lia).
  { rewrite <- Hfb, !length_app, length_take, length_drop, Hlen. pose proof (Z.mod_pos_bound off 512). lia. }
  set (t2 := tx_write a _ t1) in *. destruct (write_block t1 x1 _ (take (Z.to_nat (off mod 512)) (tx_view t1 a) ++ src ++
    drop (Z.to_nat (off mod 512) + length src) (tx_view t1 a)) Hly1 Hf1 Hbn Hn) as (Hg2 & Hfb2). fold a t2 in Hg2, Hfb2.
  exists x1, t2, b2. assert (Ha : addr t2 x1 (off / 512) = a) by by apply (grows_addr sb t1 x1 t2 x1).
  split_and!.
  - exact H2.
  - constructor; [|by apply put_inode_at with (y := x); apply Hof|].
    + constructor; [done|apply Hof|by apply layout_write].
    + apply file_ok_write; try done. by apply addr_ne_ind.
  - eapply grows_trans; [apply (fk_boot sb t x), Hof|done|done].
  - eapply spliced_same; [done|]. rewrite <- Hfb in Hfb2.
    eapply write_spliced; [| |apply Hbn|exact Hlen|reflexivity|done|exact Hfb2]; [lia|done].
  - by rewrite Ha.
  - rewrite Ha. intros n Hin. unfold t2 in Hin. simpl in Hin. apply absorb_elem in Hin as [Hin| ->]; [|left; left].
    by apply HL1.
  - unfold FsOk.space in *. unfold t2. rewrite nfree_write by done. lia.
Qed.

Lemma writei_loop_S k ip src off s : src ≠ [] →
  let m := Nat.min (length src) (512 - Z.to_nat (off mod 512)) in
  writei_loop (S k) ip src off s =
    (write_piece ip (take m src) off;; writei_loop k ip (drop m src) (off + Z.of_nat m)) s.
Proof.
  intros Hne m. assert (Hm : length (take m src) = m) by (rewrite length_take; lia).
  unfold write_piece. rewrite Hm. destruct src as [|c src]; [done|]. cbn [writei_loop]. fold m. change BSIZE with 512.
  repeat (rewrite bind_assoc; apply bind_ext; intros ? ?). by apply bind_ext.
Qed.

Lemma nblk_step off n m : 0 ≤ off → 0 < n → m = Z.min n (512 - off mod 512) →
  0 ≤ nblk (off + m) (n - m) ∧ nblk (off + m) (n - m) + 1 = nblk off n.
Proof.
  intros Ho Hn ->. pose proof (Z.mod_pos_bound off 512 ltac:(lia)) as Hm. unfold nblk.
  rewrite (proj2 (Z.eqb_neq n 0)) by lia. destruct (Z.leb_spec n (512 - off mod 512)) as [H|H].
  - rewrite Z.min_l, Z.sub_diag by lia. simpl. split; [lia|].
    assert (1 = (off mod 512 + n + 511) / 512); [|lia]. apply (Z.div_unique_pos _ _ _ (off mod 512 + n - 1)); lia.
  - rewrite Z.min_r by lia. rewrite (proj2 (Z.eqb_neq _ 0)) by lia.
    assert (Hz : (off + (512 - off mod 512)) mod 512 = 0) by (clear; Z.div_mod_to_equations; lia). rewrite Hz.
    split; [apply Z.div_pos; lia|]. rewrite <- Z.div_add by lia. f_equal. lia.
Qed.

(** The outcome of writing [src] at [off]. *)
Definition write_result t s ip x off (src L : list Z) {A} (r : res (A * fs)) (v : A) : Prop :=
  (∃ x' t' b L', r = Ok (v, put_inode ip x' (set_blocks b s)) ∧
     open_file (put_inode ip x' (set_blocks b s)) t' ip x' ∧ grows t x t' x' ∧ spliced t x off src t' x' ∧
     (∀ bn, src ≠ [] → off / 512 ≤ bn → bn * 512 < off + Z.of_nat (length src) → addr t' x' bn ≠ 0) ∧
     logged_in t' x' L' ∧ Z.of_nat (length L') ≤ Z.of_nat (length L) + nblk off (Z.of_nat (length src))) ∨
  r = Panic "balloc: out of blocks" ∧ Z.of_nat (space t x) ≤ nblk off (Z.of_nat (length src)).

Lemma set_blocks_id s : set_blocks (blocks s) s = s.
Proof. by destruct s. Qed.
Lemma writei_loop_nil k s t ip x off L : open_file s t ip x → logged_in t x L →
  write_result t s ip x off [] L (writei_loop k ip [] off s) (off + 0).
Proof.
  intros Hof HL. left. exists x, t, (blocks s), L. rewrite set_blocks_id, put_inode_id by apply Hof. simpl.
  split_and!; try done; try lia.
  - rewrite Z.add_0_r. by destruct k.
  - apply grows_refl.
  - intros o Ho. simpl. destruct (Z.leb_spec off o), (Z.ltb_spec o (off + Z.of_nat 0)); simpl; try done; lia.
  - unfold nblk. simpl. lia.
Qed.
Lemma writei_loop_ok ip k : ∀ s t x src off L, open_file s t ip x → tx_size t ≤ 4096 → logged_in t x L →
  0 ≤ off → off + Z.of_nat (length src) ≤ 140 * 512 →
  (src ≠ [] → off mod 512 + Z.of_nat (length src) ≤ 512 * Z.of_nat k) →
  Z.of_nat (length L) + nblk off (Z.of_nat (length src)) + 6 ≤ Z.of_nat (tx_cap t) →
  Z.of_nat (length L + length (tx_held t)) + nblk off (Z.of_nat (length src)) + 7 ≤ 30 →
  write_result t s ip x off src L (writei_loop k ip src off s) (off + Z.of_nat (length src)).
Proof.
  induction k as [|k IH]; intros s t x src off L Hof Hsz HL Hoff Hmax Hfuel Hcap Hroom;
    pose proof (Z.mod_pos_bound off 512 ltac:(lia)) as Hmod.
  all: destruct (decide (src = [])) as [->|Hne].
  1,3: by apply writei_loop_nil.
  { specialize (Hfuel Hne). destruct src; simpl in *; [done|lia]. }
  specialize (Hfuel Hne). rewrite writei_loop_S by done.
  assert (Hlen : (0 < length src)%nat) by (destruct src; simpl; [done|lia]).
  set (m := Nat.min (length src) (512 - Z.to_nat (off mod 512))).
  assert (Hm : Z.of_nat m = Z.min (Z.of_nat (length src)) (512 - off mod 512)) by lia.
  assert (Htk : length (take m src) = m) by (rewrite length_take; lia).
  assert (Hdr : Z.of_nat (length (drop m src)) = Z.of_nat (length src) - Z.of_nat m) by (rewrite length_drop; lia).
  destruct (nblk_step off (Z.of_nat (length src)) (Z.of_nat m) Hoff ltac:(lia) Hm) as (Hn0 & Hn1).
  destruct (write_piece_ok s t ip x (take m src) off L Hof Hsz HL) as [(x1 & t1 & b1 & H1 & Hof1 & Hg1 & Hs1 & Ha1 & HL1 & Hsp1)|[Hp Hsp]];
    try lia.
  2:{ right. split; [unfold mbind, M_bind; by rewrite Hp|lia]. }
  erewrite bind_Ok_l by exact H1. pose proof (gw_size _ _ _ _ _ Hg1) as Hgs.
  pose proof (gw_cap _ _ _ _ _ Hg1) as Hgc. pose proof (gw_held _ _ _ _ _ Hg1) as Hgh.
  destruct (IH (put_inode ip x1 (set_blocks b1 s)) t1 x1 (drop m src) (off + Z.of_nat m) (addr t1 x1 (off / 512) :: L) Hof1)
    as [(x2 & t2 & b2 & L2 & H2 & Hof2 & Hg2 & Hs2 & Ha2 & HL2 & Hlen2)|[Hp Hsp2]];
    try (simpl; rewrite ?Hgs, ?Hgc, ?Hgh, ?Hdr; lia); try done.
  { intros Hne'. assert (Hm' : Z.of_nat m = 512 - off mod 512).
    { destruct (decide (m = length src)) as [He|]; [|lia]. rewrite He, drop_all in Hne'. done. }
    rewrite Hdr. assert (Hz : (off + Z.of_nat m) mod 512 = 0) by (rewrite Hm'; clear; Z.div_mod_to_equations; lia). lia. }
  { left. exists x2, t2, b2, L2. rewrite <- (put_put_inode (set_blocks b2 s) ip x2 x1). split_and!; try done.
    - rewrite H2. do 2 f_equal. lia.
    - eapply grows_trans; [apply (fk_boot sb t x), Hof|done|done].
    - eapply spliced_trans; [|exact Hs1|exact Hs2]. lia.
    - intros bn _ Hb1 Hb2. destruct (decide (bn = off / 512)) as [->|Hbn].
      + rewrite (grows_addr sb t1 x1 t2 x2); try done. Z.div_mod_to_equations; lia.
      + apply Ha2; [|clear IH Hfuel Hcap Hroom; Z.div_mod_to_equations; lia|lia]. intros He. rewrite He in Hdr. simpl in Hdr.
        clear IH Hfuel Hcap Hroom. Z.div_mod_to_equations; lia.
    - rewrite Hdr in Hlen2. simpl in Hlen2. lia. }
  right. split; [done|]. rewrite Hdr in Hsp2. lia.
Qed.

(** *** The inode on disk *)

Definition dinode_of (x : inode) : dinode :=
  Dinode (i_type x) (i_major x) (i_minor x) (i_nlink x) (i_size x) (i_addrs x).
Definition iblock (x : inode) : Z := IBLOCK (i_inum x) sb.
Lemma length_put_half d k v : length (put_half d k v) = length d.
Proof. unfold put_half. by rewrite !length_insert. Qed.
Lemma length_put_dinode d k x : length (put_dinode d k x) = length d.
Proof.
  unfold put_dinode. assert (H : ∀ l d, length (foldl (λ d i, put_word d (16 * k + 3 + i) (nth i (d_addrs x) 0)) d l) = length d).
  { induction l as [|i l IH]; intros e; simpl; [done|]. by rewrite IH, length_put_word. }
  by rewrite H, length_put_word, !length_put_half.
Qed.
Lemma iupdate_ok s t ip x : fs_ok s t → icache s !! ip = Some x → i_dev x = 1 → good t (iblock x) →
  (length (tx_log t) < tx_cap t)%nat → (length (tx_log t) + length (tx_held t) < 30)%nat →
  ∃ b, iupdate ip s = Ok (tt, set_blocks b s) ∧
    lay b (tx_write (iblock x) (put_dinode (tx_view t (iblock x)) (Z.to_nat (i_inum x mod 8)) (dinode_of x)) t).
Proof.
  intros Hfs Hat Hd (G1 & G2 & G3 & G4) Hcap Hroom. pose proof Hfs as [Hl Hsb Hly]. unfold iupdate.
  erewrite bind_Ok_l by by apply the_inode_ok. erewrite (bind_Ok_l (gets fsb)) by reflexivity. rewrite Hsb, Hd.
  apply (edit_rule s t (iblock x) (λ d, put_dinode d (Z.to_nat (i_inum x mod 8)) (dinode_of x))); try done.
  rewrite length_put_dinode. by eapply fo_len.
Qed.

(** A file that is not a device, as [writei] finds and leaves it. *)
Record rw_file s t ip x : Prop := {
  rw_open : open_file s t ip x;
  rw_type : i_type x ≠ T_DEV;
  rw_size : 0 ≤ i_size x ≤ 140 * 512;
  rw_holes : no_holes t x;
  rw_ib : good t (iblock x);
  rw_sep : ∀ j, 0 ≤ j ≤ 140 → slot t x j ≠ iblock x;
}.

(** Growing keeps what does not belong to the file. *)
Lemma grows_good t x t' x' n : layout t → grows t x t' x' → good t n → good t' n.
Proof.
  intros Hly [A1 A2 A3 A4 A5 A6 A7] (G1 & G2 & G3 & G4). unfold good. rewrite A5, A6. split_and!; try lia; try done.
  - by apply A3.
  - intros (z & Hz & ->). apply G3. exists z. by rewrite A6 in Hz.
Qed.
Lemma grows_sep t x t' x' n : grows t x t' x' → used t n = true → (∀ j, 0 ≤ j ≤ 140 → slot t x j ≠ n) →
  ∀ j, 0 ≤ j ≤ 140 → slot t' x' j ≠ n.
Proof. intros Hg Hu Hs j Hj. destruct (gw_slot _ _ _ _ _ Hg j Hj) as [->|(_ & _ & Hf)]; [by apply Hs|congruence]. Qed.
Lemma grows_holes t x t' x' : grows t x t' x' → i_size x ≤ 140 * 512 → no_holes t x →
  ∀ bn, 0 ≤ bn → bn * 512 < i_size x → addr t' x' bn ≠ 0.
Proof. intros Hg Hsz Hh bn Hb Hlt. rewrite (grows_addr sb t x t' x'); [by apply Hh|done|lia|by apply Hh]. Qed.
Lemma fblock_write t x n d bn : (∀ j, 0 ≤ j ≤ 140 → slot t x j ≠ n) → 0 ≤ bn < 140 →
  fblock (tx_write n d t) x bn = fblock t x bn.
Proof.
  intros Hs Hbn. assert (Hi : n ≠ ind x) by (specialize (Hs 140 ltac:(lia)); intros ->; done).
  unfold fblock. rewrite <- !slot_addr, slot_write by done. specialize (Hs bn ltac:(lia)).
  destruct (Z.eqb_spec (slot t x bn) 0); [done|]. simpl. unfold put_view. by rewrite (proj2 (Z.eqb_neq _ _) Hs).
Qed.

(** The outcome of [writei]. *)
Record written s t ip x off (src : list Z) (s' : fs) t' x' : Prop := {
  wr_rw : rw_file s' t' ip x';
  wr_data : spliced t x off src t' x';
  wr_size : i_size x' = Z.max (i_size x) (off + Z.of_nat (length src));
  wr_frame : ∀ n, 0 ≤ n < tx_size t → used t n = true → ¬ is_bm t n → n ≠ iblock x →
    (∀ j, 0 ≤ j ≤ 140 → slot t x j ≠ n) → tx_view t' n = tx_view t n;
  wr_used : ∀ n, 0 ≤ n < tx_size t → used t n = true → used t' n = true;
  wr_log : Z.of_nat (length (tx_log t')) ≤ Z.of_nat (length (tx_log t)) + nblk off (Z.of_nat (length src)) + 3;
  wr_held : tx_held t' = tx_held t;
  wr_meta : x' = set_isize (i_size x') (set_addrs (i_addrs x') x);
}.

(** The file after the loop, when its size need not change. *)
Lemma written_plain s t ip x off src s' t' x' L' :
  rw_file s t ip x → tx_size t ≤ 4096 → 0 ≤ off → off + Z.of_nat (length src) ≤ i_size x →
  open_file s' t' ip x' → grows t x t' x' → spliced t x off src t' x' → logged_in t' x' L' →
  Z.of_nat (length L') ≤ Z.of_nat (length (tx_log t)) + nblk off (Z.of_nat (length src)) →
  written s t ip x off src s' t' x'.
Proof.
  intros [Hof Hty Hsz Hh Hib Hsep] H4096 Hoff Hend Hof' Hg Hs HL HLn. pose proof (gw_meta _ _ _ _ _ Hg) as Hm.
  pose proof (f_equal i_size Hm) as Msize. pose proof (f_equal i_inum Hm) as Minum. pose proof (f_equal i_type Hm) as Mtype.
  simpl in Msize, Minum, Mtype. assert (Hib' : iblock x' = iblock x) by (unfold iblock; by rewrite Minum).
  pose proof (log_bound _ t' x' L' (fo_lay _ _ _ (of_fs _ _ _ _ _ Hof')) ltac:(by rewrite (gw_size _ _ _ _ _ Hg)) HL) as Hlog.
  constructor; try apply Hg; try done; try lia.
  - constructor; rewrite ?Msize, ?Mtype, ?Hib'; try done.
    + intros bn Hb. rewrite Msize. by eapply grows_holes; [done|lia|done|].
    + eapply grows_good; [apply (fo_layout sb s t), Hof|done|done].
    + eapply grows_sep; [done| |done]. apply Hib.
  - intros n Hn Hu Hnb _ Hns. by apply Hg.
  - rewrite Hm at 1. rewrite Msize. done.
Qed.

(** The file after the loop and the update of its size on disk. *)
Lemma written_update s t ip x off src s' t' x' L' b :
  let x'' := set_isize (off + Z.of_nat (length src)) x' in
  let t'' := tx_write (iblock x) (put_dinode (tx_view t' (iblock x)) (Z.to_nat (i_inum x mod 8)) (dinode_of x'')) t' in
  rw_file s t ip x → tx_size t ≤ 4096 → 0 ≤ off ≤ i_size x → i_size x < off + Z.of_nat (length src) ≤ 140 * 512 →
  open_file s' t' ip x' → grows t x t' x' → spliced t x off src t' x' →
  (∀ bn, src ≠ [] → off / 512 ≤ bn → bn * 512 < off + Z.of_nat (length src) → addr t' x' bn ≠ 0) → logged_in t' x' L' →
  Z.of_nat (length L') ≤ Z.of_nat (length (tx_log t)) + nblk off (Z.of_nat (length src)) →
  lay b t'' →
  written s t ip x off src (set_blocks b (put_inode ip x'' s')) t'' x''.
Proof.
  intros x'' t'' [Hof Hty Hsz Hh Hib Hsep] H4096 Hoff Hend Hof' Hg Hs Ha HL HLn Hb. pose proof (gw_meta _ _ _ _ _ Hg) as Hm.
  pose proof (f_equal i_inum Hm) as Minum. pose proof (f_equal i_type Hm) as Mtype.
  simpl in Minum, Mtype. assert (Hib' : iblock x'' = iblock x) by (unfold iblock; simpl; by rewrite Minum).
  pose proof (log_bound _ t' x' L' (fo_lay _ _ _ (of_fs _ _ _ _ _ Hof')) ltac:(by rewrite (gw_size _ _ _ _ _ Hg)) HL) as Hlog.
  pose proof (of_fs _ _ _ _ _ Hof') as [Hl' Hsb' Hly']. pose proof (of_ok _ _ _ _ _ Hof') as Hf'.
  pose proof (grows_good t x t' x' (iblock x) (fo_layout _ _ _ (of_fs _ _ _ _ _ Hof)) Hg Hib) as Hib1.
  assert (Hsep1 : ∀ j, 0 ≤ j ≤ 140 → slot t' x' j ≠ iblock x) by (eapply grows_sep; [done| |done]; apply Hib).
  assert (Hnb : ¬ is_bm t' (iblock x)) by apply Hib1.
  assert (Hni : iblock x ≠ ind x') by (specialize (Hsep1 140 ltac:(lia)); intros He; by apply Hsep1).
  assert (Hsl : ∀ j, slot t'' x'' j = slot t' x' j) by (intros j; exact (slot_write t' x' (iblock x) _ j Hni)).
  constructor.
  - constructor; rewrite ?Hib'; try done.
    + constructor; [|by apply put_inode_at with (y := x'); apply Hof'|].
      * constructor; [done|done|by apply layout_write].
      * pose proof (file_ok_write t' x' (iblock x) (put_dinode (tx_view t' (iblock x)) (Z.to_nat (i_inum x mod 8)) (dinode_of x''))
                      Hly' Hf' Hnb Hni) as [F1 F2 F3 F4 F5]. by constructor.
    + simpl. by rewrite Mtype.
    + simpl. lia.
    + intros bn Hb0 Hlt. simpl in Hlt. rewrite <- slot_addr, Hsl, slot_addr by lia.
      destruct (decide (off / 512 ≤ bn)) as [Hge|Hlt'].
      * apply Ha; try lia. intros ->. simpl in *. lia.
      * apply (grows_holes t x t' x' Hg ltac:(lia) Hh bn Hb0). Z.div_mod_to_equations; lia.
    + by apply good_write.
    + intros j Hj. rewrite Hsl. by apply Hsep1.
  - intros o Ho. rewrite <- Hs by done. unfold fbyte. f_equal.
    apply (fblock_write t' x'); [done|]. Z.div_mod_to_equations; lia.
  - simpl. lia.
  - intros n Hn Hu Hnbm Hni' Hns. simpl. unfold put_view. rewrite (proj2 (Z.eqb_neq n (iblock x)) Hni'). by apply Hg.
  - intros n Hn Hu. unfold t''. rewrite used_write; [by apply Hg|by rewrite (gw_size _ _ _ _ _ Hg)|done].
  - simpl. pose proof (absorb_length (tx_log t') (iblock x)). lia.
  - simpl. apply Hg.
  - unfold x''. cbn [i_size i_addrs set_isize]. by rewrite Hm at 1.
Qed.

Lemma writei_ok devsw_write s t ip x off src : rw_file s t ip x → tx_size t ≤ 4096 →
  0 ≤ off ≤ i_size x → off + Z.of_nat (length src) ≤ 140 * 512 →
  Z.of_nat (length (tx_log t)) + nblk off (Z.of_nat (length src)) + 6 ≤ Z.of_nat (tx_cap t) →
  Z.of_nat (length (tx_log t) + length (tx_held t)) + nblk off (Z.of_nat (length src)) + 7 ≤ 30 →
  (∃ b x' t', writei devsw_write ip src off s = Ok (Z.of_nat (length src), put_inode ip x' (set_blocks b s)) ∧
     written s t ip x off src (put_inode ip x' (set_blocks b s)) t' x') ∨
  writei devsw_write ip src off s = Panic "balloc: out of blocks" ∧
     Z.of_nat (space t x) ≤ nblk off (Z.of_nat (length src)).
Proof.
  intros Hrw H4096 Hoff Hmax Hcap Hroom. pose proof Hrw as [Hof Hty Hsz Hh Hib Hsep]. unfold writei.
  set (n := Z.of_nat (length src)) in *. erewrite bind_Ok_l by (apply the_inode_ok, Hof).
  rewrite (proj2 (Z.eqb_neq _ _) Hty), wrap_sum_lt by lia. rewrite (proj2 (Z.ltb_ge (i_size x) off)), (proj2 (Z.leb_gt (2^32) (off + n))) by lia.
  simpl. unfold wrap32. rewrite Z.mod_small by lia. change (MAXFILE * BSIZE) with (140 * 512). change BSIZE with 512.
  rewrite (proj2 (Z.ltb_ge (140 * 512) _)) by lia. rewrite sint32_id by (unfold is_i32; lia).
  pose proof (Z.mod_pos_bound off 512 ltac:(lia)).
  destruct (writei_loop_ok ip (Z.to_nat (n / 512 + 2)) s t x src off (tx_log t)) as
    [(x1 & t1 & b1 & L1 & H1 & Hof1 & Hg1 & Hs1 & Ha1 & HL1 & Hlen1)|[Hp Hsp]]; try done; try lia.
  { intros m Hm. by left. }
  { intros _. unfold n. Z.div_mod_to_equations; lia. }
  2:{ right. split; [unfold mbind, M_bind; by rewrite Hp|done]. }
  left. erewrite bind_Ok_l by exact H1. erewrite bind_Ok_l by (apply the_inode_ok, Hof1).
  assert (Msize : i_size x1 = i_size x) by (by rewrite (gw_meta _ _ _ _ _ Hg1)). rewrite Msize. fold n. fold n in Hlen1.
  destruct (Z.ltb_spec (i_size x) (off + n)) as [Hgrow|Hkeep].
  2:{ rewrite andb_false_r. exists b1, x1, t1. split; [done|]. by eapply written_plain; [done|done|lia|lia|..]. }
  rewrite andb_true_r, (proj2 (Z.ltb_lt 0 n)) by lia. cbn [whenM].
  set (x2 := set_isize (off + n) x1). set (s1 := put_inode ip x1 (set_blocks b1 s)) in *.
  pose proof (f_equal i_inum (gw_meta _ _ _ _ _ Hg1)) as Minum. simpl in Minum.
  assert (Hib2 : iblock x2 = iblock x) by (unfold iblock; simpl; by rewrite Minum).
  destruct (iupdate_ok (put_inode ip x2 s1) t1 ip x2) as (b2 & H2 & Hl2).
  { destruct (of_fs _ _ _ _ _ Hof1). by constructor. }
  { by apply put_inode_at with (y := x1), Hof1. }
  { apply (fk_dev sb t1 x1), Hof1. }
  { rewrite Hib2. eapply grows_good; [apply (fo_layout sb s t), Hof|done|done]. }
  1,2: pose proof (log_bound _ t1 x1 L1 (fo_lay _ _ _ (of_fs _ _ _ _ _ Hof1)) ltac:(by rewrite (gw_size _ _ _ _ _ Hg1)) HL1);
       rewrite ?(gw_cap _ _ _ _ _ Hg1), ?(gw_held _ _ _ _ _ Hg1); lia.
  rewrite Hib2 in Hl2. change (i_inum x2) with (i_inum x1) in Hl2. rewrite Minum in Hl2.
  exists b2, x2. eexists. split.
  - erewrite bind_Ok_l; [done|]. erewrite bind_Ok_l by (apply upd_inode_ok, Hof1).
    fold x2. rewrite H2. unfold s1. rewrite put_put_inode. done.
  - replace (put_inode ip x2 (set_blocks b2 s)) with (set_blocks b2 (put_inode ip x2 s1))
      by (unfold s1; by rewrite put_put_inode).
    by eapply written_update; [done|done|lia|..]; done.
Qed.

Lemma fbytes_spliced t x off src t' x' : 0 ≤ off → off + Z.of_nat (length src) ≤ 140 * 512 →
  spliced t x off src t' x' → fbytes t' x' off (Z.of_nat (length src)) = src.
Proof.
  intros Hoff Hmax Hs. apply list_eq. intros i. unfold fbytes. rewrite list_lookup_fmap.
  destruct (decide (i < length src)%nat) as [Hi|Hi].
  - rewrite lookup_seqZ_lt by lia. simpl. rewrite Hs by lia.
    rewrite (proj2 (Z.leb_le off _)), (proj2 (Z.ltb_lt _ _)) by lia. simpl.
    replace (Z.to_nat (off + Z.of_nat i - off)) with i by lia. rewrite nth_lookup.
    destruct (lookup_lt_is_Some_2 src i Hi) as [z Hz]. by rewrite Hz.
  - rewrite lookup_seqZ_ge by lia. by rewrite lookup_ge_None_2 by lia.
Qed.

(** [readi] returns exactly the bytes of the file from [off], as many as
    asked for up to the end of the file, and changes neither the file nor any
    block; an offset beyond the end, or one whose sum with [n] wraps around,
    is refused. *)
Theorem readi_reads devsw_read s t ip x off n (Hrw : rw_file s t ip x) (Hoff : 0 ≤ off < 2^32) (Hn : 0 ≤ n < 2^32)
    (Hroom : (length (tx_log t) + length (tx_held t) < 30)%nat) :
  if (i_size x <? off) || (2^32 <=? off + n) then readi devsw_read ip off n s = Ok ((-1, []), s)
  else let m := Z.min n (i_size x - off) in
    ∃ b, readi devsw_read ip off n s = Ok ((m, fbytes t x off m), set_blocks b s) ∧ lay b t.
Proof. destruct Hrw. by apply readi_ok. Qed.


(** C4: What was written is read back: after [writei] of [src] at [off], [readi]
    of as many bytes at [off] returns [src]. *)
Theorem write_read_roundtrip devsw_read devsw_write s t ip x off src (Hrw : rw_file s t ip x) (Hsz : tx_size t ≤ 4096)
    (Hoff : 0 ≤ off ≤ i_size x) (Hmax : off + Z.of_nat (length src) ≤ MAXFILE * BSIZE)
    (Hcap : Z.of_nat (length (tx_log t)) + nblk off (Z.of_nat (length src)) + 6 ≤ Z.of_nat (tx_cap t))
    (Hroom : Z.of_nat (length (tx_log t) + length (tx_held t)) + nblk off (Z.of_nat (length src)) + 7 ≤ 30)
    (Hfree : nblk off (Z.of_nat (length src)) < Z.of_nat (nfree t)) :
  ∃ s' s'', writei devsw_write ip src off s = Ok (Z.of_nat (length src), s') ∧
    readi devsw_read ip off (Z.of_nat (length src)) s' = Ok ((Z.of_nat (length src), src), s'').
Proof.
  change (MAXFILE * BSIZE) with (140 * 512) in Hmax.
  destruct (writei_ok devsw_write s t ip x off src Hrw Hsz) as [(b & x' & t' & H & [W1 W2 W3 W4 W5 W6 W7 _])|[_ Hsp]]; try done.
  2:{ exfalso. unfold FsOk.space in Hsp. lia. }
  eexists. pose proof (readi_ok devsw_read (put_inode ip x' (set_blocks b s)) t' ip x' off (Z.of_nat (length src))
    (rw_open _ _ _ _ W1) (rw_type _ _ _ _ W1) (rw_size _ _ _ _ W1) (rw_holes _ _ _ _ W1)) as Hr.
  rewrite W7, (proj2 (Z.ltb_ge (i_size x') off)), (proj2 (Z.leb_gt (2^32) _)) in Hr by lia.
  destruct Hr as (b' & Hr & _); try lia. rewrite Z.min_l in Hr by lia. rewrite (fbytes_spliced t x) in Hr by (done || lia).
  eexists. split; [exact H|exact Hr].
Qed.
End FsData.

(** *** Witnesses *)

(** An empty file, open, on the file system of [FsOk]. *)
Definition demo_inode : inode := Inode 1 2 1 (Some 1) 1 T_FILE 0 0 1 0 (replicate 13 0).
Lemma demo_slot ty j : 0 ≤ j ≤ 140 → slot demo_tx (set_itype ty demo_inode) j = 0.
Proof.
  intros Hj. unfold slot. destruct (Z.eqb_spec j 140); [done|]. unfold addr.
  destruct (Z.ltb_spec j 12); [|done].
  apply (nth_zeros 13).
Qed.
Lemma demo_rw_type ty : ty ≠ T_DEV →
  rw_file demo_sb (demo_fs [set_itype ty demo_inode]) demo_tx 0 (set_itype ty demo_inode).
Proof.
  intros Hty. constructor.
  - constructor; [apply demo_ok|done|]. constructor.
    + done.
    + done.
    + by vm_compute.
    + intros j Hj. by rewrite demo_slot.
    + intros i j Hi Hj. by rewrite !demo_slot.
  - done.
  - done.
  - intros bn Hb Hlt. simpl in Hlt. lia.
  - change (iblock demo_sb (set_itype ty demo_inode)) with 32. split; [done|]. split; [by vm_compute|]. split; [|apply not_elem_of_nil].
    intros (z & Hz & He). rewrite demo_bm in He by done. done.
  - intros j Hj. by rewrite demo_slot.
Qed.
Lemma demo_rw : rw_file demo_sb (demo_fs [demo_inode]) demo_tx 0 demo_inode.
Proof. by apply (demo_rw_type T_FILE). Qed.
Lemma demo_nfree : Z.of_nat (nfree demo_sb demo_tx) = 941.
Proof. by vm_compute. Qed.

Lemma readi_reads_witness : readi (λ _, None) 0 1 4 (demo_fs [demo_inode]) = Ok ((-1, []), demo_fs [demo_inode]).
Proof. apply (readi_reads demo_sb (λ _, None) (demo_fs [demo_inode]) demo_tx 0 demo_inode 1 4 demo_rw); simpl; lia. Defined.
Lemma write_read_roundtrip_witness :
  ∃ s' s'', writei (λ _, None) 0 [65; 66; 67] 0 (demo_fs [demo_inode]) = Ok (3, s') ∧
    readi (λ _, None) 0 0 3 s' = Ok ((3, [65; 66; 67]), s'').
Proof.
  apply (write_read_roundtrip demo_sb (λ _, None) (λ _, None) (demo_fs [demo_inode]) demo_tx 0 demo_inode 0 [65; 66; 67] demo_rw);
    try done.
Defined.
