(* ===== verification/FsDir.v ===== *)
(** * Directories

    [dirlookup] and [dirlink] of [fs.c] against the directory they stand for:
    the list of entries in the contents of the directory file, searched for
    the first entry in use with the name.  Linking a name and looking it up
    are inverse, and other names are not disturbed. *)

From S2P Require Import Prelude Machine Str Spin Bio Log Fs Txn FsOk FsData.
Local Open Scope Z_scope.

(** ** Names *)

(** The name a field or string of characters denotes: up to the first NUL, at
    most [DIRSIZ] characters. *)
Definition name_mem (l : list Z) : mem := λ a, default 0 (l !! Z.to_nat a).
Definition dname (l : list Z) : list Z := cname (name_mem l) 0 14.

Lemma bytes_lookup l i : Forall is_u8 l → is_u8 (default 0 (l !! i)).
Proof.
  intros H. destruct (l !! i) as [z|] eqn:E; simpl; [by eapply Forall_lookup_1|unfold is_u8; lia].
Qed.
Lemma bytes_mem2 a b : Forall is_u8 a → Forall is_u8 b → bytes (mem2 a b).
Proof. intros Ha Hb x. unfold mem2. destruct (64 <=? x); by apply bytes_lookup. Qed.
Lemma cname_shift m m' a a' n : (∀ i, 0 ≤ i < Z.of_nat n → m (a + i) = m' (a' + i)) → cname m a n = cname m' a' n.
Proof.
  revert a a'. induction n as [|n IH]; intros a a' H; [done|]. cbn [cname].
  pose proof (H 0 ltac:(lia)) as H0. rewrite !Z.add_0_r in H0. rewrite H0. destruct (_ =? 0); [done|]. f_equal.
  apply IH. intros i Hi. replace (a + 1 + i) with (a + (i + 1)) by lia.
  replace (a' + 1 + i) with (a' + (i + 1)) by lia. apply H. lia.
Qed.
(** Characters after a NUL do not matter. *)
Lemma cname_shift_nul m m' a a' n :
  (∀ i, 0 ≤ i < Z.of_nat n → m (a + i) = m' (a' + i) ∨ ∃ j, 0 ≤ j < i ∧ m' (a' + j) = 0) → cname m a n = cname m' a' n.
Proof.
  revert a a'. induction n as [|n IH]; intros a a' H; [done|]. cbn [cname].
  destruct (H 0 ltac:(lia)) as [H0|(j & Hj & _)]; [|lia]. rewrite !Z.add_0_r in H0. rewrite H0.
  destruct (Z.eqb_spec (m' a') 0) as [|Hne]; [done|]. f_equal. apply IH. intros i Hi.
  replace (a + 1 + i) with (a + (i + 1)) by lia. replace (a' + 1 + i) with (a' + (i + 1)) by lia.
  destruct (H (i + 1) ltac:(lia)) as [?|(j & Hj & Hz)]; [by left|right].
  assert (j ≠ 0) by (intros ->; rewrite Z.add_0_r in Hz; congruence).
  exists (j - 1). split; [lia|]. by replace (a' + 1 + (j - 1)) with (a' + j) by lia.
Qed.
Lemma dname_mem2_l a b : cname (mem2 a b) 0 14 = dname a.
Proof.
  apply cname_shift. intros i Hi. unfold mem2, name_mem. by rewrite (proj2 (Z.leb_gt _ _)) by lia.
Qed.
Lemma dname_mem2_r a b : cname (mem2 a b) 64 14 = dname b.
Proof.
  apply cname_shift. intros i Hi. unfold mem2, name_mem. rewrite (proj2 (Z.leb_le _ _)) by lia.
  by replace (64 + i - 64) with (0 + i) by lia.
Qed.
(** [namecmp] compares names. *)
Lemma namecmp_zero a b : Forall is_u8 a → Forall is_u8 b → (namecmp a b =? 0) = bool_decide (dname a = dname b).
Proof.
  intros Ha Hb. apply eq_bool_prop_intro. rewrite !Is_true_true, Z.eqb_eq, bool_decide_eq_true.
  unfold namecmp. rewrite strncmp_zero_iff by by apply bytes_mem2. change (Z.to_nat DIRSIZ) with 14%nat.
  by rewrite dname_mem2_l, dname_mem2_r.
Qed.
Lemma bytes_strncpy m s t n : bytes m → bytes (strncpy m s t n).
Proof.
  unfold strncpy. generalize (Z.to_nat n) as k. intros k. revert m s t. induction k as [|k IH]; intros m s t Hm; [done|].
  cbn [strncpy_loop]. assert (Hu : bytes (upd m s (m t))) by by apply bytes_upd.
  destruct (_ =? _); [|by apply IH]. intros x. rewrite zero_fill_spec. case_decide; [unfold is_u8; lia|apply Hu].
Qed.
(** The field [dirlink] stores. *)
Definition name_field (name : list Z) : list Z := read_bytes (strncpy (mem2 (replicate 14 0) name) 0 64 DIRSIZ) 0 14.
Lemma length_name_field name : length (name_field name) = 14%nat.
Proof. apply length_read_bytes. Qed.
Lemma dname_field name : dname (name_field name) = dname name.
Proof.
  etrans; [|etrans; [apply (strncpy_cname (mem2 (replicate 14 0) name) 0 64 DIRSIZ); [done|by right]|apply dname_mem2_r]].
  apply cname_shift. intros i Hi. unfold name_mem, name_field. change (Z.of_nat (Z.to_nat DIRSIZ)) with 14 in Hi. rewrite read_bytes_lookup by lia.
  cbn [default]. by rewrite Z2Nat.id by lia.
Qed.

(** ** The directory in the contents of a file *)

Section Dir.
Context {B : Type} `{!BlockLayer B} `{!LayerOk B}.
Variable sb : superblock.
Notation fs := (fsys B).
Implicit Types (s : fs) (t : txn) (x : inode).

(** The entry at offset [off]. *)
Definition entry_at t x (off : Z) : dirent := get_dirent (fbytes t x off 16).
Definition entry_is (name : list Z) (e : dirent) : bool :=
  negb (de_inum e =? 0) && bool_decide (dname name = dname (de_name e)).
(** The first entry in use with the name among the [n] entries of [e] from
    [off]: inode number and offset. *)
Fixpoint search (e : Z → dirent) (name : list Z) (n : nat) (off : Z) : option (Z * Z) :=
  match n with
  | O => None
  | S n' => if entry_is name (e off) then Some (de_inum (e off), off) else search e name n' (off + 16)
  end.
Definition dir_lookup t x (name : list Z) : option (Z * Z) := search (entry_at t x) name (Z.to_nat (i_size x / 16)) 0.
(** The first unused entry, or the end. *)
Fixpoint free_from t x (n : nat) (off : Z) : Z :=
  match n with
  | O => off
  | S n' => if de_inum (entry_at t x off) =? 0 then off else free_from t x n' (off + 16)
  end.

(** A directory open for reading and writing. *)
Record dir_ok s t (dp : nat) x : Prop := {
  dir_rw : rw_file sb s t dp x;
  dir_type : i_type x = T_DIR;
  dir_size : i_size x mod 16 = 0;
  dir_bytes : ∀ o, 0 ≤ o < i_size x → is_u8 (fbyte t x o);
}.
Definition room t : Prop := (length (tx_log t) + length (tx_held t) < 30)%nat.

Lemma rw_blocks s t dp x b : rw_file sb s t dp x → lay b t → rw_file sb (set_blocks b s) t dp x.
Proof. intros [H1 H2 H3 H4 H5 H6] Hb. constructor; try done. by apply open_blocks. Qed.
Lemma dir_blocks s t dp x b : dir_ok s t dp x → lay b t → dir_ok (set_blocks b s) t dp x.
Proof. intros [H1 H2 H3 H4] Hb. constructor; try done. by apply rw_blocks. Qed.
Lemma dir_inode s t dp x : dir_ok s t dp x → icache s !! dp = Some x.
Proof. intros H. apply H. Qed.

(** Reading one entry. *)
Lemma read_entry devsw_read s t dp x off : dir_ok s t dp x → room t → 0 ≤ off → off + 16 ≤ i_size x →
  ∃ b, readi devsw_read dp off 16 s = Ok ((16, fbytes t x off 16), set_blocks b s) ∧ lay b t.
Proof.
  intros [[Hof Hty Hsz Hh _ _] _ _ _] Hroom H0 H1.
  pose proof (readi_ok sb devsw_read s t dp x off 16 Hof Hty Hsz Hh ltac:(lia) ltac:(lia) Hroom) as H.
  rewrite (proj2 (Z.ltb_ge _ _)), (proj2 (Z.leb_gt _ _)) in H by lia. cbn [orb] in H. cbv zeta in H.
  by rewrite Z.min_l in H by lia.
Qed.
Lemma entry_bytes s t dp x off : dir_ok s t dp x → 0 ≤ off → off + 16 ≤ i_size x → Forall is_u8 (de_name (entry_at t x off)).
Proof.
  intros Hd H0 H1. unfold entry_at, get_dirent. cbn [de_name]. apply Forall_take, Forall_drop.
  unfold fbytes. apply Forall_fmap, Forall_forall. intros o Ho. apply elem_of_seqZ in Ho. apply Hd. lia.
Qed.

(** *** Searching *)

Lemma dirlookup_loop_S devsw_read k dp name off s x : icache s !! dp = Some x → off < i_size x →
  dirlookup_loop devsw_read (S k) dp name off s =
  (r ← readi devsw_read dp off sizeof_dirent;
   if negb (r.1 =? sizeof_dirent) then panic "dirlookup read" else
   let de := get_dirent r.2 in
   if negb (de_inum de =? 0) && (namecmp name (de_name de) =? 0) then mret (Some (de_inum de, off))
   else dirlookup_loop devsw_read k dp name (off + sizeof_dirent)) s.
Proof.
  intros Hx Ho. cbn [dirlookup_loop]. rewrite (bind_Ok_l _ _ _ _ _ (the_inode_ok s dp x Hx)).
  by rewrite (proj2 (Z.ltb_lt _ _) Ho).
Qed.
Lemma dirlookup_loop_end devsw_read k dp name off s x : icache s !! dp = Some x → i_size x ≤ off →
  dirlookup_loop devsw_read k dp name off s = Ok (None, s).
Proof.
  intros Hx Ho. destruct k; cbn [dirlookup_loop]; rewrite (bind_Ok_l _ _ _ _ _ (the_inode_ok s dp x Hx));
    by rewrite (proj2 (Z.ltb_ge _ _) Ho).
Qed.
Lemma dirlookup_loop_ok devsw_read t dp x name n : Forall is_u8 name → room t → ∀ k s off, dir_ok s t dp x →
  0 ≤ off → off + 16 * Z.of_nat n = i_size x → (n ≤ k)%nat →
  ∃ b, dirlookup_loop devsw_read k dp name off s = Ok (search (entry_at t x) name n off, set_blocks b s) ∧ lay b t.
Proof.
  intros Hname Hroom. induction n as [|n IH]; intros k s off Hd H0 Hn Hk.
  - exists (blocks s). rewrite set_blocks_id. split; [|apply Hd]. apply (dirlookup_loop_end _ _ _ _ _ _ x); [by eapply dir_inode|lia].
  - destruct k as [|k]; [lia|]. rewrite (dirlookup_loop_S _ _ _ _ _ _ x) by (by eapply dir_inode || lia).
    destruct (read_entry devsw_read s t dp x off Hd Hroom) as (b & Hb & Hl); [lia|lia|].
    change sizeof_dirent with 16 in *. rewrite (bind_Ok_l _ _ _ _ _ Hb). cbn [fst snd]. rewrite Z.eqb_refl. cbn [negb].
    cbv zeta. fold (entry_at t x off). cbn [search].
    rewrite namecmp_zero; [|done|by eapply entry_bytes; [done|lia..]]. fold (entry_is name (entry_at t x off)).
    destruct (entry_is name (entry_at t x off)); [by exists b|].
    destruct (IH k (set_blocks b s) (off + 16)) as (b' & Hb' & Hl'); [by apply dir_blocks|lia|lia|lia|].
    exists b'. rewrite Hb', set_blocks_twice. done.
Qed.
Lemma entry_count x : 0 ≤ i_size x → i_size x mod 16 = 0 → 16 * Z.of_nat (Z.to_nat (i_size x / 16)) = i_size x.
Proof. intros H0 Hm. rewrite Z2Nat.id by (apply Z.div_pos; lia). Z.div_mod_to_equations. lia. Qed.

(** [dirlookup] gives the inode of the first entry with the name. *)
Lemma dirlookup_eq devsw_read s t dp x name : Forall is_u8 name → room t → dir_ok s t dp x →
  ∃ b, lay b t ∧ dirlookup devsw_read dp name s =
    match dir_lookup t x name with
    | None => Ok (None, set_blocks b s)
    | Some (inum, off) => (ip ← iget 1 inum; mret (Some (ip, off))) (set_blocks b s)
    end.
Proof.
  intros Hname Hroom Hd. pose proof (rw_size _ _ _ _ _ (dir_rw _ _ _ _ Hd)) as Hsz.
  unfold dirlookup. rewrite (bind_Ok_l _ _ _ _ _ (the_inode_ok s dp x (dir_inode _ _ _ _ Hd))).
  rewrite (dir_type _ _ _ _ Hd). change (negb (T_DIR =? T_DIR)) with false.
  destruct (dirlookup_loop_ok devsw_read t dp x name (Z.to_nat (i_size x / 16)) Hname Hroom
    (Z.to_nat (i_size x / sizeof_dirent + 1)) s 0 Hd) as (b & Hb & Hl).
  - lia.
  - rewrite entry_count; [lia|lia|exact (dir_size _ _ _ _ Hd)].
  - change sizeof_dirent with 16. lia.
  - exists b. split; [done|]. rewrite (bind_Ok_l _ _ _ _ _ Hb). fold (dir_lookup t x name).
    rewrite (fk_dev sb t x (of_ok _ _ _ _ _ (rw_open _ _ _ _ _ (dir_rw _ _ _ _ Hd)))).
    by destruct (dir_lookup t x name) as [[inum off]|].
Qed.

Lemma free_entry_S devsw_read k dp off s x : icache s !! dp = Some x → off < i_size x →
  free_entry devsw_read (S k) dp off s =
  (r ← readi devsw_read dp off sizeof_dirent;
   if negb (r.1 =? sizeof_dirent) then panic "dirlink read" else
   if de_inum (get_dirent r.2) =? 0 then mret off
   else free_entry devsw_read k dp (off + sizeof_dirent)) s.
Proof.
  intros Hx Ho. cbn [free_entry]. rewrite (bind_Ok_l _ _ _ _ _ (the_inode_ok s dp x Hx)).
  by rewrite (proj2 (Z.ltb_lt _ _) Ho).
Qed.
Lemma free_entry_ok devsw_read t dp x n : room t → ∀ k s off, dir_ok s t dp x →
  0 ≤ off → off + 16 * Z.of_nat n = i_size x → (n ≤ k)%nat →
  ∃ b, free_entry devsw_read k dp off s = Ok (free_from t x n off, set_blocks b s) ∧ lay b t.
Proof.
  intros Hroom. induction n as [|n IH]; intros k s off Hd H0 Hn Hk.
  - exists (blocks s). rewrite set_blocks_id. split; [|apply Hd]. pose proof (dir_inode _ _ _ _ Hd) as Hx.
    destruct k; cbn [free_entry free_from]; rewrite (bind_Ok_l _ _ _ _ _ (the_inode_ok s dp x Hx));
      by rewrite (proj2 (Z.ltb_ge _ _)) by lia.
  - destruct k as [|k]; [lia|]. rewrite (free_entry_S _ _ _ _ _ x) by (by eapply dir_inode || lia).
    destruct (read_entry devsw_read s t dp x off Hd Hroom) as (b & Hb & Hl); [lia|lia|].
    change sizeof_dirent with 16 in *. rewrite (bind_Ok_l _ _ _ _ _ Hb). cbn [fst snd]. rewrite Z.eqb_refl. cbn [negb].
    fold (entry_at t x off). cbn [free_from]. destruct (de_inum (entry_at t x off) =? 0); [by exists b|].
    destruct (IH k (set_blocks b s) (off + 16)) as (b' & Hb' & Hl'); [by apply dir_blocks|lia|lia|lia|].
    exists b'. rewrite Hb', set_blocks_twice. done.
Qed.

(** *** Linking *)

Lemma search_None e name n off : search e name n off = None ↔ ∀ j, (j < n)%nat → entry_is name (e (off + 16 * Z.of_nat j)) = false.
Proof.
  revert off. induction n as [|n IH]; intros off; cbn [search]; [by split; [lia|]|].
  destruct (entry_is name (e off)) eqn:E.
  - split; [done|]. intros H. specialize (H 0%nat ltac:(lia)). rewrite Z.mul_0_r, Z.add_0_r in H. congruence.
  - rewrite IH. split; intros H j Hj.
    + destruct j as [|j]; [by rewrite Z.mul_0_r, Z.add_0_r|]. specialize (H j ltac:(lia)). by replace (off + 16 * Z.of_nat (S j)) with (off + 16 + 16 * Z.of_nat j) by lia.
    + replace (off + 16 + 16 * Z.of_nat j) with (off + 16 * Z.of_nat (S j)) by lia. apply H. lia.
Qed.
Lemma search_ext e e' name n off :
  (∀ j, (j < n)%nat → e' (off + 16 * Z.of_nat j) = e (off + 16 * Z.of_nat j) ∨
     entry_is name (e (off + 16 * Z.of_nat j)) = false ∧ entry_is name (e' (off + 16 * Z.of_nat j)) = false) →
  search e' name n off = search e name n off.
Proof.
  revert off. induction n as [|n IH]; intros off H; cbn [search]; [done|].
  pose proof (H 0%nat ltac:(lia)) as H0. rewrite Z.mul_0_r, Z.add_0_r in H0. rewrite (IH (off + 16)).
  - by destruct H0 as [->|[-> ->]].
  - intros j Hj. replace (off + 16 + 16 * Z.of_nat j) with (off + 16 * Z.of_nat (S j)) by lia. apply H. lia.
Qed.
Lemma search_snoc e name n off : search e name (S n) off =
  match search e name n off with
  | Some r => Some r
  | None => if entry_is name (e (off + 16 * Z.of_nat n)) then Some (de_inum (e (off + 16 * Z.of_nat n)), off + 16 * Z.of_nat n) else None
  end.
Proof.
  revert off. induction n as [|n IH]; intros off.
  - cbn [search]. by rewrite Z.mul_0_r, Z.add_0_r.
  - change (search e name (S (S n)) off) with (if entry_is name (e off) then Some (de_inum (e off), off) else search e name (S n) (off + 16)).
    rewrite IH. cbn [search]. destruct (entry_is name (e off)); [done|].
    by replace (off + 16 * Z.of_nat (S n)) with (off + 16 + 16 * Z.of_nat n) by lia.
Qed.
Lemma search_hit e name n off k : (k < n)%nat → entry_is name (e (off + 16 * Z.of_nat k)) = true →
  (∀ j, (j < k)%nat → entry_is name (e (off + 16 * Z.of_nat j)) = false) →
  search e name n off = Some (de_inum (e (off + 16 * Z.of_nat k)), off + 16 * Z.of_nat k).
Proof.
  revert off k. induction n as [|n IH]; intros off k Hk Hit Hpre; [lia|]. cbn [search]. destruct k as [|k].
  - rewrite Z.mul_0_r, Z.add_0_r in *. by rewrite Hit.
  - pose proof (Hpre 0%nat ltac:(lia)) as H0. rewrite Z.mul_0_r, Z.add_0_r in H0. rewrite H0.
    replace (off + 16 * Z.of_nat (S k)) with (off + 16 + 16 * Z.of_nat k) in * by lia. apply IH; [lia|done|].
    intros j Hj. replace (off + 16 + 16 * Z.of_nat j) with (off + 16 * Z.of_nat (S j)) by lia. apply Hpre. lia.
Qed.

Lemma free_from_spec t x n off : ∃ k, (k ≤ n)%nat ∧ free_from t x n off = off + 16 * Z.of_nat k ∧
  ((k < n)%nat → de_inum (entry_at t x (off + 16 * Z.of_nat k)) = 0).
Proof.
  revert off. induction n as [|n IH]; intros off; cbn [free_from].
  - exists 0%nat. split_and!; [lia|lia|intros; lia].
  - destruct (Z.eqb_spec (de_inum (entry_at t x off)) 0) as [H|H].
    + exists 0%nat. rewrite Z.mul_0_r, Z.add_0_r. split_and!; [lia|done|done].
    + destruct (IH (off + 16)) as (k & Hk & E & Hz). exists (S k).
      replace (off + 16 * Z.of_nat (S k)) with (off + 16 + 16 * Z.of_nat k) by lia.
      split_and!; [lia|done|]. intros Hlt. apply Hz. lia.
Qed.

(** Entries after one is written. *)
Lemma get_put_dirent i l : 0 ≤ i < 2^16 → length l = 14%nat → get_dirent (put_dirent (Dirent i l)) = Dirent i l.
Proof.
  intros Hi Hl. unfold get_dirent, put_dirent. cbn [de_inum de_name app nth drop]. f_equal.
  - rewrite (Z.mod_small (i / 2^8)) by (Z.div_mod_to_equations; lia). Z.div_mod_to_equations; lia.
  - rewrite take_ge; [done|]. simpl. rewrite drop_0. lia.
Qed.
Lemma entry_new t x off e t' x' : 0 ≤ off → off + 16 ≤ 140 * 512 → length (put_dirent e) = 16%nat →
  spliced t x off (put_dirent e) t' x' → entry_at t' x' off = get_dirent (put_dirent e).
Proof.
  intros H0 H1 Hl Hs. unfold entry_at. f_equal. pose proof (fbytes_spliced t x off (put_dirent e) t' x') as H.
  rewrite Hl in H. apply H; [done|lia|done].
Qed.
Lemma entry_old t x off e t' x' o : 0 ≤ o → o + 16 ≤ 140 * 512 → length (put_dirent e) = 16%nat →
  o + 16 ≤ off ∨ off + 16 ≤ o → spliced t x off (put_dirent e) t' x' → entry_at t' x' o = entry_at t x o.
Proof.
  intros H0 H1 Hl Hd Hs. unfold entry_at. f_equal. unfold fbytes. apply list_fmap_ext. intros i z Hz.
  apply lookup_seqZ in Hz as [-> Hi]. rewrite Hs by lia. rewrite Hl.
  destruct (Z.leb_spec off (o + Z.of_nat i)), (Z.ltb_spec (o + Z.of_nat i) (off + Z.of_nat 16)); try done. lia.
Qed.

(** The new contents are bytes again. *)
Lemma bytes_put_dirent i name : Forall is_u8 name → Forall is_u8 (put_dirent (Dirent i (name_field name))).
Proof.
  intros Hn. unfold put_dirent. cbn [de_inum de_name]. repeat (apply Forall_cons; split; [apply Z.mod_pos_bound; lia|]).
  unfold name_field. apply Forall_forall. intros z Hz. unfold read_bytes in Hz. apply list_elem_of_fmap in Hz as (j & -> & _).
  apply bytes_strncpy. apply bytes_mem2; [|done]. apply Forall_replicate. unfold is_u8. lia.
Qed.

(** What [dirlink] leaves: a directory in which the name is found, and every
    other name as before. *)
Record linked s t (dp : nat) x (name : list Z) (inum : Z) (s' : fs) t' x' : Prop := {
  lk_dir : dir_ok s' t' dp x';
  lk_found : ∃ off, dir_lookup t' x' name = Some (inum, off);
  lk_others : ∀ nm, dname nm ≠ dname name → dir_lookup t' x' nm = dir_lookup t x nm;
  lk_log : Z.of_nat (length (tx_log t')) ≤ Z.of_nat (length (tx_log t)) + 4;
  lk_held : tx_held t' = tx_held t;
}.
Lemma entry_written s t dp x k name inum s' t' x' : dir_ok s t dp x → Forall is_u8 name → 0 < inum < 2^16 →
  dir_lookup t x name = None → let n := Z.to_nat (i_size x / 16) in (k ≤ n)%nat → 16 * Z.of_nat k + 16 ≤ 140 * 512 →
  ((k < n)%nat → de_inum (entry_at t x (16 * Z.of_nat k)) = 0) →
  written sb s t dp x (16 * Z.of_nat k) (put_dirent (Dirent inum (name_field name))) s' t' x' →
  linked s t dp x name inum s' t' x'.
Proof.
  intros Hd Hname Hinum Hnone n Hk Hmax Hfree [W1 W2 W3 _ _ W6 W7 Wm].
  pose proof (rw_size _ _ _ _ _ (dir_rw _ _ _ _ Hd)) as Hsz. pose proof (dir_size _ _ _ _ Hd) as Hm.
  pose proof (entry_count x ltac:(lia) Hm) as Hn. fold n in Hn.
  set (e := Dirent inum (name_field name)) in *. assert (Hlen : length (put_dirent e) = 16%nat).
  { unfold put_dirent, e. cbn [de_name de_inum]. rewrite length_app, length_name_field. done. }
  rewrite Hlen in W3, W6. assert (Hnew : entry_at t' x' (16 * Z.of_nat k) = e).
  { rewrite (entry_new t x _ e t' x') by (done || lia). by apply get_put_dirent; [lia|apply length_name_field]. }
  assert (Hold : ∀ j, (j < n)%nat → j ≠ k → entry_at t' x' (16 * Z.of_nat j) = entry_at t x (16 * Z.of_nat j)).
  { intros j Hj Hne. apply (entry_old t x (16 * Z.of_nat k) e); [lia|lia|done|lia|done]. }
  assert (Hn' : Z.to_nat (i_size x' / 16) = n ∧ (k < n)%nat ∨ Z.to_nat (i_size x' / 16) = S n ∧ k = n).
  { rewrite W3. destruct (decide (k < n)%nat) as [Hlt|].
    - left. split; [|done]. by rewrite Z.max_l by lia.
    - right. assert (k = n) as -> by lia. split; [|done]. rewrite Z.max_r by lia.
      replace (16 * Z.of_nat n + Z.of_nat 16) with ((Z.of_nat n + 1) * 16) by lia. rewrite Z.div_mul by lia. lia. }
  assert (Hpre : ∀ j, (j < n)%nat → entry_is name (entry_at t x (16 * Z.of_nat j)) = false).
  { intros j Hj. by apply (proj1 (search_None _ _ _ _) Hnone j). }
  constructor.
  - constructor; [done|by rewrite Wm, <- (dir_type _ _ _ _ Hd)| |].
    + rewrite W3. destruct (Z.max_spec (i_size x) (16 * Z.of_nat k + Z.of_nat 16)) as [[_ ->]|[_ ->]]; [|done].
      Z.div_mod_to_equations; lia.
    + intros o Ho. rewrite W2 by lia. rewrite Hlen. destruct (Z.leb_spec (16 * Z.of_nat k) o), (Z.ltb_spec o (16 * Z.of_nat k + Z.of_nat 16));
        cbn [andb]; try (apply Hd; lia). rewrite nth_lookup. apply bytes_lookup. by apply bytes_put_dirent.
  - exists (16 * Z.of_nat k). unfold dir_lookup. rewrite (search_hit _ _ _ 0 k); rewrite ?Z.add_0_l, ?Hnew; [done|lia| |].
    + unfold entry_is, e. cbn [de_inum de_name]. rewrite (proj2 (Z.eqb_neq _ _)), dname_field by lia. by rewrite bool_decide_true.
    + intros j Hj. rewrite Z.add_0_l, Hold by lia. apply Hpre. lia.
  - intros nm Hne. assert (Hno : entry_is nm e = false).
    { unfold entry_is, e. cbn [de_name]. rewrite dname_field, bool_decide_false by done. apply andb_false_r. }
    unfold dir_lookup. fold n. assert (Hsame : search (entry_at t' x') nm n 0 = search (entry_at t x) nm n 0).
    { apply search_ext. intros j Hj. rewrite Z.add_0_l. destruct (decide (j = k)) as [->|]; [right|left; by apply Hold].
      rewrite Hnew. split; [|done]. unfold entry_is. by rewrite Hfree. }
    destruct Hn' as [[-> _]|[-> ->]]; [done|]. rewrite search_snoc, Hsame, Z.add_0_l, Hnew, Hno.
    destruct (search (entry_at t x) nm n 0); reflexivity.
  - revert W6. unfold nblk. change (Z.of_nat 16 =? 0) with false. Z.div_mod_to_equations; lia.
  - done.
Qed.

Lemma dirlink_ok devsw_read devsw_write s t dp x name inum : dir_ok s t dp x → Forall is_u8 name → 0 < inum < 2^16 →
  dir_lookup t x name = None → tx_size t ≤ 4096 → i_size x + 16 ≤ MAXFILE * BSIZE →
  Z.of_nat (length (tx_log t)) + 7 ≤ Z.of_nat (tx_cap t) → Z.of_nat (length (tx_log t) + length (tx_held t)) + 8 ≤ 30 →
  (1 < nfree sb t)%nat →
  ∃ b x' t', dirlink devsw_read devsw_write dp name inum s = Ok (0, put_inode dp x' (set_blocks b s)) ∧
    linked s t dp x name inum (put_inode dp x' (set_blocks b s)) t' x'.
Proof.
  intros Hd Hname Hinum Hnone H4096 Hmax Hcap Hroom Hfree. change (MAXFILE * BSIZE) with (140 * 512) in Hmax.
  pose proof (rw_size _ _ _ _ _ (dir_rw _ _ _ _ Hd)) as Hsz. pose proof (dir_size _ _ _ _ Hd) as Hm.
  assert (Hr : room t) by (unfold room; lia). pose proof (entry_count x ltac:(lia) Hm) as Hn.
  unfold dirlink. destruct (dirlookup_eq devsw_read s t dp x name Hname Hr Hd) as (b1 & Hl1 & H1). rewrite Hnone in H1.
  rewrite (bind_Ok_l _ _ _ _ _ H1). pose proof (dir_blocks s t dp x b1 Hd Hl1) as Hd1.
  rewrite (bind_Ok_l _ _ _ _ _ (the_inode_ok _ dp x (dir_inode _ _ _ _ Hd1))).
  destruct (free_entry_ok devsw_read t dp x (Z.to_nat (i_size x / 16)) Hr (Z.to_nat (i_size x / sizeof_dirent + 1))
    (set_blocks b1 s) 0 Hd1) as (b2 & H2 & Hl2); [lia|lia|change sizeof_dirent with 16; lia|].
  rewrite (bind_Ok_l _ _ _ _ _ H2), set_blocks_twice. pose proof (dir_blocks s t dp x b2 Hd Hl2) as Hd2.
  destruct (free_from_spec t x (Z.to_nat (i_size x / 16)) 0) as (k & Hk & -> & Hz). rewrite Z.add_0_l in *.
  rewrite Z.mod_small by lia. fold (name_field name). cbv zeta. set (e := put_dirent (Dirent inum (name_field name))).
  assert (Hlen : length e = 16%nat).
  { unfold e, put_dirent. cbn [de_name de_inum]. by rewrite length_app, length_name_field. }
  assert (Hnb : nblk (16 * Z.of_nat k) (Z.of_nat 16) = 1) by (unfold nblk; simpl; Z.div_mod_to_equations; lia).
  destruct (writei_ok sb devsw_write (set_blocks b2 s) t dp x (16 * Z.of_nat k) e (dir_rw _ _ _ _ Hd2) H4096)
    as [(b3 & x' & t' & H3 & Hw)|[_ Hsp]]; [lia|lia|rewrite Hlen, Hnb; lia|rewrite Hlen, Hnb; lia| |].
  - rewrite set_blocks_twice in H3, Hw. rewrite (bind_Ok_l _ _ _ _ _ H3), Hlen. exists b3, x', t'. split; [done|].
    destruct (entry_written (set_blocks b2 s) t dp x k name inum (put_inode dp x' (set_blocks b3 s)) t' x') as [L1 L2 L3 L4 L5];
      [done..|lia|done|done|]. by constructor.
  - exfalso. rewrite Hlen, Hnb in Hsp. unfold FsOk.space in Hsp. lia.
Qed.

(** C17: linking a name and looking it up are inverse.  After [dirlink] of a name
    that the directory did not have, [dirlookup] of it finds the inode number
    just linked, whatever entry was reused or appended, and every name that
    differs from it gives what it gave before; names are compared as the code
    compares them, up to the first NUL or 14 characters. *)
Theorem dirlink_dirlookup devsw_read devsw_write s t dp x name inum (Hdir : dir_ok s t dp x)
    (Hname : Forall is_u8 name) (Hinum : 0 < inum < 2^16) (Hnew : dir_lookup t x name = None)
    (Hsize : tx_size t ≤ FSSIZE) (Hmax : i_size x + 16 ≤ MAXFILE * BSIZE)
    (Hlog : Z.of_nat (length (tx_log t)) + MAXOPBLOCKS ≤ Z.of_nat (tx_cap t) ≤ LOGSIZE - 1)
    (Hheld : tx_held t = []) (Hfree : (1 < nfree sb t)%nat) :
  ∃ s' t' x', dirlink devsw_read devsw_write dp name inum s = Ok (0, s') ∧ dir_ok s' t' dp x' ∧
    (∃ off b, dirlookup devsw_read dp name s' = (ip ← iget 1 inum; mret (Some (ip, off))) (set_blocks b s')) ∧
    (∀ nm, dname nm ≠ dname name → dir_lookup t' x' nm = dir_lookup t x nm).
Proof.
  change FSSIZE with 1000 in Hsize. change MAXOPBLOCKS with 10 in Hlog. change (LOGSIZE - 1) with 29 in Hlog.
  destruct (dirlink_ok devsw_read devsw_write s t dp x name inum) as (b & x' & t' & H & [L1 (off & L2) L3 L4 L5]);
    try done; [lia|lia|rewrite Hheld; simpl; lia|].
  eexists _, t', x'. split; [exact H|]. split; [done|]. split; [|done].
  destruct (dirlookup_eq devsw_read (put_inode dp x' (set_blocks b s)) t' dp x' name Hname) as (b' & Hl & Hb'); [|done|].
  { unfold room. rewrite L5, Hheld. simpl. lia. }
  rewrite L2 in Hb'. by exists off, b'.
Qed.
End Dir.

(** ** A concrete directory *)

(** The empty directory of the file system of [FsOk]. *)
Definition demo_dir : inode := set_itype T_DIR demo_inode.
Lemma demo_dir_ok : dir_ok demo_sb (demo_fs [demo_dir]) demo_tx 0 demo_dir.
Proof.
  constructor; [by apply demo_rw_type|done|done|]. intros o Ho. change (i_size demo_dir) with 0 in Ho. lia.
Qed.
Lemma dirlink_dirlookup_witness :
  ∃ s', dirlink (λ _, None) (λ _, None) 0 [99; 97; 116; 0] 7 (demo_fs [demo_dir]) = Ok (0, s') ∧
    ∃ off b, dirlookup (λ _, None) 0 [99; 97; 116; 0] s' = (ip ← iget 1 7; mret (Some (ip, off))) (set_blocks b s').
Proof.
  destruct (dirlink_dirlookup demo_sb (λ _, None) (λ _, None) (demo_fs [demo_dir]) demo_tx 0 demo_dir [99; 97; 116; 0] 7
    demo_dir_ok) as (s' & t' & x' & H & _ & Hl & _).
  - repeat (constructor; [unfold is_u8; lia|]). constructor.
  - lia.
  - reflexivity.
  - done.
  - done.
  - done.
  - reflexivity.
  - pose proof demo_nfree. lia.
  - exists s'. split; [exact H|exact Hl].
Defined.
