(* ===== verification/FsPath.v ===== *)
(** * Path names

    [namex] of [fs.c] against the tree it walks.  The tree is what the disk
    holds: an inode number denotes its [dinode], a directory the entries in its
    contents.  [namei] returns the inode the path leads to, or nothing when a
    component is missing or is not a directory, and in both cases leaves the
    reference counts of all other inodes as they were. *)

From S2P Require Import Prelude Machine Str Spin Bio Log Fs Txn FsOk FsData FsDir.
Local Open Scope Z_scope.

(** ** Components of a path *)

Lemma skip_slashes_length p : (length (skip_slashes p) ≤ length p)%nat.
Proof. induction p as [|c p IH]; simpl; [lia|]. destruct (c =? 47); simpl; lia. Qed.
Lemma skip_slashes_head p c q : skip_slashes p = c :: q → c ≠ 47.
Proof. induction p as [|d p IH]; simpl; [done|]. destruct (Z.eqb_spec d 47); [done|]. by intros [= <- _]. Qed.
Lemma element_cons c p : c ≠ 47 → element (c :: p) = c :: element p.
Proof. intros H. simpl. by rewrite (proj2 (Z.eqb_neq _ _) H). Qed.
Lemma element_length p : (length (element p) ≤ length p)%nat.
Proof. induction p as [|c p IH]; simpl; [lia|]. destruct (c =? 47); simpl; lia. Qed.

(** The maximal runs of other characters between slashes. *)
Fixpoint components_n (k : nat) (p : list Z) : list (list Z) :=
  match k with
  | O => []
  | S k' => match skip_slashes p with
            | [] => []
            | q => element q :: components_n k' (drop (length (element q)) q)
            end
  end.
Definition components (p : list Z) : list (list Z) := components_n (length p) p.

Lemma rest_length p c q : skip_slashes p = c :: q →
  (length (drop (length (element (c :: q))) (c :: q)) < length p)%nat.
Proof.
  intros H. pose proof (skip_slashes_length p) as Hl. rewrite H in Hl. rewrite (element_cons c q) by by eapply skip_slashes_head.
  simpl in *. rewrite length_drop. pose proof (element_length q). lia.
Qed.
Lemma components_n_mono k k' p : (length p ≤ k)%nat → (length p ≤ k')%nat → components_n k p = components_n k' p.
Proof.
  revert k' p. induction k as [|k IH]; intros k' p Hk Hk'.
  - destruct p; [|simpl in Hk; lia]. by destruct k'.
  - destruct k' as [|k']; [destruct p; [done|simpl in Hk'; lia]|]. cbn [components_n].
    destruct (skip_slashes p) as [|c q] eqn:E; [done|]. f_equal. pose proof (rest_length p c q E). apply IH; lia.
Qed.
Lemma skip_slashes_idem p : skip_slashes (skip_slashes p) = skip_slashes p.
Proof. induction p as [|c p IH]; [done|]. cbn [skip_slashes]. destruct (c =? 47) eqn:E; [done|]. cbn [skip_slashes]. by rewrite E. Qed.
Lemma components_skip p : components (skip_slashes p) = components p.
Proof.
  unfold components. pose proof (skip_slashes_length p). rewrite (components_n_mono _ (length p)) by lia.
  destruct (length p); [done|]. cbn [components_n]. by rewrite skip_slashes_idem.
Qed.
Lemma components_eq p : components p =
  match skip_slashes p with [] => [] | q => element q :: components (drop (length (element q)) q) end.
Proof.
  unfold components at 1. destruct p as [|c0 p0] eqn:Ep; [done|]. rewrite <- Ep.
  assert (Hp : length p = S (length p0)) by by rewrite Ep. clear Ep. rewrite Hp. cbn [components_n].
  destruct (skip_slashes p) as [|c q] eqn:E; [done|]. f_equal. unfold components.
  pose proof (rest_length p c q E) as Hl. apply components_n_mono; lia.
Qed.

(** [skipelem] takes off the first component and leaves its name in [name]. *)
Lemma skipelem_spec path name : length name = 14%nat →
  match skipelem path name with
  | None => components path = []
  | Some (path', name') => ∃ c, components path = c :: components path' ∧ length name' = 14%nat ∧
      (length path' < length path)%nat ∧ dname name' = dname c ∧ (path' = [] ↔ components path' = []) ∧ c ≠ []
  end.
Proof.
  intros Hn. unfold skipelem. rewrite components_eq. destruct (skip_slashes path) as [|d q] eqn:E; [done|].
  set (c := element (d :: q)). exists c. rewrite components_skip. split; [done|].
  pose proof (rest_length path d q E) as Hr. fold c in Hr.
  pose proof (skip_slashes_length (drop (length c) (d :: q))) as Hs. split; [|split; [lia|split; [|split]]].
  - destruct (Nat.leb_spec 14 (length c)); rewrite !length_app, ?length_take, ?length_drop, ?length_cons, ?length_nil; lia.
  - unfold dname. destruct (Nat.leb_spec 14 (length c)) as [Hc|Hc]; apply cname_shift_nul.
    + intros i Hi. left. unfold name_mem. rewrite lookup_app_l by (rewrite length_take; lia).
      by rewrite lookup_take_lt by lia.
    + intros i Hi. unfold name_mem. destruct (decide (Z.to_nat (0 + i) < length c)%nat) as [Hlt|Hge].
      * left. by rewrite lookup_app_l.
      * destruct (decide (i = Z.of_nat (length c))) as [->|]; [left|right].
        -- rewrite lookup_app_r by lia. replace (Z.to_nat (0 + Z.of_nat (length c)) - length c)%nat with 0%nat by lia.
           simpl. by rewrite lookup_ge_None_2 by lia.
        -- exists (Z.of_nat (length c)). split; [lia|]. by rewrite lookup_ge_None_2 by lia.
  - rewrite components_eq. by destruct (skip_slashes (drop _ _)).
  - unfold c. rewrite (element_cons d q); [done|]. by eapply skip_slashes_head.
Qed.

Lemma skip_slashes_Forall (Q : Z → Prop) p : Forall Q p → Forall Q (skip_slashes p).
Proof. induction 1; simpl; [done|]. destruct (_ =? _); [done|by constructor]. Qed.
Lemma element_Forall (Q : Z → Prop) p : Forall Q p → Forall Q (element p).
Proof. induction 1; simpl; [done|]. destruct (_ =? _); [done|by constructor]. Qed.
Lemma skipelem_bytes path name path' name' : skipelem path name = Some (path', name') →
  Forall is_u8 path → Forall is_u8 name → Forall is_u8 path' ∧ Forall is_u8 name'.
Proof.
  unfold skipelem. intros H Hp Hn. pose proof (skip_slashes_Forall _ _ Hp) as Hq. destruct (skip_slashes path) as [|c q]; [done|].
  injection H as <- <-. split; [by apply skip_slashes_Forall, Forall_drop|].
  pose proof (element_Forall _ _ Hq). assert (is_u8 0) by done. case_match; repeat apply Forall_app_2;
    auto using Forall_take, Forall_drop, Forall_cons_2, Forall_nil_2.
Qed.

(** ** The tree on disk *)

Section Tree.
Context {B : Type} `{!BlockLayer B} `{!LayerOk B}.
Variable sb : superblock.
Notation fs := (fsys B).
Implicit Types (s : fs) (t : txn) (x : inode) (i j : Z).

Definition disk_inode t i : dinode := get_dinode (tx_view t (IBLOCK i sb)) (Z.to_nat (i mod IPB)).
(** The inode as [ilock] reads it. *)
Definition as_inode t i : inode :=
  let d := disk_inode t i in Inode 1 i 0 None 1 (d_type d) (d_major d) (d_minor d) (d_nlink d) (d_size d) (d_addrs d).
(** Following the components of a path from inode [i]: where they lead, or, for
    [parent], the directory the last one is to be looked up in and that component. *)
Fixpoint walk (parent : bool) t i (cs : list (list Z)) : option (Z * list Z) :=
  match cs with
  | [] => if parent then None else Some (i, [])
  | c :: cs' =>
      if d_type (disk_inode t i) =? T_DIR then
        if parent && bool_decide (cs' = []) then Some (i, c) else
        match dir_lookup t (as_inode t i) c with Some (j, _) => walk parent t j cs' | None => None end
      else None
  end.

(** A directory on disk. *)
Record dir_disk t x : Prop := {
  dd_file : file_ok sb t x;
  dd_size : 0 ≤ i_size x ≤ 140 * 512;
  dd_mod : i_size x mod 16 = 0;
  dd_holes : no_holes t x;
  dd_ib : good sb t (iblock sb x);
  dd_sep : ∀ k, 0 ≤ k ≤ 140 → slot t x k ≠ iblock sb x;
  dd_bytes : ∀ o, 0 ≤ o < i_size x → is_u8 (fbyte t x o);
}.
(** An inode number a path can lead to: linked, in use, and a proper directory
    if it is one. *)
Record inode_ok t i : Prop := {
  io_block : 0 ≤ IBLOCK i sb < tx_size t ∧ IBLOCK i sb ∉ (tx_held t).*2;
  io_type : d_type (disk_inode t i) ≠ 0;
  io_link : 1 ≤ d_nlink (disk_inode t i);
  io_dir : d_type (disk_inode t i) = T_DIR → dir_disk t (as_inode t i);
}.
(** The inode numbers [P] form a tree: directories lead to members. *)
Definition tree t (P : Z → Prop) : Prop := ∀ i, P i → inode_ok t i ∧
  (d_type (disk_inode t i) = T_DIR → ∀ c j o, dir_lookup t (as_inode t i) c = Some (j, o) → P j).

(** What depends on the addresses and size of an inode only. *)
Lemma slot_meta t x y k : i_addrs x = i_addrs y → slot t x k = slot t y k.
Proof. intros H. unfold slot, addr, ind. by rewrite H. Qed.
Lemma fbyte_meta t x y o : i_addrs x = i_addrs y → fbyte t x o = fbyte t y o.
Proof. intros H. unfold fbyte, fblock, addr, ind. by rewrite H. Qed.
Lemma dir_lookup_meta t x y c : i_addrs x = i_addrs y → i_size x = i_size y → dir_lookup t x c = dir_lookup t y c.
Proof.
  intros Ha Hs. unfold dir_lookup. rewrite Hs. apply search_ext. intros k Hk. left. unfold entry_at, fbytes. f_equal.
  apply list_fmap_ext. intros n z _. by apply fbyte_meta.
Qed.
Lemma dir_lookup_name t x c c' : dname c = dname c' → dir_lookup t x c = dir_lookup t x c'.
Proof.
  intros H. unfold dir_lookup. generalize 0 as off. generalize (Z.to_nat (i_size x / 16)) as n.
  induction n as [|n IH]; intros off; [done|]. cbn [search]. unfold entry_is. rewrite H, IH. done.
Qed.
Lemma dir_disk_meta t x y : i_addrs x = i_addrs y → i_size x = i_size y → i_dev x = i_dev y → i_inum x = i_inum y →
  dir_disk t y → dir_disk t x.
Proof.
  intros Ha Hs Hd Hi [[F1 F2 F3 F4 F5] D2 D3 D4 D5 D6 D7]. assert (Hib : iblock sb x = iblock sb y) by (unfold iblock; by rewrite Hi).
  assert (Hsl : ∀ k, slot t x k = slot t y k) by (intros; by apply slot_meta).
  constructor; rewrite ?Hs, ?Hib; try done.
  - constructor; rewrite ?Hd, ?Ha; try done.
    + intros k. rewrite Hsl. apply F4.
    + intros k k'. rewrite !Hsl. apply F5.
  - intros bn Hb. rewrite Hs. unfold addr, ind. rewrite Ha. by apply D4.
  - intros k. rewrite Hsl. apply D6.
  - intros o Ho. rewrite (fbyte_meta t x y) by done. by apply D7.
Qed.
Lemma dir_ok_intro s t k x : fs_ok sb s t → icache s !! k = Some x → i_type x = T_DIR → dir_disk t x → dir_ok sb s t k x.
Proof.
  intros Hfs Hk Hty [D1 D2 D3 D4 D5 D6 D7]. constructor; [|done..].
  constructor; [by constructor|by rewrite Hty|done..].
Qed.

(** ** The inode table *)

(** References to inode [i] in the table. *)
Definition weight i x : Z := if i_inum x =? i then i_ref x else 0.
Fixpoint nref (l : list inode) i : Z := match l with [] => 0 | x :: l' => weight i x + nref l' i end.
Fixpoint free_slots (l : list inode) : Z :=
  match l with [] => 0 | x :: l' => (if i_ref x =? 0 then 1 else 0) + free_slots l' end.
Lemma nref_insert l k x y i : l !! k = Some x → nref (<[k := y]> l) i = nref l i - weight i x + weight i y.
Proof. revert k. induction l as [|z l IH]; intros [|k] H; simpl in *; simplify_eq; [lia|]. rewrite IH by done. lia. Qed.
Lemma free_insert l k x y : l !! k = Some x →
  free_slots (<[k := y]> l) = free_slots l - (if i_ref x =? 0 then 1 else 0) + (if i_ref y =? 0 then 1 else 0).
Proof. revert k. induction l as [|z l IH]; intros [|k] H; simpl in *; simplify_eq; [lia|]. rewrite IH by done. lia. Qed.

(** A table entry: of device 1, and what it caches is what the disk holds. *)
Definition cached_ok t x : Prop := 0 ≤ i_ref x ∧
  (0 < i_ref x → i_dev x = 1 ∧ (i_valid x = 0 ∨ i_valid x = 1 ∧ dinode_of x = disk_inode t (i_inum x))).
Record table_ok t (l : list inode) : Prop := {
  tb_ok : ∀ k x, l !! k = Some x → cached_ok t x;
  tb_uniq : ∀ k k' x y, l !! k = Some x → l !! k' = Some y → 0 < i_ref x → 0 < i_ref y → i_inum x = i_inum y → k = k';
}.
Lemma nref_zero l i : (∀ k x, l !! k = Some x → 0 < i_ref x → i_inum x ≠ i) → (∀ k x, l !! k = Some x → 0 ≤ i_ref x) →
  nref l i = 0.
Proof.
  induction l as [|x l IH]; intros H H0; [done|]. cbn [nref]. rewrite IH.
  - unfold weight. destruct (Z.eqb_spec (i_inum x) i); [|lia]. pose proof (H0 0%nat x eq_refl).
    destruct (decide (0 < i_ref x)) as [Hp|]; [by apply (H 0%nat x eq_refl) in Hp|lia].
  - intros k y. apply (H (S k)).
  - intros k y. apply (H0 (S k)).
Qed.
Lemma nref_at t l k x : table_ok t l → l !! k = Some x → 0 < i_ref x → nref l (i_inum x) = i_ref x.
Proof.
  intros Ht Hk Hr. assert (Hd : nref (<[k := set_iref 0 x]> l) (i_inum x) = 0).
  { apply nref_zero.
    - intros k' y Hy Hry He. assert (Hne : k' ≠ k).
      { intros ->. rewrite list_lookup_insert_eq in Hy by by eapply lookup_lt_Some. simplify_eq. simpl in Hry. lia. }
      rewrite list_lookup_insert_ne in Hy by done. by apply Hne, (tb_uniq _ _ Ht k' k y x).
    - intros k' y Hy. destruct (decide (k' = k)) as [->|Hne].
      + rewrite list_lookup_insert_eq in Hy by by eapply lookup_lt_Some. by simplify_eq.
      + rewrite list_lookup_insert_ne in Hy by done. by apply (tb_ok _ _ Ht k' y). }
  rewrite (nref_insert l k x) in Hd by done. unfold weight in Hd. simpl in Hd. rewrite !Z.eqb_refl in Hd. lia.
Qed.
(** Changing one entry. *)
Lemma table_insert t l k x y : table_ok t l → l !! k = Some x → cached_ok t y →
  (0 < i_ref y → i_inum y = i_inum x ∧ 0 < i_ref x ∨ nref l (i_inum y) = 0) → table_ok t (<[k := y]> l).
Proof.
  intros Ht Hk Hy Hn. assert (Hlt : (k < length l)%nat) by by eapply lookup_lt_Some.
  assert (Hother : ∀ k' z, k' ≠ k → l !! k' = Some z → 0 < i_ref z → 0 < i_ref y → i_inum z ≠ i_inum y).
  { intros k' z Hne Hz Hrz Hry He. destruct (Hn Hry) as [[Hi Hrx]|H0].
    - apply Hne, (tb_uniq _ _ Ht k' k z x); try done. congruence.
    - rewrite <- He, (nref_at t l k' z Ht Hz Hrz) in H0. lia. }
  constructor.
  - intros k' z Hz. destruct (decide (k' = k)) as [->|Hne].
    + rewrite list_lookup_insert_eq in Hz by done. by simplify_eq.
    + rewrite list_lookup_insert_ne in Hz by done. by apply (tb_ok _ _ Ht k' z).
  - intros k1 k2 z1 z2 H1 H2 R1 R2 He. destruct (decide (k1 = k)) as [->|N1], (decide (k2 = k)) as [->|N2]; try done.
    + rewrite list_lookup_insert_eq in H1 by done. rewrite list_lookup_insert_ne in H2 by done. simplify_eq.
      by destruct (Hother k2 z2 N2 H2 R2 R1).
    + rewrite list_lookup_insert_eq in H2 by done. rewrite list_lookup_insert_ne in H1 by done. simplify_eq.
      by destruct (Hother k1 z1 N1 H1 R1 R2).
    + rewrite list_lookup_insert_ne in H1, H2 by done. by apply (tb_uniq _ _ Ht k1 k2 z1 z2).
Qed.

(** *** One more reference *)

Definition one (b : bool) : Z := if b then 1 else 0.
(** Entry [k] has become [y], a referenced entry of inode [i], and this is one
    reference more. *)
Record referenced t (l : list inode) i (k : nat) x y : Prop := {
  rf_at : l !! k = Some x;
  rf_table : table_ok t (<[k := y]> l);
  rf_inum : i_inum y = i;
  rf_pos : 0 < i_ref y;
  rf_lock : i_lock y = i_lock x;
  rf_same : 0 < i_ref x → y = set_iref (i_ref x + 1) x;
  rf_nref : ∀ j, nref (<[k := y]> l) j = nref l j + one (j =? i);
  rf_free : free_slots (<[k := y]> l) = free_slots l - one (nref l i =? 0);
}.
Lemma more_ref t l k x : table_ok t l → l !! k = Some x → 0 < i_ref x < 2^31 - 1 →
  referenced t l (i_inum x) k x (set_iref (sint32 (i_ref x + 1)) x).
Proof.
  intros Ht Hk Hr. rewrite sint32_id by (unfold is_i32; lia). pose proof (nref_at t l k x Ht Hk ltac:(lia)) as Hn.
  constructor; try done; simpl; [|lia| |].
  - apply (table_insert t l k x); [done|done| |by left; simpl; lia].
    destruct (tb_ok _ _ Ht k x Hk) as [_ H]. split; simpl; [lia|]. intros _. apply H. lia.
  - intros j. rewrite (nref_insert l k x) by done. unfold weight, one. simpl. rewrite (Z.eqb_sym (i_inum x)).
    destruct (j =? i_inum x); lia.
  - rewrite (free_insert l k x), Hn by done. simpl.
    rewrite (proj2 (Z.eqb_neq (i_ref x) 0)), (proj2 (Z.eqb_neq (i_ref x + 1) 0)) by lia. simpl. lia.
Qed.
Lemma free_slots_find l : 0 < free_slots l → ∃ k, find_index (λ x, i_ref x =? 0) l = Some k.
Proof.
  induction l as [|x l IH]; simpl; [lia|]. destruct (i_ref x =? 0); [by eexists|]. intros H.
  destruct IH as [k ->]; [lia|]. by eexists.
Qed.
Lemma iget_ok s t i : table_ok t (icache s) → nref (icache s) i < 2^31 - 1 →
  0 < free_slots (icache s) ∨ 0 < nref (icache s) i →
  ∃ k x y, iget 1 i s = Ok (k, put_inode k y s) ∧ referenced t (icache s) i k x y.
Proof.
  intros Ht Hmax Hroom. set (l := icache s) in *. unfold iget.
  rewrite (bind_Ok_l _ _ _ l s) by reflexivity.
  destruct (find_index _ l) as [k|] eqn:Hf.
  - apply find_index_Some in Hf as [(x & Hk & Hx) _]. apply andb_true_iff in Hx as [[Hr%Z.ltb_lt _]%andb_true_iff Hi%Z.eqb_eq]. subst i.
    rewrite (nref_at t l k x Ht Hk Hr) in Hmax.
    exists k, x, (set_iref (sint32 (i_ref x + 1)) x). split; [|by apply more_ref].
    by rewrite (bind_Ok_l _ _ _ _ _ (upd_inode_ok s k x _ Hk)).
  - assert (Hz : nref l i = 0).
    { apply nref_zero; [|intros k x Hk; by apply (tb_ok _ _ Ht k x)]. intros k x Hk Hr Hi.
      apply find_index_None with (j := k) (y := x) in Hf; [|done]. destruct (tb_ok _ _ Ht k x Hk) as [_ H].
      destruct (H Hr) as [Hd _]. rewrite Hd, Hi, !Z.eqb_refl, (proj2 (Z.ltb_lt _ _) Hr) in Hf. done. }
    destruct Hroom as [Hfree|]; [|lia]. destruct (free_slots_find l Hfree) as [k Hk]. rewrite Hk.
    apply find_index_Some in Hk as [(x & Hk & H0) _]. apply Z.eqb_eq in H0.
    eexists k, x, _. split; [by rewrite (bind_Ok_l _ _ _ _ _ (upd_inode_ok s k x _ Hk))|].
    constructor; try done; simpl.
    + apply (table_insert t l k x); [done|done|split; simpl; [lia|by auto]|]. intros _. by right.
    + intros ?. lia.
    + intros j. rewrite (nref_insert l k x) by done. unfold weight, one. simpl. rewrite H0, (Z.eqb_sym i).
      destruct (i_inum x =? j), (j =? i); lia.
    + rewrite (free_insert l k x), H0, Hz by done. simpl. lia.
Qed.

(** *** Locking and letting go *)

(** Entry [x] as [ilock] leaves it. *)
Definition locked_inode t x (p : Z) : inode :=
  let d := disk_inode t (i_inum x) in
  Inode (i_dev x) (i_inum x) (i_ref x) (Some p) 1 (d_type d) (d_major d) (d_minor d) (d_nlink d) (d_size d) (d_addrs d).
Lemma dinode_locked t x p : dinode_of (locked_inode t x p) = disk_inode t (i_inum x).
Proof. reflexivity. Qed.
Lemma put_at s k x y : icache s !! k = Some x → icache (put_inode k y s) !! k = Some y.
Proof. intros H. by apply (put_inode_at s k y x). Qed.
Lemma i_acquire_ok s k x : icache s !! k = Some x → i_lock x = None →
  i_acquire k s = Ok (tt, put_inode k (set_ilock (Some (fpid s)) x) s).
Proof.
  intros Hk Hl. unfold i_acquire. rewrite (bind_Ok_l _ _ _ _ _ (the_inode_ok s k x Hk)), (bind_Ok_l _ _ _ (fpid s) s) by reflexivity.
  rewrite Hl. by apply upd_inode_ok.
Qed.
Lemma ilock_ok s t k x : lay (blocks s) t → fsb s = sb → room t → cached_ok t x → icache s !! k = Some x → 0 < i_ref x →
  i_lock x = None → inode_ok t (i_inum x) →
  ∃ b, ilock k s = Ok (tt, put_inode k (locked_inode t x (fpid s)) (set_blocks b s)) ∧ lay b t.
Proof.
  intros Hlay Hsb Hroom [_ Hc] Hk Hr Hl [[Hb Hh] Hty _ _]. destruct (Hc Hr) as [Hdev Hval]. unfold ilock.
  rewrite (bind_Ok_l _ _ _ _ _ (the_inode_ok s k x Hk)), (proj2 (Z.ltb_ge (i_ref x) 1)) by lia.
  rewrite (bind_Ok_l _ _ _ _ _ (i_acquire_ok s k x Hk Hl)). set (x1 := set_ilock (Some (fpid s)) x).
  set (s1 := put_inode k x1 s). assert (Hk1 : icache s1 !! k = Some x1) by by apply (put_at s k x).
  rewrite (bind_Ok_l _ _ _ _ _ (the_inode_ok s1 k x1 Hk1)). change (i_valid x1) with (i_valid x).
  destruct Hval as [Hv|[Hv Hd]].
  - rewrite Hv. cbn [Z.eqb]. rewrite (bind_Ok_l _ _ _ sb s1) by (unfold gets; by rewrite <- Hsb).
    change (i_dev x1) with (i_dev x). change (i_inum x1) with (i_inum x). rewrite Hdev.
    destruct (bread_rule s1 t (IBLOCK (i_inum x) sb) Hlay Hb Hh Hroom) as (h & b & H1 & Hnew & Hl1).
    rewrite (bind_Ok_l _ _ _ _ _ H1).
    rewrite (bind_Ok_l _ _ _ _ _ (data_rule (set_blocks b s1) (tx_hold h _ t) h (IBLOCK (i_inum x) sb) Hl1 ltac:(left))).
    change (tx_view (tx_hold h (IBLOCK (i_inum x) sb) t)) with (tx_view t). fold (disk_inode t (i_inum x)). cbv zeta.
    erewrite bind_Ok_l by (by apply upd_inode_ok).
    set (s2 := put_inode k _ (set_blocks b s1)). destruct (brelse_rule s2 t h (IBLOCK (i_inum x) sb) Hl1 Hnew) as (b2 & H2 & Hl2).
    rewrite (bind_Ok_l _ _ _ _ _ H2). erewrite bind_Ok_l by (apply upd_inode_ok; by eapply (put_at (set_blocks b s1))).
    rewrite (proj2 (Z.eqb_neq _ _) Hty). exists b2. split; [|done].
    unfold mret, M_ret. f_equal. f_equal. unfold s2, s1, put_inode, locked_inode, set_blocks, set_icache. simpl.
    rewrite !list_insert_insert_eq. by rewrite Hdev.
  - rewrite Hv. cbn [Z.eqb]. exists (blocks s). split; [|done]. rewrite set_blocks_id. unfold mret, M_ret. f_equal. f_equal.
    unfold s1, put_inode. do 2 f_equal. unfold locked_inode, x1. rewrite <- Hd. destruct x. simpl in *. by subst.
Qed.

(** The entry with one reference less, unlocked. *)
Definition put_down x : inode := set_iref (i_ref x - 1) (set_ilock None x).
Lemma iput_ok s k x : icache s !! k = Some x → 0 < i_ref x ≤ 2^31 - 1 → i_lock x = None → 1 ≤ i_nlink x ∨ i_valid x = 0 →
  iput k s = Ok (tt, put_inode k (put_down x) s).
Proof.
  intros Hk Hr Hl Hn. unfold iput. rewrite (bind_Ok_l _ _ _ _ _ (i_acquire_ok s k x Hk Hl)).
  set (x1 := set_ilock (Some (fpid s)) x). set (s1 := put_inode k x1 s).
  assert (Hk1 : icache s1 !! k = Some x1) by by apply (put_at s k x).
  rewrite (bind_Ok_l _ _ _ _ _ (the_inode_ok s1 k x1 Hk1)).
  assert (negb (i_valid x1 =? 0) && (i_nlink x1 =? 0) && (i_ref x1 =? 1) = false) as ->.
  { simpl. destruct Hn as [Hn|Hv]; [|by rewrite Hv]. rewrite (proj2 (Z.eqb_neq (i_nlink x) 0)) by lia.
    by rewrite andb_false_r. }
  cbn [whenM]. rewrite (bind_Ok_l _ _ _ tt s1) by reflexivity.
  unfold i_release. rewrite (bind_Ok_l _ _ _ _ _ (upd_inode_ok s1 k x1 _ Hk1)).
  rewrite (upd_inode_ok _ k (set_ilock None x1)) by (by apply (put_at s1 k x1)). f_equal. f_equal.
  unfold s1. rewrite !put_put_inode. simpl. rewrite sint32_id by (unfold is_i32; lia). done.
Qed.
Lemma iunlock_ok s k x : icache s !! k = Some x → 0 < i_ref x → i_lock x = Some (fpid s) →
  iunlock k s = Ok (tt, put_inode k (set_ilock None x) s).
Proof.
  intros Hk Hr Hl. unfold iunlock, i_holding.
  rewrite bind_assoc, (bind_Ok_l _ _ _ _ _ (the_inode_ok s k x Hk)).
  rewrite bind_assoc, (bind_Ok_l _ _ _ (fpid s) s) by reflexivity. rewrite Hl, bool_decide_true by done.
  rewrite (bind_Ok_l _ _ _ true s) by reflexivity. rewrite (bind_Ok_l _ _ _ _ _ (the_inode_ok s k x Hk)).
  rewrite (proj2 (Z.ltb_ge (i_ref x) 1)) by lia. simpl. unfold i_release. by apply upd_inode_ok.
Qed.
Lemma iunlockput_ok s k x : icache s !! k = Some x → 0 < i_ref x ≤ 2^31 - 1 → i_lock x = Some (fpid s) → 1 ≤ i_nlink x →
  iunlockput k s = Ok (tt, put_inode k (put_down x) s).
Proof.
  intros Hk Hr Hl Hn. unfold iunlockput. rewrite (bind_Ok_l _ _ _ _ _ (iunlock_ok s k x Hk ltac:(lia) Hl)).
  rewrite (iput_ok _ k (set_ilock None x)); [by rewrite put_put_inode|by apply (put_at s k x)|done|done|by left].
Qed.

(** ** A walk *)

Lemma nref_nonneg t l i : table_ok t l → 0 ≤ nref l i.
Proof.
  intros Ht. assert (H : ∀ k x, l !! k = Some x → 0 ≤ i_ref x) by (intros k x Hk; by apply (tb_ok _ _ Ht k x)).
  clear Ht. induction l as [|x l IH]; simpl; [lia|]. pose proof (H 0%nat x eq_refl). unfold weight.
  assert (0 ≤ nref l i) by (apply IH; intros k y; apply (H (S k))). destruct (i_inum x =? i); lia.
Qed.
(** One reference less. *)
Lemma less_ref t l k x : table_ok t l → l !! k = Some x → 0 < i_ref x →
  table_ok t (<[k := put_down x]> l) ∧
  (∀ j, nref (<[k := put_down x]> l) j = nref l j - one (j =? i_inum x)) ∧
  free_slots (<[k := put_down x]> l) = free_slots l + one (nref l (i_inum x) =? 1).
Proof.
  intros Ht Hk Hr. destruct (tb_ok _ _ Ht k x Hk) as [_ H]. split_and!.
  - apply (table_insert t l k x); [done|done| |by left]. split; simpl; [lia|]. intros _. by apply H.
  - intros j. rewrite (nref_insert l k x) by done. unfold weight, one. simpl. rewrite (Z.eqb_sym (i_inum x)).
    destruct (j =? i_inum x); lia.
  - rewrite (free_insert l k x), (nref_at t l k x) by done. simpl. rewrite (proj2 (Z.eqb_neq (i_ref x) 0)) by lia.
    unfold one. destruct (Z.eqb_spec (i_ref x - 1) 0), (Z.eqb_spec (i_ref x) 1); lia.
Qed.

(** A state of the walk that started in [s0]: of the inode table, [k] alone may
    be locked, and compared with the start there are [d] more references and
    [f] fewer free entries. *)
Record walking t s0 s (lk : option nat) (d : Z → Z) (f : Z) : Prop := {
  wk_fs : fs_ok sb s t;
  wk_same : s = set_icache (icache s) (set_blocks (blocks s) s0);
  wk_table : table_ok t (icache s);
  wk_lock : ∀ k x, icache s !! k = Some x → i_lock x = if bool_decide (lk = Some k) then Some (fpid s0) else None;
  wk_nref : ∀ j, nref (icache s) j = nref (icache s0) j + d j;
  wk_free : free_slots (icache s) = free_slots (icache s0) - f;
}.
Definition only i (j : Z) : Z := one (j =? i).
(** Nothing is held on top of what the start held. *)
Definition back t s0 s : Prop := walking t s0 s None (λ _, 0) 0.
(** One reference, to inode [i] in entry [k]. *)
Definition at_inode t s0 s (k : nat) i : Prop :=
  walking t s0 s None (only i) (one (nref (icache s0) i =? 0)) ∧
  ∃ x, icache s !! k = Some x ∧ i_inum x = i ∧ 0 < i_ref x.
(** The same, with the entry locked and filled. *)
Definition in_inode t s0 s (k : nat) i : Prop :=
  walking t s0 s (Some k) (only i) (one (nref (icache s0) i =? 0)) ∧
  ∃ x, icache s !! k = Some x ∧ i_inum x = i ∧ 0 < i_ref x ∧ i_valid x = 1 ∧ dinode_of x = disk_inode t i.

Lemma walking_pid t s0 s lk d f : walking t s0 s lk d f → fpid s = fpid s0.
Proof. intros H. by rewrite (wk_same _ _ _ _ _ _ H). Qed.
(** Replacing an entry. *)
Lemma walking_put t s0 s lk d f b k x y lk' d' f' : walking t s0 s lk d f → lay b t → icache s !! k = Some x →
  table_ok t (<[k := y]> (icache s)) →
  (∀ j, nref (<[k := y]> (icache s)) j = nref (icache s0) j + d' j) →
  free_slots (<[k := y]> (icache s)) = free_slots (icache s0) - f' →
  i_lock y = (if bool_decide (lk' = Some k) then Some (fpid s0) else None) →
  (∀ k', k' ≠ k → lk = Some k' ↔ lk' = Some k') →
  walking t s0 (put_inode k y (set_blocks b s)) lk' d' f'.
Proof.
  intros [[W1 W2 W3] W4 W5 W6 W7 W8] Hb Hk Ht Hn Hf Hy Hl. constructor; try done.
  - rewrite W4. done.
  - simpl. intros k' z Hz. destruct (decide (k' = k)) as [->|Hne].
    + rewrite list_lookup_insert_eq in Hz by by eapply lookup_lt_Some. by simplify_eq.
    + rewrite list_lookup_insert_ne in Hz by done. rewrite (W6 k' z Hz). by erewrite bool_decide_ext by by apply Hl.
Qed.
Lemma walking_blocks t s0 s lk d f b : walking t s0 s lk d f → lay b t → walking t s0 (set_blocks b s) lk d f.
Proof. intros [[W1 W2 W3] W4 W5 W6 W7 W8] Hb. constructor; try done. rewrite W4. done. Qed.

Section Walk.
Variable (devsw_read : Z → option (nat → Z → M fs (Z * list Z))).
Variable (t : txn) (s0 : fs).
Hypothesis Hroom : room t.
Hypothesis Hfree : 2 ≤ free_slots (icache s0).
Hypothesis Hrefs : ∀ j, 0 ≤ nref (icache s0) j < 2^31 - 3.

Lemma walk_lock s k i : at_inode t s0 s k i → inode_ok t i →
  ∃ s', ilock k s = Ok (tt, s') ∧ in_inode t s0 s' k i.
Proof.
  intros [Hw (x & Hk & Hi & Hr)] Hio. pose proof (tb_ok _ _ (wk_table _ _ _ _ _ _ Hw) k x Hk) as Hc.
  destruct (ilock_ok s t k x) as (b & H & Hb); try done; [apply Hw..| |by rewrite Hi|].
  { apply (wk_lock _ _ _ _ _ _ Hw k x Hk). }
  exists (put_inode k (locked_inode t x (fpid s)) (set_blocks b s)). split; [done|]. split.
  - assert (Hu : ∀ j, nref (<[k:=locked_inode t x (fpid s)]> (icache s)) j = nref (icache s) j).
    { intros j. rewrite (nref_insert _ k x) by done. unfold weight. simpl. lia. }
    eapply walking_put; try done.
    + apply (table_insert t (icache s) k x); [apply Hw|done| |by left]. split; simpl; [lia|]. intros _.
      split; [by apply Hc|]. right. split; [done|]. apply dinode_locked.
    + intros j. rewrite Hu. apply Hw.
    + rewrite (free_insert _ k x) by done. simpl. rewrite (wk_free _ _ _ _ _ _ Hw). lia.
    + rewrite bool_decide_true by done. simpl. by rewrite (walking_pid _ _ _ _ _ _ Hw).
    + intros k' Hne. split; [done|]. intros [= ->]. done.
  - eexists. split; [by apply (put_at (set_blocks b s) k x)|]. simpl. split_and!; try done.
    rewrite dinode_locked. by rewrite Hi.
Qed.
Lemma in_bound s k i x : in_inode t s0 s k i → icache s !! k = Some x → i_inum x = i → 0 < i_ref x →
  i_ref x = nref (icache s0) i + 1.
Proof.
  intros [Hw _] Hk Hi Hr. pose proof (nref_at t (icache s) k x (wk_table _ _ _ _ _ _ Hw) Hk Hr) as <-.
  rewrite Hi, (wk_nref _ _ _ _ _ _ Hw).
  unfold only, one. by rewrite Z.eqb_refl.
Qed.
Lemma in_nlink x i : inode_ok t i → dinode_of x = disk_inode t i → 1 ≤ i_nlink x.
Proof. intros [_ _ H _] He. by rewrite <- He in H. Qed.
Lemma walk_unlock s k i : in_inode t s0 s k i → ∃ s', iunlock k s = Ok (tt, s') ∧ at_inode t s0 s' k i.
Proof.
  intros [Hw (x & Hk & Hi & Hr & Hv & Hd)]. pose proof (tb_ok _ _ (wk_table _ _ _ _ _ _ Hw) k x Hk) as Hc.
  eexists. split.
  { apply (iunlock_ok s k x Hk Hr). rewrite (wk_lock _ _ _ _ _ _ Hw k x Hk), bool_decide_true by done.
    by rewrite (walking_pid _ _ _ _ _ _ Hw). }
  rewrite <- (set_blocks_id s). split.
  - eapply walking_put; try done; [apply Hw|..].
    + apply (table_insert t (icache s) k x); [apply Hw|done|by apply Hc|by left].
    + intros j. rewrite (nref_insert _ k x) by done. unfold weight. simpl. rewrite (wk_nref _ _ _ _ _ _ Hw). lia.
    + rewrite (free_insert _ k x) by done. simpl. rewrite (wk_free _ _ _ _ _ _ Hw). lia.
    + intros k' Hne. split; [|done]. intros [= ->]. done.
  - eexists. split; [by apply (put_at (set_blocks (blocks s) s) k x)|]. done.
Qed.
Lemma walk_unlockput s k i : in_inode t s0 s k i → inode_ok t i → ∃ s', iunlockput k s = Ok (tt, s') ∧ back t s0 s'.
Proof.
  intros Hin Hio. pose proof Hin as [Hw (x & Hk & Hi & Hr & Hv & Hd)]. pose proof (in_bound s k i x Hin Hk Hi Hr) as Hn.
  specialize (Hrefs i) as Hb. destruct (less_ref t (icache s) k x (wk_table _ _ _ _ _ _ Hw) Hk Hr) as (L1 & L2 & L3).
  eexists. split.
  { apply (iunlockput_ok s k x Hk); [lia| |by eapply in_nlink].
    rewrite (wk_lock _ _ _ _ _ _ Hw k x Hk), bool_decide_true by done. by rewrite (walking_pid _ _ _ _ _ _ Hw). }
  rewrite <- (set_blocks_id s). eapply walking_put; try done; [apply Hw|..].
  - intros j. rewrite L2, (wk_nref _ _ _ _ _ _ Hw), Hi. unfold only. lia.
  - rewrite L3, (wk_free _ _ _ _ _ _ Hw), (wk_nref _ _ _ _ _ _ Hw), Hi. unfold only, one. rewrite Z.eqb_refl.
    destruct (Z.eqb_spec (nref (icache s0) i + 1) 1), (Z.eqb_spec (nref (icache s0) i) 0); lia.
  - intros k' Hne. split; [|done]. intros [= ->]. done.
Qed.
(** Taking a reference to [j] while [i] is locked, and letting [i] go. *)
Lemma walk_step s k i j : in_inode t s0 s k i → inode_ok t i →
  ∃ nx s1 s2, iget 1 j s = Ok (nx, s1) ∧ iunlockput k s1 = Ok (tt, s2) ∧ at_inode t s0 s2 nx j.
Proof.
  intros Hin Hio. pose proof Hin as [Hw (x & Hk & Hi & Hr & Hv & Hd)]. pose proof (in_bound s k i x Hin Hk Hi Hr) as Hn.
  pose proof (Hrefs i) as Bi. pose proof (Hrefs j) as Bj.
  pose proof (wk_nref _ _ _ _ _ _ Hw) as Hnref. pose proof (wk_free _ _ _ _ _ _ Hw) as Hfr.
  destruct (iget_ok s t j) as (nx & xj & y & Hg & [R1 R2 R3 R4 R5 R6 R7 R8]).
  { apply Hw. }
  { rewrite Hnref. unfold only, one.
    destruct (j =? i); [clear - Bj; lia|lia]. }
  { left. rewrite Hfr. unfold one. destruct (_ =? _); lia. }
  assert (Hz : ∃ z, <[nx := y]> (icache s) !! k = Some z ∧ i_inum z = i ∧ 0 < i_ref z ≤ 2^31 - 1 ∧
    i_lock z = Some (fpid s) ∧ 1 ≤ i_nlink z ∧ (nx = k → i_ref z = i_ref x + 1 ∧ i = j)).
  { assert (Hl : i_lock x = Some (fpid s)).
    { rewrite (wk_lock _ _ _ _ _ _ Hw k x Hk), bool_decide_true by done. by rewrite (walking_pid _ _ _ _ _ _ Hw). }
    pose proof (in_nlink x i Hio Hd) as Hlk. destruct (decide (nx = k)) as [->|Hne].
    - exists y. rewrite list_lookup_insert_eq by by eapply lookup_lt_Some. simplify_eq. rewrite R6 by done. simpl.
      split_and!; try done; lia.
    - exists x. rewrite list_lookup_insert_ne by done. split_and!; try done; lia. }
  destruct Hz as (z & Hz & Z1 & Z2 & Z3 & Z4 & Z5).
  assert (Hw1 : walking t s0 (put_inode nx y s) (Some k) (λ a, only i a + only j a)
    (one (nref (icache s0) i =? 0) + one (nref (icache s) j =? 0))).
  { rewrite <- (set_blocks_id s). eapply walking_put; try done; [apply Hw| | | ].
    - intros a. rewrite R7, Hnref. unfold only. lia.
    - rewrite R8, Hfr. simpl. lia.
    - rewrite R5. apply (wk_lock _ _ _ _ _ _ Hw nx xj R1). }
  destruct (less_ref t _ k z (wk_table _ _ _ _ _ _ Hw1) Hz) as (L1 & L2 & L3); [lia|].
  exists nx, (put_inode nx y s), (put_inode k (put_down z) (put_inode nx y s)). split; [done|].
  split; [by apply iunlockput_ok|]. split.
  - rewrite <- (set_blocks_id (put_inode nx y s)). eapply walking_put; try done; [apply Hw1| | |].
    + intros a. rewrite L2, (wk_nref _ _ _ _ _ _ Hw1), Z1. unfold only. lia.
    + rewrite L3, (wk_nref _ _ _ _ _ _ Hw1), (wk_free _ _ _ _ _ _ Hw1), Z1, Hnref. unfold only, one.
      rewrite Z.eqb_refl, (Z.eqb_sym i j). destruct (Z.eqb_spec j i) as [->|Hji].
      * rewrite (proj2 (Z.eqb_neq (_ + 1) 0)), (proj2 (Z.eqb_neq (_ + (1 + 1)) 1)) by lia. lia.
      * rewrite Z.add_0_r. destruct (Z.eqb_spec (nref (icache s0) i + (1 + 0)) 1), (Z.eqb_spec (nref (icache s0) i) 0); lia.
    + intros k' Hne. split; [|done]. intros [= ->]. done.
  - simpl. destruct (decide (nx = k)) as [->|Hne].
    + rewrite list_lookup_insert_eq by (rewrite length_insert; by eapply lookup_lt_Some). eexists. split; [done|]. simpl.
      destruct Z5; [done|]. split; [congruence|lia].
    + rewrite list_lookup_insert_ne, list_lookup_insert_eq by (done || by eapply lookup_lt_Some). by exists y.
Qed.
Lemma walk_lookup s k i name : in_inode t s0 s k i → inode_ok t i → d_type (disk_inode t i) = T_DIR → Forall is_u8 name →
  match dir_lookup t (as_inode t i) name with
  | None => ∃ s1, dirlookup devsw_read k name s = Ok (None, s1) ∧ in_inode t s0 s1 k i
  | Some (j, o) => ∃ nx s1 s2, dirlookup devsw_read k name s = Ok (Some (nx, o), s1) ∧ iunlockput k s1 = Ok (tt, s2) ∧
      at_inode t s0 s2 nx j
  end.
Proof.
  intros Hin Hio Hty Hname. pose proof Hin as [Hw (x & Hk & Hi & Hr & Hv & Hd)].
  assert (Hmeta : i_addrs x = i_addrs (as_inode t i) ∧ i_size x = i_size (as_inode t i) ∧ i_type x = T_DIR).
  { unfold as_inode. rewrite <- Hd. rewrite <- Hd in Hty. done. }
  destruct Hmeta as (Ma & Ms & Mt). destruct (tb_ok _ _ (wk_table _ _ _ _ _ _ Hw) k x Hk) as [_ Hc].
  assert (Hdir : dir_ok sb s t k x).
  { apply dir_ok_intro; [apply Hw|done|done|]. apply (dir_disk_meta t x (as_inode t i)); try done; [by apply Hc|].
    by apply Hio. }
  destruct (dirlookup_eq sb devsw_read s t k x name Hname Hroom Hdir) as (b & Hb & He).
  rewrite (dir_lookup_meta t x (as_inode t i)) in He by done.
  assert (Hin' : in_inode t s0 (set_blocks b s) k i).
  { split; [by apply walking_blocks|]. by exists x. }
  destruct (dir_lookup t (as_inode t i) name) as [[j o]|]; [|by eexists].
  destruct (walk_step _ k i j Hin' Hio) as (nx & s1 & s2 & Hg & Hu & Hat).
  exists nx, s1, s2. split; [|done]. rewrite He. by rewrite (bind_Ok_l _ _ _ _ _ Hg).
Qed.

(** Letting go of the start, when [nameiparent] is given a path with no component. *)
Lemma walk_put s k i : at_inode t s0 s k i → inode_ok t i → ∃ s', iput k s = Ok (tt, s') ∧ back t s0 s'.
Proof.
  intros [Hw (x & Hk & Hi & Hr)] Hio. pose proof (wk_table _ _ _ _ _ _ Hw) as Ht.
  pose proof (nref_at t _ k x Ht Hk Hr) as Hn. rewrite (wk_nref _ _ _ _ _ _ Hw), Hi in Hn. unfold only in Hn.
  rewrite Z.eqb_refl in Hn. simpl in Hn. specialize (Hrefs i) as Hb.
  destruct (less_ref t (icache s) k x Ht Hk Hr) as (L1 & L2 & L3). eexists. split.
  { apply (iput_ok s k x Hk); [lia|apply (wk_lock _ _ _ _ _ _ Hw k x Hk)|].
    destruct (tb_ok _ _ Ht k x Hk) as [_ Hc]. destruct (Hc Hr) as [_ [Hv|[_ Hd]]]; [by right|left].
    rewrite Hi in Hd. by eapply in_nlink. }
  rewrite <- (set_blocks_id s). eapply walking_put; try done; [apply Hw|..].
  - intros j. rewrite L2, (wk_nref _ _ _ _ _ _ Hw), Hi. unfold only. lia.
  - rewrite L3, (wk_free _ _ _ _ _ _ Hw), (wk_nref _ _ _ _ _ _ Hw), Hi. unfold only, one. rewrite Z.eqb_refl.
    destruct (Z.eqb_spec (nref (icache s0) i + 1) 1), (Z.eqb_spec (nref (icache s0) i) 0); lia.
Qed.

(** What [namex] leaves: the reference the path leads to, or nothing. *)
Definition led (parent : bool) (w : option (Z * list Z)) (r : option nat * list Z) s : Prop :=
  match w with
  | None => r.1 = None ∧ back t s0 s
  | Some (j, c) => ∃ k, r.1 = Some k ∧ at_inode t s0 s k j ∧ (parent = true → dname r.2 = dname c)
  end.
Lemma namex_loop_ok P parent : tree t P → ∀ n s k i path name, (length path ≤ n)%nat → length name = 14%nat →
  Forall is_u8 path → Forall is_u8 name → at_inode t s0 s k i → P i →
  ∃ r s', namex_loop devsw_read n k parent path name s = Ok (r, s') ∧ led parent (walk parent t i (components path)) r s'.
Proof.
  intros Htree n. induction n as [|n IH]; intros s k i path name Hn Hlen Hp Hb Hat HP; destruct (Htree i HP) as [Hio Hsub];
    pose proof (skipelem_spec path name Hlen) as Hsk; cbn [namex_loop];
    destruct (skipelem path name) as [[path' name']|] eqn:E.
  1: { destruct Hsk as (c & _ & _ & Hlt & _). lia. }
  1, 3: rewrite Hsk; simpl; destruct parent; [destruct (walk_put s k i Hat Hio) as (s' & H & Hbk);
      rewrite (bind_Ok_l _ _ _ _ _ H); by eexists (_, _), s'|eexists _, s; split; [done|]; by exists k].
  destruct Hsk as (c & -> & Hl' & Hlt & Hname & Hnil & _). destruct (skipelem_bytes _ _ _ _ E Hp Hb) as [Hp' Hb'].
  destruct (walk_lock s k i Hat Hio) as (s1 & H1 & Hin). pose proof Hin as [_ (x & Hk & Hi & Hr & Hv & Hd)].
  rewrite (bind_Ok_l _ _ _ _ _ H1), (bind_Ok_l _ _ _ _ _ (the_inode_ok s1 k x Hk)). cbn [walk].
  rewrite <- Hd. change (d_type (dinode_of x)) with (i_type x). destruct (Z.eqb_spec (i_type x) T_DIR) as [Hty|Hty]; cbn [negb].
  2: { destruct (walk_unlockput s1 k i Hin Hio) as (s2 & H2 & Hbk). rewrite (bind_Ok_l _ _ _ _ _ H2).
       by eexists (_, _), s2. }
  rewrite (bool_decide_ext _ _ Hnil).
  destruct (parent && bool_decide (components path' = [])) eqn:Hpar.
  { destruct (walk_unlock s1 k i Hin) as (s2 & H2 & Hat2). rewrite (bind_Ok_l _ _ _ _ _ H2).
    eexists _, s2. split; [done|]. by exists k. }
  assert (Hty' : d_type (disk_inode t i) = T_DIR) by by rewrite <- Hd.
  pose proof (walk_lookup s1 k i name' Hin Hio Hty' Hb') as Hlook. rewrite (dir_lookup_name t _ name' c Hname) in Hlook.
  destruct (dir_lookup t (as_inode t i) c) as [[j o]|] eqn:El.
  - destruct Hlook as (nx & s2 & s3 & H2 & H3 & Hat3). rewrite (bind_Ok_l _ _ _ _ _ H2), (bind_Ok_l _ _ _ _ _ H3).
    apply IH; try done; [lia|]. by apply (Hsub Hty' c j o).
  - destruct Hlook as (s2 & H2 & Hin2). destruct (walk_unlockput s2 k i Hin2 Hio) as (s3 & H3 & Hbk).
    rewrite (bind_Ok_l _ _ _ _ _ H2), (bind_Ok_l _ _ _ _ _ H3). by eexists (_, _), s3.
Qed.
End Walk.

(** The inode table before a path is followed: consistent with the disk, nothing
    locked, two entries free and no count about to overflow. *)
Record ready t s : Prop := {
  rd_fs : fs_ok sb s t;
  rd_table : table_ok t (icache s);
  rd_lock : ∀ k x, icache s !! k = Some x → i_lock x = None;
  rd_free : 2 ≤ free_slots (icache s);
  rd_refs : ∀ j, nref (icache s) j < 2^31 - 3;
}.
(** Where the path starts. *)
Definition starts s (path : list Z) i : Prop :=
  if bool_decide (head path = Some 47) then i = ROOTINO
  else ∃ x, icache s !! fcwd s = Some x ∧ i_inum x = i ∧ 0 < i_ref x.

Lemma ready_walking t s k x y i : ready t s → referenced t (icache s) i k x y → at_inode t s (put_inode k y s) k i.
Proof.
  intros [R1 R2 R3 R4 R5] [F1 F2 F3 F4 F5 F6 F7 F8]. split; [|exists y; split; [by apply (put_at s k x)|done]].
  constructor; simpl; [by destruct R1|by destruct s|done| |done|done].
  intros k' z Hz. destruct (decide (k' = k)) as [->|Hne].
  - rewrite list_lookup_insert_eq in Hz by by eapply lookup_lt_Some. simplify_eq. rewrite F5. by apply (R3 k).
  - rewrite list_lookup_insert_ne in Hz by done. by apply (R3 k').
Qed.

(** C16: [namex] follows a path exactly as the tree on the disk says.  From a
    table that is consistent with the disk, on a tree of linked inodes, the
    call always returns.  It gives the entry of the inode the path leads to
    ([namei]), or of the directory the last component is to be looked up in,
    with that component in [name] ([nameiparent]); it gives null exactly when
    a component is missing or lies below something that is not a directory.
    The blocks of the disk are as before, every entry is unlocked again, and
    the only reference more than before is the one returned: none is leaked on
    any path through the loop, whether it meets "." or repeated directories. *)
Theorem namex_walks devsw_read t s parent path name i P
  (Hready : ready t s) (Htree : tree t P) (Hstart : starts s path i) (HP : P i) (Hroom : room t)
  (Hpath : Forall is_u8 path) (Hname : Forall is_u8 name) (Hlen : length name = 14%nat) :
  ∃ r s', namex devsw_read path parent name s = Ok (r, s') ∧
          led t s parent (walk parent t i (components path)) r s'.
Proof.
  assert (Hrefs : ∀ j, 0 ≤ nref (icache s) j < 2^31 - 3).
  { intros j. split; [|by apply Hready]. eapply nref_nonneg, Hready. }
  pose proof (Hrefs i) as Hi. pose proof (rd_free _ _ Hready) as Hfree.
  assert (Hfirst : ∃ k x y, (if bool_decide (head path = Some 47) then iget ROOTDEV ROOTINO
    else c ← gets fcwd; idup c) s = Ok (k, put_inode k y s) ∧ referenced t (icache s) i k x y).
  { unfold starts in Hstart. destruct (bool_decide _).
    - subst i. apply iget_ok; [apply Hready|lia|lia].
    - destruct Hstart as (x & Hk & <- & Hr). exists (fcwd s), x, (set_iref (sint32 (i_ref x + 1)) x). split.
      + rewrite (bind_Ok_l _ _ _ (fcwd s) s) by reflexivity. unfold idup.
        rewrite (bind_Ok_l _ _ _ _ _ (the_inode_ok s _ x Hk)). by rewrite (bind_Ok_l _ _ _ _ _ (upd_inode_ok s _ x _ Hk)).
      + apply more_ref; [apply Hready|done|]. rewrite <- (nref_at t _ _ x (rd_table _ _ Hready) Hk Hr) in Hr |- *. lia. }
  destruct Hfirst as (k & x & y & Hget & Href). unfold namex. rewrite (bind_Ok_l _ _ _ _ _ Hget).
  apply (namex_loop_ok devsw_read t s Hroom Hfree Hrefs P); try done. by eapply ready_walking.
Qed.
End Tree.

(** *** Witness: a root directory with one file *)

Definition small_root : dinode := Dinode T_DIR 0 0 1 16 (59 :: replicate 12 0).
Definition small_file : dinode := Dinode T_FILE 0 0 1 0 (replicate 13 0).
(** Inodes 1 and 2 in block 32, the entry of "a" in block 59, which the bitmap
    marks. *)
Definition small_disk (n : Z) : blk :=
  if n =? 58 then replicate 7 255 ++ [15] ++ replicate 504 0
  else if n =? 32 then put_dinode (put_dinode (replicate 512 0) 1 small_root) 2 small_file
  else if n =? 59 then [2; 0; 97] ++ replicate 509 0
  else replicate 512 0.
Definition small_tx : txn := Txn small_disk [] [] 1000 29.
Definition small_fs : fsys lst :=
  Fsys (Lst (Log 2 30 1 false 1 []) (fresh small_disk 1000 1)) demo_sb
    (replicate 2 (Inode 0 0 0 None 0 0 0 0 0 0 (replicate 13 0))) 1 0.

Lemma small_ok : fs_ok demo_sb small_fs small_tx.
Proof.
  constructor; [|done|].
  - constructor; simpl; try done.
    + apply fresh_inv.
    + apply NoDup_nil_2.
    + intros h n Hin. by apply elem_of_nil in Hin.
    + apply NoDup_nil_2.
    + intros n. split; [intros H; by apply fresh_clean in H|intros H; by apply elem_of_nil in H].
    + intros n _. unfold small_disk. destruct (n =? 58); [done|]. destruct (n =? 32); [|by destruct (n =? 59)].
      by rewrite !length_put_dinode.
  - constructor; try done.
    + intros n (x & Hx & ->). rewrite demo_bm by done. by vm_compute.
    + intros n Hin. by apply elem_of_nil in Hin.
Qed.
Lemma small_inode1 : disk_inode demo_sb small_tx 1 = small_root.
Proof. by vm_compute. Qed.
Lemma small_inode2 : disk_inode demo_sb small_tx 2 = small_file.
Proof. by vm_compute. Qed.
Lemma small_entry : entry_at small_tx (as_inode demo_sb small_tx 1) 0 = Dirent 2 (97 :: replicate 13 0).
Proof. unfold as_inode. rewrite small_inode1. by vm_compute. Qed.
Lemma small_slot j : 0 ≤ j ≤ 140 → slot small_tx (as_inode demo_sb small_tx 1) j = if j =? 0 then 59 else 0.
Proof.
  intros Hj. unfold as_inode. rewrite small_inode1. unfold slot. destruct (Z.eqb_spec j 140) as [->|]; [done|]. unfold addr.
  destruct (Z.ltb_spec j 12); [|destruct (Z.eqb_spec j 0); [lia|done]].
  destruct (Z.eqb_spec j 0) as [->|]; [done|]. simpl. destruct (Z.to_nat j) as [|m] eqn:E; [lia|]. apply (nth_zeros 12).
Qed.
Lemma small_good n : n = 32 ∨ n = 59 → good demo_sb small_tx n.
Proof.
  intros Hn. unfold good. split; [simpl; lia|]. split; [by destruct Hn as [-> | ->]; vm_compute|].
  split; [|apply not_elem_of_nil]. intros (z & Hz & He). rewrite demo_bm in He by done. lia.
Qed.
Lemma small_tree : tree demo_sb small_tx (λ i, i = 1 ∨ i = 2).
Proof.
  assert (Hb : ∀ i, i = 1 ∨ i = 2 → IBLOCK i demo_sb = 32) by by intros i [-> | ->].
  intros i Hi. split; [constructor|]; destruct Hi as [-> | ->].
  - rewrite Hb by auto. split; [done|apply not_elem_of_nil].
  - rewrite Hb by auto. split; [done|apply not_elem_of_nil].
  - by rewrite small_inode1.
  - by rewrite small_inode2.
  - by rewrite small_inode1.
  - by rewrite small_inode2.
  - intros _. constructor.
    + constructor; [reflexivity|by unfold as_inode; rewrite small_inode1|by vm_compute|..].
      * intros j Hj. rewrite small_slot by done. destruct (j =? 0); [|done]. intros _. apply small_good. auto.
      * intros a b Ha Hb'. rewrite !small_slot by done. destruct (Z.eqb_spec a 0), (Z.eqb_spec b 0); lia.
    + unfold as_inode. rewrite small_inode1. done.
    + unfold as_inode. by rewrite small_inode1.
    + intros bn Hbn. unfold as_inode. rewrite small_inode1. simpl. intros Hlt. assert (bn = 0) as -> by lia. done.
    + apply small_good. auto.
    + intros j Hj. rewrite small_slot by done. change (iblock demo_sb _) with 32. by destruct (j =? 0).
    + intros o. unfold as_inode. rewrite small_inode1. cbn [i_size d_size small_root]. intros Ho.
      assert (Hall : Forall (λ o, is_u8 (fbyte small_tx (as_inode demo_sb small_tx 1) o)) (seqZ 0 16)).
      { unfold as_inode. rewrite small_inode1. apply (bool_decide_unpack _). by vm_compute. }
      rewrite Forall_forall in Hall. apply Hall, elem_of_seqZ. lia.
  - by rewrite small_inode2.
  - intros _ c j o. unfold dir_lookup. unfold as_inode at 2. rewrite small_inode1. cbn [i_size d_size small_root search].
    change (Z.to_nat (16 / 16)) with 1%nat. cbn [search]. rewrite small_entry. destruct (entry_is _ _); [|done].
    intros [= <- _]. by right.
  - rewrite small_inode2. intros [=].
Qed.
Lemma small_ready : ready demo_sb small_tx small_fs.
Proof.
  assert (Hc : ∀ k x, icache small_fs !! k = Some x → i_ref x = 0 ∧ i_lock x = None).
  { intros k x [-> _]%lookup_replicate. done. }
  constructor; [apply small_ok| | |done|].
  - constructor.
    + intros k x Hk. destruct (Hc k x Hk) as [H _]. split; [by rewrite H|]. rewrite H. lia.
    + intros k k' x y Hk _ Hr _ _. destruct (Hc k x Hk). lia.
  - intros k x Hk. by destruct (Hc k x Hk).
  - intros j. rewrite nref_zero; [done|..]; intros k x Hk; destruct (Hc k x Hk) as [-> _]; lia.
Qed.
Lemma small_walk cs : walk demo_sb false small_tx 1 ([97] :: cs) = walk demo_sb false small_tx 2 cs.
Proof.
  cbn [walk]. rewrite small_inode1. change (d_type small_root =? T_DIR) with true. cbn [andb]. unfold dir_lookup.
  unfold as_inode at 2. rewrite small_inode1. change (Z.to_nat (i_size _ / 16)) with 1%nat. cbn [search].
  rewrite small_entry. change (entry_is _ _) with true. reflexivity.
Qed.
Lemma small_names : Forall is_u8 (replicate 14 0) ∧ Forall is_u8 [47; 97] ∧ Forall is_u8 [47; 97; 47; 98].
Proof. split_and!; apply (bool_decide_unpack _); by vm_compute. Qed.
Lemma small_room : room small_tx.
Proof. unfold room. simpl. lia. Qed.
Lemma namex_walks_witness :
  (∃ k name s', namex (λ _, None) [47; 97] false (replicate 14 0) small_fs = Ok ((Some k, name), s') ∧
     at_inode demo_sb small_tx small_fs s' k 2) ∧
  (∃ name s', namex (λ _, None) [47; 97; 47; 98] false (replicate 14 0) small_fs = Ok ((None, name), s') ∧
     back demo_sb small_tx small_fs s').
Proof.
  destruct small_names as (Hn & Hp1 & Hp2). split.
  - destruct (namex_walks demo_sb (λ _, None) small_tx small_fs false [47; 97] (replicate 14 0) 1 (λ i, i = 1 ∨ i = 2)
      small_ready small_tree eq_refl (or_introl eq_refl) small_room Hp1 Hn eq_refl) as ([r name] & s' & H & Hled).
    change (components [47; 97]) with [[97]] in Hled. rewrite small_walk in Hled. cbn [walk led] in Hled.
    destruct Hled as (k & Hr & Hat & _). cbn [fst] in Hr. subst r. exact (ex_intro _ k (ex_intro _ name (ex_intro _ s' (conj H Hat)))).
  - destruct (namex_walks demo_sb (λ _, None) small_tx small_fs false [47; 97; 47; 98] (replicate 14 0) 1 (λ i, i = 1 ∨ i = 2)
      small_ready small_tree eq_refl (or_introl eq_refl) small_room Hp2 Hn eq_refl) as ([r name] & s' & H & Hled).
    change (components [47; 97; 47; 98]) with [[97]; [98]] in Hled. rewrite small_walk in Hled. cbn [walk] in Hled.
    rewrite small_inode2 in Hled. change (d_type small_file =? T_DIR) with false in Hled. cbn [led] in Hled.
    destruct Hled as [Hr Hbk]. cbn [fst] in Hr. subst r. exact (ex_intro _ name (ex_intro _ s' (conj H Hbk))).
Defined.
