(* ===== verification/Mkfs.v ===== *)
(** * The image builder

    [mkfs.c], which runs on the host: it lays out a file system in an image
    file, with a root directory and the files named on its command line.  The
    image is the list of its sectors.

    The theorems connect it with the kernel: the image it builds is a file
    system in the sense of [FsOk] and [FsPath], and the files on it have the
    contents of the host's files. *)

From stdpp Require Import list_numbers.
From S2P Require Import Prelude Machine Str Spin Bio Log Fs Txn FsOk FsData FsDir FsPath.
Local Open Scope Z_scope.

(** ** Operations *)

Definition NINODES : Z := 200.
Definition nbitmap : Z := FSSIZE / (BSIZE * 8) + 1.
Definition ninodeblocks : Z := NINODES / IPB + 1.
Definition nmeta : Z := 2 + LOGSIZE + ninodeblocks + nbitmap.

(** [img] is the file [fsfd]; [exit(1)] and a failed [assert] are [Panic]. *)
Record mst := Mst { img : list blk; msb : superblock; freeinode : Z; freeblock : Z }.
Definition set_img (l : list blk) (s : mst) : mst := Mst l (msb s) (freeinode s) (freeblock s).

(** To Intel byte order, on a host that has it. *)
Definition xshort (x : Z) : Z := x mod 2^8 + 2^8 * (x / 2^8 mod 2^8).
Definition xint (x : Z) : Z :=
  x mod 2^8 + 2^8 * (x / 2^8 mod 2^8) + 2^16 * (x / 2^16 mod 2^8) + 2^24 * (x / 2^24 mod 2^8).

(** The sector at [sec * BSIZE] bytes. *)
Definition at_sector (sec : Z) : nat := Z.to_nat (wrap32 (sec * BSIZE) / BSIZE).
Definition wsect (sec : Z) (buf : blk) : M mst unit :=
  modify (λ s, let k := at_sector sec in
    set_img (if (k <? length (img s))%nat then <[k := buf]> (img s)
             else img s ++ replicate (k - length (img s)) (replicate 512 0) ++ [buf]) s).
Definition rsect (sec : Z) : M mst blk := λ s,
  match img s !! at_sector sec with Some b => Ok (b, s) | None => Panic "read" end.

Definition winode (inum : Z) (ip : dinode) : M mst unit :=
  sb ← gets msb;
  let bn := IBLOCK inum sb in
  buf ← rsect bn;
  wsect bn (put_dinode buf (Z.to_nat (inum mod IPB)) ip).
Definition rinode (inum : Z) : M mst dinode :=
  sb ← gets msb;
  let bn := IBLOCK inum sb in
  buf ← rsect bn;
  mret (get_dinode buf (Z.to_nat (inum mod IPB))).

Definition mk_ialloc (type : Z) : M mst Z :=
  inum ← gets freeinode;
  modify (λ s, Mst (img s) (msb s) (wrap32 (freeinode s + 1)) (freeblock s));;
  winode inum (Dinode (xshort type) 0 0 (xshort 1) (xint 0) (replicate 13 0));;
  mret inum.
Definition mk_balloc (n : Z) : M mst unit :=
  if negb (n <? BSIZE * 8) then panic "used < BSIZE*8" else
  sb ← gets msb;
  wsect (bmapstart sb) (foldl (λ buf i, set_bit i buf) (replicate 512 0) (seq 0 (Z.to_nat n))).

(** [freeblock++] *)
Definition alloc_block : M mst Z :=
  f ← gets freeblock;
  modify (λ s, Mst (img s) (msb s) (freeinode s) (wrap32 (f + 1)));;
  mret (xint f).
Definition set_daddr (k : nat) (a : Z) (d : dinode) : dinode :=
  Dinode (d_type d) (d_major d) (d_minor d) (d_nlink d) (d_size d) (<[k := a]> (d_addrs d)).
Definition set_dsize (n : Z) (d : dinode) : dinode :=
  Dinode (d_type d) (d_major d) (d_minor d) (d_nlink d) n (d_addrs d).
(** The sector of file block [fbn] behind the indirect block. *)
Definition indirect_block (fbn : Z) (din : dinode) : M mst Z :=
  let a := xint (nth 12 (d_addrs din) 0) in
  indirect ← rsect a;
  let k := Z.to_nat (fbn - NDIRECT) in
  indirect ← (if get_word indirect k =? 0
              then f ← alloc_block;
                   let indirect := put_word indirect k f in
                   wsect a indirect;;
                   mret indirect
              else mret indirect);
  mret (xint (get_word indirect k)).
(** The first part of the loop of [iappend]: the sector of file block [fbn]. *)
Definition iappend_block (fbn : Z) (din : dinode) : M mst (dinode * Z) :=
  if fbn <? NDIRECT then
    let k := Z.to_nat fbn in
    din ← (if xint (nth k (d_addrs din) 0) =? 0 then f ← alloc_block; mret (set_daddr k f din) else mret din);
    mret (din, xint (nth k (d_addrs din) 0))
  else
    din ← (if xint (nth 12 (d_addrs din) 0) =? 0 then f ← alloc_block; mret (set_daddr 12 f din) else mret din);
    x ← indirect_block fbn din;
    mret (din, x).
(** [bcopy(p, buf + o, n)] *)
Definition bcopy (p buf : list Z) (o n : nat) : list Z := take o buf ++ take n p ++ drop (o + n) buf.
Fixpoint iappend_loop (k : nat) (din : dinode) (off : Z) (p : list Z) : M mst (dinode * Z) :=
  if (length p =? 0)%nat then mret (din, off) else
  match k with
  | O => fault "fuel"
  | S k' =>
      let fbn := off / BSIZE in
      if negb (fbn <? MAXFILE) then panic "fbn < MAXFILE" else
      r ← iappend_block fbn din;
      let '(din, x) := r in
      let n1 := Z.min (Z.of_nat (length p)) ((fbn + 1) * BSIZE - off) in
      buf ← rsect x;
      wsect x (bcopy p buf (Z.to_nat (off - fbn * BSIZE)) (Z.to_nat n1));;
      iappend_loop k' din (wrap32 (off + n1)) (drop (Z.to_nat n1) p)
  end.
Definition iappend (inum : Z) (p : list Z) : M mst unit :=
  din ← rinode inum;
  r ← iappend_loop (length p) din (xint (d_size din)) p;
  winode inum (set_dsize (xint r.2) r.1).

(** A file of the command line: its name, and what the reads of it bring, or
    [None] if it cannot be opened. *)
Notation hostfile := (list Z * option (list (list Z)))%type.
Definition skip_underscore (name : list Z) : list Z :=
  match name with c :: name' => if c =? 95 then name' else name | [] => [] end.
Fixpoint append_all (inum : Z) (pieces : list (list Z)) : M mst unit :=
  match pieces with [] => mret tt | p :: ps => iappend inum p;; append_all inum ps end.
Definition add_file (f : hostfile) : M mst unit :=
  let '(name, file) := f in
  if bool_decide (47 ∈ name) then panic "index(argv[i], '/') == 0" else
  match file with
  | None => panic "open"
  | Some pieces =>
      inum ← mk_ialloc T_FILE;
      iappend ROOTINO (put_dirent (Dirent (xshort inum) (name_field (skip_underscore name))));;
      append_all inum pieces
  end.
Fixpoint add_files (fs : list hostfile) : M mst unit :=
  match fs with [] => mret tt | f :: fs' => add_file f;; add_files fs' end.
(** [wsect(i, zeroes)] for all sectors. *)
Fixpoint zero_image (n : nat) : M mst unit :=
  match n with O => mret tt | S n' => zero_image n';; wsect (Z.of_nat n') (replicate 512 0) end.
Definition encode_sb (sb : superblock) (d : blk) : blk :=
  foldl (λ d p, put_word d p.1 p.2) d
    [(0%nat, sb_size sb); (1%nat, nblocks sb); (2%nat, ninodes sb); (3%nat, nlog sb); (4%nat, logstart sb);
     (5%nat, inodestart sb); (6%nat, bmapstart sb)].
Definition dot (name : list Z) (inum : Z) : list Z := put_dirent (Dirent (xshort inum) (name ++ replicate (14 - length name) 0)).
Definition mkfs (files : list hostfile) : M mst unit :=
  let sb := Superblock (xint FSSIZE) (xint (FSSIZE - nmeta)) (xint NINODES) (xint LOGSIZE) (xint 2)
              (xint (2 + LOGSIZE)) (xint (2 + LOGSIZE + ninodeblocks)) in
  modify (λ s, Mst (img s) sb (freeinode s) nmeta);;
  zero_image (Z.to_nat FSSIZE);;
  wsect 1 (encode_sb sb (replicate 512 0));;
  rootino ← mk_ialloc T_DIR;
  if negb (rootino =? ROOTINO) then panic "rootino == ROOTINO" else
  iappend rootino (dot [46] rootino);;
  iappend rootino (dot [46; 46] rootino);;
  add_files files;;
  din ← rinode rootino;
  let off := xint (d_size din) in
  let off := (off / BSIZE + 1) * BSIZE in
  winode rootino (set_dsize (xint off) din);;
  f ← gets freeblock;
  mk_balloc f.
(** The state [mkfs] starts in, with the image truncated. *)
Definition mk_start : mst := Mst [] (Superblock 0 0 0 0 0 0 0) 1 0.
