(* ===== verification/MkfsOk.v ===== *)
(** * What the image builder builds

    The proofs on [Mkfs]. *)

From stdpp Require Import list_numbers.
From S2P Require Import Prelude Machine Str Spin Bio Log Fs Txn FsOk FsData FsDir FsPath Mkfs.
Local Open Scope Z_scope.

(** ** Inodes in their blocks *)

Lemma nth_put_half d k v i : (2 * k + 1 < length d)%nat →
  nth i (put_half d k v) 0 = if decide (i = 2 * k)%nat then v mod 2^8 else if decide (i = 2 * k + 1)%nat then v / 2^8 mod 2^8 else nth i d 0.
Proof. intros Hk. unfold put_half. by rewrite !nth_insert by (rewrite ?length_insert; lia). Qed.
Lemma nth_put_word d k v i : (4 * k + 3 < length d)%nat →
  nth i (put_word d k v) 0 =
    if decide (i = 4 * k)%nat then v mod 2^8 else if decide (i = 4 * k + 1)%nat then v / 2^8 mod 2^8 else
    if decide (i = 4 * k + 2)%nat then v / 2^16 mod 2^8 else if decide (i = 4 * k + 3)%nat then v / 2^24 mod 2^8 else nth i d 0.
Proof. intros Hk. unfold put_word. by rewrite !nth_insert by (rewrite ?length_insert; lia). Qed.
Ltac decides := repeat (case_decide; [try lia|try lia]).
Lemma get_put_half d k v j : (2 * k + 1 < length d)%nat → get_half (put_half d k v) j = if decide (j = k) then v mod 2^16 else get_half d j.
Proof.
  intros Hk. unfold get_half. rewrite !nth_put_half by done. destruct (decide (j = k)) as [->|Hne]; decides; try done.
  all: Z.div_mod_to_equations; lia.
Qed.
Lemma get_half_put_word d k v j : (4 * k + 3 < length d)%nat → j ≠ (2 * k)%nat → j ≠ (2 * k + 1)%nat → get_half (put_word d k v) j = get_half d j.
Proof. intros Hk H1 H2. unfold get_half. rewrite !nth_put_word by done. decides; done. Qed.
Lemma get_word_put_half d k v j : (2 * k + 1 < length d)%nat → k ≠ (2 * j)%nat → k ≠ (2 * j + 1)%nat → get_word (put_half d k v) j = get_word d j.
Proof. intros Hk H1 H2. unfold get_word. rewrite !nth_put_half by done. decides; done. Qed.

Definition put_addrs (d : blk) (k : nat) (l : list Z) (ns : list nat) : blk := foldl (λ d i, put_word d (16 * k + 3 + i) (nth i l 0)) d ns.
Lemma length_put_addrs d k l ns : length (put_addrs d k l ns) = length d.
Proof. revert d. induction ns as [|n ns IH]; intros d; [done|]. unfold put_addrs in *. cbn [foldl]. by rewrite IH, length_put_word. Qed.
Lemma get_half_put_addrs d k l ns j : (k < 8)%nat → length d = 512%nat → Forall (λ n, (n < 13)%nat) ns →
  (j < 32 * k + 6 ∨ 32 * k + 32 ≤ j)%nat → get_half (put_addrs d k l ns) j = get_half d j.
Proof.
  intros Hk Hd Hns Hj. revert d Hd. induction Hns as [|n ns Hn Hns IH]; intros d Hd; [done|]. unfold put_addrs in *. cbn [foldl].
  rewrite IH by by rewrite length_put_word. apply get_half_put_word; lia.
Qed.
Lemma get_word_put_addrs d k l ns j : (k < 8)%nat → length d = 512%nat → Forall (λ n, (n < 13)%nat) ns →
  get_word (put_addrs d k l ns) j = if decide (16 * k + 3 ≤ j ∧ (j - (16 * k + 3))%nat ∈ ns)%nat then nth (j - (16 * k + 3)) l 0 mod 2^32 else get_word d j.
Proof.
  intros Hk Hd Hns. revert d Hd. induction Hns as [|n ns Hn Hns IH]; intros d Hd; [by rewrite decide_False by set_solver|]. unfold put_addrs in *. cbn [foldl].
  rewrite IH by by rewrite length_put_word. rewrite get_put_word by lia.
  destruct (decide (16 * k + 3 ≤ j ∧ (j - (16 * k + 3))%nat ∈ ns)%nat) as [H|H]; [rewrite decide_True; [done|set_solver]|].
  destruct (decide (j = 16 * k + 3 + n)%nat) as [->|Hne].
  - replace (16 * k + 3 + n - (16 * k + 3))%nat with n by lia. rewrite decide_True; [done|]. split; [lia|set_solver].
  - rewrite decide_False; [done|]. intros [H1 H2]. apply elem_of_cons in H2 as [H2|H2]; [lia|by apply H].
Qed.
(** An inode whose fields are in range. *)
Record dinode_ok (d : dinode) : Prop := {
  dk_type : 0 ≤ d_type d < 2^15; dk_major : 0 ≤ d_major d < 2^15; dk_minor : 0 ≤ d_minor d < 2^15; dk_nlink : 0 ≤ d_nlink d < 2^15;
  dk_size : is_u32 (d_size d);
  dk_len : length (d_addrs d) = 13%nat;
  dk_addrs : Forall is_u32 (d_addrs d);
}.
Lemma sint16_small z : 0 ≤ z < 2^15 → sint16 (z mod 2^16) = z.
Proof. intros H. unfold sint16. rewrite Zmod_mod, Z.mod_small by lia. by rewrite (proj2 (Z.ltb_lt z (2^15))) by lia. Qed.
Lemma get_put_dinode b k d k' : length b = 512%nat → (k < 8)%nat → (k' < 8)%nat → dinode_ok d →
  get_dinode (put_dinode b k d) k' = if decide (k' = k) then d else get_dinode b k'.
Proof.
  intros Hb Hk Hk' [D1 D2 D3 D4 D5 D6 D7]. unfold put_dinode. cbv zeta. set (b1 := put_word _ (16 * k + 2) _).
  change (foldl _ b1 (seq 0 13)) with (put_addrs b1 k (d_addrs d) (seq 0 13)).
  assert (Hns : Forall (λ n, (n < 13)%nat) (seq 0 13)) by (apply Forall_forall; intros n Hn; apply elem_of_seq in Hn; lia).
  assert (Hb1 : length b1 = 512%nat) by (unfold b1; by rewrite length_put_word, !length_put_half).
  assert (Hhalf : ∀ j, (j < 32 * k + 4 ∨ 32 * k + 32 ≤ j)%nat → get_half (put_addrs b1 k (d_addrs d) (seq 0 13)) j =
    if decide (j = 32 * k)%nat then d_type d mod 2^16 else if decide (j = 32 * k + 1)%nat then d_major d mod 2^16 else
    if decide (j = 32 * k + 2)%nat then d_minor d mod 2^16 else if decide (j = 32 * k + 3)%nat then d_nlink d mod 2^16 else get_half b j).
  { intros j Hj. rewrite get_half_put_addrs by (done || lia). unfold b1. rewrite get_half_put_word by (rewrite ?length_put_half; lia).
    rewrite !get_put_half by (rewrite ?length_put_half; lia). decides; done. }
  assert (Hword : ∀ j, (j < 16 * k ∨ 16 * k + 2 ≤ j)%nat → get_word (put_addrs b1 k (d_addrs d) (seq 0 13)) j =
    if decide (16 * k + 3 ≤ j < 16 * k + 16)%nat then nth (j - (16 * k + 3)) (d_addrs d) 0 mod 2^32 else
    if decide (j = 16 * k + 2)%nat then d_size d mod 2^32 else get_word b j).
  { intros j Hj. rewrite get_word_put_addrs by done. case_decide as H; rewrite elem_of_seq in H; [by rewrite decide_True by lia|]. rewrite decide_False by lia.
    unfold b1. rewrite get_put_word by (rewrite !length_put_half; lia). case_decide; [done|]. by rewrite !get_word_put_half by (rewrite ?length_put_half; lia). }
  unfold get_dinode. destruct (decide (k' = k)) as [->|Hne].
  - rewrite !Hhalf, Hword by lia. decides. rewrite !sint16_small, (Z.mod_small (d_size d)) by done.
    destruct d as [ty ma mi nl sz ad]; cbn [d_type d_major d_minor d_nlink d_size d_addrs] in *. f_equal. apply list_eq. intros i. rewrite list_lookup_fmap.
    destruct (decide (i < 13)%nat) as [Hi|Hi].
    + rewrite lookup_seq_lt by done. cbn [fmap option_fmap option_map]. rewrite Hword by lia. rewrite decide_True by lia.
      replace (16 * k + 3 + (0 + i) - (16 * k + 3))%nat with i by lia. destruct (lookup_lt_is_Some_2 ad i) as [z Hz]; [lia|].
      rewrite nth_lookup, Hz. simpl. f_equal. apply Z.mod_small. by eapply Forall_lookup_1 in D7.
    + rewrite lookup_seq_ge, lookup_ge_None_2 by lia. done.
  - rewrite !Hhalf, Hword by lia. decides. f_equal. apply list_fmap_ext. intros i n Hn. apply lookup_seq in Hn as [-> Hn].
    rewrite Hword by lia. decides; done.
Qed.

(** ** The sectors of the image *)

Notation zeros := (replicate 512 0).
Definition view (l : list blk) (n : Z) : blk := nth (Z.to_nat n) l [].
Definition tx (l : list blk) : txn := Txn (view l) [] [] 1000 29.
Lemma at_sector_id n : 0 ≤ n < 2^23 → at_sector n = Z.to_nat n.
Proof. intros H. unfold at_sector. change BSIZE with 512. rewrite wrap32_id by (unfold is_u32; lia). by rewrite Z.div_mul. Qed.
Lemma xint_id x : is_u32 x → xint x = x.
Proof. unfold is_u32, xint. intros H. Z.div_mod_to_equations. lia. Qed.
Lemma xshort_id x : 0 ≤ x < 2^16 → xshort x = x.
Proof. unfold xshort. intros H. Z.div_mod_to_equations. lia. Qed.
Lemma rsect_ok s n : length (img s) = 1000%nat → 0 ≤ n < 1000 → rsect n s = Ok (view (img s) n, s).
Proof.
  intros Hl Hn. unfold rsect. rewrite at_sector_id by lia. destruct (lookup_lt_is_Some_2 (img s) (Z.to_nat n)) as [b Hb]; [lia|].
  unfold view. by rewrite Hb, (nth_lookup_Some _ _ _ _ Hb).
Qed.
Lemma wsect_ok s n b : length (img s) = 1000%nat → 0 ≤ n < 1000 → wsect n b s = Ok (tt, set_img (<[Z.to_nat n := b]> (img s)) s).
Proof. intros Hl Hn. unfold wsect, modify. cbv zeta. rewrite at_sector_id by lia. by rewrite (proj2 (Nat.ltb_lt _ _)) by lia. Qed.
Lemma view_insert l n b m : length l = 1000%nat → 0 ≤ n < 1000 → 0 ≤ m → view (<[Z.to_nat n := b]> l) m = if m =? n then b else view l m.
Proof.
  intros Hl Hn Hm. unfold view. rewrite nth_insert by lia. destruct (Z.eqb_spec m n) as [->|Hne]; [by rewrite decide_True|].
  by rewrite decide_False by lia.
Qed.
(** A block of bytes. *)
Definition is_blk (b : blk) : Prop := length b = 512%nat ∧ Forall is_u8 b.
Lemma zeros_blk : is_blk zeros.
Proof. split; [done|]. apply Forall_replicate. unfold is_u8. lia. Qed.
Lemma put_word_blk b k v : is_blk b → is_blk (put_word b k v).
Proof.
  intros [H1 H2]. split; [by rewrite length_put_word|]. unfold put_word. repeat (apply Forall_insert; [|unfold is_u8; apply Z.mod_pos_bound; lia]). done.
Qed.
Lemma put_half_blk b k v : is_blk b → is_blk (put_half b k v).
Proof.
  intros [H1 H2]. split; [by rewrite length_put_half|]. unfold put_half. repeat (apply Forall_insert; [|unfold is_u8; apply Z.mod_pos_bound; lia]). done.
Qed.
Lemma put_dinode_blk b k d : is_blk b → is_blk (put_dinode b k d).
Proof.
  intros H. unfold put_dinode. cbv zeta. cbn [foldl seq]. repeat (apply put_word_blk || apply put_half_blk). done.
Qed.

(** ** The blocks of the files *)

Section Vol.
(** An inode of the image as the kernel reads it. *)
Definition ino (d : dinode) : inode := Inode 1 0 0 None 1 (d_type d) (d_major d) (d_minor d) (d_nlink d) (d_size d) (d_addrs d).
Notation sl l d := (slot (tx l) (ino d)).
Notation fbk l d := (fblock (tx l) (ino d)).
(** Inodes 1 to [n - 1] as [D] has them: their blocks are below [fb] and belong
    to one place of one file; the blocks from [fb] on are empty. *)
Record vol (l : list blk) (n fb : Z) (D : Z → dinode) : Prop := {
  vo_len : length l = 1000%nat;
  vo_blk : ∀ m, 0 ≤ m < 1000 → is_blk (view l m);
  vo_fb : 59 ≤ fb ≤ 1000;
  vo_zero : ∀ m, fb ≤ m < 1000 → view l m = zeros;
  vo_ino : ∀ i, 1 ≤ i < n → dinode_ok (D i);
  vo_slot : ∀ i j, 1 ≤ i < n → 0 ≤ j ≤ 140 → sl l (D i) j = 0 ∨ 59 ≤ sl l (D i) j < fb;
  vo_inj : ∀ i j i' j', 1 ≤ i < n → 0 ≤ j ≤ 140 → 1 ≤ i' < n → 0 ≤ j' ≤ 140 →
    sl l (D i) j = sl l (D i') j' → sl l (D i) j ≠ 0 → i = i' ∧ j = j';
}.
Definition with_inode (D : Z → dinode) (i : Z) (d : dinode) : Z → dinode := λ j, if j =? i then d else D j.
Lemma with_inode_eq D i d : with_inode D i d i = d.
Proof. unfold with_inode. by rewrite Z.eqb_refl. Qed.
Lemma with_inode_id D i x : D x = with_inode D i (D i) x.
Proof. unfold with_inode. by destruct (Z.eqb_spec x i) as [->|]. Qed.
Lemma vol_same l n fb D D' : (∀ x, D' x = D x) → vol l n fb D → vol l n fb D'.
Proof.
  intros HD [W1 W2 W3 W4 W5 W6 W7]. split; try done.
  - intros i Hi. rewrite HD. by apply W5.
  - intros i j Hi Hj. rewrite HD. by apply W6.
  - intros i j i' j' Hi Hj Hi' Hj'. rewrite !HD. by apply W7.
Qed.
(** The first [c] blocks of a file are there, no others. *)
Definition occ (c j : Z) : bool := if j =? 140 then 12 <? c else j <? c.
Definition shape (l : list blk) (d : dinode) (c : Z) : Prop := ∀ j, 0 ≤ j ≤ 140 → sl l d j ≠ 0 ↔ occ c j = true.
(** The blocks [c] blocks of a file take. *)
Definition nb (c : Z) : Z := c + (if 12 <? c then 1 else 0).

Lemma slot_same l l' d j : 0 ≤ j ≤ 140 → (ind (ino d) ≠ 0 → view l' (ind (ino d)) = view l (ind (ino d))) → sl l' d j = sl l d j.
Proof.
  intros Hj Hv. unfold slot, addr. destruct (j =? 140); [done|]. destruct (j <? 12); [done|].
  destruct (Z.eqb_spec (ind (ino d)) 0); [done|]. cbn [tx_view tx]. by rewrite Hv.
Qed.
Lemma fblock_slot l d bn : 0 ≤ bn < 140 → fbk l d bn = if sl l d bn =? 0 then zeros else view l (sl l d bn).
Proof. intros H. unfold fblock, slot. by rewrite (proj2 (Z.eqb_neq bn 140)) by lia. Qed.
Lemma slot_ind l d : sl l d 140 = ind (ino d).
Proof. done. Qed.
(** Slot [j0] of inode [i] gets block [fb]. *)
Lemma vol_fill l n fb D i j0 l' d' : vol l n fb D → 1 ≤ i < n → 0 ≤ j0 ≤ 140 → fb < 1000 → sl l (D i) j0 = 0 →
  length l' = 1000%nat → (∀ m, 0 ≤ m < 1000 → is_blk (view l' m)) → (∀ m, fb ≤ m < 1000 → view l' m = zeros) → dinode_ok d' →
  (∀ j, 0 ≤ j ≤ 140 → sl l' d' j = if j =? j0 then fb else sl l (D i) j) →
  (∀ i' j, 1 ≤ i' < n → i' ≠ i → 0 ≤ j ≤ 140 → sl l' (D i') j = sl l (D i') j) →
  vol l' n (fb + 1) (with_inode D i d').
Proof.
  intros [V1 V2 V3 V4 V5 V6 V7] Hi Hj0 Hfb H0 L1 L2 L3 L4 L5 L6.
  assert (Hs : ∀ i' j, 1 ≤ i' < n → 0 ≤ j ≤ 140 → sl l' (with_inode D i d' i') j = if (i' =? i) && (j =? j0) then fb else sl l (D i') j).
  { intros i' j Hi' Hj. unfold with_inode. destruct (Z.eqb_spec i' i) as [->|Hne]; [by apply L5|by apply L6]. }
  split; try done.
  - lia.
  - intros m Hm. apply L3. lia.
  - intros i' Hi'. unfold with_inode. destruct (i' =? i); [done|by apply V5].
  - intros i' j Hi' Hj. rewrite Hs by done. destruct (_ && _); [lia|]. destruct (V6 i' j Hi' Hj); lia.
  - intros i1 j1 i2 j2 H1 H2 H3 H4. rewrite !Hs by done. pose proof (V6 i1 j1 H1 H2) as S1. pose proof (V6 i2 j2 H3 H4) as S2.
    destruct ((i1 =? i) && (j1 =? j0)) eqn:E1, ((i2 =? i) && (j2 =? j0)) eqn:E2; try lia. by apply V7.
Qed.

(** What allocating a block of inode [i] leaves alone: the blocks before the
    data blocks, the data of all files, and the blocks of the others. *)
Definition same_meta (d d' : dinode) : Prop :=
  d_type d' = d_type d ∧ d_major d' = d_major d ∧ d_minor d' = d_minor d ∧ d_nlink d' = d_nlink d ∧ d_size d' = d_size d.
Record ext (n i : Z) (l : list blk) (D : Z → dinode) (l' : list blk) (D' : Z → dinode) : Prop := {
  ex_low : ∀ m, 0 ≤ m < 59 → view l' m = view l m;
  ex_data : ∀ j bn, 1 ≤ j < n → 0 ≤ bn < 140 → fbk l' (D' j) bn = fbk l (D j) bn;
  ex_slot : ∀ j x, 1 ≤ j < n → j ≠ i → 0 ≤ x ≤ 140 → sl l' (D' j) x = sl l (D j) x;
}.
Lemma ext_trans n i l D l1 D1 l2 D2 : ext n i l D l1 D1 → ext n i l1 D1 l2 D2 → ext n i l D l2 D2.
Proof. intros [A1 A2 A3] [B1 B2 B3]. split; intros; [by rewrite B1, A1|by rewrite B2, A2|by rewrite B3, A3]. Qed.
Lemma set_daddr_ok k a d : dinode_ok d → is_u32 a → dinode_ok (set_daddr k a d).
Proof. intros [] Ha. split; try done; cbn; [by rewrite length_insert|by apply Forall_insert]. Qed.
(** A direct block or the indirect block is allocated. *)
Lemma alloc_addr l n fb D i k : vol l n fb D → 1 ≤ i < n → (k ≤ 12)%nat → fb < 1000 → nth k (d_addrs (D i)) 0 = 0 →
  let d' := set_daddr k fb (D i) in
  let j0 := if decide (k = 12%nat) then 140 else Z.of_nat k in
  vol l n (fb + 1) (with_inode D i d') ∧ ext n i l D l (with_inode D i d') ∧
  ∀ j, 0 ≤ j ≤ 140 → sl l d' j = if j =? j0 then fb else sl l (D i) j.
Proof.
  intros Hv Hi Hk Hfb H0 d' j0. pose proof Hv as [V1 V2 V3 V4 V5 V6 V7]. pose proof (V5 i Hi) as Hd. pose proof (dk_len _ Hd) as Hlen.
  assert (Hj0 : 0 ≤ j0 ≤ 140) by (unfold j0; case_decide; lia).
  assert (Hs0 : sl l (D i) j0 = 0).
  { unfold j0, slot, addr, ind. case_decide as E; [by subst k|]. rewrite (proj2 (Z.eqb_neq _ 140)), (proj2 (Z.ltb_lt _ 12)), Nat2Z.id by lia. done. }
  assert (Hs : ∀ j, 0 ≤ j ≤ 140 → sl l d' j = if j =? j0 then fb else sl l (D i) j).
  { intros j Hj. unfold slot, addr, ind. cbn [ino i_addrs d' set_daddr d_addrs]. rewrite !nth_insert by lia. unfold j0. destruct (decide (k = 12%nat)) as [->|Hk12].
    - rewrite decide_True by done. rewrite H0. destruct (Z.eqb_spec j 140); [done|]. destruct (Z.ltb_spec j 12); [by rewrite decide_False by lia|].
      rewrite (proj2 (Z.eqb_neq fb 0)) by lia. cbn [tx_view tx Z.eqb]. rewrite V4 by lia. apply get_word_zeros.
    - rewrite (decide_False (P := 12%nat = k)) by lia. destruct (Z.eqb_spec j 140) as [->|Hj140]; [by rewrite (proj2 (Z.eqb_neq 140 _)) by lia|].
      destruct (Z.ltb_spec j 12); [|by rewrite (proj2 (Z.eqb_neq j _)) by lia].
      destruct (Z.eqb_spec j (Z.of_nat k)) as [->|Hne]; [by rewrite decide_True by lia|by rewrite decide_False by lia]. }
  split; [|split; [|done]].
  - apply (vol_fill l n fb D i j0); try done. apply set_daddr_ok; [done|]. unfold is_u32. lia.
  - split; [done| |intros i' j Hi' Hne Hj; unfold with_inode; by rewrite (proj2 (Z.eqb_neq i' i) Hne)].
    intros i' bn Hi' Hbn. unfold with_inode. destruct (Z.eqb_spec i' i) as [->|]; [|done]. rewrite !fblock_slot, Hs by lia.
    destruct (Z.eqb_spec bn j0) as [->|]; [|done]. rewrite Hs0. destruct (Z.eqb_spec fb 0); [done|]. rewrite V4 by lia. done.
Qed.
(** A block behind the indirect block is allocated. *)
Lemma alloc_word l n fb D i bn : vol l n fb D → 1 ≤ i < n → 12 ≤ bn < 140 → fb < 1000 → ind (ino (D i)) ≠ 0 → sl l (D i) bn = 0 →
  let a := ind (ino (D i)) in
  let l' := <[Z.to_nat a := put_word (view l a) (Z.to_nat (bn - 12)) fb]> l in
  vol l' n (fb + 1) D ∧ ext n i l D l' D ∧ ∀ j, 0 ≤ j ≤ 140 → sl l' (D i) j = if j =? bn then fb else sl l (D i) j.
Proof.
  intros Hv Hi Hbn Hfb Ha H0 a l'. pose proof Hv as [V1 V2 V3 V4 V5 V6 V7]. destruct (V6 i 140 Hi ltac:(lia)) as [E|Hra]; [done|]. rewrite slot_ind in Hra. fold a in Hra, Ha.
  assert (Hvw : ∀ m, 0 ≤ m → view l' m = if m =? a then put_word (view l a) (Z.to_nat (bn - 12)) fb else view l m).
  { intros m Hm. apply view_insert; [done|lia|done]. }
  assert (Hother : ∀ i' j, 1 ≤ i' < n → i' ≠ i → 0 ≤ j ≤ 140 → sl l' (D i') j = sl l (D i') j).
  { intros i' j Hi' Hne Hj. apply slot_same; [done|]. intros Hn. destruct (V6 i' 140 Hi' ltac:(lia)) as [E|Hr]; [done|]. rewrite slot_ind in Hr.
    rewrite Hvw by lia. destruct (Z.eqb_spec (ind (ino (D i'))) a) as [E|]; [|done]. destruct (V7 i' 140 i 140); try done; lia. }
  assert (Hs : ∀ j, 0 ≤ j ≤ 140 → sl l' (D i) j = if j =? bn then fb else sl l (D i) j).
  { intros j Hj. unfold slot, addr. fold a. destruct (Z.eqb_spec j 140) as [->|]; [by rewrite (proj2 (Z.eqb_neq 140 bn)) by lia|].
    destruct (Z.ltb_spec j 12); [by rewrite (proj2 (Z.eqb_neq j bn)) by lia|]. rewrite (proj2 (Z.eqb_neq a 0) Ha). cbn [tx_view tx].
    rewrite Hvw, Z.eqb_refl by lia. destruct (V2 a ltac:(lia)) as [Hlen _]. rewrite get_put_word by lia.
    destruct (Z.eqb_spec j bn) as [->|]; [rewrite decide_True by done; apply Z.mod_small; lia|by rewrite decide_False by lia]. }
  assert (Hdata : ∀ i' b, 1 ≤ i' < n → 0 ≤ b < 140 → sl l (D i') b ≠ a).
  { intros i' b Hi' Hb E. destruct (V7 i' b i 140); try done; lia. }
  split; [|split; [|done]].
  - assert (Hw : vol l' n (fb + 1) (with_inode D i (D i))).
    { apply (vol_fill l n fb D i bn); try done; try lia; try by apply V5.
      - unfold l'. by rewrite length_insert.
      - intros m Hm. rewrite Hvw by lia. destruct (m =? a); [apply put_word_blk, V2; lia|by apply V2].
      - intros m Hm. rewrite Hvw by lia. destruct (Z.eqb_spec m a); [lia|by apply V4]. }
    apply (vol_same _ _ _ _ D) in Hw; [done|]. apply with_inode_id.
  - split; [intros m Hm; rewrite Hvw by lia; by rewrite (proj2 (Z.eqb_neq m a)) by lia| |done].
    intros i' b Hi' Hb. rewrite !fblock_slot by done. specialize (Hdata i' b Hi' Hb). pose proof (V6 i' b Hi' ltac:(lia)) as Hr.
    assert (E : sl l' (D i') b = if (i' =? i) && (b =? bn) then fb else sl l (D i') b).
    { destruct (Z.eqb_spec i' i) as [->|]; [apply Hs; lia|apply Hother; lia]. }
    rewrite E. destruct ((i' =? i) && (b =? bn)) eqn:Eb.
    + apply andb_true_iff in Eb as [E1 E2]. apply Z.eqb_eq in E1 as ->, E2 as ->. rewrite H0, (proj2 (Z.eqb_neq fb 0)) by lia. rewrite Hvw by lia.
      rewrite (proj2 (Z.eqb_neq fb a)) by lia. by rewrite V4 by lia.
    + destruct (Z.eqb_spec (sl l (D i') b) 0); [done|]. rewrite Hvw by lia. by rewrite (proj2 (Z.eqb_neq _ a) Hdata).
Qed.

(** Block [bn] of inode [i], of [c] blocks, is there. *)
Record has_block (l : list blk) (n fb : Z) (D : Z → dinode) (i c bn : Z) (l' : list blk) (fb' : Z) (d' : dinode) (x : Z) : Prop := {
  hb_vol : vol l' n fb' (with_inode D i d');
  hb_ext : ext n i l D l' (with_inode D i d');
  hb_meta : same_meta (D i) d';
  hb_slot : sl l' d' bn = x;
  hb_shape : shape l' d' (Z.max c (bn + 1));
  hb_fb : fb' = fb + nb (Z.max c (bn + 1)) - nb c;
}.
Lemma nth_u32 l k : Forall is_u32 l → is_u32 (nth k l 0).
Proof. intros H. rewrite nth_lookup. destruct (l !! k) eqn:E; simpl; [by eapply Forall_lookup_1 in H|unfold is_u32; lia]. Qed.
Lemma get_word_u32 b k : is_blk b → is_u32 (get_word b k).
Proof.
  intros [_ H]. assert (Hb : ∀ i, is_u8 (nth i b 0)).
  { intros i. rewrite nth_lookup. destruct (b !! i) eqn:E; simpl; [by eapply Forall_lookup_1 in H|unfold is_u8; lia]. }
  unfold get_word, is_u32. pose proof (Hb (4 * k)%nat). pose proof (Hb (4 * k + 1)%nat). pose proof (Hb (4 * k + 2)%nat). pose proof (Hb (4 * k + 3)%nat).
  unfold is_u8 in *. lia.
Qed.
Lemma alloc_block_ok l sb fi fb : 59 ≤ fb < 1000 → alloc_block (Mst l sb fi fb) = Ok (fb, Mst l sb fi (fb + 1)).
Proof.
  intros H. unfold alloc_block. erewrite (bind_Ok_l (gets freeblock)) by reflexivity. erewrite bind_Ok_l by reflexivity.
  cbn [img msb freeinode freeblock mret]. unfold mret. rewrite xint_id, wrap32_id by (unfold is_u32; lia). done.
Qed.
(** The blocks there after the next one, with the indirect block if it is new. *)
Lemma shape_next l d c l' d' fb : shape l d c → 59 ≤ fb → 0 ≤ c < 140 → (sl l' d' 140 ≠ 0 ↔ 12 ≤ c) →
  (∀ j, 0 ≤ j < 140 → sl l' d' j = if j =? c then fb else sl l d j) → shape l' d' (c + 1).
Proof.
  intros Hsh Hfb Hc H140 Hs j Hj. unfold occ. destruct (Z.eqb_spec j 140) as [->|Hne]; [rewrite H140, Z.ltb_lt; lia|].
  rewrite Hs by lia. specialize (Hsh j Hj). unfold occ in Hsh. rewrite (proj2 (Z.eqb_neq j 140) Hne) in Hsh. rewrite Z.ltb_lt in *.
  destruct (Z.eqb_spec j c); [lia|]. rewrite Hsh. lia.
Qed.
Lemma has_block_there l n fb D i c bn : vol l n fb D → 1 ≤ i < n → 0 ≤ bn < c → c ≤ 140 → shape l (D i) c →
  has_block l n fb D i c bn l fb (D i) (sl l (D i) bn).
Proof.
  intros Hv Hi Hbn Hc Hsh. rewrite <- (Z.max_l c (bn + 1)) in Hsh by lia. split; try done.
  - eapply vol_same; [|exact Hv]. intros x. symmetry. apply with_inode_id.
  - split; [done| |]; intros i' b Hi' Hb; by rewrite <- with_inode_id.
  - rewrite Z.max_l by lia. lia.
Qed.
Lemma shape_at l d c bn : shape l d c → 0 ≤ bn < 140 → sl l d bn = 0 ↔ c ≤ bn.
Proof.
  intros Hsh Hbn. specialize (Hsh bn ltac:(lia)). unfold occ in Hsh. rewrite (proj2 (Z.eqb_neq bn 140)), Z.ltb_lt in Hsh by lia.
  split; intros H; [destruct (Z.le_gt_cases c bn) as [|Hlt]; [done|by apply Hsh in Hlt]|]. destruct (decide (sl l d bn = 0)) as [|Hne]; [done|]. apply Hsh in Hne. lia.
Qed.
Lemma shape_ind l d c : shape l d c → ind (ino d) = 0 ↔ c ≤ 12.
Proof.
  intros Hsh. specialize (Hsh 140 ltac:(lia)). unfold occ in Hsh. change (140 =? 140) with true in Hsh. rewrite slot_ind, Z.ltb_lt in Hsh.
  split; intros H; [destruct (Z.le_gt_cases c 12) as [|Hlt]; [done|by apply Hsh in Hlt]|]. destruct (decide (ind (ino d) = 0)) as [|Hne]; [done|]. apply Hsh in Hne. lia.
Qed.
Lemma block_direct l sb fi n fb D i c bn : vol l n fb D → 1 ≤ i < n → 0 ≤ bn < 12 → bn ≤ c → c ≤ 140 → shape l (D i) c →
  fb + nb (Z.max c (bn + 1)) - nb c ≤ 1000 →
  ∃ l' fb' d' x, iappend_block bn (D i) (Mst l sb fi fb) = Ok ((d', x), Mst l' sb fi fb') ∧ has_block l n fb D i c bn l' fb' d' x.
Proof.
  intros Hv Hi Hbn Hbc Hc Hsh Hroom. pose proof Hv as [V1 V2 V3 V4 V5 V6 V7]. pose proof (V5 i Hi) as Hd. pose proof (dk_len _ Hd) as Hlen.
  unfold iappend_block. change NDIRECT with 12. rewrite (proj2 (Z.ltb_lt bn 12)) by lia.
  assert (Hs : sl l (D i) bn = nth (Z.to_nat bn) (d_addrs (D i)) 0).
  { unfold slot, addr. by rewrite (proj2 (Z.eqb_neq bn 140)), (proj2 (Z.ltb_lt bn 12)) by lia. }
  rewrite <- Hs, (xint_id (sl l (D i) bn)) by (rewrite Hs; apply nth_u32, Hd). destruct (Z.eqb_spec (sl l (D i) bn) 0) as [E|E].
  - pose proof (proj1 (shape_at _ _ _ bn Hsh ltac:(lia)) E). assert (c = bn) as -> by lia. clear Hbc.
    assert (En : nb (bn + 1) = nb bn + 1) by (unfold nb; rewrite (proj2 (Z.ltb_ge 12 (bn + 1))), (proj2 (Z.ltb_ge 12 bn)) by lia; lia).
    rewrite Z.max_r in * by lia. erewrite bind_Ok_l; [|erewrite bind_Ok_l by (apply alloc_block_ok; lia); reflexivity].
    destruct (alloc_addr l n fb D i (Z.to_nat bn) Hv Hi ltac:(lia) ltac:(lia) ltac:(congruence)) as (A1 & A2 & A3). rewrite decide_False in A3 by lia. rewrite Z2Nat.id in A3 by lia.
    exists l, (fb + 1), (set_daddr (Z.to_nat bn) fb (D i)), fb. cbn [set_daddr d_addrs]. rewrite nth_insert, decide_True, xint_id by (done || unfold is_u32; lia).
    split; [done|]. split; try done; rewrite ?Z.max_r by lia; [by rewrite A3, Z.eqb_refl by lia| |lia].
    apply (shape_next l (D i) bn _ _ fb); try done; try lia; [|intros j Hj; apply A3; lia].
    rewrite A3 by lia. rewrite (proj2 (Z.eqb_neq 140 bn)), slot_ind by lia. rewrite (shape_ind _ _ _ Hsh). lia.
  - rewrite (shape_at _ _ _ bn Hsh ltac:(lia)) in E. eexists _, _, _, _. split; [reflexivity|].
    rewrite <- Hs, xint_id by (rewrite Hs; apply nth_u32, Hd). apply has_block_there; [done..|lia|done|done].
Qed.
Lemma indirect_block_ok l sb fi n fb D i bn : vol l n fb D → 1 ≤ i < n → 12 ≤ bn < 140 → ind (ino (D i)) ≠ 0 → (sl l (D i) bn = 0 → fb < 1000) →
  ∃ l' fb' x, indirect_block bn (D i) (Mst l sb fi fb) = Ok (x, Mst l' sb fi fb') ∧ vol l' n fb' D ∧ ext n i l D l' D ∧ 59 ≤ x ∧
    (∀ j, 0 ≤ j ≤ 140 → sl l' (D i) j = if j =? bn then x else sl l (D i) j) ∧ fb' = fb + (if sl l (D i) bn =? 0 then 1 else 0).
Proof.
  intros Hv Hi Hbn Hind Hroom. pose proof Hv as [V1 V2 V3 V4 V5 V6 V7]. pose proof (V5 i Hi) as Hd. set (a := ind (ino (D i))) in *.
  destruct (V6 i 140 Hi ltac:(lia)) as [E|Ha]; [done|]. rewrite slot_ind in Ha. fold a in Ha.
  assert (Hs : sl l (D i) bn = get_word (view l a) (Z.to_nat (bn - 12))).
  { unfold slot, addr. fold a. rewrite (proj2 (Z.eqb_neq bn 140)), (proj2 (Z.ltb_ge bn 12)) by lia. by rewrite (proj2 (Z.eqb_neq a 0) Hind). }
  unfold indirect_block. change (nth 12 (d_addrs (D i)) 0) with a. rewrite (xint_id a) by (unfold is_u32; lia). cbv zeta.
  rewrite (bind_Ok_l _ _ _ _ _ (rsect_ok (Mst l sb fi fb) a V1 ltac:(lia))). change (img (Mst l sb fi fb)) with l. change NDIRECT with 12.
  rewrite <- Hs. destruct (Z.eqb_spec (sl l (D i) bn) 0) as [E|E].
  - destruct (alloc_word l n fb D i bn Hv Hi Hbn (Hroom E) Hind E) as (A1 & A2 & A3). fold a in A1, A2, A3.
    rewrite (bind_Ok_l _ _ _ (put_word (view l a) (Z.to_nat (bn - 12)) fb) (Mst (<[Z.to_nat a:=put_word (view l a) (Z.to_nat (bn - 12)) fb]> l) sb fi (fb + 1))).
    2:{ rewrite (bind_Ok_l _ _ _ _ _ (alloc_block_ok l sb fi fb ltac:(lia))). by rewrite (bind_Ok_l _ _ _ _ _ (wsect_ok (Mst l sb fi (fb + 1)) a _ V1 ltac:(lia))). }
    destruct (V2 a ltac:(lia)) as [Hlen _]. rewrite get_put_word, decide_True, Z.mod_small, xint_id by (done || unfold is_u32; lia).
    eexists _, _, fb. split; [reflexivity|]. split_and!; try done. lia.
  - eexists _, _, (sl l (D i) bn). split; [|split; [exact Hv|]].
    + erewrite bind_Ok_l by reflexivity. rewrite <- Hs, xint_id by (rewrite Hs; apply get_word_u32, V2; lia). reflexivity.
    + destruct (V6 i bn Hi ltac:(lia)) as [|Hr]; [done|]. split; [done|]. split; [lia|]. split; [|lia].
      intros j Hj. by destruct (Z.eqb_spec j bn) as [->|].
Qed.
Lemma block_indirect l sb fi n fb D i c bn : vol l n fb D → 1 ≤ i < n → 12 ≤ bn < 140 → bn ≤ c → c ≤ 140 → shape l (D i) c →
  fb + nb (Z.max c (bn + 1)) - nb c ≤ 1000 →
  ∃ l' fb' d' x, iappend_block bn (D i) (Mst l sb fi fb) = Ok ((d', x), Mst l' sb fi fb') ∧ has_block l n fb D i c bn l' fb' d' x.
Proof.
  intros Hv Hi Hbn Hbc Hc Hsh Hroom. pose proof Hv as [V1 V2 V3 V4 V5 V6 V7]. pose proof (V5 i Hi) as Hd. pose proof (dk_len _ Hd) as Hlen.
  unfold iappend_block. change NDIRECT with 12. rewrite (proj2 (Z.ltb_ge bn 12)) by lia. change (nth 12 (d_addrs (D i)) 0) with (ind (ino (D i))).
  rewrite (xint_id (ind (ino (D i)))) by (apply nth_u32, Hd). destruct (Z.eqb_spec (ind (ino (D i))) 0) as [E|E].
  - (* the first of them *)
    pose proof (proj1 (shape_ind _ _ _ Hsh) E). assert (c = 12 ∧ bn = 12) as [-> ->] by lia. change (Z.max 12 (12 + 1)) with 13 in *. change (nb 13) with 14 in *. change (nb 12) with 12 in *.
    erewrite bind_Ok_l; [|erewrite bind_Ok_l by (apply alloc_block_ok; lia); reflexivity].
    destruct (alloc_addr l n fb D i 12 Hv Hi ltac:(lia) ltac:(lia) E) as (A1 & A2 & A3). rewrite decide_True in A3 by done. set (d1 := set_daddr 12 fb (D i)) in *.
    assert (H140 : ind (ino d1) = fb) by (specialize (A3 140 ltac:(lia)); done).
    assert (H12 : sl l d1 12 = 0) by (specialize (A3 12 ltac:(lia)); rewrite A3; by apply (shape_at _ _ _ 12 Hsh)).
    destruct (indirect_block_ok l sb fi n (fb + 1) (with_inode D i d1) i 12 A1 Hi ltac:(lia)) as (l' & fb' & x & R1 & R2 & R3 & R4 & R5 & R6);
      rewrite ?with_inode_eq in *; [rewrite H140; lia|lia|].
    rewrite (bind_Ok_l _ _ _ _ _ R1). exists l', fb', d1, x. split; [done|]. rewrite H12 in R6. cbn in R6. split; try done.
    + by eapply ext_trans.
    + by rewrite R5 by lia.
    + apply (shape_next l (D i) 12 _ _ x); try done; try lia; [rewrite R5 by lia; change (140 =? 12) with false; cbn iota; rewrite slot_ind, H140; lia|].
      intros j Hj. rewrite R5 by lia. destruct (Z.eqb_spec j 12); [done|]. rewrite A3 by lia. by rewrite (proj2 (Z.eqb_neq j 140)) by lia.
    + change (Z.max 12 (12 + 1)) with 13. change (nb 13) with 14. change (nb 12) with 12. lia.
  - pose proof E as E'. rewrite (shape_ind _ _ _ Hsh) in E'. erewrite bind_Ok_l by reflexivity.
    assert (En : nb (Z.max c (bn + 1)) = nb c + (if sl l (D i) bn =? 0 then 1 else 0)).
    { pose proof (shape_at _ _ _ bn Hsh ltac:(lia)) as Hat. unfold nb. rewrite !(proj2 (Z.ltb_lt 12 _)) by lia. destruct (Z.eqb_spec (sl l (D i) bn) 0); lia. }
    destruct (indirect_block_ok l sb fi n fb D i bn Hv Hi Hbn E) as (l' & fb' & x & R1 & R2 & R3 & R4 & R5 & R6); [intros E0; rewrite E0 in En; cbn in En; lia|].
    rewrite (bind_Ok_l _ _ _ _ _ R1). exists l', fb', (D i), x. split; [done|]. split; try done.
    + eapply vol_same; [|exact R2]. intros y. symmetry. apply with_inode_id.
    + destruct R3 as [X1 X2 X3]. split; [done| |]; intros i' b Hi' Hb; rewrite <- with_inode_id; [by apply X2|by apply X3].
    + by rewrite R5, Z.eqb_refl by lia.
    + destruct (decide (c = bn)) as [->|Hne].
      * rewrite Z.max_r by lia. apply (shape_next l (D i) bn _ _ x); try done; try lia; [|intros j Hj; apply R5; lia].
        rewrite R5 by lia. rewrite (proj2 (Z.eqb_neq 140 bn)), slot_ind by lia. lia.
      * rewrite Z.max_l by lia. intros j Hj. rewrite R5 by done. destruct (Z.eqb_spec j bn) as [->|]; [|by apply Hsh]. rewrite <- (Hsh bn) by lia.
        rewrite (shape_at _ _ _ bn Hsh) by lia. lia.
    + lia.
Qed.
Lemma iappend_block_ok l sb fi n fb D i c bn : vol l n fb D → 1 ≤ i < n → 0 ≤ bn < 140 → bn ≤ c → c ≤ 140 → shape l (D i) c →
  fb + nb (Z.max c (bn + 1)) - nb c ≤ 1000 →
  ∃ l' fb' d' x, iappend_block bn (D i) (Mst l sb fi fb) = Ok ((d', x), Mst l' sb fi fb') ∧ has_block l n fb D i c bn l' fb' d' x.
Proof. intros Hv Hi Hbn. destruct (decide (bn < 12)); [apply block_direct|apply block_indirect]; try done; lia. Qed.

(** ** Appending *)

Lemma nth_bcopy p buf o n i : (o + n ≤ length buf)%nat → (n ≤ length p)%nat →
  nth i (bcopy p buf o n) 0 = if decide (o ≤ i < o + n)%nat then nth (i - o) p 0 else nth i buf 0.
Proof.
  intros Ho Hn. unfold bcopy. rewrite !nth_lookup. case_decide as Hi.
  - rewrite lookup_app_r, length_take, Nat.min_l by (rewrite ?length_take; lia). rewrite lookup_app_l by (rewrite ?length_take; lia).
    by rewrite lookup_take_lt by lia.
  - destruct (decide (i < o)%nat).
    + rewrite lookup_app_l by (rewrite ?length_take; lia). by rewrite lookup_take_lt by lia.
    + rewrite lookup_app_r, length_take, Nat.min_l by (rewrite ?length_take; lia). rewrite lookup_app_r, length_take, Nat.min_l by (rewrite ?length_take; lia).
      rewrite lookup_drop. do 2 f_equal. lia.
Qed.
Lemma bcopy_blk p buf o n : is_blk buf → Forall is_u8 p → (o + n ≤ 512)%nat → (n ≤ length p)%nat → is_blk (bcopy p buf o n).
Proof.
  intros [H1 H2] Hp Ho Hn. unfold bcopy. split; [rewrite !length_app, !length_take, length_drop; lia|].
  repeat apply Forall_app_2; [by apply Forall_take|by apply Forall_take|by apply Forall_drop].
Qed.
(** A data block is written. *)
Lemma image_write_block l n fb D i bn b : vol l n fb D → 1 ≤ i < n → 0 ≤ bn < 140 → sl l (D i) bn ≠ 0 → is_blk b →
  let l' := <[Z.to_nat (sl l (D i) bn) := b]> l in
  vol l' n fb D ∧ (∀ m, 0 ≤ m < 59 → view l' m = view l m) ∧ (∀ i' j, 1 ≤ i' < n → 0 ≤ j ≤ 140 → sl l' (D i') j = sl l (D i') j) ∧
  (∀ i' b', 1 ≤ i' < n → 0 ≤ b' < 140 → fbk l' (D i') b' = if (i' =? i) && (b' =? bn) then b else fbk l (D i') b').
Proof.
  intros [V1 V2 V3 V4 V5 V6 V7] Hi Hbn Hx Hb l'. set (x := sl l (D i) bn) in *. destruct (V6 i bn Hi ltac:(lia)) as [|Hr]; [done|]. fold x in Hr.
  assert (Hvw : ∀ m, 0 ≤ m → view l' m = if m =? x then b else view l m) by (intros m Hm; apply view_insert; [done|lia|done]).
  assert (Hs : ∀ i' j, 1 ≤ i' < n → 0 ≤ j ≤ 140 → sl l' (D i') j = sl l (D i') j).
  { intros i' j Hi' Hj. apply slot_same; [done|]. intros Hn. destruct (V6 i' 140 Hi' ltac:(lia)) as [|Hr']; [done|]. rewrite slot_ind in Hr'. rewrite Hvw by lia.
    destruct (Z.eqb_spec (ind (ino (D i'))) x) as [E|]; [|done]. destruct (V7 i' 140 i bn); try done; lia. }
  split; [|split; [|split; [done|]]].
  - split; try done.
    + unfold l'. by rewrite length_insert.
    + intros m Hm. rewrite Hvw by lia. destruct (m =? x); [done|by apply V2].
    + intros m Hm. rewrite Hvw by lia. destruct (Z.eqb_spec m x); [lia|by apply V4].
    + intros i' j Hi' Hj. rewrite Hs by done. by apply V6.
    + intros i1 j1 i2 j2 H1 H2 H3 H4. rewrite !Hs by done. by apply V7.
  - intros m Hm. rewrite Hvw by lia. by rewrite (proj2 (Z.eqb_neq m x)) by lia.
  - intros i' b' Hi' Hb'. rewrite !fblock_slot, Hs by lia. destruct (V6 i' b' Hi' ltac:(lia)) as [E|Hr'].
    + rewrite E. destruct ((i' =? i) && (b' =? bn)) eqn:Eb; [|done]. apply andb_true_iff in Eb as [E1 E2]. apply Z.eqb_eq in E1 as ->, E2 as ->. done.
    + rewrite (proj2 (Z.eqb_neq _ 0)) by lia. rewrite Hvw by lia. destruct (Z.eqb_spec (sl l (D i') b') x) as [E|E].
      * destruct (V7 i' b' i bn) as [-> ->]; try done; try lia. by rewrite !Z.eqb_refl.
      * destruct ((i' =? i) && (b' =? bn)) eqn:Eb; [|done]. apply andb_true_iff in Eb as [E1 E2]. apply Z.eqb_eq in E1 as ->, E2 as ->. done.
Qed.
(** The blocks for [x] bytes. *)
Definition cdiv (x : Z) : Z := (x + 511) / 512.
Lemma nb_mono c c' : c ≤ c' → nb c ≤ nb c'.
Proof. unfold nb. intros H. destruct (Z.ltb_spec 12 c), (Z.ltb_spec 12 c'); lia. Qed.
Notation byte l d := (fbyte (tx l) (ino d)).
(** [p] is stored at [off] in inode [i]; [off] is the end of the file so far. *)
Record appended (l : list blk) (n fb : Z) (D : Z → dinode) (i off : Z) (p : list Z) (l' : list blk) (fb' : Z) (d' : dinode) : Prop := {
  ap_vol : vol l' n fb' (with_inode D i d');
  ap_meta : same_meta (D i) d';
  ap_shape : shape l' d' (cdiv (off + Z.of_nat (length p)));
  ap_fb : fb' = fb + nb (cdiv (off + Z.of_nat (length p))) - nb (cdiv off);
  ap_low : ∀ m, 0 ≤ m < 59 → view l' m = view l m;
  ap_slot : ∀ i' j, 1 ≤ i' < n → i' ≠ i → 0 ≤ j ≤ 140 → sl l' (D i') j = sl l (D i') j;
  ap_other : ∀ i' o, 1 ≤ i' < n → i' ≠ i → 0 ≤ o < 140 * 512 → byte l' (D i') o = byte l (D i') o;
  ap_data : ∀ o, 0 ≤ o < 140 * 512 →
    byte l' d' o = if decide (off ≤ o < off + Z.of_nat (length p)) then nth (Z.to_nat (o - off)) p 0 else byte l (D i) o;
}.

Lemma with_inode_twice D i d d' x : with_inode D i d' x = with_inode (with_inode D i d) i d' x.
Proof. unfold with_inode. by destruct (x =? i). Qed.
Lemma same_meta_trans d d1 d2 : same_meta d d1 → same_meta d1 d2 → same_meta d d2.
Proof. unfold same_meta. intros (? & ? & ? & ? & ?) (? & ? & ? & ? & ?). split_and!; congruence. Qed.
Lemma with_inode_ne D i d j : j ≠ i → with_inode D i d j = D j.
Proof. intros H. unfold with_inode. by rewrite (proj2 (Z.eqb_neq j i) H). Qed.
(** One piece, within block [off / 512]. *)
Lemma append_piece l sb fi n fb D i off p : vol l n fb D → 1 ≤ i < n → shape l (D i) (cdiv off) → 0 ≤ off < 140 * 512 → p ≠ [] → Forall is_u8 p →
  Z.of_nat (length p) ≤ (off / 512 + 1) * 512 - off → fb + nb (off / 512 + 1) - nb (cdiv off) ≤ 1000 →
  ∃ l' fb' d' x b, iappend_block (off / 512) (D i) (Mst l sb fi fb) = Ok ((d', x), Mst l' sb fi fb') ∧ length l' = 1000%nat ∧ 0 ≤ x < 1000 ∧
    view l' x = b ∧ is_blk b ∧
    appended l n fb D i off p (<[Z.to_nat x := bcopy p b (Z.to_nat (off mod 512)) (length p)]> l') fb' d'.
Proof.
  intros Hv Hi Hsh Hoff Hp Hu Hlen Hroom. set (bn := off / 512) in *. pose proof (Z.div_mod off 512 ltac:(lia)) as Hdm. pose proof (Z.mod_pos_bound off 512 ltac:(lia)) as Hmb. fold bn in Hdm.
  assert (Hbn : 0 ≤ bn < 140) by lia. assert (Hc : bn ≤ cdiv off ≤ bn + 1) by (unfold cdiv; Z.div_mod_to_equations; lia).
  assert (Hlp : 0 < Z.of_nat (length p)) by (destruct p; [done|simpl; lia]).
  assert (Hcd : cdiv (off + Z.of_nat (length p)) = bn + 1) by (unfold cdiv; Z.div_mod_to_equations; lia).
  destruct (iappend_block_ok l sb fi n fb D i (cdiv off) bn Hv Hi Hbn ltac:(lia) ltac:(lia) Hsh) as (l' & fb' & d' & x & E & [B1 B2 B3 B4 B5 B6]); [by rewrite Z.max_r by lia|].
  rewrite Z.max_r in B5, B6 by lia. pose proof B1 as [V1 V2 V3 V4 V5 V6 V7]. assert (Hx0 : x ≠ 0) by (rewrite <- B4; rewrite (shape_at _ _ _ bn B5) by lia; lia).
  assert (Hxr : 59 ≤ x < fb') by (destruct (V6 i bn Hi ltac:(lia)) as [H|H]; rewrite with_inode_eq, B4 in H; lia).
  destruct (V2 x ltac:(lia)) as [Hbl Hbu]. exists l', fb', d', x, (view l' x). split; [done|]. split; [done|]. split; [lia|]. split; [done|]. split; [done|].
  set (b := bcopy p (view l' x) (Z.to_nat (off mod 512)) (length p)).
  assert (Hb : is_blk b) by (apply bcopy_blk; [done|done|lia|lia]).
  destruct (image_write_block l' n fb' (with_inode D i d') i bn b B1 Hi Hbn) as (W1 & W2 & W3 & W4); rewrite ?with_inode_eq, ?B4 in *; [done|done|].
  split; try done; rewrite ?Hcd; try done.
  - intros j Hj. specialize (W3 i j Hi Hj). rewrite with_inode_eq in W3. rewrite W3. by apply B5.
  - intros m Hm. rewrite W2 by done. by apply B2.
  - intros i' j Hi' Hne Hj. specialize (W3 i' j Hi' Hj). pose proof (ex_slot _ _ _ _ _ _ B2 i' j Hi' Hne Hj) as X. rewrite with_inode_ne in W3, X by done. by rewrite W3.
  - intros i' o Hi' Hne Ho. assert (Hb' : 0 ≤ o / 512 < 140) by (Z.div_mod_to_equations; lia). unfold fbyte. specialize (W4 i' (o / 512) Hi' Hb').
    rewrite with_inode_ne, (proj2 (Z.eqb_neq i' i) Hne) in W4 by done. cbn [andb] in W4. rewrite W4. f_equal.
    pose proof (ex_data _ _ _ _ _ _ B2 i' (o / 512) Hi' Hb') as X. by rewrite with_inode_ne in X by done.
  - intros o Ho. assert (Hb' : 0 ≤ o / 512 < 140) by (Z.div_mod_to_equations; lia). unfold fbyte. specialize (W4 i (o / 512) Hi Hb').
    pose proof (ex_data _ _ _ _ _ _ B2 i (o / 512) Hi Hb') as X. rewrite with_inode_eq in W4, X. rewrite Z.eqb_refl in W4. cbn [andb] in W4. rewrite W4, <- X.
    destruct (Z.eqb_spec (o / 512) bn) as [Eo|Eo].
    + assert (Hfx : fbk l' d' bn = view l' x) by (rewrite fblock_slot, B4 by lia; by rewrite (proj2 (Z.eqb_neq x 0) Hx0)).
      unfold b. rewrite nth_bcopy by lia. rewrite Eo, Hfx. pose proof (Z.div_mod o 512 ltac:(lia)). pose proof (Z.mod_pos_bound o 512 ltac:(lia)).
      destruct (decide (off ≤ o < off + Z.of_nat (length p))); [rewrite decide_True by lia; f_equal; lia|by rewrite decide_False by lia].
    + rewrite decide_False; [done|]. intros Hr. apply Eo. unfold bn. Z.div_mod_to_equations. lia.
Qed.

Lemma appended_app l n fb D i off p l1 fb1 d1 q l2 fb2 d2 : 1 ≤ i < n → 0 ≤ off → appended l n fb D i off p l1 fb1 d1 →
  appended l1 n fb1 (with_inode D i d1) i (off + Z.of_nat (length p)) q l2 fb2 d2 → appended l n fb D i off (p ++ q) l2 fb2 d2.
Proof.
  intros Hi Hoff [A1 A2 A3 A4 A5 A8 A6 A7] [B1 B2 B3 B4 B5 B8 B6 B7]. rewrite with_inode_eq in *.
  assert (El : off + Z.of_nat (length (p ++ q)) = off + Z.of_nat (length p) + Z.of_nat (length q)) by (rewrite length_app; lia).
  split; rewrite ?El; try done.
  - eapply vol_same; [|exact B1]. intros x. apply with_inode_twice.
  - by eapply same_meta_trans.
  - lia.
  - intros m Hm. by rewrite B5, A5.
  - intros i' j Hi' Hne Hj. specialize (B8 i' j Hi' Hne Hj). rewrite with_inode_ne in B8 by done. rewrite B8. by apply A8.
  - intros i' o Hi' Hne Ho. specialize (B6 i' o Hi' Hne Ho). rewrite with_inode_ne in B6 by done. rewrite B6. by apply A6.
  - intros o Ho. rewrite B7, A7 by done. repeat case_decide; try lia; try done; rewrite !nth_lookup.
    + rewrite lookup_app_r by lia. do 2 f_equal. lia.
    + by rewrite lookup_app_l by lia.
Qed.
Lemma iappend_loop_ok k sb fi n i : 1 ≤ i < n → ∀ p l fb D off, (length p ≤ k)%nat → vol l n fb D → shape l (D i) (cdiv off) → 0 ≤ off →
  off + Z.of_nat (length p) ≤ 140 * 512 → fb + nb (cdiv (off + Z.of_nat (length p))) - nb (cdiv off) ≤ 1000 → Forall is_u8 p →
  ∃ l' fb' d', iappend_loop k (D i) off p (Mst l sb fi fb) = Ok ((d', off + Z.of_nat (length p)), Mst l' sb fi fb') ∧
    appended l n fb D i off p l' fb' d'.
Proof.
  intros Hi. induction k as [|k IH]; intros p l fb D off Hk Hv Hsh Hoff Hmax Hroom Hu.
  all: destruct (decide (p = [])) as [->|Hp].
  1, 3: eexists l, fb, (D i); cbn [length iappend_loop Nat.eqb] in *; rewrite Z.add_0_r; split; [done|]; split; rewrite ?Z.add_0_r; try done; try lia;
    [eapply vol_same; [|exact Hv]; intros x; symmetry; apply with_inode_id|intros o Ho; by rewrite decide_False by (simpl; lia)].
  { destruct p; [done|simpl in Hk; lia]. }
  assert (Hlp : 0 < Z.of_nat (length p)) by (destruct p; [done|simpl; lia]).
  pose proof (Z.div_mod off 512 ltac:(lia)) as Hdm. pose proof (Z.mod_pos_bound off 512 ltac:(lia)) as Hmb.
  set (n1 := Z.min (Z.of_nat (length p)) ((off / 512 + 1) * 512 - off)). set (p1 := take (Z.to_nat n1) p).
  assert (Hn1 : 0 < n1 ≤ Z.of_nat (length p)) by lia. assert (Hl1 : Z.of_nat (length p1) = n1) by (unfold p1; rewrite length_take; lia).
  assert (Hlt : off / 512 + 1 ≤ cdiv (off + Z.of_nat (length p))) by (unfold cdiv; Z.div_mod_to_equations; lia). apply nb_mono in Hlt.
  destruct (append_piece l sb fi n fb D i off p1 Hv Hi Hsh ltac:(lia)) as (l1 & fb1 & d1 & x & b & E & L1 & L2 & L3 & L4 & Hap).
  { intros E. rewrite E in Hl1. simpl in Hl1. lia. } { by apply Forall_take. } { lia. } { lia. }
  pose proof Hap as [P1 P2 P3 P4 P5 P8 P6 P7]. rewrite Hl1 in P3, P4. set (l2 := <[_ := _]> l1) in *.
  destruct (IH (drop (Z.to_nat n1) p) l2 fb1 (with_inode D i d1) (off + n1)) as (l' & fb' & d' & R1 & R2); rewrite ?with_inode_eq in *; try done; try lia;
    rewrite ?length_drop; try lia.
  { replace (off + n1 + Z.of_nat (length p - Z.to_nat n1)) with (off + Z.of_nat (length p)) by lia. lia. }
  { by apply Forall_drop. }
  exists l', fb', d'. split.
  - cbn [iappend_loop]. rewrite (proj2 (Nat.eqb_neq (length p) 0)) by lia. change MAXFILE with 140. change BSIZE with 512.
    rewrite (proj2 (Z.ltb_lt (off / 512) 140)) by lia. cbn [negb]. rewrite (bind_Ok_l _ _ _ _ _ E). cbn beta iota. fold n1.
    rewrite (bind_Ok_l _ _ _ _ _ (rsect_ok (Mst l1 sb fi fb1) x L1 L2)). change (img (Mst l1 sb fi fb1)) with l1. rewrite L3.
    rewrite (bind_Ok_l _ _ _ _ _ (wsect_ok (Mst l1 sb fi fb1) x _ L1 L2)). unfold set_img. cbn [img msb freeinode freeblock].
    rewrite wrap32_id by (unfold is_u32; lia). rewrite length_drop in R1. replace (off + Z.of_nat (length p)) with (off + n1 + Z.of_nat (length p - Z.to_nat n1)) by lia.
    rewrite <- R1. unfold l2. do 3 f_equal.
    replace (off - off / 512 * 512) with (off mod 512) by lia. replace (length p1) with (Z.to_nat n1) by lia. unfold bcopy, p1. by rewrite take_take, Nat.min_id.
  - rewrite <- (take_drop (Z.to_nat n1) p). apply (appended_app l n fb D i off p1 l2 fb1 d1); try done. by rewrite Hl1.
Qed.

(** ** Inodes on the image *)

Lemma IBLOCK_mk i : 0 ≤ i < 208 → IBLOCK i demo_sb = 32 + i / 8.
Proof. intros H. unfold IBLOCK. change IPB with 8. cbn [inodestart demo_sb]. rewrite wrap32_id; [lia|]. unfold is_u32. Z.div_mod_to_equations. lia. Qed.
(** A block before the data blocks is written. *)
Lemma low_write l n fb D m b : vol l n fb D → 0 ≤ m < 59 → is_blk b →
  let l' := <[Z.to_nat m := b]> l in
  vol l' n fb D ∧ (∀ i j, 1 ≤ i < n → 0 ≤ j ≤ 140 → sl l' (D i) j = sl l (D i) j) ∧
  (∀ i o, 1 ≤ i < n → 0 ≤ o < 140 * 512 → byte l' (D i) o = byte l (D i) o).
Proof.
  intros [V1 V2 V3 V4 V5 V6 V7] Hm Hb l'.
  assert (Hvw : ∀ k, 0 ≤ k → view l' k = if k =? m then b else view l k) by (intros k Hk; apply view_insert; [done|lia|done]).
  assert (Hs : ∀ i j, 1 ≤ i < n → 0 ≤ j ≤ 140 → sl l' (D i) j = sl l (D i) j).
  { intros i j Hi Hj. apply slot_same; [done|]. intros Hn. destruct (V6 i 140 Hi ltac:(lia)) as [|Hr]; [done|]. rewrite slot_ind in Hr. rewrite Hvw by lia.
    by rewrite (proj2 (Z.eqb_neq _ m)) by lia. }
  split; [|split; [done|]].
  - split; try done.
    + unfold l'. by rewrite length_insert.
    + intros k Hk. rewrite Hvw by lia. destruct (k =? m); [done|by apply V2].
    + intros k Hk. rewrite Hvw by lia. rewrite (proj2 (Z.eqb_neq k m)) by lia. by apply V4.
    + intros i j Hi Hj. rewrite Hs by done. by apply V6.
    + intros i1 j1 i2 j2 H1 H2 H3 H4. rewrite !Hs by done. by apply V7.
  - intros i o Hi Ho. assert (Hb' : 0 ≤ o / 512 < 140) by (Z.div_mod_to_equations; lia). unfold fbyte. f_equal. rewrite !fblock_slot, Hs by lia.
    destruct (V6 i (o / 512) Hi ltac:(lia)) as [E|Hr]; [by rewrite E|]. rewrite (proj2 (Z.eqb_neq _ 0)) by lia. rewrite Hvw by lia. by rewrite (proj2 (Z.eqb_neq _ m)) by lia.
Qed.
(** Inodes 1 to [n - 1] are [D] on the image, and their files have the contents [F]. *)
Record built (l : list blk) (n fb : Z) (D : Z → dinode) (F : Z → list Z) : Prop := {
  bu_vol : vol l n fb D;
  bu_n : 1 ≤ n ≤ 208;
  bu_disk : ∀ i, 1 ≤ i < n → get_dinode (view l (32 + i / 8)) (Z.to_nat (i mod 8)) = D i;
  bu_size : ∀ i, 1 ≤ i < n → d_size (D i) = Z.of_nat (length (F i)) ∧ d_size (D i) ≤ 140 * 512;
  bu_shape : ∀ i, 1 ≤ i < n → shape l (D i) (cdiv (d_size (D i)));
  bu_byte : ∀ i o, 1 ≤ i < n → 0 ≤ o < 140 * 512 → byte l (D i) o = nth (Z.to_nat o) (F i) 0;
  bu_type : ∀ i, 1 ≤ i < n → d_type (D i) = (if i =? 1 then T_DIR else T_FILE) ∧ d_nlink (D i) = 1;
}.
Lemma winode_ok l n fb D fi fb0 i d : vol l n fb D → 1 ≤ i < 208 → dinode_ok d →
  ∃ b, winode i d (Mst l demo_sb fi fb0) = Ok (tt, Mst (<[Z.to_nat (32 + i / 8) := b]> l) demo_sb fi fb0) ∧ is_blk b ∧
    b = put_dinode (view l (32 + i / 8)) (Z.to_nat (i mod 8)) d.
Proof.
  intros [V1 V2 V3 V4 V5 V6 V7] Hi Hd. assert (Hr : 32 ≤ 32 + i / 8 < 58) by (Z.div_mod_to_equations; lia).
  eexists. split; [|split; [|reflexivity]]; [|apply put_dinode_blk, V2; lia].
  unfold winode. erewrite (bind_Ok_l (gets msb)) by reflexivity. cbv zeta. cbn [msb]. rewrite IBLOCK_mk by lia.
  rewrite (bind_Ok_l _ _ _ _ _ (rsect_ok (Mst l demo_sb fi fb0) (32 + i / 8) V1 ltac:(lia))). rewrite wsect_ok by (done || lia). done.
Qed.
Lemma rinode_ok l n fb D F fi fb0 i : built l n fb D F → 1 ≤ i < n → rinode i (Mst l demo_sb fi fb0) = Ok (D i, Mst l demo_sb fi fb0).
Proof.
  intros [[V1 V2 V3 V4 V5 V6 V7] Hn Hst _ _ _ _] Hi. assert (Hr : 32 ≤ 32 + i / 8 < 58) by (Z.div_mod_to_equations; lia).
  unfold rinode. erewrite (bind_Ok_l (gets msb)) by reflexivity. cbv zeta. cbn [msb]. rewrite IBLOCK_mk by lia.
  rewrite (bind_Ok_l _ _ _ _ _ (rsect_ok (Mst l demo_sb fi fb0) (32 + i / 8) V1 ltac:(lia))). unfold mret, M_ret. cbn [img]. change IPB with 8. by rewrite Hst.
Qed.
(** Where the written inode is found, and the others. *)
Lemma winode_disk l i d j : length l = 1000%nat → is_blk (view l (32 + i / 8)) → 1 ≤ i < 208 → 1 ≤ j < 208 → dinode_ok d →
  get_dinode (view (<[Z.to_nat (32 + i / 8) := put_dinode (view l (32 + i / 8)) (Z.to_nat (i mod 8)) d]> l) (32 + j / 8)) (Z.to_nat (j mod 8)) =
  if j =? i then d else get_dinode (view l (32 + j / 8)) (Z.to_nat (j mod 8)).
Proof.
  intros Hl [Hb _] Hi Hj Hd. pose proof (Z.div_mod i 8 ltac:(lia)). pose proof (Z.div_mod j 8 ltac:(lia)).
  pose proof (Z.mod_pos_bound i 8 ltac:(lia)). pose proof (Z.mod_pos_bound j 8 ltac:(lia)). rewrite view_insert by lia.
  destruct (Z.eqb_spec (32 + j / 8) (32 + i / 8)) as [E|E].
  - rewrite get_put_dinode by (done || lia). replace (32 + j / 8) with (32 + i / 8) by lia. destruct (Z.eqb_spec j i) as [->|]; [by rewrite decide_True|by rewrite decide_False by lia].
  - rewrite (proj2 (Z.eqb_neq j i)); [done|]. intros ->. lia.
Qed.
Lemma set_dsize_slot l d z j : sl l (set_dsize z d) j = sl l d j.
Proof. done. Qed.
Lemma set_dsize_byte l d z o : byte l (set_dsize z d) o = byte l d o.
Proof. done. Qed.
Definition with_file (F : Z → list Z) (i : Z) (c : list Z) : Z → list Z := λ j, if j =? i then c else F j.
Lemma with_inode_size_vol l n fb D i d z : vol l n fb (with_inode D i d) → is_u32 z → vol l n fb (with_inode D i (set_dsize z d)).
Proof.
  intros [V1 V2 V3 V4 V5 V6 V7] Hz.
  assert (Hs : ∀ x j, sl l (with_inode D i (set_dsize z d) x) j = sl l (with_inode D i d x) j) by (intros x j; unfold with_inode; by destruct (x =? i)).
  split; try done.
  - intros x Hx. specialize (V5 x Hx). unfold with_inode in *. destruct (x =? i); [|done]. by destruct V5.
  - intros x j Hx Hj. rewrite Hs. by apply V6.
  - intros x j x' j' Hx Hj Hx' Hj'. rewrite !Hs. by apply V7.
Qed.

Lemma iappend_ok l n fb D F i p : built l n fb D F → 1 ≤ i < n → Forall is_u8 p → Z.of_nat (length (F i ++ p)) ≤ 140 * 512 →
  fb + nb (cdiv (Z.of_nat (length (F i ++ p)))) - nb (cdiv (Z.of_nat (length (F i)))) ≤ 1000 →
  ∃ l' d', iappend i p (Mst l demo_sb n fb) =
      Ok (tt, Mst l' demo_sb n (fb + nb (cdiv (Z.of_nat (length (F i ++ p)))) - nb (cdiv (Z.of_nat (length (F i)))))) ∧
    built l' n (fb + nb (cdiv (Z.of_nat (length (F i ++ p)))) - nb (cdiv (Z.of_nat (length (F i))))) (with_inode D i d') (with_file F i (F i ++ p)) ∧
    ∀ m, 0 ≤ m < 32 ∨ m = 58 → view l' m = view l m.
Proof.
  intros Hb Hi Hu Hmax Hroom. pose proof Hb as [Hv Hn Hst Hsz Hsh Hby Hty]. destruct (Hsz i Hi) as [Es Hs]. set (off := Z.of_nat (length (F i))) in *.
  assert (El : Z.of_nat (length (F i ++ p)) = off + Z.of_nat (length p)) by (rewrite length_app; lia). rewrite El in *.
  destruct (iappend_loop_ok (length p) demo_sb n n i Hi p l fb D off) as (l1 & fb1 & d1 & E & [A1 A2 A3 A4 A5 A8 A6 A7]); try done; try lia; [rewrite <- Es; by apply Hsh|].
  set (z := off + Z.of_nat (length p)) in *. assert (Hz : is_u32 z) by (unfold is_u32; lia).
  pose proof (with_inode_size_vol _ _ _ _ _ _ z A1 Hz) as A1'. set (d2 := set_dsize z d1) in *.
  assert (Hd2 : dinode_ok d2) by (pose proof (vo_ino _ _ _ _ A1' i Hi) as H; by rewrite with_inode_eq in H).
  destruct (winode_ok l1 n fb1 _ n fb1 i d2 A1' ltac:(lia) Hd2) as (b & E2 & Hb2 & Eb). pose proof (vo_blk _ _ _ _ A1' (32 + i / 8) ltac:(Z.div_mod_to_equations; lia)) as Hbi.
  destruct (low_write l1 n fb1 (with_inode D i d2) (32 + i / 8) b A1' ltac:(Z.div_mod_to_equations; lia) Hb2) as (L1 & L2 & L3).
  exists (<[Z.to_nat (32 + i / 8) := b]> l1), d2. rewrite <- A4. split; [|split].
  - unfold iappend. rewrite (bind_Ok_l _ _ _ _ _ (rinode_ok l n fb D F n fb i Hb Hi)). rewrite Es, (xint_id off) by (unfold is_u32; lia).
    rewrite (bind_Ok_l _ _ _ _ _ E). cbn [fst snd]. rewrite xint_id by done. done.
  - split; try done.
    + intros j Hj. subst b. rewrite winode_disk; [|apply A1'|done|lia|lia|done]. unfold with_inode. destruct (j =? i); [done|].
      rewrite A5 by (Z.div_mod_to_equations; lia). by apply Hst.
    + intros j Hj. unfold with_inode, with_file. destruct (Z.eqb_spec j i); [|by apply Hsz]. cbn [d2 set_dsize d_size]. lia.
    + intros j Hj x Hx. rewrite L2 by done. unfold with_inode. destruct (Z.eqb_spec j i) as [->|Hne]; [by apply A3|].
      rewrite A8 by done. by apply Hsh.
    + intros j o Hj Ho. rewrite L3 by done. unfold with_inode, with_file. destruct (Z.eqb_spec j i) as [->|Hne].
      * unfold d2. rewrite set_dsize_byte, A7 by done. rewrite !nth_lookup. case_decide; [rewrite lookup_app_r by lia; do 2 f_equal; lia|].
        rewrite Hby, nth_lookup by done. destruct (decide (o < off)); [by rewrite lookup_app_l by lia|]. rewrite !lookup_ge_None_2; [done|rewrite length_app; lia|lia].
      * rewrite A6 by done. by apply Hby.
    + intros j Hj. unfold with_inode. destruct (Z.eqb_spec j i) as [->|]; [|by apply Hty]. destruct A2 as (E1 & _ & _ & E4 & _). cbn [d2 set_dsize d_type d_nlink].
      rewrite E1, E4. by apply Hty.
  - intros m Hm. rewrite view_insert; [|apply A1'|Z.div_mod_to_equations; lia|lia]. rewrite (proj2 (Z.eqb_neq _ _)) by (Z.div_mod_to_equations; lia). apply A5. lia.
Qed.

Definition new_inode (ty : Z) : dinode := Dinode ty 0 0 1 0 (replicate 13 0).
Lemma new_inode_slot l ty j : 0 ≤ j ≤ 140 → sl l (new_inode ty) j = 0.
Proof.
  intros Hj. assert (H0 : ∀ k, nth k (replicate 13 0) 0 = 0) by (intros k; apply nth_zeros). unfold slot, addr, ind. cbn [ino new_inode i_addrs d_addrs].
  rewrite !H0. by destruct (j =? 140), (j <? 12).
Qed.
Lemma new_inode_ok ty : 0 ≤ ty < 2^15 → dinode_ok (new_inode ty).
Proof. intros H. split; try done. apply (Forall_replicate is_u32 13 0). unfold is_u32. lia. Qed.
Lemma vol_new l n fb D ty : vol l n fb D → 0 ≤ ty < 2^15 → vol l (n + 1) fb (with_inode D n (new_inode ty)).
Proof.
  intros [V1 V2 V3 V4 V5 V6 V7] Hty. split; try done.
  - intros i Hi. unfold with_inode. destruct (Z.eqb_spec i n); [by apply new_inode_ok|apply V5; lia].
  - intros i j Hi Hj. unfold with_inode. destruct (Z.eqb_spec i n); [left; by apply new_inode_slot|apply V6; lia].
  - intros i j i' j' Hi Hj Hi' Hj'. unfold with_inode. destruct (Z.eqb_spec i n); [by rewrite new_inode_slot|]. destruct (Z.eqb_spec i' n); [|apply V7; lia].
    rewrite (new_inode_slot l ty j') by done. intros -> ?. done.
Qed.
Lemma mk_ialloc_ok l n fb D F ty : built l n fb D F → n < 208 → ty = (if n =? 1 then T_DIR else T_FILE) →
  ∃ l', mk_ialloc ty (Mst l demo_sb n fb) = Ok (n, Mst l' demo_sb (n + 1) fb) ∧
    built l' (n + 1) fb (with_inode D n (new_inode ty)) (with_file F n []) ∧ ∀ m, 0 ≤ m < 32 ∨ m = 58 → view l' m = view l m.
Proof.
  intros [Hv Hn Hst Hsz Hsh Hby Hty] Hlt Ety. assert (Hty15 : 0 ≤ ty < 2^15) by (rewrite Ety; destruct (n =? 1); done).
  pose proof (vol_new l n fb D ty Hv Hty15) as Hv'. pose proof (new_inode_ok ty Hty15) as Hok. set (d := new_inode ty) in *.
  destruct (winode_ok l (n + 1) fb _ (n + 1) fb n d Hv' ltac:(lia) Hok) as (b & E & Hb & Eb).
  pose proof (vo_blk _ _ _ _ Hv' (32 + n / 8) ltac:(Z.div_mod_to_equations; lia)) as Hbi.
  destruct (low_write l (n + 1) fb _ (32 + n / 8) b Hv' ltac:(Z.div_mod_to_equations; lia) Hb) as (L1 & L2 & L3).
  exists (<[Z.to_nat (32 + n / 8) := b]> l). split; [|split].
  - unfold mk_ialloc. erewrite (bind_Ok_l (gets freeinode)) by reflexivity. cbn [freeinode]. erewrite (bind_Ok_l (modify _)) by reflexivity.
    cbn [img msb freeinode freeblock]. rewrite wrap32_id by (unfold is_u32; lia). rewrite (xshort_id ty), (xshort_id 1), (xint_id 0) by (unfold is_u32; lia).
    fold (new_inode ty). fold d. by rewrite (bind_Ok_l _ _ _ _ _ E).
  - split; try done; [lia| | | | |].
    + intros j Hj. subst b. rewrite winode_disk; [|apply Hv'|done|lia|lia|done]. unfold with_inode. destruct (Z.eqb_spec j n); [done|]. apply Hst. lia.
    + intros j Hj. unfold with_inode, with_file. destruct (Z.eqb_spec j n); [done|]. apply Hsz. lia.
    + intros j Hj x Hx. rewrite L2 by done. unfold with_inode. destruct (Z.eqb_spec j n); [|apply Hsh; lia].
      unfold d. rewrite new_inode_slot by done. unfold occ. change (cdiv (d_size (new_inode ty))) with 0. destruct (Z.eqb_spec x 140); [done|]. rewrite Z.ltb_lt. lia.
    + intros j o Hj Ho. rewrite L3 by done. unfold with_inode, with_file. destruct (Z.eqb_spec j n); [|apply Hby; lia].
      assert (Hb' : 0 ≤ o / 512 < 140) by (Z.div_mod_to_equations; lia). unfold fbyte, d. rewrite fblock_slot, new_inode_slot by lia. change (0 =? 0) with true. cbn iota.
      rewrite nth_zeros. by destruct (Z.to_nat o).
    + intros j Hj. unfold with_inode. destruct (Z.eqb_spec j n) as [->|]; [done|]. apply Hty. lia.
  - intros m Hm. rewrite view_insert; [|apply Hv'|Z.div_mod_to_equations; lia|lia]. by rewrite (proj2 (Z.eqb_neq _ _)) by (Z.div_mod_to_equations; lia).
Qed.

(** ** The files of the command line *)

Lemma built_same l n fb D F F' : (∀ i, 1 ≤ i < n → F' i = F i) → built l n fb D F → built l n fb D F'.
Proof.
  intros HF [H1 H2 H3 H4 H5 H6 H7]. split; try done.
  - intros i Hi. rewrite HF by done. by apply H4.
  - intros i o Hi Ho. rewrite HF by done. by apply H6.
Qed.
Notation flen c := (Z.of_nat (length c)).
Notation used_by c := (nb (cdiv (Z.of_nat (length c)))).
Definition keeps_low (l l' : list blk) : Prop := ∀ m, 0 ≤ m < 32 ∨ m = 58 → view l' m = view l m.
Lemma used_by_app {A} (a b : list A) : used_by a ≤ used_by (a ++ b).
Proof. apply nb_mono. unfold cdiv. rewrite length_app. apply Z.div_le_mono; lia. Qed.
Lemma append_all_ok n i pieces : 1 ≤ i < n → Forall (Forall is_u8) pieces → ∀ l fb D F, built l n fb D F →
  flen (F i ++ concat pieces) ≤ 140 * 512 → fb + used_by (F i ++ concat pieces) - used_by (F i) ≤ 1000 →
  ∃ l' D', append_all i pieces (Mst l demo_sb n fb) = Ok (tt, Mst l' demo_sb n (fb + used_by (F i ++ concat pieces) - used_by (F i))) ∧
    built l' n (fb + used_by (F i ++ concat pieces) - used_by (F i)) D' (with_file F i (F i ++ concat pieces)) ∧ keeps_low l l'.
Proof.
  intros Hi Hu. induction Hu as [|p ps Hp Hps IH]; intros l fb D F Hb Hmax Hroom.
  - cbn [concat] in *. rewrite app_nil_r in *. exists l, D. replace (fb + used_by (F i) - used_by (F i)) with fb by lia. split; [done|]. split; [|done].
    eapply built_same; [|exact Hb]. intros j Hj. unfold with_file. by destruct (Z.eqb_spec j i) as [->|].
  - cbn [concat append_all] in *. rewrite app_assoc in *. pose proof (used_by_app (F i ++ p) (concat ps)) as Hm.
    destruct (iappend_ok l n fb D F i p Hb Hi Hp) as (l1 & d1 & E & Hb1 & Hl1); [rewrite length_app in Hmax; lia|lia|].
    set (F1 := with_file F i (F i ++ p)) in *. assert (EF : F1 i = F i ++ p) by (unfold F1, with_file; by rewrite Z.eqb_refl).
    destruct (IH l1 _ _ F1 Hb1) as (l2 & D2 & E2 & Hb2 & Hl2); rewrite ?EF in *; [lia|lia|].
    replace (fb + used_by (F i ++ p) - used_by (F i) + used_by ((F i ++ p) ++ concat ps) - used_by (F i ++ p)) with (fb + used_by ((F i ++ p) ++ concat ps) - used_by (F i)) in * by lia.
    exists l2, D2. split; [by rewrite (bind_Ok_l _ _ _ _ _ E)|]. split; [|intros m Hm'; by rewrite Hl2, Hl1].
    eapply built_same; [|exact Hb2]. intros j Hj. unfold F1, with_file. by destruct (j =? i).
Qed.
(** The entry of a file in the root directory, and its contents. *)
Definition entry (n : Z) (f : hostfile) : list Z := put_dirent (Dirent n (name_field (skip_underscore f.1))).
Definition content (f : hostfile) : list Z := concat (default [] f.2).
Record host_ok (f : hostfile) : Prop := {
  ho_name : Forall is_u8 f.1;
  ho_slash : 47 ∉ f.1;
  ho_file : is_Some f.2;
  ho_bytes : Forall (Forall is_u8) (default [] f.2);
  ho_length : flen (content f) ≤ 140 * 512;
}.
Lemma name_field_u8 name : Forall is_u8 name → Forall is_u8 (name_field name).
Proof.
  intros H. apply Forall_lookup_2. intros i x Hx. unfold name_field in Hx. pose proof (lookup_lt_Some _ _ _ Hx) as Hi. rewrite length_read_bytes in Hi.
  rewrite read_bytes_lookup in Hx by lia. injection Hx as <-. apply bytes_strncpy, bytes_mem2; [|done]. by apply (Forall_replicate is_u8 14 0).
Qed.
Lemma entry_length n f : length (entry n f) = 16%nat.
Proof. unfold entry, put_dirent. rewrite length_app. cbn [de_name]. by rewrite length_name_field. Qed.
Lemma entry_u8 n f : host_ok f → Forall is_u8 (entry n f).
Proof.
  intros Hf. unfold entry, put_dirent. apply Forall_app_2; [|cbn [de_name]; apply name_field_u8].
  - repeat constructor; cbn [de_inum]; unfold is_u8; apply Z.mod_pos_bound; lia.
  - destruct Hf as [Hn _ _ _]. unfold skip_underscore. destruct f as [[|c name] x]; simpl in *; [done|]. destruct (c =? 95); [by inversion Hn|done].
Qed.
Lemma add_file_ok l n fb D F f : built l n fb D F → 2 ≤ n < 208 → host_ok f → flen (F 1) + 16 ≤ 140 * 512 →
  fb + used_by (F 1 ++ entry n f) - used_by (F 1) + used_by (content f) ≤ 1000 →
  ∃ l' D' F', add_file f (Mst l demo_sb n fb) = Ok (tt, Mst l' demo_sb (n + 1) (fb + used_by (F 1 ++ entry n f) - used_by (F 1) + used_by (content f))) ∧
    built l' (n + 1) (fb + used_by (F 1 ++ entry n f) - used_by (F 1) + used_by (content f)) D' F' ∧ keeps_low l l' ∧
    F' 1 = F 1 ++ entry n f ∧ F' n = content f ∧ ∀ i, 2 ≤ i < n → F' i = F i.
Proof.
  intros Hb Hn Hf Hmax Hroom. pose proof Hf as [Hna Hsl Hfi Hby Hlen]. destruct f as [name [pieces|]]; [|by destruct Hfi].
  change (content (name, Some pieces)) with (concat pieces) in *. unfold add_file. rewrite bool_decide_eq_false_2 by done. pose proof (used_by_app (F 1) (entry n (name, Some pieces))) as U1.
  assert (U2 : 0 ≤ used_by (concat pieces)) by (change 0 with (nb (cdiv 0)); apply nb_mono; unfold cdiv; apply Z.div_le_mono; lia).
  destruct (mk_ialloc_ok l n fb D F T_FILE Hb ltac:(lia)) as (l1 & E1 & Hb1 & Hl1); [by rewrite (proj2 (Z.eqb_neq n 1)) by lia|].
  rewrite (bind_Ok_l _ _ _ _ _ E1). set (F1 := with_file F n []) in *. assert (EF1 : F1 1 = F 1) by (unfold F1, with_file; by rewrite (proj2 (Z.eqb_neq 1 n)) by lia).
  rewrite xshort_id by lia. change ROOTINO with 1. fold (entry n (name, Some pieces)). set (e := entry n (name, Some pieces)) in *.
  destruct (iappend_ok l1 (n + 1) fb _ F1 1 e Hb1 ltac:(lia)) as (l2 & d2 & E2 & Hb2 & Hl2); rewrite ?EF1 in *; [by apply entry_u8|rewrite length_app; unfold e; rewrite entry_length; lia|lia|].
  rewrite (bind_Ok_l _ _ _ _ _ E2). set (F2 := with_file F1 1 (F 1 ++ e)) in *.
  assert (EF2 : F2 n = []) by (unfold F2, F1, with_file; rewrite (proj2 (Z.eqb_neq n 1)) by lia; by rewrite Z.eqb_refl).
  destruct (append_all_ok (n + 1) n pieces ltac:(lia) Hby l2 _ _ F2 Hb2) as (l3 & D3 & E3 & Hb3 & Hl3); rewrite ?EF2 in *; cbn [app] in *;
    change (used_by []) with 0 in *; [done|lia|]. rewrite Z.sub_0_r in E3, Hb3.
  exists l3, D3, (with_file F2 n (concat pieces)). split; [done|]. split; [done|]. split; [intros m Hm; by rewrite Hl3, Hl2, Hl1|].
  unfold F2, F1, with_file. split; [by rewrite (proj2 (Z.eqb_neq 1 n)) by lia|]. split; [by rewrite Z.eqb_refl|].
  intros i Hi. by rewrite (proj2 (Z.eqb_neq i n)), (proj2 (Z.eqb_neq i 1)) by lia.
Qed.

(** The directory entries of files whose inodes start at [n]. *)
Fixpoint entries (n : Z) (fs : list hostfile) : list Z :=
  match fs with [] => [] | f :: fs' => entry n f ++ entries (n + 1) fs' end.
Lemma entries_length n fs : length (entries n fs) = (16 * length fs)%nat.
Proof. revert n. induction fs as [|f fs IH]; intros n; [done|]. cbn [entries length]. rewrite length_app, entry_length, IH. lia. Qed.
Definition sum_used (fs : list hostfile) : Z := foldr (λ f z, used_by (content f) + z) 0 fs.
Lemma nb_nonneg x : 0 ≤ x → 0 ≤ nb (cdiv x).
Proof. intros H. change 0 with (nb (cdiv 0)). apply nb_mono. unfold cdiv. apply Z.div_le_mono; lia. Qed.
Lemma sum_used_nonneg fs : 0 ≤ sum_used fs.
Proof. induction fs as [|f fs IH]; [done|]. cbn. pose proof (nb_nonneg (flen (content f)) ltac:(lia)). unfold sum_used in IH. lia. Qed.
Lemma add_files_ok fs : Forall host_ok fs → ∀ l n fb D F, built l n fb D F → 2 ≤ n → n + flen fs ≤ 208 → flen (F 1) + 16 * flen fs ≤ 140 * 512 →
  fb + used_by (F 1 ++ entries n fs) - used_by (F 1) + sum_used fs ≤ 1000 →
  ∃ l' D' F', add_files fs (Mst l demo_sb n fb) = Ok (tt, Mst l' demo_sb (n + flen fs) (fb + used_by (F 1 ++ entries n fs) - used_by (F 1) + sum_used fs)) ∧
    built l' (n + flen fs) (fb + used_by (F 1 ++ entries n fs) - used_by (F 1) + sum_used fs) D' F' ∧ keeps_low l l' ∧
    F' 1 = F 1 ++ entries n fs ∧ (∀ k f, fs !! k = Some f → F' (n + Z.of_nat k) = content f) ∧ ∀ i, 2 ≤ i < n → F' i = F i.
Proof.
  induction 1 as [|f fs Hf Hfs IH]; intros l n fb D F Hb Hn Hmax Hroot Hroom.
  - cbn [entries length sum_used foldr add_files] in *. rewrite app_nil_r in *.
    rewrite !Z.add_0_r. replace (fb + used_by (F 1) - used_by (F 1)) with fb by lia. exists l, D, F. by split_and!.
  - cbn [entries add_files] in *. change (sum_used (f :: fs)) with (used_by (content f) + sum_used fs) in *. rewrite app_assoc in *.
    pose proof (sum_used_nonneg fs). pose proof (used_by_app (F 1 ++ entry n f) (entries (n + 1) fs)) as Hm. cbn [length] in *.
    destruct (add_file_ok l n fb D F f Hb ltac:(lia) Hf ltac:(lia) ltac:(lia)) as (l1 & D1 & F1 & E1 & Hb1 & Hl1 & R1 & R2 & R3).
    destruct (IH l1 (n + 1) _ D1 F1 Hb1) as (l2 & D2 & F2 & E2 & Hb2 & Hl2 & S1 & S2 & S3); rewrite ?R1 in *; [lia|lia|rewrite length_app, entry_length; lia|lia|].
    exists l2, D2, F2. replace (n + Z.of_nat (S (length fs))) with (n + 1 + flen fs) by lia. 
    match type of E2 with _ = Ok (tt, Mst _ _ _ ?x) => replace (fb + used_by ((F 1 ++ entry n f) ++ entries (n + 1) fs) - used_by (F 1) + (used_by (content f) + sum_used fs)) with x by lia end.
    split; [by rewrite (bind_Ok_l _ _ _ _ _ E1)|]. split; [done|]. split; [intros m Hm'; by rewrite Hl2, Hl1|]. split; [done|]. split.
    + intros [|k] g Hk; [injection Hk as <-; rewrite Z.add_0_r, S3 by lia; done|]. replace (n + Z.of_nat (S k)) with (n + 1 + Z.of_nat k) by lia. by apply S2.
    + intros i Hi. rewrite S3 by lia. by apply R3.
Qed.

(** ** The empty image *)

Lemma zero_image_ok sb fi fb n : (n ≤ 1000)%nat → zero_image n (Mst [] sb fi fb) = Ok (tt, Mst (replicate n zeros) sb fi fb).
Proof.
  induction n as [|n IH]; intros Hn; [done|]. cbn [zero_image]. rewrite (bind_Ok_l _ _ _ _ _ (IH ltac:(lia))). unfold wsect, modify. cbv zeta.
  rewrite at_sector_id, Nat2Z.id by lia. unfold set_img. cbn [img msb freeinode freeblock]. rewrite length_replicate, Nat.ltb_irrefl, Nat.sub_diag. cbn [replicate app].
  by rewrite <- replicate_S_end.
Qed.
Definition image0 : list blk := <[1%nat := encode_sb demo_sb zeros]> (replicate 1000 zeros).
Lemma length_image0 : length image0 = 1000%nat.
Proof. unfold image0. by rewrite length_insert, length_replicate. Qed.
Lemma view_image0 m : 0 ≤ m < 1000 → view image0 m = if m =? 1 then encode_sb demo_sb zeros else zeros.
Proof.
  intros Hm. unfold image0. change 1%nat with (Z.to_nat 1). rewrite view_insert by (rewrite ?length_replicate; lia).
  destruct (m =? 1); [done|]. unfold view. rewrite nth_lookup, lookup_replicate_2 by lia. done.
Qed.
Lemma encode_sb_blk sb : is_blk (encode_sb sb zeros).
Proof. unfold encode_sb. cbn [foldl]. repeat apply put_word_blk. apply zeros_blk. Qed.
Lemma built0 D F : built image0 1 59 D F.
Proof.
  split; try (intros; lia). split; try (intros; lia); [apply length_image0| |].
  - intros m Hm. rewrite view_image0 by done. destruct (m =? 1); [apply encode_sb_blk|apply zeros_blk].
  - intros m Hm. rewrite view_image0 by lia. by rewrite (proj2 (Z.eqb_neq m 1)) by lia.
Qed.
(** The entries every root directory starts with. *)
Definition dot_entries : list Z := dot [46] 1 ++ dot [46; 46] 1.
Definition root_bytes (fs : list hostfile) : list Z := dot_entries ++ entries 2 fs.
Lemma root_length fs : flen (root_bytes fs) = 16 * (2 + flen fs).
Proof. unfold root_bytes. rewrite length_app, entries_length. change (length dot_entries) with 32%nat. lia. Qed.
(** Up to the correction of the root directory's size. *)
Lemma mkfs_files fs : Forall host_ok fs → flen fs ≤ 206 → 59 + used_by (root_bytes fs) + sum_used fs ≤ 1000 →
  ∃ l D F, built l (2 + flen fs) (59 + used_by (root_bytes fs) + sum_used fs) D F ∧ F 1 = root_bytes fs ∧
    (∀ k f, fs !! k = Some f → F (2 + Z.of_nat k) = content f) ∧ decode_sb (view l 1) = demo_sb ∧
    ∀ s', (din ← rinode ROOTINO;
       winode ROOTINO (set_dsize (xint ((xint (d_size din) / BSIZE + 1) * BSIZE)) din);;
       f ← gets freeblock;
       mk_balloc f) (Mst l demo_sb (2 + flen fs) (59 + used_by (root_bytes fs) + sum_used fs)) = Ok (tt, s') → mkfs fs mk_start = Ok (tt, s').
Proof.
  intros Hfs Hlen Hroom. pose proof (root_length fs) as Hroot.
  destruct (mk_ialloc_ok image0 1 59 (λ _, new_inode 0) (λ _, []) T_DIR (built0 _ _) ltac:(lia) eq_refl) as (l1 & E1 & Hb1 & Hl1).
  set (F1 := with_file _ 1 []) in Hb1. assert (EF1 : F1 1 = []) by done.
  assert (Hu : ∀ name, Forall is_u8 name → Forall is_u8 (dot name 1)).
  { intros name Hn. unfold dot, put_dirent. apply Forall_app_2; [repeat (apply Forall_cons; split; [apply Z.mod_pos_bound; lia|]); by apply Forall_nil|]. cbn [de_name]. apply Forall_app_2; [done|].
    apply Forall_replicate. unfold is_u8. lia. }
  destruct (iappend_ok l1 (1 + 1) 59 _ F1 1 (dot [46] 1) Hb1 ltac:(lia)) as (l2 & d2 & E2 & Hb2 & Hl2).
  { apply Hu. repeat (apply Forall_cons; split; [unfold is_u8; lia|]). by apply Forall_nil. } { rewrite EF1. done. } { rewrite EF1. done. }
  rewrite EF1 in E2, Hb2. set (F2 := with_file F1 1 _) in Hb2. assert (EF2 : F2 1 = dot [46] 1) by done.
  destruct (iappend_ok l2 (1 + 1) _ _ F2 1 (dot [46; 46] 1) Hb2 ltac:(lia)) as (l3 & d3 & E3 & Hb3 & Hl3).
  { apply Hu. repeat (apply Forall_cons; split; [unfold is_u8; lia|]). by apply Forall_nil. } { rewrite EF2. done. } { rewrite EF2. done. }
  rewrite EF2 in E3, Hb3. fold dot_entries in E3, Hb3. set (F3 := with_file F2 1 _) in Hb3. assert (EF3 : F3 1 = dot_entries) by done.
  change (59 + used_by ([] ++ dot [46] 1) - used_by [] + used_by dot_entries - used_by (dot [46] 1)) with 60 in *.
  change (59 + used_by ([] ++ dot [46] 1) - used_by []) with 60 in *. change (1 + 1) with 2 in *.
  destruct (add_files_ok fs Hfs l3 2 60 _ F3 Hb3) as (l4 & D4 & F4 & E4 & Hb4 & Hl4 & R1 & R2 & _); rewrite ?EF3 in *; fold (root_bytes fs) in *;
    change (used_by dot_entries) with 1 in *; [lia|lia|change (length dot_entries) with 32%nat; lia|lia|].
  replace (60 + used_by (root_bytes fs) - 1 + sum_used fs) with (59 + used_by (root_bytes fs) + sum_used fs) in * by lia.
  exists l4, D4, F4. split; [done|]. split; [done|]. split; [done|]. split.
  - rewrite Hl4, Hl3, Hl2, Hl1 by lia. rewrite view_image0 by lia. vm_compute. reflexivity.
  - intros s' E. unfold mkfs, mk_start. cbv zeta. erewrite bind_Ok_l by reflexivity. cbn [img freeinode].
    change (Superblock (xint FSSIZE) _ _ _ _ _ _) with demo_sb. change nmeta with 59.
    rewrite (bind_Ok_l _ _ _ _ _ (zero_image_ok demo_sb 1 59 (Z.to_nat FSSIZE) ltac:(done))).
    change (Z.to_nat FSSIZE) with 1000%nat. rewrite (bind_Ok_l _ _ _ _ _ (wsect_ok (Mst (replicate 1000 zeros) demo_sb 1 59) 1 _ (length_replicate _ _) ltac:(lia))).
    change (set_img _ _) with (Mst image0 demo_sb 1 59). rewrite (bind_Ok_l _ _ _ _ _ E1). change (negb (1 =? ROOTINO)) with false. cbn iota.
    rewrite (bind_Ok_l _ _ _ _ _ E2), (bind_Ok_l _ _ _ _ _ E3), (bind_Ok_l _ _ _ _ _ E4). exact E.
Qed.

(** ** The finished image *)

Lemma lor_u8 a b : is_u8 a → is_u8 b → is_u8 (Z.lor a b).
Proof.
  unfold is_u8. intros Ha Hb. split; [by apply Z.lor_nonneg; lia|]. destruct (Z.eq_dec (Z.lor a b) 0) as [->|Hne]; [lia|].
  assert (0 ≤ Z.lor a b) by (apply Z.lor_nonneg; lia). change 256 with (2^8). apply Z.log2_lt_pow2; [lia|]. rewrite Z.log2_lor by lia.
  assert (Hl : ∀ x, 0 ≤ x < 256 → Z.log2 x < 8); [|specialize (Hl a Ha) as H1; specialize (Hl b Hb) as H2; lia].
  intros x Hx. destruct (Z.eq_dec x 0) as [->|]; [done|]. apply Z.log2_lt_pow2; lia.
Qed.
Lemma set_bit_blk i b : is_blk b → is_blk (set_bit i b).
Proof.
  intros [H1 H2]. unfold set_bit. split; [by rewrite length_insert|]. apply Forall_insert; [done|]. apply lor_u8.
  - rewrite nth_lookup. destruct (b !! _) eqn:E; simpl; [by eapply Forall_lookup_1 in H2|unfold is_u8; lia].
  - unfold is_u8. assert (Hm : (i mod 8 < 8)%nat) by (apply Nat.mod_upper_bound; lia). split; [apply Z.pow_nonneg; lia|]. change 256 with (2^8). apply Z.pow_lt_mono_r; lia.
Qed.
Lemma bitmap_ok n : (n ≤ 4096)%nat → let b := foldl (λ buf i, set_bit i buf) zeros (seq 0 n) in
  is_blk b ∧ ∀ j, bit_set b j = bool_decide (j < n)%nat.
Proof.
  induction n as [|n IH]; intros Hn; cbv zeta.
  - split; [apply zeros_blk|]. intros j. cbn [seq foldl]. unfold bit_set. rewrite nth_zeros. rewrite Z.land_0_l. done.
  - rewrite seq_S, foldl_app. cbn [foldl Nat.add]. destruct (IH ltac:(lia)) as [I1 I2]. split; [by apply set_bit_blk|]. intros j.
    rewrite bit_set_set_bit by (rewrite (proj1 I1); apply Nat.Div0.div_lt_upper_bound; lia). rewrite I2.
    apply eq_bool_prop_intro. rewrite orb_True, !bool_decide_spec. lia.
Qed.
Record image_ok (l : list blk) (n fb : Z) (D : Z → dinode) (F : Z → list Z) : Prop := {
  im_vol : vol l n fb D;
  im_n : 2 ≤ n ≤ 208;
  im_disk : ∀ i, 1 ≤ i < n → get_dinode (view l (32 + i / 8)) (Z.to_nat (i mod 8)) = D i;
  im_size : ∀ i, 2 ≤ i < n → d_size (D i) = flen (F i);
  im_root : d_size (D 1) = (flen (F 1) / 512 + 1) * 512 ∧ flen (F 1) < 139 * 512;
  im_len : ∀ i, 1 ≤ i < n → flen (F i) ≤ 140 * 512;
  im_shape : ∀ i, 1 ≤ i < n → shape l (D i) (cdiv (flen (F i)));
  im_byte : ∀ i o, 1 ≤ i < n → 0 ≤ o < 140 * 512 → byte l (D i) o = nth (Z.to_nat o) (F i) 0;
  im_type : ∀ i, 1 ≤ i < n → d_type (D i) = (if i =? 1 then T_DIR else T_FILE) ∧ d_nlink (D i) = 1;
  im_bits : ∀ j, bit_set (view l 58) j = bool_decide (Z.of_nat j < fb);
}.
Lemma mkfs_final l n fb D F : built l n fb D F → 2 ≤ n → flen (F 1) < 139 * 512 →
  ∃ l' D', (din ← rinode ROOTINO;
     winode ROOTINO (set_dsize (xint ((xint (d_size din) / BSIZE + 1) * BSIZE)) din);;
     f ← gets freeblock;
     mk_balloc f) (Mst l demo_sb n fb) = Ok (tt, Mst l' demo_sb n fb) ∧ image_ok l' n fb D' F ∧ view l' 1 = view l 1.
Proof.
  intros Hb Hn Hroot. pose proof Hb as [Hv Hn' Hst Hsz Hsh Hby Hty]. destruct (Hsz 1 ltac:(lia)) as [Es1 _]. pose proof (vo_fb _ _ _ _ Hv) as Hfb.
  set (z := (flen (F 1) / 512 + 1) * 512). assert (Hz : is_u32 z) by (unfold is_u32, z; Z.div_mod_to_equations; lia).
  set (d := set_dsize z (D 1)). assert (Hv1 : vol l n fb (with_inode D 1 d)).
  { apply with_inode_size_vol; [|done]. eapply vol_same; [|exact Hv]. intros x. symmetry. apply with_inode_id. }
  assert (Hd : dinode_ok d) by (pose proof (vo_ino _ _ _ _ Hv1 1 ltac:(lia)) as H; by rewrite with_inode_eq in H).
  destruct (winode_ok l n fb _ n fb 1 d Hv1 ltac:(lia) Hd) as (b & E & Hbb & Eb). change (32 + 1 / 8) with 32 in *.
  destruct (low_write l n fb _ 32 b Hv1 ltac:(lia) Hbb) as (L1 & L2 & L3). set (l1 := <[Z.to_nat 32 := b]> l) in *.
  destruct (bitmap_ok (Z.to_nat fb) ltac:(lia)) as [B1 B2]. set (bits := foldl _ _ _) in *.
  destruct (low_write l1 n fb _ 58 bits L1 ltac:(lia) B1) as (M1 & M2 & M3). set (l2 := <[Z.to_nat 58 := bits]> l1) in *.
  assert (Hvw : ∀ m, 0 ≤ m → view l2 m = if m =? 58 then bits else if m =? 32 then b else view l m).
  { intros m Hm. unfold l2, l1. rewrite !view_insert; try done; try lia; [apply Hv|apply L1]. }
  exists l2, (with_inode D 1 d). split; [|split; [|by rewrite Hvw by lia]].
  - change ROOTINO with 1. rewrite (bind_Ok_l _ _ _ _ _ (rinode_ok l n fb D F n fb 1 Hb ltac:(lia))). rewrite Es1, (xint_id (flen (F 1))) by (unfold is_u32; lia).
    change BSIZE with 512. fold z. rewrite (xint_id z) by done. fold d. rewrite (bind_Ok_l _ _ _ _ _ E). erewrite (bind_Ok_l (gets freeblock)) by reflexivity. cbn [freeblock].
    unfold mk_balloc. change (BSIZE * 8) with 4096. rewrite (proj2 (Z.ltb_lt fb 4096)) by lia. cbn [negb]. erewrite (bind_Ok_l (gets msb)) by reflexivity.
    cbn [msb]. change (bmapstart demo_sb) with 58. rewrite wsect_ok; [done| |lia]. apply L1.
  - split; try done; try lia.
    + intros i Hi. rewrite Hvw by (Z.div_mod_to_equations; lia). rewrite (proj2 (Z.eqb_neq _ 58)) by (Z.div_mod_to_equations; lia).
      pose proof (winode_disk l 1 d i (vo_len _ _ _ _ Hv) (vo_blk _ _ _ _ Hv 32 ltac:(lia)) ltac:(lia) ltac:(lia) Hd) as W. change (32 + 1 / 8) with 32 in W.
      rewrite <- Eb in W. rewrite view_insert in W; [|apply Hv|lia|Z.div_mod_to_equations; lia]. rewrite W. unfold with_inode. destruct (i =? 1); [done|by apply Hst].
    + intros i Hi. rewrite with_inode_ne by lia. by apply Hsz; lia.
    + intros i Hi. destruct (Hsz i Hi). lia.
    + intros i Hi j Hj. rewrite M2, L2 by done. unfold with_inode. destruct (Z.eqb_spec i 1) as [->|]; [unfold d; rewrite set_dsize_slot, <- Es1; by apply Hsh; lia|].
      destruct (Hsz i Hi) as [<- _]. by apply Hsh.
    + intros i o Hi Ho. rewrite M3, L3 by done. unfold with_inode. destruct (Z.eqb_spec i 1) as [->|]; [unfold d; rewrite set_dsize_byte|]; by apply Hby; lia.
    + intros i Hi. generalize (Hty i Hi). unfold with_inode. by destruct (Z.eqb_spec i 1) as [->|].
    + intros j. rewrite Hvw by lia. change (58 =? 58) with true. cbn iota. rewrite B2. apply bool_decide_ext. lia.
Qed.

(** ** The image as the kernel sees it *)

(** The entries of the root directory. *)
Fixpoint file_ents (n : Z) (fs : list hostfile) : list dirent :=
  match fs with [] => [] | f :: fs' => Dirent n (name_field (skip_underscore f.1)) :: file_ents (n + 1) fs' end.
Definition ents (fs : list hostfile) : list dirent :=
  Dirent 1 (46 :: replicate 13 0) :: Dirent 1 (46 :: 46 :: replicate 12 0) :: file_ents 2 fs.
(** The names in it. *)
Definition names (fs : list hostfile) : list (list Z) := [46] :: [46; 46] :: ((λ f : hostfile, dname (skip_underscore f.1)) <$> fs).
Lemma entries_ents n fs : entries n fs = concat (put_dirent <$> file_ents n fs).
Proof. revert n. induction fs as [|f fs IH]; intros n; [done|]. cbn [entries file_ents]. by rewrite IH. Qed.
Lemma root_ents fs : root_bytes fs = concat (put_dirent <$> ents fs).
Proof. unfold root_bytes. rewrite entries_ents. done. Qed.
Lemma length_file_ents n fs : length (file_ents n fs) = length fs.
Proof. revert n. induction fs as [|f fs IH]; intros n; [done|]. cbn. by rewrite IH. Qed.
Lemma file_ents_lookup n fs k : file_ents n fs !! k = (λ f, Dirent (n + Z.of_nat k) (name_field (skip_underscore f.1))) <$> fs !! k.
Proof.
  revert n k. induction fs as [|f fs IH]; intros n [|k]; cbn [file_ents lookup list_lookup]; try done; [by rewrite Z.add_0_r|].
  rewrite IH. by replace (n + 1 + Z.of_nat k) with (n + Z.of_nat (S k)) by lia.
Qed.
Definition dirent_ok (n : Z) (e : dirent) : Prop := 1 ≤ de_inum e < n ∧ length (de_name e) = 14%nat.
Lemma ents_ok fs : Forall (dirent_ok (2 + flen fs)) (ents fs).
Proof.
  unfold ents. repeat apply Forall_cons_2; try (split; [cbn; lia|done]). apply Forall_lookup_2. intros k e Hk. rewrite file_ents_lookup in Hk.
  destruct (fs !! k) as [f|] eqn:E; [|done]. injection Hk as <-. apply lookup_lt_Some in E. split; [cbn; lia|apply length_name_field].
Qed.
Lemma nth_dirents n es k e i : Forall (dirent_ok n) es → es !! k = Some e → (i < 16)%nat →
  nth (16 * k + i) (concat (put_dirent <$> es)) 0 = nth i (put_dirent e) 0.
Proof.
  intros Hes. revert k. induction Hes as [|e' es [_ He] Hes IH]; intros k Hk Hi; [done|]. cbn [fmap list_fmap concat].
  assert (Hl : length (put_dirent e') = 16%nat) by (unfold put_dirent; rewrite length_app, He; done).
  destruct k as [|k]; [injection Hk as ->; rewrite app_nth1 by lia; f_equal; lia|]. rewrite app_nth2 by lia. rewrite <- (IH k) by done. f_equal. lia.
Qed.
Lemma length_dirents n es : Forall (dirent_ok n) es → length (concat (put_dirent <$> es)) = (16 * length es)%nat.
Proof.
  induction 1 as [|e es [_ He] Hes IH]; [done|]. cbn [fmap list_fmap concat length]. rewrite length_app. change (list_fmap dirent (list Z) put_dirent es) with (put_dirent <$> es).
  rewrite IH. unfold put_dirent at 1. rewrite length_app, He. simpl. lia.
Qed.
Section Image.
Variables (fs : list hostfile) (l : list blk) (fb : Z) (D : Z → dinode) (F : Z → list Z).
Hypothesis (Him : image_ok l (2 + flen fs) fb D F).
Notation t := (tx l).
Notation n := (2 + flen fs).

Lemma im_used b : 0 ≤ b < 1000 → used demo_sb t b = (b <? fb).
Proof.
  intros Hb. unfold used, bm. cbn [bmapstart demo_sb tx_view tx]. rewrite (Z.div_small b 4096), Z.mod_small by lia. change (0 + 58) with 58.
  rewrite (im_bits _ _ _ _ _ Him). apply eq_bool_prop_intro. rewrite bool_decide_spec, Is_true_true, Z.ltb_lt. lia.
Qed.
Lemma im_bm b : is_bm demo_sb t b → b = 58.
Proof. intros (x & Hx & ->). unfold bm. cbn [tx_size tx] in Hx. rewrite Z.div_small by lia. done. Qed.
Lemma im_fb : 59 ≤ fb ≤ 1000.
Proof. apply Him. Qed.
Lemma im_layout : layout demo_sb t.
Proof.
  pose proof im_fb. split; try done; [|intros b Hb; by apply elem_of_nil in Hb]. intros b ->%im_bm. rewrite im_used by lia. apply Z.ltb_lt. lia.
Qed.
Lemma im_disk_inode i : 1 ≤ i < n → disk_inode demo_sb t i = D i.
Proof.
  intros Hi. pose proof (im_n _ _ _ _ _ Him). unfold disk_inode. rewrite IBLOCK_mk by lia. change IPB with 8. by apply (im_disk _ _ _ _ _ Him).
Qed.
Lemma im_slot i k : 1 ≤ i < n → slot t (as_inode demo_sb t i) k = sl l (D i) k.
Proof. intros Hi. apply slot_meta. cbn [as_inode i_addrs ino]. by rewrite im_disk_inode. Qed.
Lemma im_fbyte i o : 1 ≤ i < n → 0 ≤ o < 140 * 512 → fbyte t (as_inode demo_sb t i) o = nth (Z.to_nat o) (F i) 0.
Proof.
  intros Hi Ho. rewrite <- (im_byte _ _ _ _ _ Him i o Hi Ho). apply fbyte_meta. cbn [as_inode i_addrs ino]. by rewrite im_disk_inode.
Qed.
Lemma im_good b : 0 ≤ b < fb → b ≠ 58 → good demo_sb t b.
Proof.
  intros Hb Hne. pose proof im_fb. split; [cbn; lia|]. split; [rewrite im_used by lia; by apply Z.ltb_lt; lia|]. split; [by intros ?%im_bm|set_solver].
Qed.
Lemma im_file_ok i : 1 ≤ i < n → file_ok demo_sb t (as_inode demo_sb t i).
Proof.
  intros Hi. pose proof (im_vol _ _ _ _ _ Him) as Hv. pose proof im_fb. split; try done.
  - rewrite im_used by lia. apply Z.ltb_lt. lia.
  - intros j Hj. rewrite im_slot by done. intros Hn. destruct (vo_slot _ _ _ _ Hv i j Hi Hj) as [|Hr]; [done|]. apply im_good; lia.
  - intros j k Hj Hk. rewrite !im_slot by done. intros E Hn. by apply (vo_inj _ _ _ _ Hv i j i k).
Qed.
Lemma im_contents i : 2 ≤ i < n → i_size (as_inode demo_sb t i) = flen (F i) ∧ fbytes t (as_inode demo_sb t i) 0 (flen (F i)) = F i.
Proof.
  intros Hi. pose proof (im_len _ _ _ _ _ Him i ltac:(lia)) as Hl. split; [cbn [as_inode i_size]; rewrite im_disk_inode by lia; by apply (im_size _ _ _ _ _ Him)|].
  apply list_eq. intros k. unfold fbytes. rewrite list_lookup_fmap. destruct (decide (k < length (F i))%nat) as [Hk|Hk].
  - rewrite lookup_seqZ_lt by lia. cbn [fmap option_fmap option_map]. rewrite im_fbyte by lia. replace (Z.to_nat (0 + Z.of_nat k)) with k by lia.
    destruct (lookup_lt_is_Some_2 (F i) k Hk) as [z Hz]. by rewrite (nth_lookup_Some _ _ _ _ Hz), Hz.
  - rewrite lookup_seqZ_ge, lookup_ge_None_2 by lia. done.
Qed.
Hypothesis (HF1 : F 1 = root_bytes fs).
(** The entries of the root directory; the rest of its last block is empty. *)
Lemma im_entry k : 16 * (Z.of_nat k + 1) ≤ 140 * 512 →
  match ents fs !! k with
  | Some e => entry_at t (as_inode demo_sb t 1) (16 * Z.of_nat k) = e
  | None => de_inum (entry_at t (as_inode demo_sb t 1) (16 * Z.of_nat k)) = 0
  end.
Proof.
  intros Hk. pose proof (ents_ok fs) as Hes. pose proof (im_n _ _ _ _ _ Him) as Hn.
  assert (Hb : ∀ i, 0 ≤ i < 16 → fbyte t (as_inode demo_sb t 1) (16 * Z.of_nat k + i) = nth (16 * k + Z.to_nat i) (concat (put_dirent <$> ents fs)) 0).
  { intros i Hi. rewrite im_fbyte by lia. rewrite HF1, root_ents. f_equal. lia. }
  destruct (ents fs !! k) as [e|] eqn:E.
  - unfold entry_at. destruct (Forall_lookup_1 _ _ _ _ Hes E) as [Hi Hl]. transitivity (get_dirent (put_dirent e)); [|destruct e; apply get_put_dirent; [cbn in Hi; lia|done]].
    f_equal. assert (Hlp : length (put_dirent e) = 16%nat) by (unfold put_dirent; rewrite length_app, Hl; done).
    apply list_eq. intros i. unfold fbytes. rewrite list_lookup_fmap. destruct (decide (i < 16)%nat).
    + rewrite lookup_seqZ_lt by lia. cbn [fmap option_fmap option_map]. rewrite Hb by lia. rewrite Nat2Z.id, (nth_dirents _ _ _ e _ Hes E) by done.
      destruct (lookup_lt_is_Some_2 (put_dirent e) i) as [z Hz]; [lia|]. by rewrite (nth_lookup_Some _ _ _ _ Hz), Hz.
    + rewrite lookup_seqZ_ge, lookup_ge_None_2 by lia. done.
  - apply lookup_ge_None_1 in E. unfold entry_at, get_dirent. cbn [de_inum]. change (fbytes t (as_inode demo_sb t 1) (16 * Z.of_nat k) 16) with (fbyte t (as_inode demo_sb t 1) <$> seqZ (16 * Z.of_nat k) 16).
    assert (Hz : ∀ i, (i < 2)%nat → nth i (fbyte t (as_inode demo_sb t 1) <$> seqZ (16 * Z.of_nat k) 16) 0 = 0).
    { intros i Hi. rewrite nth_lookup, list_lookup_fmap, lookup_seqZ_lt by lia. cbn [fmap option_fmap option_map default]. rewrite Hb by lia.
      apply nth_overflow. rewrite (length_dirents _ _ Hes). lia. }
    by rewrite !Hz by lia.
Qed.

Lemma im_root_size : let x := as_inode demo_sb t 1 in
  i_size x = (flen (root_bytes fs) / 512 + 1) * 512 ∧ flen (root_bytes fs) = 16 * (2 + flen fs) ∧ 16 * (2 + flen fs) < i_size x ≤ 140 * 512.
Proof.
  cbv zeta. pose proof (im_n _ _ _ _ _ Him). cbn [as_inode i_size]. rewrite im_disk_inode by lia. destruct (im_root _ _ _ _ _ Him) as [-> _]. rewrite HF1, root_length.
  split; [done|]. split; [done|]. Z.div_mod_to_equations. lia.
Qed.
(** The last block of the root directory is there unless its entries fill their
    blocks. *)
Lemma im_holes : no_holes t (as_inode demo_sb t 1) ↔ (2 + flen fs) mod 32 ≠ 0.
Proof.
  destruct im_root_size as (Hs & Hl & Hm). pose proof (im_n _ _ _ _ _ Him). pose proof (im_shape _ _ _ _ _ Him 1 ltac:(lia)) as Hsh. rewrite HF1, Hl in Hsh.
  assert (Hadr : ∀ bn, 0 ≤ bn < 140 → addr t (as_inode demo_sb t 1) bn ≠ 0 ↔ bn < cdiv (16 * (2 + flen fs))).
  { intros bn Hbn. rewrite <- slot_addr, im_slot by lia. pose proof (shape_at _ _ _ bn Hsh Hbn). lia. }
  unfold no_holes. rewrite Hs, Hl. split.
  - intros Hh E. specialize (Hh (16 * (2 + flen fs) / 512) ltac:(Z.div_mod_to_equations; lia) ltac:(lia)). apply Hadr in Hh; [|Z.div_mod_to_equations; lia].
    unfold cdiv in Hh. Z.div_mod_to_equations. lia.
  - intros E bn Hb Hlt. apply Hadr; [Z.div_mod_to_equations; lia|]. unfold cdiv. Z.div_mod_to_equations. lia.
Qed.
Lemma im_inum name j o : dir_lookup t (as_inode demo_sb t 1) name = Some (j, o) → 1 ≤ j < n.
Proof.
  destruct im_root_size as (Hs & Hl & Hm). unfold dir_lookup. intros H.
  assert (Hin : ∀ m off, search (entry_at t (as_inode demo_sb t 1)) name m (16 * Z.of_nat off) = Some (j, o) → ∃ k, (k < off + m)%nat ∧
    de_inum (entry_at t (as_inode demo_sb t 1) (16 * Z.of_nat k)) = j ∧ j ≠ 0).
  { induction m as [|m IH]; intros off Hse; [done|]. cbn [search] in Hse. destruct (entry_is _ _) eqn:E.
    - injection Hse as <- _. exists off. split; [lia|]. split; [done|]. unfold entry_is in E. apply andb_true_iff in E as [E _]. by apply negb_true_iff, Z.eqb_neq in E.
    - replace (16 * Z.of_nat off + 16) with (16 * Z.of_nat (S off)) in Hse by lia. destruct (IH _ Hse) as (k & Hk & ?). exists k. split; [lia|done]. }
  destruct (Hin _ 0%nat H) as (k & Hk & <- & Hne). assert (Hk16 : 16 * (Z.of_nat k + 1) ≤ 140 * 512).
  { assert (i_size (as_inode demo_sb t 1) / 16 ≤ 140 * 512 / 16) by (apply Z.div_le_mono; lia). change (140 * 512 / 16) with 4480 in *. lia. }
  pose proof (im_entry k Hk16) as He. destruct (ents fs !! k) as [e|] eqn:E; [|done]. rewrite He. by destruct (Forall_lookup_1 _ _ _ _ (ents_ok fs) E).
Qed.
Lemma im_tree : (2 + flen fs) mod 32 ≠ 0 → tree demo_sb t (λ i, 1 ≤ i < n).
Proof.
  intros Hmod i Hi. pose proof (im_n _ _ _ _ _ Him) as Hn. destruct (im_type _ _ _ _ _ Him i Hi) as [Ht Hln]. rewrite im_disk_inode by done.
  assert (Hroot : d_type (D i) = T_DIR → i = 1) by (rewrite Ht; by destruct (Z.eqb_spec i 1)). split; [|intros E c j o; rewrite (Hroot E); apply im_inum].
  split; rewrite ?im_disk_inode by done.
  - rewrite IBLOCK_mk by lia. split; [cbn; Z.div_mod_to_equations; lia|set_solver].
  - rewrite Ht. by destruct (i =? 1).
  - lia.
  - intros E. assert (i = 1) as -> by auto. destruct im_root_size as (Hs & Hl & Hm). pose proof im_fb. split.
    + by apply im_file_ok.
    + lia.
    + rewrite Hs. replace ((flen (root_bytes fs) / 512 + 1) * 512) with ((flen (root_bytes fs) / 512 + 1) * 32 * 16) by lia. by apply Z.mod_mul.
    + by apply im_holes.
    + unfold iblock. cbn [as_inode i_inum]. rewrite IBLOCK_mk by lia. change (32 + 1 / 8) with 32. apply im_good; lia.
    + intros k Hk. rewrite im_slot by done. unfold iblock. cbn [as_inode i_inum]. rewrite IBLOCK_mk by lia. change (32 + 1 / 8) with 32.
      destruct (vo_slot _ _ _ _ (im_vol _ _ _ _ _ Him) 1 k Hi Hk); lia.
    + intros o Ho. assert (Hb : 0 ≤ o / 512 < 140) by (Z.div_mod_to_equations; lia). unfold fbyte.
      assert (Hblk : is_blk (fblock t (as_inode demo_sb t 1) (o / 512))).
      { unfold fblock. rewrite <- slot_addr, im_slot by lia. destruct (Z.eqb_spec (sl l (D 1) (o / 512)) 0); [apply zeros_blk|].
        destruct (vo_slot _ _ _ _ (im_vol _ _ _ _ _ Him) 1 (o / 512) Hi ltac:(lia)); [done|]. apply (vo_blk _ _ _ _ (im_vol _ _ _ _ _ Him)). lia. }
      destruct Hblk as [_ Hu]. rewrite nth_lookup. destruct (_ !! _) eqn:Eb; simpl; [by eapply Forall_lookup_1 in Hu|unfold is_u8; lia].
Qed.
(** A file with a name of its own is found. *)
Lemma im_walk k f : NoDup (names fs) → fs !! k = Some f →
  walk demo_sb false t 1 [skip_underscore f.1] = Some (2 + Z.of_nat k, []).
Proof.
  intros Hnd Hk. destruct im_root_size as (Hs & Hl & Hm). pose proof (im_n _ _ _ _ _ Him) as Hn. pose proof (lookup_lt_Some _ _ _ Hk) as Hlt.
  assert (Hname : ∀ j e, ents fs !! j = Some e → (names fs) !! j = Some (dname (de_name e))).
  { intros [|[|j]] e He; [by injection He as <-|by injection He as <-|]. change (ents fs !! S (S j)) with (file_ents 2 fs !! j) in He. change (names fs !! S (S j)) with (((λ f : hostfile, dname (skip_underscore f.1)) <$> fs) !! j).
    rewrite file_ents_lookup in He. rewrite list_lookup_fmap. destruct (fs !! j); [|done]. injection He as <-. cbn [de_name]. by rewrite dname_field. }
  assert (Hek : ents fs !! S (S k) = Some (Dirent (2 + Z.of_nat k) (name_field (skip_underscore f.1)))).
  { change (ents fs !! S (S k)) with (file_ents 2 fs !! k). by rewrite file_ents_lookup, Hk. }
  cbn [walk]. rewrite im_disk_inode by lia. destruct (im_type _ _ _ _ _ Him 1 ltac:(lia)) as [-> _]. cbn [Z.eqb andb]. change (T_DIR =? T_DIR) with true. cbn iota.
  assert (Hlen : length (ents fs) = (2 + length fs)%nat) by (unfold ents; cbn [length]; by rewrite length_file_ents).
  assert (Hat : ∀ j, (j < 2 + length fs)%nat → ∃ e, ents fs !! j = Some e ∧ entry_at t (as_inode demo_sb t 1) (0 + 16 * Z.of_nat j) = e).
  { intros j Hj. destruct (lookup_lt_is_Some_2 (ents fs) j) as [e He]; [lia|]. exists e. split; [done|]. pose proof (im_entry j ltac:(lia)) as H. by rewrite He in H. }
  unfold dir_lookup. rewrite (search_hit _ _ _ 0 (S (S k))).
  - destruct (Hat (S (S k)) ltac:(lia)) as (e & He & ->). rewrite Hek in He. by injection He as <-.
  - assert (16 * (2 + flen fs) / 16 ≤ i_size (as_inode demo_sb t 1) / 16) by (apply Z.div_le_mono; lia). rewrite Z.mul_comm, Z.div_mul in * by lia. lia.
  - destruct (Hat (S (S k)) ltac:(lia)) as (e & He & ->). rewrite Hek in He. injection He as <-. unfold entry_is. cbn [de_inum de_name].
    rewrite (proj2 (Z.eqb_neq _ 0)) by lia. rewrite dname_field. by apply bool_decide_eq_true_2.
  - intros j Hj. destruct (Hat j ltac:(lia)) as (e & He & ->). unfold entry_is. apply andb_false_iff. right. apply bool_decide_eq_false_2. intros E.
    pose proof (Hname _ _ He) as N1. pose proof (Hname _ _ Hek) as N2. cbn [de_name] in N2. rewrite dname_field, E in N2.
    pose proof (NoDup_lookup _ _ _ _ Hnd N1 N2). lia.
Qed.
End Image.

Lemma mkfs_image files : Forall host_ok files → flen files ≤ 206 → 59 + nb (cdiv (16 * (2 + flen files))) + sum_used files ≤ 1000 →
  ∃ l D F, mkfs files mk_start = Ok (tt, Mst l demo_sb (2 + flen files) (59 + used_by (root_bytes files) + sum_used files)) ∧
    image_ok l (2 + flen files) (59 + used_by (root_bytes files) + sum_used files) D F ∧ F 1 = root_bytes files ∧
    (∀ k f, files !! k = Some f → F (2 + Z.of_nat k) = content f) ∧ decode_sb (view l 1) = demo_sb.
Proof.
  intros Hfs Hn Hroom. pose proof (root_length files) as Hl. rewrite <- Hl in Hroom.
  destruct (mkfs_files files Hfs Hn Hroom) as (l & D & F & Hb & HF1 & HF & Hsb & Hk).
  destruct (mkfs_final l _ _ D F Hb ltac:(lia)) as (l' & D' & E & Him & Hv1); [rewrite HF1, Hl; lia|].
  exists l', D', F. split; [by apply Hk|]. by rewrite Hv1.
Qed.
(** When the number of entries of the root directory, "." and ".."
    included, is a multiple of 32, [mkfs] rounds its size up over a block that
    was never allocated: the directory has a hole, which the kernel's [readi]
    would fill outside of a transaction. *)
Theorem mkfs_root_hole files (Hfs : Forall host_ok files) (Hn : flen files ≤ 206)
    (Hroom : 59 + nb (cdiv (16 * (2 + flen files))) + sum_used files ≤ 1000) (Hfull : (2 + flen files) mod 32 = 0) :
  ∃ s, mkfs files mk_start = Ok (tt, s) ∧ ¬ no_holes (tx (img s)) (as_inode demo_sb (tx (img s)) 1).
Proof.
  destruct (mkfs_image files Hfs Hn Hroom) as (l & D & F & E & Him & HF1 & _). eexists. split; [exact E|]. cbn [img].
  rewrite (im_holes _ _ _ _ _ Him HF1). intros H. exact (H Hfull).
Qed.
End Vol.
Definition hello : hostfile := ([95; 97], Some [[104]; [105; 10]]).
Lemma hello_ok name : Forall is_u8 name → 47 ∉ name → host_ok (name, Some [[104]; [105; 10]]).
Proof.
  intros H1 H2. split; try done. repeat (apply Forall_cons_2 || apply Forall_nil || (unfold is_u8; lia)).
Qed.
Lemma mkfs_root_hole_witness : ∃ s, mkfs (replicate 30 hello) mk_start = Ok (tt, s) ∧ ¬ no_holes (tx (img s)) (as_inode demo_sb (tx (img s)) 1).
Proof.
  assert (Hok : host_ok hello) by (apply hello_ok; [repeat apply Forall_cons_2; try apply Forall_nil; unfold is_u8; lia|set_solver]).
  apply (mkfs_root_hole (replicate 30 hello)); [by apply Forall_replicate|done|vm_compute; discriminate|done].
Defined.
