(* ===== verification/File.v ===== *)
(** * Open files

    [file.c]: the table of open files with its reference counts, and reading
    and writing through a file, which is an inode or one end of a pipe; and
    [pipealloc] of [pipe.c].  The layers below are reached through the
    interface [FileDeps].  A [struct file *] is the index in [ftable.file];
    [ftable.lock] makes each table access one critical section and is not part
    of the state. *)

From S2P Require Import Prelude Machine Spin Bio Log Fs.
Local Open Scope Z_scope.

(** [struct file] *)
Inductive ftype := FD_NONE | FD_PIPE | FD_INODE.
Record file := File {
  f_type : ftype;
  f_ref : Z;
  f_readable : Z;
  f_writable : Z;
  f_pipe : Z;
  f_ip : nat;
  f_off : Z;
}.
Definition file0 : file := File FD_NONE 0 0 0 0 0 0.
Definition set_fref (r : Z) (f : file) : file :=
  File (f_type f) r (f_readable f) (f_writable f) (f_pipe f) (f_ip f) (f_off f).
Definition set_ftype (t : ftype) (f : file) : file :=
  File t (f_ref f) (f_readable f) (f_writable f) (f_pipe f) (f_ip f) (f_off f).
Definition set_foff (o : Z) (f : file) : file :=
  File (f_type f) (f_ref f) (f_readable f) (f_writable f) (f_pipe f) (f_ip f) o.
Definition set_fpipe (p r w : Z) (f : file) : file :=
  File FD_PIPE (f_ref f) r w p (f_ip f) (f_off f).
Definition set_finode (ip : nat) (r w : Z) (f : file) : file :=
  File FD_INODE (f_ref f) r w (f_pipe f) ip 0.
Definition is_pipe (f : file) : bool := match f_type f with FD_PIPE => true | _ => false end.
Definition is_inode (f : file) : bool := match f_type f with FD_INODE => true | _ => false end.

(** What [file.c] calls: [log.c], [fs.c], [pipe.c], [kalloc.c]. *)
Class FileDeps (S : Type) := {
  ftable : lens S (list file);
  fd_begin_op : M S unit;
  fd_end_op : M S unit;
  fd_ilock : nat → M S unit;
  fd_iunlock : nat → M S unit;
  fd_iput : nat → M S unit;
  fd_stati : nat → M S stat_t;
  (** [readi(ip, dst, off, n)]: the result and the bytes stored *)
  fd_readi : nat → Z → Z → M S (Z * list Z);
  fd_writei : nat → list Z → Z → M S Z;
  fd_pipeclose : Z → bool → M S unit;
  fd_piperead : Z → Z → M S (Z * list Z);
  fd_pipewrite : Z → list Z → Z → M S Z;
  fd_kalloc : M S Z;
  fd_kfree : Z → M S unit;
  (** the stores of [pipealloc] into the new pipe *)
  fd_pipe_init : Z → M S unit;
}.

Section Ops.
Context {S : Type} `{!FileDeps S}.

Definition the_file (i : nat) : M S file := λ s,
  match view ftable s !! i with Some f => Ok (f, s) | None => Fault "file" end.
Definition upd_file (i : nat) (g : file → file) : M S unit :=
  modify (λ s, upd_lens ftable (alter g i (view ftable s)) s).

Definition filealloc : M S (option nat) :=
  l ← gets (view ftable);
  match find_index (λ f, f_ref f =? 0) l with
  | Some i => upd_file i (set_fref 1);; mret (Some i)
  | None => mret None
  end.

Definition filedup (i : nat) : M S nat :=
  f ← the_file i;
  if f_ref f <? 1 then panic "filedup" else
  upd_file i (λ f, set_fref (sint32 (f_ref f + 1)) f);;
  mret i.

Definition fileclose (i : nat) : M S unit :=
  f ← the_file i;
  if f_ref f <? 1 then panic "fileclose" else
  upd_file i (λ f, set_fref (sint32 (f_ref f - 1)) f);;
  ff ← the_file i;
  if 0 <? f_ref ff then mret tt else
  upd_file i (λ f, set_ftype FD_NONE (set_fref 0 f));;
  if is_pipe ff then fd_pipeclose (f_pipe ff) (negb (f_writable ff =? 0))
  else whenM (is_inode ff) (fd_begin_op;; fd_iput (f_ip ff);; fd_end_op).

Definition filestat (i : nat) : M S (Z * option stat_t) :=
  f ← the_file i;
  if is_inode f then
    fd_ilock (f_ip f);;
    st ← fd_stati (f_ip f);
    fd_iunlock (f_ip f);;
    mret (0, Some st)
  else mret (-1, None).

(** The result and the bytes stored at [addr]. *)
Definition fileread (i : nat) (n : Z) : M S (Z * list Z) :=
  f ← the_file i;
  if f_readable f =? 0 then mret (-1, []) else
  if is_pipe f then fd_piperead (f_pipe f) n else
  if is_inode f then
    fd_ilock (f_ip f);;
    f ← the_file i;
    r ← fd_readi (f_ip f) (f_off f) (wrap32 n);
    whenM (0 <? r.1) (upd_file i (λ f, set_foff (wrap32 (f_off f + r.1)) f));;
    fd_iunlock (f_ip f);;
    mret r
  else panic "fileread".

(** [max] of [filewrite]. *)
Definition write_max : Z := (MAXOPBLOCKS - 1 - 1 - 2) / 2 * 512.
(** The loop of [filewrite]; the final [i].  Every round writes at least a byte. *)
Fixpoint filewrite_loop (k : nat) (fi : nat) (addr : list Z) (i n : Z) : M S Z :=
  if i <? n then
    match k with
    | O => fault "fuel"
    | Datatypes.S k' =>
        let n1 := if write_max <? n - i then write_max else n - i in
        fd_begin_op;;
        f ← the_file fi;
        fd_ilock (f_ip f);;
        f ← the_file fi;
        r ← fd_writei (f_ip f) (take (Z.to_nat n1) (drop (Z.to_nat i) addr)) (f_off f);
        whenM (0 <? r) (upd_file fi (λ f, set_foff (wrap32 (f_off f + r)) f));;
        fd_iunlock (f_ip f);;
        fd_end_op;;
        if r <? 0 then mret i else
        if negb (r =? n1) then panic "short filewrite" else
        filewrite_loop k' fi addr (i + r) n
    end
  else mret i.
(** The first [n] bytes of [addr] are written. *)
Definition filewrite (fi : nat) (addr : list Z) (n : Z) : M S Z :=
  f ← the_file fi;
  if f_writable f =? 0 then mret (-1) else
  if is_pipe f then fd_pipewrite (f_pipe f) addr n else
  if is_inode f then
    i ← filewrite_loop (Z.to_nat n) fi addr 0 n;
    mret (if i =? n then n else -1)
  else panic "filewrite".

(** [pipealloc]: the two files, or nothing after undoing what was done. *)
Definition pipealloc : M S (option (nat * nat)) :=
  f0 ← filealloc;
  match f0 with
  | None => mret None
  | Some f0 =>
      f1 ← filealloc;
      match f1 with
      | None => fileclose f0;; mret None
      | Some f1 =>
          p ← fd_kalloc;
          if p =? 0 then fileclose f0;; fileclose f1;; mret None else
          fd_pipe_init p;;
          upd_file f0 (set_fpipe p 1 0);;
          upd_file f1 (set_fpipe p 0 1);;
          mret (Some (f0, f1))
      end
  end.
End Ops.
