(* ===== verification/Syscall.v ===== *)
(** * System calls: arguments

    [syscall.c]: fetching arguments from user memory with the checks that keep
    the kernel inside the process.  [um] is the user part of the current
    address space, as the kernel sees it through the process's page table.  A
    fetch returns [None] for -1. *)

From Stdlib Require Import Floats.SpecFloat.
From S2P Require Import Prelude Machine Str Spin Flt ProcTable Proc.
Local Open Scope Z_scope.

(** A word read as a [float]: the binary32 number. *)
Definition f_of_bits (w : Z) : float32 :=
  let s := Z.testbit w 31 in
  let e := w / 2^23 mod 2^8 in
  let m := w mod 2^23 in
  if e =? 255 then (if m =? 0 then S754_infinity s else S754_nan)
  else match (if e =? 0 then m else m + 2^23) with
       | Z.pos p => S754_finite s p ((if e =? 0 then 1 else e) - 150)
       | _ => S754_zero s
       end.

(** The loop of [fetchstr] over the [n] bytes from [s] to [ep]: the place of
    the NUL. *)
Fixpoint find_nul (m : mem) (s : Z) (n : nat) : option Z :=
  match n with
  | O => None
  | S n' => if m s =? 0 then Some s else find_nul m (s + 1) n'
  end.

Section Args.
Context {E : Type}.
Variable um : lens E mem.
Notation myproc := (myproc core_l).

(** [myproc()->...] *)
Definition myself : M (pst E) nat := p ← myproc; deref p.
Definition my_proc : M (pst E) proc := i ← myself; the_proc i.
Definition user : M (pst E) mem := gets (λ s, view um (penv s)).

Definition fetchint (addr : Z) : M (pst E) (option Z) :=
  p ← my_proc;
  if (sz p <=? addr) || (sz p <? wrap32 (addr + 4)) then mret None else
  m ← user;
  mret (Some (sint32 (load32 m addr))).

(** The length of the string; its bytes are those of [um] from [addr]. *)
Definition fetchstr (addr : Z) : M (pst E) (option Z) :=
  p ← my_proc;
  if sz p <=? addr then mret None else
  m ← user;
  mret ((λ s, s - addr) <$> find_nul m addr (Z.to_nat (sz p - addr))).

Definition fetchfloat (addr : Z) : M (pst E) (option float32) :=
  p ← my_proc;
  if (sz p <=? addr) || (sz p <? wrap32 (addr + 4)) then mret None else
  m ← user;
  mret (Some (f_of_bits (load32 m addr))).

Definition argint (n : Z) : M (pst E) (option Z) :=
  p ← my_proc; fetchint (wrap32 (tf_esp (tf p) + 4 + 4 * n)).
Definition argf (n : Z) : M (pst E) (option float32) :=
  p ← my_proc; fetchfloat (wrap32 (tf_esp (tf p) + 4 + 4 * n)).

(** The pointer, as an address. *)
Definition argptr (n size : Z) : M (pst E) (option Z) :=
  p ← my_proc;
  i ← argint n;
  match i with
  | None => mret None
  | Some i =>
      if (size <? 0) || (sz p <=? wrap32 i) || (sz p <? wrap32 (wrap32 i + size)) then mret None
      else mret (Some (wrap32 i))
  end.

(** The string's characters. *)
Definition argstr (n : Z) : M (pst E) (option (list Z)) :=
  a ← argint n;
  match a with
  | None => mret None
  | Some a =>
      let addr := wrap32 a in
      r ← fetchstr addr;
      m ← user;
      mret ((λ len, read_bytes m addr (Z.to_nat len)) <$> r)
  end.
End Args.

(** ** The checks keep the kernel inside the process *)

(** Block [a, a + n) lies inside the process's memory of [sz] bytes, in exact
    arithmetic. *)
Definition in_user (sz a n : Z) : bool := (0 <=? a) && (a <? sz) && (a + n <=? sz).

Section Bounds.
Context {E : Type} (um : lens E mem).
Variables (s : pst E) (p : proc).
(** The current process, with an address space below [KERNBASE]. *)
Hypothesis Hme : my_proc s = Ok (p, s).
Hypothesis Hsz : 0 ≤ sz p ≤ KERNBASE.
Hypothesis Hbytes : bytes (view um (penv s)).
Notation m := (view um (penv s)).
Definition arg_addr (n : Z) : Z := wrap32 (tf_esp (tf p) + 4 + 4 * n).

Lemma word_check a : 0 ≤ a → (sz p <=? a) || (sz p <? wrap32 (a + 4)) = negb (in_user (sz p) a 4).
Proof.
  change KERNBASE with (2^31) in Hsz. intros Ha. unfold in_user. rewrite (proj2 (Z.leb_le 0 a)) by done. simpl.
  destruct (Z.leb_spec (sz p) a) as [H|H].
  - by rewrite (proj2 (Z.ltb_ge a (sz p))).
  - rewrite (proj2 (Z.ltb_lt a (sz p))), wrap32_id by (unfold is_u32; lia). simpl.
    destruct (Z.ltb_spec (sz p) (a + 4)), (Z.leb_spec (a + 4) (sz p)); try done; lia.
Qed.
Lemma fetchint_ok a : 0 ≤ a →
  fetchint um a s = Ok (if in_user (sz p) a 4 then Some (sint32 (load32 m a)) else None, s).
Proof.
  intros Ha. unfold fetchint. rewrite (bind_Ok_l _ _ _ _ _ Hme), word_check by done. by destruct (in_user _ _ _).
Qed.
Lemma argint_ok n :
  argint um n s = Ok (if in_user (sz p) (arg_addr n) 4 then Some (sint32 (load32 m (arg_addr n))) else None, s).
Proof.
  unfold argint. rewrite (bind_Ok_l _ _ _ _ _ Hme), fetchint_ok; [done|]. apply wrap32_range.
Qed.

(** C30: Argument checking.  [argint] succeeds exactly when the argument's word
    lies inside the process, and [argptr] exactly when moreover the whole block
    of [size] bytes does, in exact arithmetic: no choice of stack pointer,
    pointer or size makes the 32-bit sums wrap past the checks. *)
Theorem argptr_in_bounds n size (Hsize : is_i32 size) :
  argptr um n size s =
    Ok (if in_user (sz p) (arg_addr n) 4 && (0 <=? size) && in_user (sz p) (load32 m (arg_addr n)) size
        then Some (load32 m (arg_addr n)) else None, s).
Proof.
  unfold argptr. rewrite (bind_Ok_l _ _ _ _ _ Hme), (bind_Ok_l _ _ _ _ _ (argint_ok n)).
  destruct (in_user (sz p) (arg_addr n) 4); [|done]. cbn [andb].
  pose proof (load32_range m (arg_addr n) Hbytes) as Hr. set (a := load32 m (arg_addr n)) in *.
  rewrite wrap32_sint32, (wrap32_id a Hr). unfold is_u32, is_i32 in *. change KERNBASE with (2^31) in Hsz.
  rewrite (Z.ltb_antisym 0 size). destruct (Z.leb_spec 0 size) as [H0|H0]; [|done]. simpl.
  unfold in_user. rewrite (proj2 (Z.leb_le 0 a)) by lia. simpl.
  destruct (Z.leb_spec (sz p) a) as [H|H]; [by rewrite (proj2 (Z.ltb_ge a (sz p))) by lia|].
  rewrite (proj2 (Z.ltb_lt a (sz p))), wrap32_id by (unfold is_u32; lia). simpl.
  destruct (Z.ltb_spec (sz p) (a + size)), (Z.leb_spec (a + size) (sz p)); try done; lia.
Qed.

Lemma find_nul_Some n a e : find_nul m a n = Some e →
  a ≤ e < a + Z.of_nat n ∧ m e = 0 ∧ ∀ x, a ≤ x < e → m x ≠ 0.
Proof.
  revert a. induction n as [|n IH]; intros a; simpl; [done|]. destruct (Z.eqb_spec (m a) 0) as [H|H].
  - intros [= <-]. split_and!; try lia; intros; lia.
  - intros He. destruct (IH _ He) as (H1 & H2 & H3). split; [lia|]. split; [done|]. intros x Hx.
    destruct (decide (x = a)) as [->|]; [done|]. apply H3. lia.
Qed.
Lemma find_nul_None n a : find_nul m a n = None → ∀ x, a ≤ x < a + Z.of_nat n → m x ≠ 0.
Proof.
  revert a. induction n as [|n IH]; intros a; simpl; [intros; lia|]. destruct (Z.eqb_spec (m a) 0); [done|].
  intros Hn x Hx. destruct (decide (x = a)) as [->|]; [done|]. apply (IH _ Hn). lia.
Qed.
Lemma read_bytes_nth a n i : (i < n)%nat → nth i (read_bytes m a n) 0 = m (a + Z.of_nat i).
Proof. intros Hi. by rewrite nth_lookup, read_bytes_lookup. Qed.

(** String arguments.  [argstr] succeeds exactly when the pointer lies inside
    the process and the string is terminated before its end; the result then is
    the characters up to the first NUL, all of them inside the process. *)
Theorem argstr_terminated n :
  ∃ r, argstr um n s = Ok (r, s) ∧
    let a := load32 m (arg_addr n) in
    match r with
    | Some str => in_user (sz p) (arg_addr n) 4 = true ∧ 0 ≤ a ∧ a + Z.of_nat (length str) < sz p ∧
        m (a + Z.of_nat (length str)) = 0 ∧
        ∀ i, (i < length str)%nat → nth i str 0 = m (a + Z.of_nat i) ∧ nth i str 0 ≠ 0
    | None => in_user (sz p) (arg_addr n) 4 = false ∨ sz p ≤ a ∨ ∀ x, a ≤ x < sz p → m x ≠ 0
    end.
Proof.
  unfold argstr. rewrite (bind_Ok_l _ _ _ _ _ (argint_ok n)).
  destruct (in_user (sz p) (arg_addr n) 4); [|exists None; split; [done|by left]].
  pose proof (load32_range m (arg_addr n) Hbytes) as Hr. set (a := load32 m (arg_addr n)) in *.
  rewrite wrap32_sint32, (wrap32_id a Hr). unfold is_u32 in Hr. unfold fetchstr.
  rewrite bind_assoc. rewrite (bind_Ok_l _ _ _ _ _ Hme). destruct (Z.leb_spec (sz p) a) as [H|H].
  { exists None. split; [done|auto]. }
  rewrite bind_assoc. unfold user. rewrite (bind_Ok_l (gets _) _ s m s) by done.
  rewrite (bind_Ok_l (mret _) _ s ((λ s0, s0 - a) <$> find_nul m a (Z.to_nat (sz p - a))) s) by done.
  rewrite (bind_Ok_l (gets _) _ s m s) by done. eexists. split; [done|]. cbn zeta.
  destruct (find_nul m a (Z.to_nat (sz p - a))) as [e|] eqn:Ee; simpl.
  - destruct (find_nul_Some _ _ _ Ee) as (H1 & H2 & H3).
    assert (Hl : length (read_bytes m a (Z.to_nat (e - a))) = Z.to_nat (e - a)) by apply length_read_bytes.
    rewrite Hl, Z2Nat.id by lia. split_and!; try done; try lia.
    + by replace (a + (e - a)) with e by lia.
    + intros i Hi. rewrite read_bytes_nth by done. split; [done|]. apply H3. lia.
  - right; right. intros x Hx. apply (find_nul_None _ _ Ee). lia.
Qed.
End Bounds.

(** *** Witnesses *)

(** A process of two pages; its argument word points to address 5000, where
    the string is AB. *)
Definition args_mem : mem := λ a,
  if a =? 4100 then 136 else if a =? 4101 then 19 else if a =? 5000 then 65 else if a =? 5001 then 66 else 0.
Definition args_proc : proc := set_tf (Trapframe 0 0 0 0 0 0 0 0 0 0 0 0 0 0 0 0 0 4096 0) (set_sz 8192 (set_state RUNNING proc0)).
Definition args_state : pst mem :=
  Pst {| cpus := [Cpu 0 0 true (Some 0%nat) true]; me := 0 |} (initlock "ptable")
    [args_proc] 2 (Some 0%nat) 0 (initlock "time") false args_mem.
Lemma args_bytes : bytes (view (Lens id (λ x _, x)) (penv args_state)).
Proof. intros a. simpl. unfold args_mem, is_u8. repeat case_match; lia. Qed.

Lemma argptr_in_bounds_witness : argptr (Lens id (λ x _, x)) 0 100 args_state = Ok (Some 5000, args_state).
Proof.
  rewrite (argptr_in_bounds (Lens id (λ x _, x)) args_state args_proc eq_refl ltac:(split; done) args_bytes 0 100) by done.
  reflexivity.
Defined.
Lemma argstr_terminated_witness : ∃ str, argstr (Lens id (λ x _, x)) 0 args_state = Ok (Some str, args_state) ∧ length str = 2%nat.
Proof.
  destruct (argstr_terminated (Lens id (λ x _, x)) args_state args_proc eq_refl ltac:(split; done) args_bytes 0) as (r & H & Hr).
  exists [65; 66]. split; reflexivity.
Defined.
