(* ===== verification/Rtc.v ===== *)
(** * The real-time clock

    The part of [lapic.c] that reads the date from the CMOS clock.  A register
    read is the hardware's, an argument of the section. *)

From S2P Require Import Prelude Machine.
Local Open Scope Z_scope.

(** [struct rtcdate] of [date.h] *)
Record rtcdate := Rtcdate { second : Z; minute : Z; hour : Z; day : Z; month : Z; year : Z }.
Global Instance rtcdate_eq_dec : EqDecision rtcdate.
Proof. solve_decision. Defined.

Definition CMOS_STATA : Z := 0x0a.
Definition CMOS_STATB : Z := 0x0b.
Definition CMOS_UIP : Z := 2^7.
Definition SECS : Z := 0.
Definition MINS : Z := 2.
Definition HOURS : Z := 4.
Definition DAY : Z := 7.
Definition MONTH : Z := 8.
Definition YEAR : Z := 9.

(** [CONV(x)] *)
Definition conv (x : Z) : Z := wrap32 (Z.shiftr x 4 * 10 + Z.land x 0xf).

Section Rtc.
Context {E : Type}.
(** [cmos_read]: select the register, wait, read the data port. *)
Variable cmos_read : Z → M E Z.

Definition fill_rtcdate : M E rtcdate :=
  s ← cmos_read SECS;
  mi ← cmos_read MINS;
  h ← cmos_read HOURS;
  d ← cmos_read DAY;
  mo ← cmos_read MONTH;
  y ← cmos_read YEAR;
  mret (Rtcdate s mi h d mo y).

(** The loop of [cmostime], for at most [n] attempts; a clock that never
    settles keeps the caller there. *)
Fixpoint cmostime_loop (n : nat) : M E rtcdate :=
  match n with
  | O => block
  | S n' =>
      t1 ← fill_rtcdate;
      a ← cmos_read CMOS_STATA;
      if negb (Z.land a CMOS_UIP =? 0) then cmostime_loop n' else
      t2 ← fill_rtcdate;
      if bool_decide (t1 = t2) then mret t1 else cmostime_loop n'
  end.

Definition cmostime (n : nat) : M E rtcdate :=
  sb ← cmos_read CMOS_STATB;
  let bcd := Z.land sb 4 =? 0 in
  t1 ← cmostime_loop n;
  let t1 := if bcd then Rtcdate (conv (second t1)) (conv (minute t1)) (conv (hour t1)) (conv (day t1))
                          (conv (month t1)) (conv (year t1)) else t1 in
  mret (Rtcdate (second t1) (minute t1) (hour t1) (day t1) (month t1) (wrap32 (year t1 + 2000))).
End Rtc.
