(* ===== verification/Sysproc.v ===== *)
(** * System calls on processes

    [sysproc.c]: the handlers that check their arguments and call [proc.c], the
    clock, the shared-memory routines and the test locks.  Each handler returns
    the value of the call; [others] stands for the rest of the system while the
    caller is not running. *)

From Stdlib Require Import Floats.SpecFloat.
From S2P Require Import Prelude Machine Str Spin Flt ProcTable Sched Proc ProcSteps SleepLock Syscall Rtc.
Local Open Scope Z_scope.

(** What the handlers use besides [Services]. *)
Class SysprocDeps (E : Type) := {
  (** the user part of the current address space *)
  um : lens E mem;
  (** [user_lock], [PL] with its address, and the counter [abbas] *)
  user_lock : lens E spinlock;
  PL : lens E sleeplock;
  PL_addr : Z;
  abbas : lens E Z;
  (** the clock hardware *)
  sd_cmos_read : Z → M E Z;
  (** the shared-memory routines of [vm.c], for the current process *)
  sd_open_shared_memory : Z → M (pst E) Z;
  sd_close_shm : Z → M (pst E) unit;
}.

Section Handlers.
Context {E : Type} `{!Services E} `{!SysprocDeps E}.
Variables trapret forkret_entry : Z.
Notation acquire := (acquire core_l).
Notation release := (release core_l).
Notation argint := (argint um).

(** [if(argint(n, &x) < 0) return -1;] followed by [k x]. *)
Definition with_int (n : Z) (k : Z → M (pst E) Z) : M (pst E) Z :=
  a ← argint n; match a with None => mret (-1) | Some x => k x end.

Definition sys_fork : M (pst E) Z := fork trapret forkret_entry.
Definition sys_exit (others : M (pst E) unit) : M (pst E) Z := exit others;; mret 0.
Definition sys_wait (others : list (M (pst E) unit)) : M (pst E) Z := wait others.
Definition sys_kill : M (pst E) Z := with_int 0 kill.
Definition sys_getpid : M (pst E) Z := p ← my_proc; mret (pid p).
Definition sys_sbrk : M (pst E) Z :=
  with_int 0 (λ n,
    p ← my_proc;
    let addr := sint32 (sz p) in
    r ← growproc n;
    if r <? 0 then mret (-1) else mret addr).

(** [while(ticks - ticks0 < n)]: [n] is converted to [uint].  The channel
    is the address of [ticks]. *)
Variable ticks_addr : Z.
Fixpoint sleep_loop (ticks0 n : Z) (others : list (M (pst E) unit)) : M (pst E) Z :=
  t ← gets ticks;
  if wrap32 (t - ticks0) <? wrap32 n then
    p ← my_proc;
    if negb (killed p =? 0) then release tickslock_l;; mret (-1) else
    match others with
    | [] => block
    | o :: others' => sleep o (ChAddr ticks_addr) (LkOther tickslock_l);; sleep_loop ticks0 n others'
    end
  else release tickslock_l;; mret 0.
Definition sys_sleep (others : list (M (pst E) unit)) : M (pst E) Z :=
  with_int 0 (λ n,
    acquire tickslock_l;;
    t0 ← gets ticks;
    sleep_loop t0 n others).

Definition sys_uptime : M (pst E) Z :=
  acquire tickslock_l;;
  t ← gets ticks;
  release tickslock_l;;
  mret (sint32 t).

Definition sys_find_digital_root : M (pst E) Z :=
  p ← my_proc;
  match find_digital_root (sint32 (tf_ebx (tf p))) with Some r => mret r | None => block end.

(** The code checks neither pointer; a missing process or a null parent is a
    fault here.  [count_child] reads the pid of a null parent at user address
    16. *)
Definition sys_get_uncle_count : M (pst E) Z :=
  with_int 0 (λ pd,
    i ← find_proc pd;
    p ← the_proc i;
    j ← deref (parent p);
    q ← the_proc j;
    m ← user um;
    c ← count_child (sint32 (load32 m 16)) (parent q);
    mret (sint32 (c - 1))).

Definition sys_get_process_lifetime : M (pst E) Z :=
  with_int 0 (λ pd,
    t ← gets ticks;
    i ← find_proc pd;
    p ← the_proc i;
    mret (sint32 (t - creation_time p))).

(** The stores of a [struct rtcdate] at user address [a]. *)
Definition store_date (a : Z) (d : rtcdate) (m : mem) : mem :=
  store32 (store32 (store32 (store32 (store32 (store32 m a (second d)) (a + 4) (minute d)) (a + 8) (hour d))
    (a + 12) (day d)) (a + 16) (month d)) (a + 20) (year d).
(** A [void] function called as one returning [int]: the result is whatever
    the register holds.  After a failed [argptr] the code goes on with an
    uninitialised pointer. *)
Definition sys_set_date (tries : nat) (garbage : Z) : M (pst E) Z :=
  a ← argptr um 0 24;
  match a with
  | None => on_lens env_l (sv_cprintf "Kernel: sys_set_date() has a problem.\n" []);; fault "uninitialised pointer"
  | Some a =>
      d ← on_lens env_l (cmostime sd_cmos_read tries);
      modify (λ s, upd_lens (env_in um) (store_date a d (view (env_in um) s)) s);;
      mret garbage
  end.

Definition sys_get_pid : M (pst E) Z := p ← my_proc; mret (pid p).
Definition sys_get_parent : M (pst E) Z :=
  p ← my_proc; j ← deref (parent p); q ← the_proc j; mret (pid q).

(** The second test lacks its [< 0]: any non-zero result is an error. *)
Definition sys_change_queue : M (pst E) Z :=
  with_int 0 (λ pd,
    a ← argint 1;
    match a with
    | None => mret (-1)
    | Some que =>
        on_lens env_l (sv_cprintf "%d\n" [AInt que]);;
        i ← find_proc pd;
        upd_proc i (set_que_id que);;
        mret 0
    end).

Definition sys_bjf_validation_process : M (pst E) Z :=
  with_int 0 (λ pd, with_int 1 (λ pr, with_int 2 (λ ct, with_int 3 (λ ec, with_int 4 (λ szr,
    i ← find_proc pd;
    upd_proc i (set_priority_ratio (f_of_int pr));;
    upd_proc i (set_creation_time_ratio (f_of_int ct));;
    upd_proc i (set_executed_cycle_ratio (f_of_int ec));;
    upd_proc i (set_process_size_ratio (f_of_int szr));;
    mret 0))))).
Definition sys_bjf_validation_system : M (pst E) Z :=
  with_int 0 (λ pr, with_int 1 (λ ct, with_int 2 (λ ec, with_int 3 (λ szr,
    reset_bjf_attributes_op (f_of_int pr) (f_of_int ct) (f_of_int ec) (f_of_int szr);;
    mret 0)))).

(** [junk]: an uninitialised variable of [print_bitches]. *)
Definition sys_print_info (junk : Z) : M (pst E) Z := print_bitches junk;; mret 0.
Definition sys_print_lopck_que : M (pst E) Z := mret 0.
Definition sys_plock_test (others : list (M (pst E) unit)) : M (pst E) Z :=
  siktir (env_in PL) PL_addr (env_in abbas) others;; mret 0.
Definition sys_open_shm : M (pst E) Z := with_int 0 (λ id, r ← sd_open_shared_memory id; mret (sint32 r)).
Definition sys_Aquire : M (pst E) Z := acquire (env_in user_lock);; mret 0.
Definition sys_R : M (pst E) Z := release (env_in user_lock);; mret 0.
Definition sys_C : M (pst E) Z := with_int 0 (λ id, sd_close_shm id;; mret 0).
End Handlers.

(** ** The user spin lock

    [sys_Aquire] returns to user mode inside [pushcli]. *)
Section UserLock.
Context {E : Type} `{!Services E} `{!SysprocDeps E}.
Implicit Types s : pst E.

(** With interrupts already off, [myproc] changes nothing. *)
Lemma myproc_inside s c : core_ok (p_core s) c → 0 < ncli c → myproc core_l s = Ok (cpu_proc c, s).
Proof.
  intros Hok Hn. rewrite (myproc_ok core_l s c Hok), settled_pos by done. cbn [view core_l].
  rewrite (with_cpu_id _ _ Hok). by destruct s.
Qed.
Lemma upd_myproc_inside s c i p f : core_ok (p_core s) c → 0 < ncli c → cpu_proc c = Some i →
  ptable s !! i = Some p → upd_myproc f s = Ok (tt, set_ptable (alter f i (ptable s)) s).
Proof.
  intros Hok Hn Hi Hp. unfold upd_myproc. rewrite (bind_Ok_l _ _ _ _ _ (myproc_inside s c Hok Hn)), Hi.
  rewrite (bind_Ok_l _ _ _ i s) by reflexivity. unfold upd_proc.
  rewrite (bind_Ok_l _ _ _ p s) by (unfold the_proc; by rewrite Hp). done.
Qed.
(** [sched] refuses a switch inside a second [pushcli]. *)
Lemma sched_nested others s c : core_ok (p_core s) c → 1 < ncli c →
  locked (ptable_lock s) ≠ 0 → lk_cpu (ptable_lock s) = Some (me (p_core s)) →
  sched others s = Panic "sched locks".
Proof.
  intros Hok Hn Hl Hc. pose proof Hok as (Hm & _ & _ & He). unfold sched, sched_checks.
  rewrite bind_assoc, (bind_Ok_l _ _ _ _ _ (myproc_inside s c Hok ltac:(lia))).
  rewrite bind_assoc, (bind_Ok_l _ _ _ _ _ (holding_ok core_l ptlock_l s c Hok)).
  cbn [view core_l ptlock_l]. rewrite Hc, bool_decide_true, (proj2 (Z.eqb_neq _ _) Hl), settled_pos by (done || lia).
  rewrite (with_cpu_id _ _ Hok). cbn [negb andb].
  replace (upd_lens core_l (p_core s) s) with s by (by destruct s).
  rewrite bind_assoc, (bind_Ok_l _ _ _ _ _ (on_mycpu core_l s c Hok (He ltac:(lia)))).
  rewrite bind_assoc, (bind_Ok_l _ _ _ c s).
  - by rewrite (proj2 (Z.eqb_neq _ _)) by lia.
  - unfold on_lens, cpu_at. cbn [view core_l]. rewrite Hm. by destruct s.
Qed.

(** A process that takes the user spin lock cannot be preempted any more.
    [sys_Aquire] returns with [ncli] at 1, so the yield of the next clock tick
    finds it at 2 inside [sched] and panics the kernel, whatever the other
    processes do. *)
Theorem aquire_then_yield_panics s c i p others
    (Hcore : core_ok (p_core s) c) (Hout : ncli c = 0) (Hi : cpu_proc c = Some i) (Hp : ptable s !! i = Some p)
    (Hlens : LensOk user_lock) (Hfree : locked (view user_lock (penv s)) = 0) (Hpt : locked (ptable_lock s) = 0) :
  ∃ s1, sys_Aquire s = Ok (0, s1) ∧ yield others s1 = Panic "sched locks".
Proof.
  unfold sys_Aquire. rewrite (bind_Ok_l _ _ _ _ _ (acquire_ok core_l (env_in user_lock) s c Hcore Hfree)).
  eexists. split; [reflexivity|]. set (s1 := upd_lens (env_in user_lock) _ _).
  assert (H1 : core_ok (p_core s1) (pushed c)) by by apply core_ok_pushed.
  unfold yield. rewrite (bind_Ok_l _ _ _ _ _ (acquire_ok core_l ptlock_l s1 (pushed c) H1 Hpt)).
  set (s2 := upd_lens ptlock_l _ _). set (c2 := pushed (pushed c)).
  assert (H2 : core_ok (p_core s2) c2) by by apply core_ok_pushed.
  assert (Hn : ncli c2 = 2) by (simpl; lia).
  assert (Hc2 : cpu_proc c2 = Some i) by done.
  assert (Hp2 : ptable s2 !! i = Some p) by exact Hp.
  do 3 (try (erewrite bind_Ok_l by reflexivity);
    erewrite bind_Ok_l by (eapply (upd_myproc_inside _ c2); [exact H2|lia|exact Hc2|];
      cbn [ptable set_ptable]; rewrite ?list_lookup_alter_eq, Hp2; reflexivity)).
  unfold mbind, M_bind. erewrite sched_nested; [reflexivity|exact H2|lia|done|done].
Qed.
End UserLock.

Definition demo_sysproc : SysprocDeps (mem * spinlock) := {|
  um := fst_lens;
  user_lock := snd_lens;
  PL := Lens (λ _, init_priority "PL") (λ _ s, s);
  PL_addr := 0x80112000;
  abbas := Lens (λ _, 0) (λ _ s, s);
  sd_cmos_read _ := mret 0;
  sd_open_shared_memory _ := mret 0;
  sd_close_shm _ := mret tt;
|}.
Definition demo_user : pst (mem * spinlock) :=
  Pst {| cpus := [Cpu 0 0 false (Some 0%nat) true]; me := 0 |} (initlock "ptable") [init_entry] 2 (Some 0%nat) 100
    (initlock "time") true (λ _, 0, initlock "user").
Lemma aquire_then_yield_panics_witness : ∃ s1, sys_Aquire (SysprocDeps0 := demo_sysproc) demo_user = Ok (0, s1) ∧
  yield (mret tt) s1 = Panic "sched locks".
Proof.
  apply (aquire_then_yield_panics (SysprocDeps0 := demo_sysproc) demo_user (Cpu 0 0 false (Some 0%nat) true) 0%nat
    init_entry (mret tt)); try reflexivity; [|apply snd_lens_ok]. split_and!; [reflexivity|reflexivity|done|done].
Defined.
