(* ===== verification/Sysfile.v ===== *)
(** * System calls on files

    [sysfile.c]: the handlers that check their arguments and call [file.c] and
    [fs.c].  A handler runs on the whole kernel state; [in_fs] runs a routine of
    [Fs] for the current process, whose pid and current directory that state
    names.  Addresses of entries of [ftable] and [icache] are fixed by the
    linker and are parameters. *)

From S2P Require Import Prelude Machine Str Spin Bio Log Flt ProcTable Proc Fs File Syscall.
Local Open Scope Z_scope.

(** [a & b] as a condition. *)
Definition has (a b : Z) : bool := negb (Z.land a b =? 0).
Definition b2z (b : bool) : Z := if b then 1 else 0.

Class SysfileDeps (E B : Type) := {
  (** the user part of the current address space, [ftable], the file system *)
  sf_um : lens E mem;
  sf_ftable : lens E (list file);
  sf_fs : lens E (fsys B);
  (** addresses and the entries they denote *)
  file_addr : nat → Z;
  file_of : Z → nat;
  inode_addr : nat → Z;
  inode_of : Z → nat;
  (** [devsw] *)
  sf_devsw_read : Z → option (nat → Z → M (fsys B) (Z * list Z));
  sf_devsw_write : Z → option (nat → list Z → M (fsys B) Z);
  (** [pipe.c] *)
  sf_pipeclose : Z → bool → M (pst E) unit;
  sf_piperead : Z → Z → M (pst E) (Z * list Z);
  sf_pipewrite : Z → list Z → Z → M (pst E) Z;
  sf_pipe_init : Z → M (pst E) unit;
}.

Section Ops.
Context {E B : Type} `{!Services E} `{!BlockLayer B} `{!SysfileDeps E B}.
Notation um := sf_um.
Notation env := (on_lens env_l).
Notation cprintf f l := (env (sv_cprintf f l)).

(** A routine of [Fs] on behalf of the current process. *)
Definition in_fs {A} (m : M (fsys B) A) : M (pst E) A :=
  p ← my_proc;
  modify (λ s, let f := view sf_fs (penv s) in
    upd_lens (env_in sf_fs) (Fsys (blocks f) (fsb f) (icache f) (pid p) (inode_of (cwd p))) s);;
  on_lens (env_in sf_fs) m.

(** [file.c] over this file system. *)
#[export] Instance sysfile_deps : FileDeps (pst E) := {|
  ftable := env_in sf_ftable;
  fd_begin_op := env sv_begin_op;
  fd_end_op := env sv_end_op;
  fd_ilock ip := in_fs (ilock ip);
  fd_iunlock ip := in_fs (iunlock ip);
  fd_iput ip := in_fs (iput ip);
  fd_stati ip := in_fs (stati ip);
  fd_readi ip off n := in_fs (readi sf_devsw_read ip off n);
  fd_writei ip src off := in_fs (writei sf_devsw_write ip src off);
  fd_pipeclose := sf_pipeclose;
  fd_piperead := sf_piperead;
  fd_pipewrite := sf_pipewrite;
  fd_kalloc := env sv_kalloc;
  fd_kfree p := env (sv_kfree p);
  fd_pipe_init := sf_pipe_init;
|}.
Notation begin_op := fd_begin_op.
Notation end_op := fd_end_op.
Notation upd_um f := (modify (λ s, upd_lens (env_in um) (f (view um (penv s))) s)).

(** *** Descriptors *)

(** The checks of [argfd] after [argint], shared with [my_argfd]. *)
Definition fd_file (fd : Z) : M (pst E) (option nat) :=
  p ← my_proc;
  let f := nth (Z.to_nat fd) (ofile p) 0 in
  mret (if f =? 0 then None else Some (file_of f)).
Definition argfd (n : Z) : M (pst E) (option (Z * nat)) :=
  a ← argint um n;
  match a with
  | None => mret None
  | Some fd =>
      if (fd <? 0) || (NOFILE <=? fd) then mret None else
      f ← fd_file fd;
      mret ((λ f, (fd, f)) <$> f)
  end.
Definition my_argfd (fd : Z) : M (pst E) (option nat) :=
  if fd <? 0 then mret None else
  if NOFILE <=? fd then cprintf "%d\n" [AInt fd];; mret None else
  fd_file fd.

(** [curproc->ofile[fd] = v] *)
Definition set_fd (fd : nat) (v : Z) : M (pst E) unit :=
  i ← myself; upd_proc i (λ p, set_ofile (<[fd := v]> (ofile p)) p).
Definition fdalloc (f : nat) : M (pst E) Z :=
  p ← my_proc;
  match find_index (λ x, x =? 0) (take (Z.to_nat NOFILE) (ofile p)) with
  | Some fd => set_fd fd (file_addr f);; mret (Z.of_nat fd)
  | None => mret (-1)
  end.

Definition sys_dup : M (pst E) Z :=
  a ← argfd 0;
  match a with
  | None => mret (-1)
  | Some (_, f) =>
      fd ← fdalloc f;
      if fd <? 0 then mret (-1) else filedup f;; mret fd
  end.

(** The bytes of [l] stored from address [a]. *)
Definition store_bytes (a : Z) (l : list Z) (m : mem) : mem :=
  λ x, if (a <=? x) && (x <? a + Z.of_nat (length l)) then nth (Z.to_nat (x - a)) l 0 else m x.

(** The common tests of [sys_read] and [sys_write]: the file, [n] and [p]. *)
Definition rw_args : M (pst E) (option (nat * Z * Z)) :=
  a ← argfd 0;
  match a with None => mret None | Some (_, f) =>
  n ← argint um 2;
  match n with None => mret None | Some n =>
  p ← argptr um 1 n;
  match p with None => mret None | Some p => mret (Some (f, n, p)) end end end.
Definition sys_read : M (pst E) Z :=
  a ← rw_args;
  match a with
  | None => mret (-1)
  | Some (f, n, p) => r ← fileread f n; upd_um (store_bytes p r.2);; mret r.1
  end.
Definition sys_write : M (pst E) Z :=
  a ← rw_args;
  match a with
  | None => mret (-1)
  | Some (f, n, p) => m ← user um; filewrite f (read_bytes m p (Z.to_nat n)) n
  end.

Definition sys_close : M (pst E) Z :=
  a ← argfd 0;
  match a with
  | None => mret (-1)
  | Some (fd, f) => set_fd (Z.to_nat fd) 0;; fileclose f;; mret 0
  end.

(** [struct stat] as stored; the two bytes after [type] and after [nlink] are
    padding and keep their contents. *)
Definition store_stat (a : Z) (st : stat_t) (m : mem) : mem :=
  let m := store_bytes a [st_type st mod 2^8; st_type st / 2^8 mod 2^8] m in
  let m := store32 m (a + 4) (wrap32 (st_dev st)) in
  let m := store32 m (a + 8) (st_ino st) in
  let m := store_bytes (a + 12) [st_nlink st mod 2^8; st_nlink st / 2^8 mod 2^8] m in
  store32 m (a + 16) (st_size st).
Definition sys_fstat : M (pst E) Z :=
  a ← argfd 0;
  match a with None => mret (-1) | Some (_, f) =>
  p ← argptr um 1 20;
  match p with None => mret (-1) | Some p =>
  r ← filestat f;
  match r.2 with Some st => upd_um (store_stat p st) | None => mret tt end;;
  mret r.1
  end end.

(** *** Directories *)

(** [name]: the uninitialised buffer of the caller. *)
Variable name : list Z.
Notation readi := (readi sf_devsw_read).
Notation writei := (writei sf_devsw_write).
Notation nameiparent := (nameiparent sf_devsw_read).
Notation namei := (namei sf_devsw_read).
Notation dirlookup := (dirlookup sf_devsw_read).
Notation dirlink := (dirlink sf_devsw_read sf_devsw_write).

(** [ip->nlink += d; iupdate(ip);] *)
Definition add_nlink (ip : nat) (d : Z) : M (fsys B) unit :=
  upd_inode ip (λ x, set_inlink (sint16 (i_nlink x + d)) x);; iupdate ip.
Definition link_bad (ip : nat) : M (pst E) Z :=
  in_fs (ilock ip);;
  in_fs (add_nlink ip (-1));;
  in_fs (iunlockput ip);;
  end_op;;
  mret (-1).
Definition sys_link : M (pst E) Z :=
  old ← argstr um 0;
  match old with None => mret (-1) | Some old =>
  new ← argstr um 1;
  match new with None => mret (-1) | Some new =>
  begin_op;;
  ip ← in_fs (namei old);
  match ip with None => end_op;; mret (-1) | Some ip =>
  in_fs (ilock ip);;
  x ← in_fs (the_inode ip);
  if i_type x =? T_DIR then in_fs (iunlockput ip);; end_op;; mret (-1) else
  in_fs (add_nlink ip 1);;
  in_fs (iunlock ip);;
  r ← in_fs (nameiparent new name);
  match r with
  | (None, _) => link_bad ip
  | (Some dp, nm) =>
      in_fs (ilock dp);;
      y ← in_fs (the_inode dp);
      x ← in_fs (the_inode ip);
      bad ← (if negb (i_dev y =? i_dev x) then mret true
             else l ← in_fs (dirlink dp nm (i_inum x)); mret (l <? 0));
      if bad : bool then in_fs (iunlockput dp);; link_bad ip else
      in_fs (iunlockput dp);;
      in_fs (iput ip);;
      end_op;;
      mret 0
  end end end end.

(** The loop of [isdirempty] from entry [off]. *)
Fixpoint isdirempty_loop (k : nat) (dp : nat) (off : Z) : M (fsys B) bool :=
  x ← the_inode dp;
  if off <? i_size x then
    match k with
    | O => fault "fuel"
    | S k' =>
        r ← readi dp off sizeof_dirent;
        if negb (r.1 =? sizeof_dirent) then panic "isdirempty: readi" else
        if negb (de_inum (get_dirent r.2) =? 0) then mret false
        else isdirempty_loop k' dp (off + sizeof_dirent)
    end
  else mret true.
Definition isdirempty (dp : nat) : M (fsys B) bool :=
  x ← the_inode dp;
  isdirempty_loop (Z.to_nat (i_size x / sizeof_dirent + 1)) dp (2 * sizeof_dirent).

(** The strings dot and dot-dot. *)
Definition dot : list Z := [46; 0].
Definition dotdot : list Z := [46; 46; 0].
Definition sys_unlink : M (pst E) Z :=
  path ← argstr um 0;
  match path with None => mret (-1) | Some path =>
  begin_op;;
  r ← in_fs (nameiparent path name);
  match r with
  | (None, _) => end_op;; mret (-1)
  | (Some dp, nm) =>
      let bad := (in_fs (iunlockput dp);; end_op;; mret (-1)) in
      in_fs (ilock dp);;
      if (namecmp nm dot =? 0) || (namecmp nm dotdot =? 0) then bad else
      f ← in_fs (dirlookup dp nm);
      match f with
      | None => bad
      | Some (ip, off) =>
          in_fs (ilock ip);;
          x ← in_fs (the_inode ip);
          if i_nlink x <? 1 then panic "unlink: nlink < 1" else
          full ← (if i_type x =? T_DIR then e ← in_fs (isdirempty ip); mret (negb e) else mret false);
          if full : bool then in_fs (iunlockput ip);; bad else
          w ← in_fs (writei dp (put_dirent (Dirent 0 (replicate 14 0))) off);
          if negb (w =? sizeof_dirent) then panic "unlink: writei" else
          whenM (i_type x =? T_DIR) (in_fs (add_nlink dp (-1)));;
          in_fs (iunlockput dp);;
          in_fs (add_nlink ip (-1));;
          in_fs (iunlockput ip);;
          end_op;;
          mret 0
      end
  end end.

(** *** Creating and opening *)

(** The inode, locked.  The whole routine runs inside [fs.c]. *)
Definition create (path : list Z) (type major minor : Z) : M (fsys B) (option nat) :=
  r ← nameiparent path name;
  match r with
  | (None, _) => mret None
  | (Some dp, nm) =>
      ilock dp;;
      f ← dirlookup dp nm;
      match f with
      | Some (ip, _) =>
          iunlockput dp;;
          ilock ip;;
          x ← the_inode ip;
          if (type =? T_FILE) && (i_type x =? T_FILE) then mret (Some ip)
          else iunlockput ip;; mret None
      | None =>
          y ← the_inode dp;
          ip ← ialloc (i_dev y) type;
          ilock ip;;
          upd_inode ip (set_idevno major minor);;
          upd_inode ip (set_inlink 1);;
          iupdate ip;;
          x ← the_inode ip;
          whenM (type =? T_DIR)
            (add_nlink dp 1;;
             a ← dirlink ip dot (i_inum x);
             if a <? 0 then panic "create dots" else
             b ← dirlink ip dotdot (i_inum y);
             if b <? 0 then panic "create dots" else mret tt);;
          l ← dirlink dp nm (i_inum x);
          if l <? 0 then panic "create: dirlink" else
          iunlockput dp;;
          mret (Some ip)
      end
  end.

(** The end of [sys_open], from [filealloc]; [ip] is locked. *)
Definition open_fd (ip : nat) (omode : Z) : M (pst E) (option (nat * Z)) :=
  let bad := (in_fs (iunlockput ip);; end_op;; mret None) in
  f ← filealloc;
  match f with
  | None => bad
  | Some f =>
      fd ← fdalloc f;
      if fd <? 0 then fileclose f;; bad else
      in_fs (iunlock ip);;
      end_op;;
      upd_file f (set_finode ip (b2z (negb (has omode O_WRONLY))) (b2z (has omode O_WRONLY || has omode O_RDWR)));;
      mret (Some (f, fd))
  end.
(** The beginning: the inode named by [path], locked, inside a transaction.
    [isdir_bad]: whether a directory is refused. *)
Definition open_inode (path : list Z) (creates isdir_bad : bool) : M (pst E) (option nat) :=
  if creates then
    ip ← in_fs (create path T_FILE 0 0);
    match ip with None => end_op;; mret None | Some ip => mret (Some ip) end
  else
    ip ← in_fs (namei path);
    match ip with None => end_op;; mret None | Some ip =>
    in_fs (ilock ip);;
    x ← in_fs (the_inode ip);
    if (i_type x =? T_DIR) && isdir_bad then in_fs (iunlockput ip);; end_op;; mret None
    else mret (Some ip)
    end.
Definition sys_open : M (pst E) Z :=
  path ← argstr um 0;
  match path with None => mret (-1) | Some path =>
  omode ← argint um 1;
  match omode with None => mret (-1) | Some omode =>
  begin_op;;
  ip ← open_inode path (has omode O_CREATE) (negb (omode =? O_RDONLY));
  match ip with None => mret (-1) | Some ip =>
  r ← open_fd ip omode;
  match r with None => mret (-1) | Some (_, fd) => mret fd end
  end end end.

Definition sys_mkdir : M (pst E) Z :=
  begin_op;;
  path ← argstr um 0;
  ip ← match path with None => mret None | Some path => in_fs (create path T_DIR 0 0) end;
  match ip with
  | None => end_op;; mret (-1)
  | Some ip => in_fs (iunlockput ip);; end_op;; mret 0
  end.
(** [major] and [minor] become [short]s. *)
Definition sys_mknod : M (pst E) Z :=
  begin_op;;
  path ← argstr um 0;
  ip ← match path with None => mret None | Some path =>
       major ← argint um 1;
       match major with None => mret None | Some major =>
       minor ← argint um 2;
       match minor with None => mret None | Some minor =>
       in_fs (create path T_DEV (sint16 major) (sint16 minor)) end end end;
  match ip with
  | None => end_op;; mret (-1)
  | Some ip => in_fs (iunlockput ip);; end_op;; mret 0
  end.

Definition sys_chdir : M (pst E) Z :=
  i ← myself;
  begin_op;;
  path ← argstr um 0;
  ip ← match path with None => mret None | Some path => in_fs (namei path) end;
  match ip with
  | None => end_op;; mret (-1)
  | Some ip =>
      in_fs (ilock ip);;
      x ← in_fs (the_inode ip);
      if negb (i_type x =? T_DIR) then in_fs (iunlockput ip);; end_op;; mret (-1) else
      in_fs (iunlock ip);;
      p ← the_proc i;
      in_fs (iput (inode_of (cwd p)));;
      end_op;;
      upd_proc i (set_cwd (inode_addr ip));;
      mret 0
  end.

(** *** Programs and pipes *)

(** The argument loop of [sys_exec], from [argv[i]]: at most [k] more. *)
Fixpoint fetch_argv (k : nat) (uargv i : Z) : M (pst E) (option (list (list Z))) :=
  match k with
  | O => mret None
  | S k' =>
      a ← fetchint um (wrap32 (uargv + 4 * i));
      match a with None => mret None | Some a =>
      let uarg := wrap32 a in
      if uarg =? 0 then mret (Some []) else
      l ← fetchstr um uarg;
      match l with None => mret None | Some l =>
      m ← user um;
      rest ← fetch_argv k' uargv (i + 1);
      mret (cons (read_bytes m uarg (Z.to_nat l)) <$> rest)
      end end
  end.
Definition sys_exec (exec : list Z → list (list Z) → M (pst E) Z) : M (pst E) Z :=
  path ← argstr um 0;
  match path with None => mret (-1) | Some path =>
  u ← argint um 1;
  match u with None => mret (-1) | Some u =>
  argv ← fetch_argv (Z.to_nat MAXARG) (wrap32 u) 0;
  match argv with None => mret (-1) | Some argv => exec path argv end
  end end.

Definition sys_pipe : M (pst E) Z :=
  fd ← argptr um 0 8;
  match fd with None => mret (-1) | Some fd =>
  r ← pipealloc;
  match r with
  | None => mret (-1)
  | Some (rf, wf) =>
      fd0 ← fdalloc rf;
      fd1 ← (if fd0 <? 0 then mret (-1) else fdalloc wf);
      if fd1 <? 0 then
        whenM (0 <=? fd0) (set_fd (Z.to_nat fd0) 0);;
        fileclose rf;;
        fileclose wf;;
        mret (-1)
      else
        upd_um (λ m, store32 (store32 m fd fd0) (fd + 4) fd1);;
        mret 0
  end end.

(** [sys_copy_file]: the source is opened as [O_RDONLY], the destination as
    [O_WRONLY], neither created.  The destination test compares the pointer
    [dest] with [O_RDONLY].  The two descriptors stay open. *)
Definition sys_copy_file : M (pst E) Z :=
  src ← argstr um 0;
  match src with None => mret (-1) | Some src =>
  dest ← argstr um 1;
  match dest with None => mret (-1) | Some dest =>
  dest_ptr ← argint um 1;
  begin_op;;
  ip ← open_inode src (has O_RDONLY O_CREATE) (negb (O_RDONLY =? O_RDONLY));
  match ip with None => mret (-1) | Some ip =>
  f ← open_fd ip O_RDONLY;
  match f with None => mret (-1) | Some (_, fd) =>
  f ← my_argfd fd;
  match f with None => mret (-1) | Some f =>
  r ← fileread f 4096;
  begin_op;;
  ip2 ← open_inode dest (has O_WRONLY O_CREATE) (negb (default 0 dest_ptr =? O_RDONLY));
  match ip2 with None => mret (-1) | Some ip2 =>
  f2 ← open_fd ip2 O_WRONLY;
  match f2 with None => mret (-1) | Some (_, fd2) =>
  f2 ← my_argfd fd2;
  match f2 with None => mret (-1) | Some f2 =>
  w ← filewrite f2 r.2 r.1;
  mret (if w =? r.1 then 0 else -1)
  end end end end end end end end.
End Ops.
