(* ===== verification/FileOk.v ===== *)
(** * The table of open files

    The well-formedness of [ftable] and that every operation of [File] keeps
    it, error paths included; and that the pieces [filewrite] cuts a write
    into fit the transactions it runs them in. *)

From S2P Require Import Prelude Machine Spin Bio Log ProcTable Proc Frame Fs Txn FsOk FsData File Syscall Sysfile.
Local Open Scope Z_scope.

(** A closed entry has no type; a reference count is an [int] that is not
    negative. *)
Definition file_wf (f : file) : Prop := 0 ≤ f_ref f ≤ 2^31 - 1 ∧ (f_ref f = 0 → f_type f = FD_NONE).
Definition table_wf (l : list file) : Prop := Z.of_nat (length l) = NFILE ∧ Forall file_wf l.

(** What the table needs of the layers below: they leave it alone. *)
Class FileFrame (S : Type) `{!FileDeps S} : Prop := {
  ff_lens : LensOk ftable;
  ff_begin : keeps (view ftable) fd_begin_op;
  ff_end : keeps (view ftable) fd_end_op;
  ff_ilock ip : keeps (view ftable) (fd_ilock ip);
  ff_iunlock ip : keeps (view ftable) (fd_iunlock ip);
  ff_iput ip : keeps (view ftable) (fd_iput ip);
  ff_stati ip : keeps (view ftable) (fd_stati ip);
  ff_readi ip off n : keeps (view ftable) (fd_readi ip off n);
  ff_writei ip src off : keeps (view ftable) (fd_writei ip src off);
  ff_pipeclose p b : keeps (view ftable) (fd_pipeclose p b);
  ff_piperead p n : keeps (view ftable) (fd_piperead p n);
  ff_pipewrite p l n : keeps (view ftable) (fd_pipewrite p l n);
  ff_kalloc : keeps (view ftable) fd_kalloc;
  ff_pipe_init p : keeps (view ftable) (fd_pipe_init p);
}.

Section Table.
Context {S : Type} `{!FileDeps S} `{!FileFrame S}.
Notation ft := (view ftable).
Implicit Types s : S.
#[local] Existing Instance ff_lens.
Hint Resolve ff_begin ff_end ff_ilock ff_iunlock ff_iput ff_stati ff_readi ff_writei ff_pipeclose ff_piperead
  ff_pipewrite ff_kalloc ff_pipe_init : keeps.

Lemma the_file_Ok i s f s' : the_file i s = Ok (f, s') → ft s !! i = Some f ∧ s' = s.
Proof. unfold the_file. destruct (ft s !! i); [|done]. by intros [= <- <-]. Qed.
Lemma upd_file_Ok i g s u s' : upd_file i g s = Ok (u, s') → ft s' = alter g i (ft s).
Proof. intros [= _ <-]. apply view_upd. Qed.

(** Every completed run keeps the table well formed. *)
Definition keeps_wf {A} (c : M S A) : Prop := ∀ s a s', table_wf (ft s) → c s = Ok (a, s') → table_wf (ft s').
Lemma wf_frame {A} (c : M S A) : keeps ft c → keeps_wf c.
Proof. intros H s a s' Hw Hc. by rewrite (H _ _ _ Hc). Qed.
Lemma wf_bind {A B} (c : M S A) (k : A → M S B) : keeps_wf c → (∀ a, keeps_wf (k a)) → keeps_wf (c ≫= k).
Proof. intros Hc Hk s b s' Hw H. apply bind_Ok in H as (a & s1 & H1 & H). eapply Hk; [|exact H]. by eapply Hc. Qed.
Lemma wf_if {A} (b : bool) (c d : M S A) : keeps_wf c → keeps_wf d → keeps_wf (if b then c else d).
Proof. by destruct b. Qed.
Lemma table_wf_alter g i l : (∀ f, l !! i = Some f → file_wf f → file_wf (g f)) → table_wf l → table_wf (alter g i l).
Proof.
  intros Hg [Hl Hf]. split; [by rewrite length_alter|]. apply Forall_alter; [done|].
  intros f Hi Hw. by apply Hg.
Qed.
Lemma wf_upd i g : (∀ f, file_wf f → file_wf (g f)) → keeps_wf (upd_file i g).
Proof. intros Hg s u s' Hw Hu. rewrite (upd_file_Ok _ _ _ _ _ Hu). apply table_wf_alter; auto. Qed.
Lemma keeps_the_file i : keeps ft (the_file i).
Proof. intros s f s' H. by apply the_file_Ok in H as [_ ->]. Qed.
Hint Resolve keeps_the_file : keeps.

(** *** Reading and writing *)

Ltac wf_step := first
  [ apply wf_frame; solve [keeps]
  | match goal with |- keeps_wf (_ ≫= _) => apply wf_bind; [|intros ?] end
  | unfold whenM; apply wf_if
  | apply wf_upd; by intros ].
Ltac wf := repeat wf_step.
Lemma wf_fileread i n : keeps_wf (fileread i n).
Proof. unfold fileread. wf. Qed.
Lemma wf_filestat i : keeps_wf (filestat i).
Proof. unfold filestat. wf. Qed.
Lemma wf_filewrite_loop k fi addr i n : keeps_wf (filewrite_loop k fi addr i n).
Proof. revert i. induction k as [|k IH]; intros i; cbn [filewrite_loop]; wf. apply IH. Qed.
Lemma wf_filewrite fi addr n : keeps_wf (filewrite fi addr n).
Proof. unfold filewrite. wf. apply wf_filewrite_loop. Qed.

(** *** Allocating and closing *)

Lemma filealloc_spec s r s' : table_wf (ft s) → filealloc s = Ok (r, s') →
  match r with
  | Some i => ∃ f, ft s !! i = Some f ∧ f_ref f = 0 ∧ f_type f = FD_NONE ∧ ft s' = <[i := set_fref 1 f]> (ft s)
  | None => s' = s ∧ ∀ i f, ft s !! i = Some f → 0 < f_ref f
  end.
Proof.
  intros [_ Hw] H. unfold filealloc in H. rewrite (bind_Ok_l _ _ _ (ft s) s) in H by reflexivity.
  destruct (find_index _ (ft s)) as [i|] eqn:Hi.
  - apply bind_Ok in H as (u & s1 & H1 & H). apply ret_Ok in H as [-> ->]. apply upd_file_Ok in H1.
    apply find_index_Some in Hi as [(f & Hf & H0) _]. apply Z.eqb_eq in H0. exists f. split_and!; [done|done| |].
    + by apply (Forall_lookup_1 _ _ _ _ Hw Hf).
    + by rewrite H1, (alter_at _ _ _ _ Hf).
  - apply ret_Ok in H as [-> ->]. split; [done|]. intros i f Hf. apply find_index_None with (j := i) (y := f) in Hi; [|done].
    pose proof (Forall_lookup_1 _ _ _ _ Hw Hf) as [Hr _]. apply Z.eqb_neq in Hi. lia.
Qed.
Lemma wf_insert l i f : table_wf l → file_wf f → table_wf (<[i := f]> l).
Proof. intros [Hl Hw] Hf. split; [by rewrite length_insert|by apply Forall_insert]. Qed.

(** Closing the last reference of a typeless entry makes it free again and
    calls nothing. *)
Lemma fileclose_fresh i s f u s' : table_wf (ft s) → ft s !! i = Some (set_fref 1 f) → f_ref f = 0 → f_type f = FD_NONE →
  fileclose i s = Ok (u, s') → ft s' = <[i := f]> (ft s).
Proof.
  intros Hw Hf Hr Ht H. unfold fileclose in H. apply bind_Ok in H as (g & s1 & [Hg ->]%the_file_Ok & H).
  rewrite Hf in Hg. injection Hg as <-. cbn [f_ref set_fref] in H. change (1 <? 1) with false in H.
  apply bind_Ok in H as (? & s2 & H2%upd_file_Ok & H). apply bind_Ok in H as (g & s3 & [Hg ->]%the_file_Ok & H).
  rewrite H2, list_lookup_alter_eq, Hf in Hg. injection Hg as <-. cbn [f_ref set_fref] in H.
  change (0 <? sint32 (1 - 1)) with false in H. apply bind_Ok in H as (? & s4 & H4%upd_file_Ok & H).
  unfold is_pipe, is_inode in H. cbn [f_type set_fref] in H. rewrite Ht in H. apply ret_Ok in H as [_ ->].
  rewrite H4, H2, alter_alter, (alter_at _ _ _ _ Hf). f_equal. destruct f. simpl in *. by subst.
Qed.
Lemma wf_fileclose i : keeps_wf (fileclose i).
Proof.
  intros s u s' Hw H. unfold fileclose in H. apply bind_Ok in H as (f & s1 & [Hf ->]%the_file_Ok & H).
  destruct (Z.ltb_spec (f_ref f) 1) as [|Hr]; [done|]. pose proof (Forall_lookup_1 _ _ _ _ (proj2 Hw) Hf) as [Hrange _].
  apply bind_Ok in H as (? & s2 & H2%upd_file_Ok & H). apply bind_Ok in H as (g & s3 & [Hg ->]%the_file_Ok & H).
  rewrite H2, list_lookup_alter_eq, Hf in Hg. injection Hg as <-. cbn [f_ref set_fref] in H.
  rewrite (alter_at _ _ _ _ Hf) in H2. rewrite sint32_id in * by (unfold is_i32; lia).
  destruct (Z.ltb_spec 0 (f_ref f - 1)).
  { apply ret_Ok in H as [_ ->]. rewrite H2. apply wf_insert; [done|]. split; simpl; lia. }
  apply bind_Ok in H as (? & s4 & H4%upd_file_Ok & H).
  assert (K : keeps ft (if is_pipe (set_fref (f_ref f - 1) f)
    then fd_pipeclose (f_pipe (set_fref (f_ref f - 1) f)) (negb (f_writable (set_fref (f_ref f - 1) f) =? 0))
    else whenM (is_inode (set_fref (f_ref f - 1) f)) (fd_begin_op;; fd_iput (f_ip (set_fref (f_ref f - 1) f));; fd_end_op)))
    by keeps.
  rewrite (K _ _ _ H), H4, H2. erewrite alter_at by (by eapply list_lookup_insert_eq, lookup_lt_Some).
  rewrite list_insert_insert_eq. by apply wf_insert.
Qed.
Lemma wf_filedup i s r s' : table_wf (ft s) → (∀ f, ft s !! i = Some f → f_ref f < 2^31 - 1) →
  filedup i s = Ok (r, s') → table_wf (ft s').
Proof.
  intros Hw Hb H. unfold filedup in H. apply bind_Ok in H as (f & s1 & [Hf ->]%the_file_Ok & H).
  destruct (Z.ltb_spec (f_ref f) 1) as [|Hr]; [done|]. specialize (Hb f Hf).
  apply bind_Ok in H as (? & s2 & H2%upd_file_Ok & H). apply ret_Ok in H as [_ ->].
  rewrite H2, (alter_at _ _ _ _ Hf), sint32_id by (unfold is_i32; lia). apply wf_insert; [done|]. split; simpl; lia.
Qed.

(** The two ends of a new pipe. *)
Definition pipe_ends (l : list file) (f0 f1 : nat) : Prop := ∃ a b p, p ≠ 0 ∧ f0 ≠ f1 ∧
  l !! f0 = Some a ∧ l !! f1 = Some b ∧ f_type a = FD_PIPE ∧ f_type b = FD_PIPE ∧ f_pipe a = p ∧ f_pipe b = p ∧
  f_ref a = 1 ∧ f_ref b = 1 ∧ (f_readable a, f_writable a) = (1, 0) ∧ (f_readable b, f_writable b) = (0, 1).
Lemma pipealloc_spec s r s' : table_wf (ft s) → pipealloc s = Ok (r, s') →
  match r with
  | Some (f0, f1) => table_wf (ft s') ∧ pipe_ends (ft s') f0 f1 ∧
      ∀ i, i ≠ f0 → i ≠ f1 → ft s' !! i = ft s !! i
  | None => ft s' = ft s
  end.
Proof.
  intros Hw H. unfold pipealloc in H. apply bind_Ok in H as (r0 & s1 & H1 & H). apply filealloc_spec in H1; [|done].
  destruct r0 as [f0|]; [|by apply ret_Ok in H as [-> ->]; destruct H1 as [-> _]].
  destruct H1 as (a & Ha & Ra & Ta & E1). assert (Hlt0 : (f0 < length (ft s))%nat) by by eapply lookup_lt_Some.
  assert (W1 : table_wf (ft s1)) by (rewrite E1; by apply wf_insert; [|split; simpl; lia]).
  apply bind_Ok in H as (r1 & s2 & H2 & H). apply filealloc_spec in H2; [|done]. destruct r1 as [f1|].
  2: { apply bind_Ok in H as (? & s3 & H3 & H). apply ret_Ok in H as [-> ->]. destruct H2 as [-> _].
       apply (fileclose_fresh _ _ a) in H3; try done; [|by rewrite E1, list_lookup_insert_eq].
       by rewrite H3, E1, list_insert_insert_eq, list_insert_id. }
  destruct H2 as (b & Hb & Rb & Tb & E2). assert (Hne : f0 ≠ f1).
  { intros ->. rewrite E1, list_lookup_insert_eq in Hb by done. injection Hb as <-. done. }
  rewrite E1, list_lookup_insert_ne in Hb by done. assert (Hlt1 : (f1 < length (ft s))%nat) by by eapply lookup_lt_Some.
  assert (W2 : table_wf (ft s2)) by (rewrite E2; by apply wf_insert; [|split; simpl; lia]).
  apply bind_Ok in H as (p & s3 & H3 & H). apply ff_kalloc in H3. destruct (Z.eqb_spec p 0) as [|Hp].
  - apply bind_Ok in H as (? & s4 & H4 & H). apply bind_Ok in H as (? & s5 & H5 & H). apply ret_Ok in H as [-> ->].
    apply (fileclose_fresh _ _ a) in H4; try done; [|by rewrite H3|by rewrite H3, E2, E1, list_lookup_insert_ne, list_lookup_insert_eq].
    rewrite H3, E2, E1, (list_insert_insert_ne _ f0 f1), list_insert_insert_eq, (list_insert_id _ _ _ Ha) in H4 by done.
    apply (fileclose_fresh _ _ b) in H5; try done; [..|by rewrite H4, list_lookup_insert_eq].
    + by rewrite H5, H4, list_insert_insert_eq, list_insert_id.
    + rewrite H4. by apply wf_insert; [|split; simpl; lia].
  - apply bind_Ok in H as (? & s4 & H4%ff_pipe_init & H). apply bind_Ok in H as (? & s5 & H5%upd_file_Ok & H).
    apply bind_Ok in H as (? & s6 & H6%upd_file_Ok & H). apply ret_Ok in H as [-> ->].
    assert (E : ft s6 = <[f1 := set_fpipe p 0 1 (set_fref 1 b)]> (<[f0 := set_fpipe p 1 0 (set_fref 1 a)]> (ft s))).
    { rewrite H6, H5, H4, H3, E2, E1. rewrite (alter_at _ f0 (set_fref 1 a)) by
        (by rewrite list_lookup_insert_ne, list_lookup_insert_eq).
      rewrite (list_insert_insert_ne _ f0 f1), list_insert_insert_eq by done.
      erewrite alter_at by (apply list_lookup_insert_eq; by rewrite length_insert). by rewrite list_insert_insert_eq. }
    rewrite E. split; [do 2 (apply wf_insert; [|split; simpl; lia]); done|]. split.
    + exists (set_fpipe p 1 0 (set_fref 1 a)), (set_fpipe p 0 1 (set_fref 1 b)), p. split_and!; try done.
      * by rewrite list_lookup_insert_ne, list_lookup_insert_eq.
      * apply list_lookup_insert_eq. by rewrite length_insert.
    + intros i Hi0 Hi1. by rewrite !list_lookup_insert_ne.
Qed.

(** C31: the table of open files stays well typed.  Every operation of [file.c]
    and [pipealloc], on its success and its failure branches, keeps this: a
    reference count is a non-negative [int] and an entry without references
    has no type, so a freshly allocated one has none.  A failed [pipealloc] leaves the table exactly as it was, and a
    successful one returns a read end and a write end of one pipe. *)
Theorem file_table_well_typed s (Hwf : table_wf (ft s)) :
  (∀ i s', filealloc s = Ok (Some i, s') →
     table_wf (ft s') ∧ ∃ f, ft s' !! i = Some f ∧ f_type f = FD_NONE ∧ f_ref f = 1) ∧
  (∀ i r s', (∀ f, ft s !! i = Some f → f_ref f < 2^31 - 1) → filedup i s = Ok (r, s') → table_wf (ft s')) ∧
  (∀ i u s', fileclose i s = Ok (u, s') → table_wf (ft s')) ∧
  (∀ i r s', filestat i s = Ok (r, s') → table_wf (ft s')) ∧
  (∀ i n r s', fileread i n s = Ok (r, s') → table_wf (ft s')) ∧
  (∀ i src n r s', filewrite i src n s = Ok (r, s') → table_wf (ft s')) ∧
  (∀ s', pipealloc s = Ok (None, s') → ft s' = ft s) ∧
  (∀ f0 f1 s', pipealloc s = Ok (Some (f0, f1), s') → table_wf (ft s') ∧ pipe_ends (ft s') f0 f1).
Proof.
  split_and!; intros.
  - apply filealloc_spec in H as (f & Hf & Hr & Ht & E); [|done]. rewrite E. split.
    + by apply wf_insert; [|split; simpl; lia].
    + eexists. split; [by eapply list_lookup_insert_eq, lookup_lt_Some|done].
  - by eapply wf_filedup.
  - by eapply wf_fileclose.
  - by eapply wf_filestat.
  - by eapply wf_fileread.
  - by eapply wf_filewrite.
  - by apply pipealloc_spec in H.
  - apply pipealloc_spec in H as (? & ? & _); done.
Qed.
End Table.

(** ** Transactions of [filewrite] *)

Section Chunk.
Context {B : Type} `{!BlockLayer B} `{!LayerOk B} (sb : superblock).

(** A piece touches at most four blocks of the file. *)
Lemma chunk_blocks off n : 0 ≤ n ≤ write_max → nblk off n ≤ 4.
Proof.
  change write_max with 1536. intros Hn. unfold nblk. destruct (n =? 0); [lia|]. Z.div_mod_to_equations. lia.
Qed.

(** A piece of [filewrite] fits its transaction.  With the [MAXOPBLOCKS]
    log blocks that [begin_op] waits for, writing at most [write_max] bytes at
    any offset of a file succeeds, stores the bytes, and logs at most
    [MAXOPBLOCKS] blocks: the log does not overflow, however the piece lies
    across block boundaries and whatever blocks have to be allocated. *)
Theorem filewrite_chunk_fits devsw_write s t ip x off src
    (Hrw : rw_file sb s t ip x) (Hsz : tx_size t ≤ FSSIZE) (Hheld : tx_held t = [])
    (Hoff : 0 ≤ off ≤ i_size x) (Hmax : off + Z.of_nat (length src) ≤ MAXFILE * BSIZE)
    (Hpiece : Z.of_nat (length src) ≤ write_max)
    (Hroom : Z.of_nat (length (tx_log t)) + MAXOPBLOCKS ≤ Z.of_nat (tx_cap t) ≤ LOGSIZE - 1)
    (Hfree : 4 < Z.of_nat (nfree sb t)) :
  ∃ b x' t', writei devsw_write ip src off s = Ok (Z.of_nat (length src), put_inode ip x' (set_blocks b s)) ∧
    written sb s t ip x off src (put_inode ip x' (set_blocks b s)) t' x' ∧
    Z.of_nat (length (tx_log t')) ≤ Z.of_nat (length (tx_log t)) + MAXOPBLOCKS.
Proof.
  change FSSIZE with 1000 in Hsz. change (LOGSIZE - 1) with 29 in Hroom. change MAXOPBLOCKS with 10 in *.
  pose proof (chunk_blocks off (Z.of_nat (length src)) ltac:(lia)) as Hn. change (MAXFILE * BSIZE) with (140 * 512) in Hmax.
  destruct (writei_ok sb devsw_write s t ip x off src Hrw) as [(b & x' & t' & H & Hwr)|[_ Hsp]];
    [lia|lia|lia|lia|rewrite Hheld; simpl; lia| |].
  - exists b, x', t'. split; [exact H|]. split; [exact Hwr|]. pose proof (wr_log _ _ _ _ _ _ _ _ _ _ Hwr). lia.
  - exfalso. unfold FsOk.space in Hsp. lia.
Qed.
End Chunk.

(** ** The table over the file system of [Sysfile] *)

Section Frame.
Context {E B : Type} `{!Services E} `{!BlockLayer B} `{!SysfileDeps E B}.
Context `{!LensOk sf_ftable} `{!LensDisj sf_ftable sf_fs}.
Notation ft := (view (env_in (E := E) sf_ftable)).
(** The log, the allocator and the pipes do not touch the table. *)
Hypothesis Hbegin : keeps (view sf_ftable) sv_begin_op.
Hypothesis Hend : keeps (view sf_ftable) sv_end_op.
Hypothesis Hkalloc : keeps (view sf_ftable) sv_kalloc.
Hypothesis Hpipeclose : ∀ p b, keeps ft (sf_pipeclose p b).
Hypothesis Hpiperead : ∀ p n, keeps ft (sf_piperead p n).
Hypothesis Hpipewrite : ∀ p l n, keeps ft (sf_pipewrite p l n).
Hypothesis Hpipe_init : ∀ p, keeps ft (sf_pipe_init p).

Lemma keeps_env {A} (c : M E A) : keeps (view sf_ftable) c → keeps ft (on_lens env_l c).
Proof. intros Hc s a s' H. apply on_lens_inv in H as (e & He & ->). by apply Hc in He. Qed.
#[local] Instance ft_core : KeepsLens ft core_l.
Proof. by constructor. Qed.
#[local] Instance ft_fs : KeepsLens ft (env_in sf_fs).
Proof. constructor. intros x s. apply (view_upd_l (l := sf_ftable) (k := sf_fs)). Qed.
Lemma keeps_on_fs {A} (c : M (fsys B) A) : keeps ft (in_fs c).
Proof. unfold in_fs, my_proc, myself. keeps. Qed.

Lemma sysfile_frame : FileFrame (pst E).
Proof.
  constructor; intros; cbn [ftable fd_begin_op fd_end_op fd_ilock fd_iunlock fd_iput fd_stati fd_readi fd_writei fd_pipeclose
    fd_piperead fd_pipewrite fd_kalloc fd_pipe_init sysfile_deps].
  1: apply env_in_ok, _.
  all: first [solve [apply keeps_env; assumption] | solve [apply keeps_on_fs] | solve [auto]].
Qed.
End Frame.

(** ** Concrete tables *)

Definition table_only : FileDeps (list file) := {|
  ftable := Lens id (λ l _, l);
  fd_begin_op := mret tt;
  fd_end_op := mret tt;
  fd_ilock _ := mret tt;
  fd_iunlock _ := mret tt;
  fd_iput _ := mret tt;
  fd_stati _ := mret (Stat 0 0 0 0 0);
  fd_readi _ _ _ := mret (0, []);
  fd_writei _ l _ := mret (Z.of_nat (length l));
  fd_pipeclose _ _ := mret tt;
  fd_piperead _ _ := mret (0, []);
  fd_pipewrite _ _ n := mret n;
  fd_kalloc := mret 0;
  fd_kfree _ := mret tt;
  fd_pipe_init _ := mret tt;
|}.
Lemma table_only_frame : FileFrame (list file) (FileDeps0 := table_only).
Proof. constructor; intros; first [by constructor; intros | apply keeps_ret]. Qed.
(** Without memory for the pipe, [pipealloc] undoes both allocations. *)
Lemma file_table_well_typed_witness :
  ∃ s', pipealloc (FileDeps0 := table_only) (replicate 100 file0) = Ok (None, s') ∧ s' = replicate 100 file0.
Proof.
  assert (Hwf : table_wf (view (ftable (FileDeps := table_only)) (replicate 100 file0))).
  { split; [reflexivity|]. apply Forall_replicate. split; [by vm_compute|reflexivity]. }
  destruct (file_table_well_typed (FileDeps0 := table_only) (FileFrame0 := table_only_frame) (replicate 100 file0) Hwf)
    as (_ & _ & _ & _ & _ & _ & Hfail & _).
  destruct (pipealloc (FileDeps0 := table_only) (replicate 100 file0)) as [[[p|] s']| | |] eqn:Hp;
    [exfalso; vm_compute in Hp; discriminate Hp| |exfalso; vm_compute in Hp; discriminate Hp..].
  exists s'. split; [reflexivity|]. exact (Hfail s' eq_refl).
Defined.
Lemma filewrite_chunk_fits_witness :
  ∃ s', writei (λ _, None) 0 [65; 66; 67] 0 (demo_fs [demo_inode]) = Ok (3, s').
Proof.
  destruct (filewrite_chunk_fits demo_sb (λ _, None) (demo_fs [demo_inode]) demo_tx 0 demo_inode 0 [65; 66; 67] demo_rw)
    as (b & x' & t' & H & _); [done|reflexivity|done|done|done|done|by rewrite demo_nfree|]. eexists. exact H.
Defined.
