(* ===== verification/Exec.v ===== *)
(** * Running a program

    [exec.c]: loading an ELF image into a new address space, building the user
    stack, and committing to it.  [exec] leaves the process as it was when it
    fails. *)

From S2P Require Import Prelude Machine Str Spin Bio Log Flt ProcTable Proc Fs File Syscall Sysfile Frame ProcSteps.
Local Open Scope Z_scope.

Definition ELF_MAGIC : Z := 0x464C457F.
Definition ELF_PROG_LOAD : Z := 1.

(** [struct elfhdr] and [struct proghdr], decoded from the bytes of the file;
    fields the code does not use are left out. *)
Record elfhdr := Elfhdr { magic : Z; entry : Z; phoff : Z; phnum : Z }.
Definition sizeof_elfhdr : Z := 52.
Record proghdr := Proghdr { ph_type : Z; ph_off : Z; ph_vaddr : Z; ph_filesz : Z; ph_memsz : Z }.
Definition sizeof_proghdr : Z := 32.
Definition get_elfhdr (d : list Z) : elfhdr :=
  Elfhdr (get_word d 0) (get_word d 6) (get_word d 7) (get_half d 22).
Definition get_proghdr (d : list Z) : proghdr :=
  Proghdr (get_word d 0) (get_word d 1) (get_word d 2) (get_word d 4) (get_word d 5).

(** What [exec] uses of [vm.c] besides [Services].  [ed_loaduvm] reads the
    file, so it runs on the whole state. *)
Class ExecDeps (E : Type) := {
  ed_loaduvm : Z → Z → nat → Z → Z → M E Z;
  ed_clearpteu : Z → Z → M E unit;
  ed_copyout : Z → Z → list Z → M E Z;
}.

(** The part of [path] after the last slash. *)
Fixpoint last_elem (last s : list Z) : list Z :=
  match s with
  | [] => last
  | c :: s' => last_elem (if c =? 47 then s' else last) s'
  end.
(** A word as its bytes. *)
Definition word_bytes (w : Z) : list Z := [w mod 2^8; w / 2^8 mod 2^8; w / 2^16 mod 2^8; w / 2^24 mod 2^8].
(** The stack pointer below a string of [n] characters and its NUL. *)
Definition below (sp : Z) (n : nat) : Z := Z.land (wrap32 (sp - (Z.of_nat n + 1))) (Z.lnot 3).
(** [ustack] for the pushed strings at [ptrs], above [sp]. *)
Definition ustack (sp : Z) (ptrs : list Z) : list Z :=
  let argc := Z.of_nat (length ptrs) in
  [0xffffffff; argc; wrap32 (sp - (argc + 1) * 4)] ++ ptrs ++ [0].

(** [tf->eip = v] and [tf->esp = v] *)
Definition set_tf_eip (v : Z) (t : trapframe) : trapframe :=
  Trapframe (tf_edi t) (tf_esi t) (tf_ebp t) (tf_oesp t) (tf_ebx t) (tf_edx t) (tf_ecx t) (eax t)
    (tf_gs t) (tf_fs t) (tf_es t) (tf_ds t) (trapno t) (tf_err t) v (tf_cs t) (tf_eflags t) (tf_esp t) (tf_ss t).
Definition set_tf_esp (v : Z) (t : trapframe) : trapframe :=
  Trapframe (tf_edi t) (tf_esi t) (tf_ebp t) (tf_oesp t) (tf_ebx t) (tf_edx t) (tf_ecx t) (eax t)
    (tf_gs t) (tf_fs t) (tf_es t) (tf_ds t) (trapno t) (tf_err t) (tf_eip t) (tf_cs t) (tf_eflags t) v (tf_ss t).

Section Exec.
Context {E B : Type} `{!Services E} `{!BlockLayer B} `{!SysfileDeps E B} `{!ExecDeps E}.
Notation env := (on_lens env_l).
Notation readi ip off n := (in_fs (readi sf_devsw_read ip off n)).

(** The program headers from index [i]; the new size, or nothing for [bad]. *)
Fixpoint load_segments (n : nat) (ip : nat) (pgdir off sz : Z) : M (pst E) (option Z) :=
  match n with
  | O => mret (Some sz)
  | S n' =>
      r ← readi ip off sizeof_proghdr;
      if negb (r.1 =? sizeof_proghdr) then mret None else
      let ph := get_proghdr r.2 in
      let off' := wrap32 (off + sizeof_proghdr) in
      if negb (ph_type ph =? ELF_PROG_LOAD) then load_segments n' ip pgdir off' sz else
      if ph_memsz ph <? ph_filesz ph then mret None else
      if wrap32 (ph_vaddr ph + ph_memsz ph) <? ph_vaddr ph then mret None else
      sz ← env (sv_allocuvm pgdir sz (wrap32 (ph_vaddr ph + ph_memsz ph)));
      if sz =? 0 then mret None else
      if negb (ph_vaddr ph mod PGSIZE =? 0) then mret None else
      l ← env (ed_loaduvm pgdir (ph_vaddr ph) ip (ph_off ph) (ph_filesz ph));
      if l <? 0 then mret None else load_segments n' ip pgdir off' sz
  end.

(** The argument strings; [ptrs] are the addresses of those pushed so far. *)
Fixpoint push_args (pgdir sp : Z) (argv : list (list Z)) (ptrs : list Z) : M (pst E) (option (Z * list Z)) :=
  match argv with
  | [] => mret (Some (sp, ptrs))
  | a :: argv' =>
      if MAXARG <=? Z.of_nat (length ptrs) then mret None else
      let sp := below sp (length a) in
      r ← env (ed_copyout pgdir sp (a ++ [0]));
      if r <? 0 then mret None else push_args pgdir sp argv' (ptrs ++ [sp])
  end.

(** [bad], with and without the inode. *)
Definition exec_bad (pgdir : Z) (ip : option nat) : M (pst E) Z :=
  whenM (negb (pgdir =? 0)) (env (sv_freevm pgdir));;
  match ip with Some ip => in_fs (iunlockput ip);; fd_end_op | None => mret tt end;;
  mret (-1).

(** Committing to the new image. *)
Definition exec_commit (curproc : nat) (path : list Z) (pgdir sz entry sp : Z) : M (pst E) Z :=
  upd_proc curproc (λ p, set_name (copy_name (ProcTable.name p) (last_elem path path ++ [0])) p);;
  p ← the_proc curproc;
  let oldpgdir := ProcTable.pgdir p in
  upd_proc curproc (ProcTable.set_pgdir pgdir);;
  upd_proc curproc (set_sz sz);;
  upd_proc curproc (λ p, set_tf (set_tf_eip entry (tf p)) p);;
  upd_proc curproc (λ p, set_tf (set_tf_esp sp (tf p)) p);;
  q ← the_proc curproc;
  env (sv_switchuvm q);;
  env (sv_freevm oldpgdir);;
  mret 0.
(** From the two stack pages to the commit. *)
Definition exec_stack (curproc : nat) (path : list Z) (argv : list (list Z)) (pgdir entry sz : Z) : M (pst E) Z :=
  let sz := PGROUNDUP sz in
  sz ← env (sv_allocuvm pgdir sz (wrap32 (sz + 2 * PGSIZE)));
  if sz =? 0 then exec_bad pgdir None else
  env (ed_clearpteu pgdir (wrap32 (sz - 2 * PGSIZE)));;
  r ← push_args pgdir sz argv [];
  match r with
  | None => exec_bad pgdir None
  | Some (sp, ptrs) =>
      let sp' := wrap32 (sp - (3 + Z.of_nat (length ptrs) + 1) * 4) in
      c ← env (ed_copyout pgdir sp' (mjoin (word_bytes <$> ustack sp ptrs)));
      if c <? 0 then exec_bad pgdir None else
      exec_commit curproc path pgdir sz entry sp'
  end.

Definition exec (path : list Z) (argv : list (list Z)) : M (pst E) Z :=
  curproc ← myself;
  fd_begin_op;;
  ip ← in_fs (namei sf_devsw_read path);
  match ip with
  | None => fd_end_op;; env (sv_cprintf "exec: fail\n" []);; mret (-1)
  | Some ip =>
      in_fs (ilock ip);;
      r ← readi ip 0 sizeof_elfhdr;
      if negb (r.1 =? sizeof_elfhdr) then exec_bad 0 (Some ip) else
      let elf := get_elfhdr r.2 in
      if negb (magic elf =? ELF_MAGIC) then exec_bad 0 (Some ip) else
      pgdir ← env sv_setupkvm;
      if pgdir =? 0 then exec_bad 0 (Some ip) else
      l ← load_segments (Z.to_nat (phnum elf)) ip pgdir (phoff elf) 0;
      match l with
      | None => exec_bad pgdir (Some ip)
      | Some sz =>
          in_fs (iunlockput ip);;
          fd_end_op;;
          exec_stack curproc path argv pgdir (entry elf) sz
      end
  end.
End Exec.

(** ** All or nothing *)

(** The process [exec] leaves on success. *)
Definition exec_image (path : list Z) (pgdir sz entry sp : Z) (p : proc) : proc :=
  set_tf (set_tf_esp sp (set_tf_eip entry (tf p)))
    (set_sz sz (ProcTable.set_pgdir pgdir
      (set_name (copy_name (ProcTable.name p) (last_elem path path ++ [0])) p))).

Section Table.
Context {E B : Type} `{!Services E} `{!BlockLayer B} `{!SysfileDeps E B} `{!ExecDeps E}.
Notation tbl := (ptable (E := E)).

#[export] Instance tbl_env : KeepsLens tbl env_l.
Proof. by constructor. Qed.
#[export] Instance tbl_env_in {T} (l : lens E T) : KeepsLens tbl (env_in l).
Proof. by constructor. Qed.
#[export] Instance tbl_core : KeepsLens tbl core_l.
Proof. by constructor. Qed.
Lemma keeps_myself : keeps tbl (myself (E := E)).
Proof. unfold myself. keeps. Qed.
Hint Resolve keeps_myself : keeps.
Lemma keeps_in_fs {A} (m : M (fsys B) A) : keeps tbl (in_fs (E := E) m).
Proof. unfold in_fs, my_proc. keeps. Qed.
Hint Resolve keeps_in_fs : keeps.
Lemma keeps_begin : keeps tbl fd_begin_op.
Proof. simpl. keeps. Qed.
Lemma keeps_end : keeps tbl fd_end_op.
Proof. simpl. keeps. Qed.
Hint Resolve keeps_begin keeps_end : keeps.
Lemma keeps_load_segments n ip pgdir off sz : keeps tbl (load_segments n ip pgdir off sz).
Proof. revert off sz. induction n as [|n IH]; intros off sz; cbn [load_segments]; keeps; apply IH. Qed.
Lemma keeps_push_args pgdir sp argv ptrs : keeps tbl (push_args pgdir sp argv ptrs).
Proof. revert sp ptrs. induction argv as [|a argv IH]; intros sp ptrs; cbn [push_args]; keeps; apply IH. Qed.
Hint Resolve keeps_load_segments keeps_push_args : keeps.

(** Every completed run of [c] from [s] ends as [Q] says. *)
Definition ends {A} (c : M (pst E) A) (s : pst E) (Q : A → pst E → Prop) : Prop :=
  ∀ a s', c s = Ok (a, s') → Q a s'.
Lemma ends_bind {A A'} (c : M (pst E) A) (k : A → M (pst E) A') s Q :
  keeps tbl c → (∀ a s1, c s = Ok (a, s1) → tbl s1 = tbl s → ends (k a) s1 Q) → ends (c ≫= k) s Q.
Proof. intros Hc Hk a s' H. apply bind_Ok in H as (b & s1 & H1 & H). eapply Hk; [exact H1|by eapply Hc|exact H]. Qed.
Lemma ends_bad pgdir ip s : ends (exec_bad pgdir ip) s (λ r s', r = -1 ∧ tbl s' = tbl s).
Proof.
  unfold exec_bad. apply ends_bind; [keeps|]. intros _ s1 _ H1. apply ends_bind; [keeps|]. intros _ s2 _ H2 r s' [= <- <-].
  split; [done|congruence].
Qed.
Lemma ends_weaken {A} (c : M (pst E) A) s (P Q : A → pst E → Prop) :
  ends c s P → (∀ a s', P a s' → Q a s') → ends c s Q.
Proof. intros H HPQ a s' Hc. by apply HPQ, H. Qed.

Definition exec_post (path : list Z) (i : nat) (p : proc) (t : list proc) (r : Z) (s' : pst E) : Prop :=
  (r = -1 ∧ tbl s' = t) ∨
  (r = 0 ∧ ∃ pgdir sz entry sp, pgdir ≠ 0 ∧ sz ≠ 0 ∧ tbl s' = <[i := exec_image path pgdir sz entry sp p]> t).
Lemma bad_post path i p t pgdir ip s : tbl s = t → ends (exec_bad pgdir ip) s (exec_post path i p t).
Proof. intros <-. eapply ends_weaken; [apply ends_bad|]. intros r s' H. by left. Qed.
Lemma upd_proc_run i g (s : pst E) u s' : upd_proc i g s = Ok (u, s') → s' = set_ptable (alter g i (tbl s)) s.
Proof. intros H. apply bind_Ok in H as (q & s1 & H1 & [= _ <-]). unfold the_proc in H1. by destruct (_ !! _); simplify_eq. Qed.

Lemma the_proc_Ok i (s : pst E) q s' : the_proc i s = Ok (q, s') → tbl s !! i = Some q ∧ s' = s.
Proof. unfold the_proc. destruct (tbl s !! i); [|done]. by intros [= <- <-]. Qed.
(** The last two calls run on the new process and the old directory. *)
Lemma exec_commit_ok i path pgdir sz entry sp (s : pst E) p r s' :
  tbl s !! i = Some p → exec_commit i path pgdir sz entry sp s = Ok (r, s') →
  r = 0 ∧ tbl s' = <[i := exec_image path pgdir sz entry sp p]> (tbl s) ∧
  ∃ q e1, sv_switchuvm q (penv s) = Ok (tt, e1) ∧ sv_freevm (ProcTable.pgdir p) e1 = Ok (tt, penv s').
Proof.
  intros Hp H. unfold exec_commit in H. apply bind_Ok in H as (? & ? & ->%upd_proc_run & H).
  apply bind_Ok in H as (p1 & ? & [H1 ->]%the_proc_Ok & H). cbn [ptable set_ptable] in H1.
  rewrite list_lookup_alter_eq, Hp in H1. injection H1 as <-.
  do 4 (apply bind_Ok in H as (? & ? & ->%upd_proc_run & H)).
  apply bind_Ok in H as (q & ? & [_ ->]%the_proc_Ok & H). apply bind_Ok in H as ([] & ? & (e1 & H1 & ->)%on_lens_inv & H).
  apply bind_Ok in H as ([] & ? & (e2 & H2 & ->)%on_lens_inv & H). apply ret_Ok in H as [-> ->]. split; [done|]. split.
  - cbn [ptable set_ptable upd_lens env_l]. rewrite !alter_alter. by rewrite (alter_at _ _ p).
  - exists q, e1. split; [exact H1|exact H2].
Qed.

Lemma exec_stack_post i path argv pgdir entry sz0 (s : pst E) p :
  pgdir ≠ 0 → tbl s !! i = Some p → ends (exec_stack i path argv pgdir entry sz0) s (exec_post path i p (tbl s)).
Proof.
  intros Hpg Hp. unfold exec_stack. apply ends_bind; [keeps|]. intros sz s1 _ H1.
  destruct (Z.eqb_spec sz 0) as [|Hsz]; [by apply bad_post|].
  apply ends_bind; [keeps|]. intros _ s2 _ H2. apply ends_bind; [keeps|]. intros r s3 _ H3.
  destruct r as [[sp ptrs]|]; [|apply bad_post; congruence].
  apply ends_bind; [keeps|]. intros c s4 _ H4. destruct (c <? 0); [apply bad_post; congruence|].
  intros r s' H. right. apply (exec_commit_ok _ _ _ _ _ _ _ p) in H as (-> & Ht & _); [|congruence].
  split; [done|]. eexists pgdir, sz, entry, _. split; [done|]. split; [done|]. rewrite Ht. f_equal. congruence.
Qed.

(** C27: [exec] is all or nothing.  Whatever the allocator, the file system and
    the copying routines do, a run that returns either returns -1 and leaves
    the whole process table as it was, on each of its failure branches, or
    returns 0 and has changed only the caller's entry: its address space, size,
    entry point, stack pointer and name. *)
Theorem exec_all_or_nothing path argv (s s0 s' : pst E) i p r
    (Hi : myself s = Ok (i, s0)) (Hp : tbl s !! i = Some p) (Hr : exec path argv s = Ok (r, s')) :
  exec_post path i p (tbl s) r s'.
Proof.
  revert r s' Hr. change (ends (exec path argv) s (exec_post path i p (tbl s))). unfold exec.
  apply ends_bind; [keeps|]. intros i' s1 Hi' H1. rewrite Hi in Hi'. injection Hi' as <- ->.
  apply ends_bind; [keeps|]. intros _ s2 _ H2. apply ends_bind; [keeps|]. intros ip s3 _ H3.
  destruct ip as [ip|].
  2: { intros r s' H. left. apply bind_Ok in H as (? & s4 & H4 & H). apply bind_Ok in H as (? & s5 & H5 & H).
       apply ret_Ok in H as [-> ->]. split; [done|]. apply keeps_end in H4.
       rewrite (keeps_on_lens tbl env_l _ _ _ _ H5). congruence. }
  apply ends_bind; [keeps|]. intros _ s4 _ H4. apply ends_bind; [keeps|]. intros d s5 _ H5.
  destruct (negb _); [apply bad_post; congruence|]. destruct (negb _); [apply bad_post; congruence|].
  apply ends_bind; [keeps|]. intros pgdir s6 _ H6. destruct (Z.eqb_spec pgdir 0); [apply bad_post; congruence|].
  apply ends_bind; [keeps|]. intros sz s7 _ H7. destruct sz as [sz|]; [|apply bad_post; congruence].
  apply ends_bind; [keeps|]. intros _ s8 _ H8. apply ends_bind; [keeps|]. intros _ s9 _ H9.
  replace (tbl s) with (tbl s9) by congruence. apply exec_stack_post; [done|congruence].
Qed.
End Table.

(** ** A concrete run

    The current directory is a device whose contents are an ELF header without
    segments, the environment a file system without blocks and a memory. *)
Definition no_blocks : BlockLayer unit := {|
  bl_bread _ _ := fault "bread";
  bl_data _ := fault "data";
  bl_store _ _ := fault "store";
  bl_log_write _ := fault "log_write";
  bl_brelse _ := fault "brelse";
|}.
Definition tiny_elf : list Z := word_bytes ELF_MAGIC ++ replicate 20 0 ++ word_bytes 0x1000 ++ replicate 24 0.
Definition demo_deps : SysfileDeps (fsys unit * mem) unit := {|
  sf_um := snd_lens;
  sf_ftable := Lens (λ _, []) (λ _ s, s);
  sf_fs := fst_lens;
  file_addr i := 0x80110000 + 24 * Z.of_nat i;
  file_of a := Z.to_nat ((a - 0x80110000) / 24);
  inode_addr i := 0x80120000 + 144 * Z.of_nat i;
  inode_of a := Z.to_nat ((a - 0x80120000) / 144);
  sf_devsw_read ma := Some (λ _ n, mret (n, take (Z.to_nat n) tiny_elf));
  sf_devsw_write _ := None;
  sf_pipeclose _ _ := mret tt;
  sf_piperead _ _ := mret (0, []);
  sf_pipewrite _ _ _ := mret 0;
  sf_pipe_init _ := mret tt;
|}.
Definition demo_exec : ExecDeps (fsys unit * mem) := {|
  ed_loaduvm _ _ _ _ _ := mret 0;
  ed_clearpteu _ _ := mret tt;
  ed_copyout _ va l := modify (λ s, (s.1, store_bytes va l s.2));; mret 0;
|}.
Definition demo_caller : proc := set_cwd 0x80120000 init_entry.
Definition demo_state : pst (fsys unit * mem) :=
  Pst {| cpus := [Cpu 0 0 false (Some 0%nat) true]; me := 0 |} (initlock "ptable") [demo_caller] 2 (Some 0%nat) 100
    (initlock "time") true
    (Fsys tt (Superblock 0 0 0 0 0 0 0) [Inode 1 1 1 None 1 T_DEV 0 0 1 0 (replicate 13 0)] 0 0, λ _, 0).

Lemma exec_all_or_nothing_witness :
  ∃ s', exec (Services0 := plain_services_on snd_lens) (BlockLayer0 := no_blocks) (SysfileDeps0 := demo_deps)
          (ExecDeps0 := demo_exec) [] [[101; 99; 104; 111]] demo_state = Ok (0, s') ∧
        exec_post [] 0 demo_caller [demo_caller] 0 s'.
Proof.
  destruct (exec (Services0 := plain_services_on snd_lens) (BlockLayer0 := no_blocks) (SysfileDeps0 := demo_deps)
          (ExecDeps0 := demo_exec) [] [[101; 99; 104; 111]] demo_state) as [[r s']| | |] eqn:Hr.
  2-4: exfalso; vm_compute in Hr; discriminate Hr.
  assert (r = 0) as -> by (vm_compute in Hr; injection Hr as Hr _; symmetry; exact Hr).
  exists s'. split; [reflexivity|].
  exact (exec_all_or_nothing (Services0 := plain_services_on snd_lens) (BlockLayer0 := no_blocks)
    (SysfileDeps0 := demo_deps) (ExecDeps0 := demo_exec) [] [[101; 99; 104; 111]] demo_state _ s' 0%nat demo_caller 0
    ltac:(vm_compute; reflexivity) ltac:(reflexivity) Hr).
Defined.
