(* ===== verification/ExecArgs.v ===== *)
(** * The initial user stack

    What [exec] leaves for [main(argc, argv)]: the argument strings, the array
    of pointers to them and the three words above which the program starts.
    [ExecOk] states what the copying and switching routines promise on the new
    address space, seen as the memory [uview]. *)

From S2P Require Import Prelude Machine Str Spin Bio Log Flt ProcTable Proc Fs File Syscall Sysfile Frame ProcSteps Exec.
Local Open Scope Z_scope.

(** ** Bytes in memory *)

Definition holds (m : mem) (a : Z) (l : list Z) : Prop := ∀ i x, l !! i = Some x → m (a + Z.of_nat i) = x.
Lemma store_bytes_holds a l m : holds (store_bytes a l m) a l.
Proof.
  intros i x Hi. pose proof (lookup_lt_Some _ _ _ Hi). unfold store_bytes.
  rewrite (proj2 (Z.leb_le _ _)), (proj2 (Z.ltb_lt _ _)) by lia. simpl.
  replace (Z.to_nat (a + Z.of_nat i - a)) with i by lia. by rewrite nth_lookup, Hi.
Qed.
Lemma store_bytes_other a l m x : x < a ∨ a + Z.of_nat (length l) ≤ x → store_bytes a l m x = m x.
Proof.
  intros H. unfold store_bytes. destruct (Z.leb_spec a x), (Z.ltb_spec x (a + Z.of_nat (length l))); try done. lia.
Qed.
Lemma holds_above m a l b k : holds m a l → b + Z.of_nat (length k) ≤ a → holds (store_bytes b k m) a l.
Proof. intros H Hb i x Hi. rewrite store_bytes_other by lia. by apply H. Qed.
Lemma holds_app_r m a l k : holds m a (l ++ k) → holds m (a + Z.of_nat (length l)) k.
Proof.
  intros H i x Hi. replace (a + Z.of_nat (length l) + Z.of_nat i) with (a + Z.of_nat (length l + i)) by lia.
  apply H. rewrite lookup_app_r by lia. by replace (length l + i - length l)%nat with i by lia.
Qed.
Lemma holds_app_l m a l k : holds m a (l ++ k) → holds m a l.
Proof. intros H i x Hi. apply H. by apply lookup_app_l_Some. Qed.
Lemma holds_word m a w : is_u32 w → holds m a (word_bytes w) → load32 m a = w.
Proof.
  unfold is_u32. intros Hw H. unfold load32. pose proof (H 0%nat _ eq_refl) as H0. pose proof (H 1%nat _ eq_refl) as H1.
  pose proof (H 2%nat _ eq_refl) as H2. pose proof (H 3%nat _ eq_refl) as H3.
  change (Z.of_nat 0) with 0 in H0. rewrite Z.add_0_r in H0.
  change (Z.of_nat 1) with 1 in H1. change (Z.of_nat 2) with 2 in H2. change (Z.of_nat 3) with 3 in H3.
  rewrite H0, H1, H2, H3. Z.div_mod_to_equations. lia.
Qed.
Lemma holds_words m a ws k w : Forall is_u32 ws → holds m a (mjoin (word_bytes <$> ws)) → ws !! k = Some w →
  load32 m (a + 4 * Z.of_nat k) = w.
Proof.
  revert a k. induction ws as [|v ws IH]; intros a k Hu Hh Hk; [done|].
  apply Forall_cons in Hu as [Hv Hu]. rewrite fmap_cons in Hh. cbn [mjoin list_join] in Hh.
  destruct k as [|k].
  - injection Hk as ->. change (Z.of_nat 0) with 0. rewrite Z.mul_0_r, Z.add_0_r.
    apply holds_word; [done|]. by eapply holds_app_l.
  - apply holds_app_r in Hh. change (Z.of_nat (length (word_bytes v))) with 4 in Hh.
    replace (a + 4 * Z.of_nat (S k)) with (a + 4 + 4 * Z.of_nat k) by lia. by apply IH.
Qed.
Lemma length_words ws : length (mjoin (word_bytes <$> ws)) = (4 * length ws)%nat.
Proof.
  induction ws as [|w ws IH]; [done|].
  change (length (word_bytes w ++ mjoin (word_bytes <$> ws)) = (4 * length (w :: ws))%nat). rewrite length_app, IH. simpl. lia.
Qed.

(** [& ~3] rounds down to a word. *)
Lemma below_spec sp n : 0 ≤ sp < 2^32 → Z.of_nat n + 4 ≤ sp →
  below sp n mod 4 = 0 ∧ sp - (Z.of_nat n + 4) ≤ below sp n ≤ sp - (Z.of_nat n + 1).
Proof.
  intros Hs Hn. unfold below. rewrite wrap32_id by (unfold is_u32; lia). set (x := sp - _).
  assert (Z.land x (Z.lnot 3) = x - x mod 4) as ->.
  { change 3 with (Z.ones 2). rewrite <- Z.ldiff_land, Z.ldiff_ones_r by lia.
    rewrite Z.shiftl_mul_pow2, Z.shiftr_div_pow2 by lia. change (2^2) with 4. Z.div_mod_to_equations. lia. }
  subst x. split; Z.div_mod_to_equations; lia.
Qed.

(** ** The stack *)

(** The routines on address spaces. *)
Class ExecOk (E : Type) `{!Services E} `{!ExecDeps E} := {
  uview : Z → E → mem;
  ek_copyout pd va l e r e' : ed_copyout pd va l e = Ok (r, e') → 0 ≤ r → uview pd e' = store_bytes va l (uview pd e);
  ek_alloc pd o n e r e' : sv_allocuvm pd o n e = Ok (r, e') → r = 0 ∨ r = n;
  ek_switch p pd e u e' : sv_switchuvm p e = Ok (u, e') → uview pd e' = uview pd e;
  ek_free pd' pd e u e' : sv_freevm pd' e = Ok (u, e') → pd' ≠ pd → uview pd e' = uview pd e;
}.

(** The room the strings and [ustack] can take. *)
Fixpoint strings_room (argv : list (list Z)) : Z :=
  match argv with [] => 0 | a :: argv' => Z.of_nat (length a) + 4 + strings_room argv' end.
Definition stack_room (argv : list (list Z)) : Z := strings_room argv + 4 * (Z.of_nat (length argv) + 4).
Lemma strings_room_nonneg argv : 0 ≤ strings_room argv.
Proof. induction argv; simpl; lia. Qed.

(** The string [a], with its NUL, at the aligned address [q] from [sp] on. *)
Definition string_at (m : mem) (sp : Z) (a : list Z) (q : Z) : Prop :=
  sp ≤ q ∧ q < 2^32 ∧ q mod 4 = 0 ∧ holds m q (a ++ [0]).
Lemma string_at_store m sp a q b k : string_at m sp a q → b + Z.of_nat (length k) ≤ sp → b ≤ sp →
  string_at (store_bytes b k m) b a q.
Proof. intros (H1 & H2 & H3 & H4) Hb Hb'. split_and!; try lia. apply holds_above; [done|lia]. Qed.

Section Stack.
Context {E B : Type} `{!Services E} `{!BlockLayer B} `{!SysfileDeps E B} `{!ExecDeps E} `{!ExecOk E}.
Notation tbl := (ptable (E := E)).
Implicit Types s : pst E.

Lemma push_args_ok pgdir sp argv prev ptrs s sp' ptrs' s' :
  0 ≤ sp < 2^32 → strings_room argv ≤ sp →
  Forall2 (string_at (uview pgdir (penv s)) sp) prev ptrs →
  push_args pgdir sp argv ptrs s = Ok (Some (sp', ptrs'), s') →
  sp - strings_room argv ≤ sp' ≤ sp ∧ Forall2 (string_at (uview pgdir (penv s')) sp') (prev ++ argv) ptrs'.
Proof.
  revert sp prev ptrs s. induction argv as [|a argv IH]; intros sp prev ptrs s Hsp Hroom Hd; cbn [push_args].
  { intros H. apply ret_Ok in H as [[= -> ->] ->]. rewrite app_nil_r. simpl. split; [lia|exact Hd]. }
  destruct (_ <=? _); [done|]. intros H. apply bind_Ok in H as (r & s1 & H1 & H).
  apply on_lens_inv in H1 as (e & H1 & ->). cbn [strings_room] in Hroom. pose proof (strings_room_nonneg argv).
  destruct (Z.ltb_spec r 0) as [|Hr]; [done|]. apply ek_copyout in H1; [|done].
  destruct (below_spec sp (length a)) as [Ha Hb]; [lia|lia|]. set (q := below sp (length a)) in *.
  eapply (IH q (prev ++ [a]) (ptrs ++ [q])) in H; [|lia..|].
  - destruct H as [H2 H3]. rewrite <- app_assoc in H3. split; [cbn [strings_room]; lia|exact H3].
  - cbn [penv upd_lens env_l]. rewrite H1. apply Forall2_app.
    + eapply Forall2_impl; [exact Hd|]. intros b p Hb'. eapply string_at_store; [exact Hb'| |lia].
      rewrite length_app. simpl. lia.
    + constructor; [|constructor]. split_and!; [lia|lia|done|apply store_bytes_holds].
Qed.

(** What [main] finds at [sp]: a return address, [argc], [argv], and the array
    of pointers to the strings with the null pointer after them. *)
Definition main_frame (m : mem) (sp : Z) (argv : list (list Z)) : Prop :=
  load32 m sp = 0xffffffff ∧ load32 m (sp + 4) = Z.of_nat (length argv) ∧ load32 m (sp + 8) = sp + 12 ∧
  (∀ k a, argv !! k = Some a → holds m (load32 m (sp + 12 + 4 * Z.of_nat k)) (a ++ [0])) ∧
  load32 m (sp + 12 + 4 * Z.of_nat (length argv)) = 0.
Lemma ustack_frame m sp argv ptrs : 0 ≤ sp < 2^32 → 4 * (Z.of_nat (length argv) + 4) ≤ sp →
  Forall2 (string_at m sp) argv ptrs →
  let sp' := wrap32 (sp - (3 + Z.of_nat (length ptrs) + 1) * 4) in
  main_frame (store_bytes sp' (mjoin (word_bytes <$> ustack sp ptrs)) m) sp' argv.
Proof.
  intros Hsp Hroom Hf. cbn zeta. pose proof (Forall2_length _ _ _ Hf) as Hl.
  rewrite wrap32_id by (unfold is_u32; lia). set (b := sp - _).
  assert (Hu : Forall is_u32 (ustack sp ptrs)).
  { unfold ustack. rewrite wrap32_id by (unfold is_u32; lia).
    repeat (apply Forall_cons; split; [unfold is_u32; lia|]). apply Forall_app. split; [|repeat constructor; unfold is_u32; lia].
    apply Forall_lookup. intros k q Hq. destruct (Forall2_lookup_r _ _ _ _ _ Hf Hq) as (a & _ & ? & ? & _).
    unfold is_u32. lia. }
  set (m' := store_bytes _ _ _). assert (Hw : ∀ k w, ustack sp ptrs !! k = Some w → load32 m' (b + 4 * Z.of_nat k) = w).
  { intros k w. apply holds_words; [done|]. apply store_bytes_holds. }
  assert (Hin : ∀ a q, string_at m sp a q → holds m' q (a ++ [0])).
  { intros a q (Hq & _ & _ & Hh). apply holds_above; [done|]. rewrite length_words. unfold ustack. simpl.
    rewrite length_app. simpl. lia. }
  split; [|split; [|split; [|split]]].
  - specialize (Hw 0%nat _ eq_refl). by rewrite Z.add_0_r in Hw.
  - rewrite Hl. exact (Hw 1%nat _ eq_refl).
  - rewrite (Hw 2%nat _ eq_refl : load32 m' (b + 8) = _), wrap32_id by (unfold is_u32; lia). lia.
  - intros k a Ha. destruct (Forall2_lookup_l _ _ _ _ _ Hf Ha) as (q & Hq & Hs).
    replace (b + 12 + 4 * Z.of_nat k) with (b + 4 * Z.of_nat (3 + k)) by lia.
    rewrite (Hw (3 + k)%nat q); [by apply Hin|]. simpl. by apply lookup_app_l_Some.
  - replace (b + 12 + 4 * Z.of_nat (length argv)) with (b + 4 * Z.of_nat (3 + length ptrs)) by lia.
    apply Hw. simpl. by rewrite lookup_app_r, Nat.sub_diag by lia.
Qed.

End Stack.

(** ** A concrete run *)

Definition demo_exec_ok : ExecOk (fsys unit * mem)
  (Services0 := plain_services_on snd_lens) (ExecDeps0 := demo_exec).
Proof.
  refine (Build_ExecOk _ (plain_services_on snd_lens) demo_exec (λ _ e, e.2) _ _ _ _).
  - intros pd va l e r e' H _. by injection H as _ <-.
  - intros pd o n e r e' H. right. by injection H as <- _.
  - intros p pd e u e' H. by injection H as _ <-.
  - intros pd' pd e u e' H _. by injection H as _ <-.
Defined.

