(* ===== verification/Trap.v ===== *)
(** * Traps and the system-call table

    [trap.c] and the dispatch of [syscall.c]: the interrupt gates, what each
    trap does, and the table of handlers. *)

From S2P Require Import Prelude Machine Str Spin Bio Log Flt ProcTable Proc Fs File Syscall Sysfile Exec Sysproc.
Local Open Scope Z_scope.

(** [traps.h] *)
Definition T_SYSCALL : Z := 64.
Definition T_IRQ0 : Z := 32.
Definition IRQ_TIMER : Z := 0.
Definition IRQ_KBD : Z := 1.
Definition IRQ_COM1 : Z := 4.
Definition IRQ_IDE : Z := 14.
Definition IRQ_SPURIOUS : Z := 31.

(** ** Gates *)

(** [struct gatedesc] and [SETGATE]. *)
Record gatedesc := Gatedesc {
  off_15_0 : Z; g_cs : Z; g_args : Z; g_rsv1 : Z; g_type : Z; g_s : Z; g_dpl : Z; g_p : Z; off_31_16 : Z }.
Definition STS_IG32 : Z := 0xE.
Definition STS_TG32 : Z := 0xF.
Definition SETGATE (istrap : bool) (sel off d : Z) : gatedesc :=
  Gatedesc (Z.land off 0xffff) sel 0 0 (if istrap then STS_TG32 else STS_IG32) 0 d 1 (Z.shiftr off 16).
(** The table [tvinit] fills: [vectors] are the entry points. *)
Definition tvinit_idt (vectors : Z → Z) : list gatedesc :=
  <[Z.to_nat T_SYSCALL := SETGATE true (Z.shiftl SEG_KCODE 3) (vectors T_SYSCALL) DPL_USER]>
    ((λ i, SETGATE false (Z.shiftl SEG_KCODE 3) (vectors (Z.of_nat i)) 0) <$> seq 0 256).
(** The entry point a gate leads to. *)
Definition gate_target (g : gatedesc) : Z := off_15_0 g + 2^16 * off_31_16 g.

(** ** System calls *)

(** The interrupt controller, the drivers and the page-fault register. *)
Class TrapDeps (E : Type) := {
  td_lapiceoi : M E unit;
  td_ideintr : M (pst E) unit;
  td_kbdintr : M (pst E) unit;
  td_uartintr : M (pst E) unit;
  td_rcr2 : M E Z;
}.

Section Dispatch.
Context {E B : Type} `{!Services E} `{!BlockLayer B} `{!SysfileDeps E B} `{!ExecDeps E} `{!SysprocDeps E} `{!TrapDeps E}.
Notation env := (on_lens env_l).
Notation cprintf f l := (env (sv_cprintf f l)).
(** Entry points and addresses; uninitialised memory the handlers start with;
    how often the clock is read; what other processes do while the caller is
    switched out. *)
Variables trapret forkret_entry ticks_addr : Z.
Variables (name_junk : list Z) (print_junk date_junk : Z) (clock_tries : nat).
Variable others : list (M (pst E) unit).
Notation next_others := (default block (head others)).

(** [syscalls[num]]; the index is a number of [syscall.h]. *)
Definition syscalls (num : Z) : option (M (pst E) Z) :=
  match num with
  | 1 => Some (sys_fork trapret forkret_entry)
  | 2 => Some (sys_exit next_others)
  | 3 => Some (sys_wait others)
  | 4 => Some sys_pipe
  | 5 => Some sys_read
  | 6 => Some sys_kill
  | 7 => Some (sys_exec exec)
  | 8 => Some sys_fstat
  | 9 => Some sys_chdir
  | 10 => Some sys_dup
  | 11 => Some sys_getpid
  | 12 => Some sys_sbrk
  | 13 => Some (sys_sleep ticks_addr others)
  | 14 => Some sys_uptime
  | 15 => Some (sys_open name_junk)
  | 16 => Some sys_write
  | 17 => Some (sys_mknod name_junk)
  | 18 => Some (sys_unlink name_junk)
  | 19 => Some (sys_link name_junk)
  | 20 => Some (sys_mkdir name_junk)
  | 21 => Some sys_close
  | 22 => Some (sys_copy_file name_junk)
  | 23 => Some sys_get_uncle_count
  | 24 => Some sys_get_process_lifetime
  | 25 => Some (sys_set_date clock_tries date_junk)
  | 26 => Some sys_get_pid
  | 27 => Some sys_find_digital_root
  | 28 => Some sys_get_parent
  | 29 => Some sys_change_queue
  | 30 => Some sys_bjf_validation_process
  | 31 => Some sys_bjf_validation_system
  | 32 => Some (sys_print_info print_junk)
  | 33 => Some sys_print_lopck_que
  | 34 => Some (sys_plock_test others)
  | 35 => Some sys_open_shm
  | 36 => Some sys_Aquire
  | 37 => Some sys_R
  | 38 => Some sys_C
  | _ => None
  end.
Definition NELEM_syscalls : Z := 39.

(** [curproc->tf->eax = v] *)
Definition set_result (c : nat) (v : Z) : M (pst E) unit :=
  upd_proc c (λ p, set_tf (set_eax (wrap32 v) (tf p)) p).
Definition syscall : M (pst E) unit :=
  c ← myself;
  p ← the_proc c;
  let num := sint32 (eax (tf p)) in
  match (if (0 <? num) && (num <? NELEM_syscalls) then syscalls num else None) with
  | Some f => r ← f; set_result c r
  | None =>
      cprintf "%d %s: unknown sys call %d\n" [AInt (pid p); AStr (ProcTable.name p); AInt num];;
      set_result c (-1)
  end.

(** ** Traps *)

(** [if(myproc()->killed) exit();] *)
Definition exit_if_killed : M (pst E) unit :=
  p ← my_proc; whenM (negb (killed p =? 0)) (exit next_others).
(** The clock tick of CPU 0. *)
Definition tick : M (pst E) unit :=
  acquire core_l tickslock_l;;
  modify (λ s, set_ticks (wrap32 (ticks s + 1)) s);;
  wakeup (ChAddr ticks_addr);;
  release core_l tickslock_l;;
  modify (λ s, set_ptable (aging (ticks s) (ptable s)) s).
(** The [switch] of [trap]. *)
Definition trap_switch (tf : trapframe) : M (pst E) unit :=
  let no := trapno tf in
  if no =? T_IRQ0 + IRQ_TIMER then
    id ← on_lens core_l cpuid;
    whenM (id =? 0)%nat tick;;
    env td_lapiceoi
  else if no =? T_IRQ0 + IRQ_IDE then td_ideintr;; env td_lapiceoi
  else if no =? T_IRQ0 + IRQ_IDE + 1 then mret tt
  else if no =? T_IRQ0 + IRQ_KBD then td_kbdintr;; env td_lapiceoi
  else if no =? T_IRQ0 + IRQ_COM1 then td_uartintr;; env td_lapiceoi
  else if (no =? T_IRQ0 + 7) || (no =? T_IRQ0 + IRQ_SPURIOUS) then
    id ← on_lens core_l cpuid;
    cprintf "cpu%d: spurious interrupt at %x:%x\n" [AInt (Z.of_nat id); AInt (tf_cs tf); AInt (tf_eip tf)];;
    env td_lapiceoi
  else
    p ← myproc core_l;
    if bool_decide (p = None) || (Z.land (tf_cs tf) 3 =? 0) then
      id ← on_lens core_l cpuid;
      a ← env td_rcr2;
      cprintf "unexpected trap %d from cpu %d eip %x (cr2=0x%x)\n"
        [AInt no; AInt (Z.of_nat id); AInt (tf_eip tf); AInt a];;
      panic "trap"
    else
      c ← myself;
      q ← the_proc c;
      id ← on_lens core_l cpuid;
      a ← env td_rcr2;
      cprintf "pid %d %s: trap %d err %d on cpu %d eip 0x%x addr 0x%x--kill proc\n"
        [AInt (pid q); AStr (ProcTable.name q); AInt no; AInt (tf_err tf); AInt (Z.of_nat id); AInt (tf_eip tf); AInt a];;
      upd_proc c (set_killed 1).

(** [if(myproc() && myproc()->killed && (tf->cs&3) == DPL_USER) exit();] *)
Definition exit_killed_user (tf : trapframe) : M (pst E) unit :=
  p ← myproc core_l;
  match p with
  | None => mret tt
  | Some c => q ← the_proc c;
      whenM (negb (killed q =? 0) && (Z.land (tf_cs tf) 3 =? DPL_USER)) (exit next_others)
  end.
Definition trap (tf : trapframe) : M (pst E) unit :=
  if trapno tf =? T_SYSCALL then
    exit_if_killed;;
    c ← myself;
    upd_proc c (set_tf tf);;
    syscall;;
    exit_if_killed
  else
    trap_switch tf;;
    exit_killed_user tf;;
    p ← myproc core_l;
    match p with
    | None => mret tt
    | Some c => q ← the_proc c;
        whenM (is_state (state q) RUNNING && (trapno tf =? T_IRQ0 + IRQ_TIMER)) (yield next_others)
    end;;
    exit_killed_user tf.
End Dispatch.
