(* ===== verification/Asm.v ===== *)
(** * Context switch and trap entry

    The assembly of the kernel: [swtch.S], [trapasm.S], [vectors.S], and the
    system call stubs of [usys.S], as lists of instructions over the registers
    and memory of the processor.  [swtch] is shown to be a coroutine transfer:
    a thread that is switched away from and back to continues after its call
    with its registers.  The trap path is shown to build the [trapframe] that
    [trap] reads and to load the processor from it again on return. *)

From S2P Require Import Prelude Machine Str Spin Flt ProcTable Sched Proc Trap.
Local Open Scope Z_scope.

(** ** The processor *)

Record cpu_t := Cpu {
  r_eax : Z; r_ecx : Z; r_edx : Z; r_ebx : Z; r_esp : Z; r_ebp : Z; r_esi : Z; r_edi : Z;
  s_ds : Z; s_es : Z; s_fs : Z; s_gs : Z; s_cs : Z; s_ss : Z;
  eip : Z; eflags : Z;
}.
Record machine := Mach { cpu : cpu_t; ram : mem }.

Inductive reg := EAX | ECX | EDX | EBX | ESP | EBP | ESI | EDI.
Inductive sreg := DS | ES | FS | GS.
Definition get_reg (r : reg) (c : cpu_t) : Z :=
  match r with
  | EAX => r_eax c | ECX => r_ecx c | EDX => r_edx c | EBX => r_ebx c
  | ESP => r_esp c | EBP => r_ebp c | ESI => r_esi c | EDI => r_edi c
  end.
Definition set_reg (r : reg) (v : Z) (c : cpu_t) : cpu_t :=
  let f r' old := match r, r' with
    | EAX, EAX | ECX, ECX | EDX, EDX | EBX, EBX | ESP, ESP | EBP, EBP | ESI, ESI | EDI, EDI => v
    | _, _ => old end in
  Cpu (f EAX (r_eax c)) (f ECX (r_ecx c)) (f EDX (r_edx c)) (f EBX (r_ebx c))
      (f ESP (r_esp c)) (f EBP (r_ebp c)) (f ESI (r_esi c)) (f EDI (r_edi c))
      (s_ds c) (s_es c) (s_fs c) (s_gs c) (s_cs c) (s_ss c) (eip c) (eflags c).
Definition get_sreg (s : sreg) (c : cpu_t) : Z :=
  match s with DS => s_ds c | ES => s_es c | FS => s_fs c | GS => s_gs c end.
Definition set_sreg (s : sreg) (v : Z) (c : cpu_t) : cpu_t :=
  let f s' old := match s, s' with DS, DS | ES, ES | FS, FS | GS, GS => v | _, _ => old end in
  Cpu (r_eax c) (r_ecx c) (r_edx c) (r_ebx c) (r_esp c) (r_ebp c) (r_esi c) (r_edi c)
      (f DS (s_ds c)) (f ES (s_es c)) (f FS (s_fs c)) (f GS (s_gs c)) (s_cs c) (s_ss c) (eip c) (eflags c).
Definition set_eip (v : Z) (c : cpu_t) : cpu_t :=
  Cpu (r_eax c) (r_ecx c) (r_edx c) (r_ebx c) (r_esp c) (r_ebp c) (r_esi c) (r_edi c)
      (s_ds c) (s_es c) (s_fs c) (s_gs c) (s_cs c) (s_ss c) v (eflags c).
(** Code segment, instruction pointer, flags. *)
Definition set_code (cs v fl : Z) (c : cpu_t) : cpu_t :=
  Cpu (r_eax c) (r_ecx c) (r_edx c) (r_ebx c) (r_esp c) (r_ebp c) (r_esi c) (r_edi c)
      (s_ds c) (s_es c) (s_fs c) (s_gs c) cs (s_ss c) v fl.
Definition set_stack (ss sp : Z) (c : cpu_t) : cpu_t :=
  Cpu (r_eax c) (r_ecx c) (r_edx c) (r_ebx c) sp (r_ebp c) (r_esi c) (r_edi c)
      (s_ds c) (s_es c) (s_fs c) (s_gs c) (s_cs c) ss (eip c) (eflags c).

Definition upd_cpu (f : cpu_t → cpu_t) (m : machine) : machine := Mach (f (cpu m)) (ram m).
Definition push (v : Z) (m : machine) : machine :=
  let sp := wrap32 (r_esp (cpu m) - 4) in Mach (set_reg ESP sp (cpu m)) (store32 (ram m) sp v).
Definition top (m : machine) : Z := load32 (ram m) (r_esp (cpu m)).
(** [addl $n, %esp] *)
Definition drop_stack (n : Z) (m : machine) : machine := upd_cpu (λ c, set_reg ESP (wrap32 (r_esp c + n)) c) m.
Definition low16 (v : Z) : Z := v mod 2^16.
Definition pop_reg (r : reg) (m : machine) : machine := upd_cpu (set_reg r (top m)) (drop_stack 4 m).
Definition pop_sreg (s : sreg) (m : machine) : machine := upd_cpu (set_sreg s (low16 (top m))) (drop_stack 4 m).

(** The instructions the files use; operands in the order of the source. *)
Inductive instr :=
  | Pushl (r : reg) | Pushi (v : Z) | Pushs (s : sreg)
  | Popl (r : reg) | Pops (s : sreg)
  | Load (off : Z) (base dst : reg)
  | Store (src base : reg)
  | Movl (src dst : reg) | Movi (v : Z) (dst : reg)
  | Movwi (v : Z) (dst : reg) | Movs (src : reg) (dst : sreg)
  | Addi (v : Z) (dst : reg)
  | Pushal | Popal
  | Call (back target : Z) | Jmp (target : Z)
  | Ret | Iret.

Definition exec_instr (i : instr) (m : machine) : machine :=
  let c := cpu m in
  match i with
  | Pushl r => push (get_reg r c) m
  | Pushi v => push v m
  | Pushs s => push (get_sreg s c) m
  | Popl r => pop_reg r m
  | Pops s => pop_sreg s m
  | Load off base dst => upd_cpu (set_reg dst (load32 (ram m) (wrap32 (get_reg base c + off)))) m
  | Store src base => Mach c (store32 (ram m) (get_reg base c) (get_reg src c))
  | Movl src dst => upd_cpu (set_reg dst (get_reg src c)) m
  | Movi v dst => upd_cpu (set_reg dst v) m
  | Movwi v dst => upd_cpu (set_reg dst (get_reg dst c / 2^16 * 2^16 + low16 v)) m
  | Movs src dst => upd_cpu (set_sreg dst (low16 (get_reg src c))) m
  | Addi v dst => upd_cpu (set_reg dst (wrap32 (get_reg dst c + v))) m
  | Pushal =>
      push (r_edi c) (push (r_esi c) (push (r_ebp c) (push (r_esp c)
        (push (r_ebx c) (push (r_edx c) (push (r_ecx c) (push (r_eax c) m)))))))
  | Popal =>
      pop_reg EAX (pop_reg ECX (pop_reg EDX (pop_reg EBX
        (drop_stack 4 (pop_reg EBP (pop_reg ESI (pop_reg EDI m)))))))
  | Call back target => upd_cpu (set_eip target) (push back m)
  | Jmp target => upd_cpu (set_eip target) m
  | Ret => let v := top m in upd_cpu (set_eip v) (drop_stack 4 m)
  | Iret =>
      let ip := top m in let m1 := drop_stack 4 m in
      let cs := low16 (top m1) in let m2 := drop_stack 4 m1 in
      let fl := top m2 in let m3 := drop_stack 4 m2 in
      if Z.land cs 3 =? 3 then
        let sp := top m3 in let ss := low16 (top (drop_stack 4 m3)) in
        upd_cpu (set_stack ss sp) (upd_cpu (set_code cs ip fl) m3)
      else upd_cpu (set_code cs ip fl) m3
  end.
Definition run (code : list instr) (m : machine) : machine := foldl (λ m i, exec_instr i m) m code.

(** What the processor does on interrupt [n] with the gate's handler and kind:
    from user mode it changes to the stack in the task state, and then pushes
    the flags, the code address and, for some exceptions, an error code. *)
Definition interrupt (esp0 ss0 : Z) (g_sel g_off : Z) (trap_gate : bool) (err : option Z) (m : machine) : machine :=
  let c := cpu m in
  let m1 := if Z.land (s_cs c) 3 =? 3 then push (r_esp c) (push (s_ss c) (upd_cpu (set_stack ss0 esp0) m)) else m in
  let m2 := push (eip c) (push (s_cs c) (push (eflags c) m1)) in
  let m3 := match err with Some e => push e m2 | None => m2 end in
  upd_cpu (set_code g_sel g_off (if trap_gate then eflags c else Z.ldiff (eflags c) FL_IF)) m3.

(** ** The code *)

Definition swtch : list instr :=
  [ Load 4 ESP EAX; Load 8 ESP EDX;
    Pushl EBP; Pushl EBX; Pushl ESI; Pushl EDI;
    Store ESP EAX; Movl EDX ESP;
    Popl EDI; Popl ESI; Popl EBX; Popl EBP; Ret ].

(** [vector<i>]: the exceptions for which the processor pushes an error code
    have no dummy one. *)
Definition has_error (i : Z) : bool := (i =? 8) || ((10 <=? i) && (i <=? 14)) || (i =? 17).
Definition vector (alltraps i : Z) : list instr :=
  (if has_error i then [] else [Pushi 0]) ++ [Pushi i; Jmp alltraps].

(** [alltraps] up to the call of [trap]; [after_trap] is the address after it. *)
Definition alltraps_enter (after_trap trap_entry : Z) : list instr :=
  [ Pushs DS; Pushs ES; Pushs FS; Pushs GS; Pushal;
    Movwi (Z.shiftl SEG_KDATA 3) EAX; Movs EAX DS; Movs EAX ES;
    Pushl ESP; Call after_trap trap_entry ].
Definition alltraps_leave : list instr := [ Addi 4 ESP ].
Definition trapret : list instr :=
  [ Popal; Pops GS; Pops FS; Pops ES; Pops DS; Addi 0x8 ESP; Iret ].

(** [SYSCALL(name)] up to [int $T_SYSCALL], which [interrupt] continues. *)
Definition SYSCALL (n : Z) : list instr := [ Movi n EAX ].
Definition SYSCALL_ret : list instr := [ Ret ].

(** ** The stack *)

(** Removes the wrap-arounds of addresses that are in range, innermost first. *)
Ltac unwrap :=
  repeat match goal with |- context [wrap32 ?x] =>
    lazymatch x with context [wrap32 _] => fail | _ => rewrite (wrap32_id x) by (unfold is_u32 in *; lia) end end.

(** The words [l] are on the stack at [sp], and [k] more fit below. *)
Record stack (m : mem) (sp : Z) (k : nat) (l : list Z) : Prop := {
  sk_low : 4 * Z.of_nat k ≤ sp;
  sk_high : sp + 4 * Z.of_nat (length l) < 2^32;
  sk_word : ∀ i v, l !! i = Some v → load32 m (sp + 4 * Z.of_nat i) = v;
}.
Lemma stack_push m sp k l v : stack m sp (S k) l → is_u32 v →
  stack (store32 m (wrap32 (sp - 4)) v) (wrap32 (sp - 4)) k (v :: l).
Proof.
  intros [H1 H2 H3] Hv. rewrite wrap32_id by (unfold is_u32; lia). constructor; [lia|rewrite length_cons; lia|].
  intros [|i] w Hw; simpl in Hw.
  - injection Hw as <-. rewrite Z.mul_0_r, Z.add_0_r. by apply load32_store32.
  - rewrite load32_store32_ne by lia. rewrite <- (H3 i w Hw). f_equal. lia.
Qed.
Lemma stack_pop m sp k v l : stack m sp k (v :: l) → load32 m sp = v ∧ stack m (wrap32 (sp + 4)) (S k) l.
Proof.
  intros [H1 H2 H3]. rewrite length_cons in H2. split; [by rewrite <- (H3 0%nat v eq_refl), Z.mul_0_r, Z.add_0_r|].
  rewrite wrap32_id by (unfold is_u32; lia). constructor; [lia|lia|].
  intros i w Hw. rewrite <- (H3 (S i) w Hw). f_equal. lia.
Qed.
Lemma stack_top m sp k v l : stack m sp k (v :: l) → load32 m sp = v.
Proof. intros H. by apply stack_pop in H as [H _]. Qed.
Lemma stack_nth m sp k l i v : stack m sp k l → l !! i = Some v → load32 m (wrap32 (sp + 4 * Z.of_nat i)) = v.
Proof.
  intros [H1 H2 H3] Hv. rewrite wrap32_id; [by apply H3|]. apply lookup_lt_Some in Hv. unfold is_u32. lia.
Qed.
(** A store that misses the words. *)
Lemma stack_store m sp k l a v : stack m sp k l → a + 4 ≤ sp ∨ sp + 4 * Z.of_nat (length l) ≤ a →
  stack (store32 m a v) sp k l.
Proof.
  intros [H1 H2 H3] Ha. constructor; [done|done|]. intros i w Hw. pose proof (lookup_lt_Some _ _ _ Hw).
  rewrite load32_store32_ne by lia. by apply H3.
Qed.
Lemma stack_drop m sp k n l : stack m sp k l → (n ≤ length l)%nat →
  stack m (wrap32 (sp + 4 * Z.of_nat n)) (k + n) (drop n l).
Proof.
  intros [H1 H2 H3] Hn. rewrite wrap32_id by (unfold is_u32; lia). constructor; [lia|rewrite length_drop; lia|].
  intros i v Hi. rewrite lookup_drop in Hi. rewrite <- (H3 _ v Hi). f_equal. lia.
Qed.
Lemma stack_ext m m' sp k l : stack m sp k l → (∀ x, sp ≤ x < sp + 4 * Z.of_nat (length l) → m' x = m x) → stack m' sp k l.
Proof.
  intros [H1 H2 H3] He. constructor; [done|done|]. intros i v Hi. rewrite <- (H3 i v Hi). pose proof (lookup_lt_Some _ _ _ Hi).
  apply load32_ext. intros x Hx. apply He. lia.
Qed.

(** ** The context switch *)

Definition context_words (c : context_t) : list Z := [c_edi c; c_esi c; c_ebx c; c_ebp c; c_eip c].
Lemma stack_context m sp k k' c c' : stack m sp k (context_words c) → stack m sp k' (context_words c') → c = c'.
Proof.
  intros [_ _ H] [_ _ H']. destruct c, c'. unfold context_words in *. simpl in *.
  rewrite <- (H 0%nat _ eq_refl), <- (H 1%nat _ eq_refl), <- (H 2%nat _ eq_refl), <- (H 3%nat _ eq_refl), <- (H 4%nat _ eq_refl).
  rewrite (H' 0%nat _ eq_refl), (H' 1%nat _ eq_refl), (H' 2%nat _ eq_refl), (H' 3%nat _ eq_refl), (H' 4%nat _ eq_refl). done.
Qed.
(** The callee-saved registers, stack pointer and code address are those of
    context [c] once its frame at [sp] is popped. *)
Definition runs_context (c : context_t) (sp : Z) (p : cpu_t) : Prop :=
  r_edi p = c_edi c ∧ r_esi p = c_esi c ∧ r_ebx p = c_ebx c ∧ r_ebp p = c_ebp c ∧ eip p = c_eip c ∧ r_esp p = sp + 20.
Definition regs_u32 (p : cpu_t) : Prop :=
  is_u32 (r_eax p) ∧ is_u32 (r_ecx p) ∧ is_u32 (r_edx p) ∧ is_u32 (r_ebx p) ∧
  is_u32 (r_esp p) ∧ is_u32 (r_ebp p) ∧ is_u32 (r_esi p) ∧ is_u32 (r_edi p).
(** A call [swtch(old, new)]: return address and arguments are on the stack,
    the pointer cell and the context of [new] lie elsewhere. *)
Record calls_swtch (m : machine) (ret old new : Z) (c : context_t) : Prop := {
  cs_regs : regs_u32 (cpu m);
  cs_args : stack (ram m) (r_esp (cpu m)) 4 [ret; old; new];
  cs_new : stack (ram m) new 0 (context_words c);
  cs_apart : new + 20 ≤ r_esp (cpu m) - 16 ∨ r_esp (cpu m) ≤ new;
  cs_old : old + 4 ≤ r_esp (cpu m) - 16 ∨ r_esp (cpu m) + 4 ≤ old;
  cs_cell : old + 4 ≤ new ∨ new + 20 ≤ old;
  cs_u32 : is_u32 old;
}.
(** The context [swtch] saves. *)
Definition saved (m : machine) (ret : Z) : context_t :=
  let p := cpu m in Context (r_edi p) (r_esi p) (r_ebx p) (r_ebp p) ret.

(** The frame [pushl %ebp; pushl %ebx; pushl %esi; pushl %edi] leaves. *)
Lemma saved_stack m ret old new c : calls_swtch m ret old new c →
  ∃ p' m', run (take 6 swtch) m = Mach p' m' ∧ r_eax p' = old ∧ r_edx p' = new ∧ r_esp p' = r_esp (cpu m) - 16 ∧
    stack m' (r_esp (cpu m) - 16) 0 (context_words (saved m ret) ++ [old; new]) ∧
    (∀ x, ¬ (r_esp (cpu m) - 16 ≤ x < r_esp (cpu m)) → m' x = ram m x).
Proof.
  intros [Hr Ha _ _ _ _ _]. destruct m as [[a cx dx b sp bp si di ds es fs gs cs ss ip fl] mm].
  unfold regs_u32 in Hr. cbn in Hr, Ha |- *. destruct Hr as (R1 & R2 & R3 & R4 & R5 & R6 & R7 & R8). pose proof (sk_low _ _ _ _ Ha) as Hlow.
  assert (Hsp : wrap32 (wrap32 (wrap32 (wrap32 (sp - 4) - 4) - 4) - 4) = sp - 16).
  { unwrap. lia. }
  eexists _, _. split; [reflexivity|]. cbn. split; [by apply (stack_nth _ _ _ _ 1 _ Ha)|].
  split; [by apply (stack_nth _ _ _ _ 2 _ Ha)|]. split; [done|]. split.
  - rewrite <- Hsp. unfold context_words, saved. cbn. by repeat apply stack_push.
  - intros x Hx. unwrap. by rewrite !store32_other by lia.
Qed.

Lemma swtch_ok m ret old new c : calls_swtch m ret old new c →
  load32 (ram (run swtch m)) old = r_esp (cpu m) - 16 ∧
  stack (ram (run swtch m)) (r_esp (cpu m) - 16) 0 (context_words (saved m ret)) ∧
  runs_context c new (cpu (run swtch m)) ∧
  (∀ x, ¬ (r_esp (cpu m) - 16 ≤ x < r_esp (cpu m)) → ¬ (old ≤ x < old + 4) → ram (run swtch m) x = ram m x).
Proof.
  intros Hc. destruct (saved_stack m ret old new c Hc) as (p & m' & Hrun & He & Hd & Hs & Hst & Hfr).
  destruct Hc as [_ Ha Hn Hap Ho Hce Hu]. pose proof (sk_low _ _ _ _ Ha) as Hlow. pose proof (sk_high _ _ _ _ Ha) as Hhigh. simpl in Hhigh.
  set (sp := r_esp (cpu m)) in *.
  assert (Hrest : run swtch m = run (drop 6 swtch) (Mach p m')) by by rewrite <- Hrun.
  assert (Hn' : stack (store32 m' old (sp - 16)) new 0 (context_words c)).
  { apply stack_store; [|done]. apply (stack_ext (ram m)); [done|]. simpl. intros x Hx. apply Hfr. lia. }
  assert (Hram : ram (run swtch m) = store32 m' old (sp - 16)).
  { rewrite Hrest. cbn. by rewrite He, Hs. }
  rewrite Hram. split; [apply load32_store32; unfold is_u32; lia|]. split; [|split].
  - apply stack_store; [|simpl; lia]. destruct Hst as [S1 S2 S3]. constructor; [done|simpl in *; lia|].
    intros i v Hi. apply S3. by apply lookup_app_l_Some.
  - rewrite Hrest. unfold context_words in Hn'. pose proof (sk_low _ _ _ _ Hn') as Lo. pose proof (sk_high _ _ _ _ Hn') as Hi. simpl in Hi.
    destruct (stack_pop _ _ _ _ _ Hn') as [E1 P1]. destruct (stack_pop _ _ _ _ _ P1) as [E2 P2].
    destruct (stack_pop _ _ _ _ _ P2) as [E3 P3]. destruct (stack_pop _ _ _ _ _ P3) as [E4 P4]. destruct (stack_pop _ _ _ _ _ P4) as [E5 _].
    unfold runs_context. cbn. rewrite He, Hs, Hd. cbn.
    unfold top; cbn; rewrite E1, E2, E3, E4, E5. split_and!; try done.
    unwrap. lia.
  - intros x H1 H2. rewrite store32_other by lia. by apply Hfr.
Qed.

(** C18: [swtch] transfers control between kernel threads and back.  When a
    thread calls [swtch(old, new)] the processor goes on with the registers,
    stack and return address of context [new], and [*old] is left pointing to
    a [struct context] on the thread's stack.  Whatever runs then on other
    stacks, as long as it leaves those twenty bytes alone, a later [swtch] to
    [*old] makes the thread continue after its call: with its [ebx], [esi],
    [edi] and [ebp], its stack pointer just above the return address, at that
    address. *)
Theorem swtch_resumes m ret old new c m2 ret2 old2 c2
  (Hcall : calls_swtch m ret old new c)
  (Hkeep : ∀ x, r_esp (cpu m) - 16 ≤ x < r_esp (cpu m) + 4 → ram m2 x = ram (run swtch m) x)
  (Hback : calls_swtch m2 ret2 old2 (load32 (ram (run swtch m)) old) c2) :
  runs_context c new (cpu (run swtch m)) ∧
  let p := cpu (run swtch m2) in
  r_ebx p = r_ebx (cpu m) ∧ r_esi p = r_esi (cpu m) ∧ r_edi p = r_edi (cpu m) ∧ r_ebp p = r_ebp (cpu m) ∧
  r_esp p = r_esp (cpu m) + 4 ∧ eip p = ret.
Proof.
  destruct (swtch_ok m ret old new c Hcall) as (Hold & Hst & Hrun & _). split; [done|]. rewrite Hold in Hback.
  assert (Hst2 : stack (ram m2) (r_esp (cpu m) - 16) 0 (context_words (saved m ret))).
  { apply (stack_ext _ _ _ _ _ Hst). simpl. intros x Hx. apply Hkeep. lia. }
  rewrite (stack_context _ _ _ _ _ _ (cs_new _ _ _ _ _ Hback) Hst2) in Hback.
  destruct (swtch_ok m2 ret2 old2 _ _ Hback) as (_ & _ & (E1 & E2 & E3 & E4 & E5 & E6) & _).
  cbv zeta. rewrite E1, E2, E3, E4, E5, E6. split_and!; try done; lia.
Qed.

(** ** Traps *)

(** [struct trapframe] as it lies in memory. *)
Definition frame_words (f : trapframe) : list Z :=
  [ tf_edi f; tf_esi f; tf_ebp f; tf_oesp f; tf_ebx f; tf_edx f; tf_ecx f; eax f;
    tf_gs f; tf_fs f; tf_es f; tf_ds f; trapno f; tf_err f;
    tf_eip f; tf_cs f; tf_eflags f; tf_esp f; tf_ss f ].
(** The frame of user state [p] trapping with vector [i]. *)
Definition user_frame (p : cpu_t) (esp0 i e : Z) : trapframe :=
  Trapframe (r_edi p) (r_esi p) (r_ebp p) (esp0 - 44) (r_ebx p) (r_edx p) (r_ecx p) (r_eax p)
    (s_gs p) (s_fs p) (s_es p) (s_ds p) i e (eip p) (s_cs p) (eflags p) (r_esp p) (s_ss p).
(** The processor as a frame describes it. *)
Definition frame_cpu (f : trapframe) : cpu_t :=
  Cpu (eax f) (tf_ecx f) (tf_edx f) (tf_ebx f) (tf_esp f) (tf_ebp f) (tf_esi f) (tf_edi f)
    (low16 (tf_ds f)) (low16 (tf_es f)) (low16 (tf_fs f)) (low16 (tf_gs f)) (low16 (tf_cs f)) (low16 (tf_ss f))
    (tf_eip f) (tf_eflags f).
Definition is_u16 (v : Z) : Prop := 0 ≤ v < 2^16.
Record user_ok (p : cpu_t) : Prop := {
  uo_regs : regs_u32 p;
  uo_segs : is_u16 (s_ds p) ∧ is_u16 (s_es p) ∧ is_u16 (s_fs p) ∧ is_u16 (s_gs p) ∧ is_u16 (s_cs p) ∧ is_u16 (s_ss p);
  uo_code : is_u32 (eip p) ∧ is_u32 (eflags p);
  uo_ring : Z.land (s_cs p) 3 = 3;
}.
Lemma is_u16_u32 v : is_u16 v → is_u32 v.
Proof. unfold is_u16, is_u32. lia. Qed.

(** Entry: the processor's part, the vector and [alltraps]. *)
Definition enter (alltraps after_trap trap_entry esp0 ss0 sel : Z) (tg : bool) (i : Z) (err : option Z) (m : machine) : machine :=
  run (alltraps_enter after_trap trap_entry) (run (vector alltraps i)
    (interrupt esp0 ss0 sel (wrap32 i) tg err m)).

(** What the processor and the vector push. *)
Lemma vector_ok alltraps esp0 ss0 sel off tg i err m :
  user_ok (cpu m) → 84 ≤ esp0 < 2^32 → is_u32 i →
  (if has_error i then ∃ e, err = Some e ∧ is_u32 e else err = None) →
  let p := cpu m in let m' := run (vector alltraps i) (interrupt esp0 ss0 sel off tg err m) in
  stack (ram m') (esp0 - 28) 14 [i; default 0 err; eip p; s_cs p; eflags p; r_esp p; s_ss p] ∧
  cpu m' = Cpu (r_eax p) (r_ecx p) (r_edx p) (r_ebx p) (esp0 - 28) (r_ebp p) (r_esi p) (r_edi p)
    (s_ds p) (s_es p) (s_fs p) (s_gs p) sel ss0 alltraps (if tg then eflags p else Z.ldiff (eflags p) FL_IF) ∧
  (∀ x, ¬ (esp0 - 28 ≤ x < esp0) → ram m' x = ram m x).
Proof.
  intros [(R1 & R2 & R3 & R4 & R5 & R6 & R7 & R8) (S1 & S2 & S3 & S4 & S5 & S6) [C1 C2] Hring] He Hi Herr.
  destruct m as [[a cx dx b sp bp si di ds es fs gs cs ss ip fl] mm]. cbn in *.
  assert (H0 : stack mm esp0 21 []) by (constructor; [lia|simpl; lia|done]).
  assert (Hsp : esp0 - 28 = wrap32 (wrap32 (wrap32 (wrap32 (wrap32 (wrap32 (wrap32 (esp0 - 4) - 4) - 4) - 4) - 4) - 4) - 4)).
  { unwrap. lia. }
  assert (is_u32 0) by done. apply is_u16_u32 in S5, S6. unfold vector, interrupt. cbn [cpu s_cs]. rewrite Hring. cbn [Z.eqb Pos.eqb].
  destruct (has_error i); [destruct Herr as (e & -> & Hu)|subst err]; cbn; (split; [rewrite Hsp; by repeat apply stack_push|]);
    (split; [by rewrite Hsp|]); intros x Hx; unwrap; by rewrite !store32_other by lia.
Qed.
(** What [alltraps] pushes. *)
Lemma alltraps_ok after_trap trap_entry m l :
  let p := cpu m in let m' := run (alltraps_enter after_trap trap_entry) m in
  regs_u32 p → is_u16 (s_ds p) ∧ is_u16 (s_es p) ∧ is_u16 (s_fs p) ∧ is_u16 (s_gs p) → is_u32 after_trap →
  stack (ram m) (r_esp p) 14 l →
  r_esp (cpu m') = r_esp p - 56 ∧ eip (cpu m') = trap_entry ∧
  s_ds (cpu m') = Z.shiftl SEG_KDATA 3 ∧ s_es (cpu m') = Z.shiftl SEG_KDATA 3 ∧
  stack (ram m') (r_esp p - 56) 0 ([after_trap; r_esp p - 48; r_edi p; r_esi p; r_ebp p; r_esp p - 16; r_ebx p; r_edx p; r_ecx p;
    r_eax p; s_gs p; s_fs p; s_es p; s_ds p] ++ l) ∧
  (∀ x, ¬ (r_esp p - 56 ≤ x < r_esp p) → ram m' x = ram m x).
Proof.
  destruct m as [[a cx dx b sp bp si di ds es fs gs cs ss ip fl] mm]. unfold regs_u32.
  cbn [cpu ram r_eax r_ecx r_edx r_ebx r_esp r_ebp r_esi r_edi s_ds s_es s_fs s_gs].
  intros (R1 & R2 & R3 & R4 & R5 & R6 & R7 & R8) (S1 & S2 & S3 & S4) Ha Hl. pose proof (sk_low _ _ _ _ Hl) as Hlow.
  unfold is_u32 in R5. apply is_u16_u32 in S1, S2, S3, S4.
  assert (E16 : sp - 16 = wrap32 (wrap32 (wrap32 (wrap32 (sp - 4) - 4) - 4) - 4)).
  { unwrap. lia. }
  assert (E48 : sp - 48 = wrap32 (wrap32 (wrap32 (wrap32 (wrap32 (wrap32 (wrap32 (wrap32 (sp - 16 - 4) - 4) - 4) - 4) - 4) - 4) - 4) - 4)).
  { unwrap. lia. }
  assert (E56 : sp - 56 = wrap32 (wrap32 (sp - 48 - 4) - 4)).
  { unwrap. lia. }
  assert (Hk : low16 (a / 2^16 * 2^16 + low16 (Z.shiftl SEG_KDATA 3)) = Z.shiftl SEG_KDATA 3).
  { unfold low16. rewrite Z.add_comm, Z_mod_plus_full. done. }
  unfold alltraps_enter. cbn -[Z.mul Z.div Z.modulo low16 Z.shiftl]. split_and!; try done; rewrite ?Hk; try done.
  - by rewrite E56, E48, E16.
  - rewrite E56, E48, E16. repeat apply stack_push; try done; apply wrap32_range.
  - intros x Hx. unwrap. by rewrite !store32_other by lia.
Qed.

(** The whole entry. *)
Lemma enter_ok alltraps after_trap trap_entry esp0 ss0 sel tg i err m :
  user_ok (cpu m) → 84 ≤ esp0 < 2^32 → is_u32 i → is_u32 after_trap →
  (if has_error i then ∃ e, err = Some e ∧ is_u32 e else err = None) →
  let m' := enter alltraps after_trap trap_entry esp0 ss0 sel tg i err m in
  r_esp (cpu m') = esp0 - 84 ∧ eip (cpu m') = trap_entry ∧
  s_ds (cpu m') = Z.shiftl SEG_KDATA 3 ∧ s_es (cpu m') = Z.shiftl SEG_KDATA 3 ∧
  stack (ram m') (esp0 - 84) 0 ([after_trap; esp0 - 76] ++ frame_words (user_frame (cpu m) esp0 i (default 0 err))) ∧
  (∀ x, ¬ (esp0 - 84 ≤ x < esp0) → ram m' x = ram m x).
Proof.
  intros Hu He Hi Ha Herr. destruct (vector_ok alltraps esp0 ss0 sel (wrap32 i) tg i err m Hu He Hi Herr) as (Hst & Hcpu & Hfr).
  destruct Hu as [(R1 & R2 & R3 & R4 & R5 & R6 & R7 & R8) (S1 & S2 & S3 & S4 & S5 & S6) _ _].
  set (m1 := run (vector alltraps i) _) in *.
  destruct (alltraps_ok after_trap trap_entry m1 [i; default 0 err; eip (cpu m); s_cs (cpu m); eflags (cpu m);
    r_esp (cpu m); s_ss (cpu m)]) as (E1 & E2 & E3 & E4 & E5 & E6); rewrite ?Hcpu; try done.
  { unfold regs_u32. cbn. split_and!; try done; unfold is_u32; lia. }
  rewrite Hcpu in E1, E5, E6. cbn [r_esp r_edi r_esi r_ebp r_ebx r_edx r_ecx r_eax s_gs s_fs s_es s_ds] in E1, E5, E6.
  replace (esp0 - 28 - 56) with (esp0 - 84) in E1, E5 by lia. replace (esp0 - 28 - 48) with (esp0 - 76) in E5 by lia.
  replace (esp0 - 28 - 16) with (esp0 - 44) in E5 by lia.
  split_and!; try done. intros x Hx. unfold enter. fold m1. rewrite E6 by lia. apply Hfr. lia.
Qed.

(** Popping from a stack of known words. *)
Lemma stack_next m sp k v l : stack m sp k (v :: l) →
  load32 m sp = v ∧ wrap32 (sp + 4) = sp + 4 ∧ stack m (sp + 4) (S k) l.
Proof.
  intros H. destruct (stack_pop _ _ _ _ _ H) as [E1 H1]. destruct H as [L1 L2 _]. rewrite length_cons in L2.
  rewrite wrap32_id in H1 by (unfold is_u32; lia). split; [done|]. split; [|done]. apply wrap32_id. unfold is_u32. lia.
Qed.
Lemma pop_reg_ok r mm p sp k v l : r ≠ ESP → r_esp p = sp → stack mm sp k (v :: l) →
  pop_reg r (Mach p mm) = Mach (set_reg r v (set_reg ESP (sp + 4) p)) mm.
Proof.
  intros Hr <- H. destruct (stack_next _ _ _ _ _ H) as (E1 & E2 & _).
  unfold pop_reg, drop_stack, upd_cpu, top. cbn [cpu ram]. by rewrite E1, E2.
Qed.
Lemma pop_sreg_ok s mm p sp k v l : r_esp p = sp → stack mm sp k (v :: l) →
  pop_sreg s (Mach p mm) = Mach (set_sreg s (low16 v) (set_reg ESP (sp + 4) p)) mm.
Proof.
  intros <- H. destruct (stack_next _ _ _ _ _ H) as (E1 & E2 & _).
  unfold pop_sreg, drop_stack, upd_cpu, top. cbn [cpu ram]. by rewrite E1, E2.
Qed.
Lemma popal_ok mm p sp k di si bp o b d c a l : r_esp p = sp → stack mm sp k ([di; si; bp; o; b; d; c; a] ++ l) →
  exec_instr Popal (Mach p mm) =
  Mach (Cpu a c d b (sp + 32) bp si di (s_ds p) (s_es p) (s_fs p) (s_gs p) (s_cs p) (s_ss p) (eip p) (eflags p)) mm ∧
  stack mm (sp + 32) (8 + k) l.
Proof.
  intros Hp H. cbn [app] in H. cbn [exec_instr].
  destruct (stack_next _ _ _ _ _ H) as (_ & _ & H1). destruct (stack_next _ _ _ _ _ H1) as (_ & _ & H2).
  destruct (stack_next _ _ _ _ _ H2) as (_ & _ & H3). destruct (stack_next _ _ _ _ _ H3) as (_ & W3 & H4).
  destruct (stack_next _ _ _ _ _ H4) as (_ & _ & H5). destruct (stack_next _ _ _ _ _ H5) as (_ & _ & H6).
  destruct (stack_next _ _ _ _ _ H6) as (_ & _ & H7). destruct (stack_next _ _ _ _ _ H7) as (_ & _ & H8).
  split; [|by replace (sp + 32) with (sp + 4 + 4 + 4 + 4 + 4 + 4 + 4 + 4) by lia].
  rewrite (pop_reg_ok EDI mm p sp k di _ ltac:(done) Hp H). erewrite (pop_reg_ok ESI); [|done|reflexivity|exact H1].
  erewrite (pop_reg_ok EBP); [|done|reflexivity|exact H2].
  unfold drop_stack, upd_cpu. cbn [cpu ram]. set (p3 := set_reg EBP _ _). change (r_esp p3) with (sp + 4 + 4 + 4). rewrite W3.
  erewrite (pop_reg_ok EBX); [|done|reflexivity|exact H4]. erewrite (pop_reg_ok EDX); [|done|reflexivity|exact H5].
  erewrite (pop_reg_ok ECX); [|done|reflexivity|exact H6]. erewrite (pop_reg_ok EAX); [|done|reflexivity|exact H7].
  unfold p3. replace (sp + 32) with (sp + 4 + 4 + 4 + 4 + 4 + 4 + 4 + 4) by lia. reflexivity.
Qed.
Lemma iret_ok mm p sp k ip cs fl usp ss l : r_esp p = sp → stack mm sp k ([ip; cs; fl; usp; ss] ++ l) →
  Z.land (low16 cs) 3 = 3 →
  exec_instr Iret (Mach p mm) = Mach (Cpu (r_eax p) (r_ecx p) (r_edx p) (r_ebx p) usp (r_ebp p) (r_esi p) (r_edi p)
    (s_ds p) (s_es p) (s_fs p) (s_gs p) (low16 cs) (low16 ss) ip fl) mm.
Proof.
  intros Hp H Hring. cbn [app] in H.
  destruct (stack_next _ _ _ _ _ H) as (E0 & W0 & H1). destruct (stack_next _ _ _ _ _ H1) as (E1 & W1 & H2).
  destruct (stack_next _ _ _ _ _ H2) as (E2 & W2 & H3). destruct (stack_next _ _ _ _ _ H3) as (E3 & W3 & H4).
  destruct (stack_next _ _ _ _ _ H4) as (E4 & _ & _).
  unfold exec_instr, drop_stack, upd_cpu, top. cbn [cpu ram set_reg r_esp]. rewrite Hp. rewrite W0, E1, Hring. cbn [Z.eqb Pos.eqb].
  by rewrite W1, W2, W3, E0, E2, E3, E4.
Qed.
(** Return: [trapret] loads the processor from the frame on the stack. *)
Lemma trapret_ok m f k l : stack (ram m) (r_esp (cpu m)) k (frame_words f ++ l) → Z.land (low16 (tf_cs f)) 3 = 3 →
  run trapret m = Mach (frame_cpu f) (ram m).
Proof.
  destruct m as [p mm]. cbn [cpu ram]. intros H0 Hring. unfold trapret, run. cbn [foldl].
  destruct (popal_ok mm p _ k _ _ _ _ _ _ _ _ _ eq_refl H0) as [-> H1]. set (sp := r_esp p) in *. clearbody sp.
  destruct (stack_next _ _ _ _ _ H1) as (_ & _ & H2). destruct (stack_next _ _ _ _ _ H2) as (_ & _ & H3).
  destruct (stack_next _ _ _ _ _ H3) as (_ & _ & H4). destruct (stack_next _ _ _ _ _ H4) as (_ & _ & H5).
  destruct (stack_next _ _ _ _ _ H5) as (_ & _ & H6). destruct (stack_next _ _ _ _ _ H6) as (_ & W7 & H7).
  change (exec_instr (Pops GS) ?x) with (pop_sreg GS x).
  erewrite (pop_sreg_ok GS mm _ (sp + 32)); [|reflexivity|exact H1]. change (exec_instr (Pops FS) ?x) with (pop_sreg FS x).
  erewrite (pop_sreg_ok FS mm _ (sp + 32 + 4)); [|reflexivity|exact H2]. change (exec_instr (Pops ES) ?x) with (pop_sreg ES x).
  erewrite (pop_sreg_ok ES mm _ (sp + 32 + 4 + 4)); [|reflexivity|exact H3]. change (exec_instr (Pops DS) ?x) with (pop_sreg DS x).
  erewrite (pop_sreg_ok DS mm _ (sp + 32 + 4 + 4 + 4)); [|reflexivity|exact H4].
  change (exec_instr (Addi 8 ESP) ?x) with (drop_stack 8 x). unfold drop_stack, upd_cpu. cbn [cpu ram].
  set (q := set_sreg DS _ _). change (r_esp q + 8) with (sp + 32 + 4 + 4 + 4 + 4 + 8).
  replace (sp + 32 + 4 + 4 + 4 + 4 + 8) with (sp + 32 + 4 + 4 + 4 + 4 + 4 + 4) by lia. rewrite W7.
  by erewrite iret_ok; [|reflexivity|exact H7|exact Hring].
Qed.

Lemma run_app c1 c2 m : run (c1 ++ c2) m = run c2 (run c1 m).
Proof. apply foldl_app. Qed.
Lemma leave_ok m : run alltraps_leave m = upd_cpu (λ c, set_reg ESP (wrap32 (r_esp c + 4)) c) m.
Proof. reflexivity. Qed.
Lemma low16_id v : is_u16 v → low16 v = v.
Proof. intros H. unfold low16. by apply Z.mod_small. Qed.
Lemma frame_cpu_user p esp0 i e : user_ok p → frame_cpu (user_frame p esp0 i e) = p.
Proof.
  intros [_ (S1 & S2 & S3 & S4 & S5 & S6) _ _]. destruct p. unfold frame_cpu, user_frame. cbn in *. by rewrite !low16_id by done.
Qed.


(** A new process reaches user mode.  [allocproc] lays out the kernel stack
    at [k]: the trap frame at the top, below it the address of [trapret], below
    that a context whose [eip] is [forkret].  The first [swtch] to that context
    starts [forkret] on the new stack; when [forkret] returns it returns into
    [trapret], which loads the processor from the trap frame: user mode at
    [tf->eip] with the registers of the frame. *)
Theorem new_process_enters_user m ret old k trapret_addr forkret_entry f (forkret : machine → machine)
  (Hcall : calls_swtch m ret old (k + KSTACKSIZE - sizeof_trapframe - 24) (Context 0 0 0 0 forkret_entry))
  (Hstack : stack (ram m) (k + KSTACKSIZE - sizeof_trapframe - 4) 1 (trapret_addr :: frame_words f))
  (Hapart : ∀ x, k ≤ x < k + KSTACKSIZE → ¬ (r_esp (cpu m) - 16 ≤ x < r_esp (cpu m)) ∧ ¬ (old ≤ x < old + 4))
  (Hforkret : ∀ m', eip (cpu m') = forkret_entry → r_esp (cpu m') = k + KSTACKSIZE - sizeof_trapframe - 4 →
     stack (ram m') (k + KSTACKSIZE - sizeof_trapframe - 4) 1 (trapret_addr :: frame_words f) →
     eip (cpu (forkret m')) = trapret_addr ∧ r_esp (cpu (forkret m')) = k + KSTACKSIZE - sizeof_trapframe ∧
     stack (ram (forkret m')) (k + KSTACKSIZE - sizeof_trapframe) 2 (frame_words f))
  (Hring : Z.land (low16 (tf_cs f)) 3 = 3) :
  eip (cpu (run swtch m)) = forkret_entry ∧
  eip (cpu (forkret (run swtch m))) = trapret_addr ∧
  cpu (run trapret (forkret (run swtch m))) = frame_cpu f.
Proof.
  change KSTACKSIZE with 4096 in *. change sizeof_trapframe with 76 in *.
  destruct (swtch_ok _ _ _ _ _ Hcall) as (_ & _ & (_ & _ & _ & _ & E5 & E6) & Hfr).
  assert (Hst : stack (ram (run swtch m)) (k + 4096 - 76 - 4) 1 (trapret_addr :: frame_words f)).
  { apply (stack_ext _ _ _ _ _ Hstack). rewrite length_cons. change (length (frame_words f)) with 19%nat. intros x Hx.
    destruct (Hapart x) as [H1 H2]; [lia|]. by apply Hfr. }
  destruct (Hforkret (run swtch m)) as (F1 & F2 & F3); [done|lia|done|]. split; [done|]. split; [done|].
  rewrite (trapret_ok _ f 2 []); [done| |done]. by rewrite F2, app_nil_r.
Qed.

(** The system call stub of [usys.S] up to [int $T_SYSCALL] and through [alltraps]. *)
Definition stub_enter (alltraps after_trap trap_entry esp0 ss0 sel n : Z) (u : machine) : machine :=
  enter alltraps after_trap trap_entry esp0 ss0 sel true T_SYSCALL None (run (SYSCALL n) u).
(** From the return of [trap] to the return of the stub. *)
Definition stub_leave (m : machine) : machine := run SYSCALL_ret (run (alltraps_leave ++ trapret) m).
Lemma stub_frame n u esp0 : user_ok (cpu u) → is_u32 n →
  user_ok (cpu (run (SYSCALL n) u)) ∧
  user_frame (cpu (run (SYSCALL n) u)) esp0 T_SYSCALL 0 = set_eax n (user_frame (cpu u) esp0 T_SYSCALL 0).
Proof.
  intros [(R1 & R2 & R3 & R4 & R5 & R6 & R7 & R8) Hs Hc Hr] Hn. split; [|reflexivity].
  destruct u as [[] mm]. constructor; cbn in *; unfold regs_u32; cbn; auto 10.
Qed.

Lemma ret_ok m sp k v l : r_esp (cpu m) = sp → stack (ram m) sp k (v :: l) →
  run [Ret] m = Mach (set_eip v (set_reg ESP (sp + 4) (cpu m))) (ram m).
Proof.
  intros Hsp H. destruct (stack_next _ _ _ _ _ H) as (E & W & _). destruct m as [p mm]. cbn [cpu ram] in *.
  unfold run. cbn [foldl exec_instr]. unfold drop_stack, upd_cpu, top. cbn [cpu ram]. by rewrite Hsp, E, W.
Qed.
(** A function that returns at once. *)
Lemma ret_returns m sp k v l : r_esp (cpu m) = sp → stack (ram m) sp k (v :: l) →
  eip (cpu (run [Ret] m)) = v ∧ r_esp (cpu (run [Ret] m)) = sp + 4 ∧ stack (ram (run [Ret] m)) (sp + 4) (S k) l.
Proof. intros Hsp H. rewrite (ret_ok m sp k v l Hsp H). destruct (stack_next _ _ _ _ _ H) as (_ & _ & H1). done. Qed.

(** A system call from the user's side.  A stub of [usys.S] called with the
    return address and arguments on the user stack brings the kernel to [trap]
    with a frame that has the call's number in [eax], vector [T_SYSCALL], and
    an [esp] under which the arguments lie where [argint] looks for them.  When
    [trap] has stored the result [v] in [tf->eax] and left the user's stack
    alone, the stub returns to its caller with [v] in [eax] and all other
    registers as they were at the call. *)
Theorem syscall_stub_returns alltraps after_trap trap_entry esp0 ss0 sel n v u ret args (trap : machine → machine)
  (Hu : user_ok (cpu u)) (He : 84 ≤ esp0 < 2^32) (Hn : is_u32 n) (Ha : is_u32 after_trap)
  (Hargs : stack (ram u) (r_esp (cpu u)) 0 (ret :: args))
  (Hapart : r_esp (cpu u) + 4 * Z.of_nat (S (length args)) ≤ esp0 - 84 ∨ esp0 ≤ r_esp (cpu u))
  (Htrap : ∀ m f, r_esp (cpu m) = esp0 - 84 → stack (ram m) (esp0 - 84) 0 ([after_trap; esp0 - 76] ++ frame_words f) →
     stack (ram m) (r_esp (cpu u)) 0 (ret :: args) →
     r_esp (cpu (trap m)) = esp0 - 80 ∧ stack (ram (trap m)) (esp0 - 80) 1 (esp0 - 76 :: frame_words (set_eax v f)) ∧
     stack (ram (trap m)) (r_esp (cpu u)) 0 (ret :: args)) :
  let m := stub_enter alltraps after_trap trap_entry esp0 ss0 sel n u in
  let f := set_eax n (user_frame (cpu u) esp0 T_SYSCALL 0) in
  eip (cpu m) = trap_entry ∧ stack (ram m) (esp0 - 84) 0 ([after_trap; esp0 - 76] ++ frame_words f) ∧
  eax f = n ∧ trapno f = T_SYSCALL ∧ stack (ram m) (tf_esp f) 0 (ret :: args) ∧
  cpu (stub_leave (trap m)) = set_eip ret (set_reg ESP (r_esp (cpu u) + 4) (set_reg EAX v (cpu u))).
Proof.
  cbv zeta. destruct (stub_frame n u esp0 Hu Hn) as [Hu' Hf].
  destruct (enter_ok alltraps after_trap trap_entry esp0 ss0 sel true T_SYSCALL None (run (SYSCALL n) u) Hu' He) as (E1 & E2 & E3 & E4 & E5 & E6);
    [done|done|done|].
  cbn [default] in E5. change (default 0 None) with 0 in E5. rewrite Hf in E5. fold (stub_enter alltraps after_trap trap_entry esp0 ss0 sel n u) in *.
  set (m := stub_enter _ _ _ _ _ _ _ _) in *. set (f := set_eax n _) in *.
  assert (Hst : stack (ram m) (r_esp (cpu u)) 0 (ret :: args)).
  { apply (stack_ext (ram u)); [done|]. intros x Hx. rewrite length_cons in Hx. apply E6. lia. }
  destruct (Htrap m f E1 E5 Hst) as (T1 & T2 & T3). destruct (stack_next _ _ _ _ _ T2) as (_ & W & H).
  split_and!; try done. unfold stub_leave. rewrite run_app, leave_ok.
  rewrite (trapret_ok _ (set_eax v f) 2 []).
  2: { cbn [cpu ram upd_cpu r_esp set_reg]. rewrite T1, W, app_nil_r. exact H. }
  2: { destruct Hu as [_ (_ & _ & _ & _ & H5 & _) _ Hr]. change (tf_cs (set_eax v f)) with (s_cs (cpu u)). by rewrite low16_id. }
  cbn [ram upd_cpu].
  change (set_eax v f) with (set_eax v (user_frame (cpu u) esp0 T_SYSCALL 0)).
  change (frame_cpu (set_eax v ?g)) with (set_reg EAX v (frame_cpu g)). rewrite frame_cpu_user by done.
  unfold SYSCALL_ret. by rewrite (ret_ok (Mach (set_reg EAX v (cpu u)) (ram (trap m))) (r_esp (cpu u)) 0 ret args eq_refl T3).
Qed.

(** *** Witnesses *)

Lemma stack_intro m sp k l : 4 * Z.of_nat k ≤ sp → sp + 4 * Z.of_nat (length l) < 2^32 →
  (λ i, load32 m (sp + 4 * Z.of_nat i)) <$> seq 0 (length l) = l → stack m sp k l.
Proof.
  intros H1 H2 H3. constructor; [done|done|]. intros i v Hi. pose proof (lookup_lt_Some _ _ _ Hi) as Hlt.
  rewrite <- H3 in Hi. rewrite list_lookup_fmap, lookup_seq_lt in Hi by done. simpl in Hi. by injection Hi.
Qed.
Fixpoint put_words (m : mem) (a : Z) (l : list Z) : mem :=
  match l with [] => m | v :: l' => put_words (store32 m a v) (a + 4) l' end.
Definition some_regs (sp : Z) : cpu_t := Cpu 1 2 3 4 sp 6 7 8 0x23 0x23 0 0 0x1b 0x23 0x40 0x202.

(** Two kernel threads: the first, at [0x1000], switches to the context at
    [0x2000]; that thread later switches back from [0x2800]. *)
Definition thread1 : machine :=
  Mach (some_regs 0x1000) (put_words (put_words (λ _, 0) 0x1000 [0x77; 0x3000; 0x2000]) 0x2000 [11; 12; 13; 14; 15]).
Definition thread2 : machine := Mach (some_regs 0x2800) (put_words (ram (run swtch thread1)) 0x2800 [0x88; 0x3004; 0xff0]).
Lemma swtch_resumes_witness :
  eip (cpu (run swtch thread1)) = 15 ∧
  (r_ebx (cpu (run swtch thread2)) = 4 ∧ r_esp (cpu (run swtch thread2)) = 0x1004 ∧ eip (cpu (run swtch thread2)) = 0x77).
Proof.
  assert (Hr : ∀ sp, is_u32 sp → regs_u32 (some_regs sp)) by by (intros; unfold regs_u32; simpl; split_and!).
  assert (Hc1 : calls_swtch thread1 0x77 0x3000 0x2000 (Context 11 12 13 14 15)).
  { constructor; [by apply Hr|apply stack_intro; [done|done|by vm_compute]..|cbn; lia|cbn; lia|lia|done]. }
  assert (Hc2 : calls_swtch thread2 0x88 0x3004 0xff0 (Context 8 7 4 6 0x77)).
  { constructor; [by apply Hr|apply stack_intro; [done|done|by vm_compute]..| | |lia|done];
      change (r_esp (cpu thread2)) with 0x2800; lia. }
  destruct (swtch_resumes thread1 0x77 0x3000 0x2000 (Context 11 12 13 14 15) thread2 0x88 0x3004 (Context 8 7 4 6 0x77) Hc1)
    as [Hrun (B1 & _ & _ & _ & B5 & B6)].
  - intros x Hx. change (r_esp (cpu thread1)) with 0x1000 in Hx. unfold thread2. cbn [ram put_words].
    by rewrite !store32_other by lia.
  - assert (Ho : load32 (ram (run swtch thread1)) 0x3000 = 0xff0) by by vm_compute. rewrite Ho. exact Hc2.
  - split; [apply Hrun|]. exact (conj B1 (conj B5 B6)).
Defined.

Definition some_user : machine := Mach (some_regs 0x5000) (λ _, 0).
Lemma some_user_ok : user_ok (cpu some_user).
Proof. constructor; cbn; unfold regs_u32, is_u16, is_u32; cbn; split_and?; lia || done. Qed.

(** A kernel stack at [0x4000] as [allocproc] leaves it. *)
Definition new_frame : trapframe := Trapframe 0 0 0 0 0 0 0 0 0 0 0x23 0x23 0 0 0x40 0x1b 0x200 0x1000 0x23.
Definition scheduler1 : machine :=
  Mach (some_regs 0x1000) (put_words (put_words (λ _, 0) 0x1000 [0x77; 0x3000; 0x4f9c]) 0x4f9c ([0; 0; 0; 0; 0x55; 0x66] ++ frame_words new_frame)).
Lemma new_process_enters_user_witness :
  cpu (run trapret (run [Ret] (run swtch scheduler1))) = frame_cpu new_frame.
Proof.
  apply (new_process_enters_user scheduler1 0x77 0x3000 0x4000 0x66 0x55 new_frame (run [Ret])).
  - constructor.
    + unfold regs_u32, is_u32. cbn. lia.
    + apply stack_intro; [done|done|by vm_compute].
    + apply stack_intro; [done|done|by vm_compute].
    + right. cbn. unfold sizeof_trapframe, KSTACKSIZE. lia.
    + right. cbn. lia.
    + left. unfold sizeof_trapframe, KSTACKSIZE. lia.
    + unfold is_u32. lia.
  - apply stack_intro; [done|done|by vm_compute].
  - intros x. unfold KSTACKSIZE. cbn. lia.
  - intros m _ Hsp Hst. apply (ret_returns m _ _ _ _ Hsp Hst).
  - reflexivity.
Defined.

(** A handler for the stub: stores 5 in [tf->eax] and returns. *)
Definition answer (m : machine) : machine := run [Ret] (Mach (cpu m) (store32 (ram m) (0x9000 - 76 + 28) 5)).
Lemma answer_ok m f : r_esp (cpu m) = 0x9000 - 84 → stack (ram m) (0x9000 - 84) 0 ([0x300; 0x9000 - 76] ++ frame_words f) →
  r_esp (cpu (answer m)) = 0x9000 - 80 ∧ stack (ram (answer m)) (0x9000 - 80) 1 (0x9000 - 76 :: frame_words (set_eax 5 f)) ∧
  ram (answer m) = store32 (ram m) (0x9000 - 76 + 28) 5.
Proof.
  intros Hsp Hst. set (mm := store32 (ram m) (0x9000 - 76 + 28) 5).
  assert (Hst' : stack mm (0x9000 - 84) 0 ([0x300; 0x9000 - 76] ++ frame_words (set_eax 5 f))).
  { destruct Hst as [S1 S2 S3]. constructor; [done|done|]. intros i v Hi. unfold mm. destruct (decide (i = 9%nat)) as [->|Hne].
    - simpl in Hi. injection Hi as <-. by apply load32_store32.
    - pose proof (lookup_lt_Some _ _ _ Hi) as Hlt. simpl in Hlt. rewrite load32_store32_ne by lia. apply S3.
      do 9 (destruct i as [|i]; [done|]). destruct i as [|i]; [done|]. done. }
  unfold answer. fold mm. rewrite (ret_ok (Mach (cpu m) mm) _ _ _ _ Hsp Hst').
  destruct (stack_next _ _ _ _ _ Hst') as (_ & _ & H1). cbn [cpu ram]. split; [reflexivity|]. split; [exact H1|reflexivity].
Qed.
Definition caller : machine := Mach (some_regs 0x5000) (put_words (λ _, 0) 0x5000 [0x99; 7; 8]).
Lemma syscall_stub_returns_witness :
  cpu (stub_leave (answer (stub_enter 0x200 0x300 0x400 0x9000 0x10 0x8 11 caller))) =
  set_eip 0x99 (set_reg ESP 0x5004 (set_reg EAX 5 (cpu caller))).
Proof.
  apply (syscall_stub_returns 0x200 0x300 0x400 0x9000 0x10 0x8 11 5 caller 0x99 [7; 8] answer).
  - apply some_user_ok.
  - lia.
  - unfold is_u32. lia.
  - unfold is_u32. lia.
  - apply stack_intro; [done|done|by vm_compute].
  - left. cbn. lia.
  - intros m f Hsp Hst Hu. destruct (answer_ok m f Hsp Hst) as (A1 & A2 & A3). split; [exact A1|]. split; [exact A2|].
    rewrite A3. apply stack_store; [exact Hu|]. right. cbn. lia.
Defined.
