(* ===== verification/Text.v ===== *)
(** * The text tools

    [grep.c] and [wc.c]: user programs over [read] and [write].  The
    matcher of [grep] is shown to decide the language of its patterns, its
    buffer loop to print exactly the matching lines of a file, and [wc] to
    count what it says whatever the sizes of the reads. *)

From S2P Require Import Prelude Machine.
Local Open Scope Z_scope.

(** ** Reading and writing *)

(** What is still to be read from a descriptor: the answers [read] will give.
    A regular file is one [Some]; a pipe or the console gives one per write;
    [None] is an error (-1). *)
Notation input := (list (option (list Z))).
(** [read(fd, buf, n)]: at most [n] bytes, none at the end. *)
Definition read (n : nat) (i : input) : option (list Z) * input :=
  match i with
  | [] => (Some [], [])
  | None :: i' => (None, i')
  | Some c :: i' => (Some (take n c), if (length c <=? n)%nat then i' else Some (drop n c) :: i')
  end.

(** ** The matcher of [grep] *)

(** Strings are lists of their characters, without the terminator. *)
Definition cSTAR : Z := 42.
Definition cDOT : Z := 46.
Definition cDOLLAR : Z := 36.
Definition cCARET : Z := 94.
Definition cNL : Z := 10.

(** [matchstar(c, re, text)], given [matchhere(re, .)]. *)
Fixpoint matchstar (here : list Z → bool) (c : Z) (text : list Z) : bool :=
  here text ||
  match text with
  | [] => false
  | t :: text' => ((t =? c) || (c =? cDOT)) && matchstar here c text'
  end.
Fixpoint matchhere (re text : list Z) : bool :=
  match re with
  | [] => true
  | c :: re1 =>
      let one := match text with
                 | [] => false
                 | t :: text' => ((c =? cDOT) || (c =? t)) && matchhere re1 text'
                 end in
      match re1 with
      | [] => if c =? cDOLLAR then bool_decide (text = []) else one
      | c1 :: re2 => if c1 =? cSTAR then matchstar (matchhere re2) c text else one
      end
  end.
(** The loop of [match], which tries every suffix, the empty one too. *)
Fixpoint match_any (re text : list Z) : bool :=
  matchhere re text || match text with [] => false | _ :: text' => match_any re text' end.
Definition match_ (re text : list Z) : bool :=
  match re with
  | c :: re' => if c =? cCARET then matchhere re' text else match_any re text
  | [] => match_any re text
  end.

(** ** The loops of [grep] *)

(** [strchr(p, '\n')]: the characters before the first newline and those after
    it; none is found past a NUL. *)
Fixpoint split_line (p : list Z) : option (list Z * list Z) :=
  match p with
  | [] => None
  | c :: p' =>
      if c =? 0 then None else
      if c =? cNL then Some ([], p')
      else match split_line p' with Some (l, r) => Some (c :: l, r) | None => None end
  end.
(** The inner loop: what it writes, and the buffer from [p] on at its end. *)
Fixpoint grep_lines (k : nat) (pattern p : list Z) : list Z * list Z :=
  match k with
  | O => ([], p)
  | S k' =>
      match split_line p with
      | None => ([], p)
      | Some (l, r) =>
          let '(out, rest) := grep_lines k' pattern r in
          ((if match_ pattern l then l ++ [cNL] else []) ++ out, rest)
      end
  end.
(** [sizeof(buf) - 1] *)
Definition GREPBUF : nat := 1023.
(** The outer loop with [m] bytes in the buffer; [if(p == buf) m = 0]. *)
Fixpoint grep_loop (k : nat) (pattern buf : list Z) (fd : input) : option (list Z) :=
  match k with
  | O => None
  | S k' =>
      let '(d, fd') := read (GREPBUF - length buf) fd in
      match d with
      | None | Some [] => Some []
      | Some d =>
          let b := buf ++ d in
          let '(out, rest) := grep_lines (length b) pattern b in
          let rest := if (length rest =? length b)%nat then [] else rest in
          match grep_loop k' pattern rest fd' with Some out' => Some (out ++ out') | None => None end
      end
  end.
Definition grep (k : nat) (pattern : list Z) (fd : input) : option (list Z) := grep_loop k pattern [] fd.

(** ** [wc] *)

(** [strchr] of blank, return, tab, newline and vertical tab: a NUL in the
    text is not one of them. *)
Definition is_sep (c : Z) : bool := bool_decide (c ∈ [32; 13; 9; 10; 11]).
Record counts := Counts { w_l : Z; w_w : Z; w_c : Z; inword : bool }.
Definition wc_char (s : counts) (c : Z) : counts :=
  let s := Counts (if c =? cNL then sint32 (w_l s + 1) else w_l s) (w_w s) (sint32 (w_c s + 1)) (inword s) in
  if is_sep c then Counts (w_l s) (w_w s) (w_c s) false
  else if negb (inword s) then Counts (w_l s) (sint32 (w_w s + 1)) (w_c s) true
  else s.
(** [None] is "wc: read error". *)
Fixpoint wc_loop (k : nat) (s : counts) (fd : input) : option (option counts) :=
  match k with
  | O => None
  | S k' =>
      let '(d, fd') := read 512 fd in
      match d with
      | None => Some None
      | Some [] => Some (Some s)
      | Some d => wc_loop k' (foldl wc_char s d) fd'
      end
  end.
Definition wc (k : nat) (fd : input) : option (option counts) := wc_loop k (Counts 0 0 0 false) fd.

(** ** The language of a pattern *)

Inductive item := One (c : Z) | Star (c : Z).
Definition accepts (c t : Z) : Prop := c = cDOT ∨ c = t.
(** The items of a pattern after its [^], and whether it ends in [$]. *)
Fixpoint items (re : list Z) : list item * bool :=
  match re with
  | [] => ([], false)
  | c :: re1 =>
      match re1 with
      | [] => if c =? cDOLLAR then ([], true) else ([One c], false)
      | c1 :: re2 => if c1 =? cSTAR then (Star c :: (items re2).1, (items re2).2)
                     else (One c :: (items re1).1, (items re1).2)
      end
  end.
Inductive lang : list item → list Z → Prop :=
  | lang_nil : lang [] []
  | lang_one c t its l : accepts c t → lang its l → lang (One c :: its) (t :: l)
  | lang_stop c its l : lang its l → lang (Star c :: its) l
  | lang_more c t its l : accepts c t → lang (Star c :: its) l → lang (Star c :: its) (t :: l).
(** A prefix of the text is in the language, all of it if the end is anchored. *)
Definition here (p : list item * bool) (text : list Z) : Prop :=
  ∃ m b, text = m ++ b ∧ lang p.1 m ∧ (p.2 = true → b = []).
Definition matches (re text : list Z) : Prop :=
  match re with
  | c :: re' => if c =? cCARET then here (items re') text else ∃ a text', text = a ++ text' ∧ here (items re) text'
  | [] => ∃ a text', text = a ++ text' ∧ here (items re) text'
  end.

Lemma accepts_dec c t : (c =? cDOT) || (c =? t) = true ↔ accepts c t.
Proof. unfold accepts. rewrite orb_true_iff, !Z.eqb_eq. done. Qed.
Lemma here_one c its e t text : here (One c :: its, e) (t :: text) ↔ accepts c t ∧ here (its, e) text.
Proof.
  split.
  - intros (m & b & E & Hl & He). inversion Hl; subst. simpl in E. injection E as -> ->. split; [done|]. by eexists _, _.
  - intros [Ha (m & b & -> & Hl & He)]. exists (t :: m), b. split_and!; [done|by constructor|done].
Qed.
Lemma here_one_nil c its e : ¬ here (One c :: its, e) [].
Proof. intros (m & b & E & Hl & _). inversion Hl; by subst. Qed.
Lemma here_star c its e text : here (Star c :: its, e) text ↔
  here (its, e) text ∨ ∃ t text', text = t :: text' ∧ accepts c t ∧ here (Star c :: its, e) text'.
Proof.
  split.
  - intros (m & b & -> & Hl & He). simpl in *. inversion Hl; subst.
    + left. by exists m, b.
    + right. eexists t, (l ++ b). split_and!; try done. by exists l, b.
  - intros [(m & b & -> & Hl & He)|(t & text' & -> & Ha & (m & b & -> & Hl & He))].
    + exists m, b. split_and!; [done|by apply lang_stop|done].
    + exists (t :: m), b. split_and!; [done|by apply lang_more|done].
Qed.
Lemma matchstar_iff its e mh c : (∀ text, mh text = true ↔ here (its, e) text) →
  ∀ text, matchstar mh c text = true ↔ here (Star c :: its, e) text.
Proof.
  intros Hmh text. induction text as [|t text IH]; rewrite here_star; cbn [matchstar]; rewrite orb_true_iff, Hmh.
  - split; [intros [H|H]; [by left|done]|intros [H|(t & text' & H & _)]; [by left|done]].
  - rewrite andb_true_iff, IH, orb_comm. rewrite (Z.eqb_sym t c), accepts_dec.
    split; [intros [H|[Ha H]]; [by left|right; by eexists _, _]|intros [H|(t' & text' & [= <- <-] & Ha & H)]; [by left|by right]].
Qed.
Lemma here_nil e text : here ([], e) text ↔ (e = true → text = []).
Proof.
  split; [intros (m & b & -> & Hl & He); by inversion Hl|]. intros H. exists [], text. split_and!; [done|constructor|done].
Qed.
Lemma matchhere_iff re : ∀ text, matchhere re text = true ↔ here (items re) text.
Proof.
  induction re as [re IH] using (induction_ltof1 _ (@length Z)). unfold ltof in IH.
  assert (Hone : ∀ c re1 text, (length re1 < length re)%nat →
    match text with [] => false | t :: text' => ((c =? cDOT) || (c =? t)) && matchhere re1 text' end = true ↔
    here (One c :: (items re1).1, (items re1).2) text).
  { intros c re1 [|t text] Hlt; [split; [done|by intros ?%here_one_nil]|].
    rewrite here_one, andb_true_iff, accepts_dec, IH by done. by destruct (items re1). }
  intros text. destruct re as [|c [|c1 re2]]; cbn [matchhere items].
  - rewrite here_nil. done.
  - destruct (c =? cDOLLAR); [|apply (Hone c []); simpl; lia]. rewrite here_nil, bool_decide_eq_true. tauto.
  - destruct (c1 =? cSTAR); [|apply (Hone c (c1 :: re2)); simpl; lia].
    apply matchstar_iff. intros text'. rewrite IH by (simpl; lia). by destruct (items re2).
Qed.
Lemma match_any_iff re text : match_any re text = true ↔ ∃ a text', text = a ++ text' ∧ here (items re) text'.
Proof.
  induction text as [|t text IH]; cbn [match_any]; rewrite orb_true_iff, matchhere_iff.
  - split; [intros [H|H]; [by exists [], []|done]|]. intros (a & text' & [-> ->]%eq_sym%app_nil & H). by left.
  - rewrite IH. split.
    + intros [H|(a & text' & -> & H)]; [by exists [], (t :: text)|by exists (t :: a), text'].
    + intros ([|t' a] & text' & E & H); simpl in E; [left; by subst|injection E as -> ->; right; by exists a, text'].
Qed.

(** C33: The matcher of [grep] decides the language of its patterns.  For every
    pattern and every text, [match] answers yes exactly when some part of the
    text is a word of the pattern: single characters, [.] for any character, a
    starred item for any number of them, [^] and [$] tying the part to the
    beginning and the end of the text.  The search for the number of
    repetitions, which tries the shortest first and backtracks, loses none. *)
Theorem match_iff re text : match_ re text = true ↔ matches re text.
Proof.
  unfold match_, matches. destruct re as [|c re]; [apply match_any_iff|].
  destruct (c =? cCARET); [apply matchhere_iff|apply match_any_iff].
Qed.

(** ** The lines [grep] prints *)

Definition line (l : list Z) : list Z := l ++ [cNL].
Definition unlines (ls : list (list Z)) : list Z := concat (line <$> ls).
(** Text without newlines and NULs. *)
Definition plain (l : list Z) : Prop := Forall (λ c, c ≠ cNL ∧ c ≠ 0) l.
Definition printed (pattern : list Z) (ls : list (list Z)) : list Z :=
  unlines (filter (λ l, match_ pattern l = true) ls).

Lemma unlines_cons l ls : unlines (l :: ls) = l ++ [cNL] ++ unlines ls.
Proof. unfold unlines, line. cbn [fmap list_fmap concat]. by rewrite <- app_assoc. Qed.
Lemma unlines_app ls1 ls2 : unlines (ls1 ++ ls2) = unlines ls1 ++ unlines ls2.
Proof. unfold unlines. by rewrite fmap_app, concat_app. Qed.
Lemma printed_app pattern ls1 ls2 : printed pattern (ls1 ++ ls2) = printed pattern ls1 ++ printed pattern ls2.
Proof. unfold printed. by rewrite filter_app, unlines_app. Qed.
Lemma split_line_plain l r : plain l → split_line (l ++ [cNL] ++ r) = Some (l, r).
Proof.
  induction 1 as [|c l [Hnl H0] _ IH]; [done|]. change ((c :: l) ++ [cNL] ++ r) with (c :: (l ++ [cNL] ++ r)).
  cbn [split_line]. rewrite (proj2 (Z.eqb_neq c 0)), (proj2 (Z.eqb_neq c cNL)) by done. by rewrite IH.
Qed.
Lemma split_line_none l : plain l → split_line l = None.
Proof.
  induction 1 as [|c l [Hnl H0] _ IH]; [done|]. simpl. rewrite (proj2 (Z.eqb_neq c 0)), (proj2 (Z.eqb_neq c cNL)) by done.
  by rewrite IH.
Qed.
Lemma grep_lines_ok pattern ls r k : Forall plain ls → plain r → (length ls ≤ k)%nat →
  grep_lines k pattern (unlines ls ++ r) = (printed pattern ls, r).
Proof.
  intros Hls Hr. revert k. induction Hls as [|l ls Hl _ IH]; intros k Hk.
  - destruct k; [done|]. cbn [grep_lines unlines fmap list_fmap concat app]. by rewrite split_line_none.
  - destruct k as [|k]; [simpl in Hk; lia|]. cbn [grep_lines]. rewrite unlines_cons, <- !app_assoc, split_line_plain by done.
    rewrite IH by (simpl in Hk; lia). unfold printed. rewrite filter_cons. destruct (match_ pattern l) eqn:E.
    + rewrite decide_True by done. f_equal.
    + rewrite decide_False by done. done.
Qed.

(** Any prefix of a text of lines is some whole lines and the start of the next. *)
Lemma lines_prefix ls : ∀ last b rest, Forall plain ls → plain last → unlines ls ++ last = b ++ rest →
  ∃ ls1 r ls2, ls = ls1 ++ ls2 ∧ b = unlines ls1 ++ r ∧ plain r ∧ r ++ rest = unlines ls2 ++ last.
Proof.
  induction ls as [|l ls IH]; intros last b rest Hls Hlast E.
  - exists [], b, []. simpl in *. split_and!; try done. subst last. by apply Forall_app in Hlast as [? _].
  - inversion Hls; subst. rewrite unlines_cons, <- !app_assoc in E.
    destruct (decide (length b ≤ length l)%nat) as [Hle|Hgt].
    + exists [], b, (l :: ls). split_and!; try done; [|by rewrite unlines_cons, <- !app_assoc].
      replace b with (take (length b) l); [by apply Forall_take|].
      apply (f_equal (take (length b))) in E. rewrite take_app_le in E by done. by rewrite take_app_length in E.
    + assert (Hb : ∃ b', b = l ++ [cNL] ++ b' ∧ unlines ls ++ last = b' ++ rest).
      { apply app_eq_inv in E as [(k & -> & E)|(k & -> & E)].
        - rewrite length_app in Hgt. lia.
        - exists (drop 1 k). destruct k as [|c k]; [rewrite app_nil_r in Hgt; lia|]. by simplify_list_eq. }
      destruct Hb as (b' & -> & E'). destruct (IH last b' rest) as (ls1 & r & ls2 & -> & -> & Hr & Er); try done.
      exists (l :: ls1), r, ls2. split_and!; try done. by rewrite unlines_cons, <- !app_assoc.
Qed.
Lemma unlines_length ls : (length ls ≤ length (unlines ls))%nat.
Proof. induction ls as [|l ls IH]; [done|]. rewrite unlines_cons, !length_app. simpl. lia. Qed.

(** A line that does not end within a plain text is at least as long. *)
Lemma plain_prefix l ls last b rest : plain b → unlines (l :: ls) ++ last = b ++ rest → (length b ≤ length l)%nat.
Proof.
  intros Hb E. rewrite unlines_cons, <- !app_assoc in E. destruct (decide (length b ≤ length l)%nat) as [|Hgt]; [done|].
  apply app_eq_inv in E as [(k & -> & E)|(k & -> & E)]; [rewrite length_app in Hgt; lia|].
  destruct k as [|c k]; [rewrite app_nil_r in Hgt; lia|]. simplify_list_eq.
  apply Forall_app in Hb as [_ Hb]. by inversion Hb as [|?? []].
Qed.
(** What remains of a regular file. *)
Definition file_rest (rest : list Z) (fd : input) : Prop := fd = [Some rest] ∨ rest = [] ∧ fd = [].
Lemma read_rest n rest fd : file_rest rest fd → ∃ fd', read n fd = (Some (take n rest), fd') ∧ file_rest (drop n rest) fd'.
Proof.
  intros [->|[-> ->]]; cbn [read].
  - destruct (Nat.leb_spec (length rest) n); [|eexists; split; [done|by left]].
    exists []. split; [done|]. right. by rewrite drop_ge.
  - exists []. split; [by rewrite take_nil|]. right. by rewrite drop_nil.
Qed.
(** The loop with [buf] read and not yet used, and [rest] to be read. *)
Lemma grep_loop_ok pattern k : ∀ buf rest fd ls last, file_rest rest fd → (length rest < k)%nat → (length buf < GREPBUF)%nat →
  Forall (λ l, plain l ∧ (length l < GREPBUF)%nat) ls → plain last → plain buf →
  unlines ls ++ last = buf ++ rest → grep_loop k pattern buf fd = Some (printed pattern ls).
Proof.
  induction k as [|k IH]; intros buf rest fd ls last Hfd Hk Hbuf Hls Hlast Hpb E; [lia|]. cbn [grep_loop].
  set (n := (GREPBUF - length buf)%nat). destruct (read_rest n rest fd Hfd) as (fd' & -> & Hfd').
  assert (Hpl : Forall plain ls) by (eapply Forall_impl; [exact Hls|by intros l [? _]]).
  destruct (decide (rest = [])) as [->|Hne].
  - rewrite take_nil. destruct ls as [|l ls]; [done|]. exfalso. rewrite app_nil_r in E. pose proof (f_equal length E) as El.
    rewrite <- (app_nil_r buf) in E. apply (plain_prefix l ls last buf []) in E; [|done].
    rewrite unlines_cons, !length_app in El. simpl in El. lia.
  - destruct (take n rest) as [|c d'] eqn:Ed.
    { apply (f_equal length) in Ed. rewrite length_take in Ed. simpl in Ed. destruct rest; [done|]. simpl in Ed. lia. }
    rewrite <- Ed. clear c d' Ed. set (b := buf ++ take n rest).
    assert (E' : unlines ls ++ last = b ++ drop n rest) by by rewrite E; unfold b; rewrite <- app_assoc, take_drop.
    assert (Hb : length b = Nat.min GREPBUF (length buf + length rest)) by (unfold b; rewrite length_app, length_take; lia).
    destruct (lines_prefix ls last b (drop n rest) Hpl Hlast E') as (ls1 & r & ls2 & -> & Eb & Hr & Er).
    apply Forall_app in Hpl as [Hpl1 Hpl2]. apply Forall_app in Hls as [_ Hls2].
    pose proof (f_equal length Eb) as Elen. rewrite length_app in Elen. pose proof (unlines_length ls1).
    rewrite Eb at 2. rewrite grep_lines_ok by (done || lia). rewrite printed_app.
    assert (Hd : (length (drop n rest) < k)%nat) by (rewrite length_drop; destruct rest; [done|]; simpl in *; lia).
    destruct ls1 as [|l1 ls1].
    + simpl in Eb. subst r. rewrite Nat.eqb_refl. destruct ls2 as [|l ls2].
      * simpl in Er. subst last. rewrite (IH [] (drop n rest) fd' [] (drop n rest)); try done.
        1: unfold GREPBUF; simpl; lia. 2: constructor.
        by apply Forall_app in Hlast as [_ ?].
      * exfalso. pose proof (plain_prefix l ls2 last b (drop n rest) Hr E') as Hle. inversion Hls2 as [|?? [_ Hl] _]; subst.
        pose proof (f_equal length E) as El. simpl in El. rewrite unlines_cons, !length_app in El. simpl in El. lia.
    + rewrite length_cons in H. rewrite (proj2 (Nat.eqb_neq (length r) (length b))) by lia.
      rewrite (IH r (drop n rest) fd' ls2 last); try done; lia.
Qed.

(** C34: [grep] of a regular file.  For a file of lines shorter than the buffer
    and without NUL bytes, whatever the positions at which the reads cut it,
    the program reads to the end and writes exactly the lines its matcher
    accepts, whole, in their order and once each; what follows the last
    newline is not looked at. *)
Theorem grep_prints pattern ls last k
  (Hls : Forall (λ l, plain l ∧ (length l < GREPBUF)%nat) ls) (Hlast : plain last)
  (Hk : (length (unlines ls ++ last) < k)%nat) :
  grep k pattern [Some (unlines ls ++ last)] = Some (unlines (filter (λ l, match_ pattern l = true) ls)).
Proof.
  apply (grep_loop_ok pattern k [] (unlines ls ++ last) _ ls last); try done; [by left|simpl; unfold GREPBUF; lia|constructor].
Qed.
Lemma grep_prints_witness :
  grep 12 [97; 42; 98] [Some [99; 10; 97; 98; 10; 98]] = Some [97; 98; 10].
Proof.
  refine (eq_trans (grep_prints [97; 42; 98] [[99]; [97; 98]] [98] 12 _ _ _) _).
  - repeat constructor; simpl; unfold GREPBUF; (done || lia).
  - by repeat constructor.
  - simpl. lia.
  - reflexivity.
Defined.
(** Short reads lose the beginning of a line: a line given in two pieces is not
    the line given at once. *)
Example grep_short_read :
  grep 10 [97] [Some [97; 98; 10]] = Some [97; 98; 10] ∧ grep 10 [97] [Some [97]; Some [98; 10]] = Some [].
Proof. by vm_compute. Qed.

(** ** What [wc] counts *)

(** The text cut at the separators. *)
Fixpoint pieces (l : list Z) : list Z * list (list Z) :=
  match l with
  | [] => ([], [])
  | c :: l' => let '(p, ps) := pieces l' in if is_sep c then ([], p :: ps) else (c :: p, ps)
  end.
Definition words (l : list Z) : list (list Z) := filter (λ p, p ≠ []) ((pieces l).1 :: (pieces l).2).
Definition newlines (l : list Z) : list Z := filter (λ c, c = cNL) l.

(** Words that begin in [l] when the character before it was in a word or not. *)
Definition new_words (w : bool) (l : list Z) : Z :=
  Z.of_nat (length (words l)) - (if w && bool_decide ((pieces l).1 ≠ []) then 1 else 0).
Lemma new_words_cons w c l : new_words w (c :: l) =
  if is_sep c then new_words false l else (if w then 0 else 1) + new_words true l.
Proof.
  unfold new_words, words. cbn [pieces]. destruct (pieces l) as [p ps]. cbn [fst snd]. destruct (is_sep c); cbn [fst snd].
  - rewrite (filter_cons _ []), decide_False by auto. rewrite bool_decide_false by auto. rewrite andb_false_r. simpl. lia.
  - rewrite filter_cons, decide_True by done. rewrite bool_decide_true by done. rewrite filter_cons.
    destruct (decide (p ≠ [])) as [Hp|Hp]; [rewrite bool_decide_true by done|rewrite bool_decide_false by done];
      rewrite ?length_cons; destruct w; simpl; lia.
Qed.
Lemma new_words_range w l : 0 ≤ new_words w l ≤ Z.of_nat (length l).
Proof.
  revert w. induction l as [|c l IH]; intros w; [unfold new_words; simpl; rewrite andb_false_r; lia|].
  rewrite new_words_cons, length_cons. pose proof (IH false). pose proof (IH true). destruct (is_sep c), w; lia.
Qed.
Lemma wc_chars_ok l : ∀ s, 0 ≤ w_l s → 0 ≤ w_w s → 0 ≤ w_c s →
  w_l s + Z.of_nat (length l) < 2^31 → w_w s + Z.of_nat (length l) < 2^31 → w_c s + Z.of_nat (length l) < 2^31 →
  let s' := foldl wc_char s l in
  w_l s' = w_l s + Z.of_nat (length (newlines l)) ∧ w_w s' = w_w s + new_words (inword s) l ∧ w_c s' = w_c s + Z.of_nat (length l).
Proof.
  induction l as [|c l IH]; intros s H1 H2 H3 B1 B2 B3; cbv zeta.
  - unfold new_words. simpl. rewrite andb_false_r. lia.
  - rewrite length_cons in *. cbn [foldl]. rewrite new_words_cons. unfold newlines. rewrite filter_cons.
    assert (Hs : ∀ x, 0 ≤ x → x + Z.of_nat (S (length l)) < 2^31 → sint32 (x + 1) = x + 1) by (intros; apply sint32_id; unfold is_i32; lia).
    assert (Hc : w_l (wc_char s c) = w_l s + (if decide (c = cNL) then 1 else 0) ∧ w_c (wc_char s c) = w_c s + 1 ∧
      w_w (wc_char s c) = w_w s + (if is_sep c then 0 else if inword s then 0 else 1) ∧ inword (wc_char s c) = negb (is_sep c)).
    { unfold wc_char. cbn [w_l w_w w_c inword]. rewrite !Hs by done.
      destruct (Z.eqb_spec c cNL), (decide (c = cNL)), (is_sep c), (inword s) eqn:Ei; cbn; rewrite ?Ei; try done; lia. }
    destruct Hc as (C1 & C2 & C3 & C4). destruct (IH (wc_char s c)) as (R1 & R2 & R3); rewrite ?C1, ?C2, ?C3;
      try (destruct (decide (c = cNL)), (is_sep c), (inword s); lia).
    rewrite R1, R2, R3, C1, C2, C3, C4. fold (newlines l).
    destruct (decide (c = cNL)), (is_sep c), (inword s); rewrite ?length_cons; cbn [negb]; lia.
Qed.
Lemma wc_loop_ok k : ∀ s cs, Forall (λ c, c ≠ []) cs → (length (concat cs) < k)%nat →
  wc_loop k s (Some <$> cs) = Some (Some (foldl wc_char s (concat cs))).
Proof.
  induction k as [|k IH]; intros s cs Hcs Hk; [lia|]. cbn [wc_loop]. destruct cs as [|c cs]; [done|].
  inversion Hcs as [|?? Hc Hcs']; subst. cbn [fmap list_fmap read]. fold (fmap (M := list) Some cs). simpl in Hk. rewrite length_app in Hk.
  destruct (take 512 c) as [|x t] eqn:Et; [by destruct c|]. rewrite <- Et.
  assert (0 < length c)%nat by (destruct c; [done|simpl; lia]).
  destruct (Nat.leb_spec (length c) 512) as [Hle|Hgt].
  - rewrite IH by (done || lia). cbn [concat]. by rewrite foldl_app, take_ge by lia.
  - change (Some (drop 512 c) :: (Some <$> cs)) with (Some <$> (drop 512 c :: cs)). rewrite IH.
    + cbn [concat]. rewrite <- foldl_app, app_assoc, take_drop. done.
    + constructor; [|done]. intros E%(f_equal length). rewrite length_drop in E. simpl in E. lia.
    + cbn [concat]. rewrite length_app, length_drop. lia.
Qed.

(** [wc] counts lines, words and characters.  However the input arrives,
    in reads of whatever sizes, the program ends with the number of newlines,
    the number of nonempty pieces between separators (blank, tab, return,
    newline, vertical tab) and the number of bytes of the whole input: a word
    cut by a read counts once. *)
Theorem wc_counts cs k (Hcs : Forall (λ c, c ≠ []) cs) (Hk : (length (concat cs) < k)%nat)
  (Hmax : Z.of_nat (length (concat cs)) < 2^31) :
  ∃ s, wc k (Some <$> cs) = Some (Some s) ∧ w_l s = Z.of_nat (length (newlines (concat cs))) ∧
       w_w s = Z.of_nat (length (words (concat cs))) ∧ w_c s = Z.of_nat (length (concat cs)).
Proof.
  eexists. split; [by apply wc_loop_ok|].
  destruct (wc_chars_ok (concat cs) (Counts 0 0 0 false)) as (R1 & R2 & R3); cbn [w_l w_w w_c inword] in *; try lia.
  rewrite R1, R2, R3. unfold new_words. simpl. lia.
Qed.
Lemma wc_counts_witness : ∃ s, wc 20 [Some [97; 32; 98]; Some [99; 10; 100]] = Some (Some s) ∧ w_w s = 3.
Proof.
  destruct (wc_counts [[97; 32; 98]; [99; 10; 100]] 20) as (s & H & _ & Hw & _).
  - by repeat constructor.
  - simpl. lia.
  - simpl. lia.
  - exists s. split; [exact H|]. rewrite Hw. reflexivity.
Defined.
