(* ===== verification/Printf.v ===== *)
(** * Formatted output

    [printf.c] (user) and the formatting part of [console.c] (kernel): both
    [printint]s and both format loops, as the sequence of characters they hand
    to [putc] or [consputc].  A printed number is shown to denote the number,
    to fit the 16 bytes of its buffer, and to be read back by [atoi]. *)

From S2P Require Import Prelude Machine Str.
Local Open Scope Z_scope.

(** ** Numbers *)

(** [digits[d]] in the upper case table of [printf.c] and the lower case one
    of [console.c]. *)
Definition DIGITS : list Z := chars "0123456789ABCDEF".
Definition digits : list Z := chars "0123456789abcdef".
(** [do { buf[i++] = digits[x % base]; } while((x /= base) != 0);], least
    significant digit first; [buf] has room for [k] characters. *)
Fixpoint digit_loop (table : list Z) (k : nat) (base x : Z) : option (list Z) :=
  match k with
  | O => None
  | S k' =>
      let c := nth (Z.to_nat (x mod base)) table 0 in
      let x := x / base in
      if x =? 0 then Some [c]
      else match digit_loop table k' base x with Some l => Some (c :: l) | None => None end
  end.
(** The user's [printint(fd, xx, base, sgn)]: what it passes to [putc]. *)
Definition uprintint (xx base : Z) (sgn : bool) : option (list Z) :=
  let neg := sgn && (xx <? 0) in
  let x := if neg then wrap32 (- xx) else wrap32 xx in
  match digit_loop DIGITS 16 base x with
  | None => None
  | Some buf => Some (reverse (if neg then buf ++ [45] else buf))
  end.
(** The kernel's [printint(xx, base, sign)], which reuses [sign]. *)
Definition kprintint (xx base : Z) (sign : bool) : option (list Z) :=
  let '(sign, x) := if sign then (if xx <? 0 then (true, wrap32 (- xx)) else (false, wrap32 xx)) else (false, wrap32 xx) in
  match digit_loop digits 16 base x with
  | None => None
  | Some buf => Some (reverse (if sign then buf ++ [45] else buf))
  end.

(** ** Format strings *)

Definition nullstr : list Z := chars "(null)".
Section Format.
(** The variadic arguments, and the strings in memory. *)
Variable ap : nat → Z.
Variable str : Z → list Z.
(** [if(s == 0) s = "(null)";] *)
Definition string_at (a : Z) : list Z := if a =? 0 then nullstr else str a.

(** [printf] from format position [fmt] in state ['%'] or not, with [n]
    arguments used. *)
Fixpoint uprintf (fmt : list Z) (pct : bool) (n : nat) : option (list Z) :=
  match fmt with
  | [] => Some []
  | c :: fmt' =>
      let emit (o : option (list Z)) (n' : nat) :=
        match o, uprintf fmt' false n' with Some a, Some b => Some (a ++ b) | _, _ => None end in
      if negb pct then
        (if c =? 37 then uprintf fmt' true n else emit (Some [c]) n)
      else if c =? 100 then emit (uprintint (sint32 (ap n)) 10 true) (S n)
      else if (c =? 120) || (c =? 112) then emit (uprintint (sint32 (ap n)) 16 false) (S n)
      else if c =? 115 then emit (Some (string_at (ap n))) (S n)
      else if c =? 99 then emit (Some [ap n mod 2^8]) (S n)
      else if c =? 37 then emit (Some [c]) n
      else emit (Some [37; c]) n
  end.
(** [cprintf]: the characters it passes to [consputc]. *)
Fixpoint cprintf_out (fmt : list Z) (n : nat) : option (list Z) :=
  match fmt with
  | [] => Some []
  | c :: fmt1 =>
      if negb (c =? 37) then match cprintf_out fmt1 n with Some b => Some (c :: b) | None => None end
      else match fmt1 with
      | [] => Some []
      | c :: fmt' =>
          let emit (o : option (list Z)) (n' : nat) :=
            match o, cprintf_out fmt' n' with Some a, Some b => Some (a ++ b) | _, _ => None end in
          if c =? 100 then emit (kprintint (sint32 (ap n)) 10 true) (S n)
          else if (c =? 120) || (c =? 112) then emit (kprintint (sint32 (ap n)) 16 false) (S n)
          else if c =? 115 then emit (Some (string_at (ap n))) (S n)
          else if c =? 37 then emit (Some [37]) n
          else emit (Some [37; c]) n
      end
  end.
End Format.

(** ** Printed numbers *)

(** The value of a digit character, of a row of digits, of a signed number. *)
Definition digit_value (c : Z) : Z :=
  if (48 <=? c) && (c <=? 57) then c - 48 else if (65 <=? c) && (c <=? 70) then c - 55
  else if (97 <=? c) && (c <=? 102) then c - 87 else -1.
Definition row_value (base : Z) (l : list Z) : Z := foldl (λ n c, n * base + digit_value c) 0 l.
Definition number (base : Z) (l : list Z) : Z :=
  match l with c :: l' => if c =? 45 then - row_value base l' else row_value base l | [] => 0 end.

(** A table whose entry [d] has value [d]. *)
Definition good_table (t : list Z) : Prop := ∀ d, 0 ≤ d < 16 → digit_value (nth (Z.to_nat d) t 0) = d ∧ nth (Z.to_nat d) t 0 ≠ 45 ∧
  (d < 10 → nth (Z.to_nat d) t 0 = 48 + d).
Lemma good_table_check t : forallb (λ i, (digit_value (nth i t 0) =? Z.of_nat i) && negb (nth i t 0 =? 45) &&
    ((10 <=? i)%nat || (nth i t 0 =? 48 + Z.of_nat i))) (seq 0 16) = true → good_table t.
Proof.
  intros H d Hd. rewrite forallb_forall in H. specialize (H (Z.to_nat d)). rewrite Z2Nat.id in H by lia.
  rewrite !andb_true_iff, orb_true_iff, negb_true_iff, !Z.eqb_eq, Z.eqb_neq, Nat.leb_le in H.
  destruct H as [[H1 H2] H3]; [apply in_seq; lia|]. split_and!; [done|done|]. intros. destruct H3; [lia|done].
Qed.
Lemma DIGITS_good : good_table DIGITS.
Proof. apply good_table_check. by vm_compute. Qed.
Lemma digits_good : good_table digits.
Proof. apply good_table_check. by vm_compute. Qed.

(** The digits of [x], as characters, most significant first. *)
Lemma digit_loop_ok t base k : good_table t → 2 ≤ base ≤ 16 → ∀ x, 0 ≤ x < base ^ Z.of_nat k → (0 < k)%nat →
  ∃ l, digit_loop t k base x = Some l ∧ (0 < length l ≤ k)%nat ∧ row_value base (reverse l) = x ∧
    Forall (λ c, c ≠ 45 ∧ (base ≤ 10 → 48 ≤ c ≤ 57)) l ∧
    (∀ j, (0 < j)%nat → x < base ^ Z.of_nat j → (length l ≤ j)%nat).
Proof.
  intros Ht Hb. induction k as [|k IH]; intros x Hx Hk; [lia|]. cbn [digit_loop].
  pose proof (Z.mod_pos_bound x base ltac:(lia)) as Hm. destruct (Ht (x mod base)) as (T1 & T2 & T3); [lia|].
  set (c := nth _ t 0) in *. assert (Hc : c ≠ 45 ∧ (base ≤ 10 → 48 ≤ c ≤ 57)).
  { split; [done|]. intros. rewrite T3 by lia. lia. }
  destruct (Z.eqb_spec (x / base) 0) as [E|E].
  - exists [c]. split; [done|]. split; [simpl; lia|]. split; [|split; [by constructor|simpl; lia]].
    unfold row_value. simpl. rewrite T1. pose proof (Z.div_mod x base ltac:(lia)). rewrite E in *. lia.
  - assert (0 ≤ x / base < base ^ Z.of_nat k).
    { rewrite Nat2Z.inj_succ, Z.pow_succ_r in Hx by lia. split; [apply Z.div_pos; lia|apply Z.div_lt_upper_bound; lia]. }
    destruct (decide (k = 0%nat)) as [->|]; [simpl in *; lia|].
    destruct (IH (x / base)) as (l & -> & Hl & Hv & Hf & Hj); [done|lia|]. exists (c :: l). split; [done|]. split; [simpl; lia|].
    split; [|split; [by constructor|]].
    2: { intros [|[|j]] Hpos Hlt; [lia| |].
         - rewrite Z.pow_1_r in Hlt. rewrite Z.div_small in E by lia. done.
         - specialize (Hj (S j) ltac:(lia)). rewrite length_cons. rewrite Nat2Z.inj_succ, Z.pow_succ_r in Hlt by lia.
           apply le_n_S, Hj. apply Z.div_lt_upper_bound; lia. }
    rewrite reverse_cons. unfold row_value in *. rewrite foldl_app, Hv. simpl. rewrite T1.
    pose proof (Z.div_mod x base ltac:(lia)). lia.
Qed.
Lemma neg_number base l : Forall (λ c, c ≠ 45 ∧ (base ≤ 10 → 48 ≤ c ≤ 57)) l → (0 < length l)%nat →
  number base (reverse (l ++ [45])) = - row_value base (reverse l) ∧ number base (reverse l) = row_value base (reverse l).
Proof.
  intros Hf Hl. split; [by rewrite reverse_snoc|]. unfold number. destruct (reverse l) as [|c l'] eqn:E.
  - done.
  - assert (c ∈ l) as Hc by (rewrite <- elem_of_reverse, E; left). rewrite Forall_forall in Hf.
    destruct (Hf c Hc) as [Hne _]. by rewrite (proj2 (Z.eqb_neq c 45)).
Qed.

(** Both [printint]s are one function up to the case of the digits. *)
Lemma printint_ok t xx base (neg : bool) : good_table t → is_i32 xx → base = 10 ∨ base = 16 →
  (neg = true → xx < 0) →
  ∃ l, digit_loop t 16 base (if neg then wrap32 (- xx) else wrap32 xx) = Some l ∧ (length l ≤ 10)%nat ∧
    Forall (λ c, c ≠ 45 ∧ (base ≤ 10 → 48 ≤ c ≤ 57)) l ∧
    number base (reverse (if neg then l ++ [45] else l)) = if neg then xx else wrap32 xx.
Proof.
  intros Ht Hx Hb Hneg. set (x := if neg then _ else _). assert (Hu : is_u32 x) by (unfold x; destruct neg; apply wrap32_range).
  unfold is_u32 in Hu. destruct (digit_loop_ok t base 16 Ht ltac:(lia) x) as (l & H1 & H2 & H3 & H4 & H5).
  { assert (10 ^ 16 ≤ base ^ 16) by (apply Z.pow_le_mono_l; lia). change (Z.of_nat 16) with 16. lia. }
  { lia. }
  exists l. split; [done|]. split.
  { apply H5; [lia|]. assert (10 ^ 10 ≤ base ^ 10) by (apply Z.pow_le_mono_l; lia). change (Z.of_nat 10) with 10. lia. }
  split; [done|]. destruct (neg_number base l H4 ltac:(lia)) as [N1 N2]. unfold x in *. destruct neg.
  - rewrite N1, H3. specialize (Hneg eq_refl). unfold is_i32 in Hx. rewrite wrap32_id by (unfold is_u32; lia). lia.
  - by rewrite N2, H3.
Qed.

(** A number printed is that number.  For every [int] and both bases the
    user's and the kernel's [printint] end, use at most 11 of the 16 bytes of
    their buffer, and produce a numeral whose value is the number: [xx] itself
    when printed as signed, the least negative one included, and the 32-bit
    pattern of [xx] otherwise. *)
Theorem printint_value xx base sgn (Hx : is_i32 xx) (Hb : base = 10 ∨ base = 16) :
  (∃ l, uprintint xx base sgn = Some l ∧ (length l ≤ 11)%nat ∧ number base l = if sgn then xx else wrap32 xx) ∧
  (∃ l, kprintint xx base sgn = Some l ∧ (length l ≤ 11)%nat ∧ number base l = if sgn then xx else wrap32 xx).
Proof.
  assert (Hneg : sgn && (xx <? 0) = true → xx < 0) by (intros [_ H%Z.ltb_lt]%andb_true_iff; done).
  assert (Hval : (if sgn && (xx <? 0) then xx else wrap32 xx) = if sgn then xx else wrap32 xx).
  { destruct sgn; [|done]. simpl. destruct (Z.ltb_spec xx 0); [done|]. unfold is_i32 in Hx. apply wrap32_id. unfold is_u32. lia. }
  split.
  - destruct (printint_ok DIGITS xx base _ DIGITS_good Hx Hb Hneg) as (l & H1 & H2 & _ & H3).
    unfold uprintint. rewrite H1. eexists. split; [done|]. rewrite H3, length_reverse. split; [|done].
    destruct (sgn && (xx <? 0)); rewrite ?length_app; simpl; lia.
  - destruct (printint_ok digits xx base _ digits_good Hx Hb Hneg) as (l & H1 & H2 & _ & H3). unfold kprintint.
    assert ((if sgn then if xx <? 0 then (true, wrap32 (- xx)) else (false, wrap32 xx) else (false, wrap32 xx)) =
            (sgn && (xx <? 0), if sgn && (xx <? 0) then wrap32 (- xx) else wrap32 xx)) as ->.
    { by destruct sgn, (xx <? 0). }
    rewrite H1. eexists. split; [done|]. rewrite H3, length_reverse. split; [|done].
    destruct (sgn && (xx <? 0)); rewrite ?length_app; simpl; lia.
Qed.
Lemma printint_value_witness : ∃ l, uprintint (-2^31) 10 true = Some l ∧ number 10 l = -2^31.
Proof.
  destruct (printint_value (-2^31) 10 true) as [(l & H & _ & Hn) _].
  - unfold is_i32. lia.
  - by left.
  - by exists l.
Defined.

Lemma row_value_digits l : ∀ n, Forall (λ c, 48 ≤ c ≤ 57) l →
  foldl (λ n c, n * 10 + digit_value c) n l = digits_value n l.
Proof.
  induction l as [|c l IH]; intros n H; [done|]. inversion H; subst. unfold digits_value in *. simpl. rewrite IH by done.
  unfold digit_value. by rewrite (proj2 (Z.leb_le 48 c)), (proj2 (Z.leb_le c 57)) by lia.
Qed.

(** [atoi] reads what [printf("%d")] prints.  For a number that is not
    negative, written by the user's [printint] into memory and followed by any
    character that is not a digit, [atoi] gives the number back. *)
Theorem printint_atoi x m s fuel l (Hx : 0 ≤ x < 2^31) (Hp : uprintint x 10 true = Some l)
  (Hm : ∀ i d, l !! i = Some d → m (s + Z.of_nat i) = d) (Hend : ¬ (48 ≤ m (s + Z.of_nat (length l)) ≤ 57))
  (Hf : (11 < fuel)%nat) : atoi fuel m s = Some x.
Proof.
  destruct (printint_ok DIGITS x 10 false DIGITS_good) as (r & H1 & H2 & H3 & H4); [unfold is_i32; lia|by left|done|].
  unfold uprintint in Hp. rewrite (proj2 (Z.ltb_ge x 0)), andb_false_r, H1 in Hp by lia. injection Hp as <-.
  destruct (digit_loop_ok DIGITS 10 16 DIGITS_good ltac:(lia) (wrap32 x)) as (r' & H1' & Hl' & Hv & _).
  { rewrite wrap32_id by (unfold is_u32; lia). change (Z.of_nat 16) with 16. lia. } { lia. }
  rewrite H1 in H1'. injection H1' as <-. rewrite wrap32_id in Hv by (unfold is_u32; lia).
  assert (Hd : Forall (λ c, 48 ≤ c ≤ 57) (reverse r)).
  { apply Forall_reverse. eapply Forall_impl; [exact H3|]. intros c [_ Hc]. by apply Hc. }
  unfold row_value in Hv. rewrite row_value_digits in Hv by done. rewrite <- Hv.
  eapply atoi_loop_spec; try done; [lia|]. rewrite length_reverse. lia.
Qed.
Lemma printint_atoi_witness :
  atoi 12 (λ a, if a =? 7 then 52 else if a =? 8 then 50 else 0) 7 = Some 42.
Proof.
  apply (printint_atoi 42 (λ a, if a =? 7 then 52 else if a =? 8 then 50 else 0) 7 12 [52; 50]).
  - lia.
  - reflexivity.
  - intros [|[|i]] d Hd; simplify_eq/=; reflexivity.
  - simpl. lia.
  - lia.
Defined.
