(* ===== verification/Umalloc.v ===== *)
(** * The user heap

    [umalloc.c]: the allocator of Kernighan and Ritchie.  Free blocks form a
    ring in address order through their headers; [malloc] takes the first that
    is large enough, from its end, [free] puts a block back and joins it with
    its neighbours, [morecore] asks the kernel for more.

    The theorems show that blocks handed out never overlap each other or the
    free ones, however calls to [malloc] and [free] alternate, that the loops
    over the ring end, and what happens to requests near the end of the range
    of [uint].

    The headers are all of memory the allocator reads and writes. *)

From S2P Require Import Prelude Machine.
Local Open Scope Z_scope.

(** ** Operations *)

(** [s.ptr] and [s.size] of the header at an address, [freep], and how often
    [sbrk] was called. *)
Record ust := Ust { u_ptr : Z → Z; u_size : Z → Z; freep : Z; sbrks : nat }.
Definition set_ptr (a v : Z) (s : ust) : ust := Ust (upd (u_ptr s) a v) (u_size s) (freep s) (sbrks s).
Definition set_size (a v : Z) (s : ust) : ust := Ust (u_ptr s) (upd (u_size s) a v) (freep s) (sbrks s).
Definition set_freep (p : Z) (s : ust) : ust := Ust (u_ptr s) (u_size s) p (sbrks s).
(** [p + n] for a pointer to headers of 8 bytes. *)
Definition units (p n : Z) : Z := wrap32 (p + 8 * n).

(** The loop of [free], bounded by [k]. *)
Fixpoint free_find (k : nat) (s : ust) (bp p : Z) : option Z :=
  let nx := u_ptr s p in
  if (p <? bp) && (bp <? nx) then Some p else
  if (nx <=? p) && ((p <? bp) || (bp <? nx)) then Some p else
  match k with O => None | S k' => free_find k' s bp nx end.
Definition free_join (s : ust) (bp p : Z) : ust :=
  let nx := u_ptr s p in
  let s :=
    if units bp (u_size s bp) =? nx
    then set_ptr bp (u_ptr s nx) (set_size bp (wrap32 (u_size s bp + u_size s nx)) s)
    else set_ptr bp nx s in
  let s :=
    if units p (u_size s p) =? bp
    then set_ptr p (u_ptr s bp) (set_size p (wrap32 (u_size s p + u_size s bp)) s)
    else set_ptr p bp s in
  set_freep p s.
Definition free (k : nat) (ap : Z) (s : ust) : option ust :=
  let bp := units ap (-1) in
  p ← free_find k s bp (freep s);
  Some (free_join s bp p).

Section Malloc.
(** [&base]; what the [n]th call of [sbrk] returns. *)
Variable base : Z.
Variable sbrk : nat → Z → Z.
Definition morecore (k : nat) (nu : Z) (s : ust) : option (Z * ust) :=
  let nu := if nu <? 4096 then 4096 else nu in
  let p := sbrk (sbrks s) (wrap32 (nu * 8)) in
  let s := Ust (u_ptr s) (u_size s) (freep s) (S (sbrks s)) in
  if p =? 0xffffffff then Some (0, s) else
  s ← free k (units p 1) (set_size p nu s);
  Some (freep s, s).
Fixpoint malloc_loop (k : nat) (nunits prevp p : Z) (s : ust) : option (Z * ust) :=
  if nunits <=? u_size s p then
    let '(p, s) :=
      if u_size s p =? nunits then (p, set_ptr prevp (u_ptr s p) s)
      else
        let s := set_size p (u_size s p - nunits) s in
        let p := units p (u_size s p) in
        (p, set_size p nunits s) in
    Some (units p 1, set_freep prevp s)
  else
    match k with
    | O => None
    | S k' =>
        if p =? freep s then
          r ← morecore k nunits s;
          if r.1 =? 0 then Some (0, r.2) else malloc_loop k' nunits r.1 (u_ptr r.2 r.1) r.2
        else malloc_loop k' nunits p (u_ptr s p) s
    end.
Definition malloc (k : nat) (nbytes : Z) (s : ust) : option (Z * ust) :=
  let nunits := wrap32 (wrap32 (nbytes + 8 - 1) / 8 + 1) in
  let s := if freep s =? 0 then set_size base 0 (set_ptr base base (set_freep base s)) else s in
  let prevp := freep s in
  malloc_loop k nunits prevp (u_ptr s prevp) s.
End Malloc.

(** ** Rings and blocks *)

(** From [x] over [l] to [y]. *)
Fixpoint path (s : ust) (x : Z) (l : list Z) (y : Z) : Prop :=
  match l with [] => u_ptr s x = y | z :: l' => u_ptr s x = z ∧ path s z l' y end.
Lemma path_app s x l1 z l2 y : path s x (l1 ++ z :: l2) y ↔ path s x l1 z ∧ path s z l2 y.
Proof. revert x. induction l1 as [|w l1 IH]; intros x; simpl; [done|]. rewrite IH. tauto. Qed.
Lemma path_frame s s' x l y : (∀ z, z ∈ x :: l → u_ptr s' z = u_ptr s z) → path s x l y → path s' x l y.
Proof.
  revert x. induction l as [|z l IH]; intros x Hp H; simpl in *; [rewrite Hp; set_solver|]. destruct H as [H1 H2].
  split; [rewrite Hp; set_solver|]. apply IH; [|done]. intros w Hw. apply Hp. set_solver.
Qed.

(** A block: its header's address and its size in units. *)
Local Notation block := (Z * Z)%type.
Definition bend (b : block) : Z := b.1 + 8 * b.2.
Definition disj (b c : block) : Prop := bend b ≤ c.1 ∨ bend c ≤ b.1.
(** Free blocks in order of address, with room between them. *)
Fixpoint seps (lo : Z) (l : list block) : Prop :=
  match l with [] => True | b :: l' => lo < b.1 ∧ 0 < b.2 ∧ seps (bend b) l' end.
Fixpoint last_end (lo : Z) (l : list block) : Z := match l with [] => lo | b :: l' => last_end (bend b) l' end.
Lemma seps_app lo l1 l2 : seps lo (l1 ++ l2) ↔ seps lo l1 ∧ seps (last_end lo l1) l2.
Proof. revert lo. induction l1 as [|b l1 IH]; intros lo; simpl; [tauto|]. rewrite IH. tauto. Qed.
Lemma seps_weaken lo lo' l : lo' ≤ lo → seps lo l → seps lo' l.
Proof. destruct l as [|b l]; [done|]. simpl. intros ? (? & ? & ?). split_and!; try done. lia. Qed.
Lemma seps_after lo l b : seps lo l → b ∈ l → lo < b.1 ∧ 0 < b.2.
Proof.
  revert lo. induction l as [|c l IH]; intros lo H Hb; [set_solver|]. destruct H as (H1 & H2 & H3). apply elem_of_cons in Hb as [->|Hb]; [done|].
  destruct (IH _ H3 Hb). unfold bend in *. lia.
Qed.
Lemma last_end_app lo l1 l2 : last_end lo (l1 ++ l2) = last_end (last_end lo l1) l2.
Proof. revert lo. induction l1 as [|b l1 IH]; intros lo; simpl; [done|]. apply IH. Qed.
Lemma seps_last_end lo l b : seps lo l → b ∈ l → bend b ≤ last_end lo l.
Proof.
  revert lo b. induction l as [|c l IH]; intros lo b H Hb; [set_solver|]. destruct H as (H1 & H2 & H3). simpl.
  apply elem_of_cons in Hb as [->|Hb]; [|by apply IH]. destruct l as [|d l]; [done|].
  assert (bend d ≤ last_end (bend c) (d :: l)) by (apply IH; [done|set_solver]). destruct H3 as (? & ? & _). unfold bend in *. lia.
Qed.

Section Heap.
Variable base : Z.
(** Free blocks [F] in a ring with [base], allocated blocks [A], everything
    below [top]. *)
Record heap_ok (s : ust) (F A : list block) (top : Z) : Prop := {
  ho_ring : path s base F.*1 base;
  ho_size0 : u_size s base = 0;
  ho_size : ∀ b, b ∈ F ++ A → u_size s b.1 = b.2;
  ho_seps : seps base F;
  ho_freep : freep s ∈ base :: F.*1;
  ho_alloc : ∀ b, b ∈ A → base < b.1 ∧ 0 < b.2;
  ho_apart : ∀ b c, b ∈ F → c ∈ A → disj b c;
  ho_pairs : ∀ b c A', A ≡ₚ b :: c :: A' → disj b c;
  ho_top : ∀ b, b ∈ F ++ A → bend b ≤ top;
  ho_range : 0 < base ∧ base < top ∧ top ≤ 2^31;
}.
Lemma nodes_NoDup F : seps base F → NoDup (base :: F.*1).
Proof.
  intros H. apply NoDup_cons. split.
  - intros Hb. apply list_elem_of_fmap in Hb as (b & Hb1 & Hb). destruct (seps_after _ _ _ H Hb). lia.
  - revert H. generalize base. induction F as [|b F IH]; intros lo H; [constructor|]. destruct H as (H1 & H2 & H3). simpl.
    apply NoDup_cons. split; [|by apply (IH (bend b))]. intros Hb. apply list_elem_of_fmap in Hb as (c & Hc1 & Hc).
    destruct (seps_after _ _ _ H3 Hc). unfold bend in *. lia.
Qed.

(** *** [free_find] finds the place *)

(** The test of the loop. *)
Definition stop (s : ust) (bp p : Z) : bool :=
  (p <? bp) && (bp <? u_ptr s p) || (u_ptr s p <=? p) && ((p <? bp) || (bp <? u_ptr s p)).
Lemma free_find_stop k s bp p : free_find k s bp p =
  if stop s bp p then Some p else match k with O => None | S k' => free_find k' s bp (u_ptr s p) end.
Proof. unfold stop. destruct k; cbn [free_find]; destruct (_ && _); cbn [orb]; try done; by destruct (_ && _). Qed.
(** The successor of a node in the ring. *)
Lemma ring_next s F x : path s base F base → x ∈ base :: F →
  ∃ L1 L2, base :: F = L1 ++ x :: L2 ∧ u_ptr s x = match L2 with [] => base | y :: _ => y end.
Proof.
  intros Hp Hx. apply list_elem_of_split in Hx as (L1 & L2 & E). exists L1, L2. split; [done|].
  destruct L1 as [|z L1]; simpl in E; injection E as <- ->.
  - destruct L2; [done|]. by destruct Hp.
  - apply path_app in Hp as [_ Hp]. destruct L2; [done|]. by destruct Hp.
Qed.
Lemma nodes_sorted F : seps base F → ∀ L1 x L2, base :: F.*1 = L1 ++ x :: L2 → (∀ y, y ∈ L1 → y < x) ∧ (∀ y, y ∈ L2 → x < y).
Proof.
  assert (Hge : ∀ G lo, seps lo G → ∀ y, y ∈ G.*1 → lo < y).
  { intros G lo HG y Hy. apply list_elem_of_fmap in Hy as (b & -> & Hb). by destruct (seps_after _ _ _ HG Hb). }
  generalize base. induction F as [|b F IH]; intros lo H L1 x L2 E; rewrite ?fmap_cons in E.
  - destruct L1 as [|? [|? ?]]; simplify_eq/=. split; set_solver.
  - destruct L1 as [|z L1]; cbn [app] in E; injection E as Ez E.
    + subst x L2. split; [set_solver|]. intros y Hy. by eapply (Hge (b :: F)).
    + subst z. destruct H as (H1 & H2 & H3). destruct (IH b.1 (seps_weaken (bend b) b.1 F ltac:(unfold bend; lia) H3) L1 x L2 E) as [I1 I2].
      split; [|done]. intros y Hy. apply elem_of_cons in Hy as [->|Hy]; [|by apply I1].
      assert (Hx : x ∈ b.1 :: F.*1) by (rewrite E; set_solver). apply elem_of_cons in Hx as [->|Hx]; [done|].
      pose proof (Hge F _ H3 x Hx). unfold bend in *. lia.
Qed.
Lemma ring_rotate s F q : path s base F base → q ∈ base :: F → ∃ l, path s q l q ∧ q :: l ≡ₚ base :: F.
Proof.
  intros Hp Hq. apply elem_of_cons in Hq as [->|Hq]; [by exists F|]. apply list_elem_of_split in Hq as (F1 & F2 & ->).
  apply path_app in Hp as [H1 H2]. exists (F2 ++ base :: F1). split; [by apply path_app|]. solve_Permutation.
Qed.
(** [p] is the greatest node below [bp]. *)
Record place_below (F : list block) (p bp : Z) : Prop := {
  bl_node : p ∈ base :: F.*1;
  bl_lt : p < bp;
  bl_max : ∀ z, z ∈ base :: F.*1 → z < bp → z ≤ p;
  bl_new : bp ∉ base :: F.*1;
}.
Lemma stop_iff s F p bp x : seps base F → path s base F.*1 base → place_below F p bp → x ∈ base :: F.*1 → stop s bp x = true ↔ x = p.
Proof.
  intros Hs Hp [B1 B2 B3 B4] Hx. destruct (ring_next _ _ _ Hp Hx) as (L1 & L2 & E & Hn). destruct (nodes_sorted _ Hs _ _ _ E) as [S1 S2].
  pose proof (B3 x Hx) as Bx. unfold stop. rewrite Hn. rewrite E in B1. apply elem_of_app in B1.
  assert (Hb : base ≤ x). { apply elem_of_cons in Hx as [->|Hx]; [lia|]. apply list_elem_of_fmap in Hx as (b & -> & Hb). destruct (seps_after _ _ _ Hs Hb). lia. }
  assert (Hbp : base < bp). { destruct (decide (base < bp)); [done|]. assert (base ∈ base :: F.*1) by set_solver.
    destruct B1 as [B1|B1]; [assert (p ∈ base :: F.*1) as Hp' by (rewrite E; set_solver)|assert (p ∈ base :: F.*1) as Hp' by (rewrite E; set_solver)];
      (apply elem_of_cons in Hp' as [->|Hp']; [lia|]; apply list_elem_of_fmap in Hp' as (b & -> & Hb'); destruct (seps_after _ _ _ Hs Hb'); lia). }
  destruct L2 as [|y L2].
  - rewrite (proj2 (Z.ltb_ge bp base)) by lia. rewrite (proj2 (Z.leb_le base x)) by done. rewrite andb_false_r, orb_false_r. cbn [orb andb].
    rewrite Z.ltb_lt. split; [intros Hlt; specialize (Bx Hlt); destruct B1 as [B1|B1]; [specialize (S1 _ B1); lia|set_solver]|]. by intros ->.
  - assert (Hxy : x < y) by (apply S2; set_solver). rewrite (proj2 (Z.leb_gt y x)) by done. cbn [andb]. rewrite orb_false_r, andb_true_iff, !Z.ltb_lt.
    assert (Hy : y ∈ base :: F.*1) by (rewrite E; set_solver). split.
    + intros [H1 H2]. specialize (Bx H1). destruct B1 as [B1|B1]; [specialize (S1 _ B1); lia|]. apply elem_of_cons in B1 as [->|B1]; [done|].
      apply elem_of_cons in B1 as [->|B1]; [lia|]. assert (E' : base :: F.*1 = (L1 ++ [x]) ++ y :: L2) by by rewrite <- app_assoc.
      destruct (nodes_sorted _ Hs _ _ _ E') as [_ S3]. specialize (S3 _ B1). lia.
    + intros ->. split; [done|]. destruct (Z.lt_trichotomy bp y) as [?|[->|Hlt]]; [done|done|]. specialize (B3 y Hy Hlt). lia.
Qed.
Lemma find_path s p bp l : ∀ q y k, path s q l y → (length l ≤ k)%nat → (∀ x, x ∈ q :: l → stop s bp x = true ↔ x = p) → p ∈ q :: l →
  free_find k s bp q = Some p.
Proof.
  induction l as [|z l IH]; intros q y k Hl Hlen Hst Hin; rewrite free_find_stop.
  - apply list_elem_of_singleton in Hin as ->. by rewrite (proj2 (Hst q ltac:(set_solver)) eq_refl).
  - destruct (stop s bp q) eqn:Eq; [f_equal; by apply Hst; [set_solver|]|]. destruct k as [|k]; [simpl in Hlen; lia|]. destruct Hl as [-> Hl].
    apply (IH z y k Hl); [simpl in Hlen; lia|intros x Hx; apply Hst; set_solver|]. apply elem_of_cons in Hin as [->|Hin]; [|done].
    rewrite (proj2 (Hst q ltac:(set_solver)) eq_refl) in Eq. done.
Qed.
Lemma find_below s F p bp q k : seps base F → path s base F.*1 base → place_below F p bp → q ∈ base :: F.*1 → (length F ≤ k)%nat →
  free_find k s bp q = Some p.
Proof.
  intros Hs Hp Hb Hq Hk. destruct (ring_rotate _ _ _ Hp Hq) as (l & Hl & HP).
  apply (find_path s p bp l q q); [done| |intros x Hx; apply (stop_iff s F); try done; by rewrite <- HP|rewrite HP; apply Hb].
  apply Permutation_length in HP. simpl in HP. rewrite length_fmap in HP. lia.
Qed.

(** *** [free_join] puts the block in its place *)

Lemma path_redirect s s' q b l y : path s q l y → u_ptr s' b = u_ptr s q → (∀ z, z ∈ l → u_ptr s' z = u_ptr s z) → path s' b l y.
Proof.
  destruct l as [|z l]; simpl; [congruence|]. intros [H1 H2] Hb Hf. split; [congruence|]. by eapply path_frame.
Qed.
Definition u_ring (s : ust) (N : list Z) : Prop := match N with [] => False | x :: l => path s x l x end.
Lemma ring_rot s N1 N2 : u_ring s (N1 ++ N2) → u_ring s (N2 ++ N1).
Proof.
  destruct N1 as [|x N1]; [by rewrite app_nil_r|]. destruct N2 as [|y N2]; [by rewrite app_nil_r|]. simpl. rewrite !path_app. tauto.
Qed.
(** The block [pb] before [bb], [bb] itself and the blocks after, joined. *)
Definition join_right (bb : block) (F2 : list block) : block * list block :=
  match F2 with q :: F2' => if bend bb =? q.1 then ((bb.1, bb.2 + q.2), F2') else (bb, F2) | [] => (bb, []) end.
Definition join (pb bb : block) (F2 : list block) : list block :=
  let '(r, R) := join_right bb F2 in
  if bend pb =? bb.1 then (pb.1, pb.2 + r.2) :: R else pb :: r :: R.
(** Blocks in order with room between them, possibly empty. *)
Fixpoint wsep (lo : Z) (l : list block) : Prop :=
  match l with [] => True | b :: l' => lo < b.1 ∧ 0 ≤ b.2 ∧ wsep (bend b) l' end.
Lemma wsep_seps lo l : wsep lo l ∧ Forall (λ b, 0 < b.2) l ↔ seps lo l.
Proof.
  revert lo. induction l as [|b l IH]; intros lo; simpl; [split; auto|]. rewrite Forall_cons, <- IH. split; [tauto|].
  intros (? & ? & ? & ?). split_and!; try done. lia.
Qed.
Lemma wsep_app lo l1 l2 : wsep lo (l1 ++ l2) ↔ wsep lo l1 ∧ wsep (last_end lo l1) l2.
Proof. revert lo. induction l1 as [|b l1 IH]; intros lo; simpl; [tauto|]. rewrite IH. tauto. Qed.
Lemma wsep_weaken lo lo' l : lo' ≤ lo → wsep lo l → wsep lo' l.
Proof. destruct l as [|b l]; [done|]. simpl. intros ? (? & ? & ?). split_and!; try done. lia. Qed.
Lemma join_wsep lo pb bb F2 : wsep lo (pb :: F2) → bend pb ≤ bb.1 → 0 < bb.2 → (∀ c, c ∈ F2 → bend bb ≤ c.1) → wsep lo (join pb bb F2).
Proof.
  intros (H1 & H2 & H3) Hp Hb Hc. unfold join, join_right. destruct F2 as [|q F2].
  - destruct (Z.eqb_spec (bend pb) bb.1) as [E|E]; simpl; split_and!; try done; unfold bend in *; simpl; lia.
  - destruct H3 as (Q1 & Q2 & Q3). pose proof (Hc q ltac:(set_solver)) as Hq.
    destruct (Z.eqb_spec (bend bb) q.1) as [Eq|Eq], (Z.eqb_spec (bend pb) bb.1) as [E|E]; cbn [wsep fst snd]; split_and!; try done;
      try (unfold bend in *; simpl; lia); (eapply wsep_weaken; [|exact Q3]); unfold bend in *; simpl; lia.
Qed.
Lemma join_pos pb bb F2 : 0 ≤ pb.2 → 0 < bb.2 → Forall (λ b, 0 < b.2) F2 →
  ∃ r R, join pb bb F2 = (pb.1, r) :: R ∧ pb.2 ≤ r ∧ Forall (λ b, 0 < b.2) R ∧ (bend pb ≠ bb.1 → r = pb.2).
Proof.
  intros Hp Hb H2. unfold join, join_right. destruct F2 as [|q F2].
  - destruct (Z.eqb_spec (bend pb) bb.1) as [E|E]; [by eexists _, []; split_and!; try done; simpl; lia|].
    destruct pb. eexists _, _. split_and!; try done. by constructor.
  - apply Forall_cons in H2 as [Hq H2].
    destruct (Z.eqb_spec (bend bb) q.1) as [Eq|Eq], (Z.eqb_spec (bend pb) bb.1) as [E|E]; destruct pb; eexists _, _; split_and!; try done; simpl in *;
      repeat constructor; simpl; done || lia.
Qed.
(** What is outside the parts is outside the whole. *)
Lemma join_disj pb bb F2 c d : disj pb c → disj bb c → (∀ f, f ∈ F2 → disj f c) → 0 < c.2 → 0 ≤ pb.2 → 0 < bb.2 → Forall (λ b, 0 < b.2) F2 →
  d ∈ join pb bb F2 → disj d c.
Proof.
  intros Hp Hb Hf Hc P1 P2 P3 Hd. unfold join, join_right in Hd. destruct F2 as [|q F2].
  - destruct (Z.eqb_spec (bend pb) bb.1) as [E|E]; [|set_solver]. apply list_elem_of_singleton in Hd as ->. unfold disj, bend in *. simpl. lia.
  - pose proof (Hf q ltac:(set_solver)) as Hq. apply Forall_cons in P3 as [P3 _].
    assert (Hr : ∀ f, f ∈ F2 → disj f c) by set_solver.
    destruct (Z.eqb_spec (bend bb) q.1) as [Eq|Eq], (Z.eqb_spec (bend pb) bb.1) as [E|E]; rewrite ?elem_of_cons in Hd;
      repeat (destruct Hd as [->|Hd]; [unfold disj, bend in *; simpl; lia|]); auto.
Qed.
Lemma join_top pb bb F2 top d : bend pb ≤ top → bend bb ≤ top → (∀ f, f ∈ F2 → bend f ≤ top) → d ∈ join pb bb F2 → bend d ≤ top.
Proof.
  intros Hp Hb Hf Hd. unfold join, join_right in Hd. destruct F2 as [|q F2].
  - destruct (Z.eqb_spec (bend pb) bb.1) as [E|E]; [|set_solver]. apply list_elem_of_singleton in Hd as ->. unfold bend in *. simpl. lia.
  - pose proof (Hf q ltac:(set_solver)) as Hq. assert (Hr : ∀ f, f ∈ F2 → bend f ≤ top) by set_solver.
    destruct (Z.eqb_spec (bend bb) q.1) as [Eq|Eq], (Z.eqb_spec (bend pb) bb.1) as [E|E]; rewrite ?elem_of_cons in Hd;
      repeat (destruct Hd as [->|Hd]; [unfold bend in *; simpl; lia|]); auto.
Qed.
Lemma units_id p n : 0 ≤ p + 8 * n < 2^32 → units p n = p + 8 * n.
Proof. intros H. unfold units. by apply wrap32_id. Qed.
(** The first half of [free_join]: the new block in front of what follows. *)
Definition link_right (s : ust) (bp nx : Z) : ust :=
  if units bp (u_size s bp) =? nx then set_ptr bp (u_ptr s nx) (set_size bp (wrap32 (u_size s bp + u_size s nx)) s) else set_ptr bp nx s.
Lemma link_right_ok s p bb F2 N1 y : path s p (F2.*1 ++ N1) y → bb.1 ∉ p :: F2.*1 ++ N1 → u_size s bb.1 = bb.2 → (∀ f, f ∈ F2 → u_size s f.1 = f.2) →
  (F2 = [] → ∀ z, z ∈ N1 ++ [y] → z < bb.1) → 0 ≤ bb.1 → 0 < bb.2 → bend bb < 2^32 → (∀ f, f ∈ F2 → bend f < 2^32 ∧ 0 ≤ f.1 ∧ 0 < f.2) →
  let s1 := link_right s bb.1 (u_ptr s p) in
  let '(r, R) := join_right bb F2 in
  path s1 bb.1 (R.*1 ++ N1) y ∧ u_size s1 bb.1 = r.2 ∧ r.1 = bb.1 ∧ (∀ x, x ≠ bb.1 → u_size s1 x = u_size s x) ∧
  (∀ x, x ≠ bb.1 → u_ptr s1 x = u_ptr s x) ∧ (∀ f, f ∈ R → f ∈ F2).
Proof.
  intros Hp Hb Hsz Hsf Hlast H0 Hpos Hend Hf. unfold link_right. rewrite Hsz, units_id by (unfold bend in *; lia). fold (bend bb).
  assert (Hno : (bend bb =? u_ptr s p) = false → path (set_ptr bb.1 (u_ptr s p) s) bb.1 (F2.*1 ++ N1) y).
  { intros _. eapply path_redirect; [exact Hp|apply upd_eq|]. intros z Hz. apply upd_ne. intros ->. apply Hb. by right. }
  destruct F2 as [|q F2]; unfold join_right.
  - assert (Hne : (bend bb =? u_ptr s p) = false).
    { apply Z.eqb_neq. assert (Hin : u_ptr s p ∈ N1 ++ [y]) by (destruct N1; simpl in Hp; [rewrite Hp|destruct Hp as [-> _]]; set_solver).
      specialize (Hlast eq_refl _ Hin). unfold bend. lia. }
    rewrite Hne. split_and!; try done; [by apply Hno|]. intros x Hx. by apply upd_ne.
  - simpl in Hp. destruct Hp as [Eq Hp]. rewrite Eq. destruct (Z.eqb_spec (bend bb) q.1) as [Ee|Ee].
    + destruct (Hf q ltac:(set_solver)) as (Q1 & Q2 & Q3). rewrite (Hsf q ltac:(set_solver)). split_and!; try done.
      * eapply path_redirect; [exact Hp|apply upd_eq|]. intros z Hz. apply upd_ne. intros ->. apply Hb. set_solver.
      * cbn [u_size set_ptr set_size]. rewrite upd_eq. apply wrap32_id. unfold is_u32, bend in *. simpl. lia.
      * intros x Hx. cbn [u_size set_ptr set_size]. by apply upd_ne.
      * intros x Hx. by apply upd_ne.
      * set_solver.
    + split_and!; try done; [rewrite <- Eq; apply Hno; rewrite Eq; by apply Z.eqb_neq|]. intros x Hx. by apply upd_ne.
Qed.
Lemma free_join_ok s G pb bb F2 : u_ring s (G ++ pb :: F2).*1 → NoDup (G ++ pb :: F2).*1 → bb.1 ∉ (G ++ pb :: F2).*1 →
  (∀ f, f ∈ G ++ bb :: pb :: F2 → u_size s f.1 = f.2 ∧ 0 ≤ f.1 ∧ 0 ≤ f.2 ∧ bend f < 2^32) → 0 < bb.2 → Forall (λ f, 0 < f.2) F2 →
  (∀ f, f ∈ G ++ [pb] → f.1 < bb.1) →
  let s' := free_join s bb.1 pb.1 in
  u_ring s' (G ++ join pb bb F2).*1 ∧ (∀ f, f ∈ G ++ join pb bb F2 → u_size s' f.1 = f.2) ∧ freep s' = pb.1 ∧
  (∀ x, x ≠ bb.1 → x ≠ pb.1 → u_size s' x = u_size s x).
Proof.
  intros Hr Hnd Hnew Hsz Hpos HposF Hlt. rewrite fmap_app, fmap_cons in *. apply ring_rot in Hr. cbn [app u_ring] in Hr.
  destruct (Hsz bb ltac:(set_solver)) as (B1 & B2 & B3 & B4). destruct (Hsz pb ltac:(set_solver)) as (P1 & P2 & P3 & P4).
  apply NoDup_app in Hnd as (N1 & N2 & N3). apply NoDup_cons in N3 as [N3 N4]. rewrite Forall_forall in HposF.
  pose proof (link_right_ok s pb.1 bb F2 G.*1 pb.1 Hr) as L. cbv zeta in L. destruct (join_right bb F2) as [r R] eqn:Ej.
  destruct L as (L1 & L2 & L3 & L4 & L5 & L6); try done; try lia.
  { set_solver. } { intros f Hf. apply Hsz. set_solver. }
  { intros _ z Hz. change [pb.1] with ([pb].*1) in Hz. rewrite <- fmap_app in Hz. apply list_elem_of_fmap in Hz as (f & -> & Hf). by apply Hlt. }
  { intros f Hf. destruct (Hsz f ltac:(set_solver)) as (? & ? & ? & ?). split_and!; try done. by apply HposF. }
  assert (Hbp : bb.1 ≠ pb.1) by (intros E; apply Hnew; rewrite E; set_solver).
  cbv zeta. unfold free_join, join. cbv zeta. fold (link_right s bb.1 (u_ptr s pb.1)). rewrite Ej. set (s1 := link_right s bb.1 (u_ptr s pb.1)) in *.
  rewrite (L4 pb.1) by done. rewrite P1, units_id by (unfold bend in *; lia). fold (bend pb).
  assert (Hr2 : 0 ≤ r.2 ∧ bend r < 2^32).
  { unfold join_right in Ej. destruct F2 as [|q F2']; [by injection Ej as <- _|]. destruct (Z.eqb_spec (bend bb) q.1); injection Ej as <- _; [|done].
    destruct (Hsz q ltac:(set_solver)) as (? & ? & ? & ?). unfold bend in *. simpl. lia. }
  assert (Hfr : ∀ v z, z ∈ R.*1 ++ G.*1 → u_ptr (set_ptr pb.1 v s1) z = u_ptr s1 z).
  { intros v z Hz. apply upd_ne. intros ->. apply elem_of_app in Hz as [Hz|Hz]; [|by apply (N2 pb.1 Hz); left].
    apply list_elem_of_fmap in Hz as (f & E & Hf). apply N3. rewrite E. apply list_elem_of_fmap_2. by apply L6. }
  assert (Hso : ∀ f, f ∈ G ++ R → u_size s1 f.1 = f.2 ∧ f.1 ≠ pb.1 ∧ f.1 ≠ bb.1).
  { intros f Hf. assert (Hin : f ∈ G ++ F2) by set_solver. assert (f.1 ≠ bb.1).
    { intros E. apply Hnew. rewrite <- E. apply elem_of_app in Hin as [Hin|Hin]; apply elem_of_app; [left|right; right]; by apply list_elem_of_fmap_2. }
    split; [rewrite L4 by done; apply Hsz; set_solver|]. split; [|done]. intros E. apply elem_of_app in Hin as [Hin|Hin].
    - apply (N2 f.1); [by apply list_elem_of_fmap_2|]. rewrite E. by left.
    - apply N3. rewrite <- E. by apply list_elem_of_fmap_2. }
  destruct (Z.eqb_spec (bend pb) bb.1) as [E|E]; rewrite ?fmap_app, fmap_cons.
  - split; [|split; [|split; [done|]]].
    + apply (ring_rot _ (_ :: _)). cbn [app u_ring fst]. eapply path_redirect; [exact L1|cbn [u_ptr set_freep]; apply upd_eq|]. apply Hfr.
    + intros f Hf. cbn [u_size set_freep set_ptr set_size]. apply elem_of_app in Hf as [Hf|Hf].
      * destruct (Hso f ltac:(set_solver)) as (? & ? & ?). by rewrite upd_ne.
      * apply elem_of_cons in Hf as [->|Hf]; [cbn [fst snd]; rewrite upd_eq, L2; apply wrap32_id; unfold is_u32, bend in *; simpl in *; lia|].
        destruct (Hso f ltac:(set_solver)) as (? & ? & ?). by rewrite upd_ne.
    + intros x Hx1 Hx2. cbn [u_size set_freep set_ptr set_size]. rewrite upd_ne by done. by apply L4.
  - split; [|split; [|split; [done|]]].
    + apply (ring_rot _ (_ :: _)). rewrite fmap_cons, L3. cbn [app u_ring fst path]. split; [cbn [u_ptr set_freep]; apply upd_eq|].
      eapply path_redirect; [exact L1| |apply Hfr]. cbn [u_ptr set_freep]. by apply upd_ne.
    + intros f Hf. cbn [u_size set_freep set_ptr]. apply elem_of_app in Hf as [Hf|Hf]; [by destruct (Hso f ltac:(set_solver))|].
      apply elem_of_cons in Hf as [->|Hf]; [by rewrite L4|]. apply elem_of_cons in Hf as [->|Hf]; [by rewrite L3|by destruct (Hso f ltac:(set_solver))].
    + intros x Hx1 Hx2. cbn [u_size set_freep set_ptr]. by apply L4.
Qed.

Lemma seps_cut F lo b : seps lo F → (∀ f, f ∈ F → f.1 ≠ b) → ∃ F1 F2, F = F1 ++ F2 ∧ (∀ f, f ∈ F1 → f.1 < b) ∧ (∀ f, f ∈ F2 → b < f.1).
Proof.
  revert lo. induction F as [|f F IH]; intros lo H Hb; [exists [], []; set_solver|]. destruct H as (H1 & H2 & H3).
  destruct (decide (f.1 < b)) as [Hf|Hf].
  - destruct (IH _ H3 ltac:(set_solver)) as (F1 & F2 & -> & A1 & A2). exists (f :: F1), F2. split; [done|]. split; [set_solver|done].
  - exists [], (f :: F). split; [done|]. split; [set_solver|]. intros g Hg. pose proof (Hb f ltac:(set_solver)).
    apply elem_of_cons in Hg as [->|Hg]; [lia|]. destruct (seps_after _ _ _ H3 Hg). unfold bend in *. lia.
Qed.
(** The ring with its base as a block, cut before the place of [b]. *)
Lemma cut_ring F b : seps base F → base < b → (∀ f, f ∈ F → f.1 ≠ b) →
  ∃ G pb F2, (base, 0) :: F = G ++ pb :: F2 ∧ (∀ f, f ∈ G ++ [pb] → f.1 < b) ∧ (∀ f, f ∈ F2 → b < f.1) ∧ place_below F pb.1 b ∧
    (G = [] ∧ pb = (base, 0) ∨ ∃ G', G = (base, 0) :: G' ∧ F = G' ++ pb :: F2).
Proof.
  intros Hs Hb Hne. destruct (seps_cut _ _ _ Hs Hne) as (F1 & F2 & -> & H1 & H2).
  assert (Hnew : b ∉ base :: (F1 ++ F2).*1).
  { intros Hin. apply elem_of_cons in Hin as [->|Hin]; [lia|]. apply list_elem_of_fmap in Hin as (f & -> & Hf). by apply (Hne f). }
  destruct F1 as [|pb F0 _] using rev_ind.
  - exists [], (base, 0), F2. split; [done|]. split; [set_solver|]. split; [done|]. split; [|by left]. split; [set_solver|done| |done].
    intros z Hz Hlt. apply elem_of_cons in Hz as [->|Hz]; [done|]. apply list_elem_of_fmap in Hz as (f & -> & Hf). specialize (H2 f Hf). simpl. lia.
  - exists ((base, 0) :: F0), pb, F2. rewrite <- app_assoc in *. split; [done|]. split.
    { intros f Hf. apply elem_of_cons in Hf as [->|Hf]; [done|]. by apply H1. }
    split; [done|]. split; [|right; by exists F0].
    assert (E : base :: (F0 ++ [pb] ++ F2).*1 = (base :: F0.*1) ++ pb.1 :: F2.*1) by (by rewrite !fmap_app).
    destruct (nodes_sorted _ Hs _ _ _ E) as [S1 S2]. split; [rewrite E; set_solver|apply H1; set_solver| |done].
    intros z Hz Hlt. rewrite E in Hz. apply elem_of_app in Hz as [Hz|Hz]; [specialize (S1 _ Hz); lia|].
    apply elem_of_cons in Hz as [->|Hz]; [done|]. apply list_elem_of_fmap in Hz as (f & -> & Hf). specialize (H2 f Hf). lia.
Qed.
(** The joined block is as large as the new one. *)
Lemma join_large pb bb F2 : 0 ≤ pb.2 → 0 < bb.2 → Forall (λ b, 0 < b.2) F2 → ∃ f, f ∈ join pb bb F2 ∧ bb.2 ≤ f.2 ∧ 0 < f.2.
Proof.
  intros Hp Hb H2. unfold join. assert (Hr : bb.2 ≤ (join_right bb F2).1.2).
  { unfold join_right. destruct F2 as [|q F2]; [done|]. apply Forall_cons in H2 as [Hq _]. destruct (_ =? _); simpl; lia. }
  destruct (join_right bb F2) as [r R]. simpl in Hr. destruct (_ =? _); [eexists; split; [by left|]; simpl; lia|].
  exists r. split; [set_solver|]. lia.
Qed.
Lemma join_length pb bb F2 : (length (join pb bb F2) ≤ S (S (length F2)))%nat.
Proof. unfold join, join_right. destruct F2 as [|q F2]; repeat destruct (_ =? _); simpl; lia. Qed.
Lemma free_join_sbrks s b p : sbrks (free_join s b p) = sbrks s.
Proof. unfold free_join. repeat destruct (_ =? _); done. Qed.
Lemma disj_sym b c : disj b c → disj c b.
Proof. unfold disj. tauto. Qed.
(** Where a block [bb] outside the free ones belongs. *)
Record spot (F : list block) (bb : block) (G : list block) (pb : block) (F2 : list block) : Prop := {
  sp_eq : (base, 0) :: F = G ++ pb :: F2;
  sp_lt : ∀ f, f ∈ G ++ [pb] → f.1 < bb.1;
  sp_gt : ∀ f, f ∈ F2 → bend bb ≤ f.1;
  sp_below : place_below F pb.1 bb.1;
  sp_in : ∀ f, f ∈ G ++ pb :: F2 → f = (base, 0) ∨ f ∈ F;
  sp_pb : 0 ≤ pb.2 ∧ bend pb ≤ bb.1;
  sp_pos : Forall (λ f, 0 < f.2) F2;
  sp_case : G = [] ∧ pb = (base, 0) ∨ ∃ G', G = (base, 0) :: G' ∧ F = G' ++ pb :: F2;
}.
Lemma find_spot F bb : seps base F → base < bb.1 → 0 < bb.2 → (∀ f, f ∈ F → disj f bb) → ∃ G pb F2, spot F bb G pb F2.
Proof.
  intros Sep Hb1 Hb2 Hdj. assert (Hne : ∀ f, f ∈ F → f.1 ≠ bb.1).
  { intros f Hf E. destruct (seps_after _ _ _ Sep Hf). specialize (Hdj f Hf). unfold disj, bend in Hdj. lia. }
  destruct (cut_ring F bb.1 Sep Hb1 Hne) as (G & pb & F2 & EB & H1 & H2 & Hbl & HG). exists G, pb, F2.
  assert (HB : ∀ f, f ∈ G ++ pb :: F2 → f = (base, 0) ∨ f ∈ F) by (intros f Hf; rewrite <- EB in Hf; set_solver).
  assert (HF2 : ∀ f, f ∈ F2 → f ∈ F).
  { intros f Hf. destruct (HB f ltac:(set_solver)) as [->|]; [specialize (H2 _ Hf); simpl in H2; lia|done]. }
  split; try done.
  - intros f Hf. specialize (Hdj f (HF2 f Hf)). specialize (H2 f Hf). destruct (seps_after _ _ _ Sep (HF2 f Hf)). unfold disj, bend in *. lia.
  - destruct (HB pb ltac:(set_solver)) as [->|HpF]; [unfold bend; simpl; lia|]. destruct (seps_after _ _ _ Sep HpF). split; [lia|].
    specialize (Hdj pb HpF). specialize (H1 pb ltac:(set_solver)). unfold disj, bend in *. lia.
  - apply Forall_forall. intros f Hf. by destruct (seps_after _ _ _ Sep (HF2 f Hf)).
Qed.
(** The free blocks with [bb] joined. *)
Lemma spot_joined F bb G pb F2 : seps base F → base < bb.1 → 0 < bb.2 → spot F bb G pb F2 →
  ∃ F', (base, 0) :: F' = G ++ join pb bb F2 ∧ seps base F' ∧ (length F' ≤ S (length F))%nat ∧ pb.1 ∈ base :: F'.*1 ∧ (∃ f, f ∈ F' ∧ bb.2 ≤ f.2).
Proof.
  intros Sep Hb1 Hb2 [EB H1 H2 Hbl HB Hpb HposF HG]. destruct (join_pos pb bb F2 (proj1 Hpb) Hb2 HposF) as (r & R & EJ & Hr & HR & Hr').
  assert (∃ F', (base, 0) :: F' = G ++ join pb bb F2) as [F' EF].
  { destruct HG as [[-> ->]|(G' & -> & _)]; [|by exists (G' ++ join pb bb F2)]. exists R. rewrite EJ. simpl in *. rewrite Hr'; [done|].
    unfold bend. simpl. lia. }
  exists F'. split; [done|]. split; [|split; [|split]].
  - assert (HwB : wsep (base - 1) ((base, 0) :: F')).
    { rewrite EF. apply wsep_app. assert (HwF : wsep (base - 1) (G ++ pb :: F2)).
      { rewrite <- EB. split; [simpl; lia|]. split; [done|]. apply wsep_seps. unfold bend. simpl. by rewrite Z.add_0_r. }
      apply wsep_app in HwF as [W1 W2]. split; [done|]. by apply join_wsep; [|apply Hpb| |]. }
    apply wsep_seps. destruct HwB as (_ & _ & HwB). unfold bend in HwB. simpl in HwB. rewrite Z.add_0_r in HwB. split; [done|].
    destruct HG as [[-> Epb]|(G' & -> & EFF)]; cbn [app] in EF.
    + rewrite EJ in EF. assert (F' = R) as -> by congruence. done.
    + assert (F' = G' ++ join pb bb F2) as -> by congruence. apply Forall_app.
      split; [apply Forall_forall; intros f Hf; apply (seps_after base F); [done|rewrite EFF; set_solver]|].
      rewrite EJ. constructor; [|done]. simpl. pose proof (seps_after _ _ pb Sep ltac:(rewrite EFF; set_solver)). lia.
  - pose proof (join_length pb bb F2). apply (f_equal length) in EF, EB. rewrite !length_app in *. simpl in *. lia.
  - change (base :: F'.*1) with (((base, 0) :: F').*1). rewrite EF, EJ. apply list_elem_of_fmap. exists (pb.1, r). split; [done|]. set_solver.
  - destruct (join_large pb bb F2 (proj1 Hpb) Hb2 HposF) as (f & Hf & Hf1 & Hf2). exists f. split; [|done].
    assert (Hf' : f ∈ (base, 0) :: F') by (rewrite EF; set_solver). apply elem_of_cons in Hf' as [->|]; [simpl in Hf2; lia|done].
Qed.
(** [free_join] at the spot. *)
Lemma spot_ring s F A bb G pb F2 top : heap_ok s F A top → bb ∈ A → spot F bb G pb F2 →
  let s' := free_join s bb.1 pb.1 in
  u_ring s' (G ++ join pb bb F2).*1 ∧ (∀ f, f ∈ G ++ join pb bb F2 → u_size s' f.1 = f.2) ∧ freep s' = pb.1 ∧
  (∀ x, x ≠ bb.1 → x ≠ pb.1 → u_size s' x = u_size s x).
Proof.
  intros [Ring Sz0 Sz Sep Fp Al Ap Pr Top Rg] Hin [EB H1 H2 Hbl HB Hpb HposF HG]. destruct (Al bb Hin) as [Hb1 Hb2].
  assert (EN : (G ++ pb :: F2).*1 = base :: F.*1) by (by rewrite <- EB). pose proof (Top bb ltac:(set_solver)) as Hbt.
  apply free_join_ok; try done.
  - by rewrite EN.
  - rewrite EN. by apply nodes_NoDup.
  - rewrite EN. apply Hbl.
  - intros f Hf. assert (f = bb ∨ f = (base, 0) ∨ f ∈ F) as [->|[->|HfF]].
    { apply elem_of_app in Hf as [Hf|Hf]; [right; apply HB; set_solver|]. apply elem_of_cons in Hf as [->|Hf]; [by left|right; apply HB; set_solver]. }
    + split; [apply Sz; set_solver|]. lia.
    + split; [done|]. unfold bend. simpl. lia.
    + destruct (seps_after _ _ _ Sep HfF). pose proof (Top f ltac:(set_solver)). split; [apply Sz; set_solver|]. lia.
Qed.
Lemma perm_head {B} (x : B) l : x ∈ l → ∃ l', l ≡ₚ x :: l'.
Proof. intros Hx. apply list_elem_of_split in Hx as (l1 & l2 & ->). exists (l1 ++ l2). solve_Permutation. Qed.
Lemma free_ok s F A1 bb A2 top k : heap_ok s F (A1 ++ bb :: A2) top → (length F ≤ k)%nat →
  ∃ s' F', free k (bb.1 + 8) s = Some s' ∧ heap_ok s' F' (A1 ++ A2) top ∧ (length F' ≤ S (length F))%nat ∧ (∃ f, f ∈ F' ∧ bb.2 ≤ f.2) ∧
    sbrks s' = sbrks s.
Proof.
  intros Hok Hk. pose proof Hok as [Ring Sz0 Sz Sep Fp Al Ap Pr Top Rg]. destruct (Al bb ltac:(set_solver +)) as [Hb1 Hb2].
  pose proof (Top bb ltac:(set_solver +)) as Hbt. destruct (find_spot F bb Sep Hb1 Hb2) as (G & pb & F2 & Hsp); [intros f Hf; apply Ap; set_solver|].
  destruct (spot_joined F bb G pb F2 Sep Hb1 Hb2 Hsp) as (F' & EF & Sep' & Hlen & Hfp & Hlarge).
  destruct (spot_ring s F _ bb G pb F2 top Hok ltac:(set_solver +) Hsp) as (J1 & J2 & J3 & J4). destruct Hsp as [EB H1 H2 Hbl HB Hpb HposF HG].
  exists (free_join s bb.1 pb.1), F'. unfold free. assert (Eu : units (bb.1 + 8) (-1) = bb.1) by (rewrite units_id; unfold bend in *; lia). rewrite Eu.
  rewrite (find_below s F pb.1 bb.1 (freep s) k Sep Ring Hbl Fp Hk). split; [done|]. split; [|split; [done|split; [done|apply free_join_sbrks]]].
  set (s' := free_join s bb.1 pb.1) in *.
  assert (HAr : ∀ c, c ∈ A1 ++ A2 → base < c.1 ∧ 0 < c.2 ∧ disj bb c ∧ (∀ f, f ∈ G ++ pb :: F2 → disj f c)).
  { intros c Hc. destruct (Al c ltac:(set_solver + Hc)). split; [done|]. split; [done|]. split.
    - destruct (perm_head _ _ Hc) as [A' HA']. apply (Pr _ _ A'). rewrite <- HA'. solve_Permutation.
    - intros f Hf. destruct (HB f Hf) as [->|HfF]; [left; unfold bend; simpl; lia|]. apply Ap; [done|set_solver + Hc]. }
  assert (Hin' : ∀ b, b ∈ F' → b ∈ G ++ join pb bb F2) by (intros b Hb; rewrite <- EF; by right).
  split; try done.
  - change (u_ring s' ((base, 0) :: F').*1). by rewrite EF.
  - apply (J2 (base, 0)). rewrite <- EF. by left.
  - intros b Hb. apply elem_of_app in Hb as [Hb|Hb]; [apply J2; auto|]. destruct (HAr b Hb) as (A0 & A3 & A4 & A5).
    rewrite J4; [apply Sz; set_solver + Hb|intros E; unfold disj, bend in A4; lia|]. intros E. specialize (A5 pb ltac:(set_solver +)).
    unfold disj, bend in A5. destruct (HB pb ltac:(set_solver +)) as [->|HpF]; [simpl in E; lia|]. destruct (seps_after _ _ _ Sep HpF). lia.
  - intros b Hb. by destruct (HAr b Hb) as (? & ? & _).
  - intros b c Hb Hc. destruct (HAr c Hc) as (A0 & A3 & A4 & A5). apply Hin', elem_of_app in Hb as [Hb|Hb]; [apply A5; set_solver + Hb|].
    eapply (join_disj pb bb F2); try done; [apply A5; set_solver +|intros f Hf; apply A5; set_solver + Hf|apply Hpb].
  - intros b c A' HA. apply (Pr _ _ (bb :: A')). rewrite <- Permutation_middle. rewrite HA. solve_Permutation.
  - intros b Hb. apply elem_of_app in Hb as [Hb|Hb]; [|apply Top; set_solver + Hb]. assert (HtB : ∀ f, f ∈ G ++ pb :: F2 → bend f ≤ top).
    { intros f Hf. destruct (HB f Hf) as [->|HfF]; [unfold bend; simpl; lia|]. apply Top. set_solver + HfF. }
    apply Hin', elem_of_app in Hb as [Hb|Hb]; [apply HtB; set_solver + Hb|].
    eapply join_top; [..|exact Hb]; [apply HtB; set_solver +|done|intros f Hf; apply HtB; set_solver + Hf].
Qed.

(** *** Taking a block *)

(** The block after a node. *)
Lemma next_block s F prevp : path s base F.*1 base → prevp ∈ base :: F.*1 → u_ptr s prevp ≠ base →
  ∃ B1 pb f B2, (base, 0) :: F = B1 ++ pb :: f :: B2 ∧ pb.1 = prevp ∧ f.1 = u_ptr s prevp ∧ f ∈ F.
Proof.
  intros Hp Hin Hne. destruct (ring_next _ _ _ Hp Hin) as (L1 & L2 & E & Hn). change (base :: F.*1) with (((base, 0) :: F).*1) in E.
  apply fmap_app_inv in E as (B1 & B2 & E1 & E2 & E). destruct B2 as [|pb B2]; [done|]. injection E2 as E2 E3.
  destruct L2 as [|y L2]; [congruence|]. destruct B2 as [|f B2]; [done|]. injection E3 as E3 E4. exists B1, pb, f, B2.
  split; [done|]. split; [done|]. split; [congruence|]. destruct B1 as [|b B1]; simpl in E; injection E as _ ->; set_solver.
Qed.
Lemma cut_tail F B1 pb B2 : (base, 0) :: F = B1 ++ pb :: B2 → ∀ l, ∃ F', (base, 0) :: F' = B1 ++ pb :: l ∧ pb.1 ∈ base :: F'.*1 ∧
  (∀ b, b ∈ F' → b ∈ F ∨ b ∈ l) ∧ (∀ b, b ∈ l → b ∈ F').
Proof.
  intros E l. destruct B1 as [|b B1]; simpl in E; injection E as <- ->.
  - exists l. split; [done|]. split; [set_solver|]. split; [set_solver|done].
  - exists (B1 ++ pb :: l). split; [done|]. split; [rewrite fmap_app, fmap_cons; set_solver|]. split; set_solver.
Qed.
Lemma wsep_disj lo B b c l1 l2 : wsep lo B → B = l1 ++ b :: l2 → c ∈ l1 ++ l2 → disj c b.
Proof.
  assert (Hlo : ∀ l lo x, wsep lo l → x ∈ l → lo < x.1).
  { induction l as [|y l IH]; intros lo' x H Hx; [set_solver|]. destruct H as (H1 & H2 & H3). apply elem_of_cons in Hx as [->|Hx]; [done|].
    specialize (IH _ _ H3 Hx). unfold bend in *. lia. }
  intros H -> Hc. revert lo H Hc. induction l1 as [|d l1 IH]; intros lo (H1 & H2 & H3) Hc; simpl in *.
  - right. specialize (Hlo _ _ _ H3 Hc). lia.
  - apply elem_of_cons in Hc as [->|Hc]; [|by eapply IH]. left. specialize (Hlo _ _ b H3 ltac:(set_solver)). lia.
Qed.
Lemma pairs_add (A : list block) a : (∀ b c A', A ≡ₚ b :: c :: A' → disj b c) → (∀ c, c ∈ A → disj a c) → ∀ b c A', a :: A ≡ₚ b :: c :: A' → disj b c.
Proof.
  intros Hp Ha b c A' HP. assert (Hin : a ∈ b :: c :: A') by (rewrite <- HP; by left). apply elem_of_cons in Hin as [->|Hin].
  { apply Permutation_cons_inv in HP. apply Ha. rewrite HP. by left. }
  apply elem_of_cons in Hin as [->|Hin].
  { rewrite (Permutation_swap c b A') in HP. apply Permutation_cons_inv in HP. apply disj_sym, Ha. rewrite HP. by left. }
  destruct (perm_head _ _ Hin) as [A2 HA2]. apply (Hp b c A2). apply (Permutation_cons_inv (a := a)). rewrite HP, HA2. solve_Permutation.
Qed.
Lemma tail_in F B1 pb f B2 x : (base, 0) :: F = B1 ++ pb :: f :: B2 → x ∈ B2 → x ∈ F.
Proof. destruct B1 as [|y B1]; simpl; intros [= _ ->]; set_solver. Qed.
(** Taking [n] units from the end of the free block [f]. *)
Lemma carve s s' F A top B1 pb f B2 n B2' : heap_ok s F A top → (base, 0) :: F = B1 ++ pb :: f :: B2 → f ∈ F → 0 < n ≤ f.2 →
  let a := (f.1 + 8 * (f.2 - n), n) in
  B2' = (if f.2 =? n then B2 else (f.1, f.2 - n) :: B2) →
  u_ring s' (B1 ++ pb :: B2').*1 → (∀ b, b ∈ B1 ++ pb :: B2' → u_size s' b.1 = b.2) → u_size s' a.1 = n →
  (∀ b, b ∈ A → u_size s' b.1 = u_size s b.1) → freep s' = pb.1 →
  ∃ F', heap_ok s' F' (a :: A) top ∧ (length F' ≤ length F)%nat.
Proof.
  intros [Ring Sz0 Sz Sep Fp Al Ap Pr Top Rg] EB HfF Hn a EB2 Ring' Sz' Sza SzA Fp'. subst B2'. set (B2' := if f.2 =? n then _ else _) in *.
  destruct (cut_tail F B1 pb (f :: B2) EB B2') as (F' & EF & Hpb & HF'1 & HF'2). exists F'.
  assert (HwB : wsep (base - 1) (B1 ++ pb :: f :: B2)).
  { rewrite <- EB. split; [simpl; lia|]. split; [done|]. apply wsep_seps. unfold bend. simpl. by rewrite Z.add_0_r. }
  assert (Hfd : ∀ c, c ∈ B1 ++ pb :: B2 → disj c f).
  { intros c Hc. eapply (wsep_disj _ _ f c (B1 ++ [pb]) B2 HwB); [by rewrite <- app_assoc|]. rewrite <- app_assoc. done. }
  assert (HB2 : ∀ b, b ∈ B2' → b ∈ B2 ∨ b = (f.1, f.2 - n) ∧ f.2 ≠ n).
  { intros b Hb. unfold B2' in Hb. destruct (Z.eqb_spec f.2 n); [by left|]. apply elem_of_cons in Hb as [->|Hb]; [by right|by left]. }
  assert (HFb : ∀ b, b ∈ F' → b ∈ F ∧ b ∈ B1 ++ pb :: B2 ∨ b = (f.1, f.2 - n) ∧ f.2 ≠ n).
  { intros b Hb. assert (Hb' : b ∈ B1 ++ pb :: B2') by (rewrite <- EF; by right).
    assert (HBF : ∀ x, x ∈ B2 → x ∈ F) by (intros x; by apply (tail_in F B1 pb f)).
    destruct (HF'1 b Hb) as [HbF|Hb2]; [|destruct (HB2 b Hb2); [left; split; [by apply HBF|set_solver]|by right]].
    apply elem_of_app in Hb' as [Hb'|Hb']; [set_solver|]. apply elem_of_cons in Hb' as [->|Hb']; [set_solver|]. destruct (HB2 b Hb'); set_solver. }
  destruct (seps_after _ _ _ Sep HfF) as [Hf1 Hf2]. pose proof (Top f ltac:(set_solver)) as Hft.
  assert (HFa : ∀ b, b ∈ F' → disj b a).
  { intros b Hb. destruct (HFb b Hb) as [[_ Hin]|[-> _]]; [specialize (Hfd b Hin)|]; unfold disj, bend, a in *; simpl in *; lia. }
  assert (HAa : ∀ c, c ∈ A → disj a c) by (intros c Hc; specialize (Ap f c HfF Hc); unfold disj, bend, a in *; simpl in *; lia).
  split; [split|]; try done.
  - change (u_ring s' ((base, 0) :: F').*1). by rewrite EF.
  - apply (Sz' (base, 0)). rewrite <- EF. by left.
  - intros b Hb. apply elem_of_app in Hb as [Hb|Hb]; [apply Sz'; rewrite <- EF; by right|].
    apply elem_of_cons in Hb as [->|Hb]; [done|]. rewrite SzA by done. apply Sz. set_solver.
  - apply wsep_seps. split.
    + assert (W : wsep (base - 1) ((base, 0) :: F')).
      { rewrite EF. apply wsep_app in HwB as [W1 (W2 & W3 & W4 & W5 & W6)]. apply wsep_app. split; [done|]. split; [done|]. split; [done|].
        unfold B2'. destruct (f.2 =? n); [eapply wsep_weaken; [|exact W6]; unfold bend in *; lia|]. split; [done|]. split; [simpl; lia|].
        eapply wsep_weaken; [|exact W6]. unfold bend. simpl. lia. }
      destruct W as (_ & _ & W). unfold bend in W. simpl in W. by rewrite Z.add_0_r in W.
    + apply Forall_forall. intros b Hb. destruct (HFb b Hb) as [[HbF _]|[-> Hne]]; [by destruct (seps_after _ _ _ Sep HbF)|simpl; lia].
  - by rewrite Fp'.
  - intros b Hb. apply elem_of_cons in Hb as [->|Hb]; [unfold a; simpl; lia|by apply Al].
  - intros b c Hb Hc. apply elem_of_cons in Hc as [->|Hc]; [by apply HFa|]. destruct (HFb b Hb) as [[HbF _]|[-> _]]; [by apply Ap|].
    specialize (Ap f c HfF Hc). unfold disj, bend in *. simpl. lia.
  - by apply pairs_add.
  - intros b Hb. apply elem_of_app in Hb as [Hb|Hb].
    + destruct (HFb b Hb) as [[HbF _]|[-> _]]; [apply Top; set_solver|]. unfold bend in *. simpl. lia.
    + apply elem_of_cons in Hb as [->|Hb]; [unfold bend, a in *; simpl; lia|]. apply Top. set_solver.
  - apply (f_equal length) in EF, EB. rewrite !length_app in *. simpl in *. unfold B2' in EF. destruct (_ =? _); simpl in EF; lia.
Qed.

(** *** [malloc] *)

Variable sbrk : nat → Z → Z.
(** What [malloc] hands out: the payload of a new block of [n] units. *)
Record took (F A : list block) (top n : Z) (s : ust) (p : Z) (s' : ust) (F' : list block) : Prop := {
  tk_ok : heap_ok s' F' ((p - 8, n) :: A) top;
  tk_len : (length F' ≤ length F)%nat;
  tk_sbrks : sbrks s' = sbrks s;
}.
Lemma ring_blocks s F B1 pb f B2 : path s base F.*1 base → (base, 0) :: F = B1 ++ pb :: f :: B2 → seps base F →
  path s pb.1 (f.1 :: B2.*1 ++ B1.*1) pb.1 ∧ pb.1 ∉ f.1 :: B2.*1 ++ B1.*1.
Proof.
  intros Hp E Hs. assert (EN : base :: F.*1 = (B1 ++ pb :: f :: B2).*1) by (by rewrite <- E). split.
  - assert (Hr : u_ring s (B1 ++ pb :: f :: B2).*1) by (by rewrite <- EN). rewrite fmap_app in Hr. by apply ring_rot in Hr.
  - pose proof (nodes_NoDup F Hs) as Hn. rewrite EN, fmap_app, !fmap_cons in Hn. rewrite (Permutation_app_comm B1.*1) in Hn.
    cbn [app] in Hn. by apply NoDup_cons in Hn as [Hn _].
Qed.
(** A whole block leaves the ring, or the end of one is cut off. *)
Definition unlink (s : ust) (prevp : Z) : ust := set_freep prevp (set_ptr prevp (u_ptr s (u_ptr s prevp)) s).
Definition cut (s : ust) (prevp p a n : Z) : ust := set_freep prevp (set_size a n (set_size p (u_size s p - n) s)).
Lemma unlink_ok s F A top B1 pb f B2 : heap_ok s F A top → (base, 0) :: F = B1 ++ pb :: f :: B2 → f ∈ F →
  u_ptr s pb.1 = f.1 → ∃ F', took F A top f.2 s (f.1 + 8) (unlink s pb.1) F'.
Proof.
  intros Hok EB HfF Hnx. pose proof Hok as [Ring Sz0 Sz Sep Fp Al Ap Pr Top Rg]. destruct (seps_after _ _ _ Sep HfF) as [Hf1 Hf2].
  destruct (ring_blocks _ _ _ _ _ _ Ring EB Sep) as [[_ Hp] Hnin].
  assert (HB : ∀ b, b ∈ B1 ++ pb :: B2 → u_size s b.1 = b.2).
  { intros b Hb. assert (Hb' : b ∈ (base, 0) :: F) by (rewrite EB; set_solver). apply elem_of_cons in Hb' as [->|Hb']; [done|]. apply Sz. set_solver. }
  destruct (carve s (unlink s pb.1) F A top B1 pb f B2 f.2 B2 Hok EB HfF) as (F' & Hok' & Hlen).
  { lia. } { by rewrite Z.eqb_refl. }
  { rewrite fmap_app, fmap_cons. apply (ring_rot _ (_ :: _)). cbn [app u_ring]. eapply path_redirect; [exact Hp|cbn; rewrite Hnx; apply upd_eq|].
    intros z Hz. apply upd_ne. intros ->. apply Hnin. by right. }
  { exact HB. } { cbn. rewrite Z.sub_diag, Z.mul_0_r, Z.add_0_r. apply Sz. set_solver. } { done. } { done. }
  exists F'. split; try done. replace (f.1 + 8 - 8) with (f.1 + 8 * (f.2 - f.2)) by lia. done.
Qed.
Lemma cut_ok s F A top B1 pb f B2 n : heap_ok s F A top → (base, 0) :: F = B1 ++ pb :: f :: B2 → f ∈ F → 0 < n < f.2 →
  let a := f.1 + 8 * (f.2 - n) in ∃ F', took F A top n s (a + 8) (cut s pb.1 f.1 a n) F'.
Proof.
  intros Hok EB HfF Hn a. pose proof Hok as [Ring Sz0 Sz Sep Fp Al Ap Pr Top Rg]. destruct (seps_after _ _ _ Sep HfF) as [Hf1 Hf2].
  destruct (ring_blocks _ _ _ _ _ _ Ring EB Sep) as [Hp Hnin].
  assert (HwB : wsep (base - 1) (B1 ++ pb :: f :: B2)).
  { rewrite <- EB. split; [simpl; lia|]. split; [done|]. apply wsep_seps. unfold bend. simpl. by rewrite Z.add_0_r. }
  assert (HB : ∀ b, b ∈ B1 ++ pb :: B2 → u_size s b.1 = b.2 ∧ 0 ≤ b.2 ∧ disj b f).
  { intros b Hb. assert (Hb' : b ∈ (base, 0) :: F) by (rewrite EB; set_solver). split; [|split].
    - apply elem_of_cons in Hb' as [->|Hb']; [done|]. apply Sz. set_solver.
    - apply elem_of_cons in Hb' as [->|Hb']; [done|]. destruct (seps_after _ _ _ Sep Hb'). lia.
    - eapply (wsep_disj _ _ f b (B1 ++ [pb]) B2 HwB); [by rewrite <- app_assoc|]. by rewrite <- app_assoc. }
  assert (EN : base :: F.*1 = (B1 ++ [pb]).*1 ++ f.1 :: B2.*1).
  { change (base :: F.*1) with (((base, 0) :: F).*1). by rewrite EB, !fmap_app, <- app_assoc. }
  destruct (nodes_sorted F Sep _ _ _ EN) as [S1 S2].
  assert (Hne : ∀ b, b ∈ B1 ++ pb :: B2 → b.1 ≠ f.1).
  { intros b Hb. assert (b ∈ B1 ++ [pb] ∨ b ∈ B2) as [Hb'|Hb'] by set_solver; apply (list_elem_of_fmap_2 fst) in Hb'; [specialize (S1 _ Hb')|specialize (S2 _ Hb')]; lia. }
  destruct (carve s (cut s pb.1 f.1 a n) F A top B1 pb f B2 n ((f.1, f.2 - n) :: B2) Hok EB HfF) as (F' & Hok' & Hlen).
  { lia. } { by rewrite (proj2 (Z.eqb_neq f.2 n)) by lia. }
  { assert (EN' : (B1 ++ pb :: (f.1, f.2 - n) :: B2).*1 = base :: F.*1) by (by rewrite EN, !fmap_app, <- app_assoc).
    rewrite EN'. cbn [u_ring]. eapply path_frame; [|exact Ring]. done. }
  { intros b Hb. assert (b = (f.1, f.2 - n) ∨ b ∈ B1 ++ pb :: B2) as [->|Hb'] by set_solver; cbn.
    - rewrite upd_ne, upd_eq by (unfold a; lia). f_equal. apply Sz. set_solver.
    - destruct (HB b Hb') as (? & ? & Hd). specialize (Hne b Hb'). rewrite !upd_ne; [done|done|]. intros E. unfold disj, bend, a in *. lia. }
  { cbn. apply upd_eq. }
  { intros c Hc. destruct (Al c Hc). specialize (Ap f c HfF Hc). cbn. rewrite !upd_ne; [done| |]; intros E; unfold disj, bend, a in *; lia. }
  { done. }
  exists F'. split; try done. by replace (a + 8 - 8) with a by lia.
Qed.
(** A block that is large enough is taken. *)
Lemma take_ok s F A top prevp n : heap_ok s F A top → prevp ∈ base :: F.*1 → 0 < n → n ≤ u_size s (u_ptr s prevp) →
  ∃ p s' F', (∀ k, malloc_loop sbrk k n prevp (u_ptr s prevp) s = Some (p, s')) ∧ took F A top n s p s' F'.
Proof.
  intros Hok Hin Hn Hsz. pose proof Hok as [Ring Sz0 Sz Sep Fp Al Ap Pr Top Rg].
  destruct (next_block s F prevp Ring Hin) as (B1 & pb & f & B2 & EB & Epb & Ef & HfF); [intros E; rewrite E in Hsz; lia|].
  destruct (seps_after _ _ _ Sep HfF) as [Hf1 Hf2]. pose proof (Top f ltac:(set_solver)) as Hft. pose proof (Sz f ltac:(set_solver)) as Hfs.
  subst prevp. rewrite <- Ef in *. rewrite Hfs in Hsz. destruct (Z.eqb_spec f.2 n) as [E|E].
  - subst n. destruct (unlink_ok s F A top B1 pb f B2 Hok EB HfF (eq_sym Ef)) as [F' HF']. exists (f.1 + 8), (unlink s pb.1), F'. split; [|done].
    intros k. unfold unlink. destruct k; cbn [malloc_loop]; rewrite Hfs, Z.leb_refl, Z.eqb_refl, <- Ef, units_id by (unfold bend in *; lia); done.
  - destruct (cut_ok s F A top B1 pb f B2 n Hok EB HfF ltac:(lia)) as [F' HF']. eexists _, _, F'. split; [|exact HF'].
    intros k. assert (Es : u_size (set_size f.1 (f.2 - n) s) f.1 = f.2 - n) by apply upd_eq.
    destruct k; cbn [malloc_loop]; rewrite Hfs, (proj2 (Z.leb_le n f.2)), (proj2 (Z.eqb_neq f.2 n)) by lia; cbv zeta; rewrite Es, (units_id f.1) by (unfold bend in *; lia);
      rewrite units_id by (unfold bend in *; lia); unfold cut; rewrite Hfs; done.
Qed.
(** The search from [freep] around the ring: a block is taken, or all are too
    small and [morecore] is called. *)
Lemma search_ok s F A top n : heap_ok s F A top → 0 < n → ∀ l prevp, path s prevp l (freep s) → prevp :: l ⊆ base :: F.*1 → freep s ∉ l →
  (∃ p s' F', (∀ k, (length l ≤ k)%nat → malloc_loop sbrk k n prevp (u_ptr s prevp) s = Some (p, s')) ∧ took F A top n s p s' F') ∨
  (∀ x, x ∈ l ++ [freep s] → u_size s x < n) ∧
  (∀ k, malloc_loop sbrk (length l + S k) n prevp (u_ptr s prevp) s =
     r ← morecore sbrk (S k) n s; if r.1 =? 0 then Some (0, r.2) else malloc_loop sbrk k n r.1 (u_ptr r.2 r.1) r.2).
Proof.
  intros Hok Hn. induction l as [|z l IH]; intros prevp Hp Hsub Hnin.
  all: destruct (decide (n ≤ u_size s (u_ptr s prevp))) as [Hsz|Hsz];
    [left; destruct (take_ok s F A top prevp n Hok ltac:(set_solver) Hn Hsz) as (p & s' & F' & E & Ht); by exists p, s', F'|].
  - right. simpl in Hp. split; [intros x Hx; apply list_elem_of_singleton in Hx as ->; rewrite <- Hp; lia|].
    intros k. cbn [length Nat.add malloc_loop]. rewrite (proj2 (Z.leb_gt n _)) by lia. by rewrite Hp, Z.eqb_refl.
  - destruct Hp as [Ez Hp]. assert (Hne : (z =? freep s) = false) by (apply Z.eqb_neq; intros ->; set_solver).
    assert (Hstep : ∀ k, malloc_loop sbrk (S k) n prevp (u_ptr s prevp) s = malloc_loop sbrk k n z (u_ptr s z) s).
    { intros k. cbn [malloc_loop]. rewrite (proj2 (Z.leb_gt n _)) by lia. by rewrite Ez, Hne. }
    destruct (IH z Hp ltac:(set_solver) ltac:(set_solver)) as [(p & s' & F' & E & Ht)|[H1 H2]].
    + left. exists p, s', F'. split; [|done]. intros k Hk. destruct k as [|k]; [simpl in Hk; lia|]. rewrite Hstep. apply E. simpl in Hk. lia.
    + right. split; [|intros k; cbn [length Nat.add]; by rewrite Hstep].
      intros x Hx. apply elem_of_cons in Hx as [->|Hx]; [rewrite Ez in Hsz; lia|by apply H1].
Qed.


Lemma heap_ok_top s F A top top' : heap_ok s F A top → top ≤ top' ≤ 2^31 → heap_ok s F A top'.
Proof. intros [] H. split; try done; [|lia]. intros b Hb. specialize (ho_top0 b Hb). lia. Qed.
Definition count_sbrk (s : ust) : ust := Ust (u_ptr s) (u_size s) (freep s) (S (sbrks s)).
Lemma heap_ok_count s F A top : heap_ok s F A top → heap_ok (count_sbrk s) F A top.
Proof. intros []. split; try done. eapply path_frame; [|exact ho_ring0]. done. Qed.
(** Memory above the heap becomes a block of it. *)
Lemma heap_ok_grow s F A top b top' : heap_ok s F A top → top ≤ b.1 → 0 < b.2 → bend b ≤ top' ≤ 2^31 →
  heap_ok (set_size b.1 b.2 s) F (A ++ [b]) top'.
Proof.
  intros [Ring Sz0 Sz Sep Fp Al Ap Pr Top Rg] Hb Hb2 Ht.
  assert (Hold : ∀ c, c ∈ F ++ A → c.1 ≠ b.1 ∧ disj c b).
  { intros c Hc. pose proof (Top c Hc) as Htc. assert (0 < c.2) by (apply elem_of_app in Hc as [Hc|Hc]; [by destruct (seps_after _ _ _ Sep Hc)|by destruct (Al c Hc)]).
    unfold disj, bend in *. lia. }
  split; try done.
  - eapply path_frame; [|exact Ring]. done.
  - cbn. rewrite upd_ne by lia. done.
  - intros c Hc. rewrite app_assoc in Hc. apply elem_of_app in Hc as [Hc|Hc]; cbn; [rewrite upd_ne by apply Hold, Hc; by apply Sz|].
    apply list_elem_of_singleton in Hc as ->. apply upd_eq.
  - intros c Hc. apply elem_of_app in Hc as [Hc|Hc]; [by apply Al|]. apply list_elem_of_singleton in Hc as ->. lia.
  - intros c d Hc Hd. apply elem_of_app in Hd as [Hd|Hd]; [by apply Ap|]. apply list_elem_of_singleton in Hd as ->. apply Hold. set_solver.
  - intros c d A' HA. rewrite (Permutation_app_comm A [b]) in HA. cbn [app] in HA. revert c d A' HA. apply pairs_add; [done|].
    intros c Hc. apply disj_sym, Hold. set_solver.
  - intros c Hc. rewrite app_assoc in Hc. apply elem_of_app in Hc as [Hc|Hc]; [specialize (Top c Hc); unfold bend in *; lia|].
    apply list_elem_of_singleton in Hc as ->. lia.
  - unfold bend in Ht. lia.
Qed.

(** The kernel's side of a run: after [i] calls of [sbrk] the break is at most
    [lim i]; a call that succeeds gives memory from there to the next limit. *)
Record sbrk_ok (lim : nat → Z) : Prop := {
  sk_base : 0 < base ∧ base + 8 ≤ lim O;
  sk_lim : ∀ i, lim i ≤ lim (S i) ≤ 2^31;
  sk_call : ∀ i n, 0 < n < 2^31 → sbrk i n = 0xffffffff ∨ lim i ≤ sbrk i n ∧ sbrk i n + n ≤ lim (S i);
}.
Lemma heap_pos s F A top x : heap_ok s F A top → x ∈ base :: F.*1 → 0 < x.
Proof.
  intros [] Hx. apply elem_of_cons in Hx as [->|Hx]; [lia|]. apply list_elem_of_fmap in Hx as (b & -> & Hb).
  destruct (seps_after _ _ _ ho_seps0 Hb). lia.
Qed.
Lemma morecore_ok lim s F A n k : sbrk_ok lim → heap_ok s F A (lim (sbrks s)) → 0 < n < 2^28 → (length F ≤ k)%nat →
  (∃ s', morecore sbrk k n s = Some (0, s') ∧ heap_ok s' F A (lim (sbrks s')) ∧ sbrks s' = S (sbrks s)) ∨
  ∃ s' F', morecore sbrk k n s = Some (freep s', s') ∧ freep s' ≠ 0 ∧ heap_ok s' F' A (lim (sbrks s')) ∧ (length F' ≤ S (length F))%nat ∧
    (∃ f, f ∈ F' ∧ n ≤ f.2) ∧ sbrks s' = S (sbrks s).
Proof.
  intros [_ Hlim Hcall] Hok Hn Hk. unfold morecore. set (nu := if n <? 4096 then 4096 else n).
  assert (Hnu : n ≤ nu ∧ 0 < nu < 2^28) by (unfold nu; destruct (Z.ltb_spec n 4096); lia).
  rewrite (wrap32_id (nu * 8)) by (unfold is_u32; lia). specialize (Hcall (sbrks s) (nu * 8) ltac:(lia)). pose proof (Hlim (sbrks s)) as Hl.
  cbv zeta. fold (count_sbrk s). set (p := sbrk (sbrks s) (nu * 8)) in *. destruct (Z.eqb_spec p 0xffffffff) as [E|E].
  - left. exists (count_sbrk s). split; [done|]. split; [|done]. apply (heap_ok_top _ _ _ (lim (sbrks s))); [by apply heap_ok_count|]. cbn. lia.
  - right. destruct Hcall as [|[H1 H2]]; [done|]. pose proof (ho_range _ _ _ _ Hok) as Hrg.
    assert (Hg : heap_ok (set_size p nu (count_sbrk s)) F (A ++ (p, nu) :: []) (lim (S (sbrks s)))).
    { apply (heap_ok_grow (count_sbrk s) F A (lim (sbrks s)) (p, nu)); [by apply heap_ok_count|simpl; lia|simpl; lia|unfold bend; simpl; lia]. }
    destruct (free_ok _ _ _ _ _ _ k Hg Hk) as (s' & F' & E1 & E2 & E3 & (f & Hf & Hfn) & E5). cbn [fst snd] in *. rewrite app_nil_r in E2. cbn in E5.
    rewrite units_id by lia. change (p + 8 * 1) with (p + 8). rewrite E1. exists s', F'. rewrite E5. split; [done|]. split; [|split_and!; try done].
    + pose proof (heap_pos _ _ _ _ (freep s') E2 (ho_freep _ _ _ _ E2)). lia.
    + exists f. split; [done|]. lia.
Qed.

(** The units of a request for [nb] bytes, as [malloc] computes them. *)
Definition nunits (nb : Z) : Z := wrap32 (wrap32 (nb + 8 - 1) / 8 + 1).
Lemma nunits_range nb : 0 ≤ nb < 2^31 - 16 → 0 < nunits nb < 2^28 ∧ nb + 8 ≤ 8 * nunits nb.
Proof.
  intros H. unfold nunits. rewrite (wrap32_id (nb + 8 - 1)) by (unfold is_u32; lia).
  rewrite wrap32_id by (unfold is_u32; Z.to_euclidean_division_equations; lia). Z.to_euclidean_division_equations. lia.
Qed.
(** The search of [malloc]; it is sure to succeed when some block is large enough. *)
Lemma ring_search s F A top n : heap_ok s F A top → 0 < n →
  (∃ p s' F', (∀ k, (length F ≤ k)%nat → malloc_loop sbrk k n (freep s) (u_ptr s (freep s)) s = Some (p, s')) ∧ took F A top n s p s' F') ∨
  (∀ f, f ∈ F → f.2 < n) ∧
  (∀ k, malloc_loop sbrk (length F + S k) n (freep s) (u_ptr s (freep s)) s =
     r ← morecore sbrk (S k) n s; if r.1 =? 0 then Some (0, r.2) else malloc_loop sbrk k n r.1 (u_ptr r.2 r.1) r.2).
Proof.
  intros Hok Hn. pose proof Hok as [Ring Sz0 Sz Sep Fp Al Ap Pr Top Rg]. destruct (ring_rotate _ _ _ Ring Fp) as (l & Hl & HP).
  assert (Hlen : length l = length F) by (apply Permutation_length in HP; simpl in HP; rewrite length_fmap in HP; lia).
  pose proof (nodes_NoDup F Sep) as Hnd. rewrite <- HP in Hnd. apply NoDup_cons in Hnd as [Hnd _].
  rewrite <- Hlen. destruct (search_ok s F A top n Hok Hn l (freep s) Hl) as [H|[H1 H2]]; [by rewrite HP|done|by left|right].
  split; [|done]. intros f Hf. rewrite <- (Sz f) by set_solver. apply H1. assert (Hin : f.1 ∈ base :: F.*1) by (right; by apply list_elem_of_fmap_2).
  rewrite <- HP in Hin. set_solver.
Qed.
Definition given (s : ust) (F A : list block) (lim : nat → Z) (n p : Z) : Prop :=
  p = 0 ∧ heap_ok s F A (lim (sbrks s)) ∨ p ≠ 0 ∧ heap_ok s F ((p - 8, n) :: A) (lim (sbrks s)).
Lemma took_given lim F A n s p s' F' : took F A (lim (sbrks s)) n s p s' F' → given s' F' A lim n p.
Proof.
  intros [Hok Hlen Hs]. right. rewrite Hs. split; [|done]. destruct (ho_alloc _ _ _ _ Hok (p - 8, n)) as [H _]; [by left|].
  pose proof (ho_range _ _ _ _ Hok). simpl in H. lia.
Qed.
Lemma malloc_started lim s F A nb k : sbrk_ok lim → heap_ok s F A (lim (sbrks s)) → 0 ≤ nb < 2^31 - 16 → (2 * length F + 2 ≤ k)%nat →
  ∃ p s' F', malloc base sbrk k nb s = Some (p, s') ∧ given s' F' A lim (nunits nb) p.
Proof.
  intros Hsk Hok Hnb Hk. destruct (nunits_range nb Hnb) as [Hn _]. unfold malloc. fold (nunits nb). cbv zeta.
  pose proof (heap_pos _ _ _ _ _ Hok (ho_freep _ _ _ _ Hok)) as Hfp. rewrite (proj2 (Z.eqb_neq (freep s) 0)) by lia.
  destruct (ring_search s F A _ (nunits nb) Hok ltac:(lia)) as [(p & s' & F' & E & Ht)|[_ E]].
  { exists p, s', F'. rewrite E by lia. split; [done|]. by eapply took_given. }
  replace k with (length F + S (k - length F - 1))%nat by lia. rewrite E. clear E.
  destruct (morecore_ok lim s F A (nunits nb) (S (k - length F - 1)) Hsk Hok Hn ltac:(lia)) as [(s' & -> & Hok' & _)|(s' & F' & -> & Hne & Hok' & Hlen & (f & Hf & Hfn) & _)].
  { exists 0, s', F. split; [done|]. by left. }
  cbn [mbind option_bind fst snd]. rewrite (proj2 (Z.eqb_neq _ _) Hne).
  destruct (ring_search s' F' A _ (nunits nb) Hok' ltac:(lia)) as [(p & s2 & F2 & E & Ht)|[Hsm _]]; [|specialize (Hsm f Hf); lia].
  exists p, s2, F2. rewrite E by lia. split; [done|]. by eapply took_given.
Qed.
(** [malloc] on a heap never used. *)
Definition first_heap (s : ust) : ust := set_size base 0 (set_ptr base base (set_freep base s)).
Lemma malloc_first k nb s : base ≠ 0 → freep s = 0 → malloc base sbrk k nb s = malloc base sbrk k nb (first_heap s).
Proof. intros Hb Hs. unfold malloc. cbv zeta. rewrite Hs. cbn. by rewrite (proj2 (Z.eqb_neq base 0)). Qed.
Lemma first_heap_ok lim s : sbrk_ok lim → heap_ok (first_heap s) [] [] (lim O).
Proof.
  intros [Hb Hl _]. specialize (Hl O). split; cbn; try done; try set_solver; try lia; try apply upd_eq.
  intros b c A' HA. by apply Permutation_nil_cons in HA.
Qed.

(** *** The bounds on the loops do not matter *)

Lemma free_find_mono k k' s bp p r : free_find k s bp p = Some r → (k ≤ k')%nat → free_find k' s bp p = Some r.
Proof.
  revert k' p. induction k as [|k IH]; intros k' p; rewrite (free_find_stop k'), free_find_stop; (destruct (stop s bp p); [done|]); [done|].
  intros H Hk. destruct k' as [|k']; [lia|]. apply IH; [done|lia].
Qed.
Lemma free_mono k k' ap s r : free k ap s = Some r → (k ≤ k')%nat → free k' ap s = Some r.
Proof. unfold free. intros H Hk. destruct (free_find k s _ _) as [p|] eqn:E; [|done]. by rewrite (free_find_mono _ k' _ _ _ _ E Hk). Qed.
Lemma morecore_mono k k' n s r : morecore sbrk k n s = Some r → (k ≤ k')%nat → morecore sbrk k' n s = Some r.
Proof.
  unfold morecore. cbv zeta. destruct (_ =? 0xffffffff); [done|]. intros H Hk. destruct (free k _ _) as [s'|] eqn:E; [|done].
  by rewrite (free_mono _ k' _ _ _ E Hk).
Qed.
Lemma malloc_loop_mono k k' n prevp p s r : malloc_loop sbrk k n prevp p s = Some r → (k ≤ k')%nat → malloc_loop sbrk k' n prevp p s = Some r.
Proof.
  revert k' prevp p s. induction k as [|k IH]; intros k' prevp p s H Hk.
  - destruct k'; [done|]. cbn [malloc_loop] in *. destruct (n <=? u_size s p); [done|done].
  - destruct k' as [|k']; [lia|]. cbn [malloc_loop] in *. destruct (n <=? u_size s p); [done|]. destruct (p =? freep s); [|apply IH; [done|lia]].
    destruct (morecore sbrk (S k) n s) as [[q s']|] eqn:E; [|done]. rewrite (morecore_mono _ (S k') _ _ _ E) by lia.
    cbn [mbind option_bind] in *. destruct (_ =? 0); [done|]. apply IH; [done|lia].
Qed.
Lemma malloc_mono k k' nb s r : malloc base sbrk k nb s = Some r → (k ≤ k')%nat → malloc base sbrk k' nb s = Some r.
Proof. apply malloc_loop_mono. Qed.

(** *** Any sequence of calls *)

(** Calls of [malloc] and [free] by a program, with the blocks it holds: their
    addresses and the sizes it asked for. *)
Inductive heap_run : ust → list (Z * Z) → Prop :=
  | hr_start s : freep s = 0 → sbrks s = O → heap_run s []
  | hr_malloc k nb s L p s' : heap_run s L → 0 ≤ nb < 2^31 - 16 → malloc base sbrk k nb s = Some (p, s') →
      heap_run s' (if p =? 0 then L else (p, nb) :: L)
  | hr_free k p nb s L1 L2 s' : heap_run s (L1 ++ (p, nb) :: L2) → free k p s = Some s' → heap_run s' (L1 ++ L2).
Definition hdr (x : Z * Z) : block := (x.1 - 8, nunits x.2).
Definition run_inv (lim : nat → Z) (s : ust) (L : list (Z * Z)) : Prop :=
  (∀ x, x ∈ L → 0 ≤ x.2 < 2^31 - 16) ∧
  (freep s = 0 ∧ sbrks s = O ∧ L = [] ∨ ∃ F, heap_ok s F (hdr <$> L) (lim (sbrks s))).
(** From a state of a run, [malloc] comes to an end in another one. *)
Lemma malloc_ok lim s L nb : sbrk_ok lim → run_inv lim s L → 0 ≤ nb < 2^31 - 16 →
  ∃ k p s', malloc base sbrk k nb s = Some (p, s') ∧ run_inv lim s' (if p =? 0 then L else (p, nb) :: L).
Proof.
  intros Hsk [HL Hinv] Hnb. assert (∃ s1 F, (∀ k, malloc base sbrk k nb s = malloc base sbrk k nb s1) ∧ heap_ok s1 F (hdr <$> L) (lim (sbrks s1))) as (s1 & F & E1 & Hok).
  { destruct Hinv as [(H1 & H2 & ->)|[F Hok]]; [|by exists s, F]. exists (first_heap s), []. split.
    - intros k. apply malloc_first; [|done]. destruct Hsk. lia.
    - cbn. rewrite H2. by apply first_heap_ok. }
  destruct (malloc_started lim s1 F _ nb (2 * length F + 2) Hsk Hok Hnb ltac:(lia)) as (p & s' & F' & E & Hg).
  exists (2 * length F + 2)%nat, p, s'. rewrite E1. split; [done|]. destruct Hg as [[-> Hg]|[Hp Hg]].
  - split; [done|]. right. by exists F'.
  - rewrite (proj2 (Z.eqb_neq p 0) Hp). split; [|right; by exists F']. intros x Hx. apply elem_of_cons in Hx as [->|Hx]; [done|by apply HL].
Qed.
Lemma free_run_ok lim s p nb L1 L2 : run_inv lim s (L1 ++ (p, nb) :: L2) →
  ∃ k s', free k p s = Some s' ∧ run_inv lim s' (L1 ++ L2).
Proof.
  intros [HL [(_ & _ & E)|[F Hok]]]; [by destruct L1|]. rewrite fmap_app, fmap_cons in Hok.
  destruct (free_ok _ _ _ _ _ _ (length F) Hok ltac:(lia)) as (s' & F' & E & Hok' & _ & _ & Hs). cbn [hdr fst] in E. replace (p - 8 + 8) with p in E by lia.
  exists (length F), s'. split; [done|]. split; [intros x Hx; apply HL; set_solver|]. right. exists F'. by rewrite fmap_app, Hs.
Qed.
Lemma run_inv_holds lim s L : sbrk_ok lim → heap_run s L → run_inv lim s L.
Proof.
  intros Hsk. induction 1 as [s H1 H2|k nb s L p s' _ IH Hnb E|k p nb s L1 L2 s' _ IH E].
  - split; [set_solver|by left].
  - destruct (malloc_ok lim s L nb Hsk IH Hnb) as (k' & p' & s2 & E' & Hinv).
    apply (malloc_mono _ (k `max` k')) in E, E'; [|lia..]. rewrite E in E'. by injection E' as <- <-.
  - destruct (free_run_ok lim s p nb L1 L2 IH) as (k' & s2 & E' & Hinv).
    apply (free_mono _ (k `max` k')) in E, E'; [|lia..]. rewrite E in E'. by injection E' as <-.
Qed.
Lemma live_apart s F L top : heap_ok s F (hdr <$> L) top → ∀ x y L', L ≡ₚ x :: y :: L' → disj (hdr x) (hdr y).
Proof. intros Hok x y L' HP. apply (ho_pairs _ _ _ _ Hok (hdr x) (hdr y) (hdr <$> L')). by rewrite HP. Qed.
Lemma headers_apart s F L top : heap_ok s F (hdr <$> L) top → (∀ x, x ∈ L → 0 ≤ x.2 < 2^31 - 16) →
  ∀ h x, h ∈ base :: F.*1 ++ ((λ y, y.1 - 8) <$> L) → x ∈ L → h + 8 ≤ x.1 ∨ x.1 + x.2 ≤ h.
Proof.
  intros Hok HL h x Hh Hx. pose proof (list_elem_of_fmap_2 hdr _ _ Hx) as Hhx. destruct (ho_alloc _ _ _ _ Hok _ Hhx) as [Hb Hpos].
  pose proof (nunits_range _ (HL x Hx)) as [_ Hn]. apply elem_of_cons in Hh as [->|Hh]; [unfold hdr in Hb; simpl in Hb; lia|].
  apply elem_of_app in Hh as [Hh|Hh]; apply list_elem_of_fmap in Hh as (f & -> & Hf).
  - destruct (seps_after _ _ _ (ho_seps _ _ _ _ Hok) Hf). pose proof (ho_apart _ _ _ _ Hok _ _ Hf Hhx) as Hd.
    unfold disj, bend, hdr in *. simpl in *. lia.
  - destruct (decide (f = x)) as [->|Hne]; [lia|]. destruct (perm_head _ _ Hf) as [L1 HL1]. assert (Hx1 : x ∈ L1) by (rewrite HL1 in Hx; set_solver).
    destruct (perm_head _ _ Hx1) as [L2 HL2]. pose proof (live_apart _ _ _ _ Hok f x L2) as Hd. rewrite HL1, HL2 in Hd. specialize (Hd (reflexivity _)).
    pose proof (nunits_range _ (HL f Hf)). unfold disj, bend, hdr in *. simpl in *. lia.
Qed.
(** A request that fills the range of [uint] is served as one for no bytes at
    all: the rounding up wraps around. *)
Lemma malloc_wraps k nb s : 2^32 - 7 ≤ nb < 2^32 → malloc base sbrk k nb s = malloc base sbrk k 0 s.
Proof.
  intros H. unfold malloc. replace (wrap32 (nb + 8 - 1)) with (nb + 7 - 2^32).
  - replace ((nb + 7 - 2^32) / 8) with (wrap32 (0 + 8 - 1) / 8); [done|]. change (wrap32 (0 + 8 - 1) / 8) with 0. symmetry. apply Z.div_small. lia.
  - unfold wrap32. replace (nb + 8 - 1) with (nb + 7 - 2^32 + 1 * 2^32) by lia. rewrite Z.mod_add by lia. symmetry. apply Z.mod_small. lia.
Qed.
End Heap.

(** A run with two blocks, the second still held after the first was freed. *)
Definition kbreak (i : nat) : Z := 0x3000 + 2^20 * Z.of_nat (i `min` 2000).
Definition ksbrk (i : nat) (n : Z) : Z := if (i <? 2000)%nat && (n <=? 2^20) then kbreak i else 0xffffffff.
Lemma ksbrk_ok : sbrk_ok 0x2000 ksbrk kbreak.
Proof.
  split; [done|unfold kbreak; lia|]. intros i n Hn. unfold ksbrk. destruct (Nat.ltb_spec i 2000), (Z.leb_spec n (2^20)); cbn [andb]; auto.
  right. unfold kbreak. lia.
Qed.
Definition fresh_heap : ust := Ust (λ _, 0) (λ _, 0) 0 O.
Definition heap_after {B} (d : B) (o : option (B * ust)) : B * ust := default (d, fresh_heap) o.
Definition heap1 : Z * ust := heap_after 0 (malloc 0x2000 ksbrk 10 100 fresh_heap).
Definition heap2 : Z * ust := heap_after 0 (malloc 0x2000 ksbrk 10 200 heap1.2).
Definition heap3 : ust := default fresh_heap (free 10 44952 heap2.2).
