(* ===== verification/Console.v ===== *)
(** * The console

    [console.c] with the output side of [uart.c]: the screen in CGA memory and
    the serial line behind [consputc], [cprintf], and the input buffer with its
    line editing behind [consoleintr], [consoleread] and [consolewrite].  The
    ports of the machine are an interface ([Ports]); what the driver relies on
    is the cursor register of the screen ([Crt]).

    The theorems show that output never runs off the screen, whatever is
    printed, and that the input side is a line discipline: an edited line is
    handed over as a whole, in order, when it is ended. *)

From S2P Require Import Prelude Machine Str Spin Flt ProcTable Proc ProcOk ProcSteps SleepLock Frame Pipe Printf.
Local Open Scope Z_scope.

(** ** Ports and output state *)

Class Ports (D : Type) := {
  inb : Z → D → Z * D;
  outb : Z → Z → D → D;
}.
(** [panicked] and [uart] of the source, the CGA memory in cells, and the
    devices. *)
Record con (D : Type) := Con { panicked : bool; uart : bool; crt : Z → Z; dev : D }.
Arguments Con {_} _ _ _ _.
Arguments panicked {_} _.
Arguments uart {_} _.
Arguments crt {_} _.
Arguments dev {_} _.

Definition COM1 : Z := 0x3f8.
Definition CRTPORT : Z := 0x3d4.
Definition BACKSPACE : Z := 0x100.

Section Output.
Context {D : Type} `{!Ports D}.
Notation st := (con D).
Definition set_crt (f : Z → Z) (s : st) : st := Con (panicked s) (uart s) f (dev s).
Definition set_dev (d : D) (s : st) : st := Con (panicked s) (uart s) (crt s) d.
Definition in_ (p : Z) : M st Z := λ s, let '(v, d) := inb p (dev s) in Ok (v, set_dev d s).
Definition out_ (p v : Z) : M st unit := modify (λ s, set_dev (outb p (v mod 2^8) (dev s)) s).

(** [for(i = 0; i < 128 && !(inb(COM1+5) & 0x20); i++) microdelay(10);] *)
Fixpoint uart_wait (k : nat) : M st unit :=
  match k with
  | O => mret tt
  | S k' => v ← in_ (COM1 + 5); if Z.land v 0x20 =? 0 then uart_wait k' else mret tt
  end.
Definition uartputc (c : Z) : M st unit :=
  u ← gets uart;
  if negb u then mret tt else uart_wait 128;; out_ (COM1 + 0) c.

(** [memmove(crt, crt+80, sizeof(crt[0])*23*80)] *)
Definition scroll (f : Z → Z) : Z → Z := λ i, if (0 <=? i) && (i <? 23 * 80) then f (i + 80) else f i.
(** [memset(crt+pos, 0, sizeof(crt[0])*(24*80 - pos))] *)
Definition clear_from (pos : Z) (f : Z → Z) : Z → Z := λ i, if (pos <=? i) && (i <? 24 * 80) then 0 else f i.
Definition put_cell (i v : Z) (f : Z → Z) : Z → Z := λ j, if j =? i then v else f j.

Definition cgaputc (c : Z) : M st unit :=
  out_ CRTPORT 14;;
  hi ← in_ (CRTPORT + 1);
  out_ CRTPORT 15;;
  lo ← in_ (CRTPORT + 1);
  let pos := Z.lor (Z.shiftl hi 8) lo in
  pos ← (if c =? 10 then mret (pos + (80 - Z.rem pos 80))
         else if c =? BACKSPACE then mret (if 0 <? pos then pos - 1 else pos)
         else modify (λ s, set_crt (put_cell pos (Z.lor (Z.land c 0xff) 0x0700) (crt s)) s);; mret (pos + 1));
  if (pos <? 0) || (25 * 80 <? pos) then panic "pos under/overflow" else
  pos ← (if 24 <=? Z.quot pos 80 then
           modify (λ s, set_crt (clear_from (pos - 80) (scroll (crt s))) s);; mret (pos - 80)
         else mret pos);
  out_ CRTPORT 14;;
  out_ (CRTPORT + 1) (Z.shiftr pos 8);;
  out_ CRTPORT 15;;
  out_ (CRTPORT + 1) pos;;
  modify (λ s, set_crt (put_cell pos (Z.lor 32 0x0700) (crt s)) s).

(** A processor that finds [panicked] set stops. *)
Definition consputc (c : Z) : M st unit :=
  p ← gets panicked;
  if (p : bool) then block else
  (if c =? BACKSPACE then uartputc 8;; uartputc 32;; uartputc 8 else uartputc c);;
  cgaputc c.

(** [cprintf] between taking and giving back the lock. *)
Definition cprintf_body (fmt : list Z) (ap : nat → Z) (str : Z → list Z) : M st unit :=
  match cprintf_out ap str fmt 0 with
  | None => fault "printint: buf"
  | Some out => forM out consputc
  end.
(** [panic(s)] up to the endless loop, on a processor with the given id and
    callers. *)
Definition panic_prints (msg : list Z) (lapicid : Z) (pcs : list Z) : M st unit :=
  cprintf_body (chars "lapicid %d: panic: ") (λ _, lapicid) (λ _, []);;
  cprintf_body msg (λ _, 0) (λ _, []);;
  cprintf_body [10] (λ _, 0) (λ _, []);;
  forM (seq 0 10) (λ i, cprintf_body (chars " %p") (λ _, nth i pcs 0) (λ _, []));;
  modify (λ s, Con true (uart s) (crt s) (dev s)).
End Output.

(** ** Input state *)

Definition INPUT_BUF : Z := 128.
(** [input]: the buffer with its read, write and edit index. *)
Record inp := Inp { ibuf : list Z; ir : Z; iw : Z; ie : Z }.
(** [C(x)] *)
Definition Ctl (x : Z) : Z := x - 64.

(** [input.buf[input.e++ % INPUT_BUF] = c] *)
Definition edit_put (c : Z) (i : inp) : inp :=
  Inp (<[Z.to_nat (ie i mod INPUT_BUF) := c mod 2^8]> (ibuf i)) (ir i) (iw i) (wrap32 (ie i + 1)).
Definition edit_back (i : inp) : inp := Inp (ibuf i) (ir i) (iw i) (wrap32 (ie i - 1)).
(** [input.buf[(input.e-1) % INPUT_BUF]] *)
Definition edit_last (i : inp) : Z := nth (Z.to_nat (wrap32 (ie i - 1) mod INPUT_BUF)) (ibuf i) 0.
Definition commit_line (i : inp) : inp := Inp (ibuf i) (ir i) (ie i) (ie i).
Definition read_front (i : inp) : Z := nth (Z.to_nat (ir i mod INPUT_BUF)) (ibuf i) 0.
Definition read_next (i : inp) : inp := Inp (ibuf i) (wrap32 (ir i + 1)) (iw i) (ie i).
Definition read_back (i : inp) : inp := Inp (ibuf i) (wrap32 (ir i - 1)) (iw i) (ie i).

(** [cons] with [input] and the output state. *)
Record console (D : Type) := Cons { c_lock : spinlock; c_locking : bool; c_input : inp; c_out : con D }.
Arguments Cons {_} _ _ _ _.
Arguments c_lock {_} _.
Arguments c_locking {_} _.
Arguments c_input {_} _.
Arguments c_out {_} _.

Section Ops.
Context {E D : Type} `{!Services E} `{!Ports D}.
(** The console, and the channel [&input.r]. *)
Variable l : lens (pst E) (console D).
Variable ch_r : Z.

Definition cons_lock_l : lens (pst E) spinlock :=
  Lens (λ s, c_lock (view l s)) (λ k s, let c := view l s in upd_lens l (Cons k (c_locking c) (c_input c) (c_out c)) s).
Definition out_l : lens (pst E) (con D) :=
  Lens (λ s, c_out (view l s)) (λ o s, let c := view l s in upd_lens l (Cons (c_lock c) (c_locking c) (c_input c) o) s).
Definition the_input : M (pst E) inp := gets (λ s, c_input (view l s)).
Definition upd_input (f : inp → inp) : M (pst E) unit :=
  modify (λ s, let c := view l s in upd_lens l (Cons (c_lock c) (c_locking c) (f (c_input c)) (c_out c)) s).
Notation acquire := (acquire core_l cons_lock_l).
Notation release := (release core_l cons_lock_l).
Notation putc c := (on_lens out_l (consputc c)).

Definition cprintf (fmt : list Z) (ap : nat → Z) (str : Z → list Z) : M (pst E) unit :=
  locking ← gets (λ s, c_locking (view l s));
  whenM locking acquire;;
  on_lens out_l (cprintf_body fmt ap str);;
  whenM locking release.

(** [case C('U')]: the loop runs at most over the buffer. *)
Fixpoint kill_line (k : nat) : M (pst E) unit :=
  i ← the_input;
  if negb (ie i =? iw i) && negb (edit_last i =? 10) then
    match k with
    | O => fault "fuel"
    | S k' => upd_input edit_back;; putc BACKSPACE;; kill_line k'
    end
  else mret tt.
(** The body of the loop of [consoleintr] for character [c]; whether the
    process listing was asked for. *)
Definition intr_key (c : Z) : M (pst E) bool :=
  if c =? Ctl 80 then mret true else
  (if c =? Ctl 85 then kill_line 128
   else if (c =? Ctl 72) || (c =? 127) then
     i ← the_input;
     if negb (ie i =? iw i) then upd_input edit_back;; putc BACKSPACE else mret tt
   else
     i ← the_input;
     if negb (c =? 0) && (wrap32 (ie i - ir i) <? INPUT_BUF) then
       let c := if c =? 13 then 10 else c in
       upd_input (edit_put c);;
       putc c;;
       i ← the_input;
       if (c =? 10) || (c =? Ctl 68) || (ie i =? wrap32 (ir i + INPUT_BUF)) then
         upd_input commit_line;; wakeup (ChAddr ch_r)
       else mret tt
     else mret tt);;
  mret false.
Fixpoint intr_loop (k : nat) (getc : M (pst E) Z) (dump : bool) : M (pst E) bool :=
  c ← getc;
  if c <? 0 then mret dump else
  match k with
  | O => fault "fuel"
  | S k' => d ← intr_key c; intr_loop k' getc (dump || d)
  end.
Definition consoleintr (k : nat) (getc : M (pst E) Z) : M (pst E) unit :=
  acquire;;
  dump ← intr_loop k getc false;
  release;;
  whenM dump procdump.

(** [iunlock(ip)] and [ilock(ip)] of [fs.c] in this state. *)
Variables iunlock_ip ilock_ip : M (pst E) unit.

(** [while(input.r == input.w) ...] *)
Fixpoint wait_input (others : list (M (pst E) unit)) : M (pst E) (bool * list (M (pst E) unit)) :=
  i ← the_input;
  if negb (ir i =? iw i) then mret (true, others) else
  k ← me_killed;
  if (k : bool) then release;; ilock_ip;; mret (false, others) else
  match others with
  | [] => block
  | o :: others' => sleep o (ChAddr ch_r) (LkOther cons_lock_l);; wait_input others'
  end.
(** The loop with [n] bytes to go, [fresh] when none was copied; [None] when
    the process was killed. *)
Fixpoint cread_loop (n : nat) (fresh : bool) (others : list (M (pst E) unit)) : M (pst E) (option (list Z)) :=
  match n with
  | O => mret (Some [])
  | S n' =>
      x ← wait_input others;
      if negb x.1 then mret None else
      i ← the_input;
      let c := read_front i in
      upd_input read_next;;
      if c =? Ctl 68 then (if fresh then mret tt else upd_input read_back);; mret (Some [])
      else if c =? 10 then mret (Some [c])
      else rest ← cread_loop n' false x.2; mret (cons c <$> rest)
  end.
(** The result and the bytes stored at [dst]. *)
Definition consoleread (others : list (M (pst E) unit)) (n : Z) : M (pst E) (Z * list Z) :=
  iunlock_ip;;
  acquire;;
  r ← cread_loop (Z.to_nat n) true others;
  match r with
  | None => mret (-1, [])
  | Some bytes => release;; ilock_ip;; mret (Z.of_nat (length bytes), bytes)
  end.
Definition consolewrite (bytes : list Z) : M (pst E) Z :=
  iunlock_ip;;
  acquire;;
  forM bytes (λ b, putc (b mod 2^8));;
  release;;
  ilock_ip;;
  mret (Z.of_nat (length bytes)).
(** [consoleinit] without the device switch and the interrupt routing. *)
Definition consoleinit : M (pst E) unit :=
  modify (λ s, let c := view l s in upd_lens l (Cons (initlock "console") true (c_input c) (c_out c)) s).
End Ops.

(** ** The screen *)

(** The cursor register of the screen controller, behind an index register. *)
Class Crt (D : Type) `{!Ports D} := {
  cursor : D → Z;
  index : D → Z;
  crt_range : ∀ d, 0 ≤ cursor d < 2^16;
  crt_read : ∀ p d, cursor (inb p d).2 = cursor d ∧ index (inb p d).2 = index d;
  crt_hi : ∀ d, index d = 14 → (inb (CRTPORT + 1) d).1 = cursor d / 2^8;
  crt_lo : ∀ d, index d = 15 → (inb (CRTPORT + 1) d).1 = cursor d mod 2^8;
  crt_select : ∀ v d, cursor (outb CRTPORT v d) = cursor d ∧ index (outb CRTPORT v d) = v;
  crt_put_hi : ∀ v d, 0 ≤ v < 2^8 → index d = 14 →
    cursor (outb (CRTPORT + 1) v d) = v * 2^8 + cursor d mod 2^8 ∧ index (outb (CRTPORT + 1) v d) = 14;
  crt_put_lo : ∀ v d, 0 ≤ v < 2^8 → index d = 15 →
    cursor (outb (CRTPORT + 1) v d) = cursor d / 2^8 * 2^8 + v ∧ index (outb (CRTPORT + 1) v d) = 15;
  crt_other : ∀ p v d, p ≠ CRTPORT → p ≠ CRTPORT + 1 → cursor (outb p v d) = cursor d;
}.

(** A terminal of 24 rows of 80 cells with its cursor: a character goes to the
    cursor cell, a newline to the start of the next row, a backspace one cell
    back; past the last row everything moves up one row.  The cell under the
    cursor is blank. *)
Definition show (c : Z) (t : (Z → Z) * Z) : (Z → Z) * Z :=
  let '(f, pos) := t in
  let '(f, pos) :=
    if c =? 10 then (f, (pos / 80 + 1) * 80)
    else if c =? BACKSPACE then (f, Z.max 0 (pos - 1))
    else (put_cell pos (c mod 2^8 + 0x700) f, pos + 1) in
  let '(f, pos) :=
    if pos <? 24 * 80 then (f, pos)
    else (clear_from (23 * 80) (scroll f), 23 * 80) in
  (put_cell pos 0x720 f, pos).

Section Screen.
Context {D : Type} `{!Ports D} `{!Crt D}.
Notation st := (con D).
Implicit Types s : st.

Lemma in_ok p s : ∃ d, in_ p s = Ok ((inb p (dev s)).1, set_dev d s) ∧ cursor d = cursor (dev s) ∧ index d = index (dev s).
Proof.
  unfold in_. destruct (crt_read p (dev s)) as [H1 H2]. destruct (inb p (dev s)) as [v d]. by exists d.
Qed.
Lemma uart_wait_ok k : ∀ s, ∃ d, uart_wait k s = Ok (tt, set_dev d s) ∧ cursor d = cursor (dev s).
Proof.
  induction k as [|k IH]; intros s; [exists (dev s); by destruct s|]. cbn [uart_wait].
  destruct (in_ok (COM1 + 5) s) as (d & H & Hc & _). rewrite (bind_Ok_l _ _ _ _ _ H).
  destruct (_ =? 0); [|by exists d]. destruct (IH (set_dev d s)) as (d' & H' & Hc'). exists d'. split; [done|]. by rewrite Hc'.
Qed.
Lemma uartputc_ok c s : ∃ d, uartputc c s = Ok (tt, set_dev d s) ∧ cursor d = cursor (dev s).
Proof.
  unfold uartputc. rewrite (bind_Ok_l _ _ _ (uart s) s) by reflexivity. destruct (uart s) eqn:Eu; cbn [negb].
  - destruct (uart_wait_ok 128 s) as (d & H & Hc). rewrite (bind_Ok_l _ _ _ _ _ H). eexists. split; [reflexivity|].
    cbn [dev set_dev]. rewrite crt_other; [done|by unfold COM1, CRTPORT|by unfold COM1, CRTPORT].
  - exists (dev s). by destruct s.
Qed.
(** The reads at the start of [cgaputc] and the writes at its end. *)
Lemma get_cursor s : ∃ d, (∀ A (k : Z → Z → M st A),
    (out_ CRTPORT 14;; hi ← in_ (CRTPORT + 1); out_ CRTPORT 15;; lo ← in_ (CRTPORT + 1); k hi lo) s =
    k (cursor (dev s) / 2^8) (cursor (dev s) mod 2^8) (set_dev d s)) ∧ cursor d = cursor (dev s).
Proof.
  set (d1 := outb CRTPORT 14 (dev s)). destruct (crt_select 14 (dev s)) as [C1 I1].
  destruct (in_ok (CRTPORT + 1) (set_dev d1 s)) as (d2 & H2 & C2 & I2). cbn [dev set_dev] in *.
  set (d3 := outb CRTPORT 15 d2). destruct (crt_select 15 d2) as [C3 I3].
  destruct (in_ok (CRTPORT + 1) (set_dev d3 s)) as (d4 & H4 & C4 & I4). cbn [dev set_dev] in *.
  exists d4. split; [|unfold d3, d1 in *; congruence]. intros A k.
  rewrite (bind_Ok_l _ _ _ tt (set_dev d1 s)) by reflexivity. rewrite (bind_Ok_l _ _ _ _ _ H2).
  rewrite (bind_Ok_l _ _ _ tt (set_dev d3 s)) by reflexivity. rewrite (bind_Ok_l _ _ _ _ _ H4).
  rewrite (crt_hi d1), (crt_lo d3) by done. unfold d3, d1 in *. by rewrite C1, C3, C2, C1.
Qed.
Lemma set_cursor pos s : 0 ≤ pos < 2^16 → ∃ d, (∀ A (k : M st A),
    (out_ CRTPORT 14;; out_ (CRTPORT + 1) (Z.shiftr pos 8);; out_ CRTPORT 15;; out_ (CRTPORT + 1) pos;; k) s =
    k (set_dev d s)) ∧ cursor d = pos.
Proof.
  intros Hpos. assert (Hhi : 0 ≤ pos / 2^8 < 2^8) by (split; [apply Z.div_pos; lia|apply Z.div_lt_upper_bound; lia]).
  pose proof (Z.mod_pos_bound pos (2^8) ltac:(lia)) as Hlo.
  set (d1 := outb CRTPORT 14 (dev s)). destruct (crt_select 14 (dev s)) as [C1 I1].
  destruct (crt_put_hi (pos / 2^8) d1 Hhi I1) as [C2 I2]. set (d2 := outb (CRTPORT + 1) (pos / 2^8) d1) in *.
  destruct (crt_select 15 d2) as [C3 I3]. set (d3 := outb CRTPORT 15 d2) in *.
  destruct (crt_put_lo (pos mod 2^8) d3 Hlo I3) as [C4 I4]. exists (outb (CRTPORT + 1) (pos mod 2^8) d3). split.
  - intros A k. unfold out_. rewrite (bind_Ok_l _ _ _ tt (set_dev d1 s)) by reflexivity.
    assert (Hs : Z.shiftr pos 8 mod 2^8 = pos / 2^8) by (rewrite Z.shiftr_div_pow2 by lia; by apply Z.mod_small).
    rewrite Hs. rewrite (bind_Ok_l _ _ _ tt (set_dev d2 s)) by reflexivity.
    rewrite (bind_Ok_l _ _ _ tt (set_dev d3 s)) by reflexivity. by rewrite (bind_Ok_l _ _ _ tt (set_dev (outb (CRTPORT + 1) (pos mod 2^8) d3) s)).
  - rewrite C4, C3, C2, Z.div_add_l, (Z.div_small (cursor d1 mod 2^8)) by (try apply Z.mod_pos_bound; lia).
    pose proof (Z.div_mod pos (2^8) ltac:(lia)). lia.
Qed.

Lemma glyph c : Z.lor (Z.land c 0xff) 0x0700 = c mod 2^8 + 0x700.
Proof.
  rewrite land_255, Z.lor_comm. change 0x0700 with (7 * 2^8). change 256 with (2^8).
  rewrite lor_add_disjoint by (try apply Z.mod_pos_bound; lia). lia.
Qed.
(** Where the character goes, before scrolling. *)
Definition advance (c : Z) (f : Z → Z) (pos : Z) : (Z → Z) * Z :=
  if c =? 10 then (f, (pos / 80 + 1) * 80)
  else if c =? BACKSPACE then (f, Z.max 0 (pos - 1))
  else (put_cell pos (c mod 2^8 + 0x700) f, pos + 1).
Lemma advance_range c f pos : 0 ≤ pos < 24 * 80 → 0 ≤ (advance c f pos).2 ≤ 24 * 80.
Proof.
  intros H. unfold advance. destruct (c =? 10); [|destruct (c =? BACKSPACE)]; simpl; [|lia|lia].
  pose proof (Z.div_mod pos 80 ltac:(lia)). pose proof (Z.mod_pos_bound pos 80 ltac:(lia)). lia.
Qed.
Lemma advance_ok c pos (s : st) : 0 ≤ pos →
  (if c =? 10 then mret (pos + (80 - Z.rem pos 80))
   else if c =? BACKSPACE then mret (if 0 <? pos then pos - 1 else pos)
   else modify (λ s, set_crt (put_cell pos (Z.lor (Z.land c 0xff) 0x0700) (crt s)) s);; mret (pos + 1)) s =
  Ok ((advance c (crt s) pos).2, set_crt (advance c (crt s) pos).1 s).
Proof.
  intros Hp. unfold advance. destruct (c =? 10); [|destruct (c =? BACKSPACE)].
  - unfold mret, M_ret. do 2 f_equal; [|by destruct s]. rewrite Z.rem_mod_nonneg by lia.
    pose proof (Z.div_mod pos 80 ltac:(lia)). simpl. lia.
  - unfold mret, M_ret. do 2 f_equal; [|by destruct s]. simpl. destruct (Z.ltb_spec 0 pos); lia.
  - rewrite (bind_Ok_l _ _ _ tt (set_crt (put_cell pos (c mod 2^8 + 0x700) (crt s)) s)); [done|].
    unfold modify. by rewrite glyph.
Qed.

(** [cgaputc] is the terminal. *)
Lemma cgaputc_ok c s : cursor (dev s) < 24 * 80 →
  ∃ d, cgaputc c s = Ok (tt, Con (panicked s) (uart s) (show c (crt s, cursor (dev s))).1 d) ∧
    cursor d = (show c (crt s, cursor (dev s))).2 ∧ 0 ≤ cursor d < 24 * 80.
Proof.
  intros Hpos. pose proof (crt_range (dev s)) as Hr. unfold cgaputc. destruct (get_cursor s) as (d0 & Hget & Hd0).
  rewrite Hget. clear Hget. set (p := cursor (dev s)) in *.
  assert (Hp : Z.lor (Z.shiftl (p / 2^8) 8) (p mod 2^8) = p).
  { rewrite Z.shiftl_mul_pow2, lor_add_disjoint by (try apply Z.mod_pos_bound; lia). pose proof (Z.div_mod p (2^8) ltac:(lia)). lia. }
  cbv zeta. rewrite Hp. rewrite (bind_Ok_l _ _ _ _ _ (advance_ok c p (set_dev d0 s) ltac:(lia))).
  pose proof (advance_range c (crt s) p ltac:(lia)) as Ha. unfold show. fold (advance c (crt s) p).
  change (crt (set_dev d0 s)) with (crt s). destruct (advance c (crt s) p) as [f1 p1]. cbn [fst snd] in *.
  rewrite (proj2 (Z.ltb_ge p1 0)), (proj2 (Z.ltb_ge (25 * 80) p1)) by lia. cbn [orb].
  rewrite Z.quot_div_nonneg by lia. destruct (Z.ltb_spec p1 (24 * 80)) as [Hlt|Hge].
  - rewrite (proj2 (Z.leb_gt 24 (p1 / 80))) by (apply Z.div_lt_upper_bound; lia).
    rewrite (bind_Ok_l _ _ _ p1 (set_crt f1 (set_dev d0 s))) by reflexivity.
    destruct (set_cursor p1 (set_crt f1 (set_dev d0 s)) ltac:(lia)) as (d & Hset & Hd). exists d. rewrite Hset, Hd.
    split; [done|]. split; [done|]. simpl. lia.
  - assert (p1 = 1920) as -> by lia. change (24 <=? 1920 / 80) with true. cbn [fst snd].
    set (f2 := clear_from (1920 - 80) (scroll f1)).
    rewrite (bind_Ok_l _ _ _ 1840 (set_crt f2 (set_dev d0 s))) by reflexivity.
    destruct (set_cursor 1840 (set_crt f2 (set_dev d0 s)) ltac:(lia)) as (d & Hset & Hd). exists d. rewrite Hset, Hd.
    split; [done|lia].
Qed.
Lemma show_range c f pos : 0 ≤ pos < 24 * 80 → 0 ≤ (show c (f, pos)).2 < 24 * 80.
Proof.
  intros H. pose proof (advance_range c f pos H) as Ha. unfold show. fold (advance c f pos).
  destruct (advance c f pos) as [f1 p1]. cbn [fst snd] in *. destruct (Z.ltb_spec p1 (24 * 80)); simpl; lia.
Qed.
(** The terminal writes its 24 rows only. *)
Lemma show_frame c f pos i : 0 ≤ pos < 24 * 80 → ¬ (0 ≤ i < 24 * 80) → (show c (f, pos)).1 i = f i.
Proof.
  intros H Hi. pose proof (advance_range c f pos H) as Ha. unfold show. fold (advance c f pos).
  assert (Hf : (advance c f pos).1 i = f i).
  { unfold advance. destruct (c =? 10); [done|]. destruct (c =? BACKSPACE); [done|]. simpl. unfold put_cell.
    by rewrite (proj2 (Z.eqb_neq i pos)) by lia. }
  destruct (advance c f pos) as [f1 p1]. cbn [fst snd] in *. destruct (Z.ltb_spec p1 (24 * 80)); cbn [fst];
    unfold put_cell, clear_from, scroll; rewrite (proj2 (Z.eqb_neq i _)) by lia; [done|].
  destruct (Z.leb_spec (23 * 80) i), (Z.ltb_spec i (24 * 80)), (Z.leb_spec 0 i), (Z.ltb_spec i (23 * 80)); cbn [andb]; done || lia.
Qed.
Lemma consputc_ok c s : panicked s = false → cursor (dev s) < 24 * 80 →
  ∃ d, consputc c s = Ok (tt, Con false (uart s) (show c (crt s, cursor (dev s))).1 d) ∧
    cursor d = (show c (crt s, cursor (dev s))).2 ∧ cursor d < 24 * 80.
Proof.
  intros Hp Hc. unfold consputc. rewrite (bind_Ok_l _ _ _ (panicked s) s) by reflexivity. rewrite Hp.
  assert (Hu : ∃ d, (if c =? BACKSPACE then uartputc 8;; uartputc 32;; uartputc 8 else uartputc c) s = Ok (tt, set_dev d s) ∧
    cursor d = cursor (dev s)).
  { destruct (c =? BACKSPACE); [|apply uartputc_ok].
    destruct (uartputc_ok 8 s) as (d1 & H1 & C1). rewrite (bind_Ok_l _ _ _ _ _ H1).
    destruct (uartputc_ok 32 (set_dev d1 s)) as (d2 & H2 & C2). rewrite (bind_Ok_l _ _ _ _ _ H2).
    destruct (uartputc_ok 8 (set_dev d2 (set_dev d1 s))) as (d3 & H3 & C3). exists d3. rewrite H3. split; [done|]. simpl in *. congruence. }
  destruct Hu as (d & Hu & Hd). rewrite (bind_Ok_l _ _ _ _ _ Hu).
  destruct (cgaputc_ok c (set_dev d s)) as (d' & H & Hcur & Hr); [simpl; lia|]. cbn [crt dev set_dev panicked uart] in *.
  rewrite Hd in H, Hcur. rewrite Hp in H. exists d'. split; [done|]. split; [done|lia].
Qed.

(** Output never runs off the screen.  From a state with the cursor on one
    of the 24 rows, printing any sequence of characters, with any mixture of
    newlines and backspaces, terminates without the position panic; the screen
    is then what the 24-row terminal shows after the same characters, the
    cursor is on a row again, and no cell outside the rows has been written. *)
Theorem console_output_safe cs s (Hp : panicked s = false) (Hc : cursor (dev s) < 24 * 80) :
  ∃ d, forM cs consputc s = Ok (tt, Con false (uart s) (foldl (λ t c, show c t) (crt s, cursor (dev s)) cs).1 d) ∧
    cursor d = (foldl (λ t c, show c t) (crt s, cursor (dev s)) cs).2 ∧ 0 ≤ cursor d < 24 * 80 ∧
    (∀ i, ¬ (0 ≤ i < 24 * 80) → (foldl (λ t c, show c t) (crt s, cursor (dev s)) cs).1 i = crt s i).
Proof.
  revert s Hp Hc. induction cs as [|c cs IH]; intros s Hp Hc.
  - exists (dev s). cbn. split_and!; try done; [|apply crt_range]. destruct s. simpl in Hp. by subst.
  - destruct (consputc_ok c s Hp Hc) as (d & H & Hcur & Hlt). cbn [forM]. rewrite (bind_Ok_l _ _ _ _ _ H).
    destruct (IH (Con false (uart s) (show c (crt s, cursor (dev s))).1 d) eq_refl Hlt) as (d' & H' & Hcur' & Hr' & Hf').
    cbn [crt dev uart] in *. rewrite Hcur in H', Hcur', Hf'. exists d'. cbn [foldl].
    rewrite <- (surjective_pairing (show c (crt s, cursor (dev s)))) in *. split_and!; try done; [apply Hr'|apply Hr'|].
    intros i Hi. rewrite Hf' by done. apply show_frame; [|done]. pose proof (crt_range (dev s)). lia.
Qed.
End Screen.

(** A machine with a screen controller and a ready serial port. *)
Record demo_dev := DemoDev { dd_index : Z; dd_cursor : Z; dd_serial : list Z }.
Global Instance demo_ports : Ports demo_dev := {
  inb p d :=
    (if p =? CRTPORT + 1 then
       (if dd_index d =? 14 then dd_cursor d mod 2^16 / 2^8
        else if dd_index d =? 15 then dd_cursor d mod 2^16 mod 2^8 else 0)
     else if p =? COM1 + 5 then 0x20 else 0, d);
  outb p v d :=
    if p =? CRTPORT then DemoDev v (dd_cursor d) (dd_serial d)
    else if p =? CRTPORT + 1 then
      let c := dd_cursor d mod 2^16 in
      if dd_index d =? 14 then DemoDev 14 (v * 2^8 + c mod 2^8) (dd_serial d)
      else if dd_index d =? 15 then DemoDev 15 (c / 2^8 * 2^8 + v) (dd_serial d) else d
    else DemoDev (dd_index d) (dd_cursor d) (dd_serial d ++ [v])
}.
Lemma demo_hi_lo h v : 0 ≤ h < 2^8 → 0 ≤ v < 2^8 → (h * 2^8 + v) mod 2^16 = h * 2^8 + v.
Proof. intros. apply Z.mod_small. lia. Qed.
Global Program Instance demo_crt : Crt demo_dev := { cursor d := dd_cursor d mod 2^16; index := dd_index }.
Next Obligation. intros d. apply Z.mod_pos_bound. lia. Qed.
Next Obligation. done. Qed.
Next Obligation. intros d H. cbn. by rewrite H. Qed.
Next Obligation. intros d H. cbn. by rewrite H. Qed.
Next Obligation. done. Qed.
Next Obligation.
  intros v d Hv H. cbn -[Z.modulo Z.mul Z.div Z.add]. rewrite H. cbn -[Z.modulo Z.mul Z.div Z.add]. split; [|done].
  apply demo_hi_lo; [done|apply Z.mod_pos_bound; lia].
Qed.
Next Obligation.
  intros v d Hv H. cbn -[Z.modulo Z.mul Z.div Z.add]. rewrite H. cbn -[Z.modulo Z.mul Z.div Z.add]. split; [|done].
  pose proof (Z.mod_pos_bound (dd_cursor d) (2^16) ltac:(lia)).
  apply demo_hi_lo; [|done]. split; [apply Z.div_pos; lia|apply Z.div_lt_upper_bound; lia].
Qed.
Next Obligation. intros p v d H1 H2. unfold outb, demo_ports. by rewrite (proj2 (Z.eqb_neq _ _) H1), (proj2 (Z.eqb_neq _ _) H2). Qed.

(** At the end of the last row: the next character scrolls. *)
Lemma console_output_safe_witness :
  ∃ d, forM [65; 66] consputc (Con false true (λ _, 0) (DemoDev 0 1919 [])) =
       Ok (tt, Con false true (foldl (λ t c, show c t) (λ _, 0, 1919) [65; 66]).1 d) ∧ cursor d = 1841.
Proof.
  destruct (console_output_safe [65; 66] (Con false true (λ _, 0) (DemoDev 0 1919 []))) as (d & H & Hc & _).
  - reflexivity.
  - reflexivity.
  - exact (ex_intro _ d (conj H Hc)).
Defined.

(** ** The input buffer *)

Definition in_count (i : inp) : Z := wrap32 (iw i - ir i).
Definition ed_count (i : inp) : Z := wrap32 (ie i - iw i).
Definition at_input (buf : list Z) (k : Z) : Z := nth (Z.to_nat (k mod INPUT_BUF)) buf 0.
(** The [n] characters of the ring from index [k] on. *)
Definition seg (buf : list Z) (k : Z) (n : nat) : list Z := (λ j, at_input buf (k + Z.of_nat j)) <$> seq 0 n.
(** The characters ready to be read, and those of the line being edited. *)
Definition ready (i : inp) : list Z := seg (ibuf i) (ir i) (Z.to_nat (in_count i)).
Definition editing (i : inp) : list Z := seg (ibuf i) (iw i) (Z.to_nat (ed_count i)).
Record inp_ok (i : inp) : Prop := {
  io_len : length (ibuf i) = 128%nat;
  io_u32 : is_u32 (ir i) ∧ is_u32 (iw i) ∧ is_u32 (ie i);
  io_max : in_count i + ed_count i ≤ INPUT_BUF;
}.

(** The line discipline: lines ready, line being edited, and what a character
    does to them. *)
Record tty := Tty { t_ready : list Z; t_edit : list Z }.
Definition type_key (c : Z) (t : tty) : tty :=
  if c =? Ctl 80 then t
  else if c =? Ctl 85 then Tty (t_ready t) []
  else if (c =? Ctl 72) || (c =? 127) then Tty (t_ready t) (take (length (t_edit t) - 1) (t_edit t))
  else if (c =? 0) || (INPUT_BUF <=? Z.of_nat (length (t_ready t) + length (t_edit t))) then t
  else
    let c := (if c =? 13 then 10 else c) in
    let line := t_edit t ++ [c mod 2^8] in
    if (c =? 10) || (c =? Ctl 68) || (Z.of_nat (length (t_ready t) + length line) =? INPUT_BUF)
    then Tty (t_ready t ++ line) [] else Tty (t_ready t) line.
Definition tty_of (i : inp) : tty := Tty (ready i) (editing i).

Lemma wrap32_mod128 x : wrap32 x mod 128 = x mod 128.
Proof. unfold wrap32. change (2^32) with (128 * 2^25). rewrite Z.rem_mul_r by lia. rewrite (Z.mul_comm 128), Z_mod_plus_full. apply Z.mod_mod. lia. Qed.
Lemma seg_mod buf k k' n : k mod 128 = k' mod 128 → seg buf k n = seg buf k' n.
Proof.
  intros H. apply list_fmap_ext. intros j x _. unfold at_input, INPUT_BUF. by rewrite <- Z.add_mod_idemp_l, H, Z.add_mod_idemp_l by lia.
Qed.
Lemma seg_app buf k n m : seg buf k (n + m) = seg buf k n ++ seg buf (k + Z.of_nat n) m.
Proof.
  unfold seg. rewrite seq_app, fmap_app. f_equal.
  replace (seq (0 + n) m) with (Nat.add n <$> seq 0 m) by (rewrite fmap_add_seq; f_equal; lia).
  rewrite <- list_fmap_compose. apply list_fmap_ext. intros j x _. simpl. f_equal. lia.
Qed.
Lemma seg_put buf p v k n : length buf = 128%nat → (∀ j, (j < n)%nat → (k + Z.of_nat j) mod 128 ≠ p mod 128) →
  seg (<[Z.to_nat (p mod INPUT_BUF) := v]> buf) k n = seg buf k n.
Proof.
  intros Hl Hne. apply Forall_fmap_ext_1, Forall_forall. intros j Hj%elem_of_seq. unfold at_input, INPUT_BUF in *.
  rewrite !nth_lookup, list_lookup_insert_ne; [done|]. specialize (Hne j ltac:(lia)).
  pose proof (Z.mod_pos_bound (k + Z.of_nat j) 128 ltac:(lia)). pose proof (Z.mod_pos_bound p 128 ltac:(lia)). lia.
Qed.
Lemma seg_put_at buf p v : length buf = 128%nat → seg (<[Z.to_nat (p mod INPUT_BUF) := v]> buf) p 1 = [v].
Proof.
  intros Hl. unfold seg, at_input. simpl. rewrite Z.add_0_r, nth_lookup, list_lookup_insert_eq; [done|].
  pose proof (Z.mod_pos_bound p 128 ltac:(lia)). unfold INPUT_BUF. lia.
Qed.
Lemma length_seg buf k n : length (seg buf k n) = n.
Proof. unfold seg. by rewrite length_fmap, length_seq. Qed.
Lemma seg_take buf k n m : (m ≤ n)%nat → take m (seg buf k n) = seg buf k m.
Proof.
  intros H. replace n with (m + (n - m))%nat by lia. rewrite seg_app, take_app_le by (rewrite length_seg; lia).
  by rewrite take_ge by (rewrite length_seg; lia).
Qed.

(** The three indices, whatever wrapped around. *)
Lemma wrap_steps r w e : is_u32 r → is_u32 w → is_u32 e → wrap32 (w - r) + wrap32 (e - w) < 2^32 →
  wrap32 (e - r) = wrap32 (w - r) + wrap32 (e - w).
Proof.
  intros Hr Hw He H. rewrite <- (wrap32_id (wrap32 (w - r) + wrap32 (e - w))).
  - unfold wrap32. rewrite <- Z.add_mod by lia. f_equal. lia.
  - pose proof (wrap32_range (w - r)). pose proof (wrap32_range (e - w)). unfold is_u32 in *. lia.
Qed.
Lemma wrap_sub_mod x y : wrap32 (x - y) mod 128 = (x - y) mod 128.
Proof. apply wrap32_mod128. Qed.
Lemma w_mod i : inp_ok i → (ir i + in_count i) mod 128 = iw i mod 128.
Proof. intros _. unfold in_count. rewrite <- Z.add_mod_idemp_r, wrap32_mod128, Z.add_mod_idemp_r by lia. f_equal. lia. Qed.
Lemma e_mod i : inp_ok i → (ir i + (in_count i + ed_count i)) mod 128 = ie i mod 128.
Proof.
  intros Hi. rewrite Z.add_assoc, <- Z.add_mod_idemp_l, w_mod, Z.add_mod_idemp_l by (done || lia).
  unfold ed_count. rewrite <- Z.add_mod_idemp_r, wrap32_mod128, Z.add_mod_idemp_r by lia. f_equal. lia.
Qed.
Lemma count_range i : 0 ≤ in_count i < 2^32 ∧ 0 ≤ ed_count i < 2^32.
Proof. split; apply wrap32_range. Qed.
Lemma ready_editing i : inp_ok i → ready i ++ editing i = seg (ibuf i) (ir i) (Z.to_nat (in_count i + ed_count i)).
Proof.
  intros Hi. pose proof (count_range i). rewrite Z2Nat.inj_add, seg_app by lia. unfold ready, editing. f_equal.
  apply seg_mod. rewrite Z2Nat.id by lia. by rewrite w_mod.
Qed.
Lemma total_count i : inp_ok i → wrap32 (ie i - ir i) = in_count i + ed_count i.
Proof. intros [_ (U1 & U2 & U3) Hm]. unfold INPUT_BUF in Hm. apply wrap_steps; try done. fold (in_count i) (ed_count i). lia. Qed.
Lemma no_ready i : inp_ok i → (ir i =? iw i) = (in_count i =? 0).
Proof.
  intros [_ (U1 & U2 & U3) _]. apply Bool.eq_iff_eq_true. unfold in_count. rewrite !Z.eqb_eq.
  unfold wrap32, is_u32 in *. Z.div_mod_to_equations. lia.
Qed.
Lemma no_edit i : inp_ok i → (ie i =? iw i) = (ed_count i =? 0).
Proof.
  intros [_ (U1 & U2 & U3) _]. unfold ed_count, wrap32, is_u32 in *. destruct (Z.eqb_spec (ie i) (iw i)) as [->|Hne].
  - by rewrite Z.sub_diag.
  - destruct (Z.eqb_spec ((ie i - iw i) mod 2^32) 0) as [H|]; [|done]. apply Z.mod_divide in H as [q Hq]; [|lia].
    assert (q = 0) by lia. subst. lia.
Qed.

Lemma edit_put_ok c i : inp_ok i → in_count i + ed_count i < INPUT_BUF →
  inp_ok (edit_put c i) ∧ ready (edit_put c i) = ready i ∧ editing (edit_put c i) = editing i ++ [c mod 2^8].
Proof.
  intros Hi Hlt. pose proof (count_range i) as [Ca Cb]. pose proof Hi as [L (U1 & U2 & U3) Hm]. unfold INPUT_BUF in *.
  assert (Hed : ed_count (edit_put c i) = ed_count i + 1).
  { unfold ed_count, edit_put. simpl. unfold wrap32. rewrite Zminus_mod_idemp_l.
    replace (ie i + 1 - iw i) with ((ie i - iw i) + 1) by lia. rewrite <- Z.add_mod_idemp_l by lia.
    change ((ie i - iw i) mod 2^32) with (ed_count i). apply Z.mod_small. lia. }
  assert (Hin : in_count (edit_put c i) = in_count i) by reflexivity.
  assert (Hslot : ∀ j : nat, Z.of_nat j < in_count i + ed_count i → (ir i + Z.of_nat j) mod 128 ≠ ie i mod 128).
  { intros j Hj E. rewrite <- (e_mod i Hi) in E. revert E. generalize (in_count i + ed_count i) Hj Hlt. intros t Hj' Ht E.
    assert (Hd : (t - Z.of_nat j) mod 128 = 0).
    { replace (t - Z.of_nat j) with ((ir i + t) - (ir i + Z.of_nat j)) by lia. by rewrite Zminus_mod, E, Z.sub_diag. }
    rewrite Z.mod_small in Hd by lia. lia. }
  assert (Hrd : ready (edit_put c i) = ready i).
  { unfold ready. rewrite Hin. apply seg_put; [done|]. intros j Hj. apply Hslot. lia. }
  assert (Hedl : editing (edit_put c i) = editing i ++ [c mod 2^8]).
  { unfold editing at 1. rewrite Hed, Z2Nat.inj_add by lia. rewrite seg_app. f_equal.
    - apply seg_put; [done|]. intros j Hj. cbn [iw edit_put]. rewrite <- Z.add_mod_idemp_l, <- (w_mod i Hi), Z.add_mod_idemp_l by lia.
      replace (ir i + in_count i + Z.of_nat j) with (ir i + Z.of_nat (Z.to_nat (in_count i) + j)) by lia. apply Hslot. lia.
    - rewrite <- (seg_put_at (ibuf i) (ie i) (c mod 2^8) L). cbn [ibuf edit_put]. change (Z.to_nat 1) with 1%nat. apply seg_mod.
      rewrite <- (e_mod i Hi), Z.add_assoc, Z2Nat.id by lia. cbn [iw edit_put].
      by rewrite <- Z.add_mod_idemp_l, <- (w_mod i Hi), Z.add_mod_idemp_l by lia. }
  split_and!; [|done|done]. constructor.
  - cbn. by rewrite length_insert.
  - split_and!; [done|done|apply wrap32_range].
  - rewrite Hed, Hin. unfold INPUT_BUF. lia.
Qed.
Lemma edit_back_ok i : inp_ok i → 0 < ed_count i →
  inp_ok (edit_back i) ∧ ready (edit_back i) = ready i ∧ editing (edit_back i) = take (length (editing i) - 1) (editing i).
Proof.
  intros Hi Hpos. pose proof (count_range i) as [Ca Cb]. pose proof Hi as [L (U1 & U2 & U3) Hm].
  assert (Hed : ed_count (edit_back i) = ed_count i - 1).
  { unfold ed_count, edit_back. simpl. unfold wrap32. rewrite Zminus_mod_idemp_l.
    replace (ie i - 1 - iw i) with ((ie i - iw i) - 1) by lia. rewrite <- Zminus_mod_idemp_l.
    change ((ie i - iw i) mod 2^32) with (ed_count i). apply Z.mod_small. lia. }
  assert (Hedl : editing (edit_back i) = take (length (editing i) - 1) (editing i)).
  { unfold editing. rewrite Hed, length_seg, seg_take by lia. by replace (Z.to_nat (ed_count i - 1)) with (Z.to_nat (ed_count i) - 1)%nat by lia. }
  split_and!; [|done|done]. constructor; [done|split_and!; [done|done|apply wrap32_range]|].
  rewrite Hed. change (in_count (edit_back i)) with (in_count i). lia.
Qed.
Lemma line_commit_ok i : inp_ok i → inp_ok (commit_line i) ∧ ready (commit_line i) = ready i ++ editing i ∧ editing (commit_line i) = [].
Proof.
  intros Hi. pose proof (count_range i) as [Ca Cb]. pose proof Hi as [L (U1 & U2 & U3) Hm].
  assert (Hin : in_count (commit_line i) = in_count i + ed_count i) by by rewrite <- total_count.
  assert (Hed : ed_count (commit_line i) = 0) by (unfold ed_count, commit_line; simpl; by rewrite Z.sub_diag).
  assert (Hedl : editing (commit_line i) = []) by (unfold editing; by rewrite Hed).
  split_and!; [|by rewrite ready_editing by done; unfold ready; rewrite Hin|done].
  constructor; [done|done|]. rewrite Hin, Hed. lia.
Qed.
Lemma read_next_ok i : inp_ok i → 0 < in_count i →
  inp_ok (read_next i) ∧ ready i = read_front i :: ready (read_next i) ∧ editing (read_next i) = editing i.
Proof.
  intros Hi Hpos. pose proof (count_range i) as [Ca Cb]. pose proof Hi as [L (U1 & U2 & U3) Hm].
  assert (Hin : in_count (read_next i) = in_count i - 1).
  { unfold in_count, read_next. simpl. unfold wrap32. rewrite Zminus_mod_idemp_r.
    replace (iw i - (ir i + 1)) with ((iw i - ir i) - 1) by lia. rewrite <- Zminus_mod_idemp_l.
    change ((iw i - ir i) mod 2^32) with (in_count i). apply Z.mod_small. lia. }
  split_and!; [constructor; [done|split_and!; [apply wrap32_range|done|done]|]| |done].
  - rewrite Hin. change (ed_count (read_next i)) with (ed_count i). lia.
  - unfold ready at 1. replace (Z.to_nat (in_count i)) with (1 + Z.to_nat (in_count i - 1))%nat by lia. rewrite seg_app.
    unfold seg at 1. simpl. rewrite Z.add_0_r. f_equal. unfold ready. rewrite Hin. apply seg_mod. cbn [ir read_next]. by rewrite wrap32_mod128.
Qed.
Lemma read_back_next i : inp_ok i → read_back (read_next i) = i.
Proof.
  intros [_ (U1 & _) _]. destruct i. unfold read_back, read_next. simpl in *. f_equal. unfold wrap32. rewrite Zminus_mod_idemp_l.
  rewrite Z.add_simpl_r. by apply Z.mod_small.
Qed.
Lemma edit_last_ok i : inp_ok i → 0 < ed_count i → edit_last i ∈ editing i.
Proof.
  intros Hi Hpos. pose proof (count_range i) as [Ca Cb]. apply list_elem_of_lookup. exists (Z.to_nat (ed_count i - 1)).
  unfold editing, seg. rewrite list_lookup_fmap, lookup_seq_lt by lia. simpl. f_equal. unfold edit_last, at_input, INPUT_BUF.
  do 2 f_equal. rewrite Z2Nat.id, wrap32_mod128 by lia. unfold ed_count.
  replace (iw i + (wrap32 (ie i - iw i) - 1)) with (wrap32 (ie i - iw i) + (iw i - 1)) by lia.
  rewrite <- Z.add_mod_idemp_l, wrap32_mod128, Z.add_mod_idemp_l by lia. f_equal. lia.
Qed.

(** ** The handlers *)

Section Refine.
Context {E D : Type} `{!Services E} `{!Ports D}.
Variable k : lens E (console D).
Context `{!LensOk k}.
Variable ch_r : Z.
Notation l := (env_in k).
Definition inp_of (s : pst E) : inp := c_input (view l s).
Notation ip := inp_of.

Global Instance inp_core : KeepsLens ip core_l.
Proof. done. Qed.
Global Instance inp_pt : KeepsLens ip ptlock_l.
Proof. done. Qed.
Global Instance inp_table : KeepsTable ip.
Proof. done. Qed.
Global Instance inp_lock : KeepsLens ip (cons_lock_l l).
Proof. constructor. intros x s. unfold inp_of. cbn [cons_lock_l upd_lens]. by rewrite view_upd. Qed.
Global Instance inp_out : KeepsLens ip (out_l l).
Proof. constructor. intros x s. unfold inp_of. cbn [out_l upd_lens]. by rewrite view_upd. Qed.
Lemma upd_input_Ok f s u s' : upd_input l f s = Ok (u, s') → ip s' = f (ip s).
Proof. unfold upd_input, modify. intros H. injection H as _ <-. unfold inp_of. simpl. by rewrite view_upd. Qed.

(** The buffer is in order and the line being edited has no end. *)
Definition line_ok (i : inp) : Prop := inp_ok i ∧ 10 ∉ editing i.

Lemma kill_line_ok n : ∀ s u s', kill_line l n s = Ok (u, s') → line_ok (ip s) →
  inp_ok (ip s') ∧ ready (ip s') = ready (ip s) ∧ editing (ip s') = [].
Proof.
  induction n as [|n IH]; intros s u s' H [Hi Hnl]; cbn [kill_line] in H;
    apply bind_Ok in H as (i & s1 & H1 & H); apply gets_Ok in H1 as [-> ->]; fold (ip s) in H;
    pose proof (count_range (ip s)) as [_ Cb]; rewrite (no_edit _ Hi) in H;
    destruct (Z.eqb_spec (ed_count (ip s)) 0) as [He|He]; cbn [negb andb] in H.
  1, 3: apply ret_Ok in H as [_ ->]; split_and!; try done; unfold editing; by rewrite He.
  all: assert (Hlast : edit_last (ip s) ≠ 10) by (intros Hl; apply Hnl; rewrite <- Hl; apply edit_last_ok; [done|lia]);
    rewrite (proj2 (Z.eqb_neq _ _) Hlast) in H; cbn [negb] in H.
  1: done.
  apply bind_Ok in H as (? & s2 & H2 & H). apply upd_input_Ok in H2. apply bind_Ok in H as (? & s3 & H3 & H).
  apply (keeps_on_lens ip (out_l l)) in H3. destruct (edit_back_ok (ip s) Hi ltac:(lia)) as (B1 & B2 & B3).
  rewrite <- H2, <- H3 in B1, B2, B3. destruct (IH _ _ _ H) as (R1 & R2 & R3).
  { split; [done|]. rewrite B3. intros Hin. by apply elem_of_take in Hin as (j & Hin%list_elem_of_lookup_2 & _). }
  split_and!; try done. congruence.
Qed.

Lemma elem_of_take_sub {A} (x : A) n (xs : list A) : x ∈ take n xs → x ∈ xs.
Proof. intros H. by apply elem_of_take in H as (j & H%list_elem_of_lookup_2 & _). Qed.

Lemma full_eq i : inp_ok i →
  (ie i =? wrap32 (ir i + INPUT_BUF)) = (Z.of_nat (length (ready i) + length (editing i)) =? INPUT_BUF).
Proof.
  intros Hi. unfold ready, editing. rewrite !length_seg. pose proof (count_range i).
  rewrite Nat2Z.inj_add, !Z2Nat.id by lia. rewrite <- (total_count _ Hi). destruct Hi as [_ (U1 & _ & U3) Hm].
  apply eq_true_iff_eq. rewrite !Z.eqb_eq. unfold wrap32, is_u32, INPUT_BUF in *.
  split; [intros ->; rewrite Zminus_mod_idemp_l; by replace (ir i + 128 - ir i) with 128 by lia|].
  intros Hd. replace (ir i + 128) with (ie i - ((ie i - ir i) - 128)) by lia.
  rewrite Zminus_mod, (Zminus_mod (_ - _)), Hd. change ((128 mod 2^32 - 128 mod 2^32) mod 2^32) with 0.
  rewrite Z.sub_0_r, Z.mod_mod by lia. symmetry. by apply Z.mod_small.
Qed.
(** One character. *)
Lemma intr_key_ok c s b s' : 0 ≤ c < 2^8 → intr_key l ch_r c s = Ok (b, s') → line_ok (ip s) →
  line_ok (ip s') ∧ tty_of (ip s') = type_key c (tty_of (ip s)).
Proof.
  intros Hc H Hl. pose proof Hl as [Hi Hnl]. pose proof (count_range (ip s)) as [Ca Cb]. unfold intr_key, type_key in *.
  destruct (c =? Ctl 80); [by apply ret_Ok in H as [_ ->]|]. apply bind_Ok in H as ([] & s1 & H1 & H). apply ret_Ok in H as [_ ->].
  destruct (c =? Ctl 85).
  { destruct (kill_line_ok _ _ _ _ H1 Hl) as (K1 & K2 & K3). unfold tty_of. rewrite K2, K3. split; [|done].
    split; [done|]. rewrite K3. apply not_elem_of_nil. }
  destruct ((c =? Ctl 72) || (c =? 127)).
  { apply bind_Ok in H1 as (i & s2 & H2 & H1). apply gets_Ok in H2 as [-> ->]. fold (ip s) in H1. rewrite (no_edit _ Hi) in H1.
    unfold tty_of. cbn [t_ready t_edit]. destruct (Z.eqb_spec (ed_count (ip s)) 0) as [He|He]; cbn [negb] in H1.
    - apply ret_Ok in H1 as [_ ->]. split; [done|]. assert (editing (ip s) = []) as -> by (unfold editing; by rewrite He). done.
    - apply bind_Ok in H1 as (? & s3 & H3 & H1). apply upd_input_Ok in H3. apply (keeps_on_lens ip (out_l l)) in H1.
      destruct (edit_back_ok (ip s) Hi ltac:(lia)) as (B1 & B2 & B3). rewrite <- H3, <- H1 in B1, B2, B3. rewrite B2, B3.
      split; [|done]. split; [done|]. rewrite B3. by intros ?%elem_of_take_sub. }
  apply bind_Ok in H1 as (i & s2 & H2 & H1). apply gets_Ok in H2 as [-> ->]. fold (ip s) in H1. rewrite (total_count _ Hi) in H1.
  assert (Hlen : Z.of_nat (length (ready (ip s)) + length (editing (ip s))) = in_count (ip s) + ed_count (ip s)).
  { unfold ready, editing. rewrite !length_seg. lia. }
  change (t_ready (tty_of (ip s))) with (ready (ip s)). change (t_edit (tty_of (ip s))) with (editing (ip s)).
  rewrite Hlen. rewrite Z.leb_antisym.
  destruct (c =? 0); cbn [negb andb orb] in *; [by apply ret_Ok in H1 as [_ ->]|].
  destruct (Z.ltb_spec (in_count (ip s) + ed_count (ip s)) INPUT_BUF) as [Hlt|Hge]; cbn [negb] in *; [|by apply ret_Ok in H1 as [_ ->]].
  set (c' := if c =? 13 then 10 else c) in *. assert (Hc' : 0 ≤ c' < 2^8) by (unfold c'; destruct (c =? 13); lia).
  cbv zeta. apply bind_Ok in H1 as (? & s3 & H3 & H1). apply upd_input_Ok in H3. apply bind_Ok in H1 as (? & s4 & H4 & H1).
  apply (keeps_on_lens ip (out_l l)) in H4. destruct (edit_put_ok c' (ip s) Hi Hlt) as (P1 & P2 & P3).
  rewrite <- H3, <- H4 in P1, P2, P3. apply bind_Ok in H1 as (i & s5 & H5 & H1). apply gets_Ok in H5 as [-> ->]. fold (ip s4) in H1.
  rewrite (full_eq _ P1), P2, P3 in H1. destruct (_ || _ || _) eqn:Hend.
  - apply bind_Ok in H1 as (? & s6 & H6 & H1). apply upd_input_Ok in H6. apply (keeps_wakeup ip) in H1; [|apply _..].
    destruct (line_commit_ok _ P1) as (Q1 & Q2 & Q3). rewrite <- H6, <- H1 in Q1, Q2, Q3. rewrite P2, P3 in Q2.
    unfold tty_of. rewrite Q2, Q3. split; [|done]. split; [done|]. rewrite Q3. apply not_elem_of_nil.
  - apply ret_Ok in H1 as [_ ->]. unfold tty_of. rewrite P2, P3. split; [|done]. split; [done|]. rewrite P3.
    rewrite elem_of_app, list_elem_of_singleton, Z.mod_small by lia. intros [?|Hc10]; [done|]. by rewrite <- Hc10 in Hend.
Qed.

(** Printing the process table changes what printing changes. *)
Lemma keeps_procdump {T} (f : pst E → T) : (∀ fmt args, keeps f (Proc.cprintf (E := E) fmt args)) → keeps f procdump.
Proof.
  intros Hp. unfold procdump. apply keeps_bind; [apply keeps_gets|]. intros tbl. apply keeps_forM. intros p.
  unfold procdump_row. apply keeps_if; [apply keeps_ret|]. apply keeps_bind; [apply Hp|]. intros _.
  apply keeps_bind; [|intros _; apply Hp]. apply keeps_when, keeps_bind; [apply keeps_gets|]. intros m.
  apply keeps_forM. intros pc. apply Hp.
Qed.

(** The characters a device still has for [getc]; nothing else reads them. *)
Section Keys.
Variable keys : pst E → list Z.
Context `{!KeepsLens keys core_l} `{!KeepsLens keys ptlock_l} `{!KeepsTable keys}.
Context `{!KeepsLens keys (cons_lock_l l)} `{!KeepsLens keys (out_l l)}.
Hypothesis keys_input : ∀ f s u s', upd_input l f s = Ok (u, s') → keys s' = keys s.
(** [getc] gives the next character, or a negative number when there is none. *)
Variable getc : M (pst E) Z.
Definition serves : Prop := ∀ s c s', getc s = Ok (c, s') → ip s' = ip s ∧
  match keys s with [] => c < 0 ∧ keys s' = [] | x :: ks => c = x ∧ keys s' = ks end.

Lemma keeps_input f : keeps keys (upd_input l f).
Proof. intros s u s' H. by eapply keys_input. Qed.
Lemma keeps_kill n : keeps keys (kill_line l n).
Proof.
  induction n as [|n IH]; cbn [kill_line]; apply keeps_bind; try (intros i); try apply keeps_gets;
    apply keeps_if; try apply keeps_ret; [apply keeps_fault|].
  apply keeps_bind; [apply keeps_input|]. intros _. apply keeps_bind; [apply keeps_on_lens, _|]. by intros _.
Qed.
Lemma keeps_key c : keeps keys (intr_key l ch_r c).
Proof.
  unfold intr_key. apply keeps_if; [apply keeps_ret|]. apply keeps_bind; [|intros _; apply keeps_ret].
  apply keeps_if; [apply keeps_kill|]. apply keeps_if.
  - apply keeps_bind; [apply keeps_gets|]. intros i. apply keeps_if; [|apply keeps_ret].
    apply keeps_bind; [apply keeps_input|]. intros _. apply keeps_on_lens, _.
  - apply keeps_bind; [apply keeps_gets|]. intros i. apply keeps_if; [|apply keeps_ret].
    apply keeps_bind; [apply keeps_input|]. intros _. apply keeps_bind; [apply keeps_on_lens, _|]. intros _.
    apply keeps_bind; [apply keeps_gets|]. intros j. apply keeps_if; [|apply keeps_ret].
    apply keeps_bind; [apply keeps_input|]. intros _. apply keeps_wakeup; apply _.
Qed.
Lemma intr_loop_ok n : serves → ∀ s d b s', intr_loop l ch_r n getc d s = Ok (b, s') → line_ok (ip s) →
  Forall (λ c, 0 ≤ c < 2^8) (keys s) →
  line_ok (ip s') ∧ keys s' = [] ∧ tty_of (ip s') = foldl (λ t c, type_key c t) (tty_of (ip s)) (keys s).
Proof.
  intros Hs. induction n as [|n IH]; intros s d b s' H Hl Hk; cbn [intr_loop] in H;
    apply bind_Ok in H as (c & s1 & H1 & H); destruct (Hs _ _ _ H1) as [E1 E2]; destruct (keys s) as [|x ks] eqn:Ek.
  1, 3: destruct E2 as [Hc E2]; rewrite (proj2 (Z.ltb_lt c 0)) in H by done; apply ret_Ok in H as [_ ->]; rewrite E1; done.
  all: destruct E2 as [-> E2]; apply Forall_cons in Hk as [Hx Hk]; rewrite (proj2 (Z.ltb_ge x 0)) in H by lia.
  1: done.
  apply bind_Ok in H as (d' & s2 & H2 & H). pose proof (keeps_key x _ _ _ H2) as Ek2. rewrite <- E1 in Hl.
  destruct (intr_key_ok x _ _ _ Hx H2 Hl) as [Hl2 Ht]. destruct (IH _ _ _ _ H Hl2) as (L & K & T); [by rewrite Ek2, E2|].
  split_and!; try done. rewrite T, Ek2, E2, Ht, E1. done.
Qed.

End Keys.

(** *** Reading *)

(** What happens to the line discipline while someone reads: characters are
    typed, and the first ready character is taken; [true] marks what the
    process under consideration does. *)
Notation tevents := (list (bool * (Z + Z))).
Definition tty_step (e : Z + Z) (t : tty) : option tty :=
  match e with
  | inl c => Some (type_key c t)
  | inr b => match t_ready t with x :: rd => if x =? b then Some (Tty rd (t_edit t)) else None | [] => None end
  end.
Fixpoint trun (tr : tevents) (t : tty) : option tty :=
  match tr with [] => Some t | e :: tr' => tty_step e.2 t ≫= trun tr' end.
Definition own (tr : tevents) : list (Z + Z) := (filter (λ e : bool * (Z + Z), e.1 = true) tr).*2.
Notation tty_at s := (tty_of (ip s)).
(** What others do while this process sleeps is some history, and keeps the
    buffer in order. *)
Definition tfair (o : M (pst E) unit) : Prop := ∀ s s', o s = Ok (tt, s') → line_ok (ip s) →
  line_ok (ip s') ∧ ∃ tr, own tr = [] ∧ trun tr (tty_at s) = Some (tty_at s').

Lemma trun_app tr1 tr2 t t1 t2 : trun tr1 t = Some t1 → trun tr2 t1 = Some t2 → trun (tr1 ++ tr2) t = Some t2.
Proof.
  revert t. induction tr1 as [|e tr1 IH]; intros t H1 H2; simpl in *; [by injection H1 as ->|].
  destruct (tty_step e.2 t); [|done]. simpl in *. by apply IH.
Qed.
Lemma own_app tr1 tr2 : own (tr1 ++ tr2) = own tr1 ++ own tr2.
Proof. unfold own. by rewrite filter_app, fmap_app. Qed.

Variables iunlock_ip ilock_ip : M (pst E) unit.
(** The inode's lock is not part of the console. *)
Hypothesis unlock_keeps : keeps ip iunlock_ip.
Hypothesis lock_keeps : keeps ip ilock_ip.

Lemma keeps_me_killed : keeps ip me_killed.
Proof. unfold me_killed. keeps. Qed.
Lemma wait_input_trace others : Forall tfair others → ∀ s b rest s',
  wait_input l ch_r ilock_ip others s = Ok ((b, rest), s') → line_ok (ip s) →
  Forall tfair rest ∧ line_ok (ip s') ∧ (b = true → 0 < in_count (ip s')) ∧
  ∃ tr, own tr = [] ∧ trun tr (tty_at s) = Some (tty_at s').
Proof.
  induction others as [|o others IH]; intros Hf s b rest s' H Hl; pose proof Hl as [Hi _]; pose proof (count_range (ip s)) as [Ca _].
  all: apply bind_Ok in H as (i & s1 & H1 & H); apply gets_Ok in H1 as [-> ->]; fold (ip s) in H.
  all: rewrite (no_ready _ Hi) in H; destruct (Z.eqb_spec (in_count (ip s)) 0) as [Ee|Ee]; cbn [negb] in H;
    [|apply ret_Ok in H as [[= -> ->] ->]; split_and!; try done; [lia|by exists []]].
  all: apply bind_Ok in H as (kl & s2 & H2 & H); apply keeps_me_killed in H2.
  all: destruct kl; [apply bind_Ok in H as (u & s3 & H3 & H); apply bind_Ok in H as (u' & s4 & H4 & H);
    apply ret_Ok in H as [[= -> ->] ->]; apply (keeps_release ip core_l (cons_lock_l l)) in H3; apply lock_keeps in H4;
    rewrite H4, H3, H2; split_and!; try done; by exists []|].
  - done.
  - apply Forall_cons in Hf as [Ho Hf]. apply bind_Ok in H as (u' & s4 & H4 & H).
    apply (sleep_others ip) in H4 as (s5 & s6 & Ho' & E5 & E6); [|apply _].
    destruct (Ho _ _ Ho') as (L6 & tr1 & O1 & R1); [by rewrite E5, H2|]. rewrite <- E6 in L6, R1. rewrite E5, H2 in R1.
    destruct (IH Hf _ _ _ _ H L6) as (Hrest & L & Hb & tr2 & O2 & R2). split_and!; try done.
    exists (tr1 ++ tr2). rewrite own_app, O1, O2. split; [done|]. by eapply trun_app.
Qed.

(** What the copying loop has done when it ends with [bytes]: either it has
    what it was asked for or a newline, or the next character is a control-D
    left for the next call, or it took a control-D as the first character. *)
Definition stops (n : nat) (bytes : list Z) (t : tty) : Prop :=
  (length bytes = n ∨ (∃ b0, bytes = b0 ++ [10]) ∨ bytes ≠ [] ∧ head (t_ready t) = Some (Ctl 68)).
Lemma take_step s : line_ok (ip s) → 0 < in_count (ip s) →
  tty_step (inr (read_front (ip s))) (tty_at s) = Some (tty_of (read_next (ip s))) ∧ line_ok (read_next (ip s)) ∧
  t_ready (tty_at s) = read_front (ip s) :: ready (read_next (ip s)).
Proof.
  intros [Hi Hnl] Hc. destruct (read_next_ok (ip s) Hi Hc) as (N1 & N2 & N3). unfold tty_step, tty_of. cbn [t_ready t_edit].
  rewrite N2, Z.eqb_refl, N3. split_and!; [done| |done]. split; [done|]. by rewrite N3.
Qed.
Lemma cread_trace n : ∀ fresh others s r s', Forall tfair others →
  cread_loop l ch_r ilock_ip n fresh others s = Ok (r, s') → line_ok (ip s) →
  line_ok (ip s') ∧ ∃ tr, trun tr (tty_at s) = Some (tty_at s') ∧
  match r with
  | None => True
  | Some bytes => (length bytes ≤ n)%nat ∧ Ctl 68 ∉ bytes ∧ (∀ b0 b1, bytes = b0 ++ [10] ++ b1 → b1 = []) ∧
      (own tr = inr <$> bytes ∧ (length bytes = n ∨ (∃ b0, bytes = b0 ++ [10]) ∨
         (fresh = false ∨ bytes ≠ []) ∧ head (t_ready (tty_at s')) = Some (Ctl 68)) ∨
       fresh = true ∧ bytes = [] ∧ own tr = [inr (Ctl 68)])
  end.
Proof.
  induction n as [|n IH]; intros fresh others s r s' Hf H Hl.
  { apply ret_Ok in H as [-> ->]. split; [done|]. exists []. split_and!; try done; [apply not_elem_of_nil| |left; auto].
    intros [|? ?] b1 Eb; done. }
  cbn [cread_loop] in H. apply bind_Ok in H as ([ok rest] & s1 & H1 & H).
  destruct (wait_input_trace _ Hf _ _ _ _ H1 Hl) as (Hrest & L1 & Hok & tr1 & O1 & R1). cbn [fst snd] in H.
  destruct ok; cbn [negb] in H; [|apply ret_Ok in H as [-> ->]; split; [done|]; by exists tr1].
  apply bind_Ok in H as (i & s2 & H2 & H). apply gets_Ok in H2 as [-> ->]. fold (ip s1) in H.
  destruct (take_step s1 L1 (Hok eq_refl)) as (T1 & T2 & T3). set (c := read_front (ip s1)) in *.
  apply bind_Ok in H as (? & s3 & H3 & H). apply upd_input_Ok in H3.
  assert (Rc : trun (tr1 ++ [(true, inr c)]) (tty_at s) = Some (tty_at s3)).
  { eapply trun_app; [done|]. cbn [trun snd]. rewrite T1. cbn. by rewrite H3. }
  assert (Oc : own (tr1 ++ [(true, inr c)]) = [inr c]) by by rewrite own_app, O1.
  assert (L3 : line_ok (ip s3)) by by rewrite H3.
  destruct (Z.eqb_spec c (Ctl 68)) as [Ec|Ec].
  - apply bind_Ok in H as (? & s4 & H4 & H). apply ret_Ok in H as [-> ->]. destruct fresh.
    + apply ret_Ok in H4 as [_ ->]. split; [done|]. exists (tr1 ++ [(true, inr c)]). split; [done|]. split; [simpl; lia|].
      split; [apply not_elem_of_nil|]. split; [by intros [|? ?] b1 Eb|]. right. rewrite Oc, Ec. done.
    + apply upd_input_Ok in H4. rewrite H3, read_back_next in H4 by apply L1. split; [by rewrite H4|]. exists tr1. rewrite H4.
      split; [done|]. split; [simpl; lia|]. split; [apply not_elem_of_nil|]. split; [by intros [|? ?] b1 Eb|].
      left. split; [done|]. right. right. split; [by left|]. rewrite T3. simpl. by rewrite Ec.
  - destruct (Z.eqb_spec c 10) as [E10|E10].
    + apply ret_Ok in H as [-> ->]. split; [done|]. exists (tr1 ++ [(true, inr c)]). split; [done|]. split; [simpl; lia|].
      split; [by rewrite list_elem_of_singleton|]. rewrite E10 in *. split; [intros [|? [|? ?]] b1 Eb; by simplify_eq/=|].
      left. split; [done|]. right. left. by exists [].
    + apply bind_Ok in H as (r2 & s4 & H4 & H). apply ret_Ok in H as [-> ->].
      destruct (IH _ _ _ _ _ Hrest H4 L3) as (L4 & tr2 & R2 & Hr). split; [done|]. exists ((tr1 ++ [(true, inr c)]) ++ tr2).
      split; [by eapply trun_app|]. destruct r2 as [bytes|]; [|done]. simpl. destruct Hr as (B1 & B2 & B3 & B4).
      split; [lia|]. split; [by rewrite not_elem_of_cons|]. split.
      { intros [|b b0] b1 Eb; simpl in Eb; injection Eb as -> Eb; [done|]. by apply (B3 b0). }
      left. destruct B4 as [[B5 B6]|(? & _)]; [|done]. rewrite own_app, Oc, B5. split; [done|].
      destruct B6 as [B6|[[b0 ->]|[_ B6]]]; [left; by rewrite B6|right; left; by exists (c :: b0)|right; right; split; [by right|done]].
Qed.

(** C24: [consoleread] hands over lines.  With other processes and the keyboard
    active while it sleeps, a call takes the ready characters in order, and
    nothing else: at most [n], up to and including the first newline.  A
    control-D ends the input: met first, it is consumed and the call returns
    0, the end of file; met later, it is left in the buffer for the next call.
    The result is the number of bytes stored, or -1 for a killed process. *)
Theorem consoleread_lines others n s m bytes s' (Hf : Forall tfair others) (Hl : line_ok (ip s))
  (Hrun : consoleread l ch_r iunlock_ip ilock_ip others n s = Ok ((m, bytes), s')) :
  line_ok (ip s') ∧ ∃ tr, trun tr (tty_at s) = Some (tty_at s') ∧
  (m = -1 ∧ bytes = [] ∨
   m = Z.of_nat (length bytes) ∧ m ≤ Z.max 0 n ∧ Ctl 68 ∉ bytes ∧ (∀ b0 b1, bytes = b0 ++ [10] ++ b1 → b1 = []) ∧
   (own tr = inr <$> bytes ∧ stops (Z.to_nat n) bytes (tty_at s') ∨ m = 0 ∧ own tr = [inr (Ctl 68)])).
Proof.
  unfold consoleread in Hrun. apply bind_Ok in Hrun as (? & s1 & H1 & H). apply unlock_keeps in H1.
  apply bind_Ok in H as (? & s2 & H2 & H). apply (keeps_acquire ip core_l (cons_lock_l l)) in H2.
  apply bind_Ok in H as (r & s3 & H3 & H). assert (L2 : line_ok (ip s2)) by by rewrite H2, H1.
  destruct (cread_trace _ _ _ _ _ _ Hf H3 L2) as (L3 & tr & R & Hr). rewrite H2, H1 in R.
  destruct r as [bs|]; [|apply ret_Ok in H as [[= -> ->] ->]; split; [done|]; exists tr; split; [done|by left]].
  apply bind_Ok in H as (? & s4 & H4 & H). apply (keeps_release ip core_l (cons_lock_l l)) in H4.
  apply bind_Ok in H as (? & s5 & H5 & H). apply lock_keeps in H5. apply ret_Ok in H as [[= -> ->] ->].
  rewrite H5, H4. split; [done|]. exists tr. split; [done|]. right. destruct Hr as (B1 & B2 & B3 & B4). split_and!; try done; [lia|].
  destruct B4 as [[B5 B6]|(_ & -> & B5)]; [left|right; done]. split; [done|]. unfold stops.
  destruct B6 as [?|[?|[[?|?] ?]]]; auto.
Qed.
End Refine.

(** *** Witnesses *)

(** A process on CPU 0; the machine has a console and a keyboard queue. *)
Definition desk : Type := (mem * console demo_dev) * list Z.
Definition desk_mem : lens desk mem := Lens (λ e, e.1.1) (λ m e, ((m, e.1.2), e.2)).
Definition desk_console : lens desk (console demo_dev) := Lens (λ e, e.1.2) (λ c e, ((e.1.1, c), e.2)).
#[local] Instance desk_services : Services desk := plain_services_on desk_mem.
#[local] Instance desk_console_ok : LensOk desk_console.
Proof. split; by intros; try destruct s as [[? ?] ?]. Qed.
Definition no_input : inp := Inp (replicate 128 0) 0xffffffff 0xffffffff 0xffffffff.
Definition at_desk (i : inp) (ks : list Z) : pst desk :=
  Pst {| cpus := [Spin.Cpu 0 0 false (Some 0%nat) true]; me := 0 |} (initlock "ptable")
    [set_pid 1 (set_state RUNNING proc0)] 2 (Some 0%nat) 0 (initlock "time") false
    ((λ _, 0, Cons (initlock "console") true i (Con false false (λ _, 0) (DemoDev 0 0 []))), ks).
Definition desk_keys (s : pst desk) : list Z := (penv s).2.
Definition desk_getc : M (pst desk) Z := λ s,
  match desk_keys s with
  | [] => Ok (-1, s)
  | c :: ks => Ok (c, upd_lens env_l ((penv s).1, ks) s)
  end.
#[local] Instance keys_core : KeepsLens desk_keys core_l.
Proof. done. Qed.
#[local] Instance keys_pt : KeepsLens desk_keys ptlock_l.
Proof. done. Qed.
#[local] Instance keys_table : KeepsTable desk_keys.
Proof. done. Qed.
#[local] Instance keys_lock : KeepsLens desk_keys (cons_lock_l (env_in desk_console)).
Proof. done. Qed.
#[local] Instance keys_out : KeepsLens desk_keys (out_l (env_in desk_console)).
Proof. done. Qed.
Lemma no_input_ok : line_ok no_input.
Proof. split; [by constructor|apply not_elem_of_nil]. Qed.
Definition typed_line : pst desk := after (consoleintr (env_in desk_console) 0x80200000 10 desk_getc) (at_desk no_input [97; 8; 98; 13]).
Lemma typed_run : consoleintr (env_in desk_console) 0x80200000 10 desk_getc (at_desk no_input [97; 8; 98; 13]) = Ok (tt, typed_line).
Proof. by vm_compute. Qed.
Definition read_line : pst desk :=
  after (consoleread (env_in desk_console) 0x80200000 (mret tt) (mret tt) [] 10) typed_line.
Lemma read_run : consoleread (env_in desk_console) 0x80200000 (mret tt) (mret tt) [] 10 typed_line = Ok ((2, [98; 10]), read_line).
Proof. by vm_compute. Qed.
Lemma consoleread_lines_witness : ∃ tr, trun tr (tty_of (inp_of desk_console typed_line)) = Some (tty_of (inp_of desk_console read_line)) ∧
  own tr = [inr 98; inr 10].
Proof.
  destruct (consoleread_lines desk_console 0x80200000 (mret tt) (mret tt)) with (others := @nil (M (pst desk) unit)) (n := 10)
    (s := typed_line) (m := 2) (bytes := [98; 10]) (s' := read_line) as (_ & tr & H1 & H2).
  - apply keeps_ret.
  - apply keeps_ret.
  - constructor.
  - split; [by vm_compute|]. assert (editing (inp_of desk_console typed_line) = []) as -> by by vm_compute. apply not_elem_of_nil.
  - exact read_run.
  - exists tr. split; [exact H1|]. destruct H2 as [[? _]|(_ & _ & _ & _ & [[H2 _]|[? _]])]; [discriminate|exact H2|discriminate].
Defined.
