(* ===== verification/Kbd.v ===== *)
(** * Keyboard and serial port

    [kbd.c], [kbd.h] and the rest of [uart.c]: the translation of scan codes to
    characters with its modifier state, and the two [getc]s that feed
    [consoleintr]. *)

From S2P Require Import Prelude Machine Str Spin Flt ProcTable Proc Printf Console.
Local Open Scope Z_scope.

(** ** The tables of [kbd.h] *)

Definition KBSTATP : Z := 0x64.
Definition KBS_DIB : Z := 0x01.
Definition KBDATAP : Z := 0x60.
Definition SHIFT : Z := Z.shiftl 1 0.
Definition CTL : Z := Z.shiftl 1 1.
Definition ALT : Z := Z.shiftl 1 2.
Definition CAPSLOCK : Z := Z.shiftl 1 3.
Definition NUMLOCK : Z := Z.shiftl 1 4.
Definition SCROLLLOCK : Z := Z.shiftl 1 5.
Definition E0ESC : Z := Z.shiftl 1 6.

(** An array of 256 bytes with the given leading and designated entries. *)
Definition array256 (first : list Z) (rest : list (nat * Z)) : list Z :=
  foldl (λ t e, <[e.1 := e.2]> t) (first ++ replicate (256 - length first) 0) rest.
Definition shiftcode : list Z :=
  array256 [] [(0x1D%nat, CTL); (0x2A%nat, SHIFT); (0x36%nat, SHIFT); (0x38%nat, ALT); (0x9D%nat, CTL); (0xB8%nat, ALT)].
Definition togglecode : list Z := array256 [] [(0x3A%nat, CAPSLOCK); (0x45%nat, NUMLOCK); (0x46%nat, SCROLLLOCK)].
(** The keys of the extended code, with the keypad's Enter and slash. *)
Definition extended (enter slash : Z) : list (nat * Z) :=
  [(0x9C%nat, enter); (0xB5%nat, slash); (0xC8%nat, 0xE2); (0xD0%nat, 0xE3); (0xC9%nat, 0xE6); (0xD1%nat, 0xE7);
   (0xCB%nat, 0xE4); (0xCD%nat, 0xE5); (0x97%nat, 0xE0); (0xCF%nat, 0xE1); (0xD2%nat, 0xE8); (0xD3%nat, 0xE9)].
Definition normalmap : list Z := array256
  ([0; 0x1B] ++ chars "1234567890-=" ++ [8; 9] ++ chars "qwertyuiop[]" ++ [10; 0] ++ chars "asdfghjkl;'`" ++ [0; 92] ++
   chars "zxcvbnm,./" ++ [0; 42; 0; 32; 0; 0; 0; 0; 0; 0; 0; 0; 0; 0; 0; 0; 0] ++ chars "789-456+1230." ++ [0; 0; 0; 0])
  (extended 10 47).
Definition shiftmap : list Z := array256
  ([0; 27] ++ chars "!@#$%^&*()_+" ++ [8; 9] ++ chars "QWERTYUIOP{}" ++ [10; 0] ++ chars "ASDFGHJKL:" ++ [34; 126; 0; 124] ++
   chars "ZXCVBNM<>?" ++ [0; 42; 0; 32; 0; 0; 0; 0; 0; 0; 0; 0; 0; 0; 0; 0; 0] ++ chars "789-456+1230." ++ [0; 0; 0; 0])
  (extended 10 47).
(** [C(x)] of the characters of a string. *)
Definition ctl (x : string) : list Z := Ctl <$> chars x.
Definition ctlmap : list Z := array256
  (replicate 16 0 ++ ctl "QWERTYUIOP" ++ [0; 0; 13; 0] ++ ctl "ASDFGHJKL" ++ [0; 0; 0; 0; Ctl 92] ++
   ctl "ZXCVBNM" ++ [0; 0; (Ctl 47) mod 2^8; 0; 0])
  (extended 13 ((Ctl 47) mod 2^8)).
Definition byte_at (t : list Z) (i : Z) : Z := nth (Z.to_nat i) t 0.

(** ** Scan codes to characters *)

(** [if(shift & CAPSLOCK) ...] *)
Definition caps (shift c : Z) : Z :=
  if Z.land shift CAPSLOCK =? 0 then c
  else if (97 <=? c) && (c <=? 122) then c + (65 - 97)
  else if (65 <=? c) && (c <=? 90) then c + (97 - 65) else c.
(** The translation of [kbdgetc]: the new [shift] and the result. *)
Definition translate (shift data : Z) : Z * Z :=
  if data =? 0xE0 then (Z.lor shift E0ESC, 0)
  else if negb (Z.land data 0x80 =? 0) then
    let data := if negb (Z.land shift E0ESC =? 0) then data else Z.land data 0x7F in
    (Z.ldiff shift (Z.lor (byte_at shiftcode data) E0ESC), 0)
  else
    let '(data, shift) := if negb (Z.land shift E0ESC =? 0) then (Z.lor data 0x80, Z.ldiff shift E0ESC) else (data, shift) in
    let shift := Z.lor shift (byte_at shiftcode data) in
    let shift := Z.lxor shift (byte_at togglecode data) in
    let charcode := nth (Z.to_nat (Z.land shift (Z.lor CTL SHIFT))) [normalmap; shiftmap; ctlmap; ctlmap] [] in
    (shift, caps shift (byte_at charcode data)).

Section Devices.
Context {D : Type} `{!Ports D}.
(** The keyboard's [shift] and the devices. *)
Record kbd := Kbd { k_shift : Z; k_dev : D }.
Definition kin (p : Z) : M kbd Z := λ s, let '(v, d) := inb p (k_dev s) in Ok (v, Kbd (k_shift s) d).
Definition kbdgetc : M kbd Z :=
  st ← kin KBSTATP;
  if Z.land st KBS_DIB =? 0 then mret (-1) else
  data ← kin KBDATAP;
  sh ← gets k_shift;
  let '(sh', c) := translate sh data in
  modify (λ s, Kbd sh' (k_dev s));;
  mret c.

(** [uartinit] with the routing of its interrupt ([ioapicenable]) left to the
    caller; the result says whether to do it. *)
Definition uartinit : M (con D) bool :=
  out_ (COM1 + 2) 0;;
  out_ (COM1 + 3) 0x80;;
  out_ (COM1 + 0) (115200 / 9600);;
  out_ (COM1 + 1) 0;;
  out_ (COM1 + 3) 0x03;;
  out_ (COM1 + 4) 0;;
  out_ (COM1 + 1) 0x01;;
  v ← in_ (COM1 + 5);
  if v =? 0xFF then mret false else
  modify (λ s, Con (panicked s) true (crt s) (dev s));;
  in_ (COM1 + 2);;
  in_ (COM1 + 0);;
  forM (chars "xv6..." ++ [10]) uartputc;;
  mret true.
Definition uartgetc : M (con D) Z :=
  u ← gets uart;
  if negb u then mret (-1) else
  v ← in_ (COM1 + 5);
  if Z.land v 0x01 =? 0 then mret (-1) else in_ (COM1 + 0).
End Devices.
Arguments kbd _ : clear implicits.

Section Interrupts.
Context {E D : Type} `{!Services E} `{!Ports D}.
Variable l : lens (pst E) (console D).
Variable kl : lens (pst E) (kbd D).
Variable ch_r : Z.
Definition kbdintr (fuel : nat) : M (pst E) unit := consoleintr l ch_r fuel (on_lens kl kbdgetc).
Definition uartintr (fuel : nat) : M (pst E) unit := consoleintr l ch_r fuel (on_lens (out_l l) uartgetc).
End Interrupts.

(** ** What the keys type *)

Definition on (m shift : Z) : bool := negb (Z.land shift m =? 0).
Lemma on_low m shift : Z.land 15 m = m → on m shift = on m (shift mod 16).
Proof.
  intros H. unfold on. rewrite <- H at 1. rewrite Z.land_assoc. change 15 with (Z.ones 4) at 1. by rewrite Z.land_ones by lia.
Qed.
(** A letter with the given modifiers. *)
Definition letter (shift c : Z) : Z :=
  if on CTL shift then c - 96 else if xorb (on SHIFT shift) (on CAPSLOCK shift) then c - 32 else c.
(** The letter keys. *)
Definition letter_keys : list Z := filter (λ d, 97 ≤ byte_at normalmap d ≤ 122) (seqZ 0 128).
Lemma letter_keys_table d : d ∈ letter_keys → byte_at shiftcode d = 0 ∧ byte_at togglecode d = 0 ∧ Z.land d 0x80 = 0 ∧ d ≠ 0xE0 ∧
  ∀ s, 0 ≤ s < 16 → caps s (byte_at (nth (Z.to_nat (Z.land s (Z.lor CTL SHIFT))) [normalmap; shiftmap; ctlmap; ctlmap] []) d) =
    letter s (byte_at normalmap d).
Proof.
  assert (H : forallb (λ d, (byte_at shiftcode d =? 0) && (byte_at togglecode d =? 0) && (Z.land d 0x80 =? 0) && negb (d =? 0xE0) &&
    forallb (λ s, caps s (byte_at (nth (Z.to_nat (Z.land s (Z.lor CTL SHIFT))) [normalmap; shiftmap; ctlmap; ctlmap] []) d) =?
      letter s (byte_at normalmap d)) (seqZ 0 16)) letter_keys = true) by by vm_compute.
  rewrite forallb_forall in H. intros Hd%list_elem_of_In. specialize (H d Hd).
  rewrite !andb_true_iff, negb_true_iff, !Z.eqb_eq, Z.eqb_neq, forallb_forall in H. destruct H as [[[[H1 H2] H3] H4] H5].
  split_and!; try done. intros s Hs. apply Z.eqb_eq, H5, list_elem_of_In, elem_of_seqZ. lia.
Qed.
Lemma letter_low shift c : letter shift c = letter (shift mod 16) c.
Proof. unfold letter. by rewrite (on_low CTL), (on_low SHIFT), (on_low CAPSLOCK). Qed.
Lemma caps_low shift c : caps shift c = caps (shift mod 16) c.
Proof.
  unfold caps. pose proof (on_low CAPSLOCK shift eq_refl) as H. unfold on in H.
  destruct (Z.land shift CAPSLOCK =? 0), (Z.land (shift mod 16) CAPSLOCK =? 0); done.
Qed.
Lemma modifiers_low shift : Z.land shift (Z.lor CTL SHIFT) = Z.land (shift mod 16) (Z.lor CTL SHIFT).
Proof.
  change (Z.lor CTL SHIFT) with (Z.land 15 3) at 1. rewrite Z.land_assoc. change 15 with (Z.ones 4). by rewrite Z.land_ones by lia.
Qed.
Lemma typed_letter shift d : on E0ESC shift = false → d ∈ letter_keys →
  translate shift d = (shift, letter shift (byte_at normalmap d)).
Proof.
  intros He Hd. destruct (letter_keys_table d Hd) as (T1 & T2 & T3 & T4 & T5). unfold translate.
  rewrite (proj2 (Z.eqb_neq _ _) T4), T3. cbn [Z.eqb negb]. unfold on in He. rewrite He. rewrite T1, T2, Z.lor_0_r, Z.lxor_0_r. f_equal.
  rewrite caps_low, modifiers_low, letter_low. apply T5. apply Z.mod_pos_bound. lia.
Qed.

(** Pressing and releasing a key of the main block. *)
Definition plain_key (d : Z) : Prop := 0 ≤ d < 0x80 ∧ d ≠ 0x60.
Lemma key_bits d : plain_key d → Z.land (byte_at shiftcode d) (byte_at togglecode d) = 0 ∧
  Z.land (byte_at shiftcode d) E0ESC = 0 ∧ Z.land (byte_at togglecode d) E0ESC = 0 ∧
  Z.land (d + 0x80) 0x80 = 0x80 ∧ Z.land (d + 0x80) 0x7F = d ∧ Z.land d 0x80 = 0.
Proof.
  assert (H : forallb (λ d, (Z.land (byte_at shiftcode d) (byte_at togglecode d) =? 0) && (Z.land (byte_at shiftcode d) E0ESC =? 0) &&
    (Z.land (byte_at togglecode d) E0ESC =? 0) && (Z.land (d + 0x80) 0x80 =? 0x80) && (Z.land (d + 0x80) 0x7F =? d) &&
    (Z.land d 0x80 =? 0)) (seqZ 0 128) = true) by by vm_compute.
  rewrite forallb_forall in H. intros [Hd _]. specialize (H d). rewrite !andb_true_iff, !Z.eqb_eq in H.
  destruct H as [[[[[H1 H2] H3] H4] H5] H6]; [apply list_elem_of_In, elem_of_seqZ; lia|]. done.
Qed.
Lemma release_bits s sc tc e : Z.land s sc = 0 → Z.land s e = 0 → Z.land sc tc = 0 → Z.land tc e = 0 →
  Z.ldiff (Z.lxor (Z.lor s sc) tc) (Z.lor sc e) = Z.lxor s tc.
Proof.
  intros H1 H2 H3 H4. apply Z.bits_inj'. intros i Hi. rewrite Z.ldiff_spec, !Z.lxor_spec, !Z.lor_spec.
  apply (f_equal (λ z, Z.testbit z i)) in H1, H2, H3, H4. rewrite !Z.land_spec, !Z.bits_0 in *.
  destruct (Z.testbit s i), (Z.testbit sc i), (Z.testbit tc i), (Z.testbit e i); done.
Qed.
Lemma pressed_released shift d : on E0ESC shift = false → plain_key d → Z.land shift (byte_at shiftcode d) = 0 →
  let '(s1, _) := translate shift d in translate s1 (d + 0x80) = (Z.lxor shift (byte_at togglecode d), 0).
Proof.
  intros He Hd Hs. pose proof Hd as [Hd1 Hd2]. destruct (key_bits d Hd) as (B1 & B2 & B3 & B4 & B5 & B6).
  assert (He' : Z.land shift E0ESC = 0) by (unfold on in He; by apply negb_false_iff, Z.eqb_eq in He).
  unfold translate at 1. rewrite (proj2 (Z.eqb_neq d 0xE0)) by lia. rewrite B6, He'. cbn [Z.eqb negb].
  set (s1 := Z.lxor _ _). unfold translate. rewrite (proj2 (Z.eqb_neq (d + 0x80) 0xE0)) by lia. rewrite B4. cbn [Z.eqb negb].
  assert (E1 : Z.land s1 E0ESC = 0).
  { apply Z.bits_inj'. intros i Hi. unfold s1. rewrite Z.land_spec, Z.lxor_spec, Z.lor_spec.
    apply (f_equal (λ z, Z.testbit z i)) in He', B2, B3. rewrite !Z.land_spec, !Z.bits_0 in *.
    destruct (Z.testbit shift i), (Z.testbit (byte_at shiftcode d) i), (Z.testbit (byte_at togglecode d) i), (Z.testbit E0ESC i); done. }
  rewrite E1. cbn [Z.eqb negb]. rewrite B5. f_equal. by apply release_bits.
Qed.

(** The keyboard.  A letter key types the letter: its control code while
    control is held, else upper case when exactly one of shift and caps lock
    is in force, else lower case; and it leaves the modifiers as they are.  A
    key of the main block pressed and released leaves the modifiers as they
    were, except that a lock key has toggled its lock: no key stays held. *)
Theorem kbd_types shift d (He : on E0ESC shift = false) :
  (d ∈ letter_keys → translate shift d = (shift, letter shift (byte_at normalmap d))) ∧
  (plain_key d → Z.land shift (byte_at shiftcode d) = 0 →
   let '(s1, _) := translate shift d in translate s1 (d + 0x80) = (Z.lxor shift (byte_at togglecode d), 0)).
Proof. split; [by apply typed_letter|by apply pressed_released]. Qed.
Lemma kbd_types_witness : translate (Z.lor SHIFT NUMLOCK) 0x1E = (Z.lor SHIFT NUMLOCK, 65) ∧
  let '(s1, _) := translate 0 0x3A in translate s1 0xBA = (CAPSLOCK, 0).
Proof.
  split.
  - destruct (kbd_types (Z.lor SHIFT NUMLOCK) 0x1E eq_refl) as [H _]. apply H. apply (bool_decide_unpack _). by vm_compute.
  - destruct (kbd_types 0 0x3A eq_refl) as [_ H]. apply H; [split; lia|reflexivity].
Defined.
