(* ===== verification/Ide.v ===== *)
(** * The disk driver

    [ide.c]: requests for disk blocks wait in a queue linked through the
    buffers; the request at its head is with the disk, and the interrupt of the
    disk completes it and starts the next.  The disk is an interface
    ([IdeDisk]): what the ports of an ATA controller do with the sequence of
    accesses the driver makes.

    The theorems show that every interleaving of requests and interrupts has
    the effect of the requests done one at a time in the order they were
    queued, and that [iderw] returns with its own request done.

    The kernel is linked with this driver or with [memide.c], the driver in
    [Bio]. *)

From stdpp Require Import gmap.
From S2P Require Import Prelude Machine Str Spin Flt ProcTable Proc ProcOk ProcSteps SleepLock Frame Bio Pipe Console.
Local Open Scope Z_scope.

(** ** Data *)

Definition SECTOR_SIZE : Z := 512.
Definition IDE_BSY : Z := 0x80.
Definition IDE_DRDY : Z := 0x40.
Definition IDE_DF : Z := 0x20.
Definition IDE_ERR : Z := 0x01.
Definition IDE_CMD_READ : Z := 0x20.
Definition IDE_CMD_WRITE : Z := 0x30.
Definition IDE_CMD_RDMUL : Z := 0xc4.
Definition IDE_CMD_WRMUL : Z := 0xc5.

(** [insl] and [outsl]: words moved as bytes. *)
Class StringPorts (D : Type) := {
  insl : Z → Z → D → list Z * D;
  outsl : Z → list Z → D → D;
}.
(** A buffer with its link in the queue; the buffers, [idequeue], [havedisk1]
    and the devices. *)
Record qbuf := QBuf { q_buf : buf; qnext : option nat }.
Record ist (D : Type) := Ist { ib : list qbuf; iq : option nat; have1 : bool; idev : D }.
Arguments Ist {_} _ _ _ _.
Arguments ib {_} _.
Arguments iq {_} _.
Arguments have1 {_} _.
Arguments idev {_} _.
(** [(flags & (B_VALID|B_DIRTY)) == B_VALID] *)
Definition synced (b : buf) : bool := Z.land (flags b) (Z.lor B_VALID B_DIRTY) =? B_VALID.
Definition dirty (b : buf) : bool := negb (Z.land (flags b) B_DIRTY =? 0).
(** [b->flags |= B_VALID; b->flags &= ~B_DIRTY;] *)
Definition set_synced (b : buf) : buf := set_flags (Z.land (Z.lor (flags b) B_VALID) (Z.lnot B_DIRTY)) b.

(** ** The driver under its lock *)

Section Driver.
Context {D : Type} `{!Ports D} `{!StringPorts D}.
Notation st := (ist D).
Definition set_idev (d : D) (s : st) : st := Ist (ib s) (iq s) (have1 s) d.
Definition port_in (p : Z) : M st Z := λ s, let '(v, d) := inb p (idev s) in Ok (v, set_idev d s).
Definition port_out (p v : Z) : M st unit := modify (λ s, set_idev (outb p (v mod 2^8) (idev s)) s).
Definition the_qbuf (i : nat) : M st qbuf := λ s, match ib s !! i with Some q => Ok (q, s) | None => Fault "buf" end.
Definition upd_qbuf (i : nat) (f : qbuf → qbuf) : M st unit := modify (λ s, Ist (alter f i (ib s)) (iq s) (have1 s) (idev s)).
Definition set_queue (q : option nat) : M st unit := modify (λ s, Ist (ib s) q (have1 s) (idev s)).

(** [idewait]; [k] bounds the polls. *)
Fixpoint idewait (k : nat) (checkerr : bool) : M st Z :=
  r ← port_in 0x1f7;
  if negb (Z.land r (Z.lor IDE_BSY IDE_DRDY) =? IDE_DRDY) then (match k with O => block | S k' => idewait k' checkerr end : M st Z)
  else mret (if checkerr && negb (Z.land r (Z.lor IDE_DF IDE_ERR) =? 0) then -1 else 0).
Definition idestart (k : nat) (p : option nat) : M st unit :=
  match p with
  | None => panic "idestart"
  | Some i =>
      q ← the_qbuf i;
      let b := q_buf q in
      if FSSIZE <=? blockno b then panic "incorrect blockno" else
      let sector_per_block := BSIZE / SECTOR_SIZE in
      let sector := blockno b * sector_per_block in
      let read_cmd := if sector_per_block =? 1 then IDE_CMD_READ else IDE_CMD_RDMUL in
      let write_cmd := if sector_per_block =? 1 then IDE_CMD_WRITE else IDE_CMD_WRMUL in
      if 7 <? sector_per_block then panic "idestart" else
      idewait k false;;
      port_out 0x3f6 0;;
      port_out 0x1f2 sector_per_block;;
      port_out 0x1f3 (Z.land sector 0xff);;
      port_out 0x1f4 (Z.land (Z.shiftr sector 8) 0xff);;
      port_out 0x1f5 (Z.land (Z.shiftr sector 16) 0xff);;
      port_out 0x1f6 (Z.lor (Z.lor 0xe0 (Z.shiftl (Z.land (bdev b) 1) 4)) (Z.land (Z.shiftr sector 24) 0x0f));;
      if dirty b then
        port_out 0x1f7 write_cmd;;
        modify (λ s, set_idev (outsl 0x1f0 (data b) (idev s)) s)
      else port_out 0x1f7 read_cmd
  end.
(** The loop that follows the links from [pp], which is [&idequeue] or the
    address of a buffer's link, to the empty one and stores the buffer there. *)
Fixpoint append_at (k i : nat) (pp : option nat) : M st unit :=
  cur ← (match pp with None => gets iq | Some j => q ← the_qbuf j; mret (qnext q) end);
  match cur with
  | None => match pp with None => set_queue (Some i) | Some j => upd_qbuf j (λ q, QBuf (q_buf q) (Some i)) end
  | Some j => (match k with O => fault "cycle" | S k' => append_at k' i (Some j) end : M st unit)
  end.
(** The part of [iderw] that queues the request and starts an idle disk. *)
Definition ide_submit (k i : nat) : M st unit :=
  upd_qbuf i (λ q, QBuf (q_buf q) None);;
  n ← gets (λ s, length (ib s));
  append_at n i None;;
  h ← gets iq;
  whenM (bool_decide (h = Some i)) (idestart k (Some i)).
(** The first part of [ideintr]: the active request leaves the queue, is
    completed and returned. *)
Definition ide_complete (k : nat) : M st (option nat) :=
  h ← gets iq;
  match h with
  | None => mret None
  | Some i =>
      q ← the_qbuf i;
      set_queue (qnext q);;
      whenM (negb (dirty (q_buf q)))
        (r ← idewait k true;
         whenM (0 <=? r)
           (λ s, let '(bytes, d) := insl 0x1f0 (BSIZE / 4) (idev s) in
                 upd_qbuf i (λ q, QBuf (set_data bytes (q_buf q)) (qnext q)) (set_idev d s)));;
      upd_qbuf i (λ q, QBuf (set_synced (q_buf q)) (qnext q));;
      mret (Some i)
  end.
(** The last part: the disk starts on the next request. *)
Definition ide_next (k : nat) : M st unit :=
  h ← gets iq;
  match h with None => mret tt | Some i => idestart k (Some i) end.
(** [ideinit] without its lock and interrupt routing: looks for disk 1. *)
Fixpoint probe_disk1 (n : nat) : M st unit :=
  match n with
  | O => mret tt
  | S n' => v ← port_in 0x1f7; if v =? 0 then probe_disk1 n' else modify (λ s, Ist (ib s) (iq s) true (idev s))
  end.
Definition ide_probe (k : nat) : M st unit :=
  idewait k false;;
  port_out 0x1f6 (Z.lor 0xe0 (Z.shiftl 1 4));;
  probe_disk1 1000;;
  port_out 0x1f6 (Z.lor 0xe0 (Z.shiftl 0 4)).
End Driver.

(** ** The driver in the kernel *)

Record ide (D : Type) := Ide { ide_lock : spinlock; ide_st : ist D }.
Arguments Ide {_} _ _.
Arguments ide_lock {_} _.
Arguments ide_st {_} _.

Section Ops.
Context {E D : Type} `{!Services E} `{!Ports D} `{!StringPorts D}.
Variable l : lens (pst E) (ide D).
(** The address of a buffer, its sleep channel; the bound on polling. *)
Variable buf_addr : nat → Z.
Variable spins : nat.
Definition ide_lock_l : lens (pst E) spinlock :=
  Lens (λ s, ide_lock (view l s)) (λ k s, upd_lens l (Ide k (ide_st (view l s))) s).
Definition ist_l : lens (pst E) (ist D) :=
  Lens (λ s, ide_st (view l s)) (λ x s, upd_lens l (Ide (ide_lock (view l s)) x) s).
Notation acquire := (acquire core_l ide_lock_l).
Notation release := (release core_l ide_lock_l).

Definition ideinit : M (pst E) unit :=
  modify (upd_lens ide_lock_l (initlock "ide"));;
  on_lens ist_l (ide_probe spins).
Definition ideintr : M (pst E) unit :=
  acquire;;
  r ← on_lens ist_l (ide_complete spins);
  match r with
  | None => release
  | Some i =>
      wakeup (ChAddr (buf_addr i));;
      on_lens ist_l (ide_next spins);;
      release
  end.
(** [holdingsleep(&b->lock)] *)
Definition holds_buf (b : buf) : M (pst E) bool :=
  p ← myproc core_l; i ← deref p; q ← the_proc i; mret (bool_decide (slock b = Some (pid q))).
(** [while((b->flags & (B_VALID|B_DIRTY)) != B_VALID) sleep(b, &idelock);] *)
Fixpoint wait_synced (i : nat) (others : list (M (pst E) unit)) : M (pst E) unit :=
  q ← on_lens ist_l (the_qbuf i);
  if synced (q_buf q) then mret tt else
  match others with
  | [] => block
  | o :: others' => sleep o (ChAddr (buf_addr i)) (LkOther ide_lock_l);; wait_synced i others'
  end.
Definition iderw (others : list (M (pst E) unit)) (i : nat) : M (pst E) unit :=
  q ← on_lens ist_l (the_qbuf i);
  let b := q_buf q in
  h ← holds_buf b;
  if negb h then panic "iderw: buf not locked" else
  if synced b then panic "iderw: nothing to do" else
  h1 ← gets (λ s, have1 (ide_st (view l s)));
  if negb (bdev b =? 0) && negb h1 then panic "iderw: ide disk 1 not present" else
  acquire;;
  on_lens ist_l (ide_submit spins i);;
  wait_synced i others;;
  release.
End Ops.

(** Polling changes the device only. *)
Definition same_driver {D} (s s' : ist D) : Prop := ib s' = ib s ∧ iq s' = iq s ∧ have1 s' = have1 s.
Lemma idewait_same {D} `{!Ports D} k : ∀ c (s : ist D) r s', idewait k c s = Ok (r, s') → same_driver s s'.
Proof.
  induction k as [|k IH]; intros c s r s' H; cbn [idewait] in H; apply bind_Ok in H as (v & s1 & H1 & H);
    unfold port_in in H1; destruct (inb 0x1f7 (idev s)) as [v' d]; injection H1 as -> <-.
  - destruct (negb _); [done|]. by apply ret_Ok in H as [_ ->].
  - destruct (negb _); [|by apply ret_Ok in H as [_ ->]]. apply IH in H as (A1 & A2 & A3). by unfold same_driver; split_and!.
Qed.

(** ** The disk *)

(** What the disk expects on the data port: nothing, the data of a block, or
    to be read a block; a block is a drive and a sector. *)
Inductive phase := PIdle | PWant (k : Z * Z) | PHave (k : Z * Z).
Definition sector (m : gmap (Z * Z) blk) (k : Z * Z) : blk := default (replicate 512 0) (m !! k).
(** The block the registers select. *)
Definition target (r : Z → Z) : Z * Z :=
  (Z.land (Z.shiftr (r 0x1f6) 4) 1, r 0x1f3 + Z.shiftl (r 0x1f4) 8 + Z.shiftl (r 0x1f5) 16 + Z.shiftl (Z.land (r 0x1f6) 0x0f) 24).
Class IdeDisk (D : Type) `{!Ports D} `{!StringPorts D} := {
  ide_disk : D → gmap (Z * Z) blk;
  ide_reg : D → Z → Z;
  ide_phase : D → phase;
  ide_status : ∀ d, ide_disk (inb 0x1f7 d).2 = ide_disk d ∧ ide_phase (inb 0x1f7 d).2 = ide_phase d;
  ide_control : ∀ v d, ide_disk (outb 0x3f6 v d) = ide_disk d;
  ide_select : ∀ p v d, 0x1f2 ≤ p ≤ 0x1f6 → ide_disk (outb p v d) = ide_disk d ∧
    ∀ q, ide_reg (outb p v d) q = if q =? p then v else ide_reg d q;
  ide_read_cmd : ∀ d, ide_reg d 0x1f2 = 1 →
    ide_disk (outb 0x1f7 IDE_CMD_READ d) = ide_disk d ∧ ide_phase (outb 0x1f7 IDE_CMD_READ d) = PHave (target (ide_reg d));
  ide_write_cmd : ∀ d, ide_reg d 0x1f2 = 1 →
    ide_disk (outb 0x1f7 IDE_CMD_WRITE d) = ide_disk d ∧ ide_phase (outb 0x1f7 IDE_CMD_WRITE d) = PWant (target (ide_reg d));
  ide_data_out : ∀ k bytes d, ide_phase d = PWant k → length bytes = 512%nat →
    ide_disk (outsl 0x1f0 bytes d) = <[k := bytes]> (ide_disk d);
  ide_data_in : ∀ k d, ide_phase d = PHave k →
    (insl 0x1f0 128 d).1 = sector (ide_disk d) k ∧ ide_disk (insl 0x1f0 128 d).2 = ide_disk d;
  ide_healthy : ∀ k d, ide_phase d = PHave k → Z.land (inb 0x1f7 d).1 (Z.lor IDE_DF IDE_ERR) = 0;
}.

(** ** Requests one at a time *)

Definition key (b : buf) : Z * Z := (Z.land (bdev b) 1, blockno b).
(** What the comment on [iderw] says of a buffer and the disk. *)
Definition sync (m : gmap (Z * Z) blk) (b : buf) : buf * gmap (Z * Z) blk :=
  if dirty b then (set_synced b, <[key b := data b]> m) else (set_synced (set_data (sector m (key b)) b), m).
Notation contents := (list buf * gmap (Z * Z) blk)%type.
Definition exec1 (x : contents) (i : nat) : contents :=
  match x.1 !! i with Some b => (<[i := (sync x.2 b).1]> x.1, (sync x.2 b).2) | None => x end.
(** Buffers, disk and the queue of requests; its head is with the disk. *)
Record abs := Abs { a_q : list nat; a_bufs : list buf; a_disk : gmap (Z * Z) blk }.
Definition start (a : abs) : abs :=
  match a_q a with
  | i :: _ =>
      match a_bufs a !! i with
      | Some b => if dirty b then Abs (a_q a) (a_bufs a) (<[key b := data b]> (a_disk a)) else a
      | None => a
      end
  | [] => a
  end.
Definition submit (i : nat) (a : abs) : abs :=
  let a' := Abs (a_q a ++ [i]) (a_bufs a) (a_disk a) in match a_q a with [] => start a' | _ => a' end.
Definition irq (a : abs) : abs :=
  match a_q a with
  | [] => a
  | i :: q =>
      match a_bufs a !! i with
      | Some b =>
          let b' := if dirty b then b else set_data (sector (a_disk a) (key b)) b in
          start (Abs q (<[i := set_synced b']> (a_bufs a)) (a_disk a))
      | None => a
      end
  end.
(** The state after the queue has drained. *)
Definition flush (a : abs) : contents := foldl exec1 (a_bufs a, a_disk a) (a_q a).
(** The write at the head has reached the disk. *)
Definition started (a : abs) : Prop :=
  ∀ i q b, a_q a = i :: q → a_bufs a !! i = Some b → dirty b = true → a_disk a !! key b = Some (data b).

Lemma start_flush a : flush (start a) = flush a.
Proof.
  destruct a as [[|i q] bs m]; [done|]. unfold start, flush. cbn [a_q a_bufs a_disk]. destruct (bs !! i) as [b|] eqn:Eb; [|done].
  destruct (dirty b) eqn:Ed; [|done]. cbn [foldl a_q a_bufs a_disk]. unfold exec1 at 2 4. cbn [fst snd]. rewrite Eb. unfold sync. rewrite Ed.
  cbn [fst snd]. by rewrite insert_insert_eq.
Qed.
Lemma start_started a : started (start a).
Proof.
  destruct a as [[|i q] bs m]; intros j p b Hq Hb Hd; [done|]. unfold start in *. cbn [a_q a_bufs a_disk] in *.
  destruct (bs !! i) as [c|] eqn:Eb.
  - destruct (dirty c) eqn:Ed; cbn [a_q a_bufs a_disk] in *; injection Hq as -> ->; [|congruence].
    assert (c = b) as -> by congruence. apply lookup_insert_eq.
  - cbn [a_q a_bufs] in *. injection Hq as -> ->. congruence.
Qed.
Lemma submit_flush i a : flush (submit i a) = exec1 (flush a) i.
Proof.
  unfold submit. destruct (a_q a) as [|j q] eqn:Eq; [rewrite start_flush|]; unfold flush; cbn [a_q a_bufs a_disk]; rewrite Eq.
  - done.
  - by rewrite foldl_app.
Qed.
Lemma submit_started i a : started a → started (submit i a).
Proof.
  intros H. unfold submit. destruct (a_q a) as [|j q] eqn:Eq; [apply start_started|]. intros k p b Hq. cbn [a_q a_bufs a_disk] in *.
  simpl in Hq. injection Hq as -> _. by apply (H k q b).
Qed.
Lemma irq_flush a : started a → flush (irq a) = flush a.
Proof.
  intros Hs. unfold irq. destruct (a_q a) as [|i q] eqn:Eq; [done|]. destruct (a_bufs a !! i) as [b|] eqn:Eb; [|done].
  rewrite start_flush. unfold flush. cbn [a_q a_bufs a_disk]. rewrite Eq. cbn [foldl]. unfold exec1 at 3. cbn [fst snd]. rewrite Eb. unfold sync.
  destruct (dirty b) eqn:Ed; [|done]. cbn [fst snd]. f_equal. f_equal. symmetry. apply insert_id. by apply (Hs i q).
Qed.
Lemma irq_started a : started a → started (irq a).
Proof.
  intros Hs. unfold irq. destruct (a_q a) as [|i q] eqn:Eq; [done|]. destruct (a_bufs a !! i); [apply start_started|done].
Qed.

(** Histories: a buffer outside the queue is changed, a buffer is queued, the
    disk interrupts. *)
Inductive ide_event := ETouch (i : nat) (b : buf) | ESubmit (i : nat) | EIrq.
Definition ide_event_ok (e : ide_event) (a : abs) : Prop :=
  match e with ETouch i _ | ESubmit i => i ∉ a_q a | EIrq => True end.
Definition ide_step (e : ide_event) (a : abs) : abs :=
  match e with ETouch i b => Abs (a_q a) (<[i := b]> (a_bufs a)) (a_disk a) | ESubmit i => submit i a | EIrq => irq a end.
Fixpoint ide_run (tr : list ide_event) (a a' : abs) : Prop :=
  match tr with [] => a' = a | e :: tr' => ide_event_ok e a ∧ ide_run tr' (ide_step e a) a' end.
(** The same history with each request done when it is queued. *)
Definition serial1 (x : contents) (e : ide_event) : contents :=
  match e with ETouch i b => (<[i := b]> x.1, x.2) | ESubmit i => exec1 x i | EIrq => x end.
Definition serial (tr : list ide_event) (x : contents) : contents := foldl serial1 x tr.

Lemma exec1_touch x i b j : i ≠ j → exec1 (<[i := b]> x.1, x.2) j = (<[i := b]> (exec1 x j).1, (exec1 x j).2).
Proof.
  intros Hij. unfold exec1. cbn [fst snd]. rewrite list_lookup_insert_ne by done. destruct (x.1 !! j) as [c|]; [|done]. cbn [fst snd].
  by rewrite list_insert_insert_ne.
Qed.
Lemma touch_flush a i b : i ∉ a_q a → flush (ide_step (ETouch i b) a) = (<[i := b]> (flush a).1, (flush a).2).
Proof.
  destruct a as [q bs m]. unfold flush. cbn [ide_step a_q a_bufs a_disk]. change (<[i := b]> bs, m) with (<[i := b]> (bs, m).1, (bs, m).2).
  generalize (bs, m). induction q as [|j q IH]; intros x Hi; [done|]. apply not_elem_of_cons in Hi as [H1 H2]. cbn [foldl].
  rewrite exec1_touch by done. by apply IH.
Qed.
Lemma ide_step_serial e a : ide_event_ok e a → started a → started (ide_step e a) ∧ flush (ide_step e a) = serial1 (flush a) e.
Proof.
  destruct e as [i b|i|]; intros Hok Hs.
  - split; [|by apply touch_flush]. intros j q c Hq Hc. cbn [ide_step a_q a_bufs a_disk] in *. apply (Hs j q c Hq).
    rewrite list_lookup_insert_ne in Hc; [done|]. intros ->. simpl in Hok. rewrite Hq in Hok. set_solver.
  - split; [by apply submit_started|apply submit_flush].
  - split; [by apply irq_started|by apply irq_flush].
Qed.
Lemma ide_run_serial tr : ∀ a a', ide_run tr a a' → started a → started a' ∧ flush a' = serial tr (flush a).
Proof.
  induction tr as [|e tr IH]; intros a a' H Hs; [simpl in H; by subst|]. destruct H as [Hok H].
  destruct (ide_step_serial e a Hok Hs) as [S1 F1]. destruct (IH _ _ H S1) as [S2 F2]. split; [done|]. rewrite F2, F1. done.
Qed.
Lemma ide_run_app tr1 tr2 a a1 a2 : ide_run tr1 a a1 → ide_run tr2 a1 a2 → ide_run (tr1 ++ tr2) a a2.
Proof. revert a. induction tr1 as [|e tr1 IH]; intros a H1 H2; [simpl in H1; by subst|]. destruct H1 as [? H1]. split; [done|]. by apply IH. Qed.

(** Events of others leave a buffer alone. *)
Definition spares (i : nat) (e : ide_event) : Prop := match e with ETouch j _ | ESubmit j => j ≠ i | EIrq => True end.
Lemma serial_spares i tr : ∀ x, Forall (spares i) tr → (serial tr x).1 !! i = x.1 !! i.
Proof.
  induction tr as [|e tr IH]; intros x H; [done|]. apply Forall_cons in H as [He H]. cbn [serial foldl]. etrans; [by apply IH|].
  destruct e as [j b|j|]; simpl in He; [by apply list_lookup_insert_ne| |done].
  cbn [serial1]. unfold exec1. destruct (x.1 !! j); [|done]. cbn [fst]. by apply list_lookup_insert_ne.
Qed.
Lemma flush_other a i : i ∉ a_q a → (flush a).1 !! i = a_bufs a !! i.
Proof.
  destruct a as [q bs m]. unfold flush. cbn [a_q a_bufs a_disk]. change (bs !! i) with ((bs, m).1 !! i). generalize (bs, m).
  induction q as [|j q IH]; intros x Hi; [done|]. apply not_elem_of_cons in Hi as [H1 H2]. cbn [foldl]. rewrite IH by done.
  unfold exec1. destruct (x.1 !! j); [|done]. cbn [fst]. by apply list_lookup_insert_ne.
Qed.
(** The buffer of a request after the request is done. *)
Lemma request_done i tr a a' b : started a → ide_run (ESubmit i :: tr) a a' → Forall (spares i) tr → i ∉ a_q a' →
  a_bufs a !! i = Some b → flush a' = serial (ESubmit i :: tr) (flush a) ∧ a_bufs a' !! i = Some (sync (flush a).2 b).1.
Proof.
  intros Hs Hr Hsp Hi Hb. destruct (ide_run_serial _ _ _ Hr Hs) as [_ Hf]. split; [done|]. destruct Hr as [Hok _].
  rewrite <- (flush_other a' i Hi), Hf. cbn [serial foldl]. fold (serial tr (serial1 (flush a) (ESubmit i))). rewrite serial_spares by done.
  cbn [serial1]. unfold exec1. rewrite (flush_other a i Hok), Hb. cbn [fst]. apply list_lookup_insert_eq.
  rewrite <- (flush_other a i Hok) in Hb. by eapply lookup_lt_Some.
Qed.

(** ** The driver follows the history *)

Section Refine.
Context {D : Type} `{!Ports D} `{!StringPorts D} `{!IdeDisk D}.
Notation st := (ist D).

(** The buffers linked from [p]. *)
Fixpoint chain (bs : list qbuf) (p : option nat) (l : list nat) : Prop :=
  match l with [] => p = None | i :: l' => p = Some i ∧ ∃ q, bs !! i = Some q ∧ chain bs (qnext q) l' end.
(** A request the disk can serve. *)
Definition req_ok (b : buf) : Prop := synced b = false ∧ 0 ≤ blockno b ∧ length (data b) = 512%nat.
(** Queue, buffers and disk, before the disk has been told about the head. *)
Record queued (s : st) (a : abs) : Prop := {
  qd_bufs : a_bufs a = q_buf <$> ib s;
  qd_disk : a_disk a = ide_disk (idev s);
  qd_chain : chain (ib s) (iq s) (a_q a);
  qd_nodup : NoDup (a_q a);
  qd_reqs : ∀ i, i ∈ a_q a → ∃ b, a_bufs a !! i = Some b ∧ req_ok b;
}.
(** The disk is busy with the head of the queue. *)
Record sim (s : st) (a : abs) : Prop := {
  sim_queued : queued s a;
  sim_started : started a;
  sim_phase : ∀ i q b, a_q a = i :: q → a_bufs a !! i = Some b → dirty b = false → ide_phase (idev s) = PHave (key b);
}.

Lemma idewait_ok k : ∀ c s r s', idewait k c s = Ok (r, s') →
  same_driver s s' ∧ ide_disk (idev s') = ide_disk (idev s) ∧ ide_phase (idev s') = ide_phase (idev s) ∧
  (∀ x, ide_phase (idev s) = PHave x → r = 0).
Proof.
  induction k as [|k IH]; intros c s r s' H; cbn [idewait] in H; apply bind_Ok in H as (v & s1 & H1 & H);
    unfold port_in in H1; destruct (inb 0x1f7 (idev s)) as [v' d] eqn:Ei; injection H1 as -> <-;
    destruct (ide_status (idev s)) as [S1 S2]; rewrite Ei in S1, S2; cbn [snd] in S1, S2;
    pose proof (λ x Hx, ide_healthy x (idev s) Hx) as S3; rewrite Ei in S3; cbn [fst] in S3.
  - destruct (negb _); [done|]. apply ret_Ok in H as [-> ->]. split_and!; try done. intros x Hx. rewrite (S3 x Hx). by destruct c.
  - destruct (negb _).
    + apply IH in H as ((A1 & A2 & A3) & A4 & A5 & A6). cbn in *. split; [by unfold same_driver; split_and!; congruence|]. split_and!; [congruence|congruence|]. intros x Hx. apply (A6 x). congruence.
    + apply ret_Ok in H as [-> ->]. split_and!; try done. intros x Hx. rewrite (S3 x Hx). by destruct c.
Qed.
Lemma port_out_Ok p v (s : st) u s' : port_out p v s = Ok (u, s') → s' = set_idev (outb p (v mod 2^8) (idev s)) s.
Proof. unfold port_out, modify. intros H. by injection H as _ <-. Qed.
(** The registers select the block of the request. *)
Lemma target_key b n : 0 ≤ n < 1000 → ∀ r, r 0x1f3 = Z.land n 0xff → r 0x1f4 = Z.land (Z.shiftr n 8) 0xff →
  r 0x1f5 = Z.land (Z.shiftr n 16) 0xff → r 0x1f6 = Z.lor (Z.lor 0xe0 (Z.shiftl (Z.land b 1) 4)) (Z.land (Z.shiftr n 24) 0x0f) →
  target r = (Z.land b 1, n).
Proof.
  intros Hn r H3 H4 H5 H6. unfold target. rewrite H3, H4, H5, H6. change 0xff with (Z.ones 8). change 0x0f with (Z.ones 4).
  rewrite !Z.land_ones, !Z.shiftr_div_pow2, !Z.shiftl_mul_pow2 by lia.
  rewrite (Z.div_small n (2^16)), (Z.div_small n (2^24)) by lia. change (0 mod 2^4) with 0. rewrite Z.lor_0_r.
  assert (Hb : Z.land b 1 = 0 ∨ Z.land b 1 = 1).
  { change (Z.land b 1) with (Z.land b (Z.ones 1)). rewrite Z.land_ones by lia. pose proof (Z.mod_pos_bound b (2^1)). lia. }
  f_equal; [by destruct Hb as [-> | ->]|]. replace (_ mod 2^4 * 2^24) with 0 by (by destruct Hb as [-> | ->]).
  change (0 mod 2^8 * 2^16) with 0. pose proof (Z.div_mod n 256 ltac:(lia)). change (2^8) with 256.
  rewrite (Z.mod_small (n / 256)) by (split; [apply Z.div_pos; lia|apply Z.div_lt_upper_bound; lia]). lia.
Qed.
Lemma byte_small v : 0 ≤ v < 2^8 → v mod 2^8 = v.
Proof. apply Z.mod_small. Qed.
Lemma land_byte v : Z.land v 0xff mod 2^8 = Z.land v 0xff.
Proof. change 0xff with (Z.ones 8). rewrite Z.land_ones by lia. by rewrite Z.mod_mod. Qed.
Lemma drive_byte b n : 0 ≤ n < 1000 →
  let v := Z.lor (Z.lor 0xe0 (Z.shiftl (Z.land b 1) 4)) (Z.land (Z.shiftr n 24) 0x0f) in v mod 2^8 = v.
Proof.
  intros Hn. rewrite (Z.shiftr_div_pow2 n), (Z.div_small n (2^24)) by lia. cbv zeta. change (Z.land 0 0x0f) with 0. rewrite Z.lor_0_r.
  assert (Hb : Z.land b 1 = 0 ∨ Z.land b 1 = 1).
  { change (Z.land b 1) with (Z.land b (Z.ones 1)). rewrite Z.land_ones by lia. pose proof (Z.mod_pos_bound b (2^1)). lia. }
  by destruct Hb as [-> | ->].
Qed.
(** The six register writes. *)
Definition selected (n dev : Z) (d : D) : D :=
  let w p v d := outb p (v mod 2^8) d in
  w 0x1f6 (Z.lor (Z.lor 0xe0 (Z.shiftl (Z.land dev 1) 4)) (Z.land (Z.shiftr n 24) 0x0f))
    (w 0x1f5 (Z.land (Z.shiftr n 16) 0xff) (w 0x1f4 (Z.land (Z.shiftr n 8) 0xff) (w 0x1f3 (Z.land n 0xff) (w 0x1f2 1 (w 0x3f6 0 d))))).
Lemma selected_ok n dev d : 0 ≤ n < 1000 → ide_disk (selected n dev d) = ide_disk d ∧
  ide_reg (selected n dev d) 0x1f2 = 1 ∧ target (ide_reg (selected n dev d)) = (Z.land dev 1, n).
Proof.
  intros Hn. unfold selected. cbv zeta. rewrite !land_byte, (drive_byte dev n Hn). change (1 mod 2^8) with 1.
  set (v6 := Z.lor (Z.lor _ _) _). set (v5 := Z.land (Z.shiftr n 16) _). set (v4 := Z.land (Z.shiftr n 8) _). set (v3 := Z.land n _).
  set (d1 := outb 0x3f6 _ d). set (d2 := outb 0x1f2 1 d1). set (d3 := outb 0x1f3 v3 d2). set (d4 := outb 0x1f4 v4 d3). set (d5 := outb 0x1f5 v5 d4).
  destruct (ide_select 0x1f2 1 d1 ltac:(lia)) as [A2 R2]. destruct (ide_select 0x1f3 v3 d2 ltac:(lia)) as [A3 R3].
  destruct (ide_select 0x1f4 v4 d3 ltac:(lia)) as [A4 R4]. destruct (ide_select 0x1f5 v5 d4 ltac:(lia)) as [A5 R5].
  destruct (ide_select 0x1f6 v6 d5 ltac:(lia)) as [A6 R6]. fold d2 in A2, R2. fold d3 in A3, R3. fold d4 in A4, R4. fold d5 in A5, R5.
  split; [rewrite A6, A5, A4, A3, A2; apply ide_control|]. split; [by rewrite R6, R5, R4, R3, R2|].
  apply target_key; [done| | | |]; rewrite R6; cbn [Z.eqb Pos.eqb]; rewrite ?R5; cbn [Z.eqb Pos.eqb]; rewrite ?R4; cbn [Z.eqb Pos.eqb]; by rewrite ?R3.
Qed.
Lemma idestart_ok k i b (s : st) u s' : idestart k (Some i) s = Ok (u, s') → q_buf <$> ib s !! i = Some b → req_ok b →
  same_driver s s' ∧ ide_disk (idev s') = (if dirty b then <[key b := data b]> (ide_disk (idev s)) else ide_disk (idev s)) ∧
  (dirty b = false → ide_phase (idev s') = PHave (key b)).
Proof.
  intros H Hb (_ & Hn & Hd). unfold idestart in H. apply bind_Ok in H as (q & s0 & H0 & H). unfold the_qbuf in H0.
  destruct (ib s !! i) as [q'|]; [|done]. injection H0 as -> <-. simpl in Hb. injection Hb as Hb. rewrite Hb in H.
  destruct (FSSIZE <=? blockno b) eqn:Ef; [done|]. apply Z.leb_gt in Ef. change FSSIZE with 1000 in Ef.
  change (BSIZE / SECTOR_SIZE) with 1 in H. rewrite Z.mul_1_r in H. cbv zeta in H. change (7 <? 1) with false in H. change (1 =? 1) with true in H.
  cbv iota in H. apply bind_Ok in H as (r & s1 & H1 & H). apply idewait_ok in H1 as ((B1 & B2 & B3) & W1 & _).
  do 6 (apply bind_Ok in H as (? & ? & H1 & H); apply port_out_Ok in H1 as ->).
  destruct (selected_ok (blockno b) (bdev b) (idev s1) ltac:(lia)) as (S1 & S2 & S3). fold (key b) in S3.
  destruct (dirty b).
  - apply bind_Ok in H as (? & ? & H1 & H). apply port_out_Ok in H1 as ->. unfold modify in H. injection H as _ <-.
    split; [done|]. split; [|done]. cbn [idev set_idev]. change (IDE_CMD_WRITE mod 2^8) with IDE_CMD_WRITE.
    destruct (ide_write_cmd _ S2) as [C1 C2]. rewrite S3 in C2. etrans; [by apply (ide_data_out _ _ _ C2)|]. by rewrite C1, S1, W1.
  - apply port_out_Ok in H as ->. split; [done|]. cbn [idev set_idev]. change (IDE_CMD_READ mod 2^8) with IDE_CMD_READ.
    destruct (ide_read_cmd _ S2) as [C1 C2]. rewrite S3 in C2. split; [|by intros _]. etrans; [exact C1|]. by rewrite S1, W1.
Qed.

(** *** The queue *)

Lemma fmap_q_buf (bs : list qbuf) i f : (∀ q, q_buf (f q) = q_buf q) → q_buf <$> alter f i bs = q_buf <$> bs.
Proof.
  intros Hf. apply list_eq. intros j. rewrite !list_lookup_fmap, list_lookup_alter. case_decide as Hij; [|done]. subst.
  destruct (bs !! j); [|done]. simpl. by rewrite Hf.
Qed.
(** From the link of [j], the end of the queue [l] gets [i]. *)
Lemma append_from l : ∀ k i j (s : st) u s' qi qj, append_at k i (Some j) s = Ok (u, s') → (length l ≤ k)%nat →
  ib s !! j = Some qj → chain (ib s) (qnext qj) l → ib s !! i = Some qi → qnext qi = None → NoDup (j :: l) → i ∉ j :: l →
  (∃ qj', ib s' !! j = Some qj' ∧ chain (ib s') (qnext qj') (l ++ [i])) ∧ q_buf <$> ib s' = q_buf <$> ib s ∧
  iq s' = iq s ∧ idev s' = idev s ∧ (∀ x, x ∉ j :: l → ib s' !! x = ib s !! x).
Proof.
  induction l as [|m l IH]; intros k i j s u s' qi qj H Hk Hj Hc Hi Hn Hnd Hni.
  - assert (H' : upd_qbuf j (λ q, QBuf (q_buf q) (Some i)) s = Ok (u, s')).
    { simpl in Hc. destruct k; cbn [append_at] in H; apply bind_Ok in H as (cur & s1 & H1 & H); apply bind_Ok in H1 as (q & s2 & H2 & H1);
        unfold the_qbuf in H2; rewrite Hj in H2; injection H2 as <- <-; apply ret_Ok in H1 as [-> ->]; by rewrite Hc in H. }
    unfold upd_qbuf, modify in H'. injection H' as _ <-. cbn [ib iq idev]. split_and!; try done.
    + exists (QBuf (q_buf qj) (Some i)). rewrite list_lookup_alter_eq, Hj. split; [done|]. cbn. split; [done|]. exists qi.
      rewrite list_lookup_alter_ne by set_solver. done.
    + by apply fmap_q_buf.
    + intros x Hx. apply list_lookup_alter_ne. set_solver.
  - destruct Hc as [Hqj (qm & Hm & Hc)]. destruct k as [|k]; [simpl in Hk; lia|]. cbn [append_at] in H.
    apply bind_Ok in H as (cur & s1 & H1 & H). apply bind_Ok in H1 as (q & s2 & H2 & H1). unfold the_qbuf in H2. rewrite Hj in H2.
    injection H2 as <- <-. apply ret_Ok in H1 as [-> ->]. rewrite Hqj in H. apply NoDup_cons in Hnd as [Hjl Hnd].
    destruct (IH _ _ _ _ _ _ qi qm H ltac:(simpl in Hk; lia) Hm Hc Hi Hn Hnd ltac:(set_solver)) as ((qm' & A1 & A2) & A3 & A4 & A5 & A6).
    split_and!; try done.
    + exists qj. rewrite A6 by done. split; [done|]. rewrite Hqj. cbn. split; [done|]. by exists qm'.
    + intros x Hx. apply A6. set_solver.
Qed.
Lemma append_ok l k i (s : st) u s' qi : append_at k i None s = Ok (u, s') → (length l ≤ k)%nat → chain (ib s) (iq s) l →
  ib s !! i = Some qi → qnext qi = None → NoDup l → i ∉ l →
  chain (ib s') (iq s') (l ++ [i]) ∧ q_buf <$> ib s' = q_buf <$> ib s ∧ idev s' = idev s ∧ iq s' = Some (default i (head l)).
Proof.
  intros H Hk Hc Hi Hn Hnd Hni. destruct l as [|m l].
  - assert (H' : set_queue (Some i) s = Ok (u, s')).
    { simpl in Hc. destruct k; cbn [append_at] in H; apply bind_Ok in H as (cur & s1 & H1 & H); apply gets_Ok in H1 as [-> ->]; by rewrite Hc in H. }
    unfold set_queue, modify in H'. injection H' as _ <-. cbn. split_and!; try done. by exists qi.
  - destruct Hc as [Hq (qm & Hm & Hc)]. destruct k as [|k]; [simpl in Hk; lia|]. cbn [append_at] in H.
    apply bind_Ok in H as (cur & s1 & H1 & H). apply gets_Ok in H1 as [-> ->]. rewrite Hq in H.
    destruct (append_from l _ _ _ _ _ _ qi qm H ltac:(simpl in Hk; lia) Hm Hc Hi Hn Hnd Hni) as ((qm' & A1 & A2) & A3 & A4 & A5 & A6).
    split_and!; try done; [|cbn; congruence]. cbn. split; [congruence|]. by exists qm'.
Qed.
Lemma chain_length (s : st) a : queued s a → (length (a_q a) ≤ length (ib s))%nat.
Proof.
  intros [Hb _ _ Hnd Hr]. rewrite <- (length_fmap q_buf), <- Hb. rewrite <- (length_seq (length (a_bufs a)) 0).
  apply submseteq_length, NoDup_submseteq; [done|]. intros i Hi. destruct (Hr i Hi) as (b & Hl & _). apply lookup_lt_Some in Hl.
  apply elem_of_seq. lia.
Qed.
(** Changing the link of a buffer outside the queue. *)
Lemma chain_alter bs i f p l : i ∉ l → chain bs p l → chain (alter f i bs) p l.
Proof.
  revert p. induction l as [|j l IH]; intros p Hi H; [done|]. destruct H as [-> (q & Hq & H)]. apply not_elem_of_cons in Hi as [H1 H2].
  split; [done|]. exists q. rewrite list_lookup_alter_ne by done. split; [done|]. by apply IH.
Qed.
Lemma start_bufs a : a_q (start a) = a_q a ∧ a_bufs (start a) = a_bufs a.
Proof. unfold start. destruct (a_q a) eqn:E; [done|]. destruct (a_bufs a !! n); [|done]. by destruct (dirty b). Qed.
Lemma start_sim k i q (s : st) a u s' : queued s a → a_q a = i :: q → idestart k (Some i) s = Ok (u, s') → sim s' (start a).
Proof.
  intros [Hb Hd Hc Hn Hr] Hq H. destruct (Hr i ltac:(rewrite Hq; set_solver)) as (b & Eb & Hreq).
  assert (Eb' : q_buf <$> ib s !! i = Some b) by (by rewrite <- list_lookup_fmap, <- Hb).
  destruct (idestart_ok _ _ _ _ _ _ H Eb' Hreq) as ((S1 & S2 & S3) & Hdisk & Hph). destruct (start_bufs a) as [Q B].
  split; [|apply start_started|].
  - split; rewrite ?Q, ?B; [congruence| |congruence|done|done]. rewrite Hdisk, <- Hd. unfold start. rewrite Hq, Eb. by destruct (dirty b).
  - rewrite Q, B. intros j p c Hj Hcb Hdc. rewrite Hq in Hj. injection Hj as <- <-. assert (c = b) as -> by congruence. by apply Hph.
Qed.
Lemma submit_sim k i b (s : st) a u s' : sim s a → i ∉ a_q a → a_bufs a !! i = Some b → req_ok b →
  ide_submit k i s = Ok (u, s') → sim s' (submit i a).
Proof.
  intros [Hqd Hst Hph] Hi Hb Hreq H. pose proof (chain_length _ _ Hqd) as Hlen. destruct Hqd as [Ebs Ed Hc Hn Hr]. unfold ide_submit in H.
  apply bind_Ok in H as (? & s1 & H1 & H). unfold upd_qbuf, modify in H1. injection H1 as _ <-.
  apply bind_Ok in H as (n & s1 & H1 & H). apply gets_Ok in H1 as [-> ->]. cbn [ib] in H. rewrite length_alter in H.
  apply bind_Ok in H as (? & s2 & H2 & H). rewrite Ebs, list_lookup_fmap in Hb. destruct (ib s !! i) as [qi|] eqn:Ei; [|done]. injection Hb as Hb.
  destruct (append_ok (a_q a) _ _ _ _ _ (QBuf (q_buf qi) None) H2 Hlen) as (C2 & B2 & D2 & Q2); try done.
  { cbn [ib iq]. by apply chain_alter. }
  { cbn [ib]. by rewrite list_lookup_alter_eq, Ei. }
  cbn [ib iq idev] in *. rewrite fmap_q_buf in B2 by done. apply bind_Ok in H as (h & s3 & H3 & H). apply gets_Ok in H3 as [-> ->]. rewrite Q2 in H.
  assert (Hqd : queued s2 (Abs (a_q a ++ [i]) (a_bufs a) (a_disk a))).
  { split; cbn [a_q a_bufs a_disk]; [congruence|congruence|done| |].
    - apply NoDup_app. split; [done|]. split; [set_solver|]. apply NoDup_singleton.
    - intros j Hj. apply elem_of_app in Hj as [Hj|Hj]; [by apply Hr|]. apply list_elem_of_singleton in Hj as ->. exists b.
      split; [|done]. rewrite Ebs, list_lookup_fmap, Ei. simpl. by rewrite Hb. }
  unfold submit. destruct (a_q a) as [|m q] eqn:Eq.
  - cbn [head default] in H. rewrite bool_decide_true in H by done. cbn [whenM] in H. by eapply start_sim; [done|reflexivity|].
  - cbn [head default] in H. rewrite bool_decide_false in H by (intros [= ->]; set_solver). cbn [whenM] in H. apply ret_Ok in H as [_ ->].
    split; [done| |].
    + intros j p c Hj. cbn [a_q a_bufs a_disk] in *. simpl in Hj. injection Hj as <- _. by apply (Hst m q).
    + intros j p c Hj. cbn [a_q a_bufs a_disk] in *. simpl in Hj. injection Hj as <- _. rewrite D2. by apply (Hph m q).
Qed.
Lemma fmap_alter_buf (bs : list qbuf) i f g q : bs !! i = Some q → q_buf (f q) = g → q_buf <$> alter f i bs = <[i := g]> (q_buf <$> bs).
Proof.
  intros Hq Hg. apply list_eq. intros j. rewrite list_lookup_fmap, list_lookup_alter. case_decide as Hij.
  - subst j. rewrite Hq, list_lookup_insert_eq by (rewrite length_fmap; by eapply lookup_lt_Some). simpl. by rewrite Hg.
  - by rewrite list_lookup_insert_ne, list_lookup_fmap.
Qed.
(** The request at the head is answered. *)
Lemma head_answered k i q (s : st) b u s' : ib s !! i = Some q → q_buf q = b → (dirty b = false → ide_phase (idev s) = PHave (key b)) →
  (whenM (negb (dirty b))
     (r ← idewait k true;
      whenM (0 <=? r)
        (λ s, let '(bytes, d) := insl 0x1f0 (BSIZE / 4) (idev s) in
              upd_qbuf i (λ q, QBuf (set_data bytes (q_buf q)) (qnext q)) (set_idev d s)));;
   upd_qbuf i (λ q, QBuf (set_synced (q_buf q)) (qnext q))) s = Ok (u, s') →
  ide_disk (idev s') = ide_disk (idev s) ∧ iq s' = iq s ∧
  q_buf <$> ib s' = <[i := set_synced (if dirty b then b else set_data (sector (ide_disk (idev s)) (key b)) b)]> (q_buf <$> ib s) ∧
  (∀ p l, i ∉ l → chain (ib s) p l → chain (ib s') p l).
Proof.
  intros Hi Hb Hph H. apply bind_Ok in H as (? & s1 & H1 & H). unfold upd_qbuf, modify in H. injection H as _ <-. cbn [ib iq idev].
  destruct (dirty b); cbn [negb whenM] in H1.
  - apply ret_Ok in H1 as [_ ->]. split_and!; try done; [eapply fmap_alter_buf; [done|]; cbn; by rewrite Hb|].
    intros p l. by apply chain_alter.
  - apply bind_Ok in H1 as (r & s2 & H2 & H1). apply idewait_ok in H2 as ((B1 & B2 & B3) & W1 & W2 & W3). specialize (Hph eq_refl).
    rewrite (W3 _ Hph) in H1. cbn [Z.leb Z.compare whenM] in H1. change (BSIZE / 4) with 128 in H1. rewrite <- W2 in Hph.
    destruct (ide_data_in _ _ Hph) as [I1 I2]. destruct (insl 0x1f0 128 (idev s2)) as [bytes d]. cbn [fst snd] in *.
    unfold upd_qbuf, modify in H1. injection H1 as _ <-. cbn [ib iq idev set_idev]. split; [congruence|]. split; [done|]. rewrite B1. split.
    + erewrite fmap_alter_buf; [|by rewrite list_lookup_alter_eq, Hi|reflexivity]. cbn [q_buf].
      erewrite (fmap_alter_buf (ib s)); [|done|reflexivity]. cbn [q_buf]. rewrite list_insert_insert_eq, Hb, I1, W1. done.
    + intros p l Hl Hc. apply chain_alter; [done|]. by apply chain_alter.
Qed.
Lemma complete_sim k (s : st) a r s' : sim s a → ide_complete k s = Ok (r, s') →
  r = head (a_q a) ∧ match a_q a with
    | [] => s' = s
    | i :: q => ∃ b, a_bufs a !! i = Some b ∧
        queued s' (Abs q (<[i := set_synced (if dirty b then b else set_data (sector (a_disk a) (key b)) b)]> (a_bufs a)) (a_disk a))
    end.
Proof.
  intros [[Hb Hd Hc Hn Hr] Hst Hph] H. unfold ide_complete in H. apply bind_Ok in H as (h & s1 & H1 & H). apply gets_Ok in H1 as [-> ->].
  destruct (a_q a) as [|i q] eqn:Eq; simpl in Hc; [rewrite Hc in H; by apply ret_Ok in H as [-> ->]|]. destruct Hc as [Eh (qi & Ei & Hc)].
  rewrite Eh in H. apply bind_Ok in H as (q' & s1 & H1 & H). unfold the_qbuf in H1. rewrite Ei in H1. injection H1 as <- <-.
  apply bind_Ok in H as (? & s1 & H1 & H). unfold set_queue, modify in H1. injection H1 as _ <-.
  destruct (Hr i ltac:(set_solver)) as (b & Eb & Hreq). assert (Hqb : q_buf qi = b).
  { rewrite Hb, list_lookup_fmap, Ei in Eb. by injection Eb. }
  rewrite Hqb in H. apply bind_Ok in H as (u1 & s1 & H1 & H). apply bind_Ok in H as (u2 & s2 & H2 & H). apply ret_Ok in H as [-> ->].
  destruct (head_answered k i qi (Ist (ib s) (qnext qi) (have1 s) (idev s)) b u2 s2) as (A1 & A2 & A3 & A4); try done.
  { intros Hdb. by apply (Hph i q). }
  { cbn [ib]. unfold mbind, M_bind. unfold mbind, M_bind in H1. rewrite H1. exact H2. }
  split; [done|]. exists b. split; [done|]. apply NoDup_cons in Hn as [Hni Hn]. cbn [ib iq idev] in *. split; cbn [a_q a_bufs a_disk].
  - by rewrite A3, Hb, Hd.
  - congruence.
  - rewrite A2. by apply A4.
  - done.
  - intros j Hj. destruct (Hr j ltac:(set_solver)) as (c & Ec & Hreqc). exists c. rewrite list_lookup_insert_ne by (intros ->; done). done.
Qed.
Lemma next_sim k (s : st) a u s' : queued s a → ide_next k s = Ok (u, s') → sim s' (start a).
Proof.
  intros Hq H. unfold ide_next in H. apply bind_Ok in H as (h & s1 & H1 & H). apply gets_Ok in H1 as [-> ->].
  pose proof (qd_chain _ _ Hq) as Hc. destruct (a_q a) as [|i q] eqn:Eq; cbn [chain] in Hc.
  - rewrite Hc in H. apply ret_Ok in H as [_ ->]. assert (start a = a) as -> by (unfold start; by rewrite Eq).
    split; [done| |]; intros i q b Hi; congruence.
  - destruct Hc as [Hc _]. rewrite Hc in H. by eapply start_sim.
Qed.
End Refine.

Lemma set_synced_synced b : synced (set_synced b) = true.
Proof.
  unfold synced, set_synced, set_flags. cbn [flags]. rewrite <- Z.land_assoc. change (Z.land (Z.lnot B_DIRTY) (Z.lor B_VALID B_DIRTY)) with B_VALID.
  apply Z.eqb_eq, Z.bits_inj'. intros n _. rewrite Z.land_spec, Z.lor_spec. by destruct (Z.testbit (flags b) n), (Z.testbit B_VALID n).
Qed.

Section Kernel.
Context {E D : Type} `{!Services E} `{!Ports D} `{!StringPorts D} `{!IdeDisk D}.
Variable k : lens E (ide D).
Context `{!LensOk k}.
Variable buf_addr : nat → Z.
Variable spins : nat.
Notation l := (env_in k).
Definition ist_of (s : pst E) : ist D := ide_st (view l s).
Notation its := ist_of.

Global Instance ist_core : KeepsLens its core_l.
Proof. done. Qed.
Global Instance ist_pt : KeepsLens its ptlock_l.
Proof. done. Qed.
Global Instance ist_table : KeepsTable its.
Proof. done. Qed.
Global Instance ist_lock : KeepsLens its (ide_lock_l l).
Proof. constructor. intros x s. unfold ist_of. cbn [ide_lock_l upd_lens]. by rewrite view_upd. Qed.
Lemma on_ist {A} (c : M (ist D) A) s a s' : on_lens (ist_l l) c s = Ok (a, s') → c (its s) = Ok (a, its s').
Proof.
  intros H. apply on_lens_inv in H as (t & H & ->). unfold ist_of. cbn [ist_l view upd_lens]. rewrite view_upd. exact H.
Qed.

Lemma ideintr_sim s u s' a : sim (its s) a → ideintr l buf_addr spins s = Ok (u, s') → sim (its s') (irq a).
Proof.
  intros Hs H. unfold ideintr in H. apply bind_Ok in H as (? & s1 & H1 & H). apply (keeps_acquire its core_l (ide_lock_l l)) in H1. rewrite <- H1 in Hs.
  apply bind_Ok in H as (r & s2 & H2 & H). apply on_ist in H2. destruct (complete_sim _ _ _ _ _ Hs H2) as [-> Hc]. unfold irq.
  destruct (a_q a) as [|i q]; cbn [head] in H.
  - apply (keeps_release its core_l (ide_lock_l l)) in H. by rewrite H, Hc.
  - destruct Hc as (b & -> & Hq). apply bind_Ok in H as (? & s3 & H3 & H). apply (keeps_wakeup its) in H3; [|apply _..].
    apply bind_Ok in H as (? & s4 & H4 & H). apply on_ist in H4. apply (keeps_release its core_l (ide_lock_l l)) in H. rewrite H3 in H4. rewrite H.
    by eapply next_sim.
Qed.

(** What others do while the owner of buffer [i] sleeps is some history that
    leaves the buffer alone. *)
Definition fair (i : nat) (o : M (pst E) unit) : Prop := ∀ s s' a, o s = Ok (tt, s') → sim (its s) a →
  ∃ tr a', Forall (spares i) tr ∧ ide_run tr a a' ∧ sim (its s') a'.
Lemma ideintr_fair i : fair i (ideintr l buf_addr spins).
Proof.
  intros s s' a H Hs. exists [EIrq], (irq a). split; [by repeat constructor|]. split; [done|]. by eapply ideintr_sim.
Qed.
Lemma wait_synced_trace i others : Forall (fair i) others → ∀ s a u s', wait_synced l buf_addr i others s = Ok (u, s') → sim (its s) a →
  ∃ tr a', Forall (spares i) tr ∧ ide_run tr a a' ∧ sim (its s') a' ∧ i ∉ a_q a'.
Proof.
  intros Hf. induction Hf as [|o others Ho Hf IH]; intros s a u s' H Hs; cbn [wait_synced] in H;
    apply bind_Ok in H as (q & s1 & H1 & H); apply on_ist in H1; unfold the_qbuf in H1; destruct (ib (its s) !! i) as [q'|] eqn:Ei; try done;
    injection H1 as -> E1; rewrite E1 in *; destruct (synced (q_buf q)) eqn:Esy.
  2: done.
  1, 2: apply ret_Ok in H as [_ ->]; exists [], a; split_and!; try done; intros Hi; destruct Hs as [[Hb _ _ _ Hr] _ _];
    destruct (Hr i Hi) as (b & Eb & Hsy & _); rewrite Hb, list_lookup_fmap, Ei in Eb; simpl in Eb; congruence.
  apply bind_Ok in H as (? & s2 & H2 & H). apply (sleep_others its) in H2 as (s3 & s4 & Ho' & E3 & E4); [|apply _].
  destruct (Ho _ _ a Ho') as (tr1 & a1 & T1 & R1 & S1); [by rewrite E3|]. rewrite <- E4 in S1.
  destruct (IH _ _ _ _ H S1) as (tr2 & a2 & T2 & R2 & S2 & Hi). exists (tr1 ++ tr2), a2. split_and!; try done; [by apply Forall_app|].
  by eapply ide_run_app.
Qed.

End Kernel.

(** ** A disk *)

(** A controller that is always ready. *)
Record hd := Hd { hd_reg : Z → Z; hd_phase : phase; hd_disk : gmap (Z * Z) blk }.
#[local] Instance hd_ports : Ports hd := {
  inb p d := ((if p =? 0x1f7 then 0x40 else 0), d);
  outb p v d :=
    if p =? 0x1f7 then
      Hd (hd_reg d) (if v =? IDE_CMD_READ then PHave (target (hd_reg d)) else if v =? IDE_CMD_WRITE then PWant (target (hd_reg d)) else PIdle) (hd_disk d)
    else Hd (λ q, if q =? p then v else hd_reg d q) (hd_phase d) (hd_disk d) }.
#[local] Instance hd_strings : StringPorts hd := {
  insl p n d := match hd_phase d with PHave k => (sector (hd_disk d) k, Hd (hd_reg d) PIdle (hd_disk d)) | _ => ([], d) end;
  outsl p bytes d := match hd_phase d with PWant k => Hd (hd_reg d) PIdle (<[k := bytes]> (hd_disk d)) | _ => d end }.
#[local] Program Instance hd_ide : IdeDisk hd := { ide_disk := hd_disk; ide_reg := hd_reg; ide_phase := hd_phase }.
Next Obligation. by intros. Qed.
Next Obligation. by intros. Qed.
Next Obligation. intros p v d Hp. cbn. rewrite (proj2 (Z.eqb_neq p 0x1f7)) by lia. done. Qed.
Next Obligation. by intros. Qed.
Next Obligation. by intros. Qed.
Next Obligation. intros k bytes d H _. cbn. by rewrite H. Qed.
Next Obligation. intros k d H. cbn. by rewrite H. Qed.
Next Obligation. by intros. Qed.

(** A process on CPU 0 owns a buffer for block 5 of disk 1. *)
Definition box : Type := mem * ide hd.
Definition box_mem : lens box mem := Lens fst (λ m e, (m, e.2)).
Definition box_ide : lens box (ide hd) := Lens snd (λ x e, (e.1, x)).
#[local] Instance box_services : Services box := plain_services_on box_mem.
#[local] Instance box_ide_ok : LensOk box_ide.
Proof. split; by intros; try destruct s. Qed.
Definition block5 : blk := replicate 512 7.
Definition read5 : buf := Buf 0 1 5 (Some 1) 1 (replicate 512 0).
Definition box_start : pst box :=
  Pst {| cpus := [Spin.Cpu 0 0 false (Some 0%nat) true]; me := 0 |} (initlock "ptable")
    [set_pid 1 (set_state RUNNING proc0)] 2 (Some 0%nat) 0 (initlock "time") false
    (λ _, 0, Ide (initlock "ide") (Ist [QBuf read5 None] None true (Hd (λ _, 0) PIdle {[ (1, 5) := block5 ]}))).
(** While the process sleeps, the scheduler lets the disk interrupt. *)
Definition box_other : M (pst box) unit :=
  release core_l ptlock_l;; ideintr (env_in box_ide) (λ _, 0x80100000) 3;; acquire core_l ptlock_l.
Lemma box_other_fair : fair box_ide 0 box_other.
Proof.
  intros s s' a H Hs. apply bind_Ok in H as (? & s1 & H1 & H). apply (keeps_release (ist_of box_ide) core_l ptlock_l) in H1.
  apply bind_Ok in H as ([] & s2 & H2 & H). apply (keeps_acquire (ist_of box_ide) core_l ptlock_l) in H. rewrite <- H1 in Hs.
  destruct (ideintr_fair box_ide (λ _, 0x80100000) 3 0 _ _ _ H2 Hs) as (tr & a' & A1 & A2 & A3). exists tr, a'. by rewrite H.
Qed.
Definition box_abs : abs := Abs [] [read5] {[ (1, 5) := block5 ]}.
Lemma box_sim : sim (ist_of box_ide box_start) box_abs.
Proof. split; [split; try done; [apply NoDup_nil_2|set_solver]|by intros ???|by intros ???]. Qed.
Definition box_end : pst box := after (iderw (env_in box_ide) (λ _, 0x80100000) 3 [box_other] 0) box_start.
Lemma box_run : iderw (env_in box_ide) (λ _, 0x80100000) 3 [box_other] 0 box_start = Ok (tt, box_end).
Proof. by vm_compute. Qed.

(** C39: A read error goes unnoticed.  When the controller reports an error for
    the request at the head of the queue, [ideintr] skips the transfer but
    marks the buffer valid all the same: the process that waits for it goes on
    with the old bytes of the buffer as the contents of the block. *)
Theorem read_error_ignored {D} `{!Ports D} `{!StringPorts D} k i q (s s1 : ist D) (Hq : iq s = Some i) (Hi : ib s !! i = Some q)
    (Hr : dirty (q_buf q) = false) (Herr : idewait k true (Ist (ib s) (qnext q) (have1 s) (idev s)) = Ok (-1, s1)) :
  ∃ s' q', ide_complete k s = Ok (Some i, s') ∧ ib s' !! i = Some q' ∧ data (q_buf q') = data (q_buf q) ∧ synced (q_buf q') = true.
Proof.
  destruct (idewait_same _ _ _ _ _ Herr) as (Hs1 & _). cbn [ib] in Hs1. unfold ide_complete.
  rewrite (bind_Ok_l _ _ s (Some i) s) by (unfold gets; by rewrite Hq). cbv iota. rewrite (bind_Ok_l _ _ s q s) by (unfold the_qbuf; by rewrite Hi).
  erewrite bind_Ok_l by reflexivity. rewrite Hr. cbn [negb whenM]. rewrite (bind_Ok_l _ _ _ tt s1); [|by rewrite (bind_Ok_l _ _ _ _ _ Herr)].
  erewrite bind_Ok_l by reflexivity. eexists _, _. split; [reflexivity|]. cbn [ib]. rewrite list_lookup_alter_eq, Hs1, Hi.
  split; [reflexivity|]. split; [done|]. apply set_synced_synced.
Qed.
(** A controller that answers every command with an error. *)
Definition broken_ports : Ports unit := {| inb p d := (0x41, d); outb p v d := d |}.
Definition broken_strings : StringPorts unit := {| insl p n d := ([], d); outsl p bytes d := d |}.
Lemma read_error_ignored_witness : ∃ s' q', @ide_complete unit broken_ports broken_strings 3 (Ist [QBuf read5 None] (Some 0%nat) true tt) = Ok (Some 0%nat, s') ∧
  ib s' !! 0%nat = Some q' ∧ data (q_buf q') = replicate 512 0 ∧ synced (q_buf q') = true.
Proof.
  exact (@read_error_ignored unit broken_ports broken_strings 3 0 (QBuf read5 None) (Ist [QBuf read5 None] (Some 0%nat) true tt)
    (Ist [QBuf read5 None] None true tt) eq_refl eq_refl eq_refl eq_refl).
Defined.
