(* ===== verification/Boot.v ===== *)
(** * The boot loader

    [bootmain.c]: it reads the kernel, an ELF file that starts at sector 1 of
    the boot disk, into memory and finds its entry point.  The disk is the
    controller of [Ide], polled.

    The theorem shows that every segment is in memory as the file has it, with
    the rest of its memory cleared, although whole sectors are read.

    Memory is physical memory, one byte at each address. *)

From stdpp Require Import gmap.
From S2P Require Import Prelude Machine Str Spin Bio Exec Console Ide.
Local Open Scope Z_scope.

(** ** Operations *)

Definition SECTSIZE : Z := 512.
Record boot (D : Type) := MkBoot { bmem : mem; bdisk : D }.
Arguments MkBoot {_} _ _.
Arguments bmem {_} _.
Arguments bdisk {_} _.
(** Bytes stored from [dst] on. *)
Definition put_bytes (m : mem) (dst : Z) (l : list Z) : mem :=
  λ x, if (dst <=? x) && (x <? dst + Z.of_nat (length l)) then nth (Z.to_nat (x - dst)) l 0 else m x.

Section Boot.
Context {D : Type} `{!Ports D} `{!StringPorts D}.
Notation st := (boot D).
Definition bin (p : Z) : M st Z := λ s, let '(v, d) := inb p (bdisk s) in Ok (v, MkBoot (bmem s) d).
Definition bout (p v : Z) : M st unit := modify (λ s, MkBoot (bmem s) (outb p (v mod 2^8) (bdisk s))).
(** At most [k] polls; a disk that stays busy keeps the loader there. *)
Fixpoint waitdisk (k : nat) : M st unit :=
  r ← bin 0x1F7;
  if negb (Z.land r 0xC0 =? 0x40) then (match k with O => block | S k' => waitdisk k' end : M st unit) else mret tt.
(** [insl(0x1F0, dst, SECTSIZE/4)] *)
Definition read_data (dst : Z) : M st unit := λ s,
  let '(bytes, d) := insl 0x1F0 (SECTSIZE / 4) (bdisk s) in Ok (tt, MkBoot (put_bytes (bmem s) dst bytes) d).
Definition readsect (k : nat) (dst offset : Z) : M st unit :=
  waitdisk k;;
  bout 0x1F2 1;;
  bout 0x1F3 offset;;
  bout 0x1F4 (Z.shiftr offset 8);;
  bout 0x1F5 (Z.shiftr offset 16);;
  bout 0x1F6 (Z.lor (Z.shiftr offset 24) 0xE0);;
  bout 0x1F7 0x20;;
  waitdisk k;;
  read_data dst.
(** The loop of [readseg], for at most [n] sectors. *)
Fixpoint readseg_loop (k n : nat) (pa epa offset : Z) : M st unit :=
  if negb (pa <? epa) then mret tt else
  match n with
  | O => fault "fuel"
  | S n' => readsect k pa offset;; readseg_loop k n' (wrap32 (pa + SECTSIZE)) epa (wrap32 (offset + 1))
  end.
Definition readseg (k : nat) (pa count offset : Z) : M st unit :=
  let epa := wrap32 (pa + count) in
  let pa := wrap32 (pa - offset mod SECTSIZE) in
  let offset := wrap32 (offset / SECTSIZE + 1) in
  readseg_loop k (Z.to_nat (count / SECTSIZE + 2)) pa epa offset.

(** Fields of [struct elfhdr] at [0x10000] and of a [struct proghdr]. *)
Definition ELF : Z := 0x10000.
Definition half_at (m : mem) (a : Z) : Z := m a + 2^8 * m (a + 1).
(** The loop over the program headers, for at most [n] of them. *)
Fixpoint load_loop (k n : nat) (ph eph : Z) : M st unit :=
  if negb (ph <? eph) then mret tt else
  match n with
  | O => fault "fuel"
  | S n' =>
      m ← gets bmem;
      let pa := load32 m (ph + 12) in
      readseg k pa (load32 m (ph + 16)) (load32 m (ph + 4));;
      m ← gets bmem;
      let filesz := load32 m (ph + 16) in
      let memsz := load32 m (ph + 20) in
      (if filesz <? memsz
       then modify (λ s, MkBoot (stosb (bmem s) (pa + filesz) 0 (Z.to_nat (memsz - filesz))) (bdisk s))
       else mret tt);;
      load_loop k n' (wrap32 (ph + 32)) eph
  end.
(** The entry point it jumps to, or [None] when it returns. *)
Definition bootmain (k : nat) : M st (option Z) :=
  readseg k ELF 4096 0;;
  m ← gets bmem;
  if negb (load32 m ELF =? ELF_MAGIC) then mret None else
  let phnum := half_at m (ELF + 44) in
  let ph := wrap32 (ELF + load32 m (ELF + 28)) in
  let eph := wrap32 (ph + 32 * phnum) in
  load_loop k (Z.to_nat phnum) ph eph;;
  m ← gets bmem;
  mret (Some (load32 m (ELF + 24))).

(** ** What is read *)

Context `{!IdeDisk D}.
(** The disk answers a poll within [k] others. *)
Definition answers (k : nat) : Prop := ∀ d : D, ∃ j, (j ≤ k)%nat ∧ Z.land (inb 0x1f7 (Nat.iter j (λ d, (inb 0x1f7 d).2) d)).1 0xC0 = 0x40.
(** Byte [o] of the kernel's file. *)
Definition kbyte (d : D) (o : Z) : Z := nth (Z.to_nat (o mod 512)) (sector (ide_disk d) (0, o / 512 + 1)) 0.
Definition full_sectors (d : D) : Prop := ∀ n, length (sector (ide_disk d) (0, n)) = 512%nat ∧ Forall is_u8 (sector (ide_disk d) (0, n)).
Lemma waitdisk_ok k m d : answers k → ∃ d', waitdisk k (MkBoot m d) = Ok (tt, MkBoot m d') ∧ ide_disk d' = ide_disk d ∧ ide_phase d' = ide_phase d.
Proof.
  intros Hk. destruct (Hk d) as (j & Hj & Hr). clear Hk. revert d j Hj Hr. induction k as [|k IH]; intros d j Hj Hr; cbn [waitdisk].
  all: rewrite (bind_Ok_l _ _ _ (inb 0x1f7 d).1 (MkBoot m (inb 0x1f7 d).2)) by (unfold bin; cbn [bdisk bmem]; by destruct (inb 0x1f7 d)).
  all: destruct (ide_status d) as [S1 S2]; destruct (Z.eqb_spec (Z.land (inb 0x1f7 d).1 0xC0) 0x40) as [E|E]; cbn [negb]; [by exists (inb 0x1f7 d).2|].
  - assert (j = O) as -> by lia. done.
  - destruct j as [|j]; [done|]. rewrite Nat.iter_succ_r in Hr. destruct (IH _ j ltac:(lia) Hr) as (d' & H1 & H2 & H3). exists d'. split; [done|]. by rewrite H2, H3.
Qed.
Lemma bout_ok p v m d : bout p v (MkBoot m d) = Ok (tt, MkBoot m (outb p (v mod 2^8) d)).
Proof. done. Qed.
(** The registers for sector [n] of disk 0. *)
Lemma sector_regs (r : Z → Z) n : 0 ≤ n < 2^28 → r 0x1f3 = n mod 2^8 → r 0x1f4 = Z.shiftr n 8 mod 2^8 → r 0x1f5 = Z.shiftr n 16 mod 2^8 →
  r 0x1f6 = Z.lor (Z.shiftr n 24) 0xE0 mod 2^8 → target r = (0, n).
Proof.
  intros Hn R3 R4 R5 R6. unfold target. assert (E6 : r 0x1f6 = 0xE0 + n / 2^24).
  { rewrite R6, Z.shiftr_div_pow2, Z.lor_comm by lia. change 0xE0 with (14 * 2^4). rewrite lor_add_disjoint; [|lia|Z.div_mod_to_equations; lia].
    apply Z.mod_small. Z.div_mod_to_equations. lia. }
  f_equal.
  - rewrite E6, Z.shiftr_div_pow2 by lia. change 1 with (Z.ones 1). rewrite Z.land_ones by lia. Z.div_mod_to_equations. lia.
  - rewrite R3, R4, R5, E6, !Z.shiftr_div_pow2, !Z.shiftl_mul_pow2 by lia. change 0x0f with (Z.ones 4). rewrite Z.land_ones by lia. Z.div_mod_to_equations. lia.
Qed.
Lemma readsect_ok k m d dst n : answers k → 0 ≤ n < 2^28 →
  ∃ d', readsect k dst n (MkBoot m d) = Ok (tt, MkBoot (put_bytes m dst (sector (ide_disk d) (0, n))) d') ∧ ide_disk d' = ide_disk d.
Proof.
  intros Hk Hn. unfold readsect. destruct (waitdisk_ok k m d Hk) as (d0 & W0 & D0 & _). rewrite (bind_Ok_l _ _ _ _ _ W0).
  rewrite (bind_Ok_l _ _ _ _ _ (bout_ok 0x1F2 1 m d0)). set (d1 := outb 0x1f2 _ d0). destruct (ide_select 0x1f2 (1 mod 2^8) d0 ltac:(lia)) as [D1 R1]. fold d1 in D1, R1.
  rewrite (bind_Ok_l _ _ _ _ _ (bout_ok 0x1F3 n m d1)). set (d2 := outb 0x1f3 _ d1). destruct (ide_select 0x1f3 (n mod 2^8) d1 ltac:(lia)) as [D2 R2]. fold d2 in D2, R2.
  rewrite (bind_Ok_l _ _ _ _ _ (bout_ok 0x1F4 (Z.shiftr n 8) m d2)). set (d3 := outb 0x1f4 _ d2). destruct (ide_select 0x1f4 (Z.shiftr n 8 mod 2^8) d2 ltac:(lia)) as [D3 R3]. fold d3 in D3, R3.
  rewrite (bind_Ok_l _ _ _ _ _ (bout_ok 0x1F5 (Z.shiftr n 16) m d3)). set (d4 := outb 0x1f5 _ d3). destruct (ide_select 0x1f5 (Z.shiftr n 16 mod 2^8) d3 ltac:(lia)) as [D4 R4]. fold d4 in D4, R4.
  rewrite (bind_Ok_l _ _ _ _ _ (bout_ok 0x1F6 (Z.lor (Z.shiftr n 24) 0xE0) m d4)). set (d5 := outb 0x1f6 _ d4).
  destruct (ide_select 0x1f6 (Z.lor (Z.shiftr n 24) 0xE0 mod 2^8) d4 ltac:(lia)) as [D5 R5]. fold d5 in D5, R5.
  rewrite (bind_Ok_l _ _ _ _ _ (bout_ok 0x1F7 0x20 m d5)). change (0x20 mod 2^8) with IDE_CMD_READ. set (d6 := outb 0x1f7 _ d5).
  destruct (ide_read_cmd d5) as [D6 P6]; [by rewrite R5, R4, R3, R2, R1|]. fold d6 in D6, P6. rewrite (sector_regs (ide_reg d5) n Hn) in P6; [|by rewrite R5, R4, R3, R2|by rewrite R5, R4, R3|by rewrite R5, R4|by rewrite R5].
  destruct (waitdisk_ok k m d6 Hk) as (d7 & W7 & D7 & P7). rewrite (bind_Ok_l _ _ _ _ _ W7). rewrite P6 in P7. destruct (ide_data_in _ _ P7) as [E7 D8].
  unfold read_data. cbn [bdisk bmem]. change (SECTSIZE / 4) with 128. destruct (insl 0x1f0 128 d7) as [bytes d8]. cbn [fst snd] in E7, D8.
  exists d8. assert (Hd : ide_disk d7 = ide_disk d) by congruence. rewrite E7, Hd. split; [done|]. congruence.
Qed.
Lemma readseg_loop_ok k n : answers k → ∀ m d pa epa off, full_sectors d → 0 ≤ pa ≤ epa → epa < 2^32 - 512 → 0 ≤ off →
  let c := (epa - pa + 511) / 512 in c ≤ Z.of_nat n → off + c < 2^28 →
  ∃ m' d', readseg_loop k n pa epa off (MkBoot m d) = Ok (tt, MkBoot m' d') ∧ ide_disk d' = ide_disk d ∧
    ∀ x, m' x = if decide (pa ≤ x < pa + 512 * c) then nth (Z.to_nat ((x - pa) mod 512)) (sector (ide_disk d) (0, off + (x - pa) / 512)) 0 else m x.
Proof.
  intros Hk. induction n as [|n IH]; intros m d pa epa off Hfull Hpa Hepa Hoff c Hc Ho; cbn [readseg_loop].
  all: destruct (Z.ltb_spec pa epa) as [Hlt|Hge]; cbn [negb].
  1: exfalso; unfold c in Hc; Z.div_mod_to_equations; lia.
  1, 3: exists m, d; assert (c = 0) as -> by (unfold c; assert (pa = epa) as -> by lia; by rewrite Z.sub_diag); split_and!; try done; intros x; by rewrite decide_False by lia.
  destruct (readsect_ok k m d pa off Hk) as (d1 & E1 & D1); [unfold c in Ho; Z.div_mod_to_equations; lia|]. rewrite (bind_Ok_l _ _ _ _ _ E1).
  assert (Hful1 : full_sectors d1) by (intros i; rewrite D1; apply Hfull). change SECTSIZE with 512.
  rewrite (wrap32_id (pa + 512)), (wrap32_id (off + 1)) by (unfold is_u32, c in *; Z.div_mod_to_equations; lia).
  destruct (Z.le_gt_cases (pa + 512) epa) as [Hle|Hgt].
  - assert (Ec : (epa - (pa + 512) + 511) / 512 = c - 1) by (unfold c; replace (epa - pa + 511) with (epa - (pa + 512) + 511 + 1 * 512) by lia; rewrite Z.div_add by lia; lia).
    destruct (IH (put_bytes m pa (sector (ide_disk d) (0, off))) d1 (pa + 512) epa (off + 1)) as (m' & d' & E & Dk & Hm); try done; try lia; try (rewrite Ec; lia).
    exists m', d'. split; [done|]. split; [congruence|]. intros x. rewrite Hm, Ec, D1. unfold put_bytes. rewrite (proj1 (Hfull _)).
    destruct (decide (pa + 512 ≤ x < pa + 512 + 512 * (c - 1))) as [Hx|Hx].
    + rewrite decide_True by lia. f_equal; [f_equal|f_equal; f_equal]; Z.div_mod_to_equations; lia.
    + destruct (decide (pa ≤ x < pa + 512 * c)) as [Hx2|Hx2].
      * rewrite (proj2 (Z.leb_le pa x)), (proj2 (Z.ltb_lt x _)) by lia. cbn [andb]. rewrite (Z.div_small (x - pa) 512), Z.mod_small, Z.add_0_r by lia. done.
      * assert (1 ≤ c) by (unfold c; Z.div_mod_to_equations; lia). destruct (Z.leb_spec pa x), (Z.ltb_spec x (pa + Z.of_nat 512)); cbn [andb]; try done. lia.
  - assert (Ec : c = 1) by (unfold c; Z.div_mod_to_equations; lia). destruct n as [|n']; cbn [readseg_loop]; rewrite (proj2 (Z.ltb_ge (pa + 512) epa)) by lia; cbn [negb].
    all: exists (put_bytes m pa (sector (ide_disk d) (0, off))), d1; split; [done|]; split; [done|]; intros x; unfold put_bytes; rewrite (proj1 (Hfull _)), Ec.
    all: destruct (decide (pa ≤ x < pa + 512 * 1)) as [Hx|Hx];
      [rewrite (proj2 (Z.leb_le pa x)), (proj2 (Z.ltb_lt x _)) by lia; cbn [andb]; by rewrite (Z.div_small (x - pa) 512), Z.mod_small, Z.add_0_r by lia|].
    all: destruct (Z.leb_spec pa x), (Z.ltb_spec x (pa + Z.of_nat 512)); cbn [andb]; try done; lia.
Qed.
(** The sectors of [count] bytes at [off], around [pa]. *)
Definition seg_lo (pa off : Z) : Z := pa - off mod 512.
Definition seg_hi (pa count off : Z) : Z := seg_lo pa off + 512 * ((count + off mod 512 + 511) / 512).
Record seg_fits (pa count off : Z) : Prop := {
  sf_pa : 512 ≤ pa;
  sf_count : 0 ≤ count;
  sf_end : pa + count < 2^32 - 1024;
  sf_off : 0 ≤ off;
  sf_file : off + count < 2^36;
}.
Lemma readseg_ok k m d pa count off : answers k → full_sectors d → seg_fits pa count off →
  ∃ m' d', readseg k pa count off (MkBoot m d) = Ok (tt, MkBoot m' d') ∧ ide_disk d' = ide_disk d ∧
    ∀ x, m' x = if decide (seg_lo pa off ≤ x < seg_hi pa count off) then kbyte d (off + (x - pa)) else m x.
Proof.
  intros Hk Hfull [F1 F2 F3 F4 F5]. unfold readseg. change SECTSIZE with 512. cbv zeta. pose proof (Z.mod_pos_bound off 512 ltac:(lia)) as Hmb.
  assert (Hq : 0 ≤ off / 512 ∧ 0 ≤ (count + off mod 512 + 511) / 512 ∧ off / 512 + (count + off mod 512 + 511) / 512 < 2^28 - 1) by (Z.div_mod_to_equations; lia).
  rewrite (wrap32_id (pa + count)), (wrap32_id (pa - off mod 512)), (wrap32_id (off / 512 + 1)) by (unfold is_u32; lia). destruct (readseg_loop_ok k (Z.to_nat (count / 512 + 2)) Hk m d (pa - off mod 512) (pa + count) (off / 512 + 1)) as (m' & d' & E & Dk & Hm);
    try done; try lia; replace (pa + count - (pa - off mod 512) + 511) with (count + off mod 512 + 511) by lia; [Z.div_mod_to_equations; lia|lia|].
  exists m', d'. split; [done|]. split; [done|]. intros x. rewrite Hm. unfold seg_hi, seg_lo. replace (pa + count - (pa - off mod 512) + 511) with (count + off mod 512 + 511) by lia.
  case_decide; [|done]. unfold kbyte. assert (Ex : x - (pa - off mod 512) = off + (x - pa) - 512 * (off / 512)) by (Z.div_mod_to_equations; lia).
  rewrite Ex. f_equal; [f_equal; Z.div_mod_to_equations; lia|f_equal; f_equal; Z.div_mod_to_equations; lia].
Qed.

(** ** The segments *)

(** A program header of the file, at [o]. *)
Definition kword (d : D) (o : Z) : Z := load32 (kbyte d) o.
Record kseg := KSeg { ks_off : Z; ks_pa : Z; ks_filesz : Z; ks_memsz : Z }.
Definition seg_at (d : D) (o : Z) : kseg := KSeg (kword d (o + 4)) (kword d (o + 12)) (kword d (o + 16)) (kword d (o + 20)).
Definition segs (d : D) (o : Z) (n : nat) : list kseg := (λ i, seg_at d (o + 32 * Z.of_nat i)) <$> seq 0 n.
(** What loading a segment writes. *)
Definition writes (g : kseg) (x : Z) : Prop :=
  seg_lo (ks_pa g) (ks_off g) ≤ x < seg_hi (ks_pa g) (ks_filesz g) (ks_off g) ∨ ks_pa g + ks_filesz g ≤ x < ks_pa g + ks_memsz g.
(** The memory of a segment, as the file has it and cleared behind. *)
Definition loaded (d : D) (m : mem) (g : kseg) : Prop :=
  (∀ x, ks_pa g ≤ x < ks_pa g + ks_filesz g → m x = kbyte d (ks_off g + (x - ks_pa g))) ∧
  (∀ x, ks_pa g + ks_filesz g ≤ x < ks_pa g + ks_memsz g → m x = 0).
Definition keeps_header (g : kseg) : Prop := ∀ x, ELF ≤ x < ELF + 4096 → ¬ writes g x.
(** The header page in memory. *)
Definition has_header (d : D) (m : mem) : Prop := ∀ x, ELF ≤ x < ELF + 4096 → m x = kbyte d (x - ELF).
Record kseg_ok (g : kseg) : Prop := {
  kg_fits : seg_fits (ks_pa g) (ks_filesz g) (ks_off g);
  kg_mem : ks_pa g + ks_memsz g < 2^32;
  kg_keeps : keeps_header g;
}.
(** Loading a later segment spares the memory of an earlier one. *)
Definition spares (g g' : kseg) : Prop := ∀ x, ks_pa g ≤ x < ks_pa g + Z.max (ks_filesz g) (ks_memsz g) → ¬ writes g' x.
Lemma header_word d m o : has_header d m → 0 ≤ o → o + 4 ≤ 4096 → load32 m (ELF + o) = kword d o.
Proof.
  intros Hh H0 H1. unfold kword, load32. unfold ELF in *.
  rewrite !Hh by (unfold ELF in *; lia). unfold ELF. do 3 (f_equal; [|do 2 f_equal; lia]). f_equal. lia.
Qed.
Lemma has_header_same d d' m : ide_disk d' = ide_disk d → has_header d m → has_header d' m.
Proof. intros E H x Hx. rewrite H by done. unfold kbyte. by rewrite E. Qed.
Lemma seg_at_same d d' o : ide_disk d' = ide_disk d → seg_at d' o = seg_at d o.
Proof. intros E. unfold seg_at, kword, load32, kbyte. by rewrite E. Qed.
(** One segment. *)
Lemma load_one k m d o : answers k → full_sectors d → has_header d m → 0 ≤ o → o + 32 ≤ 4096 → kseg_ok (seg_at d o) →
  ∃ m' d', (m ← gets bmem;
      let pa := load32 m (ELF + o + 12) in
      readseg k pa (load32 m (ELF + o + 16)) (load32 m (ELF + o + 4));;
      m ← gets bmem;
      let filesz := load32 m (ELF + o + 16) in
      let memsz := load32 m (ELF + o + 20) in
      (if filesz <? memsz
       then modify (λ s, MkBoot (stosb (bmem s) (pa + filesz) 0 (Z.to_nat (memsz - filesz))) (bdisk s))
       else mret tt)) (MkBoot m d) = Ok (tt, MkBoot m' d') ∧
    ide_disk d' = ide_disk d ∧ has_header d' m' ∧ loaded d m' (seg_at d o) ∧ ∀ x, ¬ writes (seg_at d o) x → m' x = m x.
Proof.
  intros Hk Hfull Hh H0 H1 [Hfit Hmem Hkeep]. set (g := seg_at d o) in *.
  assert (Hw : ∀ m d', has_header d' m → ide_disk d' = ide_disk d → load32 m (ELF + o + 12) = ks_pa g ∧ load32 m (ELF + o + 16) = ks_filesz g ∧
    load32 m (ELF + o + 4) = ks_off g ∧ load32 m (ELF + o + 20) = ks_memsz g).
  { intros m1 d1 Hh1 E1. apply (has_header_same d1 d) in Hh1; [|done]. rewrite <- !Z.add_assoc. by rewrite !(header_word d) by (done || lia). }
  destruct (Hw m d Hh eq_refl) as (W1 & W2 & W3 & _). destruct (readseg_ok k m d (ks_pa g) (ks_filesz g) (ks_off g) Hk Hfull Hfit) as (m1 & d1 & E1 & D1 & Hm1).
  assert (Hh1 : has_header d1 m1).
  { apply (has_header_same d); [done|]. intros x Hx. rewrite Hm1, decide_False; [by apply Hh|]. intros Hr. apply (Hkeep x Hx). by left. }
  destruct (Hw m1 d1 Hh1 D1) as (_ & V2 & _ & V4). erewrite (bind_Ok_l (gets bmem)) by reflexivity. cbn [bmem]. cbv zeta. rewrite W1, W2, W3.
  rewrite (bind_Ok_l _ _ _ _ _ E1). erewrite (bind_Ok_l (gets bmem)) by reflexivity. cbn [bmem]. rewrite V2, V4.
  set (m2 := if ks_filesz g <? ks_memsz g then stosb m1 (ks_pa g + ks_filesz g) 0 (Z.to_nat (ks_memsz g - ks_filesz g)) else m1).
  assert (Hm2 : ∀ x, m2 x = if decide (ks_pa g + ks_filesz g ≤ x < ks_pa g + ks_memsz g) then 0 else m1 x).
  { intros x. unfold m2. destruct (Z.ltb_spec (ks_filesz g) (ks_memsz g)); [|by rewrite decide_False by lia]. rewrite stosb_spec, Z2Nat.id by lia.
    replace (ks_pa g + ks_filesz g + (ks_memsz g - ks_filesz g)) with (ks_pa g + ks_memsz g) by lia. done. }
  exists m2, d1. split; [unfold m2; by destruct (_ <? _)|]. split; [done|]. destruct Hfit as [F1 F2 F3 F4 F5]. split; [|split; [split|]].
  - intros x Hx. rewrite Hm2, decide_False; [by apply Hh1|]. intros Hr. apply (Hkeep x Hx). by right.
  - intros x Hx. rewrite Hm2, decide_False by lia. rewrite Hm1, decide_True; [done|]. unfold seg_hi, seg_lo. pose proof (Z.mod_pos_bound (ks_off g) 512 ltac:(lia)).
    Z.div_mod_to_equations. lia.
  - intros x Hx. by rewrite Hm2, decide_True.
  - intros x Hx. rewrite Hm2, decide_False by (intros Hr; apply Hx; by right). rewrite Hm1, decide_False by (intros Hr; apply Hx; by left). done.
Qed.
Lemma kbyte_u8 d o : full_sectors d → is_u8 (kbyte d o).
Proof.
  intros H. unfold kbyte. destruct (H (o / 512 + 1)) as [_ Hu]. rewrite nth_lookup. destruct (_ !! _) eqn:E; simpl; [by eapply Forall_lookup_1 in Hu|unfold is_u8; lia].
Qed.
Lemma loaded_keeps d m m' g : loaded d m g → (∀ x, ks_pa g ≤ x < ks_pa g + Z.max (ks_filesz g) (ks_memsz g) → m' x = m x) → 0 ≤ ks_filesz g → loaded d m' g.
Proof. intros [H1 H2] Hs H0. split; intros x Hx; rewrite Hs by lia; auto. Qed.
Lemma segs_S d o n : segs d o (S n) = seg_at d o :: segs d (o + 32) n.
Proof.
  unfold segs. cbn [seq fmap list_fmap]. f_equal; [f_equal; lia|]. rewrite <- fmap_S_seq, <- list_fmap_compose. apply list_fmap_ext. intros i x _. cbn. f_equal. lia.
Qed.
Lemma load_loop_ok k n : answers k → ∀ m d o, full_sectors d → has_header d m → 0 ≤ o → o + 32 * Z.of_nat n ≤ 4096 →
  Forall kseg_ok (segs d o n) → ForallOrdPairs spares (segs d o n) →
  ∃ m' d', load_loop k n (ELF + o) (ELF + o + 32 * Z.of_nat n) (MkBoot m d) = Ok (tt, MkBoot m' d') ∧ ide_disk d' = ide_disk d ∧ has_header d' m' ∧
    Forall (loaded d m') (segs d o n) ∧ ∀ x, Forall (λ g, ¬ writes g x) (segs d o n) → m' x = m x.
Proof.
  intros Hk. induction n as [|n IH]; intros m d o Hfull Hh H0 H1 Hok Hord.
  { exists m, d. cbn [load_loop]. rewrite Z.mul_0_r, Z.add_0_r, Z.ltb_irrefl. by split_and!. }
  rewrite segs_S in *. apply Forall_cons in Hok as [Hg Hok]. inversion Hord as [|? ? Hsp Hord']. subst.
  destruct (load_one k m d o Hk Hfull Hh H0 ltac:(lia) Hg) as (m1 & d1 & E1 & D1 & Hh1 & Hl1 & Hs1).
  assert (Hseg : ∀ o n, segs d1 o n = segs d o n) by (intros o' n'; apply list_fmap_ext; intros i x _; by apply seg_at_same).
  assert (Hkb : ∀ y, kbyte d1 y = kbyte d y) by (intros y; unfold kbyte; by rewrite D1).
  destruct (IH m1 d1 (o + 32)) as (m2 & d2 & E2 & D2 & Hh2 & Hl2 & Hs2); rewrite ?Hseg; try done; try lia; [intros i; rewrite D1; apply Hfull|].
  rewrite Hseg in Hl2, Hs2. exists m2, d2. split; [|split; [congruence|split; [done|split]]].
  - cbn [load_loop]. rewrite (proj2 (Z.ltb_lt (ELF + o) _)) by lia. cbn [negb]. rewrite (wrap32_id (ELF + o + 32)) by (unfold is_u32, ELF; lia).
    replace (ELF + o + 32 * Z.of_nat (S n)) with (ELF + (o + 32) + 32 * Z.of_nat n) by lia. replace (ELF + o + 32) with (ELF + (o + 32)) by lia.
    rewrite <- E2. clear E2. apply bind_Ok in E1 as (ma & sa & Ea & E1). rewrite (bind_Ok_l _ _ _ _ _ Ea). cbv zeta in *. apply bind_Ok in E1 as (u & sb & Eb & E1).
    rewrite (bind_Ok_l _ _ _ _ _ Eb). apply bind_Ok in E1 as (mb & sc & Ec & E1). rewrite (bind_Ok_l _ _ _ _ _ Ec). by rewrite (bind_Ok_l _ _ _ _ _ E1).
  - apply Forall_cons. split; [|eapply Forall_impl; [exact Hl2|]; intros g [L1 L2]; split; [intros x Hx; by rewrite L1|done]].
    eapply loaded_keeps; [exact Hl1| |apply Hg]. intros x Hx. apply Hs2. eapply Forall_impl; [exact Hsp|]. intros g Hgs. by apply Hgs.
  - intros x Hx. apply Forall_cons in Hx as [Hx1 Hx2]. rewrite Hs2 by done. by apply Hs1.
Qed.
(** C29: when the boot disk holds an ELF file whose headers are in its first
    page, the boot loader ends at the file's entry point with every segment in
    memory byte by byte as in the file and the memory behind it cleared, though
    it reads whole sectors; it needs that a later segment's sectors do not fall
    on an earlier segment.  A disk that does not start with an ELF file makes it
    return. *)
Theorem bootmain_loads k m d (Hk : answers k) (Hfull : full_sectors d) :
  (kword d 0 ≠ ELF_MAGIC → ∃ s, bootmain k (MkBoot m d) = Ok (None, s)) ∧
  (kword d 0 = ELF_MAGIC → let o := kword d 28 in let n := Z.to_nat (half_at (kbyte d) 44) in
   o + 32 * Z.of_nat n ≤ 4096 → Forall kseg_ok (segs d o n) → ForallOrdPairs spares (segs d o n) →
   ∃ m' d', bootmain k (MkBoot m d) = Ok (Some (kword d 24), MkBoot m' d') ∧ Forall (loaded d m') (segs d o n)).
Proof.
  destruct (readseg_ok k m d ELF 4096 0 Hk Hfull) as (m1 & d1 & E1 & D1 & Hm1); [split; unfold ELF; lia|].
  assert (Hh : has_header d m1).
  { intros x Hx. rewrite Hm1, decide_True; [done|exact Hx]. }
  assert (Hful1 : full_sectors d1) by (intros i; rewrite D1; apply Hfull). pose proof (kbyte_u8 d) as Hu.
  assert (Hword : ∀ o, 0 ≤ kword d o) by (intros o; unfold kword, load32; pose proof (Hu o Hfull); pose proof (Hu (o + 1) Hfull); pose proof (Hu (o + 2) Hfull);
    pose proof (Hu (o + 3) Hfull); unfold is_u8 in *; lia).
  unfold bootmain. rewrite (bind_Ok_l _ _ _ _ _ E1). erewrite (bind_Ok_l (gets bmem)) by reflexivity. cbn [bmem]. cbv zeta.
  pose proof (header_word d m1 0 Hh ltac:(lia) ltac:(lia)) as W0. rewrite Z.add_0_r in W0. rewrite W0. split.
  - intros Hne. rewrite (proj2 (Z.eqb_neq _ _) Hne). cbn [negb]. by eexists.
  - intros Hmag Hfit Hok Hord. rewrite Hmag, Z.eqb_refl. cbn [negb]. rewrite (header_word d m1 28) by (done || lia).
    assert (Eh : half_at m1 (ELF + 44) = half_at (kbyte d) 44) by (unfold half_at; rewrite !Hh by (unfold ELF; lia); f_equal; f_equal; unfold ELF; lia).
    rewrite Eh. set (n := half_at (kbyte d) 44) in *. assert (Hn : 0 ≤ n) by (unfold n, half_at; pose proof (Hu 44 Hfull); pose proof (Hu (44 + 1) Hfull); unfold is_u8 in *; lia).
    specialize (Hword 28). assert (Hseg : ∀ o n, segs d1 o n = segs d o n) by (intros o' n'; apply list_fmap_ext; intros i x _; by apply seg_at_same).
    rewrite (wrap32_id (ELF + kword d 28)), wrap32_id by (unfold is_u32, ELF; lia).
    destruct (load_loop_ok k (Z.to_nat n) Hk m1 d1 (kword d 28) Hful1 (has_header_same d d1 m1 D1 Hh) Hword Hfit) as (m2 & d2 & E2 & D2 & Hh2 & Hl2 & _); rewrite ?Hseg; try done.
    rewrite Z2Nat.id in E2 by done. rewrite (bind_Ok_l _ _ _ _ _ E2). erewrite (bind_Ok_l (gets bmem)) by reflexivity. cbn [bmem]. exists m2, d2.
    apply (has_header_same d2 d) in Hh2; [|congruence]. rewrite (header_word d m2 24) by (done || lia). split; [done|]. rewrite Hseg in Hl2.
    eapply Forall_impl; [exact Hl2|]. intros g [L1 L2]. split; [|done]. intros x Hx. rewrite L1 by done. unfold kbyte. by rewrite D1.
Qed.
End Boot.

(** A disk with a kernel of one segment: three bytes at 1 MB, with two bytes of
    cleared memory behind. *)
#[local] Existing Instance hd_ports.
#[local] Existing Instance hd_strings.
#[local] Existing Instance hd_ide.
Definition boot_header : blk :=
  foldl (λ d p, <[p.1 := p.2]> d) (replicate 512 0)
    [(0%nat, 0x7F); (1%nat, 0x45); (2%nat, 0x4C); (3%nat, 0x46); (24%nat, 0x0C); (26%nat, 0x10); (28%nat, 52); (44%nat, 1);
     (57%nat, 2); (66%nat, 0x10); (68%nat, 3); (72%nat, 5)].
Definition boot_disk : hd := Hd (λ _, 0) PIdle (<[(0, 1) := boot_header]> (<[(0, 2) := [1; 2; 3] ++ replicate 509 7]> ∅)).
Lemma boot_answers : answers (D := hd) 0.
Proof. intros d. by exists O. Qed.
Lemma boot_full : full_sectors boot_disk.
Proof.
  assert (Hb : ∀ l : list Z, length l = 512%nat → forallb (λ z, (0 <=? z) && (z <? 256)) l = true → length l = 512%nat ∧ Forall is_u8 l).
  { intros l Hl H. split; [done|]. apply Forall_forall. intros z Hz. rewrite forallb_forall in H. apply list_elem_of_In, H in Hz. unfold is_u8. lia. }
  intros n. unfold sector. cbn [ide_disk hd_ide boot_disk hd_disk]. destruct (decide (n = 1)) as [->|H1]; [rewrite lookup_insert_eq; by apply Hb|].
  rewrite lookup_insert_ne by congruence. destruct (decide (n = 2)) as [->|H2]; [rewrite lookup_insert_eq; by apply Hb|].
  rewrite lookup_insert_ne, lookup_empty by congruence. by apply Hb.
Qed.
Lemma bootmain_loads_witness : ∃ m' d', bootmain 0 (MkBoot (λ _, 0) boot_disk) = Ok (Some 0x10000C, MkBoot m' d') ∧
  m' 0x100000 = 1 ∧ m' 0x100002 = 3 ∧ m' 0x100004 = 0.
Proof.
  assert (E : segs boot_disk (kword boot_disk 28) (Z.to_nat (half_at (kbyte boot_disk) 44)) = [KSeg 512 0x100000 3 5]) by (vm_compute; reflexivity).
  assert (Hg : kseg_ok (KSeg 512 0x100000 3 5)).
  { split; [split; cbn; lia|cbn; lia|]. intros x Hx [[H1 H2]|[H1 H2]]; [change (0x100000 ≤ x) in H1|cbn in H1]; unfold ELF in Hx; lia. }
  destruct (bootmain_loads 0 (λ _, 0) boot_disk boot_answers boot_full) as [_ H]. cbv zeta in H. rewrite E in H.
  destruct H as (m' & d' & Hb & Hl); [vm_compute; reflexivity|vm_compute; discriminate|by apply Forall_singleton|repeat constructor|].
  apply Forall_singleton in Hl as [L1 L2]. cbn [ks_pa ks_filesz ks_memsz ks_off] in L1, L2. exists m', d'.
  split; [rewrite Hb; vm_compute (kword boot_disk 24); reflexivity|]. rewrite !L1, L2 by lia. vm_compute. split; [reflexivity|split; reflexivity].
Defined.
