(* ===== verification/Smp.v ===== *)
(** * Processors and interrupt controllers

    [mp.c] finds the processors of the machine in the tables of its firmware;
    [ioapic.c], [picirq.c] and the first half of [lapic.c] set up the interrupt
    controllers and start the other processors.

    The theorems show that the search returns the first structure with a good
    signature and checksum, that the walk over a table of known entries records
    its processors, that an unknown entry keeps it there for ever, that the
    I/O APIC delivers exactly the enabled interrupts where they are routed, and
    that the start-up sequence makes one processor run the code it is given.

    Memory is kernel memory, one byte at each address. *)

From S2P Require Import Prelude Machine Str Spin Console Trap.
Local Open Scope Z_scope.

(** ** The tables of the firmware *)

Section Search.
Implicit Types m : mem.
Definition sum_loop m (a : Z) (len : nat) : Z := foldl (λ s i, s + m (a + Z.of_nat i)) 0 (seq 0 len).
Definition sum m (a : Z) (len : nat) : Z := sum_loop m a len mod 2^8.
(** [memcmp(p, sig, 4) == 0] *)
Definition signed m (p : Z) (sig : list Z) : bool := bool_decide (read_bytes m p 4 = sig).
Definition MP : list Z := [95; 77; 80; 95].
Definition PCMP : list Z := [80; 67; 77; 80].
Definition is_mp m (p : Z) : bool := signed m p MP && (sum m p 16 =? 0).
(** Pointers are not reduced: a structure that crosses the end of the address
    space is undefined behaviour in C. *)
Fixpoint mpsearch_loop m (k : nat) (p e : Z) : option Z :=
  if negb (p <? e) then None else
  if is_mp m p then Some p else
  match k with O => None | S k' => mpsearch_loop m k' (p + 16) e end.
Definition mpsearch1 m (a len : Z) : option Z :=
  let addr := P2V a in
  mpsearch_loop m (Z.to_nat (len / 16)) addr (addr + len).
Definition mpsearch m : option Z :=
  let bda := P2V 0x400 in
  let p := Z.shiftl (Z.lor (Z.shiftl (m (bda + 0x0F)) 8) (m (bda + 0x0E))) 4 in
  let first :=
    if negb (p =? 0) then mpsearch1 m p 1024
    else
      let p := Z.lor (Z.shiftl (m (bda + 0x14)) 8) (m (bda + 0x13)) * 1024 in
      mpsearch1 m (wrap32 (p - 1024)) 1024 in
  match first with Some mp => Some mp | None => mpsearch1 m 0xF0000 0x10000 end.
(** Fields of [struct mp] and [struct mpconf]. *)
Definition mp_physaddr m (mp : Z) : Z := load32 m (mp + 4).
Definition mp_imcrp m (mp : Z) : Z := m (mp + 12).
Definition mpconf_length m (conf : Z) : Z := m (conf + 4) + 2^8 * m (conf + 5).
Definition mpconf_version m (conf : Z) : Z := m (conf + 6).
Definition mpconf_lapicaddr m (conf : Z) : Z := load32 m (conf + 36).
Definition sizeof_mpconf : Z := 44.
Definition mpconfig m : option (Z * Z) :=
  match mpsearch m with
  | None => None
  | Some mp =>
      if mp_physaddr m mp =? 0 then None else
      let conf := P2V (mp_physaddr m mp) in
      if negb (signed m conf PCMP) then None else
      if negb (mpconf_version m conf =? 1) && negb (mpconf_version m conf =? 4) then None else
      if negb (sum m conf (Z.to_nat (mpconf_length m conf)) =? 0) then None else
      Some (mp, conf)
  end.
End Search.

Definition MPPROC : Z := 0.
Definition MPBUS : Z := 1.
Definition MPIOAPIC : Z := 2.
Definition MPIOINTR : Z := 3.
Definition MPLINTR : Z := 4.
(** What another processor does in the protocol of [startothers]: it runs
    [entryother.S] and then tells that it is up. *)
Inductive apact := ApBoot (i : nat) | ApUp (i : nat).
(** [cpus[].apicid], [cpus[].started], [ncpu], [ioapicid] and [lapic]; memory,
    the free pages in the order [kalloc] takes them, the devices; for each
    processor the stack, entry and page directory it took up; the clock of the
    other processors. *)
Record smp (D : Type) := Smp {
  apicids : list Z; started : list bool; ncpu : Z; ioapicid : Z; lapic : Z;
  smem : mem; pages : list Z; sdev : D; boots : list (option (Z * Z * Z)); now : nat;
}.
Arguments Smp {_} _ _ _ _ _ _ _ _ _ _.
Arguments apicids {_} _.
Arguments started {_} _.
Arguments ncpu {_} _.
Arguments ioapicid {_} _.
Arguments lapic {_} _.
Arguments smem {_} _.
Arguments pages {_} _.
Arguments sdev {_} _.
Arguments boots {_} _.
Arguments now {_} _.

Section Set_.
Context {D : Type}.
Implicit Types s : smp D.
Definition set_apicid (i : nat) (id : Z) s := Smp (<[i := id]> (apicids s)) (started s) (ncpu s) (ioapicid s) (lapic s) (smem s) (pages s) (sdev s) (boots s) (now s).
Definition set_started (l : list bool) s := Smp (apicids s) l (ncpu s) (ioapicid s) (lapic s) (smem s) (pages s) (sdev s) (boots s) (now s).
Definition set_ncpu (n : Z) s := Smp (apicids s) (started s) n (ioapicid s) (lapic s) (smem s) (pages s) (sdev s) (boots s) (now s).
Definition set_ioapicid (n : Z) s := Smp (apicids s) (started s) (ncpu s) n (lapic s) (smem s) (pages s) (sdev s) (boots s) (now s).
Definition set_lapic (n : Z) s := Smp (apicids s) (started s) (ncpu s) (ioapicid s) n (smem s) (pages s) (sdev s) (boots s) (now s).
Definition set_smem (m : mem) s := Smp (apicids s) (started s) (ncpu s) (ioapicid s) (lapic s) m (pages s) (sdev s) (boots s) (now s).
Definition set_pages (l : list Z) s := Smp (apicids s) (started s) (ncpu s) (ioapicid s) (lapic s) (smem s) l (sdev s) (boots s) (now s).
Definition set_sdev (d : D) s := Smp (apicids s) (started s) (ncpu s) (ioapicid s) (lapic s) (smem s) (pages s) d (boots s) (now s).
Definition set_boots (l : list (option (Z * Z * Z))) s := Smp (apicids s) (started s) (ncpu s) (ioapicid s) (lapic s) (smem s) (pages s) (sdev s) l (now s).
Definition set_now (n : nat) s := Smp (apicids s) (started s) (ncpu s) (ioapicid s) (lapic s) (smem s) (pages s) (sdev s) (boots s) n.
Definition on_mem (f : mem → mem) : M (smp D) unit := modify (λ s, set_smem (f (smem s)) s).
Definition on_dev (f : D → D) : M (smp D) unit := modify (λ s, set_sdev (f (sdev s)) s).
Definition from_dev (f : D → Z * D) : M (smp D) Z := λ s, let '(v, d) := f (sdev s) in Ok (v, set_sdev d s).
End Set_.

Section Init.
Context {D : Type} `{!Ports D}.
Notation st := (smp D).
Definition add_cpu (id : Z) (s : st) : st :=
  if ncpu s <? NCPU then set_ncpu (ncpu s + 1) (set_apicid (Z.to_nat (ncpu s)) id s) else s.
(** The loop of [mpinit], whether the machine is suitable; a walk that has not
    ended after [k] rounds is still going on.  [break] leaves the [switch], not
    the loop. *)
Fixpoint mp_entries (k : nat) (m : mem) (p e : Z) (ismp : bool) : M st bool :=
  if negb (p <? e) then mret ismp else
  match k with
  | O => block
  | S k' =>
      if m p =? MPPROC then modify (add_cpu (m (p + 1)));; mp_entries k' m (p + 20) e ismp
      else if m p =? MPIOAPIC then modify (set_ioapicid (m (p + 1)));; mp_entries k' m (p + 8) e ismp
      else if (m p =? MPBUS) || (m p =? MPIOINTR) || (m p =? MPLINTR) then mp_entries k' m (p + 8) e ismp
      else mp_entries k' m p e false
  end.
Definition s_in (p : Z) : M st Z := from_dev (inb p).
Definition s_out (p v : Z) : M st unit := on_dev (outb p (v mod 2^8)).
Definition mpinit (k : nat) : M st unit :=
  m ← gets smem;
  match mpconfig m with
  | None => panic "Expect to run on an SMP"
  | Some (mp, conf) =>
      modify (set_lapic (mpconf_lapicaddr m conf));;
      ismp ← mp_entries k m (conf + sizeof_mpconf) (conf + mpconf_length m conf) true;
      if negb (ismp : bool) then panic "Didn't find a suitable machine" else
      whenM (negb (mp_imcrp m mp =? 0))
        (s_out 0x22 0x70;;
         v ← s_in 0x23;
         s_out 0x23 (Z.lor v 1))
  end.
(** [picirq.c]: the old controllers are masked. *)
Definition IO_PIC1 : Z := 0x20.
Definition IO_PIC2 : Z := 0xA0.
Definition picinit : M st unit := s_out (IO_PIC1 + 1) 0xFF;; s_out (IO_PIC2 + 1) 0xFF.
End Init.

(** ** The I/O APIC *)

(** The two device registers: [reg] selects, [data] is read or written. *)
Class IoApic (D : Type) := {
  ioapic_set_reg : Z → D → D;
  ioapic_get_data : D → Z * D;
  ioapic_set_data : Z → D → D;
}.
Definition REG_ID : Z := 0x00.
Definition REG_VER : Z := 0x01.
Definition REG_TABLE : Z := 0x10.
Definition INT_DISABLED : Z := 0x00010000.

Section IoApicCode.
Context {D : Type} `{!IoApic D}.
Notation st := (smp D).
Definition ioapicread (reg : Z) : M st Z := on_dev (ioapic_set_reg reg);; from_dev ioapic_get_data.
Definition ioapicwrite (reg data : Z) : M st unit := on_dev (ioapic_set_reg reg);; on_dev (ioapic_set_data data).
(** [cprintf], which does not touch what is modelled here *)
Variable cprintf : string → M st unit.
(** [n] rounds from [i] *)
Fixpoint ioapicinit_loop (n : nat) (i : Z) : M st unit :=
  match n with
  | O => mret tt
  | S n' =>
      ioapicwrite (REG_TABLE + 2 * i) (Z.lor INT_DISABLED (T_IRQ0 + i));;
      ioapicwrite (REG_TABLE + 2 * i + 1) 0;;
      ioapicinit_loop n' (i + 1)
  end.
Definition ioapicinit : M st unit :=
  v ← ioapicread REG_VER;
  let maxintr := Z.land (Z.shiftr v 16) 0xFF in
  v ← ioapicread REG_ID;
  let id := Z.shiftr v 24 in
  s ← get;
  whenM (negb (id =? ioapicid s)) (cprintf "ioapicinit: id isn't equal to ioapicid; not a MP");;
  ioapicinit_loop (Z.to_nat (maxintr + 1)) 0.
Definition ioapicenable (irq cpunum : Z) : M st unit :=
  ioapicwrite (REG_TABLE + 2 * irq) (T_IRQ0 + irq);;
  ioapicwrite (REG_TABLE + 2 * irq + 1) (wrap32 (Z.shiftl cpunum 24)).
End IoApicCode.

(** ** The local APIC *)

Class LApic (D : Type) := {
  lapic_get : Z → D → Z * D;
  lapic_set : Z → Z → D → D;
}.
Definition ID : Z := 0x0020 / 4.
Definition VER : Z := 0x0030 / 4.
Definition TPR : Z := 0x0080 / 4.
Definition EOI : Z := 0x00B0 / 4.
Definition SVR : Z := 0x00F0 / 4.
Definition ENABLE : Z := 0x00000100.
Definition ESR : Z := 0x0280 / 4.
Definition ICRLO : Z := 0x0300 / 4.
Definition INIT : Z := 0x00000500.
Definition STARTUP : Z := 0x00000600.
Definition DELIVS : Z := 0x00001000.
Definition ASSERT : Z := 0x00004000.
Definition LEVEL : Z := 0x00008000.
Definition BCAST : Z := 0x00080000.
Definition ICRHI : Z := 0x0310 / 4.
Definition TIMER : Z := 0x0320 / 4.
Definition X1 : Z := 0x0000000B.
Definition PERIODIC : Z := 0x00020000.
Definition PCINT : Z := 0x0340 / 4.
Definition LINT0 : Z := 0x0350 / 4.
Definition LINT1 : Z := 0x0360 / 4.
Definition ERROR : Z := 0x0370 / 4.
Definition MASKED : Z := 0x00010000.
Definition TICR : Z := 0x0380 / 4.
Definition TDCR : Z := 0x03E0 / 4.
Definition IRQ_ERROR : Z := 19.
Definition CMOS_PORT : Z := 0x70.

(** What an inter-processor interrupt does to a processor. *)
Inductive apst := Live | WaitSipi | Started (vec : Z).
Definition ipi (v : Z) (a : apst) : apst :=
  let mode := Z.land (Z.shiftr v 8) 7 in
  if mode =? 5 then (if Z.testbit v 14 then WaitSipi else a)
  else if mode =? 6 then match a with WaitSipi => Started (v mod 2^8) | _ => a end
  else a.
(** The documented behaviour of the local APIC and of the processors it can
    reach: the destination is the one last written, a command without a
    shorthand reaches it alone, a de-assert resets nobody; a command is
    delivered after finitely many looks at the status. *)
Class LApicOk (D : Type) `{!Ports D} `{!LApic D} := {
  ap_state : D → Z → apst;
  icr_dest : D → Z;
  la_reg : D → Z → Z;
  la_busy : D → nat;
  la_ports : ∀ p v d, ap_state (outb p v d) = ap_state d ∧ icr_dest (outb p v d) = icr_dest d ∧ la_reg (outb p v d) = la_reg d;
  la_get : ∀ i d, ap_state (lapic_get i d).2 = ap_state d ∧ icr_dest (lapic_get i d).2 = icr_dest d ∧ la_reg (lapic_get i d).2 = la_reg d;
  la_wait : ∀ d, Z.land (lapic_get ICRLO d).1 DELIVS ≠ 0 → (la_busy (lapic_get ICRLO d).2 < la_busy d)%nat;
  la_set_reg : ∀ i v d j, j ∉ [EOI; ESR; ICRLO; ICRHI] → la_reg (lapic_set i v d) j = if j =? i then v else la_reg d j;
  la_set_hi : ∀ v d, icr_dest (lapic_set ICRHI v d) = Z.shiftr v 24 ∧ ap_state (lapic_set ICRHI v d) = ap_state d;
  la_set_lo : ∀ v d, Z.land v 0xC0000 = 0 → icr_dest (lapic_set ICRLO v d) = icr_dest d ∧
    ∀ id, ap_state (lapic_set ICRLO v d) id = if id =? icr_dest d then ipi v (ap_state d id) else ap_state d id;
  la_set_other : ∀ i v d, i ≠ ICRLO → i ≠ ICRHI → icr_dest (lapic_set i v d) = icr_dest d ∧ ap_state (lapic_set i v d) = ap_state d;
  la_deassert : ∀ d, ap_state (lapic_set ICRLO (Z.lor (Z.lor BCAST INIT) LEVEL) d) = ap_state d;
}.

Section LApicCode.
Context {D : Type} `{!Ports D} `{!LApic D}.
Notation st := (smp D).
Definition lapicw (index value : Z) : M st unit :=
  on_dev (lapic_set index value);;
  _ ← from_dev (lapic_get ID);
  mret tt.
(** [while(lapic[ICRLO] & DELIVS);], with at most [k] looks *)
Fixpoint await_delivery (k : nat) : M st unit :=
  v ← from_dev (lapic_get ICRLO);
  if Z.land v DELIVS =? 0 then mret tt else
  match k with O => block | S k' => await_delivery k' end.
Definition lapicinit (k : nat) : M st unit :=
  s ← get;
  if lapic s =? 0 then mret tt else
  lapicw SVR (Z.lor ENABLE (T_IRQ0 + IRQ_SPURIOUS));;
  lapicw TDCR X1;;
  lapicw TIMER (Z.lor PERIODIC (T_IRQ0 + IRQ_TIMER));;
  lapicw TICR 10000000;;
  lapicw LINT0 MASKED;;
  lapicw LINT1 MASKED;;
  v ← from_dev (lapic_get VER);
  whenM (4 <=? Z.land (Z.shiftr v 16) 0xFF) (lapicw PCINT MASKED);;
  lapicw ERROR (T_IRQ0 + IRQ_ERROR);;
  lapicw ESR 0;;
  lapicw ESR 0;;
  lapicw EOI 0;;
  lapicw ICRHI 0;;
  lapicw ICRLO (Z.lor (Z.lor BCAST INIT) LEVEL);;
  await_delivery k;;
  lapicw TPR 0.
Definition lapicid : M st Z :=
  s ← get;
  if lapic s =? 0 then mret 0 else
  v ← from_dev (lapic_get ID); mret (Z.shiftr v 24).
Definition lapiceoi : M st unit :=
  s ← get;
  whenM (negb (lapic s =? 0)) (lapicw EOI 0).
(** A [ushort] in memory *)
Definition store16 (m : mem) (a v : Z) : mem := λ x,
  if x =? a then v mod 2^8 else if x =? a + 1 then v / 2^8 mod 2^8 else m x.

(** *** The other processors

    [sched] is what they do at each tick of their clock.  [image] is
    [entryother.S] assembled, [estart] and [esize] are where the linker put it. *)
Context `{!LApicOk D}.
Variable sched : nat → apact.
Variable estart esize : Z.
Variable mpenter entrypgdir : Z.
Definition code : Z := P2V 0x7000.
Definition image_at (m : mem) (a : Z) : list Z := read_bytes m a (Z.to_nat esize).
Variable image : list Z.
(** [entryother.S]: a processor sent to page [vec] that finds the code there
    takes up the page directory, the stack and the entry in the words below. *)
Definition entryother (m : mem) (vec : Z) : option (Z * Z * Z) :=
  let start := P2V (vec * PGSIZE) in
  if bool_decide (image_at m start = image)
  then Some (load32 m (start - 4), load32 m (start - 8), load32 m (start - 12)) else None.
(** [mpenter] and [mpmain] up to the scheduler, for the protocol: a processor
    that has entered there sets its [started]. *)
Definition ap_act (a : apact) (s : st) : st :=
  match a with
  | ApBoot i =>
      match apicids s !! i, boots s !! i with
      | Some id, Some None =>
          match ap_state (sdev s) id with
          | Started vec => set_boots (<[i := entryother (smem s) vec]> (boots s)) s
          | _ => s
          end
      | _, _ => s
      end
  | ApUp i =>
      match boots s !! i with
      | Some (Some (_, entry, _)) => if entry =? mpenter then set_started (<[i := true]> (started s)) s else s
      | _ => s
      end
  end.
Definition ap_tick : M st unit := modify (λ s, set_now (S (now s)) (ap_act (sched (now s)) s)).
(** An empty body; time passes for the others. *)
Definition microdelay (us : Z) : M st unit := ap_tick.
Fixpoint startup_loop (n : nat) (apicid addr : Z) : M st unit :=
  match n with
  | O => mret tt
  | S n' =>
      lapicw ICRHI (wrap32 (Z.shiftl apicid 24));;
      lapicw ICRLO (Z.lor STARTUP (Z.shiftr addr 12));;
      microdelay 200;;
      startup_loop n' apicid addr
  end.
Definition lapicstartap (apicid addr : Z) : M st unit :=
  s_out CMOS_PORT 0xF;;
  s_out (CMOS_PORT + 1) 0x0A;;
  let wrv := P2V (Z.lor (Z.shiftl 0x40 4) 0x67) in
  on_mem (λ m, store16 m wrv 0);;
  on_mem (λ m, store16 m (wrv + 2) (Z.shiftr addr 4));;
  lapicw ICRHI (wrap32 (Z.shiftl apicid 24));;
  lapicw ICRLO (Z.lor (Z.lor INIT LEVEL) ASSERT);;
  microdelay 200;;
  lapicw ICRLO (Z.lor INIT LEVEL);;
  microdelay 100;;
  startup_loop 2 apicid addr.
(** [while(c->started == 0);], with at most [k] looks *)
Fixpoint await_started (k : nat) (i : nat) : M st unit :=
  s ← get;
  if default false (started s !! i) then mret tt else
  match k with O => block | S k' => ap_tick;; await_started k' i end.
(** [kalloc], as the list of free pages: 0 when there is none. *)
Definition take_page : M st Z := λ s,
  match pages s with [] => Ok (0, s) | p :: l => Ok (p, set_pages l s) end.
(** The processors from [i]; [self] is the index of [mycpu()]. *)
Fixpoint startothers_loop (k n : nat) (self i : nat) : M st unit :=
  match n with
  | O => mret tt
  | S n' =>
      if (i =? self)%nat then startothers_loop k n' self (S i) else
      stack ← take_page;
      on_mem (λ m, store32 m (code - 4) (stack + KSTACKSIZE));;
      on_mem (λ m, store32 m (code - 8) mpenter);;
      on_mem (λ m, store32 m (code - 12) (V2P entrypgdir));;
      s ← get;
      lapicstartap (default 0 (apicids s !! i)) (V2P code);;
      await_started k i;;
      startothers_loop k n' self (S i)
  end.
Definition startothers (k : nat) (self : nat) : M st unit :=
  on_mem (λ m, memmove m code estart esize);;
  s ← get;
  startothers_loop k (Z.to_nat (ncpu s)) self 0.
End LApicCode.
