(* ===== verification/SmpOk.v ===== *)
(** * Processors and interrupt controllers: proofs

    The firmware's tables are read entry by entry, the I/O APIC routes what was
    enabled, the local APIC is configured, and [startothers] brings up every
    other processor on its own stack under any fair schedule. *)

From S2P Require Import Prelude Machine Str Spin Console Trap Smp.
Local Open Scope Z_scope.

(** ** The search *)

Lemma mpsearch_loop_spec m k p e :
  e = p + 16 * Z.of_nat k →
  match mpsearch_loop m k p e with
  | Some q => ∃ i : nat, (i < k)%nat ∧ q = p + 16 * Z.of_nat i ∧ is_mp m q = true ∧
      ∀ j : nat, (j < i)%nat → is_mp m (p + 16 * Z.of_nat j) = false
  | None => ∀ j : nat, (j < k)%nat → is_mp m (p + 16 * Z.of_nat j) = false
  end.
Proof.
  revert p. induction k as [|k IH]; intros p He; simpl.
  - rewrite (proj2 (Z.ltb_ge p e)) by lia. simpl. lia.
  - rewrite (proj2 (Z.ltb_lt p e)) by lia. simpl. destruct (is_mp m p) eqn:E.
    + exists 0%nat. split_and!; [lia|lia|done|lia].
    + specialize (IH (p + 16) ltac:(lia)). destruct (mpsearch_loop m k (p + 16) e) as [q|].
      * destruct IH as (i & Hi & -> & Hq & Hj). exists (S i). split_and!; [lia|lia|done|].
        intros [|j] Hl; [by rewrite Z.add_0_r|]. replace (p + 16 * Z.of_nat (S j)) with (p + 16 + 16 * Z.of_nat j) by lia. apply Hj. lia.
      * intros [|j] Hl; [by rewrite Z.add_0_r|]. replace (p + 16 * Z.of_nat (S j)) with (p + 16 + 16 * Z.of_nat j) by lia. apply IH. lia.
Qed.

(** [mpsearch1] returns the first structure of the block on a 16-byte step
    whose signature and checksum are good, and nothing only if there is none. *)
Theorem mpsearch1_first m a (n : nat) :
  match mpsearch1 m a (16 * Z.of_nat n) with
  | Some q => ∃ i : nat, (i < n)%nat ∧ q = P2V a + 16 * Z.of_nat i ∧ is_mp m q = true ∧
      ∀ j : nat, (j < i)%nat → is_mp m (P2V a + 16 * Z.of_nat j) = false
  | None => ∀ j : nat, (j < n)%nat → is_mp m (P2V a + 16 * Z.of_nat j) = false
  end.
Proof.
  unfold mpsearch1. replace (Z.to_nat (16 * Z.of_nat n / 16)) with n
    by (rewrite (Z.mul_comm 16), Z.div_mul by lia; lia).
  by apply mpsearch_loop_spec.
Qed.

(** ** The configuration table *)

(** The entries the code knows, with the field it reads. *)
Inductive tentry := EProc (id : Z) | EIoapic (id : Z) | EOther (t : Z).
Definition entry_at (m : mem) (p : Z) (e : tentry) : Prop :=
  match e with
  | EProc id => m p = MPPROC ∧ m (p + 1) = id
  | EIoapic id => m p = MPIOAPIC ∧ m (p + 1) = id
  | EOther t => m p = t ∧ (t = MPBUS ∨ t = MPIOINTR ∨ t = MPLINTR)
  end.
Definition entry_size (e : tentry) : Z := match e with EProc _ => 20 | _ => 8 end.
(** The entries [es] lie one after the other from [p] to [q]. *)
Fixpoint table (m : mem) (p : Z) (es : list tentry) (q : Z) : Prop :=
  match es with
  | [] => p = q
  | e :: es' => entry_at m p e ∧ table m (p + entry_size e) es' q
  end.
Definition procs (es : list tentry) : list Z := omap (λ e, match e with EProc id => Some id | _ => None end) es.
Definition ioapics (es : list tentry) : list Z := omap (λ e, match e with EIoapic id => Some id | _ => None end) es.

Section Mp.
Context {D : Type} `{!Ports D}.
Implicit Types s : smp D.
Definition note (e : tentry) s : smp D :=
  match e with EProc id => add_cpu id s | EIoapic id => set_ioapicid id s | EOther _ => s end.

Lemma table_le m p es q : table m p es q → p ≤ q.
Proof.
  revert p. induction es as [|e es IH]; intros p; simpl; [lia|]. intros [_ H].
  apply IH in H. destruct e; simpl in *; lia.
Qed.

Lemma mp_entries_prefix m p es q e k s b :
  table m p es q → q ≤ e → mp_entries (length es + k) m p e b s = mp_entries k m q e b (foldl (flip note) s es).
Proof.
  revert p s. induction es as [|x es IH]; intros p s; simpl; [by intros ->|].
  intros [Hx Ht] Hq. pose proof (table_le _ _ _ _ Ht).
  rewrite (proj2 (Z.ltb_lt p e)) by (destruct x; simpl in *; lia). simpl.
  destruct x as [id|id|t]; simpl in Hx; destruct Hx as [-> Hid].
  - unfold MPPROC; simpl. rewrite Hid. erewrite bind_Ok_l by reflexivity. by apply IH.
  - unfold MPPROC, MPIOAPIC; simpl. rewrite Hid. erewrite bind_Ok_l by reflexivity. by apply IH.
  - destruct Hid as [-> | [-> | ->]]; unfold MPPROC, MPIOAPIC, MPBUS, MPIOINTR, MPLINTR; simpl; by apply IH.
Qed.

(** An entry of another type is never passed. *)
Lemma mp_entries_stuck m p e k b s : p < e → m p ∉ [MPPROC; MPBUS; MPIOAPIC; MPIOINTR; MPLINTR] → mp_entries k m p e b s = Block.
Proof.
  intros Hp Hm. revert b. induction k as [|k IH]; intros b; simpl; rewrite (proj2 (Z.ltb_lt p e)) by lia; simpl; [done|].
  assert (Hne : ∀ t, t ∈ [MPPROC; MPBUS; MPIOAPIC; MPIOINTR; MPLINTR] → (m p =? t) = false) by (intros t Ht; apply Z.eqb_neq; intros Ee; apply Hm; by rewrite Ee).
  rewrite !Hne by set_solver +. simpl. apply IH.
Qed.

Lemma mp_entries_hang m p es q e k b s : table m p es q → q < e →
  m q ∉ [MPPROC; MPBUS; MPIOAPIC; MPIOINTR; MPLINTR] → mp_entries k m p e b s = Block.
Proof.
  intros Ht Hq Hm. revert p k s Ht. induction es as [|x es IH]; intros p k s; simpl.
  { intros ->. by apply mp_entries_stuck. }
  intros [Hx Ht]. pose proof (table_le _ _ _ _ Ht).
  destruct k as [|k]; simpl; rewrite (proj2 (Z.ltb_lt p e)) by (destruct x; simpl in *; lia); simpl; [reflexivity|].
  destruct x as [id|id|t]; simpl in Hx; destruct Hx as [-> Hid].
  - unfold MPPROC; simpl. erewrite bind_Ok_l by reflexivity. by apply IH.
  - unfold MPPROC, MPIOAPIC; simpl. erewrite bind_Ok_l by reflexivity. by apply IH.
  - destruct Hid as [-> | [-> | ->]]; unfold MPPROC, MPIOAPIC, MPBUS, MPIOINTR, MPLINTR; simpl; by apply IH.
Qed.

Lemma foldl_note_kept es s :
  smem (foldl (flip note) s es) = smem s ∧ lapic (foldl (flip note) s es) = lapic s ∧
  ioapicid (foldl (flip note) s es) = default (ioapicid s) (last (ioapics es)).
Proof.
  revert s. induction es as [|e es IH]; intros s; simpl; [done|].
  destruct (IH (note e s)) as (-> & -> & ->). destruct e; simpl; unfold add_cpu; repeat case_match; simpl; split_and!; try done.
  rewrite last_cons. by destruct (last _).
Qed.

(** The processors recorded so far are [l], and more are added while there is
    room. *)
Definition recorded s (l : list Z) : Prop :=
  ncpu s = Z.of_nat (length l) ∧ (length l ≤ 8)%nat ∧ length (apicids s) = 8%nat ∧ take (length l) (apicids s) = l.

Lemma recorded_add s l id : recorded s l → recorded (add_cpu id s) (take 8 (l ++ [id])).
Proof.
  intros (Hn & Hl & Hlen & Ht). unfold add_cpu, NCPU. rewrite Hn. destruct (Z.ltb_spec (Z.of_nat (length l)) 8).
  - rewrite take_ge by (rewrite length_app; simpl; lia). unfold recorded; simpl. rewrite Nat2Z.id, length_app, length_insert; simpl.
    split_and!; [lia|lia|done|]. rewrite Nat.add_1_r. erewrite take_S_r by (apply list_lookup_insert_eq; lia).
    rewrite take_insert_ge by lia. by rewrite Ht.
  - rewrite take_app_le, take_ge by lia. done.
Qed.

Lemma take_take_app {A} n (k l : list A) : take n (take n k ++ l) = take n (k ++ l).
Proof. rewrite !take_app, take_take, length_take. f_equal; f_equal; lia. Qed.

Lemma recorded_foldl es s l : recorded s l → recorded (foldl (flip note) s es) (take 8 (l ++ procs es)).
Proof.
  revert s l. induction es as [|e es IH]; intros s l H.
  - rewrite app_nil_r, take_ge; [exact H|apply H].
  - destruct e as [id|id|t]; [|by apply IH..].
    change (procs (EProc id :: es)) with ([id] ++ procs es). rewrite app_assoc, <-take_take_app.
    apply IH. by apply recorded_add.
Qed.

(** On a table whose entries are all of known types, [mpinit] returns after
    one round for each entry: it has recorded the local APIC's address, the
    last I/O APIC, and the first eight processors in the order of the table
    ([ncpu] of them). *)
Theorem mpinit_finds s mp conf es k
  (Hconf : mpconfig (smem s) = Some (mp, conf))
  (Htab : table (smem s) (conf + sizeof_mpconf) es (conf + mpconf_length (smem s) conf))
  (Hn : ncpu s = 0) (Hlen : length (apicids s) = 8%nat) (Hk : (length es ≤ k)%nat) :
  ∃ s', mpinit k s = Ok (tt, s') ∧ lapic s' = mpconf_lapicaddr (smem s) conf ∧
    ncpu s' = Z.of_nat (length (take 8 (procs es))) ∧ take (Z.to_nat (ncpu s')) (apicids s') = take 8 (procs es) ∧
    ioapicid s' = default (ioapicid s) (last (ioapics es)).
Proof.
  set (s1 := set_lapic (mpconf_lapicaddr (smem s) conf) s).
  assert (Hr : recorded (foldl (flip note) s1 es) (take 8 (procs es))).
  { apply (recorded_foldl es s1 []). split_and!; simpl; [done|lia|done|done]. }
  destruct (foldl_note_kept es s1) as (_ & Hl & Hi). destruct Hr as (Hr1 & _ & _ & Hr2).
  unfold mpinit. erewrite bind_Ok_l by reflexivity. rewrite Hconf. erewrite bind_Ok_l by reflexivity. fold s1.
  rewrite (bind_Ok_l _ _ _ true (foldl (flip note) s1 es)).
  2:{ replace k with (length es + (k - length es))%nat by lia. rewrite (mp_entries_prefix _ _ _ _ _ _ _ _ Htab) by lia.
      destruct (k - length es)%nat; simpl; by rewrite Z.ltb_irrefl. }
  simpl. destruct (mp_imcrp _ _ =? 0); simpl.
  - eexists. split; [reflexivity|]. rewrite Hr1, Nat2Z.id. done.
  - unfold whenM, s_out, s_in, on_dev, from_dev. runM. destruct (inb _ _). eexists. split; [reflexivity|]. simpl. rewrite Hr1, Nat2Z.id. done.
Qed.

(** C38: An entry of any other type hangs the boot: [mpinit] goes round at that
    entry for ever, since the [break] of its default case leaves the [switch]
    and not the loop, and never reaches the panic meant for it. *)
Theorem mpinit_hangs s mp conf es q k
  (Hconf : mpconfig (smem s) = Some (mp, conf))
  (Htab : table (smem s) (conf + sizeof_mpconf) es q)
  (Hq : q < conf + mpconf_length (smem s) conf)
  (Hbad : smem s q ∉ [MPPROC; MPBUS; MPIOAPIC; MPIOINTR; MPLINTR]) :
  mpinit k s = Block.
Proof.
  unfold mpinit. erewrite bind_Ok_l by reflexivity. rewrite Hconf. erewrite bind_Ok_l by reflexivity.
  set (s1 := set_lapic _ s). unfold mbind at 1, M_bind.
  assert (E : mp_entries k (smem s) (conf + sizeof_mpconf) (conf + mpconf_length (smem s) conf) true s1 = Block); [|by rewrite E].
  by apply (mp_entries_hang _ _ es q).
Qed.
End Mp.

(** ** The I/O APIC *)

(** The documented registers: the selected one is read and written, and the
    redirection table keeps what software writes to it. *)
Class IoApicOk (D : Type) `{!IoApic D} := {
  ioa_reg : D → Z → Z;
  ioa_sel : D → Z;
  ioa_set_reg : ∀ r d, ioa_sel (ioapic_set_reg r d) = r ∧ ioa_reg (ioapic_set_reg r d) = ioa_reg d;
  ioa_get : ∀ d, (ioapic_get_data d).1 = ioa_reg d (ioa_sel d) ∧ ioa_reg (ioapic_get_data d).2 = ioa_reg d;
  ioa_set_data : ∀ v d j, REG_TABLE ≤ ioa_sel d → ioa_reg (ioapic_set_data v d) j = if j =? ioa_sel d then v else ioa_reg d j;
}.

(** A byte in the top of a register. *)
Lemma dest_byte id : 0 ≤ id < 2^8 → Z.shiftr (wrap32 (Z.shiftl id 24)) 24 = id.
Proof. intros. rewrite Z.shiftl_mul_pow2, wrap32_id by (unfold is_u32; lia). by rewrite Z.shiftr_div_pow2, Z.div_mul by lia. Qed.

Section IoApicProofs.
Context {D : Type} `{!IoApic D} `{!IoApicOk D}.
Implicit Types s : smp D.
Variable cprintf : string → M (smp D) unit.
Hypothesis cprintf_ok : ∀ msg s, ∃ d, cprintf msg s = Ok (tt, set_sdev d s) ∧ ioa_reg d = ioa_reg (sdev s).

(** What happens to interrupt [i]: nothing while it is masked, otherwise its
    vector is raised at a processor. *)
Definition delivers (d : D) (i : Z) : option (Z * Z) :=
  if Z.testbit (ioa_reg d (REG_TABLE + 2 * i)) 16 then None
  else Some (ioa_reg d (REG_TABLE + 2 * i) mod 2^8, Z.shiftr (ioa_reg d (REG_TABLE + 2 * i + 1)) 24).
Definition maxintr (d : D) : Z := Z.land (Z.shiftr (ioa_reg d REG_VER) 16) 0xFF.
(** The calls [ioapicenable(irq, cpu)] of the drivers, in order. *)
Fixpoint enable_all (reqs : list (Z * Z)) : M (smp D) unit :=
  match reqs with [] => mret tt | (irq, c) :: r => ioapicenable irq c;; enable_all r end.
Definition requested (reqs : list (Z * Z)) (i : Z) : option Z :=
  last (omap (λ r, if r.1 =? i then Some r.2 else None) reqs).

Lemma ioapicread_ok reg s : ∃ d, ioapicread reg s = Ok (ioa_reg (sdev s) reg, set_sdev d s) ∧ ioa_reg d = ioa_reg (sdev s).
Proof.
  unfold ioapicread, on_dev, from_dev. runM. simpl.
  destruct (ioa_set_reg reg (sdev s)) as [Hs Hr]. destruct (ioa_get (ioapic_set_reg reg (sdev s))) as [Hg Hk].
  destruct (ioapic_get_data _) as [v d]. simpl in *. exists d. rewrite Hg, Hs, Hr. split; [done|]. congruence.
Qed.

Lemma ioapicwrite_ok reg v s : REG_TABLE ≤ reg → ∃ d, ioapicwrite reg v s = Ok (tt, set_sdev d s) ∧
  ∀ j, ioa_reg d j = if j =? reg then v else ioa_reg (sdev s) j.
Proof.
  intros H. unfold ioapicwrite, on_dev. runM. simpl. destruct (ioa_set_reg reg (sdev s)) as [Hs Hr].
  eexists. split; [reflexivity|]. intros j. rewrite ioa_set_data by lia. by rewrite Hs, Hr.
Qed.

(** The two halves of an entry. *)
Lemma entry_write i lo hi s : 0 ≤ i → ∃ d, (ioapicwrite (REG_TABLE + 2 * i) lo;; ioapicwrite (REG_TABLE + 2 * i + 1) hi) s = Ok (tt, set_sdev d s) ∧
  delivers d i = (if Z.testbit lo 16 then None else Some (lo mod 2^8, Z.shiftr hi 24)) ∧
  ∀ j, j ≠ i → delivers d j = delivers (sdev s) j.
Proof.
  intros Hi. destruct (ioapicwrite_ok (REG_TABLE + 2 * i) lo s) as (d & E & Hd); [lia|].
  destruct (ioapicwrite_ok (REG_TABLE + 2 * i + 1) hi (set_sdev d s)) as (d' & E' & Hd'); [unfold REG_TABLE; lia|].
  exists d'. rewrite (bind_Ok_l _ _ _ _ _ E). split; [exact E'|]. unfold delivers. simpl in *.
  assert (Hr : ∀ j, ioa_reg d' j = if j =? REG_TABLE + 2 * i + 1 then hi else if j =? REG_TABLE + 2 * i then lo else ioa_reg (sdev s) j) by (intros j; by rewrite Hd', Hd).
  split; [|intros j Hj]; rewrite !Hr.
  - by rewrite !Z.eqb_refl, (proj2 (Z.eqb_neq (REG_TABLE + 2 * i) (REG_TABLE + 2 * i + 1))) by lia.
  - by rewrite !(λ a b, proj2 (Z.eqb_neq a b)) by lia.
Qed.

Lemma ioapicinit_loop_ok n i s : 0 ≤ i → i + Z.of_nat n ≤ 224 → ∃ d, ioapicinit_loop n i s = Ok (tt, set_sdev d s) ∧
  (∀ j, i ≤ j < i + Z.of_nat n → delivers d j = None) ∧ (∀ j, ¬ i ≤ j < i + Z.of_nat n → delivers d j = delivers (sdev s) j).
Proof.
  revert i s. induction n as [|n IH]; intros i s Hi Hn; simpl.
  { exists (sdev s). split; [by destruct s|]. split; [lia|done]. }
  destruct (entry_write i (Z.lor INT_DISABLED (T_IRQ0 + i)) 0 s Hi) as (d & E & Hd & Ho).
  rewrite Z.lor_spec, (proj2 (orb_true_iff _ _)) in Hd by (by left).
  destruct (IH (i + 1) (set_sdev d s)) as (d' & E' & H1 & H2); [lia..|]. exists d'. split_and!.
  - rewrite <-bind_assoc, (bind_Ok_l _ _ _ _ _ E). exact E'.
  - intros j Hj. destruct (decide (j = i)) as [->|]; [rewrite H2 by lia; exact Hd|apply H1; lia].
  - intros j Hj. rewrite H2 by lia. apply Ho. lia.
Qed.

Lemma enable_all_ok reqs s : Forall (λ r, 0 ≤ r.1 < 224 ∧ 0 ≤ r.2 < 2^8) reqs → ∃ d, enable_all reqs s = Ok (tt, set_sdev d s) ∧
  ∀ j, delivers d j = match requested reqs j with Some c => Some (T_IRQ0 + j, c) | None => delivers (sdev s) j end.
Proof.
  revert s. induction reqs as [|[irq c] reqs IH]; intros s Hf; simpl.
  { exists (sdev s). split; [by destruct s|done]. }
  apply Forall_cons in Hf as [[Hi Hc] Hf]; simpl in Hi, Hc.
  destruct (entry_write irq (T_IRQ0 + irq) (wrap32 (Z.shiftl c 24)) s) as (d & E & Hd & Ho); [lia|].
  destruct (IH (set_sdev d s) Hf) as (d' & E' & Hd'). exists d'. split.
  { unfold ioapicenable. rewrite (bind_Ok_l _ _ _ _ _ E). exact E'. }
  assert (Hv : delivers d irq = Some (T_IRQ0 + irq, c)).
  { rewrite Hd. unfold T_IRQ0 in *. rewrite Z.bits_above_log2, Z.mod_small by (first [lia|apply Z.log2_lt_pow2; lia]).
    by rewrite dest_byte. }
  intros j. rewrite Hd'. unfold requested; simpl. destruct (Z.eqb_spec irq j) as [->|Hne].
  - rewrite last_cons. destruct (last _); [done|]. exact Hv.
  - destruct (last _); [done|]. simpl. apply Ho. lia.
Qed.

Lemma ioapicinit_ok s : maxintr (sdev s) < 224 → ∃ s', ioapicinit cprintf s = Ok (tt, s') ∧
  ∀ i, 0 ≤ i ≤ maxintr (sdev s) → delivers (sdev s') i = None.
Proof.
  intros Hmax. assert (0 ≤ maxintr (sdev s)) by (apply Z.land_nonneg; right; lia).
  unfold ioapicinit. destruct (ioapicread_ok REG_VER s) as (d & E & Hd). rewrite (bind_Ok_l _ _ _ _ _ E).
  destruct (ioapicread_ok REG_ID (set_sdev d s)) as (d1 & E1 & Hd1). rewrite (bind_Ok_l _ _ _ _ _ E1).
  fold (maxintr (sdev s)). erewrite bind_Ok_l by reflexivity. set (s1 := set_sdev d1 _).
  assert (∃ s2, whenM (negb (Z.shiftr (ioa_reg (sdev (set_sdev d s)) REG_ID) 24 =? ioapicid s1))
      (cprintf "ioapicinit: id isn't equal to ioapicid; not a MP") s1 = Ok (tt, s2)) as [s2 E2].
  { unfold whenM. destruct (negb _); [|by eexists]. destruct (cprintf_ok "ioapicinit: id isn't equal to ioapicid; not a MP" s1) as (d2 & -> & _). by eexists. }
  rewrite (bind_Ok_l _ _ _ _ _ E2).
  destruct (ioapicinit_loop_ok (Z.to_nat (maxintr (sdev s) + 1)) 0 s2) as (d3 & E3 & Hd3 & _); [lia..|].
  eexists. split; [exact E3|]. intros i Hi. apply Hd3. lia.
Qed.

(** The I/O APIC is programmed as the drivers ask: after [ioapicinit] and
    any sequence of [ioapicenable] calls, an interrupt that was never enabled
    is masked, and one that was raises vector [T_IRQ0] plus its number, at the
    processor named by the last call. *)
Theorem ioapic_routes s reqs
  (Hmax : maxintr (sdev s) < 224)
  (Hreqs : Forall (λ r, 0 ≤ r.1 ≤ maxintr (sdev s) ∧ 0 ≤ r.2 < 2^8) reqs) :
  ∃ s', (ioapicinit cprintf;; enable_all reqs) s = Ok (tt, s') ∧
    ∀ i, 0 ≤ i ≤ maxintr (sdev s) → delivers (sdev s') i = (λ c, (T_IRQ0 + i, c)) <$> requested reqs i.
Proof.
  destruct (ioapicinit_ok s Hmax) as (s1 & E & Hn).
  destruct (enable_all_ok reqs s1) as (d & E' & Hd). { eapply Forall_impl; [exact Hreqs|]. intros r [??]. lia. }
  eexists. split; [rewrite (bind_Ok_l _ _ _ _ _ E); exact E'|]. intros i Hi. simpl. rewrite Hd, Hn by done.
  by destruct (requested reqs i).
Qed.
End IoApicProofs.

(** ** The local APIC and the other processors *)

Section LApicProofs.
Context {D : Type} `{!Ports D} `{!LApic D} `{!LApicOk D}.
Implicit Types s : smp D.
Implicit Types d : D.
(** The device after [lapicw]. *)
Definition written (i v : Z) d : D := (lapic_get ID (lapic_set i v d)).2.

Lemma lapicw_run i v s : lapicw i v s = Ok (tt, set_sdev (written i v (sdev s)) s).
Proof. unfold lapicw, on_dev, from_dev, written. runM. simpl. by destruct (lapic_get _ _). Qed.
Lemma set_sdev_set d d' s : set_sdev d (set_sdev d' s) = set_sdev d s.
Proof. done. Qed.
Lemma sdev_set d s : sdev (set_sdev d s) = d.
Proof. done. Qed.
Lemma lapicw_bind {A} i v (f : M (smp D) A) s : (lapicw i v;; f) s = f (set_sdev (written i v (sdev s)) s).
Proof. by rewrite (bind_Ok_l _ _ _ _ _ (lapicw_run i v s)). Qed.
Lemma s_out_run p v s : s_out p v s = Ok (tt, set_sdev (outb p (v mod 2^8) (sdev s)) s).
Proof. done. Qed.
Lemma written_reg i v d j : j ∉ [EOI; ESR; ICRLO; ICRHI] → la_reg (written i v d) j = if j =? i then v else la_reg d j.
Proof. intros H. unfold written. destruct (la_get ID (lapic_set i v d)) as (_ & _ & ->). by apply la_set_reg. Qed.
Lemma written_hi v d : icr_dest (written ICRHI v d) = Z.shiftr v 24 ∧ ap_state (written ICRHI v d) = ap_state d.
Proof. unfold written. destruct (la_get ID (lapic_set ICRHI v d)) as (-> & -> & _). apply la_set_hi. Qed.
Lemma written_lo v d : Z.land v 0xC0000 = 0 → icr_dest (written ICRLO v d) = icr_dest d ∧
  ∀ id, ap_state (written ICRLO v d) id = if id =? icr_dest d then ipi v (ap_state d id) else ap_state d id.
Proof. unfold written. destruct (la_get ID (lapic_set ICRLO v d)) as (-> & -> & _). apply la_set_lo. Qed.
Lemma written_other i v d : i ≠ ICRLO → i ≠ ICRHI → ap_state (written i v d) = ap_state d.
Proof. intros. unfold written. destruct (la_get ID (lapic_set i v d)) as (-> & _ & _). by apply la_set_other. Qed.
Lemma written_deassert d : ap_state (written ICRLO (Z.lor (Z.lor BCAST INIT) LEVEL) d) = ap_state d.
Proof. unfold written. destruct (la_get ID (lapic_set ICRLO (Z.lor (Z.lor BCAST INIT) LEVEL) d)) as (-> & _ & _). apply la_deassert. Qed.

Lemma await_delivery_ok k s : (la_busy (sdev s) ≤ k)%nat → ∃ d, await_delivery k s = Ok (tt, set_sdev d s) ∧
  ap_state d = ap_state (sdev s) ∧ la_reg d = la_reg (sdev s).
Proof.
  revert s. induction k as [|k IH]; intros s Hk; simpl.
  all: destruct (la_get ICRLO (sdev s)) as (Ha & _ & Hr); pose proof (la_wait (sdev s)) as Hw.
  all: unfold from_dev at 1; unfold mbind at 1, M_bind; destruct (lapic_get ICRLO (sdev s)) as [v d]; simpl in *.
  all: destruct (Z.eqb_spec (Z.land v DELIVS) 0) as [_|Hne]; [by exists d|specialize (Hw Hne)].
  - lia.
  - destruct (IH (set_sdev d s)) as (d' & E & Ha' & Hr'); [simpl; lia|]. exists d'. split_and!; [exact E|simpl in *; congruence..].
Qed.

(** Several writes in order, and what they leave in a register. *)
Definition written_all (l : list (Z * Z)) d : D := foldl (λ d w, written w.1 w.2 d) d l.
Definition left_in (l : list (Z * Z)) (j : Z) : option Z := last (omap (λ w, if j =? w.1 then Some w.2 else None) l).
Lemma written_all_reg l d j : j ∉ [EOI; ESR; ICRLO; ICRHI] → la_reg (written_all l d) j = default (la_reg d j) (left_in l j).
Proof.
  intros Hj. revert d. induction l as [|[i v] l IH]; intros d; [done|]. simpl. rewrite IH. unfold left_in; simpl.
  rewrite written_reg by done. destruct (j =? i); [rewrite last_cons|]; by destruct (last _).
Qed.
(** Writes that start or reset nobody. *)
Definition harmless (w : Z * Z) : bool := negb (w.1 =? ICRLO) || bool_decide (w = (ICRLO, Z.lor (Z.lor BCAST INIT) LEVEL)).
Lemma written_all_ap l d : forallb harmless l = true → ap_state (written_all l d) = ap_state d.
Proof.
  revert d. induction l as [|[i v] l IH]; intros d H; [done|]. simpl in H. apply andb_true_iff in H as [Hw H]. simpl. rewrite (IH _ H).
  unfold harmless in Hw. simpl in Hw. destruct (Z.eqb_spec i ICRLO) as [->|Hi]; simpl in Hw.
  - apply bool_decide_eq_true in Hw as [= ->]. apply written_deassert.
  - destruct (decide (i = ICRHI)) as [->|]; [apply written_hi|by apply written_other].
Qed.
Definition setup : list (Z * Z) :=
  [(SVR, Z.lor ENABLE (T_IRQ0 + IRQ_SPURIOUS)); (TDCR, X1); (TIMER, Z.lor PERIODIC (T_IRQ0 + IRQ_TIMER)); (TICR, 10000000); (LINT0, MASKED); (LINT1, MASKED)].
Definition setup_end (b : bool) : list (Z * Z) :=
  (if b then [(PCINT, MASKED)] else []) ++
  [(ERROR, T_IRQ0 + IRQ_ERROR); (ESR, 0); (ESR, 0); (EOI, 0); (ICRHI, 0); (ICRLO, Z.lor (Z.lor BCAST INIT) LEVEL)].
Definition configured (b : bool) d : D := written_all (setup_end b) (lapic_get VER (written_all setup d)).2.

Lemma lapicinit_run s : lapic s ≠ 0 → ∃ b, ∀ k, lapicinit k s =
  (await_delivery k;; lapicw TPR 0) (set_sdev (configured b (sdev s)) s).
Proof.
  intros Hl. unfold configured.
  set (d1 := written_all setup _). exists (4 <=? Z.land (Z.shiftr (lapic_get VER d1).1 16) 0xFF). intros k.
  unfold lapicinit. erewrite bind_Ok_l by reflexivity. rewrite (proj2 (Z.eqb_neq _ _) Hl).
  do 6 rewrite lapicw_bind, ?sdev_set, ?set_sdev_set. change (written LINT1 _ _) with d1.
  erewrite (bind_Ok_l (from_dev _)) by (unfold from_dev; simpl; rewrite (surjective_pairing (lapic_get VER _)); reflexivity).
  set (b := 4 <=? _). set (s1 := set_sdev (if b then written PCINT MASKED (lapic_get VER d1).2 else (lapic_get VER d1).2) s).
  rewrite (bind_Ok_l _ _ _ tt s1).
  2:{ unfold s1, whenM. destruct b; [by rewrite lapicw_run|done]. }
  unfold s1. generalize b. clear. intros b.
  do 6 rewrite lapicw_bind, sdev_set, set_sdev_set. destruct b; reflexivity.
Qed.
Lemma configured_ap b d : ap_state (configured b d) = ap_state d.
Proof.
  unfold configured. rewrite written_all_ap, (proj1 (la_get VER _)), written_all_ap; [done| |].
  - reflexivity.
  - by destruct b.
Qed.
Lemma configured_reg b d j : j ∉ [EOI; ESR; ICRLO; ICRHI] →
  la_reg (configured b d) j = default (default (la_reg d j) (left_in setup j)) (left_in (setup_end b) j).
Proof. intros H. unfold configured. by rewrite written_all_reg, (proj2 (proj2 (la_get VER _))), written_all_reg. Qed.

(** [lapicinit] returns once its command is delivered; the timer then raises
    the timer vector periodically, the two pins are masked, errors and spurious
    interrupts have their vectors, the unit is enabled and accepts every
    priority; no other processor is disturbed. *)
Theorem lapicinit_sets s (Hl : lapic s ≠ 0) :
  ∃ k0, ∀ k, (k0 ≤ k)%nat → ∃ d, lapicinit k s = Ok (tt, set_sdev d s) ∧ ap_state d = ap_state (sdev s) ∧
      la_reg d TIMER = Z.lor PERIODIC (T_IRQ0 + IRQ_TIMER) ∧ la_reg d TICR = 10000000 ∧
      la_reg d TDCR = X1 ∧ la_reg d LINT0 = MASKED ∧ la_reg d LINT1 = MASKED ∧ la_reg d ERROR = T_IRQ0 + IRQ_ERROR ∧
      la_reg d SVR = Z.lor ENABLE (T_IRQ0 + IRQ_SPURIOUS) ∧ la_reg d TPR = 0.
Proof.
  destruct (lapicinit_run s Hl) as (b & Hrun). exists (la_busy (configured b (sdev s))). intros k Hk. rewrite Hrun.
  destruct (await_delivery_ok k (set_sdev (configured b (sdev s)) s)) as (d & E & Ha & Hr); [exact Hk|].
  rewrite (bind_Ok_l _ _ _ _ _ E), lapicw_run. exists (written TPR 0 d). split; [done|]. simpl in Ha, Hr.
  rewrite written_other, Ha, configured_ap by done. split; [done|].
  assert (Hreg : ∀ j, j ∉ [EOI; ESR; ICRLO; ICRHI] → la_reg (written TPR 0 d) j =
    if j =? TPR then 0 else default (default (la_reg (sdev s) j) (left_in setup j)) (left_in (setup_end b) j))
    by (intros j Hj; rewrite written_reg, Hr, configured_reg by done; done).
  split_and!; (rewrite Hreg by (apply (bool_decide_unpack _); reflexivity)); by destruct b.
Qed.

(** *** [startothers] *)

Section StartOthers.
Variable sched : nat → apact.
Variable estart esize : Z.
Variable mpenter entrypgdir : Z.
Variable image : list Z.
Notation ap_act := (ap_act esize mpenter image).
Notation ap_tick := (ap_tick sched esize mpenter image).
Notation await_started := (await_started sched esize mpenter image).
Notation entryother := (entryother esize image).
Notation boot := (Z * Z * Z)%type.

(** How far a processor is: not started; started, to take up [r]; or up with [r]. *)
Inductive status := Fresh | Going (r : boot) | Up (r : boot).
Definition at_status s (j : nat) (x : status) : Prop :=
  match x with
  | Fresh => ∃ id, apicids s !! j = Some id ∧ boots s !! j = Some None ∧ started s !! j = Some false ∧
      ∀ v, ap_state (sdev s) id ≠ Started v
  | Going r => ∃ id, apicids s !! j = Some id ∧ ap_state (sdev s) id = Started 7 ∧ entryother (smem s) 7 = Some r ∧
      (boots s !! j = Some None ∨ boots s !! j = Some (Some r)) ∧ ∃ b, started s !! j = Some b ∧ (b = true → boots s !! j = Some (Some r))
  | Up r => boots s !! j = Some (Some r) ∧ started s !! j = Some true
  end.
(** All [n] processors, with the identities [ids]. *)
Definition all_at (n : nat) (ids : list Z) s (f : nat → status) : Prop :=
  apicids s = ids ∧ length (boots s) = n ∧ length (started s) = n ∧ ∀ j, (j < n)%nat → at_status s j (f j).
(** What the other processors leave alone. *)
Definition untouched s s' : Prop :=
  apicids s' = apicids s ∧ ncpu s' = ncpu s ∧ pages s' = pages s ∧ smem s' = smem s ∧ sdev s' = sdev s.
Lemma untouched_trans s1 s2 s3 : untouched s1 s2 → untouched s2 s3 → untouched s1 s3.
Proof. unfold untouched. intuition congruence. Qed.

Lemma act_untouched a s : untouched s (ap_act a s) ∧ length (boots (ap_act a s)) = length (boots s) ∧ length (started (ap_act a s)) = length (started s).
Proof. unfold untouched. destruct a; simpl; repeat case_match; simpl; rewrite ?length_insert; done. Qed.

Lemma act_other a s j : (match a with ApBoot i | ApUp i => i end) ≠ j →
  boots (ap_act a s) !! j = boots s !! j ∧ started (ap_act a s) !! j = started s !! j.
Proof. destruct a; simpl; intros Hj; repeat case_match; simpl; rewrite ?list_lookup_insert_ne by done; done. Qed.

Lemma act_status a s j x : (j < length (boots s))%nat → (j < length (started s))%nat → at_status s j x → at_status (ap_act a s) j x.
Proof.
  intros Hb Hs Hx. destruct (act_untouched a s) as [(Ea & _ & _ & Em & Ed) _].
  destruct (decide ((match a with ApBoot i | ApUp i => i end) = j)) as [Hj|Hj].
  - destruct x as [|r|r]; simpl in Hx.
    + pose proof Hx as (id & Hid & Hbo & Hst & Hap). assert (ap_act a s = s) as ->; [|exact Hx].
      destruct a as [i|i]; simpl in Hj; subst i; simpl; rewrite ?Hid, Hbo; [|done].
      destruct (ap_state (sdev s) id) as [| |v] eqn:E; [done..|by destruct (Hap v)].
    + destruct Hx as (id & Hid & Hap & He & Hbo & b & Hst & Himp). exists id. rewrite Ea, Em, Ed. split_and!; try done;
        destruct a as [i|i]; simpl in Hj; subst i; simpl.
      * destruct Hbo as [Hbo|Hbo]; rewrite Hid, Hbo; [|by right]. rewrite Hap. simpl. right. rewrite He. by apply list_lookup_insert_eq.
      * destruct Hbo as [Hbo|Hbo]; rewrite Hbo; [by left|]. destruct r as [[? ?] ?]. case_match; by right.
      * exists b. destruct Hbo as [Hbo|Hbo]; rewrite Hid, Hbo; [|done]. rewrite Hap. simpl. split; [done|]. intros ->. rewrite Hbo in Himp. by specialize (Himp eq_refl).
      * destruct Hbo as [Hbo|Hbo]; rewrite Hbo; [exists b; split; [done|]; intros ->; rewrite Hbo in Himp; by specialize (Himp eq_refl)|]. destruct r as [[? ?] ?]. case_match; [exists true|exists b; done].
        simpl. rewrite list_lookup_insert_eq by done. done.
    + destruct Hx as [Hbo Hst]. destruct a as [i|i]; simpl in Hj; subst i; simpl; rewrite Hbo; [by destruct (apicids s !! j)|].
      destruct r as [[? ?] ?]. case_match; [|done]. split; [done|]. simpl. by apply list_lookup_insert_eq.
  - destruct (act_other a s j Hj) as [E1 E2]. unfold at_status. by rewrite E1, E2, Ea, Em, Ed.
Qed.

Definition ticked s : smp D := set_now (S (now s)) (ap_act (sched (now s)) s).
Lemma ap_tick_run s : ap_tick s = Ok (tt, ticked s).
Proof. done. Qed.
Lemma ticked_ok n ids s f : all_at n ids s f → all_at n ids (ticked s) f ∧ untouched s (ticked s).
Proof.
  intros (H1 & H2 & H3 & H4). destruct (act_untouched (sched (now s)) s) as (Hu & Hb & Hs). split; [|exact Hu].
  unfold all_at. split_and!; [by rewrite <-H1; apply Hu|exact (eq_trans Hb H2)|exact (eq_trans Hs H3)|].
  intros j Hj. apply (act_status (sched (now s)) s j); [lia|lia|by apply H4].
Qed.

(** *** Waiting *)

Fixpoint ticks (m : nat) s : smp D := match m with O => s | S m' => ticks m' (ticked s) end.
Lemma ticks_ok n ids m s f : all_at n ids s f → all_at n ids (ticks m s) f ∧ untouched s (ticks m s) ∧ now (ticks m s) = (m + now s)%nat.
Proof.
  revert s. induction m as [|m IH]; intros s H; simpl; [by split_and!|].
  destruct (ticked_ok _ _ _ _ H) as [H1 Hu]. destruct (IH _ H1) as (H2 & Hu' & Hn). split_and!; [done|by eapply untouched_trans|].
  rewrite Hn. simpl. lia.
Qed.
Lemma ticks_add a b s : ticks (a + b) s = ticks b (ticks a s).
Proof. revert s. induction a as [|a IH]; intros s; simpl; [done|apply IH]. Qed.
Lemma ticks_S m s : ticks (S m) s = ticked (ticks m s).
Proof. replace (S m) with (m + 1)%nat by lia. by rewrite ticks_add. Qed.

Lemma await_run m c s : started (ticks m s) !! c = Some true →
  ∃ m', started (ticks m' s) !! c = Some true ∧ ∀ k, (m' ≤ k)%nat → await_started k c s = Ok (tt, ticks m' s).
Proof.
  revert s. induction m as [|m IH]; intros s H.
  { exists 0%nat. split; [exact H|]. simpl in H. intros [|k] _; simpl; erewrite bind_Ok_l by reflexivity; by rewrite H. }
  destruct (decide (started s !! c = Some true)) as [Ht|Hf].
  { exists 0%nat. split; [exact Ht|]. intros [|k] _; simpl; erewrite bind_Ok_l by reflexivity; by rewrite Ht. }
  destruct (IH (ticked s) H) as (m' & Hm & Hk). exists (S m'). split; [exact Hm|]. intros [|k] Hl; [lia|]. simpl.
  erewrite bind_Ok_l by reflexivity. destruct (started s !! c) as [[]|] eqn:E; [done|..]; simpl;
    rewrite (bind_Ok_l _ _ _ _ _ (ap_tick_run s)); apply Hk; lia.
Qed.

(** Every processor acts again and again. *)
Definition fair : Prop := ∀ t a, ∃ t', (t ≤ t')%nat ∧ sched t' = a.

Lemma await_going n ids c s f r : fair → all_at n ids s f → (c < n)%nat → f c = Going r → r.1.2 = mpenter →
  ∃ m, (∀ k, (m ≤ k)%nat → await_started k c s = Ok (tt, ticks m s)) ∧ at_status (ticks m s) c (Up r).
Proof.
  intros Hfair Hall Hc Hf Hr.
  destruct (Hfair (now s) (ApBoot c)) as (t1 & Ht1 & E1). destruct (Hfair (S t1) (ApUp c)) as (t2 & Ht2 & E2).
  assert (Hb : ∀ m, boots (ticks (S (t1 - now s) + m) s) !! c = Some (Some r)).
  { intros m. induction m as [|m IHm].
    - rewrite Nat.add_0_r, ticks_S. destruct (ticks_ok n ids (t1 - now s) s f Hall) as ((Ha & Hl & _ & Hst) & _ & Hn).
      specialize (Hst c Hc). rewrite Hf in Hst. destruct Hst as (id & Hid & Hap & He & Hbo & _).
      unfold ticked. rewrite Hn. replace (t1 - now s + now s)%nat with t1 by lia. rewrite E1. simpl. rewrite Hid.
      destruct Hbo as [Hbo|Hbo]; rewrite Hbo; [|done]. rewrite Hap. simpl. rewrite He. apply list_lookup_insert_eq. lia.
    - rewrite Nat.add_succ_r, ticks_S. set (s1 := ticks _ s) in *. unfold ticked. simpl.
      destruct (sched (now s1)) as [i|i]; simpl; repeat case_match; simpl; try done.
      destruct (decide (i = c)) as [->|]; [congruence|]. by rewrite list_lookup_insert_ne. }
  destruct (await_run (S (t2 - now s)) c s) as (m & Hm & Hk).
  { rewrite ticks_S. destruct (ticks_ok n ids (t2 - now s) s f Hall) as ((_ & _ & Hl & _) & _ & Hn).
    specialize (Hb (t2 - S t1)%nat). replace (S (t1 - now s) + (t2 - S t1))%nat with (t2 - now s)%nat in Hb by lia.
    unfold ticked. rewrite Hn. replace (t2 - now s + now s)%nat with t2 by lia. rewrite E2. simpl. rewrite Hb.
    destruct r as [[a b] e]. simpl in Hr. subst b. rewrite Z.eqb_refl. simpl. apply list_lookup_insert_eq. lia. }
  exists m. split; [done|]. split; [|done]. destruct (ticks_ok n ids m s f Hall) as ((_ & _ & _ & Hst) & _ & _).
  specialize (Hst c Hc). rewrite Hf in Hst. destruct Hst as (? & _ & _ & _ & _ & b & Hb' & Himp). rewrite Hm in Hb'. simplify_eq. by apply Himp.
Qed.

(** *** Sending the interrupts *)

Lemma ap_tick_bind {A} (g : M (smp D) A) s : (ap_tick;; g) s = g (ticked s).
Proof. by rewrite (bind_Ok_l _ _ _ _ _ (ap_tick_run s)). Qed.

Definition quiet (f : nat → status) : Prop := ∀ j r, f j ≠ Going r.
Lemma all_at_dev n ids s f d : all_at n ids s f → (∀ id, ap_state d id = ap_state (sdev s) id) → all_at n ids (set_sdev d s) f.
Proof.
  intros (H1 & H2 & H3 & H4) Hd. unfold all_at. split_and!; try done. intros j Hj. specialize (H4 j Hj).
  unfold at_status in *; simpl. destruct (f j); [|setoid_rewrite Hd; exact H4|exact H4].
  destruct H4 as (id & ? & ? & ? & Hn). exists id. split_and!; try done. intros v. rewrite Hd. apply Hn.
Qed.
Lemma all_at_quiet n ids s f m l d : all_at n ids s f → quiet f → (∀ id v, ap_state d id = Started v → ap_state (sdev s) id = Started v) →
  all_at n ids (set_sdev d (set_smem m (set_pages l s))) f.
Proof.
  intros (H1 & H2 & H3 & H4) Hq Hd. unfold all_at. split_and!; try done. intros j Hj. specialize (H4 j Hj). specialize (Hq j).
  unfold at_status in *; simpl. destruct (f j) as [|r|r]; [|by destruct (Hq r)|exact H4].
  destruct H4 as (id & ? & ? & ? & Hn). exists id. split_and!; try done. intros v Hv. by apply (Hn v), Hd.
Qed.
Definition going (c : nat) (r : boot) (f : nat → status) : nat → status := λ j, if decide (j = c) then Going r else f j.
Lemma all_at_going n ids s f c id r d : all_at n ids s f → quiet f → (c < n)%nat → f c = Fresh → ids !! c = Some id →
  (∀ j, (j < n)%nat → ids !! j = Some id → j = c) →
  (∀ id', id' ≠ id → ap_state d id' = ap_state (sdev s) id') → ap_state d id = Started 7 → entryother (smem s) 7 = Some r →
  all_at n ids (set_sdev d s) (going c r f).
Proof.
  intros (H1 & H2 & H3 & H4) Hq Hc Hf Hid Huni Ho Hd He. unfold all_at. split_and!; try done. intros j Hj. specialize (H4 j Hj).
  unfold going. destruct (decide (j = c)) as [->|Hne].
  - rewrite Hf in H4. destruct H4 as (id' & ? & ? & ? & _). simplify_eq. exists id'. simpl. split_and!; try done; [by left|]. by exists false.
  - specialize (Hq j). unfold at_status in *; simpl. destruct (f j) as [|r'|r']; [|by destruct (Hq r')|exact H4].
    destruct H4 as (id' & Hid' & ? & ? & Hn). exists id'. split_and!; try done. intros v. rewrite Ho; [apply Hn|].
    intros ->. apply Hne, Huni; [done|]. by rewrite <-H1.
Qed.

Notation lapicstartap := (lapicstartap sched esize mpenter image).
Definition wrv : Z := 0x80000467.
Definition with_vector (m : mem) : mem := store16 (store16 m wrv 0) (wrv + 2) 0x700.

Notation startup_loop := (startup_loop sched esize mpenter image).
Definition kept s s' : Prop := ncpu s' = ncpu s ∧ pages s' = pages s ∧ smem s' = smem s.
Lemma ticked_kept n ids s f : all_at n ids s f → kept s (ticked s) ∧ sdev (ticked s) = sdev s ∧ all_at n ids (ticked s) f.
Proof. intros H. destruct (ticked_ok _ _ _ _ H) as [? (? & ? & ? & ? & ?)]. done. Qed.

(** A command to [id] reaches that processor alone. *)
Lemma command id v d : 0 ≤ id < 2^8 → Z.land v 0xC0000 = 0 →
  let d' := written ICRLO v (written ICRHI (wrap32 (Z.shiftl id 24)) d) in
  icr_dest d' = id ∧ ap_state d' id = ipi v (ap_state d id) ∧ ∀ id', id' ≠ id → ap_state d' id' = ap_state d id'.
Proof.
  intros Hid Hv. simpl. destruct (written_hi (wrap32 (Z.shiftl id 24)) d) as [E1 E2]. rewrite dest_byte in E1 by done.
  destruct (written_lo v (written ICRHI (wrap32 (Z.shiftl id 24)) d) Hv) as [E3 E4]. rewrite E3, E1. split; [done|].
  rewrite E1, E2 in E4. split; [by rewrite E4, Z.eqb_refl|]. intros id' Hne. rewrite E4. by rewrite (proj2 (Z.eqb_neq _ _) Hne).
Qed.

Lemma reset_ok {A} n ids s f id (g : M (smp D) A) : all_at n ids s f → quiet f → 0 ≤ id < 2^8 →
  ∃ s', (lapicw ICRHI (wrap32 (Z.shiftl id 24));; lapicw ICRLO (Z.lor (Z.lor INIT LEVEL) ASSERT);; ap_tick;;
         lapicw ICRLO (Z.lor INIT LEVEL);; ap_tick;; g) s = g s' ∧
    all_at n ids s' f ∧ kept s s' ∧ ap_state (sdev s') id = WaitSipi.
Proof.
  intros Hall Hq Hid. rewrite !lapicw_bind, sdev_set, set_sdev_set.
  destruct (command id (Z.lor (Z.lor INIT LEVEL) ASSERT) (sdev s) Hid eq_refl) as (Hd & Hw & Ho).
  set (d1 := written ICRLO _ _) in *. set (s1 := set_sdev d1 s).
  assert (H1 : all_at n ids s1 f).
  { assert (Es : s1 = set_sdev d1 (set_smem (smem s) (set_pages (pages s) s))) by (by destruct s). rewrite Es.
    apply all_at_quiet; [done..|]. intros id' v. destruct (decide (id' = id)) as [->|Hne]; [by rewrite Hw|by rewrite Ho]. }
  rewrite ap_tick_bind. destruct (ticked_kept n ids s1 f H1) as ((Hk1 & Hk2 & Hk3) & Hd1 & H2).
  rewrite lapicw_bind. destruct (written_lo (Z.lor INIT LEVEL) (sdev (ticked s1)) eq_refl) as [E1 E2].
  set (d2 := written ICRLO _ (sdev (ticked s1))) in *. set (s2 := set_sdev d2 (ticked s1)).
  assert (E3 : ∀ id', ap_state d2 id' = ap_state (sdev (ticked s1)) id') by (intros id'; rewrite E2; by case_match).
  assert (H3 : all_at n ids s2 f) by (by apply all_at_dev).
  rewrite ap_tick_bind. destruct (ticked_kept n ids s2 f H3) as ((Hl1 & Hl2 & Hl3) & Hd2 & H4).
  exists (ticked s2). split_and!; [done|done| |].
  - unfold kept. rewrite Hl1, Hl2, Hl3. done.
  - rewrite Hd2. change (sdev s2) with d2. rewrite E3, Hd1. change (sdev s1) with d1. by rewrite Hw.
Qed.

(** The processor is started by the first of the two; the second is ignored. *)
Lemma startup_ok n ids s f c id r : all_at n ids s f → quiet f → (c < n)%nat → f c = Fresh → ids !! c = Some id →
  (∀ j, (j < n)%nat → ids !! j = Some id → j = c) → 0 ≤ id < 2^8 → entryother (smem s) 7 = Some r →
  ap_state (sdev s) id = WaitSipi →
  ∃ s', startup_loop 2 id 0x7000 s = Ok (tt, s') ∧ all_at n ids s' (going c r f) ∧ kept s s'.
Proof.
  intros Hall Hq Hc Hf Hid Huni Hr He Hw. simpl. unfold microdelay. change (Z.shiftr 0x7000 12) with 7.
  rewrite !lapicw_bind, sdev_set, set_sdev_set.
  destruct (command id (Z.lor STARTUP 7) (sdev s) Hr eq_refl) as (_ & Hs & Ho). rewrite Hw in Hs.
  set (d1 := written ICRLO _ _) in *. set (s1 := set_sdev d1 s).
  assert (H1 : all_at n ids s1 (going c r f)) by (by apply (all_at_going n ids s f c id r d1)).
  rewrite ap_tick_bind. destruct (ticked_kept n ids s1 _ H1) as ((Hk1 & Hk2 & Hk3) & Hd1 & H2).
  rewrite !lapicw_bind, sdev_set, set_sdev_set.
  destruct (command id (Z.lor STARTUP 7) (sdev (ticked s1)) Hr eq_refl) as (_ & Hs' & Ho').
  set (d2 := written ICRLO _ (written _ _ (sdev (ticked s1)))) in *. set (s2 := set_sdev d2 (ticked s1)).
  rewrite Hd1 in Hs', Ho'. change (sdev s1) with d1 in Hs', Ho'. rewrite Hs in Hs'.
  assert (H3 : all_at n ids s2 (going c r f)).
  { apply all_at_dev; [done|]. rewrite Hd1. intros id'. change (sdev s1) with d1.
    destruct (decide (id' = id)) as [->|Hne]; [by rewrite Hs', Hs|by apply Ho']. }
  rewrite ap_tick_bind. destruct (ticked_kept n ids s2 _ H3) as ((Hl1 & Hl2 & Hl3) & _ & H4).
  exists (ticked s2). split_and!; [done|done|]. unfold kept. by rewrite Hl1, Hl2, Hl3.
Qed.

(** The whole sequence: the one processor has been sent to page 7, where it
    finds [r]; it may have taken it up already. *)
Lemma lapicstartap_ok n ids s f c id r : all_at n ids s f → quiet f → (c < n)%nat → f c = Fresh → ids !! c = Some id →
  (∀ j, (j < n)%nat → ids !! j = Some id → j = c) → 0 ≤ id < 2^8 → entryother (with_vector (smem s)) 7 = Some r →
  ∃ s', lapicstartap id (V2P code) s = Ok (tt, s') ∧ all_at n ids s' (going c r f) ∧
    ncpu s' = ncpu s ∧ pages s' = pages s ∧ smem s' = with_vector (smem s).
Proof.
  intros Hall Hq Hc Hf Hid Huni Hr He.
  unfold lapicstartap, microdelay. change (V2P code) with 0x7000. rewrite (bind_Ok_l _ _ _ _ _ (s_out_run _ _ s)).
  rewrite (bind_Ok_l _ _ _ _ _ (s_out_run _ _ (set_sdev _ s))), sdev_set, set_sdev_set. set (d1 := outb _ _ (outb _ _ (sdev s))).
  rewrite (bind_Ok_l (on_mem _) _ _ tt (set_smem (store16 (smem s) wrv 0) (set_sdev d1 s))) by reflexivity.
  rewrite (bind_Ok_l (on_mem _) _ _ tt (set_sdev d1 (set_smem (with_vector (smem s)) s))) by reflexivity.
  set (s1 := set_sdev d1 _).
  assert (H1 : all_at n ids s1 f).
  { assert (Es : s1 = set_sdev d1 (set_smem (with_vector (smem s)) (set_pages (pages s) s))) by (by destruct s). rewrite Es.
    apply all_at_quiet; [done..|]. intros id' v. unfold d1. by rewrite (proj1 (la_ports _ _ _)), (proj1 (la_ports _ _ _)). }
  destruct (reset_ok n ids s1 f id (startup_loop 2 id 0x7000) H1 Hq Hr) as (s2 & E & H2 & (Hk1 & Hk2 & Hk3) & Hw). rewrite E.
  destruct (startup_ok n ids s2 f c id r) as (s3 & E3 & H3 & Hl1 & Hl2 & Hl3); try done; [by rewrite Hk3|].
  exists s3. split_and!; [done|done|by rewrite Hl1, Hk1|by rewrite Hl2, Hk2|by rewrite Hl3, Hk3].
Qed.

(** *** The loop *)

Notation startothers := (startothers sched estart esize mpenter entrypgdir image).
Notation startothers_loop := (startothers_loop sched esize mpenter entrypgdir image).
(** The processors before [i] other than this one. *)
Definition others (self i : nat) : nat := if (self <? i)%nat then (i - 1)%nat else i.
(** What processor [j] is to take up: a stack of its own from [l]. *)
Definition boot_of (l : list Z) (self j : nat) : boot :=
  (default 0 (l !! others self j) + KSTACKSIZE, mpenter, V2P entrypgdir).
Definition stage (l : list Z) (self i : nat) (j : nat) : status :=
  if decide (j = self) then Fresh else if decide (j < i)%nat then Up (boot_of l self j) else Fresh.

Definition words (m : mem) (r : boot) : mem :=
  store32 (store32 (store32 m (code - 4) r.1.1) (code - 8) r.1.2) (code - 12) r.2.
Lemma words_entry m r : is_u32 r.1.1 → is_u32 r.1.2 → is_u32 r.2 → image_at esize m code = image →
  entryother (with_vector (words m r)) 7 = Some r ∧ image_at esize (with_vector (words m r)) code = image.
Proof.
  intros H1 H2 H3 Hi.
  assert (Hv : ∀ x, 0x80006000 ≤ x → with_vector (words m r) x = words m r x).
  { intros x Hx. unfold with_vector, store16. rewrite !(λ a b, proj2 (Z.eqb_neq a b)) by (unfold wrv; lia). done. }
  assert (Hc : code = 0x80007000) by reflexivity.
  assert (Hi' : image_at esize (with_vector (words m r)) code = image).
  { rewrite <-Hi. apply read_bytes_ext. intros i Hr. rewrite Hv by lia. unfold words. by rewrite !store32_other by lia. }
  split; [|done]. unfold Smp.entryother. change (P2V (7 * PGSIZE)) with code. rewrite bool_decide_true by done.
  rewrite !(load32_ext (with_vector (words m r)) (words m r)) by (intros; apply Hv; lia). unfold words.
  rewrite (load32_store32 _ (code - 12)) by done.
  rewrite !(load32_store32_ne _ (code - 12)) by lia. rewrite (load32_store32 _ (code - 8)) by done.
  rewrite (load32_store32_ne _ (code - 8)) by lia. rewrite load32_store32 by done. by destruct r as [[? ?] ?].
Qed.

Lemma stage_quiet l self i : quiet (stage l self i).
Proof. intros j r. unfold stage. repeat case_decide; done. Qed.

Lemma all_at_weaken n ids s f g : all_at n ids s f → (∀ j, (j < n)%nat → at_status s j (f j) → at_status s j (g j)) → all_at n ids s g.
Proof. intros (H1 & H2 & H3 & H4) Hw. unfold all_at. split_and!; try done. intros j Hj. by apply Hw, H4. Qed.

(** The state at the head of the loop. *)
Definition at_head (n : nat) (ids : list Z) (l : list Z) (self i : nat) s : Prop :=
  all_at n ids s (stage l self i) ∧ pages s = drop (others self i) l ∧ image_at esize (smem s) code = image.

Context (n : nat) (ids l : list Z) (self : nat).
Hypothesis ids_byte : ∀ j id, (j < n)%nat → ids !! j = Some id → 0 ≤ id < 2^8.
Hypothesis ids_apart : ∀ i j id, (i < n)%nat → (j < n)%nat → ids !! i = Some id → ids !! j = Some id → i = j.
Hypothesis pages_ok : Forall (λ p, 0 ≤ p < 2^32 - KSTACKSIZE) l.
Hypothesis mpenter_word : is_u32 mpenter.
Hypothesis sched_fair : fair.

Lemma boot_of_words j : is_u32 (boot_of l self j).1.1 ∧ is_u32 (boot_of l self j).2.
Proof.
  split; [|apply Z.mod_pos_bound; lia]. simpl. unfold is_u32. rewrite Forall_lookup in pages_ok.
  destruct (l !! others self j) as [p|] eqn:E; simpl; [apply pages_ok in E; unfold KSTACKSIZE in *; lia|unfold KSTACKSIZE; lia].
Qed.

Lemma others_S (k i : nat) : i ≠ k → others k (S i) = S (others k i).
Proof. intros. unfold others. destruct (Nat.ltb_spec k (S i)), (Nat.ltb_spec k i); lia. Qed.
Lemma take_page_drop (a : nat) s : pages s = drop a l → take_page s = Ok (default 0 (l !! a), set_pages (drop (S a) l) s).
Proof.
  intros Hp. unfold take_page. rewrite Hp. destruct (l !! a) as [p|] eqn:E.
  - by rewrite (drop_S _ _ _ E).
  - apply lookup_ge_None in E. rewrite !drop_ge by lia. rewrite drop_ge in Hp by lia. simpl. rewrite <-Hp. by destruct s.
Qed.

(** One processor. *)
Lemma start_one i s : at_head n ids l self i s → (i < n)%nat → i ≠ self →
  ∃ k0 s', at_head n ids l self (S i) s' ∧ ∀ k n', (k0 ≤ k)%nat →
    startothers_loop k (S n') self i s = startothers_loop k n' self (S i) s'.
Proof.
  intros (Hall & Hp & Himg) Hi Hne. set (r := boot_of l self i).
  destruct (boot_of_words i) as [Hr1 Hr2].
  destruct (words_entry (smem s) r Hr1 mpenter_word Hr2 Himg) as [He Hi2].
  assert (Hf : stage l self i i = Fresh) by (unfold stage; repeat case_decide; done || lia).
  assert (∃ id, ids !! i = Some id) as [id Hid].
  { destruct Hall as (Ha & _ & _ & Hst). specialize (Hst i Hi). rewrite Hf in Hst. destruct Hst as (id & Hid & _). exists id. by rewrite <-Ha. }
  set (s1 := set_sdev (sdev s) (set_smem (words (smem s) r) (set_pages (drop (others self (S i)) l) s))).
  assert (H1 : all_at n ids s1 (stage l self i)) by (apply all_at_quiet; [done|apply stage_quiet|done]).
  destruct (lapicstartap_ok n ids s1 (stage l self i) i id r) as (s2 & E2 & H2 & _ & Hp2 & Hm2); try done; [apply stage_quiet| |by eapply ids_byte|].
  { intros j Hj Hjd. by apply (ids_apart j i id). }
  destruct (await_going n ids i s2 (going i r (stage l self i)) r sched_fair H2 Hi) as (m & Hk & Hup); [unfold going; by rewrite decide_True|done|].
  destruct (ticks_ok n ids m s2 _ H2) as (H3 & (_ & _ & Hp3 & Hm3 & _) & _).
  exists m, (ticks m s2). split.
  - split_and!.
    + apply (all_at_weaken _ _ _ _ _ H3). intros j Hj. unfold going, stage. destruct (decide (j = i)) as [->|Hji].
      * intros _. rewrite decide_False, decide_True by (done || lia). exact Hup.
      * repeat case_decide; done || lia.
    + by rewrite Hp3, Hp2.
    + by rewrite Hm3, Hm2.
  - intros k n' Hkm. simpl. rewrite (proj2 (Nat.eqb_neq _ _) Hne).
    assert (Ht : take_page s = Ok (default 0 (l !! others self i), set_pages (drop (others self (S i)) l) s)).
    { rewrite (others_S self i Hne). by apply take_page_drop. }
    rewrite (bind_Ok_l _ _ _ _ _ Ht).
    do 3 (erewrite (bind_Ok_l (on_mem _)) by reflexivity). erewrite (bind_Ok_l get) by reflexivity.
    match goal with |- context [apicids ?x !! i] => change x with s1 end. replace (apicids s1) with ids by (symmetry; apply H1).
    rewrite Hid. simpl. rewrite (bind_Ok_l _ _ _ _ _ E2). by rewrite (bind_Ok_l _ _ _ _ _ (Hk k Hkm)).
Qed.

Lemma startothers_loop_ok n' i s : at_head n ids l self i s → (i + n' = n)%nat →
  ∃ k0 s', at_head n ids l self n s' ∧ ∀ k, (k0 ≤ k)%nat → startothers_loop k n' self i s = Ok (tt, s').
Proof.
  revert i s. induction n' as [|n' IH]; intros i s Hh Hn.
  { exists 0%nat, s. split; [|done]. replace (at_head n ids l self n s) with (at_head n ids l self i s) by (f_equal; lia). exact Hh. }
  destruct (decide (i = self)) as [->|Hne].
  - destruct (IH (S self) s) as (k0 & s' & Hh' & Hk); [|lia|].
    + destruct Hh as (Hall & Hp & Hi). split_and!; [|rewrite Hp; unfold others; f_equal; destruct (Nat.ltb_spec self (S self)), (Nat.ltb_spec self self); lia|done].
      apply (all_at_weaken _ _ _ _ _ Hall). intros j Hj. unfold stage. repeat case_decide; done || lia.
    + exists k0, s'. split; [done|]. intros k Hle. simpl. rewrite Nat.eqb_refl. by apply Hk.
  - destruct (start_one i s Hh ltac:(lia) Hne) as (k1 & s1 & Hh1 & E1). destruct (IH (S i) s1 Hh1 ltac:(lia)) as (k2 & s2 & Hh2 & E2).
    exists (k1 `max` k2)%nat, s2. split; [done|]. intros k Hle. rewrite E1 by lia. apply E2. lia.
Qed.

(** C9: Whatever order the other processors act in, as long as each keeps
    acting, [startothers] returns, and then every one of them is up: it has
    entered [mpenter] with the boot page directory, on a stack page that no
    other processor was given.  This needs the wait for [started], since the
    words it took up are overwritten for the next processor. *)
Theorem startothers_boots s
  (Hn : ncpu s = Z.of_nat n) (Hids : apicids s = ids) (Hb : length (boots s) = n) (Hs : length (started s) = n)
  (Hfresh : ∀ j, (j < n)%nat → at_status s j Fresh)
  (Hpages : pages s = l) (Hnd : NoDup l) (Hroom : (n ≤ length l)%nat)
  (Himg : image_at esize (smem s) estart = image) (Hsz : 0 ≤ estart ∧ 0 ≤ esize ∧ estart + esize < 2^32) :
  ∃ k0 s', (∀ k, (k0 ≤ k)%nat → startothers k self s = Ok (tt, s')) ∧
    ∃ stack : nat → Z, (∀ i j, (i < n)%nat → (j < n)%nat → i ≠ self → j ≠ self → stack i = stack j → i = j) ∧
      ∀ j, (j < n)%nat → j ≠ self → stack j ∈ l ∧ started s' !! j = Some true ∧
        boots s' !! j = Some (Some (stack j + KSTACKSIZE, mpenter, V2P entrypgdir)).
Proof.
  set (s1 := set_smem (memmove (smem s) code estart esize) s).
  assert (Hall : all_at n ids s (stage l self 0)).
  { unfold all_at. split_and!; try done. intros j Hj. unfold stage. repeat case_decide; try lia; by apply Hfresh. }
  assert (Hh : at_head n ids l self 0 s1).
  { split_and!.
    - assert (Es : s1 = set_sdev (sdev s) (set_smem (memmove (smem s) code estart esize) (set_pages (pages s) s))) by (by destruct s).
      rewrite Es. apply all_at_quiet; [done|apply stage_quiet|done].
    - rewrite <-Hpages. unfold others. by destruct (Nat.ltb_spec self 0); [lia|].
    - rewrite <-Himg. apply read_bytes_ext. intros i Hi. rewrite Z2Nat.id in Hi by lia. simpl. rewrite memmove_eq by lia.
      rewrite decide_True by lia. f_equal. lia. }
  destruct (startothers_loop_ok n 0 s1 Hh eq_refl) as (k0 & s' & Hend & Hk). exists k0, s'. split.
  { intros k Hle. unfold Smp.startothers.
    rewrite (bind_Ok_l (on_mem _) _ _ tt s1) by reflexivity. rewrite (bind_Ok_l get _ _ s1 s1) by reflexivity.
    assert (Hn1 : ncpu s1 = Z.of_nat n) by exact Hn. rewrite Hn1, Nat2Z.id. by apply Hk. }
  assert (Hlt : ∀ j, (j < n)%nat → ∃ p, l !! others self j = Some p).
  { intros j Hj. apply lookup_lt_is_Some_2. unfold others. destruct (Nat.ltb_spec self j); lia. }
  exists (λ j, default 0 (l !! others self j)). split.
  - intros i j Hi Hj Hni Hnj. destruct (Hlt i Hi) as [p Ep], (Hlt j Hj) as [q Eq]. rewrite Ep, Eq. simpl. intros ->.
    pose proof (NoDup_lookup _ _ _ _ Hnd Ep Eq) as E. unfold others in E. destruct (Nat.ltb_spec self i), (Nat.ltb_spec self j); lia.
  - intros j Hj Hne. destruct Hend as ((_ & _ & _ & Hst) & _). specialize (Hst j Hj). unfold stage in Hst.
    rewrite decide_False, decide_True in Hst by done. destruct Hst as [Hbo Hst]. destruct (Hlt j Hj) as [p Ep].
    split_and!; [|done|exact Hbo]. rewrite Ep. simpl. by eapply list_elem_of_lookup_2.
Qed.
End StartOthers.
End LApicProofs.

(** ** Witnesses: a small machine *)

Record hw := Hw { h_io : Z → Z; h_sel : Z; h_la : Z → Z; h_dest : Z; h_ap : Z → apst }.
Definition put (f : Z → Z) (i v : Z) : Z → Z := λ j, if j =? i then v else f j.
Definition hw0 : hw := Hw (λ r, if r =? 1 then 0x170011 else 0) 0 (λ _, 0) 0 (λ _, Live).
#[local] Instance hw_ports : Ports hw := {| inb _ d := (0, d); outb _ _ d := d |}.
#[local] Instance hw_ioapic : IoApic hw := {|
  ioapic_set_reg r d := Hw (h_io d) r (h_la d) (h_dest d) (h_ap d);
  ioapic_get_data d := (h_io d (h_sel d), d);
  ioapic_set_data v d := Hw (put (h_io d) (h_sel d) v) (h_sel d) (h_la d) (h_dest d) (h_ap d) |}.
#[local] Instance hw_ioapic_ok : IoApicOk hw.
Proof. refine {| ioa_reg := h_io; ioa_sel := h_sel |}; done. Defined.
#[local] Instance hw_lapic : LApic hw := {|
  lapic_get i d := (if i =? ICRLO then 0 else h_la d i, d);
  lapic_set i v d :=
    let d1 := Hw (h_io d) (h_sel d) (put (h_la d) i v) (h_dest d) (h_ap d) in
    if i =? ICRHI then Hw (h_io d) (h_sel d) (h_la d1) (Z.shiftr v 24) (h_ap d)
    else if (i =? ICRLO) && (Z.land v 0xC0000 =? 0) then
      Hw (h_io d) (h_sel d) (h_la d1) (h_dest d) (λ id, if id =? h_dest d then ipi v (h_ap d id) else h_ap d id)
    else d1 |}.
#[local] Instance hw_lapic_ok : LApicOk hw.
Proof.
  refine {| ap_state := h_ap; icr_dest := h_dest; la_reg := h_la; la_busy _ := 0%nat |}; try done.
  - intros i v d j _. unfold lapic_set, hw_lapic, put. destruct (i =? ICRHI); [done|]. by destruct (_ && _).
  - intros v d Hv. unfold lapic_set, hw_lapic. by rewrite Hv.
  - intros i v d Hlo Hhi. unfold lapic_set, hw_lapic. by rewrite (proj2 (Z.eqb_neq _ _) Hlo), (proj2 (Z.eqb_neq _ _) Hhi).
Defined.

(** A machine with the tables of its firmware at 0xF0000: one processor, an I/O
    APIC and an entry of type [t]. *)
Definition firmware (t check : Z) : mem := λ x,
  nth (Z.to_nat (x - 0x800F0000)) [95; 77; 80; 95; 0x10; 0; 0x0F; 0; 1; 4; 128 + 1; 0; 0; 0; 0; 0;
    80; 67; 77; 80; 80; 0; 4; check; 0;0;0;0;0;0;0;0;0;0;0;0;0;0;0;0;0;0;0;0; 0;0;0;0; 0;0; 0;0; 0;0;0xE0;0xFE; 0;0; 0; 0;
    0; 1; 0;0;0;0;0;0;0;0;0;0;0;0;0;0;0;0;0;0;
    2; 2; 0;0;0;0;0;0;  t; 0;0;0;0;0;0;0] 0.
Definition smp0 (m : mem) : smp hw := Smp (replicate 8 0) [] 0 0 0 m [] hw0 [] 0.

Lemma mpinit_finds_witness :
  ∃ s', mpinit 3 (smp0 (firmware 1 152)) = Ok (tt, s') ∧ ncpu s' = 1 ∧ take 1 (apicids s') = [1] ∧ ioapicid s' = 2.
Proof.
  destruct (mpinit_finds (smp0 (firmware 1 152)) 0x800F0000 0x800F0010 [EProc 1; EIoapic 2; EOther 1] 3) as (s' & E & _ & Hn & Ht & Hi).
  - vm_compute. reflexivity.
  - vm_compute. split_and!; try reflexivity. left. reflexivity.
  - reflexivity.
  - reflexivity.
  - reflexivity.
  - exists s'. split; [exact E|]. rewrite Hn in *. split; [reflexivity|]. split; [exact Ht|exact Hi].
Defined.

Lemma mpinit_hangs_witness : mpinit 1000 (smp0 (firmware 9 144)) = Block.
Proof.
  apply (mpinit_hangs (smp0 (firmware 9 144)) 0x800F0000 0x800F0010 [EProc 1; EIoapic 2] 0x800F0058).
  - vm_compute. reflexivity.
  - vm_compute. split_and!; reflexivity.
  - reflexivity.
  - apply (bool_decide_unpack _). vm_compute. exact I.
Defined.

Definition silent (_ : string) : M (smp hw) unit := mret tt.
Lemma silent_ok msg s : ∃ d, silent msg s = Ok (tt, set_sdev d s) ∧ ioa_reg d = ioa_reg (sdev s).
Proof. exists (sdev s). split; [by destruct s|reflexivity]. Qed.

Lemma ioapic_routes_witness :
  ∃ s', (ioapicinit silent;; enable_all [(1, 0); (14, 1)]) (smp0 (λ _, 0)) = Ok (tt, s') ∧
    delivers (sdev s') 14 = Some (46, 1) ∧ delivers (sdev s') 4 = None.
Proof.
  destruct (ioapic_routes silent silent_ok (smp0 (λ _, 0)) [(1, 0); (14, 1)]) as (s' & E & Hd).
  - reflexivity.
  - apply (bool_decide_unpack _). vm_compute. exact I.
  - exists s'. split; [exact E|]. split; [apply (Hd 14)|apply (Hd 4)]; by vm_compute.
Defined.

(** A schedule in which every act of every processor comes up again and again. *)
Definition turn (t : nat) : apact :=
  let i := Nat.div2 t in
  (if Nat.even t then ApBoot else ApUp) (i - Nat.sqrt i * Nat.sqrt i)%nat.
Lemma turn_fair : fair turn.
Proof.
  assert (Hsq : ∀ n c, (c ≤ n)%nat → (n * n + c - Nat.sqrt (n * n + c) * Nat.sqrt (n * n + c) = c)%nat).
  { intros n c Hc. rewrite (Nat.sqrt_unique (n * n + c) n) by nia. lia. }
  intros t [c|c].
  - exists (2 * ((t + c) * (t + c) + c))%nat. split; [nia|]. unfold turn. rewrite Nat.div2_double.
    rewrite Hsq by lia. by rewrite Nat.even_even.
  - exists (S (2 * ((t + c) * (t + c) + c)))%nat. split; [nia|]. unfold turn. rewrite Nat.div2_succ_double.
    rewrite Hsq by lia. by rewrite Nat.even_succ, Nat.odd_even.
Qed.
Definition smp2 : smp hw := Smp [0; 1] [false; false] 2 0 1 (λ _, 0) [0x80200000; 0x80300000] hw0 [None; None] 0.

Lemma startothers_boots_witness :
  ∃ k0 s', (∀ k, (k0 ≤ k)%nat → startothers turn 0x80100000 4 0x80101000 0x80102000 [0; 0; 0; 0] k 0 smp2 = Ok (tt, s')) ∧
    started s' !! 1%nat = Some true.
Proof.
  destruct (startothers_boots turn 0x80100000 4 0x80101000 0x80102000 [0; 0; 0; 0] 2 [0; 1] [0x80200000; 0x80300000] 0) with (s := smp2)
    as (k0 & s' & Hk & stack & _ & Hup).
  - intros [|[|j]] id Hj; simpl; intros [= <-] || lia; lia.
  - intros [|[|i]] [|[|j]] id Hi Hj; simpl; intros; simplify_eq; lia || done.
  - repeat constructor; unfold KSTACKSIZE; lia.
  - unfold is_u32; lia.
  - exact turn_fair.
  - reflexivity.
  - reflexivity.
  - reflexivity.
  - reflexivity.
  - intros [|[|j]] Hj; [exists 0|exists 1|lia]; split_and!; reflexivity || discriminate.
  - reflexivity.
  - apply (bool_decide_unpack _). vm_compute. exact I.
  - reflexivity.
  - reflexivity.
  - lia.
  - exists k0, s'. split; [exact Hk|]. apply (Hup 1%nat); lia.
Defined.
