(* ===== verification/User.v ===== *)
(** * User programs

    A user program as the tree of its system calls: each call is followed by
    what the program does with the result and the data the kernel hands back.
    Modelled this way are the output routine of [printf.c] and the wrappers
    [gets] and [stat] of [ulib.c], and the programs [init.c], [cat.c],
    [echo.c], [kill.c], [ln.c], [mkdir.c], [rm.c], [ls.c], [zombie.c] and the
    small programs that exercise the added system calls.

    Programs run in a pool of processes with descriptor tables, interleaved in
    any order; a run of the pool is shown to be a tree of runs of its
    processes, which is what the theorems about programs use. *)

From S2P Require Import Prelude Machine Str Printf.
Local Open Scope Z_scope.

(** ** System calls and programs *)

Notation cstr := (list Z).
(** The calls of [user.h], with what the program passes in memory. *)
Inductive call :=
  | SFork | SWait | SPipe | SGetpid | SUptime
  | SRead (fd n : Z) | SWrite (fd : Z) (bytes : list Z) | SClose (fd : Z) | SDup (fd : Z)
  | SKill (pid : Z) | SExec (path : cstr) (argv : list cstr) | SOpen (path : cstr) (mode : Z)
  | SMknod (path : cstr) (major minor : Z) | SUnlink (path : cstr) | SFstat (fd : Z)
  | SLink (old new : cstr) | SMkdir (path : cstr) | SChdir (path : cstr) | SSbrk (n : Z) | SSleep (n : Z)
  | SPrintInfo | SChangeQueue (pid q : Z) | SBjfProcess (pid a b c d : Z) | SBjfSystem (a b c d : Z)
  | SLifetime (pid : Z) | SUncleCount (pid : Z) | SGetPid | SCopyFile (src dst : cstr)
  | SDigitalRoot (ebx : Z) | SPlockTest | SOpenShm (id : Z) | SCloseShm (id : Z) | SAcquireUser | SReleaseUser.
(** A program returns, exits, goes on for ever (or longer than its bound), or
    makes a call; [k r data] is the rest, with the result in [eax] and what
    the call wrote to the program's memory. *)
Inductive prog (A : Type) :=
  | Ret (a : A)
  | Exit
  | Loop
  | Sys (c : call) (k : Z → list Z → prog A).
Arguments Ret {_} _.
Arguments Exit {_}.
Arguments Loop {_}.
Arguments Sys {_} _ _.
Fixpoint then_ {A B} (p : prog A) (f : A → prog B) : prog B :=
  match p with
  | Ret a => f a
  | Exit => Exit
  | Loop => Loop
  | Sys c k => Sys c (λ r d, then_ (k r d) f)
  end.
Global Instance prog_bind : MBind prog := λ A B f p, then_ p f.
Definition sys (c : call) : prog Z := Sys c (λ r _, Ret r).
Definition sysdata (c : call) : prog (Z * list Z) := Sys c (λ r d, Ret (r, d)).

(** ** The user library *)

(** [printf]: the arguments, numbers or strings; each character is a [write]
    of one byte. *)
Inductive parg := PInt (z : Z) | PStr (s : cstr).
Definition pargs_ap (args : list parg) (n : nat) : Z :=
  match nth_error args n with Some (PInt z) => z | _ => Z.of_nat n + 1 end.
Definition pargs_str (args : list parg) (a : Z) : cstr :=
  match nth_error args (Z.to_nat (a - 1)) with Some (PStr s) => s | _ => [] end.
Definition putc (fd c : Z) : prog Z := sys (SWrite fd [c]).
Fixpoint putcs (fd : Z) (out : list Z) : prog unit :=
  match out with [] => Ret tt | c :: out' => putc fd c;; putcs fd out' end.
Definition printf (fd : Z) (fmt : list Z) (args : list parg) : prog unit :=
  match uprintf (pargs_ap args) (pargs_str args) fmt false 0 with Some out => putcs fd out | None => Loop end.

(** [gets]: the characters placed in the buffer before its terminator. *)
Fixpoint gets_loop (k : nat) (buf : cstr) : prog cstr :=
  match k with
  | O => Ret buf
  | S k' =>
      r ← sysdata (SRead 0 1);
      if r.1 <? 1 then Ret buf else
      let c := nth 0 r.2 0 in
      let buf := buf ++ [c] in
      if (c =? 10) || (c =? 13) then Ret buf else gets_loop k' buf
  end.
Definition gets (max : Z) : prog cstr := gets_loop (Z.to_nat (max - 1)) [].
(** [struct stat]: type, inode number, size. *)
Record ustat := Stat { st_type : Z; st_ino : Z; st_size : Z }.
Definition to_stat (d : list Z) : ustat := Stat (nth 0 d 0) (nth 1 d 0) (nth 2 d 0).
Definition fstat (fd : Z) : prog (Z * ustat) := r ← sysdata (SFstat fd); Ret (r.1, to_stat r.2).
Definition stat (path : cstr) : prog (Z * ustat) :=
  fd ← sys (SOpen path O_RDONLY);
  if fd <? 0 then Ret (-1, Stat 0 0 0) else
  r ← fstat fd;
  sys (SClose fd);;
  Ret r.
(** [atoi] on a word. *)
Fixpoint word_value (n : Z) (s : cstr) : Z :=
  match s with c :: s' => if (48 <=? c) && (c <=? 57) then word_value (sint32 (n * 10 + c - 48)) s' else n | [] => n end.
Definition atoi_word (s : cstr) : Z := word_value 0 s.

(** ** Programs *)

(** [main]'s arguments; [wild i] is what [argv[i]] points to past the end. *)
Section Programs.
Variable wild : nat → cstr.
Definition argn (argv : list cstr) (i : nat) : cstr := match argv !! i with Some a => a | None => wild i end.
Definition argc (argv : list cstr) : Z := Z.of_nat (length argv).

(** [cat.c]; [k] bounds the number of reads. *)
Fixpoint cat (k : nat) (fd : Z) : prog unit :=
  match k with
  | O => Loop
  | S k' =>
      r ← sysdata (SRead fd 512);
      let n := r.1 in
      if 0 <? n then
        w ← sys (SWrite 1 (take (Z.to_nat n) r.2));
        if negb (w =? n) then printf 1 (chars "cat: write error" ++ [10]) [];; Exit
        else cat k' fd
      else if n <? 0 then printf 1 (chars "cat: read error" ++ [10]) [];; Exit
      else Ret tt
  end.
Fixpoint cat_files (k : nat) (files : list cstr) : prog unit :=
  match files with
  | [] => Exit
  | f :: files' =>
      fd ← sys (SOpen f 0);
      if fd <? 0 then printf 1 (chars "cat: cannot open %s" ++ [10]) [PStr f];; Exit else
      cat k fd;; sys (SClose fd);; cat_files k files'
  end.
Definition cat_main (k : nat) (argv : list cstr) : prog unit :=
  if argc argv <=? 1 then cat k 0;; Exit else cat_files k (tail argv).

(** [echo.c] *)
Fixpoint echo_loop (args : list cstr) : prog unit :=
  match args with
  | [] => Ret tt
  | a :: rest => printf 1 (chars "%s%s") [PStr a; PStr (match rest with [] => [10] | _ => [32] end)];; echo_loop rest
  end.
Definition echo (argv : list cstr) : prog unit := echo_loop (tail argv);; Exit.
(** [kill.c] *)
Fixpoint kill_loop (args : list cstr) : prog unit :=
  match args with [] => Ret tt | a :: rest => sys (SKill (atoi_word a));; kill_loop rest end.
Definition kill_main (argv : list cstr) : prog unit :=
  if argc argv <? 2 then printf 2 (chars "usage: kill pid..." ++ [10]) [];; Exit else kill_loop (tail argv);; Exit.
(** [ln.c] *)
Definition ln (argv : list cstr) : prog unit :=
  if negb (argc argv =? 3) then printf 2 (chars "Usage: ln old new" ++ [10]) [];; Exit else
  r ← sys (SLink (argn argv 1) (argn argv 2));
  (if r <? 0 then printf 2 (chars "link %s %s: failed" ++ [10]) [PStr (argn argv 1); PStr (argn argv 2)] else Ret tt);;
  Exit.
(** [mkdir.c] and [rm.c]: the loop stops at the first failure. *)
Fixpoint mkdir_loop (args : list cstr) : prog unit :=
  match args with
  | [] => Ret tt
  | a :: rest =>
      r ← sys (SMkdir a);
      if r <? 0 then printf 2 (chars "mkdir: %s failed to create" ++ [10]) [PStr a] else mkdir_loop rest
  end.
Definition mkdir (argv : list cstr) : prog unit :=
  if argc argv <? 2 then printf 2 (chars "Usage: mkdir files..." ++ [10]) [];; Exit else mkdir_loop (tail argv);; Exit.
Fixpoint rm_loop (args : list cstr) : prog unit :=
  match args with
  | [] => Ret tt
  | a :: rest =>
      r ← sys (SUnlink a);
      if r <? 0 then printf 2 (chars "rm: %s failed to delete" ++ [10]) [PStr a] else rm_loop rest
  end.
Definition rm (argv : list cstr) : prog unit :=
  if argc argv <? 2 then printf 2 (chars "Usage: rm files..." ++ [10]) [];; Exit else rm_loop (tail argv);; Exit.
(** [zombie.c] *)
Definition zombie : prog unit :=
  pid ← sys SFork;
  (if 0 <? pid then sys (SSleep 5) else Ret 0);;
  Exit.

(** [ls.c] *)
Fixpoint after_slash (acc path : cstr) : cstr :=
  match path with [] => acc | c :: p => if c =? 47 then after_slash p p else after_slash acc p end.
Definition fmtname (path : cstr) : cstr :=
  let p := after_slash path path in
  if (Z.to_nat DIRSIZ <=? length p)%nat then p else p ++ replicate (Z.to_nat DIRSIZ - length p) 32.
Definition ls_print (path : cstr) (st : ustat) : prog unit :=
  printf 1 (chars "%s %d %d %d" ++ [10]) [PStr (fmtname path); PInt (st_type st); PInt (st_ino st); PInt (st_size st)].
(** The loop over the entries of a directory; [k] bounds their number. *)
Fixpoint ls_entries (k : nat) (path : cstr) (fd : Z) : prog unit :=
  match k with
  | O => Loop
  | S k' =>
      r ← sysdata (SRead fd 16);
      if negb (r.1 =? 16) then Ret tt else
      let inum := nth 0 r.2 0 + 256 * nth 1 r.2 0 in
      if inum =? 0 then ls_entries k' path fd else
      let buf := path ++ [47] ++ until_nul (take (Z.to_nat DIRSIZ) (drop 2 r.2)) in
      st ← stat buf;
      (if st.1 <? 0 then printf 1 (chars "ls: cannot stat %s" ++ [10]) [PStr buf] else ls_print buf st.2);;
      ls_entries k' path fd
  end.
Definition ls (k : nat) (path : cstr) : prog unit :=
  fd ← sys (SOpen path 0);
  if fd <? 0 then printf 2 (chars "ls: cannot open %s" ++ [10]) [PStr path] else
  st ← fstat fd;
  if st.1 <? 0 then printf 2 (chars "ls: cannot stat %s" ++ [10]) [PStr path];; sys (SClose fd);; Ret tt else
  (if st_type st.2 =? T_FILE then ls_print path st.2
   else if st_type st.2 =? T_DIR then
     (if 512 <? Z.of_nat (length path) + 1 + DIRSIZ + 1 then printf 1 (chars "ls: path too long" ++ [10]) []
      else ls_entries k path fd)
   else Ret tt);;
  sys (SClose fd);;
  Ret tt.
Fixpoint ls_all (k : nat) (paths : list cstr) : prog unit :=
  match paths with [] => Ret tt | p :: rest => ls k p;; ls_all k rest end.
Definition ls_main (k : nat) (argv : list cstr) : prog unit :=
  if argc argv <? 2 then ls k [46];; Exit else ls_all k (tail argv);; Exit.

(** [init.c]; [garbage] is what the missing argument of its [printf] reads. *)
Fixpoint init_wait (k : nat) (pid : Z) : prog unit :=
  match k with
  | O => Loop
  | S k' => wpid ← sys SWait; if (0 <=? wpid) && negb (wpid =? pid) then init_wait k' pid else Ret tt
  end.
Fixpoint init_loop (garbage : Z) (k : nat) : prog unit :=
  match k with
  | O => Loop
  | S k' =>
      printf 1 (chars "init: starting sh%d" ++ [10]) [PInt garbage];;
      pid ← sys SFork;
      if pid <? 0 then printf 1 (chars "init: fork failed" ++ [10]) [];; Exit else
      if pid =? 0 then
        sys (SExec (chars "sh") [chars "sh"]);; printf 1 (chars "init: exec sh failed" ++ [10]) [];; Exit
      else init_wait k pid;; init_loop garbage k'
  end.
Definition init (garbage : Z) (k : nat) : prog unit :=
  fd ← sys (SOpen (chars "console") O_RDWR);
  (if fd <? 0 then sys (SMknod (chars "console") 1 1);; sys (SOpen (chars "console") O_RDWR) else Ret 0);;
  sys (SDup 0);; sys (SDup 0);;
  init_loop garbage k.

(** *** Programs for the added system calls *)

(** [copy.c] *)
Definition copy (argv : list cstr) : prog unit :=
  a ← sys (SCopyFile (argn argv 1) (argn argv 2));
  (if a =? 1 then printf 1 (chars "copying failed" ++ [10]) [] else Ret tt);;
  Exit.
(** [fdr.c]: the number is passed in [ebx]. *)
Definition fdr (argv : list cstr) : prog unit :=
  if argc argv <? 2 then Exit else
  let number := atoi_word (argn argv 1) in
  r ← sys (SDigitalRoot number);
  printf 1 (chars "digtal root is %d" ++ [10]) [PInt r];;
  Exit.
(** [foo.c]: two processes that never stop. *)
Definition foo : prog unit := i ← sys SFork; if i =? 0 then Loop else Loop.
(** [get_uncle.c] *)
Definition get_uncle : prog unit :=
  f ← sys SFork;
  s ← (if negb (f =? 0) then sys SFork else Ret (-1));
  third ← (if negb (f =? 0) && negb (s =? 0) then sys SFork else Ret (-1));
  (if (third =? 0) && negb (f =? 0) && negb (s =? 0) then
     tc ← sys SFork;
     if negb (tc =? 0) then r ← sys (SUncleCount tc); printf 1 (chars "%d") [PInt r] else Ret tt
   else Ret tt);;
  sys (SSleep 10);;
  Exit.
(** [bjf_proc.c], [bjf_sys.c]: with too few arguments [main] returns. *)
Definition bjf_proc (argv : list cstr) : prog Z :=
  if argc argv <? 6 then printf 1 (chars "not enough args" ++ [10]) [];; Ret 1 else
  let n i := atoi_word (argn argv i) in
  sys (SBjfProcess (n 1%nat) (n 2%nat) (n 3%nat) (n 4%nat) (n 5%nat));;
  Exit.
Definition bjf_sys (argv : list cstr) : prog Z :=
  if argc argv <? 5 then printf 1 (chars "not enough args" ++ [10]) [];; Ret 1 else
  let n i := atoi_word (argn argv i) in
  sys (SBjfSystem (n 1%nat) (n 2%nat) (n 3%nat) (n 4%nat));;
  Exit.
(** [change_que.c], [print_test.c], [proces_lifetime.c] *)
Definition change_que (argv : list cstr) : prog unit :=
  sys (SChangeQueue (atoi_word (argn argv 1)) (atoi_word (argn argv 2)));; Exit.
Definition print_test : prog unit :=
  pid ← sys SGetPid; sys (SChangeQueue pid 1);; sys SPrintInfo;; Exit.
Definition proces_lifetime : prog unit :=
  child ← sys SFork;
  if child =? 0 then
    sys (SSleep 10);; p ← sys SGetPid; l ← sys (SLifetime p);
    printf 1 (chars "child life :%d" ++ [10]) [PInt l];; Exit
  else
    sys (SSleep 50);; p ← sys SGetPid; l ← sys (SLifetime p);
    printf 1 (chars "parent life_time : %d") [PInt l];; Exit.
(** [lock_test.c] *)
Definition lock_test : prog unit :=
  f ← sys SFork;
  (if negb (f =? 0) then
     s ← sys SFork;
     if negb (s =? 0) then
       t ← sys SFork;
       if negb (t =? 0) then e ← sys SFork; (if negb (e =? 0) then sys (SSleep 100) else Ret 0) else Ret 0
     else Ret 0
   else Ret 0);;
  sys SPlockTest;;
  Exit.

(** *** Programs that load the kernel *)

(** [forktest.c], with its own [printf]. *)
Definition fprint (s : cstr) : prog unit := sys (SWrite 1 s);; Ret tt.
Fixpoint forks (n : nat) (done_ : Z) : prog Z :=
  match n with
  | O => Ret done_
  | S n' =>
      pid ← sys SFork;
      if pid <? 0 then Ret done_ else if pid =? 0 then Exit else forks n' (done_ + 1)
  end.
Fixpoint waits (n : nat) : prog unit :=
  match n with
  | O => Ret tt
  | S n' => r ← sys SWait; if r <? 0 then fprint (chars "wait stopped early" ++ [10]);; Exit else waits n'
  end.
Definition forktest : prog unit :=
  fprint (chars "fork test" ++ [10]);;
  n ← forks 1000 0;
  if n =? 1000 then fprint (chars "fork claimed to work N times!" ++ [10]);; Exit else
  waits (Z.to_nat n);;
  r ← sys SWait;
  if negb (r =? -1) then fprint (chars "wait got too many" ++ [10]);; Exit else
  fprint (chars "fork test OK" ++ [10]).
Definition forktest_main : prog unit := forktest;; Exit.
(** [stressfs.c] *)
Fixpoint repeat_sys (n : nat) (c : call) : prog unit :=
  match n with O => Ret tt | S n' => sys c;; repeat_sys n' c end.
Fixpoint stress_forks (n : nat) (i : Z) : prog Z :=
  match n with O => Ret i | S n' => pid ← sys SFork; if 0 <? pid then Ret i else stress_forks n' (i + 1) end.
Definition stressfs : prog unit :=
  printf 1 (chars "stressfs starting" ++ [10]) [];;
  i ← stress_forks 4 0;
  printf 1 (chars "write %d" ++ [10]) [PInt i];;
  let path := chars "stressfs" ++ [48 + i] in
  fd ← sys (SOpen path (Z.lor O_CREATE O_RDWR));
  repeat_sys 20 (SWrite fd (replicate 512 97));;
  sys (SClose fd);;
  printf 1 (chars "read" ++ [10]) [];;
  fd ← sys (SOpen path O_RDONLY);
  repeat_sys 20 (SRead fd 512);;
  sys (SClose fd);;
  sys SWait;;
  Exit.
End Programs.

(** ** Processes and their descriptors *)

(** What a descriptor refers to. *)
Inductive desc := DFile (path : cstr) (mode : Z) | DPipeR (id : nat) | DPipeW (id : nat).
Notation fds := (list (option desc)).
(** The lowest free descriptor. *)
Fixpoint first_free (f : fds) : option nat :=
  match f with [] => None | None :: _ => Some O | Some _ :: f' => S <$> first_free f' end.
(** The descriptor [fd] of the table. *)
Definition fd_of (f : fds) (fd : Z) : option desc := if fd <? 0 then None else mjoin (f !! Z.to_nat fd).

(** What a call other than [fork] and [exec] returns and does to the caller's
    table; a new pipe is called [id].  [open] and [pipe] may fail for other
    reasons than the table, and then leave it as it is. *)
Inductive effect (id : nat) : fds → call → Z → list Z → fds → Prop :=
  | eff_open f path mode i : first_free f = Some i →
      effect id f (SOpen path mode) (Z.of_nat i) [] (<[i := Some (DFile path mode)]> f)
  | eff_dup f fd d i : fd_of f fd = Some d → first_free f = Some i →
      effect id f (SDup fd) (Z.of_nat i) [] (<[i := Some d]> f)
  | eff_close f fd d : fd_of f fd = Some d → effect id f (SClose fd) 0 [] (<[Z.to_nat fd := None]> f)
  | eff_pipe f i j : first_free f = Some i → first_free (<[i := Some (DPipeR id)]> f) = Some j →
      effect id f SPipe 0 [Z.of_nat i; Z.of_nat j] (<[j := Some (DPipeW id)]> (<[i := Some (DPipeR id)]> f))
  | eff_fail f c d :
      match c with
      | SClose fd => fd_of f fd = None
      | SDup fd => fd_of f fd = None ∨ first_free f = None
      | SOpen _ _ | SPipe => True
      | _ => False
      end → effect id f c (-1) d f
  | eff_other f c r d : match c with SOpen _ _ | SDup _ | SClose _ | SPipe => False | _ => True end → effect id f c r d f.
Definition plain_call (c : call) : bool := match c with SFork | SExec _ _ => false | _ => true end.
Definition pipe_call (c : call) : bool := match c with SPipe => true | _ => false end.

(** The pool: the name of the next pipe, the names used so far, the programs
    executed so far with their descriptors, and the processes. *)
Record event := Ev { ev_path : cstr; ev_argv : list cstr; ev_fds : fds }.
Record pool := Pool { p_next : nat; p_pipes : list nat; p_execs : list event; p_procs : list (fds * prog unit) }.
Inductive step : pool → pool → Prop :=
  | step_call n ids es l r f c k v d f' : plain_call c = true → effect n f c v d f' →
      step (Pool n ids es (l ++ (f, Sys c k) :: r))
        (Pool (if pipe_call c then S n else n) (if pipe_call c then n :: ids else ids) es (l ++ (f', k v d) :: r))
  | step_fork n ids es l r f k pid : 0 < pid →
      step (Pool n ids es (l ++ (f, Sys SFork k) :: r)) (Pool n ids es (l ++ (f, k pid []) :: (f, k 0 []) :: r))
  | step_fork_fail n ids es l r f k :
      step (Pool n ids es (l ++ (f, Sys SFork k) :: r)) (Pool n ids es (l ++ (f, k (-1) []) :: r))
  | step_exec n ids es l r f path argv k :
      step (Pool n ids es (l ++ (f, Sys (SExec path argv) k) :: r)) (Pool n ids (Ev path argv f :: es) (l ++ r))
  | step_exec_fail n ids es l r f path argv k :
      step (Pool n ids es (l ++ (f, Sys (SExec path argv) k) :: r)) (Pool n ids es (l ++ (f, k (-1) []) :: r)).

(** One process and its descendants, as a tree: the pipes made and the
    programs executed.  A process may stop anywhere. *)
Inductive runs : fds → prog unit → list nat → list event → Prop :=
  | runs_stop f p : runs f p [] []
  | runs_call n f c k v d f' ids es : plain_call c = true → effect n f c v d f' → runs f' (k v d) ids es →
      runs f (Sys c k) (if pipe_call c then n :: ids else ids) es
  | runs_fork f k pid ids1 es1 ids2 es2 : 0 < pid → runs f (k pid []) ids1 es1 → runs f (k 0 []) ids2 es2 →
      runs f (Sys SFork k) (ids1 ++ ids2) (es1 ++ es2)
  | runs_fork_fail f k ids es : runs f (k (-1) []) ids es → runs f (Sys SFork k) ids es
  | runs_exec f path argv k : runs f (Sys (SExec path argv) k) [] [Ev path argv f]
  | runs_exec_fail f path argv k ids es : runs f (k (-1) []) ids es → runs f (Sys (SExec path argv) k) ids es.
(** The trees of several processes. *)
Inductive all_run : list (fds * prog unit) → list nat → list event → Prop :=
  | all_nil : all_run [] [] []
  | all_cons f p ps ids1 es1 ids es : runs f p ids1 es1 → all_run ps ids es → all_run ((f, p) :: ps) (ids1 ++ ids) (es1 ++ es).

Lemma all_run_stop ps : all_run ps [] [].
Proof. induction ps as [|[f p] ps IH]; [constructor|]. apply (all_cons f p ps [] [] [] []); [constructor|done]. Qed.
Lemma all_run_app l r ids es : all_run (l ++ r) ids es →
  ∃ i1 e1 i2 e2, all_run l i1 e1 ∧ all_run r i2 e2 ∧ ids = i1 ++ i2 ∧ es = e1 ++ e2.
Proof.
  revert ids es. induction l as [|[f p] l IH]; intros ids es H.
  - exists [], [], ids, es. split_and!; try done. constructor.
  - inversion H as [|? ? ? i1 e1 i2 e2 Hp Hl]; subst. destruct (IH _ _ Hl) as (i3 & e3 & i4 & e4 & H1 & H2 & -> & ->).
    exists (i1 ++ i3), (e1 ++ e3), i4, e4. rewrite !app_assoc. split_and!; try done. by constructor.
Qed.
Lemma all_run_join l r i1 e1 i2 e2 : all_run l i1 e1 → all_run r i2 e2 → all_run (l ++ r) (i1 ++ i2) (e1 ++ e2).
Proof. induction 1; intros Hr; [done|]. rewrite <- !app_assoc. constructor; auto. Qed.
(** The tree of the process that made a step, from the trees after it. *)
Lemma all_run_replace l r f p ids es ids0 es0 qs : all_run (l ++ qs ++ r) ids es →
  (∀ i e, all_run qs i e → ∃ i' e', runs f p i' e' ∧ i' ≡ₚ ids0 ++ i ∧ e' ≡ₚ es0 ++ e) →
  ∃ ids' es', all_run (l ++ (f, p) :: r) ids' es' ∧ ids' ≡ₚ ids0 ++ ids ∧ es' ≡ₚ es0 ++ es.
Proof.
  intros H Hq. destruct (all_run_app _ _ _ _ H) as (i1 & e1 & i2 & e2 & H1 & H2 & -> & ->).
  destruct (all_run_app _ _ _ _ H2) as (i3 & e3 & i4 & e4 & H3 & H4 & -> & ->). destruct (Hq _ _ H3) as (i' & e' & Hr & Hi & He).
  exists (i1 ++ i' ++ i4), (e1 ++ e' ++ e4). split; [apply all_run_join; [done|by constructor]|]. rewrite Hi, He. split; solve_Permutation.
Qed.
Lemma all_run_one f p ids es : all_run [(f, p)] ids es → runs f p ids es.
Proof. intros H. inversion H as [|? ? ? i1 e1 i2 e2 Hp Hl]; subst. inversion Hl; subst. by rewrite !app_nil_r. Qed.
(** A run of the pool, in any interleaving, is a tree for each process. *)
Lemma step_runs P P' ids es : step P P' → all_run (p_procs P') ids es →
  ∃ ids0 es0 ids' es', p_pipes P' = ids0 ++ p_pipes P ∧ p_execs P' = es0 ++ p_execs P ∧
    all_run (p_procs P) ids' es' ∧ ids' ≡ₚ ids0 ++ ids ∧ es' ≡ₚ es0 ++ es.
Proof.
  intros Hs H. destruct Hs as [n jds fs l r f c k v d f' Hc He|n jds fs l r f k pid Hp|n jds fs l r f k|n jds fs l r f path argv k|n jds fs l r f path argv k];
    cbn [p_procs p_pipes p_execs] in *.
  - exists (if pipe_call c then [n] else []), []. destruct (all_run_replace l r f (Sys c k) ids es (if pipe_call c then [n] else []) [] [(f', k v d)] H) as (i' & e' & H1 & H2).
    { intros i e Hq%all_run_one. exists (if pipe_call c then n :: i else i), e. split; [by eapply runs_call|]. by destruct (pipe_call c). }
    exists i', e'. split; [by destruct (pipe_call c)|]. split; done.
  - exists [], []. destruct (all_run_replace l r f (Sys SFork k) ids es [] [] [(f, k pid []); (f, k 0 [])] H) as (i' & e' & H1 & H2).
    { intros i e Hq. inversion Hq as [|? ? ? i1 e1 i2 e2 Ha Hb]; subst. apply all_run_one in Hb.
      exists (i1 ++ i2), (e1 ++ e2). split; [by eapply runs_fork|done]. }
    by exists i', e'.
  - exists [], []. destruct (all_run_replace l r f (Sys SFork k) ids es [] [] [(f, k (-1) [])] H) as (i' & e' & H1 & H2).
    { intros i e Hq%all_run_one. exists i, e. split; [by apply runs_fork_fail|done]. }
    by exists i', e'.
  - exists [], [Ev path argv f]. destruct (all_run_replace l r f (Sys (SExec path argv) k) ids es [] [Ev path argv f] [] H) as (i' & e' & H1 & H2).
    { intros i e Hq. inversion Hq; subst. eexists _, _. split; [apply runs_exec|done]. }
    by exists i', e'.
  - exists [], []. destruct (all_run_replace l r f (Sys (SExec path argv) k) ids es [] [] [(f, k (-1) [])] H) as (i' & e' & H1 & H2).
    { intros i e Hq%all_run_one. exists i, e. split; [by apply runs_exec_fail|done]. }
    by exists i', e'.
Qed.
Lemma pool_runs P P' : rtc step P P' → ∃ ids es, all_run (p_procs P) ids es ∧
  p_pipes P' ≡ₚ ids ++ p_pipes P ∧ p_execs P' ≡ₚ es ++ p_execs P.
Proof.
  induction 1 as [P|P Q R Hs _ (ids & es & H1 & H2 & H3)].
  - exists [], []. split; [apply all_run_stop|done].
  - destruct (step_runs _ _ _ _ Hs H1) as (i0 & e0 & i' & e' & E1 & E2 & Hr & Hi & He). exists i', e'. split; [done|].
    rewrite H2, H3, E1, E2, Hi, He. split; solve_Permutation.
Qed.
(** Pipes have different names. *)
Lemma pipes_NoDup P P' : rtc step P P' → NoDup (p_pipes P) → Forall (λ i, i < p_next P)%nat (p_pipes P) → NoDup (p_pipes P').
Proof.
  induction 1 as [P|P Q R Hs _ IH]; intros Hn Hb; [done|]. apply IH; destruct Hs; cbn in *; try done;
    destruct (pipe_call c); try done.
  - apply NoDup_cons. split; [|done]. intros Hin. rewrite Forall_forall in Hb. apply Hb in Hin. lia.
  - constructor; [lia|]. eapply Forall_impl; [done|]. simpl. lia.
Qed.
(** A single process, started with no pipe made yet. *)
Lemma process_runs f p P : rtc step (Pool 0 [] [] [(f, p)]) P →
  ∃ ids es, runs f p ids es ∧ NoDup ids ∧ p_pipes P ≡ₚ ids ∧ p_execs P ≡ₚ es.
Proof.
  intros H. destruct (pool_runs _ _ H) as (ids & es & H1 & H2 & H3). cbn in *. rewrite app_nil_r in H2, H3.
  exists ids, es. split; [by apply all_run_one|]. split; [|done]. rewrite <- H2. eapply pipes_NoDup; [exact H|constructor|constructor].
Qed.

(** *** Reading a run off a program *)

Definition nothing (ids : list nat) (es : list event) : Prop := ids = [] ∧ es = [].
Lemma runs_exit f ids es : runs f Exit ids es → nothing ids es.
Proof. by inversion 1. Qed.
Lemma runs_loop f ids es : runs f Loop ids es → nothing ids es.
Proof. by inversion 1. Qed.
Lemma runs_ret f a ids es : runs f (Ret a) ids es → nothing ids es.
Proof. by inversion 1. Qed.
Lemma runs_sys f c (q : Z → prog unit) ids es : plain_call c = true → pipe_call c = false → runs f (sys c ≫= q) ids es →
  nothing ids es ∨ ∃ n v d f', effect n f c v d f' ∧ runs f' (q v) ids es.
Proof.
  intros Hc Hp H. cbn in H. inversion H as [|n ? ? ? v d f' ids' es' _ He Hr| | | |]; subst; try done; [by left|].
  right. rewrite Hp. by exists n, v, d, f'.
Qed.
Lemma runs_exec_inv f path argv (q : Z → prog unit) ids es : runs f (sys (SExec path argv) ≫= q) ids es →
  nothing ids es ∨ (ids = [] ∧ es = [Ev path argv f]) ∨ runs f (q (-1)) ids es.
Proof.
  intros H. cbn in H. inversion H as [|n ? ? ? v d f' ids' es' Hc| | | |]; subst; try done; [by left|by right; left|by right; right].
Qed.
(** A call that is not about descriptors. *)
Lemma runs_other f c (q : Z → prog unit) ids es : match c with SFork | SExec _ _ | SOpen _ _ | SDup _ | SClose _ | SPipe => False | _ => True end →
  runs f (sys c ≫= q) ids es → ∃ v, runs f (q v) ids es.
Proof.
  intros Hc H. destruct (runs_sys f c q ids es) as [[-> ->]|(n & v & d & f' & He & Hr)]; try (by destruct c).
  - exists 0. constructor.
  - exists v. inversion He; subst; done.
Qed.
Lemma runs_putcs fd out : ∀ f (q : unit → prog unit) ids es, runs f (putcs fd out ≫= q) ids es → runs f (q tt) ids es.
Proof.
  induction out as [|c out IH]; intros f q ids es H; [done|]. apply (IH f q).
  by destruct (runs_other f (SWrite fd [c]) (λ _, putcs fd out ≫= q) ids es) as [v Hv].
Qed.
Lemma runs_printf fd fmt args f (q : unit → prog unit) ids es : runs f (printf fd fmt args ≫= q) ids es → runs f (q tt) ids es.
Proof.
  unfold printf. destruct (uprintf _ _ _ _ _); [apply runs_putcs|]. intros [-> ->]%runs_loop. constructor.
Qed.
(** A program that does not return has no continuation. *)
Fixpoint endless {A} (p : prog A) : Prop :=
  match p with Ret _ => False | Exit | Loop => True | Sys _ k => ∀ r d, endless (k r d) end.
Lemma endless_then {A B} (p : prog A) (q : A → prog B) : (∀ a, endless (q a)) → endless (p ≫= q).
Proof. intros Hq. induction p as [a| | |c k IH]; simpl; auto. Qed.
Lemma runs_endless p : ∀ f (q : unit → prog unit) ids es, endless p → runs f (p ≫= q) ids es → runs f p ids es.
Proof.
  induction p as [a| | |c k IH]; intros f q ids es He H; simpl in *; try done.
  inversion H as [|n ? ? ? v d f' ids' es' Hc Hef Hr|? ? pid i1 e1 i2 e2 Hp H1 H2|? ? i e H1| |? ? ? ? i e H1]; subst.
  - constructor.
  - eapply runs_call; [done..|]. by eapply IH.
  - eapply runs_fork; [done| |]; by eapply IH.
  - apply runs_fork_fail. by eapply IH.
  - apply runs_exec.
  - apply runs_exec_fail. by eapply IH.
Qed.

Lemma runs_assoc {A B} (p : prog A) : ∀ f (q : A → prog B) (q' : B → prog unit) ids es,
  runs f ((p ≫= q) ≫= q') ids es → runs f (p ≫= λ a, q a ≫= q') ids es.
Proof.
  induction p as [a| | |c k IH]; intros f q q' ids es H; try done.
  inversion H as [|n ? ? ? v d f' ids' es' Hc Hef Hr|? ? pid i1 e1 i2 e2 Hp H1 H2|? ? i e H1| |? ? ? ? i e H1]; subst.
  - constructor.
  - cbn. eapply runs_call; [done..|]. by apply IH.
  - cbn. eapply runs_fork; [done| |]; by apply IH.
  - cbn. apply runs_fork_fail. by apply IH.
  - apply runs_exec.
  - cbn. apply runs_exec_fail. by apply IH.
Qed.

(** *** Descriptor tables *)

Lemma first_free_Some f i : first_free f = Some i ↔ f !! i = Some None ∧ ∀ k, (k < i)%nat → ∃ d, f !! k = Some (Some d).
Proof.
  revert i. induction f as [|[d|] f IH]; intros i; simpl.
  - split; [done|]. by intros [H _].
  - rewrite fmap_Some. split.
    + intros (j & Hj & ->). apply IH in Hj as [H1 H2]. split; [done|]. intros [|k] Hk; [by exists d|]. apply H2. lia.
    + intros [H1 H2]. destruct i as [|i]; [done|]. exists i. split; [|done]. apply IH. split; [done|].
      intros k Hk. apply (H2 (S k)). lia.
  - split.
    + intros [= <-]. split; [done|]. lia.
    + intros [H1 H2]. destruct i as [|i]; [done|]. by destruct (H2 0%nat ltac:(lia)).
Qed.
Lemma fd_of_Some f i d : f !! i = Some (Some d) → fd_of f (Z.of_nat i) = Some d.
Proof. intros H. unfold fd_of. rewrite (proj2 (Z.ltb_ge _ _)) by lia. by rewrite Nat2Z.id, H. Qed.
Lemma close_ok n f i d r e f' : f !! i = Some (Some d) → effect n f (SClose (Z.of_nat i)) r e f' → f' = <[i := None]> f.
Proof.
  intros Hi He. apply fd_of_Some in Hi. inversion He; subst; try done; [by rewrite Nat2Z.id|]. simplify_eq.
Qed.
Lemma dup_ok n f i d t r e f' : f !! i = Some (Some d) → first_free f = Some t → effect n f (SDup (Z.of_nat i)) r e f' → f' = <[t := Some d]> f.
Proof. intros Hi Ht He. apply fd_of_Some in Hi. inversion He; subst; try done; [by simplify_eq|]. destruct_or!; simplify_eq. Qed.
