(* ===== verification/Sh.v ===== *)
(** * The shell

    [sh.c]: the lexer and recursive descent parser of the command language, the
    termination of words inside the line, and the interpretation of a command
    as system calls.  The parser is shown to end on every line, to accept every
    well-formed command in whatever spacing and to build the command its
    grammar prescribes; the words it leaves in the buffer are the words of the
    line; a pipeline connects its commands through the pipe and leaves no other
    copy of its ends open.

    Allocation of the command structures is taken to succeed. *)

From S2P Require Import Prelude Machine Str Printf User.
Local Open Scope Z_scope.

(** ** Commands *)

(** A pointer into the line is the number of characters from it to the end. *)
Notation ptr := nat.
Definition MAXARGS : nat := 10.
(** [struct cmd] and its variants; an argument is its [argv] and [eargv]. *)
Inductive cmd :=
  | EXEC (args : list (ptr * ptr))
  | REDIR (c : cmd) (file efile : ptr) (mode fd : Z)
  | PIPE (left right : cmd)
  | LIST (left right : cmd)
  | BACK (c : cmd).

(** ** The lexer *)

(** What is left of the line, from the current position to its end. *)
Notation text := (list Z).
Definition whitespace : list Z := [32; 9; 13; 10; 11].
Definition symbols : list Z := chars "<|>&;()".
Definition is_white (c : Z) : bool := bool_decide (c ∈ whitespace).
Definition is_symbol (c : Z) : bool := bool_decide (c ∈ symbols).

(** [while(s < es && strchr(whitespace, *s)) s++;] *)
Fixpoint skip_white (s : text) : text :=
  match s with c :: s' => if is_white c then skip_white s' else s | [] => [] end.
(** [while(s < es && !strchr(whitespace, *s) && !strchr(symbols, *s)) s++;] *)
Fixpoint skip_word (s : text) : text :=
  match s with c :: s' => if negb (is_white c) && negb (is_symbol c) then skip_word s' else s | [] => [] end.
Record tok := Tok { tk_ret : Z; tk_q : ptr; tk_eq : ptr; tk_rest : text }.
Definition gettoken (s : text) : tok :=
  let s := skip_white s in
  let q := length s in
  let '(ret, s) :=
    match s with
    | [] => (0, [])
    | c :: s' =>
        if bool_decide (c ∈ chars "|();&<") then (c, s')
        else if c =? 62 then
          match s' with
          | d :: s'' => if d =? 62 then (43, s'') else (c, s')
          | [] => (c, s')
          end
        else (97, skip_word s)
    end in
  Tok ret q (length s) (skip_white s).
(** [peek]: whether the next character is one of [toks], and the position moved
    past white space. *)
Definition peek (toks : list Z) (s : text) : bool * text :=
  let s := skip_white s in
  (match s with c :: _ => bool_decide (c ∈ toks) | [] => false end, s).

(** ** The parser *)

(** A parse ends with a value, stops the process after printing, or runs out
    of the bound on its recursion. *)
Inductive parsed (A : Type) := Got (a : A) (s : text) | Syntax (out : list Z) | Fuel.
Arguments Got {_} _ _.
Arguments Syntax {_} _.
Arguments Fuel {_}.
(** [panic(msg)] *)
Definition syntax_error {A} (msg : string) : parsed A := Syntax (chars msg ++ [10]).
Definition pbind {A B} (p : parsed A) (f : A → text → parsed B) : parsed B :=
  match p with Got a s => f a s | Syntax m => Syntax m | Fuel => Fuel end.

(** The redirections added to a command, innermost first: file, mode, fd. *)
Notation redir := (ptr * ptr * Z * Z)%type.
Definition wrap (c : cmd) (rs : list redir) : cmd :=
  foldl (λ c r, let '(f, e, m, d) := r in REDIR c f e m d) c rs.
(** The loop of [parseredirs]. *)
Fixpoint parseredirs (k : nat) (rs : list redir) (s : text) : parsed (list redir) :=
  let '(b, s) := peek [60; 62] s in
  if negb b then Got rs s else
  match k with
  | O => Fuel
  | S k' =>
      let t := gettoken s in
      let w := gettoken (tk_rest t) in
      if negb (tk_ret w =? 97) then syntax_error "missing file for redirection" else
      let r := if tk_ret t =? 60 then (tk_q w, tk_eq w, O_RDONLY, 0)
               else (tk_q w, tk_eq w, Z.lor O_WRONLY O_CREATE, 1) in
      parseredirs k' (rs ++ [r]) (tk_rest w)
  end.
(** The loop of [parseexec]: the arguments so far and the redirections. *)
Fixpoint parseargs (k : nat) (args : list (ptr * ptr)) (rs : list redir) (s : text) : parsed (list (ptr * ptr) * list redir) :=
  let '(b, s) := peek (chars "|)&;") s in
  if b then Got (args, rs) s else
  match k with
  | O => Fuel
  | S k' =>
      let t := gettoken s in
      if tk_ret t =? 0 then Got (args, rs) (tk_rest t) else
      if negb (tk_ret t =? 97) then syntax_error "syntax" else
      let args := args ++ [(tk_q t, tk_eq t)] in
      if (MAXARGS <=? length args)%nat then syntax_error "too many args" else
      pbind (parseredirs (length s) rs (tk_rest t)) (λ rs s, parseargs k' args rs s)
  end.
(** [while(peek(ps, es, "&")) ...] *)
Fixpoint parseback (k : nat) (c : cmd) (s : text) : parsed cmd :=
  let '(b, s) := peek [38] s in
  if negb b then Got c s else
  match k with O => Fuel | S k' => parseback k' (BACK c) (tk_rest (gettoken s)) end.

Fixpoint parseline (n : nat) (s : text) {struct n} : parsed cmd :=
  match n with
  | O => Fuel
  | S n' =>
      pbind (parsepipe n' s) (λ c s,
      pbind (parseback (length s) c s) (λ c s,
      let '(b, s) := peek [59] s in
      if b then pbind (parseline n' (tk_rest (gettoken s))) (λ d s, Got (LIST c d) s)
      else Got c s))
  end
with parsepipe (n : nat) (s : text) {struct n} : parsed cmd :=
  match n with
  | O => Fuel
  | S n' =>
      pbind (parseexec n' s) (λ c s,
      let '(b, s) := peek [124] s in
      if b then pbind (parsepipe n' (tk_rest (gettoken s))) (λ d s, Got (PIPE c d) s)
      else Got c s)
  end
with parseexec (n : nat) (s : text) {struct n} : parsed cmd :=
  match n with
  | O => Fuel
  | S n' =>
      let '(b, s) := peek [40] s in
      if b then parseblock n' s else
      pbind (parseredirs (length s) [] s) (λ rs s,
      pbind (parseargs (S (length s)) [] rs s) (λ r s,
      Got (wrap (EXEC r.1) r.2) s))
  end
with parseblock (n : nat) (s : text) {struct n} : parsed cmd :=
  match n with
  | O => Fuel
  | S n' =>
      let '(b, s) := peek [40] s in
      if negb b then syntax_error "parseblock" else
      pbind (parseline n' (tk_rest (gettoken s))) (λ c s,
      let '(b, s) := peek [41] s in
      if negb b then syntax_error "syntax - missing )" else
      let s := tk_rest (gettoken s) in
      pbind (parseredirs (length s) [] s) (λ rs s, Got (wrap c rs) s))
  end.

(** *** [nulterminate] *)

(** The line has [n] characters before its terminator; [*p = 0]. *)
Definition put_nul (n : nat) (p : ptr) (buf : list Z) : list Z := <[(n - p)%nat := 0]> buf.
Fixpoint nulterminate (n : nat) (c : cmd) (buf : list Z) : list Z :=
  match c with
  | EXEC args => foldl (λ b a, put_nul n a.2 b) buf args
  | REDIR c _ efile _ _ => put_nul n efile (nulterminate n c buf)
  | PIPE l r => nulterminate n r (nulterminate n l buf)
  | LIST l r => nulterminate n r (nulterminate n l buf)
  | BACK c => nulterminate n c buf
  end.
(** [parsecmd]: the command and the line it points into. *)
Definition parsecmd (fuel : nat) (s : text) : parsed (cmd * list Z) :=
  pbind (parseline fuel s) (λ c r,
  let r := (peek [] r).2 in
  match r with
  | [] => Got (c, nulterminate (length s) c (s ++ [0])) []
  | _ => Syntax (chars "leftovers: " ++ r ++ [10] ++ chars "syntax" ++ [10])
  end).

(** ** Running commands *)

Definition panic (s : list Z) : prog unit := printf 2 (chars "%s" ++ [10]) [PStr s];; Exit.
Definition fork1 : prog Z :=
  pid ← sys SFork;
  (if pid =? -1 then panic (chars "fork") else Ret tt);;
  Ret pid.
(** [runcmd]; [word p] is the string at [p].  It never returns. *)
Fixpoint runcmd (word : ptr → list Z) (c : cmd) : prog unit :=
  match c with
  | EXEC args =>
      match args with
      | [] => Exit
      | a :: _ =>
          sys (SExec (word a.1) (map (λ a, word a.1) args));;
          printf 2 (chars "exec %s failed" ++ [10]) [PStr (word a.1)];;
          Exit
      end
  | REDIR c file _ mode fd =>
      sys (SClose fd);;
      r ← sys (SOpen (word file) mode);
      (if r <? 0 then printf 2 (chars "open %s failed" ++ [10]) [PStr (word file)];; Exit else Ret tt);;
      runcmd word c;;
      Exit
  | LIST l r =>
      pid ← fork1;
      (if pid =? 0 then runcmd word l else Ret tt);;
      sys SWait;;
      runcmd word r;;
      Exit
  | PIPE l r =>
      q ← sysdata SPipe;
      let p0 := nth 0 q.2 0 in
      let p1 := nth 1 q.2 0 in
      (if q.1 <? 0 then panic (chars "pipe") else Ret tt);;
      pid ← fork1;
      (if pid =? 0 then
         sys (SClose 1);; sys (SDup p1);; sys (SClose p0);; sys (SClose p1);; runcmd word l
       else Ret tt);;
      pid ← fork1;
      (if pid =? 0 then
         sys (SClose 0);; sys (SDup p0);; sys (SClose p0);; sys (SClose p1);; runcmd word r
       else Ret tt);;
      sys (SClose p0);;
      sys (SClose p1);;
      sys SWait;;
      sys SWait;;
      Exit
  | BACK c =>
      pid ← fork1;
      (if pid =? 0 then runcmd word c else Ret tt);;
      Exit
  end.
(** The string at [p] in the line of [n] characters. *)
Definition word_at (n : nat) (buf : list Z) (p : ptr) : list Z := until_nul (drop (n - p) buf).
(** [runcmd(parsecmd(buf))] *)
Definition run_line (s : text) : prog unit :=
  match parsecmd (4 * length s + 4) s with
  | Got (c, buf) _ => runcmd (word_at (length s) buf) c
  | Syntax out => putcs 2 out;; Exit
  | Fuel => Loop
  end.
(** [getcmd]: the result and the line. *)
Definition getcmd (nbuf : Z) : prog (Z * text) :=
  printf 2 (chars "$ ") [];;
  b ← gets nbuf;
  let buf := until_nul b in
  match buf with [] => Ret (-1, []) | _ => Ret (0, buf) end.
(** [main]: three descriptors are opened, then at most [k] lines are run. *)
Fixpoint open_console (k : nat) : prog unit :=
  match k with
  | O => Loop
  | S k' =>
      fd ← sys (SOpen (chars "console") O_RDWR);
      if fd <? 0 then Ret tt else if 3 <=? fd then sys (SClose fd);; Ret tt else open_console k'
  end.
Fixpoint main_loop (k : nat) : prog unit :=
  match k with
  | O => Loop
  | S k' =>
      r ← getcmd 100;
      if r.1 <? 0 then Exit else
      match r.2 with
      | 99 :: 100 :: 32 :: _ =>
          let dir := drop 3 (removelast r.2) in
          e ← sys (SChdir dir);
          (if e <? 0 then printf 2 (chars "cannot cd %s" ++ [10]) [PStr dir] else Ret tt);;
          main_loop k'
      | _ =>
          pid ← fork1;
          (if pid =? 0 then run_line r.2 else Ret tt);;
          sys SWait;;
          main_loop k'
      end
  end.
Definition sh_main (k : nat) : prog unit := open_console (S (Z.to_nat NOFILE));; main_loop k.

(** ** Termination *)

Lemma skip_white_length s : (length (skip_white s) ≤ length s)%nat.
Proof. induction s as [|c s IH]; simpl; [lia|]. destruct (is_white c); simpl; lia. Qed.
Lemma skip_word_length s : (length (skip_word s) ≤ length s)%nat.
Proof. induction s as [|c s IH]; simpl; [lia|]. destruct (_ && _); simpl; lia. Qed.
Lemma skip_white_head s c s' : skip_white s = c :: s' → is_white c = false.
Proof. induction s as [|d s IH]; simpl; [done|]. destruct (is_white d) eqn:E; [done|]. by intros [= <- _]. Qed.
Lemma skip_white_idem s : skip_white (skip_white s) = skip_white s.
Proof. induction s as [|c s IH]; simpl; [done|]. destruct (is_white c) eqn:E; [done|]. simpl. by rewrite E. Qed.
(** A character that is no symbol of the first switch cases starts a word. *)
Lemma plain_char c : is_white c = false → bool_decide (c ∈ chars "|();&<") = false → (c =? 62) = false →
  negb (is_white c) && negb (is_symbol c) = true.
Proof.
  intros H1 H2%bool_decide_eq_false H3%Z.eqb_neq. rewrite H1. simpl. apply negb_true_iff, bool_decide_eq_false. intros H.
  change symbols with [60; 124; 62; 38; 59; 40; 41] in H. change (chars "|();&<") with [124; 40; 41; 59; 38; 60] in H2.
  set_solver.
Qed.
(** [gettoken] moves on, at the end it returns 0. *)
Lemma gettoken_length s : (length (tk_rest (gettoken s)) ≤ length s)%nat ∧
  (tk_ret (gettoken s) ≠ 0 → (length (tk_rest (gettoken s)) < length s)%nat).
Proof.
  unfold gettoken. pose proof (skip_white_length s) as Hw. destruct (skip_white s) as [|c s'] eqn:E; simpl; [simpl in Hw; lia|].
  pose proof (skip_white_length s') as H1. simpl in Hw. apply skip_white_head in E.
  destruct (bool_decide (c ∈ chars "|();&<")) eqn:E1; simpl; [lia|]. destruct (c =? 62) eqn:E2.
  - destruct s' as [|d s'']; simpl; [lia|]. pose proof (skip_white_length s''). destruct (d =? 62); simpl in *; [lia|].
    destruct (is_white d); simpl in *; lia.
  - rewrite plain_char by done. pose proof (skip_word_length s'). pose proof (skip_white_length (skip_word s')). simpl. lia.
Qed.
Lemma peek_length toks s : (length (peek toks s).2 ≤ length s)%nat.
Proof. apply skip_white_length. Qed.
(** A symbol that [peek] has seen is consumed. *)
Lemma peek_gettoken toks s : (∀ c, c ∈ toks → c ≠ 0) → (peek toks s).1 = true →
  (length (tk_rest (gettoken (peek toks s).2)) < length s)%nat.
Proof.
  intros Hz Hp. pose proof (peek_length toks s) as Hl. destruct (gettoken_length (peek toks s).2) as [_ H].
  enough (tk_ret (gettoken (peek toks s).2) ≠ 0) by (specialize (H ltac:(done)); lia). clear H Hl.
  unfold peek, gettoken in *. cbn [fst snd] in *. rewrite skip_white_idem. destruct (skip_white s) as [|c s']; [done|].
  apply bool_decide_eq_true in Hp. specialize (Hz c Hp). destruct (bool_decide _); [done|]. destruct (c =? 62); [|done].
  destruct s' as [|d s'']; [done|]. by destruct (d =? 62).
Qed.

(** The parse ends, at a later position. *)
Definition ends {A} (s : text) (p : parsed A) : Prop :=
  match p with Got _ r => (length r ≤ length s)%nat | Syntax _ => True | Fuel => False end.
Lemma ends_mono {A} s s' (p : parsed A) : (length s ≤ length s')%nat → ends s p → ends s' p.
Proof. destruct p; simpl; try done. lia. Qed.
Lemma parse_ends_bind {A B} s (p : parsed A) (f : A → text → parsed B) : ends s p →
  (∀ a r, p = Got a r → (length r ≤ length s)%nat → ends s (f a r)) → ends s (pbind p f).
Proof. destruct p; simpl; try done. intros H1 H2. by apply H2. Qed.

Lemma parseredirs_ends k : ∀ rs s, (length s ≤ k)%nat → ends s (parseredirs k rs s).
Proof.
  induction k as [|k IH]; intros rs s Hk; pose proof (peek_length [60; 62] s) as Hp;
    pose proof (peek_gettoken [60; 62] s ltac:(set_solver)) as Hg; cbn [parseredirs];
    destruct (peek [60; 62] s) as [b r]; cbn [fst snd] in *; (destruct b; cbn [negb]; [|done]); specialize (Hg eq_refl).
  - destruct s; simpl in *; lia.
  - destruct (negb _); [done|]. pose proof (proj1 (gettoken_length (tk_rest (gettoken r)))).
    eapply ends_mono; [|apply IH]; lia.
Qed.
Lemma parseargs_ends k : ∀ args rs s, (length s < k)%nat → ends s (parseargs k args rs s).
Proof.
  induction k as [|k IH]; intros args rs s Hk; [lia|]. pose proof (peek_length (chars "|)&;") s) as Hp. cbn [parseargs].
  destruct (peek (chars "|)&;") s) as [b r]. cbn [fst snd] in *. destruct b; [done|].
  destruct (gettoken_length r) as [G1 G2]. destruct (Z.eqb_spec (tk_ret (gettoken r)) 0) as [E0|E0]; [simpl; lia|].
  specialize (G2 E0). destruct (negb _); [done|]. destruct (_ <=? _)%nat; [done|].
  apply parse_ends_bind; [eapply ends_mono, parseredirs_ends; lia|]. intros rs' s' E _.
  assert (length s' ≤ length (tk_rest (gettoken r)))%nat.
  { pose proof (parseredirs_ends (length r) rs (tk_rest (gettoken r)) ltac:(lia)) as H. by rewrite E in H. }
  eapply ends_mono; [|apply IH]; lia.
Qed.
Lemma parseback_ends k : ∀ c s, (length s ≤ k)%nat → ends s (parseback k c s).
Proof.
  induction k as [|k IH]; intros c s Hk; pose proof (peek_length [38] s) as Hp;
    pose proof (peek_gettoken [38] s ltac:(set_solver)) as Hg; cbn [parseback];
    destruct (peek [38] s) as [b r]; cbn [fst snd] in *; (destruct b; cbn [negb]; [|done]); specialize (Hg eq_refl).
  - destruct s; simpl in *; lia.
  - eapply ends_mono; [|apply IH]; lia.
Qed.
Lemma parse_ends n : ∀ s,
  ((4 * length s + 4 ≤ n)%nat → ends s (parseline n s)) ∧ ((4 * length s + 3 ≤ n)%nat → ends s (parsepipe n s)) ∧
  ((4 * length s + 2 ≤ n)%nat → ends s (parseexec n s)) ∧ ((4 * length s + 1 ≤ n)%nat → ends s (parseblock n s)).
Proof.
  induction n as [|n IH]; intros s; [split_and!; lia|]. split_and!; intros Hn.
  - cbn [parseline]. apply parse_ends_bind; [apply IH; lia|]. intros c r _ Hr.
    apply parse_ends_bind; [eapply ends_mono, parseback_ends; lia|]. intros c' r' _ Hr'.
    pose proof (peek_length [59] r') as Hp. pose proof (peek_gettoken [59] r' ltac:(set_solver)) as Hg.
    destruct (peek [59] r') as [b q]. cbn [fst snd] in *. destruct b; [|simpl; lia]. specialize (Hg eq_refl).
    apply parse_ends_bind; [eapply ends_mono; [|apply IH]; lia|]. simpl. lia.
  - cbn [parsepipe]. apply parse_ends_bind; [apply IH; lia|]. intros c r _ Hr.
    pose proof (peek_length [124] r) as Hp. pose proof (peek_gettoken [124] r ltac:(set_solver)) as Hg.
    destruct (peek [124] r) as [b q]. cbn [fst snd] in *. destruct b; [|simpl; lia]. specialize (Hg eq_refl).
    apply parse_ends_bind; [eapply ends_mono; [|apply IH]; lia|]. simpl. lia.
  - cbn [parseexec]. pose proof (peek_length [40] s) as Hp. destruct (peek [40] s) as [b q]. cbn [fst snd] in *.
    destruct b; [eapply ends_mono; [|apply IH]; lia|].
    apply parse_ends_bind; [eapply ends_mono, parseredirs_ends; lia|]. intros rs r _ Hr.
    apply parse_ends_bind; [eapply ends_mono, parseargs_ends; lia|]. simpl. lia.
  - cbn [parseblock]. pose proof (peek_length [40] s) as Hp. pose proof (peek_gettoken [40] s ltac:(set_solver)) as Hg.
    destruct (peek [40] s) as [b q]. cbn [fst snd] in *. destruct b; [|done]. specialize (Hg eq_refl). cbn [negb].
    apply parse_ends_bind; [eapply ends_mono; [|apply IH]; lia|]. intros c r _ Hr.
    pose proof (peek_length [41] r) as Hp2. destruct (peek [41] r) as [b2 q2]. cbn [fst snd] in *. destruct b2; [|done]. cbn [negb].
    pose proof (proj1 (gettoken_length q2)). apply parse_ends_bind; [eapply ends_mono, parseredirs_ends; lia|]. simpl. lia.
Qed.

(** C36: The shell's parser ends on every line.  Given four times the length of
    the line, and a little, as bound on its recursion, it never reaches the
    bound: it returns a command or stops with a syntax error. *)
Theorem parsecmd_terminates s fuel (Hf : (4 * length s + 4 ≤ fuel)%nat) :
  (∃ c buf, parsecmd fuel s = Got (c, buf) []) ∨ (∃ out, parsecmd fuel s = Syntax out).
Proof.
  unfold parsecmd. pose proof (proj1 (parse_ends fuel s) Hf) as H. destruct (parseline fuel s) as [c r|m|]; [|right; by eexists|done].
  cbn [pbind]. destruct (peek [] r).2; [left; by eexists _, _|right; by eexists].
Qed.
Lemma parsecmd_terminates_witness : ∃ msg, parsecmd 12 [40; 97] = Syntax msg.
Proof.
  destruct (parsecmd_terminates [40; 97] 12 ltac:(simpl; lia)) as [(c & buf & H)|H]; [discriminate H|exact H].
Defined.

(** ** The grammar *)

(** Tokens and their spelling. *)
Inductive token := TSym (c : Z) | TGt | TGtGt | TWord (w : list Z).
Definition plain (c : Z) : Prop := is_white c = false ∧ is_symbol c = false ∧ c ≠ 0.
Definition tok_text (t : token) : list Z :=
  match t with TSym c => [c] | TGt => [62] | TGtGt => [62; 62] | TWord w => w end.
Definition tok_kind (t : token) : Z := match t with TSym c => c | TGt => 62 | TGtGt => 43 | TWord _ => 97 end.
Definition tok_ok (t : token) : Prop :=
  match t with TSym c => c ∈ chars "|();&<" | TWord w => w ≠ [] ∧ Forall plain w | _ => True end.
(** What may follow the token directly. *)
Definition delimits (t : token) (rest : text) : Prop :=
  match t with TWord _ => ∀ c, head rest = Some c → ¬ plain c ∧ c ≠ 0 | TGt => head rest ≠ Some 62 | _ => True end.
(** A line spells a sequence of tokens, with any white space around them. *)
Inductive spells : text → list token → Prop :=
  | spells_nil w : Forall (λ c, is_white c = true) w → spells w []
  | spells_cons w t rest ts : Forall (λ c, is_white c = true) w → tok_ok t → delimits t rest → spells rest ts →
      spells (w ++ tok_text t ++ rest) (t :: ts).

(** Redirections; pipelines, lists and blocks of commands. *)
Inductive rd := RIn (w : list Z) | ROut (w : list Z) | RApp (w : list Z).
Inductive line := Line (p : pipeline) (amps : nat) | Seq (p : pipeline) (amps : nat) (l : line)
with pipeline := One (e : simple) | Bar (e : simple) (p : pipeline)
with simple := Block (l : line) (rs : list rd) | Words (rs : list rd) (ws : list (list Z * list rd)).

Definition rd_toks (r : rd) : list token :=
  match r with RIn w => [TSym 60; TWord w] | ROut w => [TGt; TWord w] | RApp w => [TGtGt; TWord w] end.
Definition rds_toks (rs : list rd) : list token := rs ≫= rd_toks.
Definition words_toks (ws : list (list Z * list rd)) : list token := ws ≫= λ w, TWord w.1 :: rds_toks w.2.
Fixpoint line_toks (l : line) : list token :=
  match l with
  | Line p n => pipe_toks p ++ replicate n (TSym 38)
  | Seq p n l => pipe_toks p ++ replicate n (TSym 38) ++ [TSym 59] ++ line_toks l
  end
with pipe_toks (p : pipeline) : list token :=
  match p with One e => simple_toks e | Bar e p => simple_toks e ++ [TSym 124] ++ pipe_toks p end
with simple_toks (e : simple) : list token :=
  match e with
  | Block l rs => [TSym 40] ++ line_toks l ++ [TSym 41] ++ rds_toks rs
  | Words rs ws => rds_toks rs ++ words_toks ws
  end.

(** The command a tree stands for, with its words. *)
Inductive wcmd :=
  | WExec (args : list (list Z))
  | WRedir (c : wcmd) (file : list Z) (mode fd : Z)
  | WPipe (left right : wcmd)
  | WList (left right : wcmd)
  | WBack (c : wcmd).
Definition rd_wrap (c : wcmd) (r : rd) : wcmd :=
  match r with
  | RIn w => WRedir c w O_RDONLY 0
  | ROut w | RApp w => WRedir c w (Z.lor O_WRONLY O_CREATE) 1
  end.
Fixpoint line_cmd (l : line) : wcmd :=
  match l with
  | Line p n => Nat.iter n WBack (pipe_cmd p)
  | Seq p n l => WList (Nat.iter n WBack (pipe_cmd p)) (line_cmd l)
  end
with pipe_cmd (p : pipeline) : wcmd :=
  match p with One e => simple_cmd e | Bar e p => WPipe (simple_cmd e) (pipe_cmd p) end
with simple_cmd (e : simple) : wcmd :=
  match e with
  | Block l rs => foldl rd_wrap (line_cmd l) rs
  | Words rs ws => foldl rd_wrap (WExec ws.*1) (rs ++ (ws ≫= snd))
  end.
(** Fewer than [MAXARGS] words per command. *)
Fixpoint line_fits (l : line) : Prop :=
  match l with Line p _ => pipe_fits p | Seq p _ l => pipe_fits p ∧ line_fits l end
with pipe_fits (p : pipeline) : Prop :=
  match p with One e => simple_fits e | Bar e p => simple_fits e ∧ pipe_fits p end
with simple_fits (e : simple) : Prop :=
  match e with Block l _ => line_fits l | Words _ ws => (length ws < MAXARGS)%nat end.

(** The pointers [p] delimit the word [w] of the line. *)
Definition at_word (s : text) (p : ptr * ptr) (w : list Z) : Prop :=
  ∃ pre post, s = pre ++ w ++ post ∧ p = (length (w ++ post), length post) ∧ tok_ok (TWord w) ∧ delimits (TWord w) post.
Fixpoint means (s : text) (c : cmd) (wc : wcmd) : Prop :=
  match c, wc with
  | EXEC args, WExec ws => Forall2 (at_word s) args ws
  | REDIR c f e m d, WRedir c' w m' d' => means s c c' ∧ at_word s (f, e) w ∧ m = m' ∧ d = d'
  | PIPE l r, WPipe l' r' => means s l l' ∧ means s r r'
  | LIST l r, WList l' r' => means s l l' ∧ means s r r'
  | BACK c, WBack c' => means s c c'
  | _, _ => False
  end.

(** *** Lexing *)

Lemma at_word_suffix s s' p w : s' `suffix_of` s → at_word s' p w → at_word s p w.
Proof. intros [pre ->] (pre' & post & -> & Hp & Hw & Hd). exists (pre ++ pre'), post. by rewrite <- app_assoc. Qed.
Lemma means_suffix s s' c : s' `suffix_of` s → ∀ wc, means s' c wc → means s c wc.
Proof.
  intros Hs. induction c; intros [] H; simpl in *; try done.
  - eapply Forall2_impl; [done|]. intros. by eapply at_word_suffix.
  - destruct H as (H1 & H2 & H3 & H4). split_and!; try done; [by apply IHc|by eapply at_word_suffix].
  - destruct H. auto.
  - destruct H. auto.
  - auto.
Qed.
Lemma skip_white_app w r : Forall (λ c, is_white c = true) w → skip_white (w ++ r) = skip_white r.
Proof. induction 1 as [|c w Hc _ IH]; [done|]. simpl. by rewrite Hc. Qed.
Lemma skip_white_suffix s : skip_white s `suffix_of` s.
Proof. induction s as [|c s IH]; simpl; [done|]. destruct (is_white c); [by apply suffix_cons_r|done]. Qed.
Lemma symbol_not_white c : c ∈ symbols → is_white c = false.
Proof. intros H. apply bool_decide_eq_false. change symbols with [60; 124; 62; 38; 59; 40; 41] in H. unfold whitespace. set_solver. Qed.
Lemma tok_head t : tok_ok t → ∃ c r, tok_text t = c :: r ∧ is_white c = false ∧ c ≠ 0.
Proof.
  destruct t as [c| | |w]; simpl; intros H.
  - exists c, []. split; [done|]. change (chars "|();&<") with [124; 40; 41; 59; 38; 60] in H.
    split; [apply symbol_not_white; change symbols with [60; 124; 62; 38; 59; 40; 41]; set_solver|set_solver].
  - by exists 62, [].
  - by exists 62, [62].
  - destruct H as [Hne Hp]. destruct w as [|c w]; [done|]. exists c, w. apply Forall_cons in Hp as [(H1 & _ & H3) _]. done.
Qed.
Lemma skip_word_app w r : Forall plain w → (∀ c, head r = Some c → ¬ plain c ∧ c ≠ 0) → skip_word (w ++ r) = r.
Proof.
  intros Hw Hr. induction Hw as [|c w (H1 & H2 & H3) _ IH]; simpl.
  - destruct r as [|c r]; [done|]. simpl. destruct (Hr c eq_refl) as [Hp H0].
    destruct (is_white c) eqn:E1, (is_symbol c) eqn:E2; try done. by destruct Hp.
  - by rewrite H1, H2.
Qed.
Lemma spells_white s ts : spells s ts → spells (skip_white s) ts.
Proof.
  destruct 1 as [w Hw|w t rest ts Hw Ht Hd Hs].
  - rewrite <- (app_nil_r w), skip_white_app by done. by apply spells_nil.
  - rewrite skip_white_app by done. destruct (tok_head t Ht) as (c & r & E & Hc & _).
    assert (skip_white (tok_text t ++ rest) = [] ++ tok_text t ++ rest) as -> by (rewrite E; simpl; by rewrite Hc).
    by apply spells_cons.
Qed.
Lemma spells_end s : spells s [] → skip_white s = [].
Proof. intros H. inversion H as [w Hw|]; subst. by rewrite <- (app_nil_r s), skip_white_app. Qed.
(** The next token. *)
Lemma gettoken_ok s t ts : spells s (t :: ts) →
  tk_ret (gettoken s) = tok_kind t ∧ spells (tk_rest (gettoken s)) ts ∧ tk_rest (gettoken s) `suffix_of` s ∧
  (∀ w, t = TWord w → at_word s (tk_q (gettoken s), tk_eq (gettoken s)) w).
Proof.
  intros Hs. inversion Hs as [|w t' rest ts' Hw Ht Hd Hr]; subst. destruct (tok_head t Ht) as (c & r & E & Hc & Hc0).
  assert (Esk : skip_white (w ++ tok_text t ++ rest) = tok_text t ++ rest).
  { rewrite skip_white_app by done. rewrite E. simpl. by rewrite Hc. }
  assert (Hsuf : skip_white rest `suffix_of` w ++ tok_text t ++ rest).
  { etrans; [apply skip_white_suffix|]. rewrite app_assoc. by apply suffix_app_r. }
  assert (Hg : gettoken (w ++ tok_text t ++ rest) = Tok (tok_kind t) (length (tok_text t ++ rest)) (length rest) (skip_white rest)).
  { unfold gettoken. rewrite Esk. destruct t as [d| | |wd]; simpl in *.
    - by rewrite bool_decide_true.
    - destruct rest as [|d rest]; [done|]. simpl. destruct (Z.eqb_spec d 62) as [->|]; done.
    - done.
    - destruct Ht as [Hne Hp]. pose proof (skip_word_app wd rest Hp Hd) as Hsk. destruct wd as [|d wd]; [done|].
      apply Forall_cons in Hp as [(P1 & P2 & P3) Hp]. simpl in *. rewrite bool_decide_false.
      2: { intros Hin. assert (is_symbol d = true); [|congruence]. apply bool_decide_eq_true.
           change (chars "|();&<") with [124; 40; 41; 59; 38; 60] in Hin. change symbols with [60; 124; 62; 38; 59; 40; 41]. set_solver. }
      rewrite (proj2 (Z.eqb_neq d 62)).
      2: { intros ->. by vm_compute in P2. }
      rewrite P1, P2 in *. simpl in *. by rewrite Hsk. }
  rewrite Hg. cbn. split_and!; [done|by apply spells_white|done|]. intros wd ->. by exists w, rest.
Qed.
Lemma gettoken_end s : spells s [] → tk_ret (gettoken s) = 0 ∧ tk_rest (gettoken s) = [].
Proof. intros H. unfold gettoken. by rewrite (spells_end s H). Qed.
(** The first character of the next token. *)
Definition first (ts : list token) : option Z := match ts with t :: _ => head (tok_text t) | [] => None end.
Lemma peek_ok toks s ts : spells s ts → (peek toks s).2 `suffix_of` s ∧ spells (peek toks s).2 ts ∧
  (peek toks s).1 = match first ts with Some c => bool_decide (c ∈ toks) | None => false end.
Proof.
  intros Hs. split; [apply skip_white_suffix|]. split; [by apply spells_white|]. unfold peek. cbn [fst].
  inversion Hs as [w Hw|w t rest ts' Hw Ht Hd Hr]; subst.
  - by rewrite (spells_end s Hs).
  - rewrite skip_white_app by done. destruct (tok_head t Ht) as (c & r & E & Hc & _). simpl. rewrite E. simpl. by rewrite Hc.
Qed.
Lemma spells_ok s t ts : spells s (t :: ts) → tok_ok t.
Proof. intros H. by inversion H. Qed.
Definition stops (toks : list Z) (ts : list token) : Prop := ∀ c, first ts = Some c → c ∉ toks.
Lemma peek_stop toks s ts : spells s ts → stops toks ts → peek toks s = (false, (peek toks s).2).
Proof.
  intros Hs Hst. destruct (peek_ok toks s ts Hs) as (_ & _ & E). destruct (peek toks s) as [b r]. cbn [fst snd] in *. subst b.
  f_equal. unfold stops in Hst. destruct (first ts) as [c|]; [|done]. apply bool_decide_eq_false. by apply Hst.
Qed.
Lemma peek_go toks s ts c : spells s ts → first ts = Some c → c ∈ toks → peek toks s = (true, (peek toks s).2).
Proof.
  intros Hs Hf Hc. destruct (peek_ok toks s ts Hs) as (_ & _ & E). destruct (peek toks s) as [b r]. cbn [fst snd] in *. subst b.
  f_equal. rewrite Hf. by apply bool_decide_eq_true.
Qed.

(** *** Parsing *)

Definition redir_means (s : text) (r : redir) (x : rd) : Prop :=
  let '(f, e, m, d) := r in
  match x with
  | RIn w => at_word s (f, e) w ∧ m = O_RDONLY ∧ d = 0
  | ROut w | RApp w => at_word s (f, e) w ∧ m = Z.lor O_WRONLY O_CREATE ∧ d = 1
  end.
Lemma redir_means_suffix s s' r x : s' `suffix_of` s → redir_means s' r x → redir_means s r x.
Proof.
  intros Hs. destruct r as [[[f e] m] d], x; simpl; intros (H & ? & ?); split_and!; try done; by eapply at_word_suffix.
Qed.
Lemma redirs_suffix s s' rs xs : s' `suffix_of` s → Forall2 (redir_means s') rs xs → Forall2 (redir_means s) rs xs.
Proof. intros Hs H. eapply Forall2_impl; [done|]. intros. by eapply redir_means_suffix. Qed.
Lemma args_suffix s s' ps ws : s' `suffix_of` s → Forall2 (at_word s') ps ws → Forall2 (at_word s) ps ws.
Proof. intros Hs H. eapply Forall2_impl; [done|]. intros. by eapply at_word_suffix. Qed.
Lemma suffix_length {A} (s s' : list A) : s' `suffix_of` s → (length s' ≤ length s)%nat.
Proof. intros [pre ->]. rewrite length_app. lia. Qed.

Lemma parseredirs_ok xs : ∀ k acc s ts, (length s ≤ k)%nat → spells s (rds_toks xs ++ ts) → stops [60; 62] ts →
  ∃ rs s', parseredirs k acc s = Got (acc ++ rs) s' ∧ spells s' ts ∧ s' `suffix_of` s ∧ Forall2 (redir_means s) rs xs.
Proof.
  induction xs as [|x xs IH]; intros k acc s ts Hk Hs Hst.
  - simpl in Hs. exists [], (peek [60; 62] s).2. destruct (peek_ok [60; 62] s ts Hs) as (P1 & P2 & _). rewrite app_nil_r.
    split; [|done]. destruct k; cbn [parseredirs]; by rewrite (peek_stop _ _ _ Hs Hst).
  - assert (Hx : ∃ c t w, rd_toks x = [t; TWord w] ∧ first [t] = Some c ∧ c ∈ [60; 62] ∧ tok_kind t ≠ 0 ∧
      (∀ q e s, at_word s (q, e) w → redir_means s (if tok_kind t =? 60 then (q, e, O_RDONLY, 0)
        else (q, e, Z.lor O_WRONLY O_CREATE, 1)) x)).
    { destruct x as [w|w|w]; [exists 60, (TSym 60), w|exists 62, TGt, w|exists 62, TGtGt, w]; split_and!; done || set_solver. }
    destruct Hx as (c & t & w & Et & Hf & Hc & Hk0 & Hm). unfold rds_toks in Hs. rewrite bind_cons, Et in Hs. simpl in Hs.
    fold (rds_toks xs) in Hs. pose proof (peek_go [60; 62] s _ c Hs Hf Hc) as Hp.
    destruct (peek_ok [60; 62] s _ Hs) as (P1 & P2 & _). set (r := (peek [60; 62] s).2) in *.
    destruct (gettoken_ok r _ _ P2) as (G1 & G2 & G3 & _). destruct (gettoken_ok _ _ _ G2) as (F1 & F2 & F3 & F4).
    assert (Hlt : (length (tk_rest (gettoken (tk_rest (gettoken r)))) < length s)%nat).
    { pose proof (suffix_length _ _ P1). pose proof (suffix_length _ _ F3). pose proof (gettoken_length r) as [_ Hl].
      rewrite G1 in Hl. specialize (Hl Hk0). lia. }
    destruct k as [|k]; [lia|]. cbn [parseredirs]. rewrite Hp. cbn [negb]. rewrite F1. cbn [tok_kind Z.eqb Pos.eqb negb].
    set (t1 := gettoken r) in *. set (t2 := gettoken (tk_rest t1)) in *.
    destruct (IH k (acc ++ [if tk_ret t1 =? 60 then (tk_q t2, tk_eq t2, O_RDONLY, 0)
      else (tk_q t2, tk_eq t2, Z.lor O_WRONLY O_CREATE, 1)]) (tk_rest t2) ts ltac:(lia) F2 Hst) as (rs & s' & H1 & H2 & H3 & H4).
    rewrite <- app_assoc in H1. eexists _, s'. split; [exact H1|]. split; [done|].
    assert (Hsuf : tk_rest t2 `suffix_of` s) by (etrans; [exact F3|]; etrans; [exact G3|exact P1]).
    split; [by etrans|]. constructor; [|by eapply redirs_suffix]. rewrite G1. apply Hm.
    eapply at_word_suffix; [|by apply F4]. by etrans.
Qed.

(** What may follow a simple command. *)
Definition closes (ts : list token) : Prop := ts = [] ∨ ∃ c, first ts = Some c ∧ c ∈ chars "|)&;".
Lemma closes_stops ts : closes ts → stops [60; 62] ts ∧ stops [40] ts.
Proof.
  intros [->|(c & Hc & Hin)]; [by split|]. change (chars "|)&;") with [124; 41; 38; 59] in Hin.
  split; intros d Hd; rewrite Hc in Hd; injection Hd as <-; set_solver.
Qed.
Lemma word_head w : tok_ok (TWord w) → ∃ c, head w = Some c ∧ plain c.
Proof. intros [Hne Hp]. destruct w as [|c w]; [done|]. apply Forall_cons in Hp as [Hc _]. by exists c. Qed.
Lemma plain_not c (toks : list Z) : plain c → (∀ d, d ∈ toks → d ∈ symbols) → c ∉ toks.
Proof. intros (_ & H & _) Ht Hin. apply Ht in Hin. by apply bool_decide_eq_false in H. Qed.
Lemma words_stops s ws ts (toks : list Z) : spells s (words_toks ws ++ ts) → (∀ d, d ∈ toks → d ∈ symbols) → stops toks ts →
  stops toks (words_toks ws ++ ts).
Proof.
  intros Hs Ht Hst. destruct ws as [|[w xs] ws]; [done|]. intros c Hc. simpl in *. apply spells_ok in Hs.
  destruct (word_head w Hs) as (d & Hd & Hp). rewrite Hd in Hc. injection Hc as <-. by eapply plain_not.
Qed.
Lemma redir_syms (d : Z) : d ∈ [60; 62] → d ∈ symbols.
Proof. change symbols with [60; 124; 62; 38; 59; 40; 41]. set_solver. Qed.
Lemma close_syms d : d ∈ chars "|)&;" → d ∈ symbols.
Proof. change (chars "|)&;") with [124; 41; 38; 59]. change symbols with [60; 124; 62; 38; 59; 40; 41]. set_solver. Qed.

(** What is spelled after a prefix is spelled by some text. *)
Lemma parseredirs_skip xs s ts : spells s (rds_toks xs ++ ts) → ∃ s', spells s' ts.
Proof.
  generalize (rds_toks xs). intros l. revert s. induction l as [|t l IH]; intros s H; [by exists s|].
  inversion H; subst. by eapply IH.
Qed.
Lemma parseargs_ok ws : ∀ k args rs s ts, (length s < k)%nat → spells s (words_toks ws ++ ts) →
  (length args + length ws < MAXARGS)%nat → closes ts →
  ∃ args' rs' s', parseargs k args rs s = Got (args ++ args', rs ++ rs') s' ∧ spells s' ts ∧ s' `suffix_of` s ∧
    Forall2 (at_word s) args' ws.*1 ∧ Forall2 (redir_means s) rs' (ws ≫= snd).
Proof.
  induction ws as [|[w xs] ws IH]; intros k args rs s ts Hk Hs Hn Hc; (destruct k as [|k]; [lia|]); cbn [parseargs].
  - simpl in Hs. exists [], []. rewrite !app_nil_r. destruct (peek_ok (chars "|)&;") s ts Hs) as (P1 & P2 & _). destruct Hc as [->|(c & Hc & Hin)].
    + rewrite (peek_stop _ _ _ Hs) by done. set (r := (peek _ s).2) in *. destruct (gettoken_end r P2) as [-> ->]. cbn [Z.eqb].
      exists []. split; [done|]. split; [by apply spells_nil|]. split; [apply suffix_nil|done].
    + rewrite (peek_go _ _ _ c Hs Hc Hin). by eexists.
  - unfold words_toks in Hs. rewrite bind_cons in Hs. cbn [fst snd] in Hs. fold (words_toks ws) in Hs. rewrite <- app_assoc in Hs. simpl in Hs.
    destruct (word_head w (spells_ok _ _ _ Hs)) as (d & Hd & Hp).
    assert (Hst : stops (chars "|)&;") (TWord w :: rds_toks xs ++ words_toks ws ++ ts)).
    { intros c Hf. simpl in Hf. rewrite Hd in Hf. injection Hf as <-. eapply plain_not; [done|apply close_syms]. }
    rewrite (peek_stop _ _ _ Hs Hst). destruct (peek_ok (chars "|)&;") s _ Hs) as (P1 & P2 & _). set (r := (peek _ s).2) in *.
    destruct (gettoken_ok r _ _ P2) as (G1 & G2 & G3 & G4). pose proof (suffix_length _ _ P1).
    assert (Hlt : (length (tk_rest (gettoken r)) < length r)%nat) by (apply (gettoken_length r); by rewrite G1).
    rewrite G1. cbn [tok_kind Z.eqb Pos.eqb negb]. rewrite (proj2 (Nat.leb_gt _ _)) by (rewrite length_app; simpl in *; lia).
    assert (Hst2 : stops [60; 62] (words_toks ws ++ ts)).
    { destruct (closes_stops ts Hc) as [Hst2 _]. assert (Hsp : ∃ s2, spells s2 (words_toks ws ++ ts)).
      { destruct (parseredirs_skip xs _ _ G2) as (s2 & Hs2). by exists s2. }
      destruct Hsp as [s2 Hs2]. by eapply words_stops; [|apply redir_syms|]. }
    destruct (parseredirs_ok xs (length r) rs (tk_rest (gettoken r)) _ ltac:(lia) G2 Hst2) as (rs1 & s1 & -> & R2 & R3 & R4). cbn [pbind].
    pose proof (suffix_length _ _ R3). assert (Hsuf : tk_rest (gettoken r) `suffix_of` s) by by etrans.
    destruct (IH k (args ++ [(tk_q (gettoken r), tk_eq (gettoken r))]) (rs ++ rs1) s1 ts) as (args2 & rs2 & s2 & -> & A2 & A3 & A4 & A5);
      [lia|done|rewrite length_app; simpl in *; lia|done|].
    assert (Hsuf1 : s1 `suffix_of` s) by by etrans. rewrite <- !app_assoc. eexists _, _, s2. split; [reflexivity|]. split; [done|].
    split; [by etrans|]. split.
    + simpl. constructor; [|by eapply args_suffix]. eapply at_word_suffix; [exact P1|]. by apply G4.
    + rewrite bind_cons. apply Forall2_app; [exact (redirs_suffix _ _ _ _ Hsuf R4)|exact (redirs_suffix _ _ _ _ Hsuf1 A5)].
Qed.
Lemma parseback_ok a : ∀ k c s ts, (length s ≤ k)%nat → spells s (replicate a (TSym 38) ++ ts) → stops [38] ts →
  ∃ s', parseback k c s = Got (Nat.iter a BACK c) s' ∧ spells s' ts ∧ s' `suffix_of` s.
Proof.
  induction a as [|a IH]; intros k c s ts Hk Hs Hst.
  - simpl in Hs. destruct (peek_ok [38] s ts Hs) as (P1 & P2 & _). exists (peek [38] s).2. split; [|done].
    destruct k; cbn [parseback]; by rewrite (peek_stop _ _ _ Hs Hst).
  - simpl in Hs. pose proof (peek_go [38] s _ 38 Hs eq_refl ltac:(set_solver)) as Hp. destruct (peek_ok [38] s _ Hs) as (P1 & P2 & _).
    set (r := (peek [38] s).2) in *. destruct (gettoken_ok r _ _ P2) as (G1 & G2 & G3 & _). pose proof (suffix_length _ _ P1).
    assert (Hlt : (length (tk_rest (gettoken r)) < length r)%nat) by (apply (gettoken_length r); by rewrite G1).
    destruct k as [|k]; [lia|]. cbn [parseback]. rewrite Hp. cbn [negb].
    destruct (IH k (BACK c) (tk_rest (gettoken r)) ts ltac:(lia) G2 Hst) as (s' & H1 & H2 & H3). exists s'.
    rewrite H1, <- Nat.iter_succ_r. split; [done|]. split; [done|]. etrans; [exact H3|by etrans].
Qed.
Lemma wrap_means s c wc rs xs : means s c wc → Forall2 (redir_means s) rs xs → means s (wrap c rs) (foldl rd_wrap wc xs).
Proof.
  intros Hc H. revert c wc Hc. induction H as [|[[[f e] m] d] x rs xs Hr _ IH]; intros c wc Hc; [done|]. simpl. apply IH.
  destruct x; simpl in *; destruct Hr as (? & -> & ->); done.
Qed.
Lemma back_means s a c wc : means s c wc → means s (Nat.iter a BACK c) (Nat.iter a WBack wc).
Proof. intros H. by induction a. Qed.

(** A symbol that is next. *)
Lemma take_symbol c s ts : spells s (TSym c :: ts) → c ≠ 0 →
  ∃ s', peek [c] s = (true, (peek [c] s).2) ∧ tk_rest (gettoken (peek [c] s).2) = s' ∧ spells s' ts ∧ s' `suffix_of` s ∧
    (length s' < length s)%nat.
Proof.
  intros Hs Hc. pose proof (peek_go [c] s _ c Hs eq_refl ltac:(set_solver)) as Hp. destruct (peek_ok [c] s _ Hs) as (P1 & P2 & _).
  set (r := (peek [c] s).2) in *. destruct (gettoken_ok r _ _ P2) as (G1 & G2 & G3 & _). pose proof (suffix_length _ _ P1).
  assert (Hlt : (length (tk_rest (gettoken r)) < length r)%nat) by (apply (gettoken_length r); by rewrite G1).
  eexists. split; [done|]. split; [done|]. split; [done|]. split; [by etrans|lia].
Qed.
Definition line_end (ts : list token) : Prop := ts = [] ∨ first ts = Some 41.
Definition pipe_end (ts : list token) : Prop := ts = [] ∨ ∃ c, first ts = Some c ∧ c ∈ [41; 38; 59].
Lemma line_pipe_end a ts : line_end ts → pipe_end (replicate a (TSym 38) ++ ts).
Proof. intros [->|H]; destruct a; simpl; [by left|right; exists 38; set_solver|right; exists 41; set_solver|right; exists 38; set_solver]. Qed.
Lemma semi_pipe_end a ts : pipe_end (replicate a (TSym 38) ++ TSym 59 :: ts).
Proof. right. destruct a; simpl; [exists 59|exists 38]; set_solver. Qed.
Lemma pipe_closes ts : pipe_end ts → closes ts ∧ stops [124] ts.
Proof.
  intros [->|(c & Hc & Hin)]; [by split; [left|]|]. split.
  - right. exists c. split; [done|]. change (chars "|)&;") with [124; 41; 38; 59]. set_solver.
  - intros d Hd. rewrite Hc in Hd. injection Hd as <-. set_solver.
Qed.
Lemma bar_closes ts : closes (TSym 124 :: ts).
Proof. right. exists 124. split; [done|]. change (chars "|)&;") with [124; 41; 38; 59]. set_solver. Qed.
(** A parser of one kind of tree. *)
Definition parses {T} (P : nat → text → parsed cmd) (toks : T → list token) (wc : T → wcmd) (fits : T → Prop)
    (after : list token → Prop) (m n : nat) : Prop :=
  ∀ s (x : T) ts, (4 * length s + m ≤ n)%nat → spells s (toks x ++ ts) → fits x → after ts →
  ∃ c s', P n s = Got c s' ∧ spells s' ts ∧ s' `suffix_of` s ∧ means s c (wc x).

Lemma parse_block_ok n : parses parseline line_toks line_cmd line_fits line_end 4 n →
  ∀ s l rs ts, (4 * length s + 1 ≤ S n)%nat → spells s (simple_toks (Block l rs) ++ ts) → line_fits l → closes ts →
  ∃ c s', parseblock (S n) s = Got c s' ∧ spells s' ts ∧ s' `suffix_of` s ∧ means s c (simple_cmd (Block l rs)).
Proof.
  intros IH s l rs ts Hn Hs Hfit Hts. cbn [simple_toks] in Hs. rewrite <- !app_assoc in Hs. cbn [parseblock].
  destruct (take_symbol 40 _ _ Hs ltac:(done)) as (s1 & E1 & E2 & Hs1 & Hsuf1 & Hlt1). rewrite E1, E2. cbn [negb].
  destruct (IH s1 l _ ltac:(lia) Hs1 Hfit ltac:(right; reflexivity)) as (c & s2 & -> & Hs2 & Hsuf2 & Hm). cbn [pbind].
  destruct (take_symbol 41 _ _ Hs2 ltac:(done)) as (s3 & E3 & E4 & Hs3 & Hsuf3 & Hlt3). rewrite E3, E4. cbn [negb].
  destruct (parseredirs_ok rs (length s3) [] s3 ts ltac:(lia) Hs3 (proj1 (closes_stops ts Hts))) as (rs' & s4 & -> & Hs4 & Hsuf4 & Hr).
  cbn [pbind app]. assert (S2 : s2 `suffix_of` s) by by etrans. assert (S3 : s3 `suffix_of` s) by by etrans.
  eexists _, s4. split; [done|]. split; [done|]. split; [by etrans|]. cbn [simple_cmd]. apply wrap_means.
  - by eapply means_suffix; [|exact Hm].
  - by eapply redirs_suffix; [|exact Hr].
Qed.
Lemma parse_words_ok s rs ws ts : spells s (simple_toks (Words rs ws) ++ ts) → (length ws < MAXARGS)%nat → closes ts →
  ∃ r s1 a s2, (peek [40] s) = (false, r) ∧ parseredirs (length r) [] r = Got (a : list redir) s1 ∧
    (∃ args rs2, parseargs (S (length s1)) [] a s1 = Got (args, rs2) s2 ∧ means s (wrap (EXEC args) rs2) (simple_cmd (Words rs ws))) ∧
    spells s2 ts ∧ s2 `suffix_of` s.
Proof.
  intros Hs Hfit Hts. cbn [simple_toks] in Hs. rewrite <- app_assoc in Hs. destruct (closes_stops ts Hts) as [St1 St2].
  assert (Hw : ∃ s0, spells s0 (words_toks ws ++ ts)) by by eapply parseredirs_skip.
  destruct Hw as [s0 Hw]. assert (Sw : stops [60; 62] (words_toks ws ++ ts)) by (by eapply words_stops; [|apply redir_syms|]).
  assert (Sp : stops [40] (rds_toks rs ++ words_toks ws ++ ts)).
  { destruct rs as [|x rs]; [eapply words_stops; [done| |done]; change symbols with [60; 124; 62; 38; 59; 40; 41]; set_solver|].
    intros c Hc. destruct x; simpl in Hc; injection Hc as <-; set_solver. }
  destruct (peek_ok [40] s _ Hs) as (P1 & P2 & _). exists (peek [40] s).2. rewrite (peek_stop _ _ _ Hs Sp). set (r := (peek [40] s).2) in *.
  destruct (parseredirs_ok rs (length r) [] r _ ltac:(lia) P2 Sw) as (rs1 & s1 & R1 & R2 & R3 & R4).
  destruct (parseargs_ok ws (S (length s1)) [] rs1 s1 ts ltac:(lia) R2 ltac:(simpl; lia) Hts) as (args & rs2 & s2 & A1 & A2 & A3 & A4 & A5).
  exists s1, rs1, s2. assert (S1 : s1 `suffix_of` s) by by etrans. split; [done|]. split; [done|]. split; [|split; [done|by etrans]].
  exists args, (rs1 ++ rs2). split; [done|]. cbn [simple_cmd]. apply wrap_means; [by eapply args_suffix|].
  apply Forall2_app; [exact (redirs_suffix _ _ _ _ P1 R4)|exact (redirs_suffix _ _ _ _ S1 A5)].
Qed.
Lemma parse_simple_ok n : (∀ m, (m < n)%nat → parses parseline line_toks line_cmd line_fits line_end 4 m) →
  parses parseexec simple_toks simple_cmd simple_fits closes 2 n.
Proof.
  intros IH s e ts Hn Hs Hfit Hts. destruct n as [|n]; [lia|]. destruct e as [l rs|rs ws]; cbn [parseexec].
  - pose proof Hs as Hs0. cbn [simple_toks] in Hs0. rewrite <- !app_assoc in Hs0. simpl in Hs0.
    rewrite (peek_go [40] s _ 40 Hs0 eq_refl ltac:(set_solver)). destruct (peek_ok [40] s _ Hs) as (P1 & P2 & _).
    set (r := (peek [40] s).2) in *. pose proof (suffix_length _ _ P1). destruct n as [|n]; [lia|].
    destruct (parse_block_ok n (IH n ltac:(lia)) r l rs ts ltac:(lia) P2 Hfit Hts) as (c & s' & H1 & H2 & H3 & H4).
    exists c, s'. split; [done|]. split; [done|]. split; [by etrans|]. by eapply means_suffix.
  - destruct (parse_words_ok s rs ws ts Hs Hfit Hts) as (r & s1 & a & s2 & E1 & E2 & (args & rs2 & E3 & Hm) & H2 & H3).
    rewrite E1, E2. cbn [pbind]. rewrite E3. cbn [pbind fst snd]. by eexists _, s2.
Qed.
Lemma parse_pipe_ok n : (∀ m, (m < n)%nat → parses parseline line_toks line_cmd line_fits line_end 4 m) →
  parses parsepipe pipe_toks pipe_cmd pipe_fits pipe_end 3 n.
Proof.
  induction n as [|n IHn]; intros IH s p ts Hn Hs Hfit Hts; [lia|]. cbn [parsepipe].
  assert (He : parses parseexec simple_toks simple_cmd simple_fits closes 2 n) by (apply parse_simple_ok; intros; apply IH; lia).
  destruct (pipe_closes ts Hts) as [Hc Hst]. destruct p as [e|e p]; cbn [pipe_toks pipe_cmd pipe_fits] in *.
  - destruct (He s e ts ltac:(lia) Hs Hfit Hc) as (c & s1 & -> & H2 & H3 & H4). cbn [pbind].
    rewrite (peek_stop _ _ _ H2 Hst). destruct (peek_ok [124] s1 _ H2) as (P1 & P2 & _). eexists _, _. split; [done|]. split; [done|].
    split; [by etrans|done].
  - rewrite <- !app_assoc in Hs. destruct Hfit as [F1 F2].
    destruct (He s e _ ltac:(lia) Hs F1 (bar_closes _)) as (c & s1 & -> & H2 & H3 & H4). cbn [pbind].
    destruct (take_symbol 124 _ _ H2 ltac:(done)) as (s2 & E1 & E2 & Hs2 & Hsuf2 & Hlt2). rewrite E1, E2. pose proof (suffix_length _ _ H3).
    destruct (IHn ltac:(intros; apply IH; lia) s2 p ts ltac:(lia) Hs2 F2 Hts) as (d & s3 & -> & Hs3 & Hsuf3 & Hm). cbn [pbind].
    assert (S2 : s2 `suffix_of` s) by by etrans. eexists _, s3. split; [done|]. split; [done|]. split; [by etrans|].
    split; [done|]. by eapply means_suffix; [|exact Hm].
Qed.
Lemma parse_line_ok n : parses parseline line_toks line_cmd line_fits line_end 4 n.
Proof.
  induction n as [n IH] using lt_wf_ind. intros s l ts Hn Hs Hfit Hts. destruct n as [|n]; [lia|]. cbn [parseline].
  assert (Hp : parses parsepipe pipe_toks pipe_cmd pipe_fits pipe_end 3 n) by (apply parse_pipe_ok; intros; apply IH; lia).
  assert (Hno : stops [38] ts ∧ stops [59] ts).
  { destruct Hts as [->|H]; [done|]. split; intros d Hd; rewrite H in Hd; injection Hd as <-; set_solver. }
  destruct l as [p a|p a l]; cbn [line_toks line_cmd line_fits] in *; rewrite <- !app_assoc in Hs.
  - destruct (Hp s p _ ltac:(lia) Hs Hfit (line_pipe_end a ts Hts)) as (c & s1 & -> & H2 & H3 & H4). cbn [pbind].
    destruct (parseback_ok a (length s1) c s1 ts ltac:(lia) H2 (proj1 Hno)) as (s2 & -> & B2 & B3). cbn [pbind].
    rewrite (peek_stop _ _ _ B2 (proj2 Hno)). destruct (peek_ok [59] s2 _ B2) as (P1 & P2 & _). eexists _, _. split; [done|]. split; [done|].
    split; [etrans; [exact P1|by etrans]|]. by apply back_means.
  - destruct Hfit as [F1 F2]. destruct (Hp s p _ ltac:(lia) Hs F1 (semi_pipe_end a _)) as (c & s1 & -> & H2 & H3 & H4). cbn [pbind].
    destruct (parseback_ok a (length s1) c s1 _ ltac:(lia) H2 ltac:(intros d Hd; injection Hd as <-; set_solver)) as (s2 & -> & B2 & B3). cbn [pbind].
    destruct (take_symbol 59 _ _ B2 ltac:(done)) as (s3 & E1 & E2 & Hs3 & Hsuf3 & Hlt3). rewrite E1, E2.
    pose proof (suffix_length _ _ H3). pose proof (suffix_length _ _ B3).
    destruct (IH n ltac:(lia) s3 l ts ltac:(lia) Hs3 F2 Hts) as (d & s4 & -> & Hs4 & Hsuf4 & Hm). cbn [pbind].
    assert (S3 : s3 `suffix_of` s) by (etrans; [exact Hsuf3|by etrans]). eexists _, s4. split; [done|]. split; [done|]. split; [by etrans|].
    split; [by apply back_means|]. by eapply means_suffix; [|exact Hm].
Qed.

(** *** Words in the buffer *)

(** The positions that [nulterminate] overwrites. *)
Fixpoint marks (n : nat) (c : cmd) : list nat :=
  match c with
  | EXEC args => map (λ a, (n - a.2)%nat) args
  | REDIR c _ e _ _ => marks n c ++ [(n - e)%nat]
  | PIPE l r => marks n l ++ marks n r
  | LIST l r => marks n l ++ marks n r
  | BACK c => marks n c
  end.
Definition put_nuls (ps : list nat) (buf : list Z) : list Z := foldl (λ b i, <[i := 0]> b) buf ps.
Lemma put_nuls_app ps qs buf : put_nuls (ps ++ qs) buf = put_nuls qs (put_nuls ps buf).
Proof. apply foldl_app. Qed.
Lemma nulterminate_marks n c : ∀ buf, nulterminate n c buf = put_nuls (marks n c) buf.
Proof.
  induction c as [args|c IH f e m d|l IHl r IHr|l IHl r IHr|c IH]; intros buf; cbn [nulterminate marks]; rewrite ?put_nuls_app, ?IH, ?IHl, ?IHr; try done.
  revert buf. induction args as [|a args IH]; intros buf; [done|]. simpl. by rewrite IH.
Qed.
Lemma put_nuls_other ps : ∀ buf i, i ∉ ps → put_nuls ps buf !! i = buf !! i.
Proof.
  induction ps as [|p ps IH]; intros buf i Hi; [done|]. simpl. rewrite IH by set_solver. apply list_lookup_insert_ne. set_solver.
Qed.
Lemma put_nuls_length ps : ∀ buf, length (put_nuls ps buf) = length buf.
Proof. induction ps as [|p ps IH]; intros buf; [done|]. simpl. by rewrite IH, length_insert. Qed.
Lemma put_nuls_zero ps : ∀ buf i, (i < length buf)%nat → (i ∈ ps ∨ buf !! i = Some 0) → put_nuls ps buf !! i = Some 0.
Proof.
  induction ps as [|p ps IH]; intros buf i Hl Hi; [set_solver|]. simpl. apply IH; [by rewrite length_insert|].
  destruct (decide (p = i)) as [->|Hne]; [right; by rewrite list_lookup_insert_eq|]. rewrite list_lookup_insert_ne by done. set_solver.
Qed.

(** A marked position is at the end of the line or at a delimiter. *)
Definition delimiter (s : text) (i : nat) : Prop := ∀ c, s !! i = Some c → ¬ plain c.
Lemma at_word_delimiter s p w : at_word s p w → delimiter s (length s - p.2).
Proof.
  intros (pre & post & -> & -> & Hw & Hd) c Hc. cbn [snd] in Hc. rewrite app_assoc, length_app, Nat.add_sub in Hc.
  rewrite lookup_app_r, Nat.sub_diag in Hc by lia. destruct post as [|d post]; [done|]. injection Hc as ->. by apply (Hd c).
Qed.
Lemma marks_delimit s c : ∀ wc i, means s c wc → i ∈ marks (length s) c → delimiter s i.
Proof.
  induction c as [args|c IH f e m d|l IHl r IHr|l IHl r IHr|c IH]; intros [] i Hm Hi; cbn [means marks] in *; try done.
  - apply list_elem_of_fmap in Hi as (a & -> & Ha). apply list_elem_of_lookup in Ha as [j Ha].
    destruct (Forall2_lookup_l _ _ _ _ _ Hm Ha) as (w & _ & Hw). destruct a as [q e]. by eapply at_word_delimiter in Hw.
  - destruct Hm as (H1 & H2 & _). apply elem_of_app in Hi as [Hi|Hi]; [by eapply IH|]. apply list_elem_of_singleton in Hi as ->.
    by apply at_word_delimiter in H2.
  - destruct Hm. apply elem_of_app in Hi as [Hi|Hi]; [by eapply IHl|by eapply IHr].
  - destruct Hm. apply elem_of_app in Hi as [Hi|Hi]; [by eapply IHl|by eapply IHr].
  - by eapply IH.
Qed.
Lemma until_nul_app w l : Forall (λ c, c ≠ 0) w → until_nul (w ++ 0 :: l) = w.
Proof. induction 1 as [|c w Hc _ IH]; [done|]. simpl. rewrite (proj2 (Z.eqb_neq c 0)) by done. by rewrite IH. Qed.
(** A word whose end is marked is the string at its pointer. *)
Lemma word_at_ok s ps p w : at_word s p w → (∀ i, i ∈ ps → delimiter s i) → (length s - p.2)%nat ∈ ps →
  word_at (length s) (put_nuls ps (s ++ [0])) p.1 = w.
Proof.
  intros (pre & post & -> & -> & [Hne Hw] & Hd) Hps Hin. cbn [fst snd] in *. unfold word_at. set (s := pre ++ w ++ post) in *.
  assert (El : (length s - length (w ++ post))%nat = length pre) by (unfold s; rewrite length_app; lia). rewrite El. clear El.
  assert (Ee : (length s - length post)%nat = (length pre + length w)%nat) by (unfold s; rewrite !length_app; lia). rewrite Ee in Hin. clear Ee.
  set (buf := put_nuls ps (s ++ [0])). assert (Hz : buf !! (length pre + length w)%nat = Some 0).
  { apply put_nuls_zero; [|by left]. unfold s. rewrite !length_app. simpl. lia. }
  assert (Ht : take (length w) (drop (length pre) buf) = w).
  { apply list_eq. intros i. destruct (decide (i < length w)%nat) as [Hi|Hi].
    - rewrite lookup_take_lt, lookup_drop by done. destruct (lookup_lt_is_Some_2 w i Hi) as [c Hc].
      assert (Hsc : s !! (length pre + i)%nat = Some c).
      { unfold s. rewrite lookup_app_r, lookup_app_l by lia. replace (_ + i - _)%nat with i by lia. done. }
      unfold buf. rewrite put_nuls_other; [rewrite lookup_app_l by (eapply lookup_lt_Some; exact Hsc); by rewrite Hsc|].
      intros Hm. apply (Hps _ Hm c Hsc). by eapply Forall_lookup_1.
    - rewrite lookup_take_ge by lia. symmetry. apply lookup_ge_None_2. lia. }
  rewrite <- (take_drop (length w) (drop (length pre) buf)), Ht, drop_drop. rewrite (drop_S _ _ _ Hz). apply until_nul_app.
  eapply Forall_impl; [exact Hw|]. by intros c (_ & _ & ?).
Qed.

(** The command with its pointers read in the buffer. *)
Fixpoint cmd_words (word : ptr → list Z) (c : cmd) : wcmd :=
  match c with
  | EXEC args => WExec (map (λ a, word a.1) args)
  | REDIR c f _ m d => WRedir (cmd_words word c) (word f) m d
  | PIPE l r => WPipe (cmd_words word l) (cmd_words word r)
  | LIST l r => WList (cmd_words word l) (cmd_words word r)
  | BACK c => WBack (cmd_words word c)
  end.
Lemma cmd_words_ok s ps c : (∀ i, i ∈ ps → delimiter s i) → ∀ wc, means s c wc → (∀ i, i ∈ marks (length s) c → i ∈ ps) →
  cmd_words (word_at (length s) (put_nuls ps (s ++ [0]))) c = wc.
Proof.
  intros Hps. induction c as [args|c IH f e m d|l IHl r IHr|l IHl r IHr|c IH]; intros [] Hm Hi; cbn [means marks cmd_words] in *; try done.
  - f_equal. clear -Hps Hm Hi. induction Hm as [|a w args ws Ha _ IH]; [done|]. simpl. f_equal.
    + destruct a as [q e]. apply (word_at_ok s ps (q, e)); [done|done|]. apply Hi. by left.
    + apply IH. intros i Hin. apply Hi. by right.
  - destruct Hm as (H1 & H2 & -> & ->). f_equal; [apply IH; set_solver|]. apply (word_at_ok s ps (f, e)); [done|done|]. apply Hi. set_solver.
  - destruct Hm. f_equal; [apply IHl|apply IHr]; set_solver.
  - destruct Hm. f_equal; [apply IHl|apply IHr]; set_solver.
  - f_equal. by apply IH.
Qed.

(** The end-to-end parse. *)
Lemma parsecmd_ok s l fuel : (4 * length s + 4 ≤ fuel)%nat → spells s (line_toks l) → line_fits l →
  ∃ c buf, parsecmd fuel s = Got (c, buf) [] ∧ cmd_words (word_at (length s) buf) c = line_cmd l.
Proof.
  intros Hf Hs Hfit. rewrite <- (app_nil_r (line_toks l)) in Hs.
  destruct (parse_line_ok fuel s l [] Hf Hs Hfit (or_introl eq_refl)) as (c & r & H1 & H2 & _ & H4). unfold parsecmd. rewrite H1. cbn [pbind].
  assert ((peek [] r).2 = []) as -> by exact (spells_end r H2). eexists _, _. split; [done|].
  rewrite nulterminate_marks. apply cmd_words_ok; [|done|done]. intros i Hi. by eapply marks_delimit.
Qed.

(** ** What a command executes *)

(** The programs a command executes, each with its words and its descriptors,
    and the pipes it makes.  A command may also execute nothing, or a part:
    when a system call fails or has not been reached yet. *)
Inductive wired : fds → wcmd → list nat → list event → Prop :=
  | wired_none f c ids : wired f c ids []
  | wired_exec f a args : wired f (WExec (a :: args)) [] [Ev a (a :: args) f]
  | wired_redir f c file mode fd ids es : 0 ≤ fd → wired (<[Z.to_nat fd := Some (DFile file mode)]> f) c ids es →
      wired f (WRedir c file mode fd) ids es
  | wired_pipe f l r id ids1 ids2 es1 es2 : wired (<[1%nat := Some (DPipeW id)]> f) l ids1 es1 →
      wired (<[0%nat := Some (DPipeR id)]> f) r ids2 es2 → wired f (WPipe l r) (id :: ids1 ++ ids2) (es1 ++ es2)
  | wired_list f l r ids1 ids2 es1 es2 : wired f l ids1 es1 → wired f r ids2 es2 →
      wired f (WList l r) (ids1 ++ ids2) (es1 ++ es2)
  | wired_back f c ids es : wired f c ids es → wired f (WBack c) ids es.
(** Descriptors 0, 1 and 2 are open. *)
Definition std_open (f : fds) : Prop := ∀ i, (i < 3)%nat → ∃ d, f !! i = Some (Some d).
(** Redirections are of descriptor 0 or 1. *)
Fixpoint std_redirs (c : wcmd) : Prop :=
  match c with
  | WExec _ => True
  | WRedir c _ _ d => std_redirs c ∧ 0 ≤ d < 2
  | WPipe l r | WList l r => std_redirs l ∧ std_redirs r
  | WBack c => std_redirs c
  end.

Lemma std_open_insert f i d : std_open f → std_open (<[i := Some d]> f).
Proof.
  intros H k Hk. destruct (H k Hk) as [e He]. destruct (decide (i = k)) as [->|Hne].
  - exists d. apply list_lookup_insert_eq. by eapply lookup_lt_Some.
  - exists e. by rewrite list_lookup_insert_ne.
Qed.
Lemma std_open_free f i : std_open f → first_free f = Some i → (3 ≤ i)%nat.
Proof. intros Hf [Hi _]%first_free_Some. destruct (decide (i < 3)%nat) as [H|]; [|lia]. destruct (Hf i H). congruence. Qed.
(** A standard descriptor that is closed is the next one given out. *)
Lemma std_open_next f t : std_open f → (t < 3)%nat → first_free (<[t := None]> f) = Some t.
Proof.
  intros Hf Ht. apply first_free_Some. destruct (Hf t Ht) as [d Hd]. split; [apply list_lookup_insert_eq; by eapply lookup_lt_Some|].
  intros k Hk. rewrite list_lookup_insert_ne by lia. apply Hf. lia.
Qed.
(** The table of a child of a pipeline. *)
Lemma pipe_table (f : fds) (i j t : nat) (a b d : desc) : f !! i = Some None → f !! j = Some None → i ≠ j → t ≠ i → t ≠ j →
  <[j := None]> (<[i := None]> (<[t := Some d]> (<[t := None]> (<[j := Some b]> (<[i := Some a]> f))))) = <[t := Some d]> f.
Proof.
  intros Hi Hj Hij Hti Htj. rewrite list_insert_insert_eq. rewrite (list_insert_insert_ne _ t j), (list_insert_insert_ne _ t i) by done.
  rewrite (list_insert_insert_ne _ i j) by done. rewrite !list_insert_insert_eq. rewrite (list_insert_id (<[t := _]> f) i) by (by rewrite list_lookup_insert_ne).
  apply list_insert_id. by rewrite list_lookup_insert_ne.
Qed.
Lemma pipe_child (f : fds) (i j t src : nat) (a b d : desc) p ids es :
  std_open f → f !! i = Some None → f !! j = Some None → i ≠ j → (t < 3)%nat → (src = i ∧ d = a) ∨ (src = j ∧ d = b) →
  runs (<[j := Some b]> (<[i := Some a]> f))
    (sys (SClose (Z.of_nat t));; sys (SDup (Z.of_nat src));; sys (SClose (Z.of_nat i));; sys (SClose (Z.of_nat j));; p) ids es →
  nothing ids es ∨ runs (<[t := Some d]> f) p ids es.
Proof.
  intros Hf Hi Hj Hij Ht Hsrc H. assert (Hti : t ≠ i) by (intros ->; destruct (Hf i Ht); congruence).
  assert (Htj : t ≠ j) by (intros ->; destruct (Hf j Ht); congruence). pose proof (lookup_lt_Some _ _ _ Hi). pose proof (lookup_lt_Some _ _ _ Hj).
  set (g := <[j := Some b]> (<[i := Some a]> f)) in *. assert (Hg : std_open g) by (by do 2 apply std_open_insert).
  assert (Gi : g !! i = Some (Some a)) by (unfold g; rewrite list_lookup_insert_ne by done; by apply list_lookup_insert_eq).
  assert (Gj : g !! j = Some (Some b)) by (unfold g; apply list_lookup_insert_eq; by rewrite length_insert).
  destruct (Hg t Ht) as [e He]. apply runs_sys in H as [H|(? & ? & ? & f1 & E1 & H)]; [by left| |done|done]. apply (close_ok _ _ _ _ _ _ _ He) in E1 as ->.
  apply runs_sys in H as [H|(? & ? & ? & f2 & E2 & H)]; [by left| |done|done].
  apply (dup_ok _ _ _ d t) in E2 as ->; [|rewrite list_lookup_insert_ne by (destruct Hsrc as [[-> _]|[-> _]]; done);
    destruct Hsrc as [[-> ->]|[-> ->]]; done|by apply std_open_next].
  apply runs_sys in H as [H|(? & ? & ? & f3 & E3 & H)]; [by left| |done|done].
  apply (close_ok _ _ _ a) in E3 as ->; [|by rewrite !list_lookup_insert_ne].
  apply runs_sys in H as [H|(? & ? & ? & f4 & E4 & H)]; [by left| |done|done].
  apply (close_ok _ _ _ b) in E4 as ->; [|by rewrite !list_lookup_insert_ne].
  right. unfold g in H. by rewrite pipe_table in H.
Qed.
Lemma runs_fork1 f (q : Z → prog unit) ids es : runs f (fork1 ≫= q) ids es →
  ∃ pid ids1 es1 ids2 es2, 0 < pid ∧ runs f (q pid) ids1 es1 ∧ runs f (q 0) ids2 es2 ∧ ids = ids1 ++ ids2 ∧ es = es1 ++ es2.
Proof.
  intros H. cbn in H. inversion H as [|n ? ? ? v d f' ids' es' Hc Hef Hr|? ? pid i1 e1 i2 e2 Hp H1 H2|? ? i e H1| |]; subst; try done.
  - exists 1, [], [], [], []. split; [done|]. split; [constructor|]. split; [constructor|done].
  - exists pid, i1, e1, i2, e2. cbn in *. rewrite (proj2 (Z.eqb_neq pid (-1))) in H1 by lia. done.
  - change (runs f ((panic (chars "fork") ≫= λ _, Ret (-1)) ≫= q) ids es) in H1. apply runs_assoc, runs_assoc, runs_printf, runs_exit in H1 as [-> ->].
    exists 1, [], [], [], []. split; [done|]. split; [constructor|]. split; [constructor|done].
Qed.
Lemma runcmd_endless word c : endless (runcmd word c).
Proof.
  destruct c as [[|a args]| | | |]; cbn [runcmd]; [done|..]; intros; repeat (apply endless_then; intros); try done.
Qed.
(** Up to the order in which processes run. *)
Definition wires (f : fds) (c : wcmd) (ids : list nat) (es : list event) : Prop :=
  ∃ ids' es', wired f c ids' es' ∧ ids ≡ₚ ids' ∧ es ≡ₚ es'.
Lemma wires_none f c ids : wires f c ids [].
Proof. exists ids, []. split; [constructor|done]. Qed.
(** The child of a fork runs a command and nothing else. *)
Lemma runs_child word c f (q : unit → prog unit) ids es : runs f ((if 0 =? 0 then runcmd word c else Ret tt) ≫= q) ids es →
  runs f (runcmd word c) ids es.
Proof. apply runs_endless, runcmd_endless. Qed.
Lemma runcmd_pipe word l r f ids es : std_open f →
  (∀ f ids es, std_open f → runs f (runcmd word l) ids es → wires f (cmd_words word l) ids es) →
  (∀ f ids es, std_open f → runs f (runcmd word r) ids es → wires f (cmd_words word r) ids es) →
  runs f (runcmd word (PIPE l r)) ids es → wires f (WPipe (cmd_words word l) (cmd_words word r)) ids es.
Proof.
  intros Hf IHl IHr H. cbn [runcmd] in H. inversion H as [|n ? ? ? v d g ids' es' Hc Hef Hr| | | |]; subst; [apply wires_none|].
  cbn [fst snd] in Hr. cbn [pipe_call]. inversion Hef as [| | |? i j Hi Hj|? ? ? Hb|? ? ? ? Hb]; subst; [|apply runs_assoc, runs_printf, runs_exit in Hr as [-> ->]; apply wires_none|done].
  change (nth 0 [Z.of_nat i; Z.of_nat j] 0) with (Z.of_nat i) in Hr. change (nth 1 [Z.of_nat i; Z.of_nat j] 0) with (Z.of_nat j) in Hr.
  pose proof (proj1 (proj1 (first_free_Some _ _) Hi)) as Fi. pose proof (proj1 (proj1 (first_free_Some _ _) Hj)) as Fj.
  assert (Hij : i ≠ j). { intros ->. rewrite list_lookup_insert_eq in Fj by (by eapply lookup_lt_Some). done. }
  rewrite list_lookup_insert_ne in Fj by done. apply (runs_fork1 _ _ ids' es) in Hr as (pid & i1 & e1 & i2 & e2 & Hp & H1 & H2 & -> & ->).
  rewrite (proj2 (Z.eqb_neq pid 0)) in H1 by lia. apply (runs_fork1 _ _ i1 e1) in H1 as (pid2 & i3 & e3 & i4 & e4 & Hp2 & H3 & H4 & -> & ->).
  rewrite (proj2 (Z.eqb_neq pid2 0)) in H3 by lia.
  assert (nothing i3 e3) as [-> ->].
  { apply (runs_sys _ _ _ i3 e3) in H3 as [|(? & ? & ? & ? & _ & H3)]; [done| |done|done].
    apply runs_sys in H3 as [|(? & ? & ? & ? & _ & H3)]; [done| |done|done].
    apply runs_other in H3 as [? H3]; [|done]. apply runs_other in H3 as [? H3]; [|done]. by apply runs_exit in H3. }
  assert (L : wires (<[1%nat := Some (DPipeW n)]> f) (cmd_words word l) i2 e2).
  { apply runs_endless in H2; [|cbn -[runcmd]; intros; apply runcmd_endless].
    apply (pipe_child f i j 1 j (DPipeR n) (DPipeW n) (DPipeW n)) in H2 as [[-> ->]|H2]; try done; [apply wires_none| |lia|by right].
    apply IHl; [by apply std_open_insert|done]. }
  assert (R : wires (<[0%nat := Some (DPipeR n)]> f) (cmd_words word r) i4 e4).
  { apply runs_endless in H4; [|cbn -[runcmd]; intros; apply runcmd_endless].
    apply (pipe_child f i j 0 i (DPipeR n) (DPipeW n) (DPipeR n)) in H4 as [[-> ->]|H4]; try done; [apply wires_none| |lia|by left].
    apply IHr; [by apply std_open_insert|done]. }
  destruct L as (li & le & L1 & L2 & L3). destruct R as (ri & re & R1 & R2 & R3).
  exists (n :: li ++ ri), (le ++ re). split; [by constructor|]. rewrite L2, L3, R2, R3. split; solve_Permutation.
Qed.
Lemma runcmd_redir word c file efile mode fd f ids es : std_open f → 0 ≤ fd < 2 →
  (∀ f ids es, std_open f → runs f (runcmd word c) ids es → wires f (cmd_words word c) ids es) →
  runs f (runcmd word (REDIR c file efile mode fd)) ids es → wires f (WRedir (cmd_words word c) (word file) mode fd) ids es.
Proof.
  intros Hf Hfd IH H. cbn [runcmd] in H. destruct (Z_of_nat_complete fd ltac:(lia)) as [t ->]. assert (Ht : (t < 3)%nat) by lia.
  destruct (Hf t Ht) as [d Hd]. apply runs_sys in H as [[-> ->]|(? & ? & ? & f1 & E1 & H)]; [apply wires_none| |done|done].
  apply (close_ok _ _ _ _ _ _ _ Hd) in E1 as ->.
  apply runs_sys in H as [[-> ->]|(? & v & ? & f2 & E2 & H)]; [apply wires_none| |done|done].
  inversion E2 as [? ? ? i Hi E3 Ef E4 E5 E6| | |? ? ?|? ? ? Hb Ef E4 E5 E6|]; subst; try done.
  - rewrite (std_open_next f t Hf Ht) in Hi. injection Hi as <-. rewrite list_insert_insert_eq in H.
    rewrite (proj2 (Z.ltb_ge _ _)) in H by lia. apply (runs_endless (runcmd word c) _ (λ _, Exit) ids es) in H; [|apply runcmd_endless].
    apply IH in H as (i' & e' & H1 & H2 & H3); [|by apply std_open_insert]. exists i', e'. split; [|done]. apply wired_redir; [lia|]. by rewrite Nat2Z.id.
  - apply runs_assoc, runs_printf, runs_exit in H as [-> ->]. apply wires_none.
Qed.
Lemma runcmd_wires word c : std_redirs (cmd_words word c) → ∀ f ids es, std_open f → runs f (runcmd word c) ids es →
  wires f (cmd_words word c) ids es.
Proof.
  induction c as [args|c IH file efile mode fd|l IHl r IHr|l IHl r IHr|c IH]; cbn [cmd_words std_redirs]; intros Hs f ids es Hf H.
  - destruct args as [|a args]; cbn [runcmd] in H; [apply runs_exit in H as [-> ->]; apply wires_none|].
    apply runs_exec_inv in H as [[-> ->]|[[-> ->]|H]]; [apply wires_none|eexists [], _; split; [constructor|done]|].
    apply runs_printf, runs_exit in H as [-> ->]. apply wires_none.
  - destruct Hs. eapply runcmd_redir; eauto.
  - destruct Hs. eapply runcmd_pipe; eauto.
  - destruct Hs as [S1 S2]. cbn [runcmd] in H. apply runs_fork1 in H as (pid & i1 & e1 & i2 & e2 & Hp & H1 & H2 & -> & ->).
    apply runs_child, IHl in H2 as (li & le & L1 & L2 & L3); [|done|done]. rewrite (proj2 (Z.eqb_neq pid 0)) in H1 by lia.
    apply (runs_other _ _ _ i1 e1) in H1 as [? H1]; [|done]. apply runs_endless, IHr in H1 as (ri & re & R1 & R2 & R3); [|done|done|apply runcmd_endless].
    exists (li ++ ri), (le ++ re). split; [by constructor|]. rewrite L2, L3, R2, R3. split; solve_Permutation.
  - cbn [runcmd] in H. apply runs_fork1 in H as (pid & i1 & e1 & i2 & e2 & Hp & H1 & H2 & -> & ->).
    rewrite (proj2 (Z.eqb_neq pid 0)) in H1 by lia. apply (runs_exit _ i1 e1) in H1 as [-> ->].
    apply runs_child, IH in H2 as (li & le & L1 & L2 & L3); [|done|done]. exists li, le. split; [by constructor|done].
Qed.
(** The grammar redirects descriptors 0 and 1 only. *)
Lemma redirs_std rs : ∀ c, std_redirs c → std_redirs (foldl rd_wrap c rs).
Proof. induction rs as [|x rs IH]; intros c Hc; [done|]. apply IH. destruct x; simpl; split; done || lia. Qed.
Lemma backs_std n c : std_redirs c → std_redirs (Nat.iter n WBack c).
Proof. by induction n. Qed.
Lemma line_std l : std_redirs (line_cmd l)
with pipe_std p : std_redirs (pipe_cmd p)
with simple_std e : std_redirs (simple_cmd e).
Proof.
  - destruct l as [p n|p n l]; simpl; [apply backs_std, pipe_std|split; [apply backs_std, pipe_std|apply line_std]].
  - destruct p as [e|e p]; simpl; [apply simple_std|split; [apply simple_std|apply pipe_std]].
  - destruct e as [l rs|rs ws]; simpl; apply redirs_std; [apply line_std|done].
Qed.

(** C6: The shell understands its command language.  A line that spells, with
    any spacing, a list of pipelines of simple or parenthesised commands with
    redirections and trailing ampersands, with fewer than [MAXARGS] words per
    command, is parsed to the end; the strings that the command points to in
    the terminated buffer are the words of the line, so that reading the
    command off the buffer gives exactly the command the grammar prescribes. *)
Theorem parsecmd_parses s l fuel (Hf : (4 * length s + 4 ≤ fuel)%nat) (Hs : spells s (line_toks l)) (Hl : line_fits l) :
  ∃ c buf, parsecmd fuel s = Got (c, buf) [] ∧ cmd_words (word_at (length s) buf) c = line_cmd l.
Proof. by apply parsecmd_ok. Qed.

(** [a > b &], and a new line. *)
Definition sample : text := [97; 32; 62; 98; 38; 10].
Definition sample_line : line := Line (One (Words [] [([97], [ROut [98]])])) 1.
Lemma sample_spells : spells sample (line_toks sample_line).
Proof.
  assert (P : ∀ c, c ∈ [97; 98] → plain c).
  { intros c Hc. apply elem_of_cons in Hc as [->|Hc]; [by vm_compute|]. apply list_elem_of_singleton in Hc as ->. by vm_compute. }
  assert (Q : ∀ c, c ∈ [32; 38] → ¬ plain c ∧ c ≠ 0).
  { intros c Hc. apply elem_of_cons in Hc as [->|Hc]; [split; [by intros [H _]|done]|].
    apply list_elem_of_singleton in Hc as ->. split; [by intros (_ & H & _)|done]. }
  apply (spells_cons [] (TWord [97]) [32; 62; 98; 38; 10]); [constructor| | |].
  { split; [done|]. constructor; [apply P; set_solver|constructor]. } { intros c [= <-]. apply Q. set_solver. }
  apply (spells_cons [32] TGt [98; 38; 10]); [by repeat constructor|done|done|].
  apply (spells_cons [] (TWord [98]) [38; 10]); [constructor| | |].
  { split; [done|]. constructor; [apply P; set_solver|constructor]. } { intros c [= <-]. apply Q. set_solver. }
  apply (spells_cons [] (TSym 38) [10]); [constructor| |done|by apply spells_nil; repeat constructor].
  change (38 ∈ [124; 40; 41; 59; 38; 60]). set_solver.
Qed.
Lemma sample_fits : line_fits sample_line.
Proof. change (1 < 10)%nat. lia. Qed.
Lemma parsecmd_parses_witness : ∃ c buf, parsecmd 28 sample = Got (c, buf) [] ∧
  cmd_words (word_at 6 buf) c = WBack (WRedir (WExec [[97]]) [98] 0x201 1).
Proof.
  exact (parsecmd_parses sample sample_line 28 ltac:(vm_compute; lia) sample_spells sample_fits).
Defined.

(** C5: A command line runs what it says.  Whatever the interleaving of the
    processes the shell's child creates for a line of the command language,
    the programs executed so far are, each at most once, the commands of the
    line with their words.  A command's descriptors are the shell's, with the
    files of its redirections in their place; in a pipeline the left command
    has the write end of the pipe as descriptor 1 and the right one the read
    end of the same pipe as descriptor 0, neither holds another copy, and
    different pipelines use different pipes. *)
Theorem run_line_wires s l f P (Hs : spells s (line_toks l)) (Hl : line_fits l) (Hf : std_open f)
    (HP : rtc step (Pool 0 [] [] [(f, run_line s)]) P) :
  ∃ ids es, wired f (line_cmd l) ids es ∧ NoDup ids ∧ p_execs P ≡ₚ es.
Proof.
  destruct (parsecmd_ok s l (4 * length s + 4) ltac:(lia) Hs Hl) as (c & buf & Hc & Hw).
  destruct (process_runs _ _ _ HP) as (ids & es & Hr & Hn & _ & He). unfold run_line in Hr. rewrite Hc in Hr.
  apply runcmd_wires in Hr as (ids' & es' & H1 & H2 & H3); [|rewrite Hw; apply line_std|done].
  rewrite Hw in H1. exists ids', es'. split; [done|]. by rewrite <- H2, He.
Qed.
Definition console3 : fds := replicate 3 (Some (DFile (chars "console") O_RDWR)) ++ replicate 13 None.
Lemma console3_open : std_open console3.
Proof. intros [|[|[|i]]] Hi; [by eexists..|lia]. Qed.
Lemma run_line_wires_witness : ∃ P ids es, wired console3 (line_cmd sample_line) ids es ∧ NoDup ids ∧ p_execs P ≡ₚ es ∧
  p_execs P = [Ev [97] [[97]] (<[1%nat := Some (DFile [98] 0x201)]> console3)].
Proof.
  eassert (HP : rtc step (Pool 0 [] [] [(console3, run_line sample)]) _).
  { eapply rtc_l; [exact (step_fork 0 [] [] [] [] console3 _ 5 ltac:(done))|].
    eapply rtc_l; [eapply (step_call _ _ _ [_] []); [done|]; by eapply eff_close|].
    eapply rtc_l; [eapply (step_call _ _ _ [_] []); [done|]; by eapply eff_open|].
    eapply rtc_l; [eapply (step_exec _ _ _ [_] [])|]. apply rtc_refl. }
  destruct (run_line_wires sample sample_line console3 _ sample_spells sample_fits console3_open HP) as (ids & es & H1 & H2 & H3).
  eexists _, ids, es. split; [exact H1|]. split; [exact H2|]. split; [exact H3|]. reflexivity.
Defined.
